(* ===== verification/_CoqProject ===== *)
-Q . S2P
Prelude.v
JsString.v
Errors.v
JsValue.v
Protos.v
Varint.v
ProductionWire.v
WireSchema.v
ProductionSigning.v
Validate.v
ProductionIdentity.v
ProductionReplay.v
ProductionResource.v
ProductionProducer.v
ProductionEvents.v
Codec.v
PacketBoundary.v
WorkerTrustContract.v
WorkerTrustWire.v
WorkerTrustPacket.v
TrustSigning.v
WorkerTrustFlow.v
WorkerTrustExchange.v
RuntimeTrustConfig.v
WorkerTrustLifecycle.v
RuntimeWorkerTrust.v
ProductionAdmission.v
Json.v
BlobStore.v
Effects.v
Runtime.v
JobAnswer.v
AgentLifecycle.v
Outbound.v
Worker.v
AgentSetup.v
PbRuntime.v
StaticCode.v
StaticWire.v
StaticRoundTrip.v
StaticObjects.v
StaticVerify.v
StaticObjectTrip.v
StaticSafety.v
StaticEnds.v
ProtoFile.v
ProtoClosed.v
ProtoGenerate.v
ProtoValid.v
CapPbClasses.v
CapPbCodec.v
CapPbObjects.v
CapProto.v
CapPb.v
CapSigning.v
JspbCode.v
JspbLaws.v
JspbGenerate.v
JspbTables.v
JspbPolicyTables.v
JspbRoundTrip.v
JspbReadBack.v
JspbAccessors.v
JspbPb.v
PbSamples.v
CapPbSamples.v
CapSigningSamples.v
JspbSamples.v
TrustSamples.v
RuntimeSamples.v
JobSamples.v
