(* ===== verification/Prelude.v ===== *)
(** * The CAP Node SDK

    A model of the TypeScript SDK of the Cordum Agent Protocol,
    src/sdk/node/src, and of the generated protobuf code for JavaScript,
    src/node/cap_pb.js and src/node/cordum/agent/v1, with the theorems that make
    them correct.  File names below are relative to src/sdk/node/src unless they
    start with src/.

    ** The program

    Components exchange protobuf packets over NATS.  A scheduler sends a job
    request; the [Agent] (runtime.ts) decides whether to admit it, fetches the
    input from a blob store, runs the registered handler, stores the result and
    publishes one packet that points at it.  There are two ways in.  An ordinary
    packet is decoded and its signature verified (packet-boundary.ts,
    security.ts).  A production packet is verified on the exact bytes received
    (production-*.ts), bound to an authority and an identity, and admitted once
    by a replay store.  Before either, a worker can authenticate to its
    scheduler with a signed challenge and keep a session alive
    (worker-trust-*.ts, trust-signing*.ts, runtime-worker-trust.ts).

    The messages are declared in src/proto/cordum/agent/v1.  protobufjs turns
    the declarations into src/node/cap_pb.js: for each message a class with a
    constructor, [encode], [decode], [verify], [fromObject] and [toObject],
    which call the protobufjs runtime for scalars.  protoc turns the same
    declarations into src/node/cordum/agent/v1/*_pb.js: classes over
    google-protobuf with accessors, [serializeBinary], [deserializeBinary] and
    [toObject].

    ** Conventions

    JavaScript strings and buffers are lists of code units and of bytes; numbers
    are the values of IEEE doubles; objects are association lists of own and
    inherited properties (JsValue).  Fallible code returns [result]: a value, an
    exception with its class and message, or [NoFuel].  A function that mutates
    its argument returns the changed object beside the outcome.  An asynchronous
    method is either a task of the monad in Effects, where other tasks of the
    object act at each [await], or a step function from one [await] to the next
    over an explicit program counter.  Clocks, random draws and timers are
    arguments.

    protobufjs, google-protobuf, node:crypto, NATS, Redis and user code are
    parameters, with what the SDK relies on as named hypotheses or class laws;
    the files of samples instantiate all of them by concrete functions.

    ** Files

    - Prelude, JsString, JsValue, Json: results and exceptions, slices, and the
      parts of the language the SDK uses: strings, numbers, property order,
      JSON, UTF-8.
    - Errors: errors.ts.  Protos: subjects and display labels of protos.ts.
    - Varint, ProductionWire, WireSchema: the raw scans of production-signing.ts
      and production-wire-schema.ts.  Each is proved to accept exactly a grammar
      (C1, C5), to end ([assertClosedNestedWire_ends]), and the covered bytes to
      determine the fields (C23).
    - ProductionSigning: [verifyProductionPacket] returns a packet exactly when
      all clauses of [verified] hold (C4) and throws one class of error only, or
      what the clock callback threw (C24).  ProductionProducer:
      production-signing-producer.ts, the exact bytes that are signed (C18) and
      that they verify as the same message ([sign_verify_roundtrip]).
    - ProductionIdentity (production-validation.ts,
      [validateIdentityBinding_iff]), ProductionReplay (production-replay.ts:
      the in-memory store refines the abstract one, C6, and any lawful store
      admits a message once, [replay_at_most_once]), ProductionResource
      (production-resource.ts, [validateUri_iff], [validateResourceRef_iff]),
      ProductionEvents (production-events.ts, [bound_event_echoes_request],
      [sealProductionEvent_stamps]).
    - Validate (validate.ts, C25), Codec (codec.ts: encoding is independent of
      property order and blank fields, C26), PacketBoundary (packet-boundary.ts
      and security.ts: what is accepted, C27, and that a signed packet is
      authenticated, C28).
    - WorkerTrustContract, WorkerTrustWire, WorkerTrustPacket, TrustSigning,
      WorkerTrustFlow, WorkerTrustExchange: configuration and time
      ([createWorkerTrustConfig_iff]), the closed wire (C35), packets and their
      canonical bytes (C33, C34), transcripts and signatures (C31, C32,
      [isStrictDerSignature_iff]), and the handshake: a session comes from the
      pinned scheduler and echoes what this exchange drew (C14).
    - RuntimeTrustConfig (worker-trust-runtime-config.ts,
      [resolveRuntimeTrustSettings_settled]), WorkerTrustLifecycle
      (worker-trust-lifecycle.ts: the invariant of the session, C15, what a
      renewal leaves, C20, and that every queued call settles, C37),
      RuntimeWorkerTrust (runtime-worker-trust.ts).
    - ProductionAdmission: [decodeProductionPacket] and [admitProductionReplay]
      of runtime.ts; exactly the admitted packets are dispatched (C36), and the
      same bytes once (C12).
    - BlobStore: stores, pointers and payloads of runtime.ts.  Effects: the task
      monad and its logics. Runtime: [onMessage] and all it calls.  JobAnswer:
      an admitted job is answered at most once and as its last attempt ended
      (C7), nothing runs that was not admitted (C8), which composes the session,
      admission and verification theorems, and what one job stores is what the
      next reads (C39).
    - AgentLifecycle: start, close, reconnect and failed renewals of [Agent] as
      steps; outside of warn mode running jobs keep their connection and store
      (C13), and a close completes (C21).
    - Outbound: heartbeat.ts, progress.ts, handshake.ts, client.ts.  Worker:
      worker.ts with the heap it shares with the handler (C40).  AgentSetup: the
      constructor, [job], [use] and startup handshake of runtime.ts,
      middleware.ts, metrics.ts, logger.ts, bus.ts and testing.ts.
    - PbRuntime: the protobufjs runtime as a record of functions with the laws
      [PbLaws].  StaticCode and StaticObjects: the forms of the statements of
      generated code and their meaning, for any module of classes given as
      tables.  StaticWire, StaticRoundTrip, StaticVerify, StaticObjectTrip,
      StaticSafety, StaticEnds: what holds of every module whose tables pass
      boolean checks.
    - CapPbClasses, CapPbCodec, CapPbObjects: src/node/cap_pb.js as tables, one
      definition per function of a class with the lines it translates.  CapPb:
      the tables pass the checks, so decoding undoes encoding (C3), [fromObject]
      undoes [toObject] (C19), what [verify] accepts [encode] writes, unless the
      writer refuses a scalar (C16), and all of them end (C30).
    - ProtoFile, ProtoGenerate, ProtoClosed, ProtoValid: declarations of
      messages, the code they ask for, the schema that protobufjs reflects them
      as, and the tests they ask of a message.  CapProto: the .proto files, and
      the google.protobuf messages they import, declared as cap_pb.js has them.
      cap_pb.js is the code they ask for (C9), and [verify] accepts exactly the
      messages that pass their tests (C29). CapSigning: what [encode] writes
      passes the closed-wire scan of the SDK (C17), and with cap_pb.js as the
      codec a signed production packet verifies and is read back field by field
      (C2), which leaves no assumption about the codec but the laws of the
      runtime.
    - JspbCode, JspbLaws: the forms of the accessors and statements of the
      *_pb.js files and their meaning, over google-protobuf as a record of
      functions with the laws [JspbLaws], of which [JspbOneofLaws] are those of
      oneofs.  JspbTables, JspbPolicyTables: the files as tables, two
      definitions per class.  JspbGenerate: the code that a declaration asks
      for. JspbRoundTrip, JspbReadBack, JspbAccessors: what holds of every class
      that is the code of its declaration.  JspbPb: all of them are (C11), so
      [deserializeBinary] returns a message that shows the same as the one
      written (C10), and a member of a oneof that is set replaces the others
      (C22).
    - PbSamples, CapPbSamples, CapSigningSamples, JspbSamples: a runtime and a
      library that have the laws, and the theorems at concrete messages.
    - TrustSamples, RuntimeSamples, JobSamples: concrete parameters, the
      witnesses that hypotheses can hold together, and evaluated corner cases.

    C38 (Protos) bounds the display label.

    ** Fuel

    Recursion that is not structural has fuel, and the functions whose result
    can be [NoFuel] are proved to return or throw.  The wire scans take the
    length of the buffer, since every field has at least one byte; [JSON_parse]
    twice the length of the text plus one; [encodeVarint] the logarithm of its
    argument; the decimal text of a double 400 places for the exponent and 17
    digits, which is the range of doubles.  The retry loop of a job takes any
    fuel above [retries + 1] (C7), the queue of the lifecycle [turns_left]
    (C37).  [decode] of a generated class takes one more than the number of
    bytes, the other functions two more than the recursion limit of the runtime
    (C30), [serialize] of a google-protobuf class the depth of the message and
    [deserializeBinary] one more than the number of bytes (C10), the wait of
    testing.ts a fifth of its timeout.

    ** Simplifications

    The two zeros are one number.  A promise that never settles is a step that
    is not taken.  Steps of AgentLifecycle see only whether a field is set.
    Errors that the code only logs are not kept, a logger does not throw, the
    verification of a packet and its replay record read one value of the system
    clock, and a connection that arrives after its timeout
    ([closeLateConnection]) is not followed.  The option [longs] of [toObject]
    is not BigInt, a type the values of the model do not have.  [encode] of a
    generated class starts with a new writer, [decode] with a buffer.  Of the
    *_pb.js files, [toObject] is that without instances, [addX] appends, and an
    accessor is called with an argument of its type.

    ** Not modelled

    Loading and parsing the .proto files (protobufjs and the file system);
    [Agent.run], which is [start] and a promise that never settles; the console
    and the sockets; index.ts, worker-trust.ts and sample-worker.ts, which
    re-export or call the SDK; packaging scripts; the rpc services
    PolicyEvaluator and SafetyKernel of src/node/cap_pb.js, which only hand
    functions to a class of protobufjs; the type declarations *.d.ts; how
    google-protobuf behaves on bytes that no writer wrote; the code of the
    generators of other languages (Go, Python, C++); and the SDKs and tools in
    other languages, which are separate programs. *)

(** ** Results, exceptions, byte slices, shared automation *)

From stdpp Require Export base tactics list numbers option strings gmap.
From Stdlib Require Export ZArith Lia.

Declare Scope cap_scope.
Delimit Scope cap_scope with cap.
#[global] Open Scope Z_scope.
#[global] Open Scope cap_scope.

(** ** Code-unit strings

    A JavaScript string is a sequence of UTF-16 code units; it is kept as the
    list of their values.  [js] injects an ASCII literal. *)

Abbreviation jsstr := (list Z).
Abbreviation bytes := (list Z).

Definition js (s : string) : jsstr :=
  map (fun c => Z.of_N (Ascii.N_of_ascii c)) (String.list_ascii_of_string s).

(** ** Exceptions

    The class an exception is an instance of, with the field it adds if any,
    and its [message]. *)

(** The codes of a [NatsError] that the SDK tells apart, and the rest. *)
Inductive nats_code : Set :=
| Cancelled | ConnectionClosed | ConnectionDraining | ConnectionRefused | ConnectionTimeout
| Disconnect | NoResponders | SubClosed | SubDraining | Timeout
| OtherCode.

#[global] Instance nats_code_eq_dec : EqDecision nats_code.
Proof. solve_decision. Defined.

Inductive error_class : Set :=
| PlainError
| TypeError
| SyntaxError
| ProductionWireError
| IdentityMismatchError
| ReplayConflictError
| ReplayStoreUnavailableError
| ResourceRefValidationError
| ProductionEventConflictError
| MalformedPacketError
| SignatureInvalidError
| SignatureMissingError
| InvalidInputError
| OperationTimeoutError
| WorkerTrustSigningError
| WorkerTrustModeError
| WorkerTrustConfigError
| WorkerHandshakePacketError
| WorkerHandshakeBindingError
| WorkerHandshakeExpiredError
| WorkerHandshakeRejectionError (reason : Z)
| WorkerTrustRuntimeError
| WorkerTrustOperationalError
| NatsError (code : nats_code)
(** An error of user code or of a library, with its [name]; and a thrown value
    that is not an [Error], whose text stands for it. *)
| NamedError (name : jsstr)
| ThrownValue.

#[global] Instance error_class_eq_dec : EqDecision error_class.
Proof. solve_decision. Defined.

Record exn : Set := Exn { exn_class : error_class; exn_message : jsstr }.

#[global] Instance exn_eq_dec : EqDecision exn.
Proof. solve_decision. Defined.

(** ** The result monad

    [Ok] is a normal return, [Throw] a thrown exception.  [NoFuel] marks a run
    of a bounded model of a loop that was given too few iterations: no handler
    catches it, and each loop has a theorem that its own bound never yields it. *)

Inductive result (A : Type) : Type :=
| Ok (a : A)
| Throw (e : exn)
| NoFuel.
Arguments Ok {A} _.
Arguments Throw {A} _.
Arguments NoFuel {A}.

#[global] Instance result_ret : MRet result := fun A a => Ok a.
#[global] Instance result_bind : MBind result := fun A B f m =>
  match m with Ok a => f a | Throw e => Throw e | NoFuel => NoFuel end.

Definition throw {A} (c : error_class) (m : jsstr) : result A := Throw (Exn c m).

(** [if (b) throw new c(m);] *)
Definition throw_if (b : bool) (c : error_class) (m : jsstr) : result unit :=
  if b then throw c m else Ok tt.

(** [try { m } catch (e) { h e }] *)
Definition try_catch {A} (m : result A) (h : exn -> result A) : result A :=
  match m with Ok a => Ok a | Throw e => h e | NoFuel => NoFuel end.

Definition is_ok {A} (m : result A) : bool :=
  match m with Ok _ => true | _ => false end.

Notation "'let!' x := m 'in' k" :=
  (mbind (M := result) (fun x => k) m)
  (at level 10, x binder, m at level 99, k at level 200) : cap_scope.
Notation "'do!' m ;; k" :=
  (mbind (M := result) (fun _ : unit => k) m)
  (at level 10, m at level 99, k at level 200) : cap_scope.

Fixpoint iter_result {A} (f : A -> result unit) (l : list A) : result unit :=
  match l with
  | [] => Ok tt
  | a :: l' => do! f a ;; iter_result f l'
  end.

Section ResultLemmas.
Context {A B : Type}.

Lemma bind_Ok_iff (m : result A) (f : A -> result B) (b : B) :
  mbind f m = Ok b <-> exists a, m = Ok a /\ f a = Ok b.
Proof.
  destruct m; cbn; split.
  - eauto.
  - intros (a' & [= ->] & ?). done.
  - done.
  - intros (a' & [=] & _).
  - done.
  - intros (a' & [=] & _).
Qed.

Lemma bind_NoFuel_iff (m : result A) (f : A -> result B) :
  mbind f m = NoFuel <-> m = NoFuel \/ exists a, m = Ok a /\ f a = NoFuel.
Proof. destruct m; cbn; naive_solver. Qed.

Lemma bind_not_NoFuel (m : result A) (f : A -> result B) :
  m <> NoFuel -> (forall a, m = Ok a -> f a <> NoFuel) -> mbind f m <> NoFuel.
Proof. destruct m; cbn; auto. Qed.

Lemma throw_not_NoFuel c msg : @throw A c msg <> NoFuel.
Proof. done. Qed.

Lemma throw_if_Ok_iff (b : bool) c m u : throw_if b c m = Ok u <-> b = false.
Proof. destruct b, u; cbn; done. Qed.

Lemma throw_if_not_NoFuel (b : bool) c m : throw_if b c m <> NoFuel.
Proof. destruct b; done. Qed.

Lemma try_catch_Ok (m : result A) h a : m = Ok a -> try_catch m h = Ok a.
Proof. intros ->. done. Qed.

Lemma try_catch_throw_Ok_iff (m : result A) c msg a :
  try_catch m (fun _ => throw c msg) = Ok a <-> m = Ok a.
Proof. destruct m; cbn; naive_solver. Qed.

Lemma iter_result_Ok_iff (f : A -> result unit) l u :
  iter_result f l = Ok u <-> Forall (fun a => f a = Ok tt) l.
Proof.
  destruct u. induction l as [|a l IH]; cbn.
  - split; [constructor | done].
  - rewrite Forall_cons, <- IH.
    destruct (f a) as [[]| |]; cbn; naive_solver.
Qed.
End ResultLemmas.

Lemma do_Ok_iff {B} (m : result unit) (k : result B) (b : B) :
  (do! m ;; k) = Ok b <-> m = Ok tt /\ k = Ok b.
Proof. destruct m as [[]| |]; cbn; naive_solver. Qed.

Create HintDb cap.
#[export] Hint Resolve throw_if_not_NoFuel throw_not_NoFuel : cap.
Create Rewrite HintDb cap_rw.
#[export] Hint Rewrite @bind_Ok_iff @throw_if_Ok_iff @try_catch_throw_Ok_iff
  @iter_result_Ok_iff @bool_decide_eq_true @bool_decide_eq_false
  andb_true_iff orb_false_iff negb_true_iff negb_false_iff
  Z.ltb_lt Z.ltb_ge Z.leb_le Z.leb_gt Z.eqb_eq Z.eqb_neq : cap_rw.

(** Turn [Ok a = Ok b] into [a = b], substituting a variable side only. *)
Ltac inject_ok H :=
  injection H; clear H;
  repeat (let E := fresh "E" in
          intro E;
          try match type of E with
              | ?x = ?y => first [is_var y; subst y | is_var x; subst x]
              end).

(** Turn an equation [code = Ok r] in the context into the facts it implies:
    one per successful step and per guard that did not throw. *)
Ltac resolve_ok :=
  repeat match goal with
  | H : mbind _ _ = Ok _ |- _ => apply bind_Ok_iff in H; destruct H as (? & ? & ?)
  | H : throw_if _ _ _ = Ok _ |- _ => apply throw_if_Ok_iff in H
  | H : try_catch _ (fun _ => throw _ _) = Ok _ |- _ => apply try_catch_throw_Ok_iff in H
  | H : throw _ _ = Ok _ |- _ => discriminate H
  | H : Ok _ = Ok _ |- _ => inject_ok H
  | H : Throw _ = Ok _ |- _ => discriminate H
  | H : NoFuel = Ok _ |- _ => discriminate H
  | H : _ || _ = false |- _ => apply orb_false_iff in H; destruct H
  | H : _ && _ = true |- _ => apply andb_true_iff in H; destruct H
  | H : negb _ = false |- _ => apply negb_false_iff in H
  | H : negb _ = true |- _ => apply negb_true_iff in H
  | H : unit |- _ => destruct H
  end.

(** [m] throws exceptions of one class only. *)
Definition throws_only {A} (c : error_class) (m : result A) : Prop :=
  forall e, m = Throw e -> exn_class e = c.

Lemma throws_only_bind {A B} c (m : result A) (f : A -> result B) :
  throws_only c m -> (forall a, m = Ok a -> throws_only c (f a)) -> throws_only c (mbind f m).
Proof. unfold throws_only. destruct m; cbn; naive_solver. Qed.

Lemma throws_only_throw {A} c msg : throws_only c (@throw A c msg).
Proof. intros e [= <-]. done. Qed.

Lemma throws_only_Ok {A} c (a : A) : throws_only c (Ok a).
Proof. done. Qed.

Lemma throws_only_NoFuel {A} c : throws_only c (@NoFuel A).
Proof. done. Qed.

Lemma throws_only_throw_if c (b : bool) msg : throws_only c (throw_if b c msg).
Proof. intros e. destruct b; [intros [= <-]|]; done. Qed.

Lemma throws_only_try {A} c (m : result A) h :
  (forall e, throws_only c (h e)) -> throws_only c (try_catch m h).
Proof. unfold throws_only. destruct m; cbn; naive_solver. Qed.

Lemma try_catch_not_NoFuel {A} (m : result A) h :
  m <> NoFuel -> (forall e, h e <> NoFuel) -> try_catch m h <> NoFuel.
Proof. destruct m; cbn; auto. Qed.

(** A call that ends and throws one class only returns or throws that class. *)
Lemma returns_or_throws {A} c (m : result A) :
  m <> NoFuel -> throws_only c m -> (exists a, m = Ok a) \/ (exists msg, m = throw c msg).
Proof.
  destruct m as [a|[c' msg]|]; [by eauto| |done]. intros _ H. right. exists msg.
  by rewrite <- (H _ eq_refl).
Qed.

#[export] Hint Resolve throws_only_throw throws_only_Ok throws_only_NoFuel throws_only_throw_if : cap.

(** Prove [code <> NoFuel] for loop-free code over calls known not to run out. *)
Ltac no_fuel :=
  repeat first
    [ done
    | solve [auto with cap]
    | apply bind_not_NoFuel; [| intros ? ?]
    | apply try_catch_not_NoFuel; [| intros ?]
    | progress cbn zeta
    | match goal with |- (match ?x with _ => _ end) <> NoFuel => destruct x end ].

(** Prove [throws_only c code] for loop-free code. *)
Ltac throws_only :=
  repeat first
    [ solve [auto with cap]
    | apply throws_only_bind; [| intros ? ?]
    | apply throws_only_try; intros ?
    | progress cbn zeta
    | match goal with |- throws_only _ (match ?x with _ => _ end) => destruct x end ].

(** ** Byte buffers: length, indexing and [subarray] *)

Definition zlen {A} (l : list A) : Z := Z.of_nat (length l).

Definition znth {A} (l : list A) (i : Z) : option A :=
  if i <? 0 then None else l !! Z.to_nat i.

(** [l.subarray(a, b)] for [0 <= a]. *)
Definition slice {A} (l : list A) (a b : Z) : list A :=
  take (Z.to_nat (b - a)) (drop (Z.to_nat a) l).

Section SliceLemmas.
Context {A : Type}.
Implicit Types (l pre mid post : list A).

Lemma zlen_nonneg l : 0 <= zlen l.
Proof. unfold zlen. lia. Qed.

Lemma zlen_app l1 l2 : zlen (l1 ++ l2) = zlen l1 + zlen l2.
Proof. unfold zlen. rewrite length_app. lia. Qed.

Lemma zlen_cons a l : zlen (a :: l) = 1 + zlen l.
Proof. unfold zlen. cbn. lia. Qed.

Lemma zlen_nil : zlen (@nil A) = 0.
Proof. done. Qed.

Lemma zlen_0_inv l : zlen l = 0 -> l = [].
Proof. destruct l; [done|]. rewrite zlen_cons. pose proof (zlen_nonneg l). lia. Qed.

Lemma slice_app_mid pre mid post :
  slice (pre ++ mid ++ post) (zlen pre) (zlen pre + zlen mid) = mid.
Proof.
  unfold slice, zlen.
  rewrite Nat2Z.id, drop_app_length.
  replace (Z.to_nat _) with (length mid) by lia.
  apply take_app_length.
Qed.

Lemma slice_zlen l a b : 0 <= a <= b -> b <= zlen l -> zlen (slice l a b) = b - a.
Proof.
  unfold slice, zlen. intros. rewrite length_take, length_drop. lia.
Qed.

(** A buffer is the part before a slice, the slice, and the part after it. *)
Lemma slice_split l a b :
  0 <= a <= b -> b <= zlen l ->
  l = slice l 0 a ++ slice l a b ++ drop (Z.to_nat b) l.
Proof.
  intros Hab Hb. unfold slice, zlen in *. cbn. rewrite drop_0.
  replace (Z.to_nat (a - 0)) with (Z.to_nat a) by lia.
  rewrite <- (take_drop (Z.to_nat a) l) at 1. f_equal.
  rewrite <- (take_drop (Z.to_nat (b - a)) (drop (Z.to_nat a) l)) at 1. f_equal.
  rewrite drop_drop. f_equal. lia.
Qed.

Lemma slice_full l : slice l 0 (zlen l) = l.
Proof.
  unfold slice, zlen. cbn. rewrite drop_0, Z.sub_0_r, Nat2Z.id. apply firstn_all.
Qed.

Lemma slice_app_slice l a b c :
  0 <= a <= b -> b <= c -> slice l a b ++ slice l b c = slice l a c.
Proof.
  intros. unfold slice.
  replace (Z.to_nat (c - a)) with (Z.to_nat (b - a) + Z.to_nat (c - b))%nat by lia.
  rewrite <- take_take_drop, drop_drop. f_equal. f_equal. f_equal. lia.
Qed.

Lemma slice_empty l a : slice l a a = [].
Proof. unfold slice. rewrite Z.sub_diag. done. Qed.

Lemma znth_app_r pre post i :
  zlen pre <= i -> znth (pre ++ post) i = znth post (i - zlen pre).
Proof.
  unfold znth, zlen. intros.
  destruct (Z.ltb_spec i 0); [lia|]. destruct (Z.ltb_spec (i - Z.of_nat (length pre)) 0); [lia|].
  rewrite lookup_app_r by lia. f_equal. lia.
Qed.

Lemma znth_app_l pre post i :
  i < zlen pre -> znth (pre ++ post) i = znth pre i.
Proof.
  unfold znth, zlen. intros.
  destruct (Z.ltb_spec i 0); [done|]. apply lookup_app_l. lia.
Qed.

Lemma znth_cons_0 a l : znth (a :: l) 0 = Some a.
Proof. done. Qed.

Lemma znth_Some_lt l i a : znth l i = Some a -> 0 <= i < zlen l.
Proof.
  unfold znth, zlen. destruct (Z.ltb_spec i 0); [done|].
  intros ?%lookup_lt_Some. lia.
Qed.

Lemma znth_lt_Some l i : 0 <= i < zlen l -> exists a, znth l i = Some a.
Proof.
  unfold znth, zlen. intros. destruct (Z.ltb_spec i 0); [lia|].
  apply lookup_lt_is_Some_2. lia.
Qed.

Lemma slice_snoc l a b x :
  0 <= a <= b -> znth l b = Some x -> slice l a (b + 1) = slice l a b ++ [x].
Proof.
  intros Hab Hx. pose proof (znth_Some_lt _ _ _ Hx).
  rewrite <- (slice_app_slice l a b (b + 1)) by lia. f_equal.
  unfold slice. replace (Z.to_nat (b + 1 - b)) with 1%nat by lia.
  unfold znth in Hx. destruct (Z.ltb_spec b 0); [done|].
  apply take_drop_middle in Hx. 
  rewrite <- Hx, drop_app_length'; [done|].
  rewrite length_take. unfold zlen in *. lia.
Qed.
End SliceLemmas.

Create Rewrite HintDb zlen.
#[export] Hint Rewrite @zlen_app @zlen_cons @zlen_nil : zlen.

Ltac zlen_lia := autorewrite with zlen in *; unfold zlen in *; lia.

(** Every byte of a [Uint8Array] is in range. *)
Definition is_byte (b : Z) : Prop := 0 <= b < 256.

(** ** Generic list facts *)

(** [map.get(k)] of a [Map<number, A>] literal. *)
Fixpoint zassoc {A} (k : Z) (l : list (Z * A)) : option A :=
  match l with
  | [] => None
  | (k', v) :: l' => if k =? k' then Some v else zassoc k l'
  end.

(** [set.has(k)] of a [Set<number>]. *)
Definition zmem (k : Z) (l : list Z) : bool := existsb (Z.eqb k) l.

Lemma zmem_In k l : zmem k l = true <-> In k l.
Proof.
  unfold zmem. rewrite existsb_exists. split.
  - intros (x & ? & ->%Z.eqb_eq). done.
  - intros. exists k. by rewrite Z.eqb_refl.
Qed.

Lemma zmem_not_In k l : zmem k l = false <-> ~ In k l.
Proof. rewrite <- zmem_In. by destruct (zmem k l). Qed.

Lemma concat_map_app {A B} (f : A -> list B) l1 l2 :
  concat (map f (l1 ++ l2)) = concat (map f l1) ++ concat (map f l2).
Proof. by rewrite map_app, concat_app. Qed.

Lemma filter_all {A} (f : A -> bool) l : Forall (fun x => f x = true) l -> List.filter f l = l.
Proof. induction 1 as [|x l Hx _ IH]; [done|]. cbn. by rewrite Hx, IH. Qed.

Lemma filter_none {A} (f : A -> bool) l : Forall (fun x => f x = false) l -> List.filter f l = [].
Proof. induction 1 as [|x l Hx _ IH]; [done|]. cbn. by rewrite Hx. Qed.

Lemma elem_of_filter_list {A} (f : A -> bool) l x : x ∈ List.filter f l <-> x ∈ l /\ f x = true.
Proof. rewrite !list_elem_of_In. apply filter_In. Qed.

(** In a list with distinct keys an element is determined by its key. *)
Lemma key_determines {A K} (key : A -> K) l x y : NoDup (map key l) -> x ∈ l -> y ∈ l -> key x = key y -> x = y.
Proof.
  induction l as [|z l IH]; intros Hnd Hx Hy E; [by apply not_elem_of_nil in Hx|]. cbn [map] in Hnd. apply NoDup_cons in Hnd as [Hz Hnd].
  apply elem_of_cons in Hx as [-> | Hx]; apply elem_of_cons in Hy as [-> | Hy]; try done; [| |by apply IH].
  - exfalso. apply Hz. rewrite E. by apply list_elem_of_fmap_2.
  - exfalso. apply Hz. rewrite <- E. by apply list_elem_of_fmap_2.
Qed.

Lemma NoDup_concat_map {A B} (F : A -> list B) l :
  NoDup l -> (forall x, x ∈ l -> NoDup (F x)) ->
  (forall x y z, x ∈ l -> y ∈ l -> z ∈ F x -> z ∈ F y -> x = y) -> NoDup (concat (map F l)).
Proof.
  induction l as [|x l IH]; intros Hnd HF Hd; [constructor|]. apply NoDup_cons in Hnd as [Hx Hnd]. cbn [map concat].
  apply NoDup_app. split; [apply HF; by left|]. split.
  - intros z Hz Hin. apply list_elem_of_In, in_concat in Hin as (ys & Hys & Hz'). apply in_map_iff in Hys as (y & <- & Hy).
    apply list_elem_of_In in Hy, Hz'. apply Hx. rewrite (Hd x y z); auto; [by left | by right].
  - apply IH; [done | intros y Hy; apply HF; by right | intros a b z Ha Hb; apply Hd; by right].
Qed.
