(* ===== verification/JsString.v ===== *)
(** * JavaScript strings

    The string and buffer primitives the SDK uses, on code-unit lists:
    [trim], [startsWith], [indexOf], [includes], [split], [slice],
    [Buffer.byteLength(s, "utf8")], [Buffer.toString("hex")] and the string
    quoting of [JSON.stringify].  The lemmas that the components rely on are
    that trimming is a projection, and that [JSON.stringify] of an array of
    strings can be read back, hence is injective. *)

From S2P Require Import Prelude.

(** ** White space and [String.prototype.trim] *)

(** The code units of the WhiteSpace and LineTerminator productions. *)
Definition is_ws (c : Z) : bool :=
  ((9 <=? c) && (c <=? 13)) || (c =? 32) || (c =? 160) || (c =? 0x1680) ||
  ((0x2000 <=? c) && (c <=? 0x200a)) || (c =? 0x2028) || (c =? 0x2029) ||
  (c =? 0x202f) || (c =? 0x205f) || (c =? 0x3000) || (c =? 0xfeff).

Fixpoint trim_start (s : jsstr) : jsstr :=
  match s with
  | c :: s' => if is_ws c then trim_start s' else s
  | [] => []
  end.

Definition trim_end (s : jsstr) : jsstr := rev (trim_start (rev s)).

Definition trim (s : jsstr) : jsstr := trim_end (trim_start s).

(** [value.trim() === value] *)
Definition trimmed (s : jsstr) : bool := bool_decide (trim s = s).

Definition str_empty (s : jsstr) : bool := match s with [] => true | _ => false end.

(** ** Searching *)

Fixpoint starts_with (p s : jsstr) : bool :=
  match p, s with
  | [], _ => true
  | a :: p', b :: s' => (a =? b) && starts_with p' s'
  | _ :: _, [] => false
  end.

(** [s.indexOf(c)] for a one-unit pattern; [-1] when absent. *)
Fixpoint index_of_from (i : Z) (c : Z) (s : jsstr) : Z :=
  match s with
  | [] => -1
  | b :: s' => if b =? c then i else index_of_from (i + 1) c s'
  end.

Definition index_of (c : Z) (s : jsstr) : Z := index_of_from 0 c s.

Fixpoint includes (p s : jsstr) : bool :=
  starts_with p s || match s with [] => false | _ :: s' => includes p s' end.

(** [s.split(c)] for a one-unit separator. *)
Fixpoint split_on (c : Z) (s : jsstr) : list jsstr :=
  match s with
  | [] => [[]]
  | b :: s' =>
      if b =? c then [] :: split_on c s'
      else match split_on c s' with
           | seg :: segs => (b :: seg) :: segs
           | [] => [[b]]
           end
  end.

Fixpoint join (sep : jsstr) (l : list jsstr) : jsstr :=
  match l with
  | [] => []
  | [a] => a
  | a :: l' => a ++ sep ++ join sep l'
  end.

(** ** UTF-8 *)

Definition is_high (c : Z) : bool := (0xd800 <=? c) && (c <=? 0xdbff).
Definition is_low (c : Z) : bool := (0xdc00 <=? c) && (c <=? 0xdfff).

Definition utf8_of_code_point (p : Z) : bytes :=
  if p <? 0x80 then [p]
  else if p <? 0x800 then [Z.lor 0xc0 (Z.shiftr p 6); Z.lor 0x80 (Z.land p 0x3f)]
  else if p <? 0x10000 then
    [Z.lor 0xe0 (Z.shiftr p 12); Z.lor 0x80 (Z.land (Z.shiftr p 6) 0x3f);
     Z.lor 0x80 (Z.land p 0x3f)]
  else
    [Z.lor 0xf0 (Z.shiftr p 18); Z.lor 0x80 (Z.land (Z.shiftr p 12) 0x3f);
     Z.lor 0x80 (Z.land (Z.shiftr p 6) 0x3f); Z.lor 0x80 (Z.land p 0x3f)].

(** The code points of a string, a lone surrogate standing for itself. *)
Fixpoint code_points (s : jsstr) : list Z :=
  match s with
  | [] => []
  | c :: s' =>
      match s' with
      | d :: s'' =>
          if is_high c && is_low d
          then 0x10000 + (c - 0xd800) * 0x400 + (d - 0xdc00) :: code_points s''
          else c :: code_points s'
      | [] => [c]
      end
  end.

(** The characters a string iterates over: code points, as strings. *)
Fixpoint string_chars (s : jsstr) : list jsstr :=
  match s with
  | [] => []
  | c :: s' =>
      match s' with
      | d :: s'' => if is_high c && is_low d then [c; d] :: string_chars s'' else [c] :: string_chars s'
      | [] => [[c]]
      end
  end.

(** [Buffer.from(s, "utf8")]; a lone surrogate is written as U+FFFD. *)
Definition utf8 (s : jsstr) : bytes :=
  concat (map (fun p => utf8_of_code_point (if is_high p || is_low p then 0xfffd else p))
              (code_points s)).

(** ** Hexadecimal *)

Definition hex_digit (d : Z) : Z := if d <? 10 then 48 + d else 87 + d.

Definition hex_byte (b : Z) : jsstr := [hex_digit (b / 16); hex_digit (b mod 16)].

(** [Buffer.from(b).toString("hex")] *)
Definition to_hex (b : bytes) : jsstr := concat (map hex_byte b).

Definition hex_value (c : Z) : Z := if c <? 97 then c - 48 else c - 87.

(** ** [JSON.stringify] on strings and arrays of strings *)

Definition hex4 (c : Z) : jsstr :=
  [hex_digit (c / 4096); hex_digit (c / 256 mod 16);
   hex_digit (c / 16 mod 16); hex_digit (c mod 16)].

(** The escape of one code unit that is not half of a surrogate pair. *)
Definition quote_unit (c : Z) : jsstr :=
  if c =? 8 then [92; 98]
  else if c =? 9 then [92; 116]
  else if c =? 10 then [92; 110]
  else if c =? 12 then [92; 102]
  else if c =? 13 then [92; 114]
  else if c =? 34 then [92; 34]
  else if c =? 92 then [92; 92]
  else if (c <? 32) || is_high c || is_low c then [92; 117] ++ hex4 c
  else [c].

Fixpoint quote_body (s : jsstr) : jsstr :=
  match s with
  | [] => []
  | c :: s' =>
      match s' with
      | d :: s'' =>
          if is_high c && is_low d then c :: d :: quote_body s''
          else quote_unit c ++ quote_body s'
      | [] => quote_unit c
      end
  end.

Definition json_quote (s : jsstr) : jsstr := [34] ++ quote_body s ++ [34].

Definition json_strings (l : list jsstr) : jsstr :=
  [91] ++ join [44] (map json_quote l) ++ [93].

(** A reader for quoted strings, up to and including the closing quote. *)
Definition unescape (e : Z) : Z :=
  if e =? 98 then 8 else if e =? 116 then 9 else if e =? 110 then 10
  else if e =? 102 then 12 else if e =? 114 then 13 else e.

Fixpoint unquote (s : jsstr) : option (jsstr * jsstr) :=
  match s with
  | [] => None
  | c :: s' =>
      if c =? 34 then Some ([], s')
      else if c =? 92 then
        match s' with
        | e :: s2 =>
            if e =? 117 then
              match s2 with
              | x3 :: x2 :: x1 :: x0 :: s3 =>
                  let v := hex_value x3 * 4096 + hex_value x2 * 256
                           + hex_value x1 * 16 + hex_value x0 in
                  (fun p => (v :: p.1, p.2)) <$> unquote s3
              | _ => None
              end
            else (fun p => (unescape e :: p.1, p.2)) <$> unquote s2
        | [] => None
        end
      else (fun p => (c :: p.1, p.2)) <$> unquote s'
  end.

(** ** Lemmas *)

Definition is_unit (c : Z) : Prop := 0 <= c < 65536.
Definition wf_str (s : jsstr) : Prop := Forall is_unit s.

Section Trim.
Implicit Types s : jsstr.

Lemma trim_start_idem s : trim_start (trim_start s) = trim_start s.
Proof.
  induction s as [|c s IH]; cbn; [done|].
  destruct (is_ws c) eqn:E; [done|]. cbn. by rewrite E.
Qed.

Lemma trim_start_suffix s : exists w, s = w ++ trim_start s.
Proof.
  induction s as [|c s [w IH]]; cbn; [by exists []|].
  destruct (is_ws c); [|by exists []].
  exists (c :: w). cbn. by rewrite <- IH.
Qed.

(** A string [trim_start] does not change is empty or starts with a visible
    unit. *)
Lemma trim_start_id_iff s :
  trim_start s = s <-> match s with [] => True | c :: _ => is_ws c = false end.
Proof.
  destruct s as [|c s]; cbn; [done|].
  destruct (is_ws c) eqn:E; [|done]. split; [|done].
  intros H. destruct (trim_start_suffix s) as [w Hw].
  apply (f_equal length) in H. apply (f_equal length) in Hw.
  rewrite length_app in Hw. cbn in H. lia.
Qed.

Lemma trim_end_idem s : trim_end (trim_end s) = trim_end s.
Proof. unfold trim_end. by rewrite rev_involutive, trim_start_idem. Qed.

Lemma trim_start_trim_end s : trim_start s = s -> trim_start (trim_end s) = trim_end s.
Proof.
  intros H%trim_start_id_iff. apply trim_start_id_iff. unfold trim_end.
  destruct (trim_start_suffix (rev s)) as [w Hw].
  assert (s = rev (trim_start (rev s)) ++ rev w) as Hs.
  { rewrite <- rev_app_distr, <- Hw. by rewrite rev_involutive. }
  destruct (rev (trim_start (rev s))) as [|c t]; [done|].
  rewrite Hs in H. done.
Qed.

Lemma trim_idem s : trim (trim s) = trim s.
Proof.
  unfold trim. rewrite (trim_start_trim_end (trim_start s)) by apply trim_start_idem.
  apply trim_end_idem.
Qed.

Lemma trimmed_trim s : trimmed (trim s) = true.
Proof. unfold trimmed. apply bool_decide_eq_true, trim_idem. Qed.
End Trim.

Lemma starts_with_app p s : starts_with p (p ++ s) = true.
Proof. induction p; cbn; [done|]. by rewrite Z.eqb_refl, IHp. Qed.

Lemma starts_with_iff p s : starts_with p s = true <-> exists t, s = p ++ t.
Proof.
  split; [|intros [t ->]; apply starts_with_app].
  revert s; induction p as [|a p IH]; intros s; cbn; [by exists s|].
  destruct s as [|b s]; [done|]. intros [->%Z.eqb_eq [t ->]%IH]%andb_true_iff. by exists t.
Qed.

Section Quoting.

Lemma hex_value_digit d : 0 <= d < 16 -> hex_value (hex_digit d) = d.
Proof.
  intros. unfold hex_value, hex_digit.
  repeat case_match; lia.
Qed.

Lemma hex4_value c :
  is_unit c ->
  exists x3 x2 x1 x0, hex4 c = [x3; x2; x1; x0] /\
    hex_value x3 * 4096 + hex_value x2 * 256 + hex_value x1 * 16 + hex_value x0 = c.
Proof.
  unfold is_unit. intros Hc. unfold hex4. do 4 eexists. split; [done|].
  assert (c / 256 mod 16 = c / 256 - 16 * (c / 4096)) as E2.
  { rewrite Z.mod_eq by lia. rewrite Z.div_div by lia. done. }
  assert (c / 16 mod 16 = c / 16 - 16 * (c / 256)) as E1.
  { rewrite Z.mod_eq by lia. rewrite Z.div_div by lia. done. }
  assert (c mod 16 = c - 16 * (c / 16)) as E0 by (apply Z.mod_eq; lia).
  rewrite !hex_value_digit; try (apply Z.mod_pos_bound; lia); [lia|].
  split; [apply Z.div_pos; lia | apply Z.div_lt_upper_bound; lia].
Qed.

Lemma unquote_unit c r p :
  is_unit c -> unquote r = Some p -> unquote (quote_unit c ++ r) = Some (c :: p.1, p.2).
Proof.
  intros Hc Hr. unfold quote_unit.
  repeat match goal with
  | |- context [c =? ?k] => destruct (Z.eqb_spec c k); [subst; cbn; by rewrite Hr |]
  end.
  destruct (_ || _ || _) eqn:E.
  - destruct (hex4_value c Hc) as (x3 & x2 & x1 & x0 & -> & Hv).
    cbn -[Z.mul]. rewrite Hr. cbn -[Z.mul]. by rewrite Hv.
  - cbn. destruct (Z.eqb_spec c 34); [lia|]. destruct (Z.eqb_spec c 92); [lia|].
    by rewrite Hr.
Qed.

Lemma surrogate_not_special c : is_high c || is_low c = true -> (c =? 34) = false /\ (c =? 92) = false.
Proof.
  unfold is_high, is_low. rewrite orb_true_iff, !andb_true_iff, !Z.leb_le, !Z.eqb_neq. lia.
Qed.

(** Reading back a quoted string returns the string and what follows it. *)
Lemma unquote_quote_body s r :
  wf_str s -> unquote (quote_body s ++ [34] ++ r) = Some (s, r).
Proof.
  remember (length s) as n eqn:Hn. revert s Hn.
  induction n as [n IH] using lt_wf_ind. intros s -> Hs.
  destruct s as [|c [|d s]]; cbn [quote_body].
  - done.
  - rewrite unquote_unit with (p := ([], r)); [done | by inversion Hs | done].
  - inversion Hs as [|? ? Hc Hs1]; subst. inversion Hs1 as [|? ? Hd Hs2]; subst.
    destruct (is_high c && is_low d) eqn:E.
    + apply andb_true_iff in E as [E1 E2].
      destruct (surrogate_not_special c) as [C1 C2]; [by rewrite E1|].
      destruct (surrogate_not_special d) as [D1 D2]; [rewrite E2; apply orb_true_r|].
      cbn [app unquote]. rewrite C1, C2, D1, D2.
      rewrite (IH (length s)); cbn; [done | lia | done | done].
    + rewrite <- app_assoc.
      rewrite unquote_unit with (p := (d :: s, r)); [done | done |].
      refine (IH (length (d :: s)) _ (d :: s) eq_refl Hs1). cbn. lia.
Qed.

Lemma json_quote_inj_app s1 s2 r1 r2 :
  wf_str s1 -> wf_str s2 ->
  json_quote s1 ++ r1 = json_quote s2 ++ r2 -> s1 = s2 /\ r1 = r2.
Proof.
  intros H1 H2. unfold json_quote. rewrite <- !app_assoc. intros [= H].
  pose proof (unquote_quote_body s1 r1 H1) as U1.
  pose proof (unquote_quote_body s2 r2 H2) as U2.
  cbn [app] in U1, U2. rewrite H, U2 in U1. by injection U1 as -> ->.
Qed.

(** [JSON.stringify] is injective on equally long arrays of strings. *)
Lemma json_strings_inj l1 l2 :
  Forall wf_str l1 -> Forall wf_str l2 -> length l1 = length l2 ->
  json_strings l1 = json_strings l2 -> l1 = l2.
Proof.
  unfold json_strings. intros H1 H2 Hlen [= H]. revert l2 H2 Hlen H.
  generalize ([93] : jsstr) as tl.
  induction H1 as [|a l1 Ha H1 IH]; intros tl l2 H2 Hlen H.
  { by destruct l2. }
  destruct H2 as [|b l2 Hb H2]; [done|].
  destruct l1 as [|a' l1], l2 as [|b' l2]; try done; cbn [map join] in H.
  - by destruct (json_quote_inj_app _ _ _ _ Ha Hb H) as [-> _].
  - rewrite <- !app_assoc in H.
    destruct (json_quote_inj_app _ _ _ _ Ha Hb H) as [-> Hr].
    cbn [app] in Hr. injection Hr as Hr. f_equal.
    apply (IH tl); [done | by cbn in *; lia | done].
Qed.
End Quoting.

Section Hex.
Lemma hex_digit_bound d : 0 <= d < 16 -> 48 <= hex_digit d < 128.
Proof. unfold hex_digit. destruct (Z.ltb_spec d 10); lia. Qed.

Lemma hex_byte_inj a b : is_byte a -> is_byte b -> hex_byte a = hex_byte b -> a = b.
Proof.
  unfold is_byte, hex_byte. intros Ha Hb [= H1 H2].
  apply (f_equal hex_value) in H1, H2.
  rewrite !hex_value_digit in H1
    by (split; [apply Z.div_pos; lia | apply Z.div_lt_upper_bound; lia]).
  rewrite !hex_value_digit in H2 by (apply Z.mod_pos_bound; lia).
  rewrite (Z.div_mod a 16), (Z.div_mod b 16) by lia. congruence.
Qed.

Lemma to_hex_inj a b :
  Forall is_byte a -> Forall is_byte b -> to_hex a = to_hex b -> a = b.
Proof.
  intros Ha. revert b. induction Ha as [|x a Hx Ha IH]; intros b Hb; destruct Hb as [|y b Hy Hb];
    try done.
  unfold to_hex. cbn [map concat]. intros [E1 E2]%app_inj_1; [|done].
  apply hex_byte_inj in E1 as ->; [|done..]. f_equal. by apply IH.
Qed.

Lemma to_hex_wf a : Forall is_byte a -> wf_str (to_hex a).
Proof.
  unfold wf_str, is_unit. induction 1 as [|x a Hx Ha IH]; cbn; [constructor|].
  unfold is_byte in Hx.
  pose proof (hex_digit_bound (x / 16)). pose proof (hex_digit_bound (x mod 16)).
  pose proof (Z.mod_pos_bound x 16). assert (0 <= x / 16 < 16)
    by (split; [apply Z.div_pos; lia | apply Z.div_lt_upper_bound; lia]).
  repeat constructor; try lia. exact IH.
Qed.
End Hex.

Lemma js_wf s : wf_str (js s).
Proof.
  unfold wf_str, js, is_unit. apply Forall_map, Forall_forall. intros c _.
  pose proof (Ascii.N_ascii_bounded c). lia.
Qed.

#[export] Hint Resolve js_wf to_hex_wf trim_idem : cap.

(** ** [indexOf], [split] and [join] on a one-unit separator *)

Section Split.
Implicit Types (s t : jsstr) (c : Z).

Lemma index_of_from_spec i c s :
  (index_of_from i c s = -1 /\ ~ In c s) \/
  (exists a b, s = a ++ c :: b /\ ~ In c a /\ index_of_from i c s = i + zlen a).
Proof.
  revert i. induction s as [|x s IH]; intros i; cbn; [left; tauto|].
  destruct (Z.eqb_spec x c) as [->|Hne].
  - right. exists [], s. cbn. repeat split; [tauto | unfold zlen; cbn; lia].
  - destruct (IH (i + 1)) as [[-> Hni]|(a & b & -> & Hni & ->)]; [left; cbn; tauto|].
    right. exists (x :: a), b. repeat split; cbn; [tauto | rewrite zlen_cons; lia].
Qed.

Lemma index_of_spec c s :
  (index_of c s = -1 /\ ~ In c s) \/
  (exists a b, s = a ++ c :: b /\ ~ In c a /\ index_of c s = zlen a).
Proof. apply (index_of_from_spec 0). Qed.

Lemma split_on_absent c s : ~ In c s -> split_on c s = [s].
Proof.
  induction s as [|x s IH]; cbn; [done|]. intros Hni.
  destruct (Z.eqb_spec x c); [tauto|]. rewrite IH by tauto. done.
Qed.

Lemma split_on_cons c s t : ~ In c s -> split_on c (s ++ c :: t) = s :: split_on c t.
Proof.
  induction s as [|x s IH]; cbn; intros Hni; [by rewrite Z.eqb_refl|].
  destruct (Z.eqb_spec x c); [tauto|]. rewrite IH by tauto. done.
Qed.

Lemma split_on_nonempty c s : split_on c s <> [].
Proof. destruct s; cbn; [done|]. destruct (_ =? _); [done|]. by destruct (split_on c s). Qed.

Lemma join_split_on c s : join [c] (split_on c s) = s.
Proof.
  induction s as [|x s IH]; cbn; [done|]. pose proof (split_on_nonempty c s).
  destruct (Z.eqb_spec x c) as [->|Hne]; destruct (split_on c s) as [|a l]; try done.
  - cbn in *. by rewrite IH.
  - destruct l; cbn in *; by rewrite <- IH.
Qed.

Lemma split_on_segments c s : Forall (fun seg => ~ In c seg) (split_on c s).
Proof.
  induction s as [|x s IH]; cbn; [constructor; [cbn; tauto | constructor]|].
  destruct (Z.eqb_spec x c) as [->|Hne]; [constructor; [tauto|done]|].
  destruct IH as [|a l Ha Hl]; constructor; try done; cbn; tauto.
Qed.

Lemma split_on_join c segs :
  segs <> [] -> Forall (fun seg => ~ In c seg) segs -> split_on c (join [c] segs) = segs.
Proof.
  intros Hne Hs. induction Hs as [|a l Ha Hl IH]; [done|]. destruct l as [|b l].
  - by apply split_on_absent.
  - change (join [c] (a :: b :: l)) with (a ++ c :: join [c] (b :: l)).
    rewrite split_on_cons, IH; done.
Qed.
End Split.

(** ** Printable ASCII *)

Lemma lor_ge_128 a b : 128 <= a -> 0 <= b -> 128 <= Z.lor a b.
Proof.
  intros Ha Hb. assert (0 < Z.lor a b).
  { assert (0 <= Z.lor a b) by (apply Z.lor_nonneg; lia).
    assert (Z.lor a b <> 0) by (rewrite Z.lor_eq_0_iff; lia). lia. }
  change 128 with (2 ^ 7). apply Z.log2_le_pow2; [done|].
  rewrite Z.log2_lor by lia. assert (7 <= Z.log2 a) by (apply Z.log2_le_pow2; lia). lia.
Qed.

Definition printable (c : Z) : bool := (0x21 <=? c) && (c <=? 0x7e).

Lemma utf8_of_code_point_printable p :
  forallb printable (utf8_of_code_point p) = true -> printable p = true /\ utf8_of_code_point p = [p].
Proof.
  unfold utf8_of_code_point. destruct (Z.ltb_spec p 0x80).
  { cbn [forallb]. rewrite andb_true_r. done. }
  assert (forall a b l, 128 <= a -> 0 <= b -> forallb printable (Z.lor a b :: l) = true -> False) as Hlor.
  { intros a b l Ha Hb. cbn [forallb]. pose proof (lor_ge_128 a b Ha Hb). unfold printable.
    rewrite !andb_true_iff, !Z.leb_le. lia. }
  assert (forall k, 0 <= Z.shiftr p k) by (intros; apply Z.shiftr_nonneg; lia).
  repeat case_match; intros []%Hlor; auto; lia.
Qed.

Definition encode_point (p : Z) : bytes :=
  utf8_of_code_point (if is_high p || is_low p then 0xfffd else p).

Lemma encode_point_printable p :
  forallb printable (encode_point p) = printable p /\ (printable p = true -> encode_point p = [p]).
Proof.
  unfold encode_point. destruct (is_high p || is_low p) eqn:Hs.
  - unfold is_high, is_low, printable in *.
    replace ((33 <=? p) && (p <=? 126)) with false; [done|]. symmetry.
    rewrite orb_true_iff, !andb_true_iff, !Z.leb_le in Hs. apply andb_false_iff.
    rewrite !Z.leb_gt. lia.
  - destruct (printable p) eqn:Hp.
    + unfold utf8_of_code_point. unfold printable in Hp. rewrite andb_true_iff, !Z.leb_le in Hp.
      destruct (Z.ltb_spec p 0x80); [|lia]. cbn [forallb]. split; [|done].
      unfold printable. rewrite andb_true_r, andb_true_iff, !Z.leb_le. lia.
    + split; [|done]. destruct (forallb _ _) eqn:Hf; [|done].
      apply utf8_of_code_point_printable in Hf as [? _]. congruence.
Qed.

(** A string whose UTF-8 bytes are printable ASCII is its own encoding. *)
Lemma utf8_printable s :
  forallb printable (utf8 s) = forallb printable s /\ (forallb printable s = true -> utf8 s = s).
Proof.
  unfold utf8. change (fun p => utf8_of_code_point _) with encode_point.
  remember (length s) as n eqn:Hn. revert s Hn.
  induction n as [n IH] using lt_wf_ind. intros [|c s] ->; [done|].
  assert (forall l, forallb printable (concat (map encode_point (c :: l))) =
                    printable c && forallb printable (concat (map encode_point l))) as Hc.
  { intros l. cbn [map concat]. by rewrite forallb_app, (proj1 (encode_point_printable c)). }
  destruct s as [|d s].
  - cbn [code_points]. rewrite Hc. cbn. split; [done|]. rewrite andb_true_r. intros Hp.
    by rewrite (proj2 (encode_point_printable c) Hp).
  - change (code_points (c :: d :: s)) with
      (if is_high c && is_low d then 0x10000 + (c - 0xd800) * 0x400 + (d - 0xdc00) :: code_points s
       else c :: code_points (d :: s)).
    change (forallb printable (c :: d :: s)) with (printable c && forallb printable (d :: s)).
    destruct (is_high c && is_low d) eqn:Hp.
    + assert (printable c = false) as Hn.
      { unfold is_high, printable in *. rewrite !andb_true_iff, !Z.leb_le in Hp.
        apply andb_false_iff. rewrite !Z.leb_gt. lia. }
      cbn [map concat]. rewrite forallb_app, Hn. cbn [andb]. split; [|done].
      apply andb_false_iff. left. rewrite (proj1 (encode_point_printable _)).
      unfold is_high, is_low, printable in *. rewrite !andb_true_iff, !Z.leb_le in Hp.
      apply andb_false_iff. rewrite !Z.leb_gt. lia.
    + rewrite Hc. destruct (IH (length (d :: s)) ltac:(cbn; lia) (d :: s) eq_refl) as [IH1 IH2].
      split; [by rewrite IH1|]. intros [H1 H2]%andb_true_iff. cbn [map concat].
      rewrite (proj2 (encode_point_printable c) H1), (IH2 H2). done.
Qed.

Lemma printable_not_ws c : printable c = true -> is_ws c = false.
Proof.
  unfold printable, is_ws. rewrite andb_true_iff, !Z.leb_le. intros Hc.
  repeat (apply orb_false_iff; split); try apply andb_false_iff;
    rewrite ?Z.eqb_neq, ?Z.leb_gt; lia.
Qed.

Lemma printable_trimmed s : forallb printable s = true -> trimmed s = true.
Proof.
  intros Hs. apply bool_decide_eq_true.
  assert (forall t, forallb printable t = true -> trim_start t = t) as Hstart.
  { intros [|c t]; cbn; [done|]. intros [Hc _]%andb_true_iff. by rewrite (printable_not_ws c). }
  unfold trim, trim_end. rewrite (Hstart s Hs), Hstart; [apply rev_involutive|].
  rewrite forallb_forall in *. intros c Hc%in_rev. auto.
Qed.

Lemma forallb_join (f : Z -> bool) c l :
  f c = true -> forallb f (join [c] l) = forallb (forallb f) l.
Proof.
  intros Hc. induction l as [|a l IH]; [done|]. destruct l as [|b l].
  - cbn. by rewrite andb_true_r.
  - change (join [c] (a :: b :: l)) with (a ++ c :: join [c] (b :: l)).
    rewrite forallb_app. cbn [forallb]. rewrite Hc, IH. done.
Qed.
