(* ===== verification/Errors.v ===== *)
(** * Errors

    src/sdk/node/src/errors.ts: the classes of CAP errors with their codes, and
    the text of an exception. *)

From S2P Require Import Prelude JsString.

(** The classes that extend [CAPError]. *)
Inductive cap_error : Set :=
| VersionMismatch | MalformedPacket | UnknownPayload | SignatureInvalid | SignatureMissing
| JobTimeout | ResourceExhausted | PermissionDenied | InvalidInput | JobNotFound | DuplicateJob | WorkerUnavailable
| SafetyDenied | PolicyViolation | RiskTagBlocked
| PublishFailed | SubscribeFailed | ConnectionLost.

#[global] Instance cap_error_eq_dec : EqDecision cap_error.
Proof. solve_decision. Defined.

Definition cap_errors : list cap_error :=
  [VersionMismatch; MalformedPacket; UnknownPayload; SignatureInvalid; SignatureMissing;
   JobTimeout; ResourceExhausted; PermissionDenied; InvalidInput; JobNotFound; DuplicateJob; WorkerUnavailable;
   SafetyDenied; PolicyViolation; RiskTagBlocked; PublishFailed; SubscribeFailed; ConnectionLost].

(** The name of the class. *)
Definition class_name (c : cap_error) : string :=
  match c with
  | VersionMismatch => "VersionMismatchError" | MalformedPacket => "MalformedPacketError"
  | UnknownPayload => "UnknownPayloadError" | SignatureInvalid => "SignatureInvalidError"
  | SignatureMissing => "SignatureMissingError" | JobTimeout => "JobTimeoutError"
  | ResourceExhausted => "ResourceExhaustedError" | PermissionDenied => "PermissionDeniedError"
  | InvalidInput => "InvalidInputError" | JobNotFound => "JobNotFoundError" | DuplicateJob => "DuplicateJobError"
  | WorkerUnavailable => "WorkerUnavailableError" | SafetyDenied => "SafetyDeniedError"
  | PolicyViolation => "PolicyViolationError" | RiskTagBlocked => "RiskTagBlockedError"
  | PublishFailed => "PublishFailedError" | SubscribeFailed => "SubscribeFailedError"
  | ConnectionLost => "ConnectionLostError"
  end.

(** The [code] and the [numericCode] the constructors pass on. *)
Definition error_code (c : cap_error) : string * Z :=
  match c with
  | VersionMismatch => ("ERROR_CODE_PROTOCOL_VERSION_MISMATCH", 100)
  | MalformedPacket => ("ERROR_CODE_PROTOCOL_MALFORMED_PACKET", 101)
  | UnknownPayload => ("ERROR_CODE_PROTOCOL_UNKNOWN_PAYLOAD", 102)
  | SignatureInvalid => ("ERROR_CODE_PROTOCOL_SIGNATURE_INVALID", 103)
  | SignatureMissing => ("ERROR_CODE_PROTOCOL_SIGNATURE_MISSING", 104)
  | JobTimeout => ("ERROR_CODE_JOB_TIMEOUT", 200)
  | ResourceExhausted => ("ERROR_CODE_JOB_RESOURCE_EXHAUSTED", 201)
  | PermissionDenied => ("ERROR_CODE_JOB_PERMISSION_DENIED", 202)
  | InvalidInput => ("ERROR_CODE_JOB_INVALID_INPUT", 203)
  | JobNotFound => ("ERROR_CODE_JOB_NOT_FOUND", 204)
  | DuplicateJob => ("ERROR_CODE_JOB_DUPLICATE", 205)
  | WorkerUnavailable => ("ERROR_CODE_JOB_WORKER_UNAVAILABLE", 206)
  | SafetyDenied => ("ERROR_CODE_SAFETY_DENIED", 300)
  | PolicyViolation => ("ERROR_CODE_SAFETY_POLICY_VIOLATION", 301)
  | RiskTagBlocked => ("ERROR_CODE_SAFETY_RISK_TAG_BLOCKED", 302)
  | PublishFailed => ("ERROR_CODE_TRANSPORT_PUBLISH_FAILED", 400)
  | SubscribeFailed => ("ERROR_CODE_TRANSPORT_SUBSCRIBE_FAILED", 401)
  | ConnectionLost => ("ERROR_CODE_TRANSPORT_CONNECTION_LOST", 402)
  end%string.

(** An instance: the fields that the constructor of [CAPError] sets. *)
Record CAPError : Type := {
  ce_name : jsstr;
  ce_code : jsstr;
  ce_numericCode : Z;
  ce_message : jsstr
}.

Definition new_CAPError (c : cap_error) (message : jsstr) : CAPError :=
  {| ce_name := js (class_name c); ce_code := js (error_code c).1; ce_numericCode := (error_code c).2;
     ce_message := message |}.

(** The exceptions of the model that are CAP errors. *)
Definition cap_class (c : error_class) : option cap_error :=
  match c with
  | MalformedPacketError => Some MalformedPacket
  | SignatureInvalidError => Some SignatureInvalid
  | SignatureMissingError => Some SignatureMissing
  | InvalidInputError => Some InvalidInput
  | _ => None
  end.

(** The [name] of an error: its own if the class sets one, else that of
    [Error.prototype]. *)
Definition error_name (c : error_class) : jsstr :=
  match c with
  | NamedError name => name
  | TypeError => js "TypeError"
  | SyntaxError => js "SyntaxError"
  | ResourceRefValidationError => js "ResourceRefValidationError"
  | WorkerTrustSigningError => js "WorkerTrustSigningError"
  | WorkerTrustRuntimeError => js "WorkerTrustRuntimeError"
  | WorkerTrustOperationalError => js "WorkerTrustOperationalError"
  | NatsError _ => js "NatsError"
  | _ => match cap_class c with Some k => js (class_name k) | None => js "Error" end
  end.

(** [String(err)] *)
Definition describe (e : exn) : jsstr :=
  match exn_class e with
  | ThrownValue => exn_message e
  | c => match error_name c, exn_message e with
         | [], m => m
         | n, [] => n
         | n, m => n ++ js ": " ++ m
         end
  end.

(** [err instanceof Error ? err.message : String(err)] *)
Definition message_or_text (e : exn) : jsstr := exn_message e.

(** ** The registry *)

(** The codes name the classes: no two classes share a name, a code or a
    number. *)
Lemma error_code_inj c d :
  (error_code c).1 = (error_code d).1 \/ (error_code c).2 = (error_code d).2 \/ class_name c = class_name d -> c = d.
Proof. destruct c, d; try done; intros [H | [H | H]]; discriminate H. Qed.

Lemma cap_errors_all c : In c cap_errors.
Proof. destruct c; cbn; tauto. Qed.

(** The hundreds of a code tell its prefix, and codes stay out of the range
    reserved for applications. *)
Lemma error_code_range c :
  let '(code, n) := error_code c in
  100 <= n < 500 /\
  starts_with (js (if n <? 200 then "ERROR_CODE_PROTOCOL_" else if n <? 300 then "ERROR_CODE_JOB_"
                   else if n <? 400 then "ERROR_CODE_SAFETY_" else "ERROR_CODE_TRANSPORT_")) (js code) = true.
Proof. by destruct c. Qed.
