(* ===== verification/JsValue.v ===== *)
(** * JavaScript numbers and values

    Numbers are IEEE doubles seen through their values: an integer, a
    non-integral rational, an infinity or NaN; the two zeros are one.
    [to_double] is rounding to nearest, ties to even, with 53 significant bits.
    Values are what a decoded protobuf message or a caller's object can hold.
    An object has its own properties in insertion order, and the properties it
    inherits (a protobufjs message inherits its fields' default values). *)

From Stdlib Require Import QArith Qround.
From S2P Require Import Prelude JsString.
#[local] Close Scope Q_scope.

(** ** Numbers *)

Inductive jsnum : Set :=
| NInt (z : Z)
| NFrac (q : Q)
| NInf (neg : bool)
| NNaN.

(** The integer nearest to [n / d], ties to even. *)
Definition round_even (n d : Z) : Z :=
  let q := n / d in
  let r := n mod d in
  if 2 * r <? d then q
  else if d <? 2 * r then q + 1
  else if Z.even q then q else q + 1.

Definition MAX_SAFE_INTEGER : Z := 2 ^ 53 - 1.

Definition to_double (z : Z) : Z :=
  if Z.abs z <=? 2 ^ 53 then z
  else
    let e := Z.log2 (Z.abs z) - 52 in
    Z.sgn z * (round_even (Z.abs z) (2 ^ e) * 2 ^ e).

(** [Number(z)] of a BigInt, also of the decimal text of an integer. *)
Definition number_of_Z (z : Z) : jsnum :=
  let d := to_double z in
  if 2 ^ 1024 <=? Z.abs d then NInf (d <? 0) else NInt d.

(** The double nearest to the rational [n / d]. *)
Definition number_of_ratio (n : Z) (d : positive) : jsnum :=
  let a := Z.abs n in
  if a =? 0 then NInt 0
  else
    let t0 := Z.log2 a - Z.log2 (Zpos d) in
    let below := if 0 <=? t0 then a <? Zpos d * 2 ^ t0 else a * 2 ^ (- t0) <? Zpos d in
    let e := Z.max ((if below then t0 - 1 else t0) - 52) (-1074) in
    let m := if 0 <=? e then round_even a (Zpos d * 2 ^ e)
             else round_even (a * 2 ^ (- e)) (Zpos d) in
    if 0 <=? e then
      if 2 ^ 1024 <=? m * 2 ^ e then NInf (n <? 0) else NInt (Z.sgn n * (m * 2 ^ e))
    else if m mod 2 ^ (- e) =? 0 then NInt (Z.sgn n * (m / 2 ^ (- e)))
    else NFrac (Qred (Qmake (Z.sgn n * m) (Z.to_pos (2 ^ (- e))))).

Definition num_q (n : jsnum) : option Q :=
  match n with NInt z => Some (inject_Z z) | NFrac q => Some q | _ => None end.

(** [a < b] on numbers. *)
Definition num_ltb (a b : jsnum) : bool :=
  match a, b with
  | NNaN, _ | _, NNaN => false
  | NInt x, NInt y => x <? y
  | NInf true, NInf true | NInf false, NInf false => false
  | NInf neg, _ => neg
  | _, NInf neg => negb neg
  | _, _ => match num_q a, num_q b with
            | Some x, Some y => negb (Qle_bool y x)
            | _, _ => false
            end
  end.

(** [a === b] on numbers. *)
Definition num_eqb (a b : jsnum) : bool :=
  match a, b with
  | NInt x, NInt y => x =? y
  | NFrac x, NFrac y => Qeq_bool x y
  | NInf x, NInf y => Bool.eqb x y
  | _, _ => false
  end.

(** [a <= b] on numbers. *)
Definition num_leb (a b : jsnum) : bool := num_ltb a b || num_eqb a b.

Definition is_finite (n : jsnum) : bool :=
  match n with NInt _ | NFrac _ => true | _ => false end.

Definition is_integer (n : jsnum) : bool :=
  match n with NInt _ => true | _ => false end.

Definition is_safe_integer (n : jsnum) : bool :=
  match n with NInt z => Z.abs z <=? MAX_SAFE_INTEGER | _ => false end.

(** Arithmetic: the exact result, rounded. *)
Definition num_of_Q (q : Q) : jsnum := number_of_ratio (Qnum q) (Qden q).

Definition num_add (a b : jsnum) : jsnum :=
  match a, b with
  | NNaN, _ | _, NNaN => NNaN
  | NInf x, NInf y => if Bool.eqb x y then NInf x else NNaN
  | NInf x, _ | _, NInf x => NInf x
  | NInt x, NInt y => number_of_Z (x + y)
  | _, _ => match num_q a, num_q b with Some x, Some y => num_of_Q (Qplus x y) | _, _ => NNaN end
  end.

Definition num_neg (a : jsnum) : jsnum :=
  match a with NInt z => NInt (- z) | NFrac q => NFrac (Qopp q) | NInf s => NInf (negb s) | NNaN => NNaN end.

Definition num_sub (a b : jsnum) : jsnum := num_add a (num_neg b).

(** Multiplication and division by a positive integer. *)
Definition num_scale (a : jsnum) (k : positive) : jsnum :=
  match a with
  | NInt x => number_of_Z (x * Zpos k)
  | NFrac q => num_of_Q (Qmult q (inject_Z (Zpos k)))
  | _ => a
  end.

Definition num_div (a : jsnum) (k : positive) : jsnum :=
  match a with
  | NInt x => number_of_ratio x k
  | NFrac q => number_of_ratio (Qnum q) (Qden q * k)
  | _ => a
  end.

(** [a % k] has the sign of [a] and is exact. *)
Definition num_rem (a : jsnum) (k : positive) : jsnum :=
  match a with
  | NInt x => NInt (Z.rem x (Zpos k))
  | NFrac q => NFrac (Qred (Qmake (Z.rem (Qnum q) (Zpos (Qden q * k))) (Qden q)))
  | _ => NNaN
  end.

(** [Math.floor(a)] *)
Definition num_floor (a : jsnum) : jsnum :=
  match a with NFrac q => NInt (Qnum q / Zpos (Qden q)) | _ => a end.

Definition num_mul (a b : jsnum) : jsnum :=
  match num_q a, num_q b with
  | Some x, Some y => num_of_Q (Qmult x y)
  | _, _ =>
      match a, b with
      | NNaN, _ | _, NNaN => NNaN
      | _, _ => if num_eqb a (NInt 0) || num_eqb b (NInt 0) then NNaN
                else NInf (xorb (num_ltb a (NInt 0)) (num_ltb b (NInt 0)))
      end
  end.

(** [Math.min(a, b)] and [Math.max(a, b)] *)
Definition num_min (a b : jsnum) : jsnum :=
  match a, b with
  | NNaN, _ | _, NNaN => NNaN
  | _, _ => if num_ltb b a then b else a
  end.

Definition num_max (a b : jsnum) : jsnum :=
  match a, b with
  | NNaN, _ | _, NNaN => NNaN
  | _, _ => if num_ltb a b then b else a
  end.

Section Doubles.
Lemma to_double_exact z : Z.abs z <= 2 ^ 53 -> to_double z = z.
Proof. intros. unfold to_double. destruct (Z.leb_spec (Z.abs z) (2 ^ 53)); [done|lia]. Qed.

Lemma round_even_lower n d : 0 < d -> n / d <= round_even n d.
Proof. intros. unfold round_even. repeat case_match; lia. Qed.

(** Rounding never brings a number of magnitude above [2^53] below it. *)
Lemma to_double_large z : 2 ^ 53 <= z -> 2 ^ 53 <= to_double z.
Proof.
  intros Hz. unfold to_double. destruct (Z.leb_spec (Z.abs z) (2 ^ 53)); [lia|].
  rewrite Z.abs_eq, Z.sgn_pos, Z.mul_1_l by lia. cbn zeta.
  set (e := Z.log2 z - 52).
  assert (53 <= Z.log2 z) by (apply Z.log2_le_pow2; lia).
  pose proof (Z.log2_spec z ltac:(lia)) as [Hl _].
  assert (0 < 2 ^ e) by (apply Z.pow_pos_nonneg; lia).
  assert (2 ^ 52 <= z / 2 ^ e) as Hq.
  { apply Z.div_le_lower_bound; [done|].
    rewrite <- Z.pow_add_r by lia. replace (e + 52) with (Z.log2 z) by lia. done. }
  pose proof (round_even_lower z (2 ^ e) ltac:(done)).
  assert (2 <= 2 ^ e).
  { change 2 with (2 ^ 1) at 1. apply Z.pow_le_mono_r; lia. }
  change (2 ^ 53) with (2 ^ 52 * 2). apply Z.mul_le_mono_nonneg; lia.
Qed.

Lemma to_double_opp z : to_double (- z) = - to_double z.
Proof.
  unfold to_double. rewrite Z.abs_opp, Z.sgn_opp.
  destruct (Z.abs z <=? 2 ^ 53); [done|]. cbn zeta. apply Z.mul_opp_l.
Qed.

Lemma to_double_large_neg z : z <= - 2 ^ 53 -> to_double z <= - 2 ^ 53.
Proof.
  intros. rewrite <- (Z.opp_involutive z), to_double_opp.
  pose proof (to_double_large (- z) ltac:(lia)). lia.
Qed.

(** A double result smaller than [2^53] in magnitude was not rounded. *)
Lemma to_double_small_inv z d : to_double z = d -> Z.abs d < 2 ^ 53 -> z = d.
Proof.
  intros Hd Hlt. destruct (Z.le_gt_cases (Z.abs z) (2 ^ 53)).
  - by rewrite to_double_exact in Hd.
  - destruct (Z.le_gt_cases 0 z).
    + pose proof (to_double_large z ltac:(lia)). lia.
    + pose proof (to_double_large_neg z ltac:(lia)). lia.
Qed.

Lemma round_even_upper n d : 0 < d -> 2 * (n mod d) < d -> round_even n d = n / d.
Proof. intros. unfold round_even. destruct (Z.ltb_spec (2 * (n mod d)) d); [done|lia]. Qed.

Lemma round_even_le n d : 0 < d -> round_even n d <= n / d + 1.
Proof. intros. unfold round_even. repeat case_match; lia. Qed.

(** Rounding a quotient of scaled integers does not reach the next multiple of
    the scale, when the scale is larger than the divisor. *)
Lemma round_scaled_floor n d s :
  0 <= n -> 0 < d -> d < s -> round_even (n * s) d / s = n / d.
Proof.
  intros Hn Hd Hs. pose proof (Z.div_mod n d ltac:(lia)) as Hq. set (q := n / d) in *. set (r := n mod d) in *.
  assert (0 <= r < d) as Hr by (apply Z.mod_pos_bound; lia).
  replace (n * s) with (r * s + (q * s) * d) by nia.
  assert (0 <= r * s / d) by (apply Z.div_pos; nia).
  pose proof (round_even_lower (r * s + q * s * d) d Hd) as Hlo. rewrite Z.div_add in Hlo by lia.
  assert (round_even (r * s + q * s * d) d < q * s + s) as Hhi.
  { pose proof (round_even_le (r * s + q * s * d) d Hd) as Hle. rewrite Z.div_add in Hle by lia.
    assert (r * s / d < s) by (apply Z.div_lt_upper_bound; nia).
    destruct (Z.eq_dec (r * s / d) (s - 1)) as [E|E]; [|lia].
    rewrite round_even_upper; [rewrite Z.div_add by lia; lia | done |].
    rewrite Z.mod_add by lia. pose proof (Z.div_mod (r * s) d ltac:(lia)) as Hm. rewrite E in Hm. nia. }
  symmetry. apply (Z.div_unique _ _ _ (round_even (r * s + q * s * d) d - q * s)); [lia|]. lia.
Qed.
End Doubles.

(** [Math.floor(n / d)] of integers is the integer quotient, below [2^52]. *)
Section Quotients.
Context (n : Z) (d : positive).

Let t0 := Z.log2 n - Z.log2 (Zpos d).
Let below := if 0 <=? t0 then n <? Zpos d * 2 ^ t0 else n * 2 ^ (- t0) <? Zpos d.
Let t := if below then t0 - 1 else t0.

(** [2^t] is at most the quotient. *)
Lemma quotient_exponent (k : Z) :
  0 < n < 2 ^ 52 -> - Z.log2 (Zpos d) - 1 <= t < 52 /\ (52 - t <= k -> Zpos d < 2 ^ k).
Proof.
  intros Hn. pose proof (Z.log2_spec n ltac:(lia)) as [Hn1 Hn2].
  pose proof (Z.log2_spec (Zpos d) ltac:(lia)) as [Hd1 Hd2].
  pose proof (Z.log2_nonneg n). pose proof (Z.log2_nonneg (Zpos d)).
  assert (Z.log2 n < 52) by (apply Z.log2_lt_pow2; lia).
  assert (t0 - 1 <= t <= t0) by (unfold t; destruct below; lia).
  split; [unfold t0 in *; lia|]. intros Hk.
  assert (Zpos d * 2 ^ Z.max 0 t <= n * 2 ^ Z.max 0 (- t)) as Hq.
  { unfold t, below, t0 in *. destruct (Z.leb_spec 0 (Z.log2 n - Z.log2 (Zpos d))).
    - destruct (Z.ltb_spec n (Zpos d * 2 ^ (Z.log2 n - Z.log2 (Zpos d)))); [|rewrite Z.max_r, Z.max_l by lia; lia].
      destruct (Z.eq_dec (Z.log2 n) (Z.log2 (Zpos d))) as [E|E].
      + rewrite Z.max_l, Z.max_r by lia. replace (- _) with 1 by lia.
        rewrite <- E, Z.pow_succ_r in Hd2 by lia. lia.
      + rewrite Z.max_r, Z.max_l, Z.mul_1_r by lia.
        eapply Z.le_trans; [|exact Hn1].
        apply Z.le_trans with (2 ^ Z.succ (Z.log2 (Zpos d)) * 2 ^ (Z.log2 n - Z.log2 (Zpos d) - 1)).
        { apply Z.mul_le_mono_nonneg_r; lia. }
        rewrite <- Z.pow_add_r by lia. apply Z.pow_le_mono_r; lia.
    - destruct (Z.ltb_spec (n * 2 ^ (- (Z.log2 n - Z.log2 (Zpos d)))) (Zpos d)).
      + rewrite Z.max_l, Z.max_r, Z.mul_1_r by lia.
        apply Z.le_trans with (2 ^ Z.log2 n * 2 ^ (- (Z.log2 n - Z.log2 (Zpos d) - 1))).
        { rewrite <- Z.pow_add_r by lia.
          replace (_ + _) with (Z.succ (Z.log2 (Zpos d))) by lia. lia. }
        apply Z.mul_le_mono_nonneg_r; lia.
      + rewrite Z.max_l, Z.max_r by lia. lia. }
  destruct (Z.le_gt_cases 0 t).
  - rewrite Z.max_r, Z.max_l, Z.mul_1_r in Hq by lia.
    apply Z.lt_le_trans with (2 ^ (52 - t)); [|apply Z.pow_le_mono_r; lia].
    assert (0 < 2 ^ t) by (apply Z.pow_pos_nonneg; lia).
    assert (2 ^ 52 = 2 ^ (52 - t) * 2 ^ t) by (rewrite <- Z.pow_add_r by (unfold t0 in *; lia); f_equal; lia).
    nia.
  - rewrite Z.max_l, Z.max_r, Z.mul_1_r in Hq by lia.
    apply Z.lt_le_trans with (2 ^ (52 - t)); [|apply Z.pow_le_mono_r; lia].
    replace (52 - t) with (52 + - t) by lia. rewrite Z.pow_add_r by lia.
    assert (0 < 2 ^ (- t)) by (apply Z.pow_pos_nonneg; lia). nia.
Qed.

Lemma floor_number_of_ratio :
  0 <= n < 2 ^ 52 -> Zpos d < 2 ^ 64 -> num_floor (number_of_ratio n d) = NInt (n / Zpos d).
Proof.
  intros Hn Hd64. unfold number_of_ratio. rewrite Z.abs_eq by lia.
  destruct (Z.eqb_spec n 0) as [->|Hne]; [done|]. cbn zeta. fold t0. fold below. fold t.
  destruct (quotient_exponent (- Z.max (t - 52) (-1074)) ltac:(lia)) as [Ht Hd].
  assert (Z.log2 (Zpos d) < 64) by (apply Z.log2_lt_pow2; lia).
  rewrite Z.max_l in * by lia. destruct (Z.leb_spec 0 (t - 52)); [lia|].
  specialize (Hd ltac:(lia)). rewrite Z.sgn_pos, !Z.mul_1_l by lia.
  set (s := 2 ^ (- (t - 52))) in *. assert (0 < s) by lia.
  assert (round_even (n * s) (Zpos d) / s = n / Zpos d) as Hf by (apply round_scaled_floor; lia).
  destruct (_ mod s =? 0); cbn [num_floor]; [by rewrite Hf|]. f_equal.
  pose proof (Qround.Qfloor_comp _ _ (Qred_correct (round_even (n * s) (Zpos d) # Z.to_pos s))) as Hq.
  unfold Qround.Qfloor in Hq. destruct (Qred _) as [x y]. cbn [Qnum Qden].
  rewrite Hq, Z2Pos.id by lia. done.
Qed.
End Quotients.

Lemma round_even_bound n d z : 0 < d -> n <= d * z -> round_even n d <= z.
Proof.
  intros Hd Hn. assert (n / d <= z) as Hq by (apply Z.div_le_upper_bound; lia).
  destruct (Z.eq_dec (n / d) z) as [E|]; [|pose proof (round_even_le n d Hd); lia].
  rewrite round_even_upper; [lia | done|]. pose proof (Z.div_mod n d ltac:(lia)). nia.
Qed.

(** Rounding a ratio does not pass an integer. *)
Lemma number_of_ratio_le n d z :
  0 < n -> n <= Zpos d * z -> z < 2 ^ 52 ->
  exists q, num_q (number_of_ratio n d) = Some q /\ (0 <= q)%Q /\ (q <= inject_Z z)%Q.
Proof.
  intros Hn Hz Hz52. unfold number_of_ratio. rewrite Z.abs_eq by lia. destruct (Z.eqb_spec n 0); [lia|]. cbn zeta.
  set (t0 := Z.log2 n - Z.log2 (Zpos d)).
  set (t := if (if 0 <=? t0 then n <? Zpos d * 2 ^ t0 else n * 2 ^ (- t0) <? Zpos d) then t0 - 1 else t0). set (e := Z.max (t - 52) (-1074)).
  assert (n < Zpos d * 2 ^ 52) as Hlt by nia.
  assert (t < 52) as Ht.
  { apply Z.lt_nge. intros Hge. pose proof (Z.log2_spec n ltac:(lia)) as [Hn1 Hn2].
    pose proof (Z.log2_spec (Zpos d) ltac:(lia)) as [Hd1 Hd2]. unfold t in Hge. destruct (Z.leb_spec 0 t0) as [H0|H0].
    - destruct (Z.ltb_spec n (Zpos d * 2 ^ t0)) as [Hb|Hb].
      + assert (2 ^ Z.log2 n = 2 ^ (t0 - 1) * 2 ^ Z.succ (Z.log2 (Zpos d))) as E
          by (rewrite <- Z.pow_add_r by (pose proof (Z.log2_nonneg (Zpos d)); lia); f_equal; unfold t0; lia).
        assert (2 ^ 52 <= 2 ^ (t0 - 1)) by (apply Z.pow_le_mono_r; lia). nia.
      + assert (2 ^ 52 <= 2 ^ t0) by (apply Z.pow_le_mono_r; lia). nia.
    - destruct (_ <? _); lia. }
  destruct (Z.leb_spec 0 e); [lia|]. set (s := 2 ^ (- e)).
  assert (0 < s) as Hs by (apply Z.pow_pos_nonneg; lia).
  set (m := round_even (n * s) (Zpos d)). assert (m <= z * s) as Hm by (apply round_even_bound; nia).
  assert (0 <= m) as Hm0.
  { pose proof (round_even_lower (n * s) (Zpos d) ltac:(lia)).
    assert (0 <= n * s / Zpos d) by (apply Z.div_pos; nia). lia. }
  rewrite Z.sgn_pos, !Z.mul_1_l by lia. destruct (_ =? 0).
  - eexists. split; [done|]. split.
    + change 0%Q with (inject_Z 0). rewrite <- Zle_Qle. apply Z.div_pos; lia.
    + rewrite <- Zle_Qle. apply Z.div_le_upper_bound; lia.
  - eexists. split; [done|]. rewrite Qred_correct. unfold Qle. cbn. rewrite Z2Pos.id by done. lia.
Qed.

(** ** Text to number ([StringToNumber]) *)

Definition is_digit (c : Z) : bool := (48 <=? c) && (c <=? 57).

Fixpoint span_digits (s : jsstr) : jsstr * jsstr :=
  match s with
  | c :: s' => if is_digit c then let '(d, r) := span_digits s' in (c :: d, r) else ([], s)
  | [] => ([], [])
  end.

Definition digits_value (base : Z) (l : list Z) : Z :=
  fold_left (fun acc d => acc * base + d) l 0.

Definition decimal_value (s : jsstr) : Z := digits_value 10 (map (fun c => c - 48) s).

(** [Some d] for a digit of a non-decimal literal. *)
Definition radix_digit (base c : Z) : option Z :=
  let d := if is_digit c then c - 48
           else if (97 <=? c) && (c <=? 102) then c - 87
           else if (65 <=? c) && (c <=? 70) then c - 55 else 99 in
  if d <? base then Some d else None.

Definition radix_literal (base : Z) (s : jsstr) : jsnum :=
  match s, mapM (radix_digit base) s with
  | _ :: _, Some ds => number_of_Z (digits_value base ds)
  | _, _ => NNaN
  end.

(** The exponent part of a decimal literal, [None] when malformed. *)
Definition exponent_part (s : jsstr) : option Z :=
  match s with
  | [] => Some 0
  | c :: s' =>
      if (c =? 101) || (c =? 69) then
        let '(neg, t) := match s' with
                         | 45 :: t => (true, t) | 43 :: t => (false, t) | _ => (false, s')
                         end in
        match span_digits t with
        | ((_ :: _) as ds, []) => Some (if neg then - decimal_value ds else decimal_value ds)
        | _ => None
        end
      else None
  end.

Definition unsigned_decimal (neg : bool) (s : jsstr) : jsnum :=
  if bool_decide (s = js "Infinity") then NInf neg
  else
    let '(ip, r) := span_digits s in
    let '(fp, r') := match r with 46 :: r1 => span_digits r1 | _ => ([], r) end in
    match ip ++ fp, exponent_part r' with
    | (_ :: _) as ds, Some e =>
        let m := if neg then - decimal_value ds else decimal_value ds in
        let x := e - zlen fp in
        if 0 <=? x then number_of_Z (m * 10 ^ x)
        else number_of_ratio m (Z.to_pos (10 ^ (- x)))
    | _, _ => NNaN
    end.

Definition string_to_number (s : jsstr) : jsnum :=
  match trim s with
  | [] => NInt 0
  | 48 :: 120 :: t | 48 :: 88 :: t => radix_literal 16 t
  | 48 :: 111 :: t | 48 :: 79 :: t => radix_literal 8 t
  | 48 :: 98 :: t | 48 :: 66 :: t => radix_literal 2 t
  | 45 :: t => unsigned_decimal true t
  | 43 :: t => unsigned_decimal false t
  | t => unsigned_decimal false t
  end.

(** ** Number to text *)

(** [z.toString()] of an integer. *)
Fixpoint decimal_digits (fuel : nat) (z : Z) : jsstr :=
  match fuel with
  | O => []
  | S fuel' => (if z <? 10 then [] else decimal_digits fuel' (z / 10)) ++ [48 + z mod 10]
  end.

Definition decimal_text (z : Z) : jsstr :=
  let digits := decimal_digits (S (Z.to_nat (Z.log2 (Z.abs z)))) (Z.abs z) in
  if z <? 0 then 45 :: digits else digits.

(** The decimal exponent of a positive rational [a / b]: the least [n] with
    [a / b < 10^n]. *)
Fixpoint decimal_exponent (fuel : nat) (n a b : Z) : Z :=
  match fuel with
  | O => n
  | S fuel' =>
      if b <=? a then decimal_exponent fuel' (n + 1) a (b * 10)
      else if 10 * a <? b then decimal_exponent fuel' (n - 1) (a * 10) b
      else n
  end.

(** The shortest digits that read back as the number, and the exponent; [s] has
    [k] digits unless it was rounded up to a power of ten. *)
Fixpoint shortest_digits (fuel : nat) (k n a b : Z) (x : jsnum) : jsstr * Z :=
  let e := n - k in
  let s := if 0 <=? e then round_even a (b * 10 ^ e) else round_even (a * 10 ^ (- e)) b in
  let back := if 0 <=? e then number_of_Z (s * 10 ^ e) else number_of_ratio s (Z.to_pos (10 ^ (- e))) in
  let digits := if s =? 10 ^ k then ([49], n + 1) else (decimal_text s, n) in
  match fuel with
  | O => digits
  | S fuel' => if num_eqb back x then digits else shortest_digits fuel' (k + 1) n a b x
  end.

(** The positive number [a / b] as [String] prints it. *)
Definition positive_to_text (a b : Z) (x : jsnum) : jsstr :=
  let '(ds, n) := shortest_digits 17 1 (decimal_exponent 400 0 a b) a b x in
  let k := zlen ds in
  let exponent := n - 1 in
  let mark := if exponent <? 0 then 45 :: decimal_text (- exponent) else 43 :: decimal_text exponent in
  if (k <=? n) && (n <=? 21) then ds ++ repeat 48 (Z.to_nat (n - k))
  else if (0 <? n) && (n <=? 21) then take (Z.to_nat n) ds ++ 46 :: drop (Z.to_nat n) ds
  else if (-6 <? n) && (n <=? 0) then js "0." ++ repeat 48 (Z.to_nat (- n)) ++ ds
  else match ds with
       | [d] => d :: 101 :: mark
       | d :: ds' => d :: 46 :: ds' ++ 101 :: mark
       | [] => []
       end.

(** [String(n)] of a number; an integer that is exact prints its digits. *)
Definition number_to_text (n : jsnum) : jsstr :=
  match n with
  | NNaN => js "NaN"
  | NInf neg => (if neg then [45] else []) ++ js "Infinity"
  | NInt z =>
      if Z.abs z <=? 2 ^ 53 then decimal_text z
      else (if z <? 0 then [45] else []) ++ positive_to_text (Z.abs z) 1 (NInt (Z.abs z))
  | NFrac q =>
      (if Qnum q <? 0 then [45] else []) ++
      positive_to_text (Z.abs (Qnum q)) (Zpos (Qden q)) (NFrac (Qmake (Z.abs (Qnum q)) (Qden q)))
  end.

Example number_to_text_samples :
  map number_to_text [NInt 0; NInt (-42); NInt (10 ^ 20); NInt (10 ^ 21); number_of_ratio 1 10;
                      number_of_ratio (-3) 2; number_of_ratio 1 10000000; number_of_ratio 1 3; NInt 123000]
  = map js ["0"; "-42"; "100000000000000000000"; "1e+21"; "0.1"; "-1.5"; "1e-7"; "0.3333333333333333"; "123000"]%string.
Proof. vm_compute. reflexivity. Qed.

(** ** Values *)

Inductive jsval : Type :=
| JUndef
| JNull
| JBool (b : bool)
| JNum (n : jsnum)
| JStr (s : jsstr)
| JBytes (b : bytes)
| JLong (z : Z)
| JArr (l : list jsval)
| JObj (own inherited : list (jsstr * jsval)).

(** A plain object literal. *)
Abbreviation JPlain own := (JObj own []).

Fixpoint assoc {A} (k : jsstr) (l : list (jsstr * A)) : option A :=
  match l with
  | [] => None
  | (k', v) :: l' => if bool_decide (k = k') then Some v else assoc k l'
  end.

(** Property read.  The SDK's property names are not names of
    [Object.prototype], so a missing property is [undefined]. *)
Definition get (v : jsval) (k : string) : jsval :=
  match v with
  | JObj own inh =>
      match assoc (js k) own with
      | Some x => x
      | None => default JUndef (assoc (js k) inh)
      end
  | _ => JUndef
  end.

Definition has_own (k : jsstr) (v : jsval) : bool :=
  match v with
  | JObj own _ => match assoc k own with Some _ => true | None => false end
  | _ => false
  end.

(** [o[k] = v] and [delete o[k]] on own properties. *)
Fixpoint assoc_set {A} (k : jsstr) (v : A) (l : list (jsstr * A)) : list (jsstr * A) :=
  match l with
  | [] => [(k, v)]
  | (k', v') :: l' => if bool_decide (k = k') then (k', v) :: l' else (k', v') :: assoc_set k v l'
  end.

Definition assoc_del {A} (k : jsstr) (l : list (jsstr * A)) : list (jsstr * A) :=
  filter (fun p => p.1 <> k) l.

Definition set (k : string) (v o : jsval) : jsval :=
  match o with JObj own inh => JObj (assoc_set (js k) v own) inh | _ => o end.

Definition del (k : string) (o : jsval) : jsval :=
  match o with JObj own inh => JObj (assoc_del (js k) own) inh | _ => o end.

Definition nullish (v : jsval) : bool :=
  match v with JUndef | JNull => true | _ => false end.

Definition is_undefined (v : jsval) : bool := match v with JUndef => true | _ => false end.

(** [a ?? b] *)
Definition coalesce (a b : jsval) : jsval := if nullish a then b else a.

Definition truthy (v : jsval) : bool :=
  match v with
  | JUndef | JNull => false
  | JBool b => b
  | JNum (NInt z) => negb (z =? 0)
  | JNum NNaN => false
  | JStr s => negb (str_empty s)
  | _ => true
  end.

(** [a === b]; two objects that reach a comparison are never one reference. *)
Definition strict_eq (a b : jsval) : bool :=
  match a, b with
  | JUndef, JUndef | JNull, JNull => true
  | JBool x, JBool y => Bool.eqb x y
  | JNum x, JNum y => num_eqb x y
  | JStr x, JStr y => bool_decide (x = y)
  | _, _ => false
  end.

(** [Number(v)] *)
Fixpoint to_number (v : jsval) : jsnum :=
  match v with
  | JUndef => NNaN
  | JNull => NInt 0
  | JBool b => NInt (if b then 1 else 0)
  | JNum n => n
  | JStr s => string_to_number s
  | JBytes [] => NInt 0
  | JBytes [b] => NInt b
  | JBytes _ => NNaN
  | JLong z => number_of_Z z
  | JArr [] | JArr [JUndef] | JArr [JNull] => NInt 0
  | JArr [JBool _] => NNaN
  | JArr [x] => to_number x
  | JArr _ => NNaN
  | JObj _ _ => NNaN
  end.

Definition is_string (v : jsval) : bool := match v with JStr _ => true | _ => false end.

(** [typeof v === "object" && v !== null && !Array.isArray(v)] *)
Definition is_record (v : jsval) : bool :=
  match v with JObj _ _ | JBytes _ | JLong _ => true | _ => false end.

(** The text of [v], if it is a string. *)
Definition as_str (v : jsval) : option jsstr := match v with JStr s => Some s | _ => None end.

(** [String(v)], as a template literal prints a value; a buffer prints its
    bytes as a typed array does. *)
Fixpoint to_text (v : jsval) : jsstr :=
  match v with
  | JUndef => js "undefined"
  | JNull => js "null"
  | JBool b => if b then js "true" else js "false"
  | JNum n => number_to_text n
  | JStr s => s
  | JBytes b => join [44] (map decimal_text b)
  | JLong z => decimal_text z
  | JArr l => join [44] (map (fun x => match x with JUndef | JNull => [] | _ => to_text x end) l)
  | JObj _ _ => js "[object Object]"
  end.

(** Nested induction over values. *)
Definition jsval_nested_ind (P : jsval -> Prop)
  (Hundef : P JUndef) (Hnull : P JNull) (Hbool : forall b, P (JBool b))
  (Hnum : forall n, P (JNum n)) (Hstr : forall s, P (JStr s))
  (Hbytes : forall b, P (JBytes b)) (Hlong : forall z, P (JLong z))
  (Harr : forall l, Forall P l -> P (JArr l))
  (Hobj : forall own inh, Forall (fun p => P p.2) own -> Forall (fun p => P p.2) inh ->
          P (JObj own inh)) : forall v, P v :=
  fix F (v : jsval) : P v :=
    let G := fix G (l : list (jsstr * jsval)) : Forall (fun p => P p.2) l :=
      match l with
      | [] => Forall_nil_2 _
      | p :: l' => Forall_cons_2 _ _ _ (F p.2) (G l')
      end in
    match v with
    | JUndef => Hundef
    | JNull => Hnull
    | JBool b => Hbool b
    | JNum n => Hnum n
    | JStr s => Hstr s
    | JBytes b => Hbytes b
    | JLong z => Hlong z
    | JArr l => Harr l ((fix H (l : list jsval) : Forall P l :=
        match l with
        | [] => Forall_nil_2 _
        | x :: l' => Forall_cons_2 _ _ _ (F x) (H l')
        end) l)
    | JObj own inh => Hobj own inh (G own) (G inh)
    end.

Lemma strict_eq_str v s : strict_eq v (JStr s) = true <-> v = JStr s.
Proof.
  destruct v; cbn; try done. rewrite bool_decide_eq_true. naive_solver.
Qed.

Lemma strict_eq_str_l s v : strict_eq (JStr s) v = true <-> v = JStr s.
Proof.
  destruct v; cbn; try done. rewrite bool_decide_eq_true. naive_solver.
Qed.

Lemma assoc_In {A} k (l : list (jsstr * A)) v : assoc k l = Some v -> In (k, v) l.
Proof.
  induction l as [|[k' v'] l IH]; cbn; [done|].
  case_bool_decide; naive_solver.
Qed.

Lemma assoc_set_eq {A} k (v : A) l : assoc k (assoc_set k v l) = Some v.
Proof.
  induction l as [|[k' v'] l IH]; cbn.
  - by rewrite bool_decide_true.
  - case_bool_decide as E; cbn.
    + by rewrite bool_decide_true.
    + by rewrite bool_decide_false.
Qed.

Lemma assoc_set_fresh {A} k (v : A) l : ~ In k (map fst l) -> assoc_set k v l = l ++ [(k, v)].
Proof.
  induction l as [|[k' v'] l IH]; cbn; [done|]. intros Hk. rewrite bool_decide_eq_false_2 by (intros ->; tauto).
  f_equal. apply IH. tauto.
Qed.

Lemma assoc_set_ne {A} k k' (v : A) l : k <> k' -> assoc k' (assoc_set k v l) = assoc k' l.
Proof.
  intros Hne. induction l as [|[k2 v2] l IH]; cbn.
  - rewrite bool_decide_false; [done | congruence].
  - case_bool_decide as E; cbn; subst.
    + by rewrite bool_decide_false by congruence.
    + by rewrite IH.
Qed.

Lemma assoc_del_eq {A} k (l : list (jsstr * A)) : assoc k (assoc_del k l) = None.
Proof.
  induction l as [|[k' v'] l IH]; [done|]. unfold assoc_del. rewrite filter_cons.
  case_decide as E; [|done]. cbn in *. by rewrite bool_decide_false.
Qed.

Lemma assoc_del_ne {A} k k' (l : list (jsstr * A)) :
  k <> k' -> assoc k' (assoc_del k l) = assoc k' l.
Proof.
  intros Hne. induction l as [|[k2 v2] l IH]; [done|]. unfold assoc_del in *.
  rewrite filter_cons. case_decide as E; cbn in *.
  - by rewrite IH.
  - assert (k2 = k) as -> by (destruct (decide (k2 = k)); [done|tauto]).
    rewrite IH, bool_decide_false; congruence.
Qed.

(** [Number(text)] on the shapes the SDK meets. *)
Example string_to_number_samples :
  map (fun s => string_to_number (js s)) ["253402300799"; " -5 "; "0x1f"; "1e3"; ""; "12a"]%string
  = [NInt 253402300799; NInt (-5); NInt 31; NInt 1000; NInt 0; NNaN].
Proof. vm_compute. reflexivity. Qed.

(** ** Canonical integer text *)

Definition between (lo hi c : Z) : bool := (lo <=? c) && (c <=? hi).

(** [/^first rest*$/] *)
Definition pattern (first rest : Z -> bool) (s : jsstr) : bool :=
  match s with c :: s' => first c && forallb rest s' | [] => false end.

(** The text of an integer as [toString] prints it, or [-0]. *)
Definition canonical_decimal (s : jsstr) : bool :=
  let t := match s with 45 :: t => t | _ => s end in
  bool_decide (t = [48]) || pattern (between 49 57) is_digit t.

(** [BigInt(text)] of such a text. *)
Definition bigint_of (s : jsstr) : Z :=
  match s with 45 :: t => - decimal_value t | _ => decimal_value s end.

Section Decimal.
Lemma decimal_value_snoc ds d : decimal_value (ds ++ [48 + d]) = decimal_value ds * 10 + d.
Proof.
  unfold decimal_value, digits_value. rewrite map_app, fold_left_app. cbn. lia.
Qed.

Lemma decimal_digits_S n z :
  0 <= z < 2 ^ Z.of_nat n ->
  decimal_value (decimal_digits n z) = z /\
  (0 < z -> pattern (between 49 57) is_digit (decimal_digits n z) = true).
Proof.
  revert z. induction n as [|n IH]; intros z Hz.
  - replace z with 0 by (cbn in Hz; lia). split; [done | lia].
  - cbn [decimal_digits]. rewrite Nat2Z.inj_succ, Z.pow_succ_r in Hz by lia.
    assert (0 <= z mod 10 < 10) as Hm by (apply Z.mod_pos_bound; lia).
    pose proof (Z.div_mod z 10 ltac:(lia)). rewrite decimal_value_snoc.
    destruct (Z.ltb_spec z 10) as [Hlt|Hge].
    + split; [cbn; rewrite Z.mod_small by lia; lia|]. intros ?. rewrite Z.mod_small by lia. cbn.
      unfold between. rewrite !andb_true_iff, !Z.leb_le. lia.
    + destruct (IH (z / 10)) as [IHv IHp].
      { split; [apply Z.div_pos; lia|]. apply Z.div_lt_upper_bound; lia. }
      split; [rewrite IHv; lia|]. intros _.
      specialize (IHp ltac:(apply Z.div_str_pos; lia)).
      destruct (decimal_digits n (z / 10)) as [|c t]; [done|]. cbn in IHp |- *.
      apply andb_true_iff in IHp as [-> Ht]. rewrite forallb_app, Ht. cbn.
      unfold is_digit. rewrite !andb_true_iff, !Z.leb_le. lia.
Qed.

Lemma pattern_snoc f r s c :
  s <> [] -> pattern f r (s ++ [c]) = pattern f r s && r c.
Proof.
  destruct s as [|x s]; [done|]. intros _. cbn. rewrite forallb_app. cbn. by rewrite andb_true_r, andb_assoc.
Qed.

Lemma decimal_snoc_inv t c :
  pattern (between 49 57) is_digit (t ++ [c]) = true ->
  exists d, c = 48 + d /\ 0 <= d <= 9 /\
    ((t = [] /\ 0 < d) \/ (t <> [] /\ pattern (between 49 57) is_digit t = true)).
Proof.
  intros Hp. exists (c - 48). split; [lia|]. destruct (decide (t = [])) as [->|Hne].
  - cbn in Hp. unfold between in Hp. rewrite !andb_true_iff, !Z.leb_le in Hp. split; [lia|]. left. split; [done|lia].
  - rewrite pattern_snoc in Hp by done. apply andb_true_iff in Hp as [Hp Hd].
    unfold is_digit in Hd. rewrite andb_true_iff, !Z.leb_le in Hd. split; [lia|]. by right.
Qed.

Lemma decimal_value_pos t : pattern (between 49 57) is_digit t = true -> 0 < decimal_value t.
Proof.
  induction t as [|c t IH] using rev_ind; [done|].
  intros (d & -> & Hd & [[-> Hpos]|[_ Hp]])%decimal_snoc_inv; rewrite decimal_value_snoc.
  - change (decimal_value []) with 0. lia.
  - specialize (IH Hp). lia.
Qed.

Lemma decimal_digits_of_value n t :
  pattern (between 49 57) is_digit t = true -> decimal_value t < 2 ^ Z.of_nat n ->
  decimal_digits n (decimal_value t) = t.
Proof.
  revert n. induction t as [|c t IH] using rev_ind; [done|].
  intros n (d & -> & Hd & Ht)%decimal_snoc_inv Hv. rewrite decimal_value_snoc in *.
  assert (0 <= decimal_value t) as Hnn.
  { destruct Ht as [[-> _]|[_ Hp]]; [done|]. pose proof (decimal_value_pos t Hp). lia. }
  destruct n as [|n]; [cbn in Hv; destruct Ht as [[-> ?]|[_ Hp%decimal_value_pos]]; cbn in *; lia|].
  cbn [decimal_digits]. rewrite Nat2Z.inj_succ, Z.pow_succ_r in Hv by lia.
  rewrite (Z.add_comm (_ * 10)), Z.mod_add, Z.div_add, Z.mod_small, Z.div_small, Z.add_0_l by lia.
  f_equal. destruct Ht as [[-> Hpos]|[Hne Hp]].
  - change (decimal_value []) with 0. by destruct (Z.ltb_spec (d + 0 * 10) 10); [|lia].
  - pose proof (decimal_value_pos t Hp).
    destruct (Z.ltb_spec (d + decimal_value t * 10) 10); [lia|]. apply IH; [done|lia].
Qed.

Lemma digits_fuel z : 0 <= z -> z < 2 ^ Z.of_nat (S (Z.to_nat (Z.log2 z))).
Proof.
  intros Hz. pose proof (Z.log2_nonneg z). rewrite Nat2Z.inj_succ, Z2Nat.id by lia.
  destruct (Z.eq_dec z 0) as [->|]; [done|]. apply Z.log2_spec. lia.
Qed.

Lemma decimal_text_pos z : 0 < z ->
  decimal_text z = decimal_digits (S (Z.to_nat (Z.log2 z))) z /\
  decimal_text (- z) = 45 :: decimal_digits (S (Z.to_nat (Z.log2 z))) z.
Proof.
  intros Hz. unfold decimal_text. rewrite Z.abs_opp, Z.abs_eq by lia.
  destruct (Z.ltb_spec z 0), (Z.ltb_spec (- z) 0); done || lia.
Qed.

Lemma pattern_not_sign t : pattern (between 49 57) is_digit t = true -> forall u, t <> 45 :: u.
Proof. intros Hp u ->. done. Qed.

(** Matching on the leading sign. *)
Lemma sign_cases s : (exists t, s = 45 :: t) \/ (forall t, s <> 45 :: t).
Proof.
  destruct s as [|c s]; [by right|]. destruct (decide (c = 45)) as [->|Hne]; [by left; eauto|].
  right. congruence.
Qed.

Lemma unsigned_match {A} s (f : jsstr -> A) (x : A) :
  (forall t, s <> 45 :: t) -> match s with 45 :: t => f t | _ => x end = x.
Proof.
  intros Hs. destruct s as [|c s]; [done|].
  destruct (decide (c = 45)) as [->|Hne]; [by destruct (Hs s)|].
  destruct c as [|p|p]; try done.
  repeat (destruct p as [p|p|]; try done).
Qed.

Lemma parse_text_iff s z :
  canonical_decimal s = true /\ bigint_of s = z <-> s = decimal_text z \/ (s = js "-0" /\ z = 0).
Proof.
  assert (forall t v, pattern (between 49 57) is_digit t = true -> decimal_value t = v ->
            0 < v /\ t = decimal_digits (S (Z.to_nat (Z.log2 v))) v) as Huniq.
  { intros t v Hp <-. pose proof (decimal_value_pos t Hp). split; [done|].
    symmetry. apply decimal_digits_of_value; [done | apply digits_fuel; lia]. }
  unfold canonical_decimal, bigint_of. destruct (sign_cases s) as [[t ->]|Hs].
  - rewrite orb_true_iff, bool_decide_eq_true. split.
    + intros [[->|Hp] Hz]; [right; done|]. left.
      destruct (Huniq t (- z) Hp ltac:(lia)) as [Hpos ->].
      pose proof (decimal_text_pos (- z) Hpos) as [_ Ht]. rewrite Z.opp_involutive in Ht. done.
    + intros [Ht|[[= ->] ->]]; [|by split; [left|]].
      destruct (Z.lt_trichotomy z 0) as [Hz|[->|Hz]]; [|done|].
      * pose proof (decimal_text_pos (- z) ltac:(lia)) as [_ Hd]. rewrite Z.opp_involutive in Hd.
        assert (t = decimal_digits (S (Z.to_nat (Z.log2 (- z)))) (- z)) as -> by congruence.
        destruct (decimal_digits_S (S (Z.to_nat (Z.log2 (- z)))) (- z)) as [Hv Hp];
          [split; [lia | apply digits_fuel; lia]|].
        rewrite Hv. split; [right; apply Hp; lia | lia].
      * pose proof (decimal_text_pos z Hz) as [Hd _]. rewrite Hd in Ht.
        destruct (decimal_digits_S (S (Z.to_nat (Z.log2 z))) z) as [_ Hp];
          [split; [lia | apply digits_fuel; lia]|].
        specialize (Hp Hz). by rewrite <- Ht in Hp.
  - rewrite !unsigned_match by done. rewrite orb_true_iff, bool_decide_eq_true. split.
    + intros [[->|Hp] Hz]; [left; by rewrite <- Hz|]. left.
      destruct (Huniq s z Hp Hz) as [Hpos ->]. symmetry. by apply decimal_text_pos.
    + intros [->|[-> _]]; [|by destruct (Hs (js "0"))].
      destruct (Z.lt_trichotomy z 0) as [Hz|[->|Hz]]; [|by split; [left|]|].
      * pose proof (decimal_text_pos (- z) ltac:(lia)) as [_ Hd]. rewrite Z.opp_involutive in Hd.
        by destruct (Hs _ Hd).
      * rewrite (proj1 (decimal_text_pos z Hz)).
        destruct (decimal_digits_S (S (Z.to_nat (Z.log2 z))) z) as [Hv Hp];
          [split; [lia | apply digits_fuel; lia]|]. split; [right; by apply Hp | done].
Qed.
End Decimal.

(** ** Own properties *)

Fixpoint indexed (i : Z) (l : list jsval) : list (jsstr * jsval) :=
  match l with [] => [] | x :: l' => (decimal_text i, x) :: indexed (i + 1) l' end.

Definition low32 (z : Z) : Z :=
  let m := z mod 2 ^ 32 in if m <? 2 ^ 31 then m else m - 2 ^ 32.

(** The own enumerable properties of a value; those of a Long are its two
    32-bit halves and its signedness. *)
Definition own_entries (v : jsval) : list (jsstr * jsval) :=
  match v with
  | JObj own _ => own
  | JArr l => indexed 0 l
  | JBytes b => indexed 0 (map (fun x => JNum (NInt x)) b)
  | JLong z => [(js "low", JNum (NInt (low32 z))); (js "high", JNum (NInt (low32 (z / 2 ^ 32))));
                (js "unsigned", JBool false)]
  | JStr s => indexed 0 (map (fun c => JStr [c]) s)
  | _ => []
  end.

(** [typeof v === object && v !== null] *)
Definition is_object (v : jsval) : bool :=
  match v with JArr _ | JBytes _ | JLong _ | JObj _ _ => true | _ => false end.

(** ** Reading after writing *)

Lemma js_inj a b : js a = js b -> a = b.
Proof.
  unfold js. intros H. rewrite <- (String.string_of_list_ascii_of_string a), <- (String.string_of_list_ascii_of_string b).
  f_equal. revert H. generalize (String.list_ascii_of_string a) as la, (String.list_ascii_of_string b) as lb.
  induction la as [|x la IH]; intros [|y lb]; cbn; try done. intros [= Hxy H]. f_equal; [|by apply IH].
  apply N2Z.inj in Hxy. rewrite <- (Ascii.ascii_N_embedding x), <- (Ascii.ascii_N_embedding y). congruence.
Qed.

Lemma get_set_eq k v own inh : get (set k v (JObj own inh)) k = v.
Proof. cbn. by rewrite assoc_set_eq. Qed.

Lemma get_set_ne k k' v o : k <> k' -> get (set k v o) k' = get o k'.
Proof.
  intros Hne. destruct o; try done. cbn. rewrite assoc_set_ne; [done|]. by intros ?%js_inj.
Qed.

Lemma get_del_ne k k' o : k <> k' -> get (del k o) k' = get o k'.
Proof.
  intros Hne. destruct o; try done. cbn. rewrite assoc_del_ne; [done|]. by intros ?%js_inj.
Qed.

Lemma set_obj k v own inh : exists own', set k v (JObj own inh) = JObj own' inh.
Proof. cbn. eauto. Qed.
