(* ===== verification/Protos.v ===== *)
(** * Subjects and display labels

    src/sdk/node/src/protos.ts: the NATS subjects of the protocol and
    [sanitizeAgentName].  Loading the .proto files is protobufjs and the file
    system. *)

From S2P Require Import Prelude JsString JsValue.

Definition SUBJECT_SUBMIT : jsstr := js "sys.job.submit".
Definition SUBJECT_RESULT : jsstr := js "sys.job.result".
Definition SUBJECT_HEARTBEAT : jsstr := js "sys.heartbeat".
Definition SUBJECT_ALERT : jsstr := js "sys.alert".
Definition SUBJECT_PROGRESS : jsstr := js "sys.job.progress".
Definition SUBJECT_CANCEL : jsstr := js "sys.job.cancel".
Definition SUBJECT_DLQ : jsstr := js "sys.job.dlq".
Definition SUBJECT_WORKFLOW_EVENT : jsstr := js "sys.workflow.event".
Definition SUBJECT_HANDSHAKE : jsstr := js "sys.handshake".
Definition SUBJECT_WORKER_HANDSHAKE_CHALLENGE : jsstr := js "sys.worker.handshake.challenge".
Definition SUBJECT_WORKER_HANDSHAKE_AUTHENTICATE : jsstr := js "sys.worker.handshake.authenticate".
Definition DEFAULT_PROTOCOL_VERSION : Z := 1.
Definition MAX_AGENT_NAME_LEN : nat := 128.

(** [s.replace(/\s+/g, " ")]; [in_run] when the last unit was white space. *)
Fixpoint collapse (in_run : bool) (s : jsstr) : jsstr :=
  match s with
  | [] => []
  | c :: s' =>
      if is_ws c then (if in_run then collapse true s' else 32 :: collapse true s')
      else c :: collapse false s'
  end.

Definition sanitizeAgentName (name : jsstr) : jsstr :=
  let normalized := trim (collapse false name) in
  concat (take MAX_AGENT_NAME_LEN (string_chars normalized)).

(** ** Characters *)

Lemma chars_pair c d s : is_high c && is_low d = true -> string_chars (c :: d :: s) = [c; d] :: string_chars s.
Proof. intros E. cbn [string_chars]. by rewrite E. Qed.

Lemma chars_single c s :
  (forall d s', s = d :: s' -> is_high c && is_low d = false) -> string_chars (c :: s) = [c] :: string_chars s.
Proof. intros H. destruct s as [|d s']; [done|]. cbn [string_chars]. by rewrite (H d s' eq_refl). Qed.

(** Induction over the characters of a string. *)
Lemma chars_ind (P : jsstr -> Prop) :
  P [] ->
  (forall c d s, is_high c && is_low d = true -> P s -> P (c :: d :: s)) ->
  (forall c s, (forall d s', s = d :: s' -> is_high c && is_low d = false) -> P s -> P (c :: s)) ->
  forall s, P s.
Proof.
  intros Hnil Hpair Hone s. enough (forall n s, (length s <= n)%nat -> P s) as H by (by apply (H (length s))).
  clear s. induction n as [|n IH]; intros [|c s] Hn; try done; cbn in Hn; [lia|].
  destruct s as [|d s]; [apply Hone; [done | by apply IH; cbn; lia]|].
  destruct (is_high c && is_low d) eqn:E.
  - apply Hpair; [done|]. apply IH. cbn in Hn. lia.
  - apply Hone; [by intros ? ? [= <- <-]|]. apply IH. lia.
Qed.

Lemma string_chars_concat s : concat (string_chars s) = s.
Proof.
  induction s as [|c d s E IH|c s E IH] using chars_ind; [done|..].
  - rewrite chars_pair by done. cbn. by rewrite IH.
  - rewrite chars_single by done. cbn. by rewrite IH.
Qed.

(** A cut at a character boundary starts with the first unit or is empty. *)
Lemma take_chars_head k s d s' :
  concat (take k (string_chars s)) = d :: s' -> exists t, s = d :: t.
Proof.
  intros H. rewrite <- (string_chars_concat s), <- (take_drop k (string_chars s)), concat_app, H. by eexists.
Qed.

(** The characters of a cut at a character boundary are the characters before
    the cut. *)
Lemma string_chars_take k s : string_chars (concat (take k (string_chars s))) = take k (string_chars s).
Proof.
  revert k. induction s as [|c d s E IH|c s E IH] using chars_ind; intros k; [by destruct k|..];
    destruct k as [|k]; try done.
  - rewrite chars_pair by done. cbn [take concat app]. by rewrite chars_pair, IH.
  - rewrite chars_single by done. cbn [take concat app]. rewrite chars_single, IH; [done|].
    intros e s' H. apply take_chars_head in H as [t ->]. by apply (E e t).
Qed.

(** Every surrogate stands in a pair. *)
Definition well_formed (s : jsstr) : Prop :=
  Forall (fun ch => forall c, ch = [c] -> is_high c = false /\ is_low c = false) (string_chars s).

(** Text of 16-bit units in which every surrogate is in a pair. *)
Definition text_ok (t : jsstr) : Prop := well_formed t /\ wf_str t.

Definition surrogate (c : Z) : bool := is_high c || is_low c.

Lemma ws_not_surrogate c : is_ws c = true -> surrogate c = false.
Proof.
  destruct (surrogate c) eqn:E; [|done]. intros H. exfalso. revert H.
  assert (55296 <= c <= 57343) as Hc by
    (revert E; unfold surrogate, is_high, is_low; rewrite orb_true_iff, !andb_true_iff, !Z.leb_le; lia).
  unfold is_ws. repeat case_bool_decide; try lia; try done; rewrite ?orb_true_iff, ?andb_true_iff, ?Z.leb_le, ?Z.eqb_eq; lia.
Qed.

Lemma well_formed_cons c s : surrogate c = false -> well_formed (c :: s) <-> well_formed s.
Proof.
  unfold surrogate. rewrite orb_false_iff. intros [Hh Hl]. unfold well_formed.
  rewrite chars_single by (by rewrite Hh). rewrite Forall_cons. split; [by intros [_ ?]|].
  intros H. split; [|done]. by intros ? [= <-].
Qed.

Lemma well_formed_pair c d s : is_high c && is_low d = true -> well_formed (c :: d :: s) <-> well_formed s.
Proof.
  intros E. unfold well_formed. rewrite chars_pair, Forall_cons by done. split; [by intros [_ ?]|].
  intros H. by split.
Qed.

(** A well formed string is built of pairs and of other units. *)
Lemma well_formed_ind (P : jsstr -> Prop) :
  P [] ->
  (forall c d s, is_high c && is_low d = true -> P s -> P (c :: d :: s)) ->
  (forall c s, surrogate c = false -> P s -> P (c :: s)) ->
  forall s, well_formed s -> P s.
Proof.
  intros Hnil Hpair Hone s. induction s as [|c d s E IH|c s E IH] using chars_ind; [done|..].
  - rewrite well_formed_pair by done. auto.
  - intros H. assert (surrogate c = false) as Hc.
    { unfold well_formed in H. rewrite chars_single in H by done. apply Forall_cons in H as [H _].
      destruct (H c eq_refl) as [Hh Hl]. unfold surrogate. by rewrite Hh, Hl. }
    apply Hone; [done|]. apply IH. by apply well_formed_cons in H.
Qed.

Lemma pair_not_ws c d : is_high c && is_low d = true -> is_ws c = false /\ is_ws d = false.
Proof.
  rewrite andb_true_iff. intros [Hc Hd]. split; apply not_true_is_false; intros Hw;
    apply ws_not_surrogate in Hw; revert Hw; unfold surrogate; by rewrite ?Hc, ?Hd, ?orb_true_r.
Qed.

Lemma collapse_well_formed s : well_formed s -> forall in_run, well_formed (collapse in_run s).
Proof.
  intros H. induction H as [|c d s E IH|c s Hc IH] using well_formed_ind; intros in_run; [constructor|..].
  - destruct (pair_not_ws c d E) as [Hc Hd]. cbn [collapse]. rewrite Hc, Hd. apply well_formed_pair; auto.
  - cbn [collapse]. destruct (is_ws c); [destruct in_run; [auto|]|]; apply well_formed_cons; auto.
Qed.

Lemma trim_start_well_formed s : well_formed s -> well_formed (trim_start s).
Proof.
  induction s as [|c s IH]; [done|]. intros H. cbn [trim_start]. destruct (is_ws c) eqn:E; [|done].
  apply IH. apply well_formed_cons in H; [done | by apply ws_not_surrogate].
Qed.

Lemma well_formed_snoc s c : surrogate c = false -> well_formed (s ++ [c]) -> well_formed s.
Proof.
  unfold surrogate. rewrite orb_false_iff. intros [Hh Hl].
  induction s as [|a b s E IH|a s E IH] using chars_ind; [constructor|..]; cbn [app].
  - rewrite !well_formed_pair by done. done.
  - unfold well_formed. rewrite (chars_single a s) by done. rewrite chars_single.
    + rewrite !Forall_cons. intros [? ?]. split; [done|]. by apply IH.
    + intros d s' Hs. destruct s as [|e s]; injection Hs as <- <-; [by rewrite Hl, andb_false_r|].
      by apply (E e s).
Qed.

Lemma trim_end_well_formed s : well_formed s -> well_formed (trim_end s).
Proof.
  unfold trim_end. induction s as [|c s IH] using rev_ind; [done|]. intros H.
  rewrite rev_app_distr. cbn [rev app trim_start]. destruct (is_ws c) eqn:E.
  - apply IH. apply (well_formed_snoc s c); [by apply ws_not_surrogate | done].
  - cbn [rev]. by rewrite rev_involutive.
Qed.

(** ** White space *)

(** White space is single spaces. *)
Definition single_spaced (s : jsstr) : Prop :=
  (forall c, In c s -> is_ws c = true -> c = 32) /\
  (forall a b, s <> a ++ [32; 32] ++ b).

Lemma collapse_spaces s : forall in_run c, In c (collapse in_run s) -> is_ws c = true -> c = 32.
Proof.
  induction s as [|d s IH]; intros in_run c; [done|]. cbn [collapse]. destruct (is_ws d) eqn:E.
  - destruct in_run; [apply IH|]. intros [<- | H]; [done | by eapply IH].
  - intros [<- | H]; [by rewrite E | by eapply IH].
Qed.

Lemma collapse_run s b : collapse true s <> 32 :: b.
Proof. induction s as [|d s IH]; [done|]. cbn [collapse]. destruct (is_ws d) eqn:E; [done|]. by intros [= -> _]. Qed.

Lemma collapse_double s : forall in_run a b, collapse in_run s <> a ++ [32; 32] ++ b.
Proof.
  induction s as [|d s IH]; intros in_run a b; [by destruct a|]. cbn [collapse]. destruct (is_ws d) eqn:E.
  - destruct in_run; [apply IH|]. destruct a as [|x a]; intros [= H]; [by apply collapse_run in H|].
    by apply (IH true a b).
  - destruct a as [|x a]; intros [= -> H]; [done|]. by apply (IH false a b).
Qed.

Lemma single_spaced_segment a s b : single_spaced (a ++ s ++ b) -> single_spaced s.
Proof.
  intros [H1 H2]. split.
  - intros c Hc. apply H1. rewrite !in_app_iff. auto.
  - intros x y ->. apply (H2 (a ++ x) (y ++ b)). by rewrite <- !(assoc_L (++)).
Qed.

Lemma trim_end_prefix s : exists b, s = trim_end s ++ b.
Proof.
  destruct (trim_start_suffix (rev s)) as [a H]. exists (rev a). unfold trim_end.
  by rewrite <- rev_app_distr, <- H, rev_involutive.
Qed.

Lemma trim_start_head s c s' : trim_start s = c :: s' -> is_ws c = false.
Proof.
  induction s as [|d s IH]; [done|]. cbn [trim_start]. destruct (is_ws d) eqn:E; [done|]. by intros [= <- _].
Qed.

Lemma trim_head s c s' : trim s = c :: s' -> is_ws c = false.
Proof.
  unfold trim. intros H. destruct (trim_end_prefix (trim_start s)) as [b Hb]. rewrite H in Hb.
  by apply trim_start_head in Hb.
Qed.

(** ** The label *)

Lemma sanitize_prefix name : exists b, trim (collapse false name) = sanitizeAgentName name ++ b.
Proof.
  unfold sanitizeAgentName. exists (concat (drop MAX_AGENT_NAME_LEN (string_chars (trim (collapse false name))))).
  by rewrite <- concat_app, take_drop, string_chars_concat.
Qed.

Lemma sanitize_segment name : exists a b, collapse false name = a ++ sanitizeAgentName name ++ b.
Proof.
  destruct (sanitize_prefix name) as [b Hb]. destruct (trim_start_suffix (collapse false name)) as [a Ha].
  destruct (trim_end_prefix (trim_start (collapse false name))) as [b' Hb'].
  exists a, (b ++ b'). rewrite Ha at 1. f_equal. rewrite Hb' at 1. fold (trim (collapse false name)).
  by rewrite Hb, <- (assoc_L (++)).
Qed.

(** C38. A display label has at most [MAX_AGENT_NAME_LEN] characters, white
    space in it is single spaces and none of it leads, and the cut never splits
    a character: the label of a well formed name is well formed. *)
Theorem sanitizeAgentName_label name :
  (length (string_chars (sanitizeAgentName name)) <= MAX_AGENT_NAME_LEN)%nat /\
  single_spaced (sanitizeAgentName name) /\
  (forall c s, sanitizeAgentName name = c :: s -> is_ws c = false) /\
  (well_formed name -> well_formed (sanitizeAgentName name)).
Proof.
  split_and!.
  - unfold sanitizeAgentName. rewrite string_chars_take, length_take. lia.
  - destruct (sanitize_segment name) as (a & b & H). apply (single_spaced_segment a _ b). rewrite <- H.
    split; [apply collapse_spaces | apply collapse_double].
  - intros c s H. destruct (sanitize_prefix name) as [b Hb]. rewrite H in Hb. by apply trim_head in Hb.
  - intros H. unfold sanitizeAgentName, well_formed. rewrite string_chars_take. apply Forall_take.
    apply trim_end_well_formed, trim_start_well_formed, collapse_well_formed, H.
Qed.

(** The cut comes after the trim: a space at the bound stays. *)
Example sanitizeAgentName_trailing :
  let name := repeat 97 127 ++ [32; 98] in
  sanitizeAgentName name = repeat 97 127 ++ [32].
Proof. vm_compute. reflexivity. Qed.
