(* ===== verification/Varint.v ===== *)
(** * Base-128 varints

    [encodeVarint] and [readVarint], which production-signing.ts,
    production-wire-schema.ts and production-signing-producer.ts each carry a
    copy of.  The readers differ in the exceptions they throw only, so one
    definition is parameterised by these.  A reader accepts at most ten bytes
    (seventy bits) and only the shortest encoding of a value. *)

From S2P Require Import Prelude JsString JsValue.

(** ** Writing *)

(** [while (value >= 0x80n) { bytes.push(...); value >>= 7n }], with one
    iteration per bit of [value], more than its one per seven bits. *)
Fixpoint encodeVarint_loop (fuel : nat) (value : Z) : bytes :=
  match fuel with
  | O => []
  | S fuel' =>
      if 0x80 <=? value
      then Z.lor (Z.land value 0x7f) 0x80 :: encodeVarint_loop fuel' (Z.shiftr value 7)
      else [Z.land value 0xff]
  end.

Definition encodeVarint (input : Z) : bytes :=
  encodeVarint_loop (S (Z.to_nat (Z.log2 input))) input.

(** ** Reading *)

Record varint_errors : Set := {
  ve_class : error_class;
  ve_truncated : jsstr;
  ve_nonminimal : jsstr;
  ve_oversize : jsstr
}.

(** The [for] loop over [index], with [n] iterations left of ten. *)
Fixpoint readVarint_loop (E : varint_errors) (raw : bytes) (start : Z)
    (n : nat) (index value : Z) : result (Z * Z) :=
  match n with
  | O => throw (ve_class E) (ve_oversize E)
  | S n' =>
      let offset := start + index in
      match znth raw offset with
      | None => throw (ve_class E) (ve_truncated E)
      | Some byte =>
          let value := Z.lor value (Z.shiftl (Z.land byte 0x7f) (index * 7)) in
          if byte <? 0x80 then
            do! throw_if (negb (bool_decide (encodeVarint value = slice raw start (offset + 1))))
                  (ve_class E) (ve_nonminimal E) ;;
            Ok (value, offset + 1)
          else readVarint_loop E raw start n' (index + 1) value
      end
  end.

Definition readVarint_with (E : varint_errors) (raw : bytes) (start : Z) : result (Z * Z) :=
  readVarint_loop E raw start 10 0 0.

(** ** Arithmetic of seven-bit groups *)

Lemma lor_shiftl_add a b k : 0 <= k -> 0 <= a < 2 ^ k -> Z.lor a (Z.shiftl b k) = a + b * 2 ^ k.
Proof.
  intros Hk Ha. rewrite <- Z.shiftl_mul_pow2 by done.
  assert (Z.land a (Z.shiftl b k) = 0) as Hl.
  { apply Z.bits_inj'. intros n Hn. rewrite Z.land_spec, Z.bits_0.
    destruct (Z.lt_ge_cases n k).
    - rewrite Z.shiftl_spec_low by done. apply andb_false_r.
    - rewrite <- (Z.mod_small a (2 ^ k)) by done.
      rewrite Z.mod_pow2_bits_high by lia. done. }
  rewrite Z.add_nocarry_lxor by done. symmetry. by apply Z.lxor_lor.
Qed.

Lemma land_7f a : Z.land a 0x7f = a mod 128.
Proof. change 0x7f with (Z.ones 7). rewrite Z.land_ones by lia. done. Qed.

Lemma land_ff a : 0 <= a < 256 -> Z.land a 0xff = a.
Proof. intros. change 0xff with (Z.ones 8). rewrite Z.land_ones by lia. by apply Z.mod_small. Qed.

Lemma shiftr_7 a : Z.shiftr a 7 = a / 128.
Proof. by rewrite Z.shiftr_div_pow2 by lia. Qed.

Lemma lor_80 a : Z.lor (Z.land a 0x7f) 0x80 = a mod 128 + 128.
Proof.
  rewrite land_7f. change 0x80 with (Z.shiftl 1 7).
  rewrite lor_shiftl_add; [done | lia | apply Z.mod_pos_bound; lia].
Qed.

Section Encode.

Lemma encodeVarint_loop_fuel n m v :
  0 <= v < 2 ^ Z.of_nat n -> 0 <= v < 2 ^ Z.of_nat m -> (0 < n)%nat -> (0 < m)%nat ->
  encodeVarint_loop n v = encodeVarint_loop m v.
Proof.
  revert m v; induction n as [|n IH]; intros m v Hn Hm ? ?; [lia|].
  destruct m as [|m]; [lia|]. cbn [encodeVarint_loop].
  destruct (Z.leb_spec 0x80 v); [|done]. f_equal.
  rewrite shiftr_7.
  assert (forall k, 0 <= v < 2 ^ Z.of_nat (S k) -> 0 <= v / 128 < 2 ^ Z.of_nat k /\ (0 < k)%nat) as Hk.
  { intros k Hv. rewrite Nat2Z.inj_succ, Z.pow_succ_r in Hv by lia.
    assert (0 < 2 ^ Z.of_nat k) by (apply Z.pow_pos_nonneg; lia).
    split; [split; [apply Z.div_pos; lia | apply Z.div_lt_upper_bound; lia]|].
    destruct k; [cbn in Hv; lia | lia]. }
  apply Hk in Hn as [??], Hm as [??]. by apply IH.
Qed.

(** The recursive equation of the encoder: one group, then the rest. *)
Lemma encodeVarint_unfold v :
  0 <= v ->
  encodeVarint v = if v <? 128 then [v] else v mod 128 + 128 :: encodeVarint (v / 128).
Proof.
  intros Hv. unfold encodeVarint at 1. cbn [encodeVarint_loop].
  destruct (Z.ltb_spec v 128), (Z.leb_spec 0x80 v); try lia.
  - rewrite land_ff by lia. done.
  - rewrite lor_80, shiftr_7. f_equal. unfold encodeVarint.
    pose proof (Z.log2_spec v ltac:(lia)) as [_ Hlog].
    assert (0 < Z.log2 v) by (apply Z.log2_pos; lia).
    assert (0 < v / 128) as Hpos by (apply Z.div_str_pos; lia).
    pose proof (Z.log2_spec (v / 128) Hpos) as [_ Hlog'].
    rewrite Z.pow_succ_r in Hlog by lia.
    apply encodeVarint_loop_fuel; try lia.
    + split; [lia|]. rewrite Z2Nat.id by lia. apply Z.div_lt_upper_bound; lia.
    + split; [lia|]. rewrite Nat2Z.inj_succ, Z2Nat.id by apply Z.log2_nonneg. done.
Qed.

Lemma encodeVarint_small v : 0 <= v < 128 -> encodeVarint v = [v].
Proof. intros. rewrite encodeVarint_unfold by lia. destruct (Z.ltb_spec v 128); [done|lia]. Qed.

(** Induction along the groups of a value. *)
Lemma varint_ind (P : Z -> Prop) :
  (forall v, 0 <= v < 128 -> P v) ->
  (forall v, 128 <= v -> P (v / 128) -> P v) -> forall v, 0 <= v -> P v.
Proof.
  intros Hb Hs v Hv. generalize Hv. revert v Hv.
  apply (Z_lt_induction (fun v => 0 <= v -> P v)). intros v IH Hv.
  destruct (Z.lt_ge_cases v 128); [by apply Hb|]. apply Hs; [done|].
  assert (0 <= v / 128 < v) by (split; [apply Z.div_pos; lia | apply Z.div_lt; lia]).
  apply IH; lia.
Qed.

Lemma encodeVarint_bytes v : 0 <= v -> Forall is_byte (encodeVarint v).
Proof.
  revert v. apply varint_ind; intros v Hv.
  - rewrite encodeVarint_small by done. repeat constructor; lia.
  - intros IH. rewrite encodeVarint_unfold by lia. destruct (Z.ltb_spec v 128); [lia|].
    constructor; [|done]. unfold is_byte. pose proof (Z.mod_pos_bound v 128). lia.
Qed.

Lemma encodeVarint_nonempty v : 0 <= v -> 1 <= zlen (encodeVarint v).
Proof.
  intros. rewrite encodeVarint_unfold by done.
  destruct (v <? 128); autorewrite with zlen; [lia|].
  pose proof (zlen_nonneg (encodeVarint (v / 128))). lia.
Qed.
End Encode.

Section Decode.
Context (E : varint_errors).
Implicit Types raw pre post : bytes.

(** What a successful read says of the bytes: they are the encoding of the
    value, which has at most seventy bits. *)
Lemma readVarint_loop_sound raw start n index value v e :
  0 <= index -> 0 <= value < 2 ^ (7 * index) ->
  readVarint_loop E raw start n index value = Ok (v, e) ->
  encodeVarint v = slice raw start e /\ start + index < e <= start + index + Z.of_nat n /\
  e <= zlen raw /\ 0 <= v < 2 ^ (7 * (index + Z.of_nat n)).
Proof.
  revert index value. induction n as [|n IH]; intros index value Hi Hv; cbn [readVarint_loop]; [done|].
  destruct (znth raw (start + index)) as [b|] eqn:Hb; [|done].
  apply znth_Some_lt in Hb as Hlen. cbn zeta.
  rewrite (lor_shiftl_add value _ (index * 7)) by (rewrite ?(Z.mul_comm index); lia).
  rewrite land_7f. pose proof (Z.mod_pos_bound b 128 ltac:(lia)) as Hm.
  assert (0 < 2 ^ (7 * index)) by (apply Z.pow_pos_nonneg; lia).
  assert (0 <= value + b mod 128 * 2 ^ (index * 7) < 2 ^ (7 * (index + 1))) as Hnew.
  { rewrite (Z.mul_comm index), Z.mul_add_distr_l, Z.pow_add_r by lia.
    change (2 ^ (7 * 1)) with 128. nia. }
  destruct (b <? 0x80).
  - intros ?. resolve_ok. simplify_eq. case_bool_decide; [|done].
    split; [done|]. split; [lia|]. split; [lia|].
    split; [lia|]. eapply Z.lt_le_trans; [apply Hnew|]. apply Z.pow_le_mono_r; lia.
  - intros Hr%IH; [|lia|done].
    replace (index + 1 + Z.of_nat n) with (index + Z.of_nat (S n)) in Hr by lia.
    destruct Hr as (? & ? & ? & ?). repeat split; try lia. done.
Qed.

Lemma readVarint_sound raw start v e :
  readVarint_with E raw start = Ok (v, e) ->
  encodeVarint v = slice raw start e /\ start < e <= start + 10 /\ e <= zlen raw /\
  0 <= v < 2 ^ 70.
Proof.
  intros H%readVarint_loop_sound; [|lia|lia]. cbn in H. 
  destruct H as (? & ? & ? & ?). repeat split; try lia; done.
Qed.

Lemma readVarint_loop_complete pre post v n i p :
  0 <= v -> zlen p = i -> encodeVarint v = p ++ encodeVarint (v / 2 ^ (7 * i)) ->
  0 <= v / 2 ^ (7 * i) < 2 ^ (7 * Z.of_nat n) -> (0 < n)%nat ->
  readVarint_loop E (pre ++ encodeVarint v ++ post) (zlen pre) n i (v mod 2 ^ (7 * i))
  = Ok (v, zlen pre + zlen (encodeVarint v)).
Proof.
  revert i p. induction n as [|n IH]; intros i p Hv Hp Henc Hw Hn; [lia|].
  pose proof (zlen_nonneg p) as Hi. set (w := v / 2 ^ (7 * i)) in *.
  assert (0 < 2 ^ (7 * i)) by (apply Z.pow_pos_nonneg; lia).
  cbn [readVarint_loop]. cbn zeta. rewrite znth_app_r by lia.
  rewrite Henc at 1. replace (zlen pre + i - zlen pre) with i by lia.
  rewrite <- app_assoc, znth_app_r, Hp, Z.sub_diag by lia.
  rewrite (encodeVarint_unfold w) by lia.
  assert (forall b, b mod 128 = w mod 128 ->
    Z.lor (v mod 2 ^ (7 * i)) (Z.shiftl (Z.land b 0x7f) (i * 7)) = v mod 2 ^ (7 * (i + 1))) as Hacc.
  { intros b Hb. rewrite land_7f, Hb, (Z.mul_comm i).
    rewrite lor_shiftl_add by (try lia; apply Z.mod_pos_bound; lia).
    rewrite Z.mul_add_distr_l, Z.pow_add_r by lia. change (2 ^ (7 * 1)) with 128.
    rewrite Z.rem_mul_r by lia. fold w. lia. }
  destruct (Z.ltb_spec w 128).
  - cbn [app]. rewrite znth_cons_0, (Hacc w eq_refl).
    destruct (Z.ltb_spec w 0x80); [|lia].
    assert (v mod 2 ^ (7 * (i + 1)) = v) as ->.
    { apply Z.mod_small. split; [done|]. rewrite Z.mul_add_distr_l, Z.pow_add_r by lia.
      change (2 ^ (7 * 1)) with 128. pose proof (Z.mul_div_le v (2 ^ (7 * i))).
      pose proof (Z.mod_pos_bound v (2 ^ (7 * i))).
      pose proof (Z.div_mod v (2 ^ (7 * i))). fold w in H2. nia. }
    assert (zlen (encodeVarint v) = i + 1) as Hz.
    { rewrite Henc, encodeVarint_small by lia. autorewrite with zlen. lia. }
    replace (zlen pre + i + 1) with (zlen pre + zlen (encodeVarint v)) by lia.
    rewrite slice_app_mid, bool_decide_true by done. done.
  - cbn [app]. rewrite znth_cons_0. pose proof (Z.mod_pos_bound w 128).
    destruct (Z.ltb_spec (w mod 128 + 128) 0x80); [lia|].
    rewrite Hacc.
    2:{ rewrite <- Zplus_mod_idemp_r, Z_mod_same_full, Z.add_0_r, Zmod_mod. done. }
    assert (v / 2 ^ (7 * (i + 1)) = w / 128) as Hw'.
    { rewrite Z.mul_add_distr_l, Z.pow_add_r by lia. by rewrite <- Z.div_div by lia. }
    apply (IH (i + 1) (p ++ [w mod 128 + 128])); try done.
    + autorewrite with zlen. lia.
    + rewrite Hw', <- app_assoc, Henc. f_equal.
      rewrite (encodeVarint_unfold w) by lia. destruct (Z.ltb_spec w 128); [lia|done].
    + rewrite Hw'. split; [apply Z.div_pos; lia|]. apply Z.div_lt_upper_bound; [lia|].
      replace (7 * Z.of_nat (S n)) with (7 * 1 + 7 * Z.of_nat n) in Hw by lia.
      rewrite Z.pow_add_r in Hw by lia. lia.
    + destruct n; [cbn in Hw; lia | lia].
Qed.

(** Reading a written value returns it and the offset after it. *)
Lemma readVarint_complete pre post v :
  0 <= v < 2 ^ 70 ->
  readVarint_with E (pre ++ encodeVarint v ++ post) (zlen pre)
  = Ok (v, zlen pre + zlen (encodeVarint v)).
Proof.
  intros Hv. unfold readVarint_with.
  replace 0 with (v mod 2 ^ (7 * 0)) at 2 by (cbn; apply Z.mod_1_r).
  apply (readVarint_loop_complete pre post v 10 0 []); cbn; rewrite ?Z.div_1_r; try lia; done.
Qed.

Lemma readVarint_not_NoFuel raw start : readVarint_with E raw start <> NoFuel.
Proof.
  unfold readVarint_with. generalize 0 at 1 as i. generalize 0 as v. generalize 10%nat as n.
  induction n as [|n IH]; intros v i; cbn [readVarint_loop]; [done|].
  destruct (znth raw (start + i)); [|done]. cbn zeta.
  destruct (_ <? _); [|apply IH]. by destruct (negb _).
Qed.

Lemma readVarint_throws_only raw start : throws_only (ve_class E) (readVarint_with E raw start).
Proof.
  unfold readVarint_with. generalize 0 at 1 as i. generalize 0 as v. generalize 10%nat as n.
  induction n as [|n IH]; intros v i; cbn [readVarint_loop]; throws_only.
Qed.
End Decode.

Definition probe_errors : varint_errors :=
  {| ve_class := PlainError; ve_truncated := []; ve_nonminimal := []; ve_oversize := [] |}.

(** Varints are a prefix code on seventy bits. *)
Lemma encodeVarint_prefix_free v1 v2 r1 r2 :
  0 <= v1 < 2 ^ 70 -> 0 <= v2 < 2 ^ 70 ->
  encodeVarint v1 ++ r1 = encodeVarint v2 ++ r2 -> v1 = v2 /\ r1 = r2.
Proof.
  intros H1 H2 H.
  pose proof (readVarint_complete probe_errors [] r1 v1 H1) as R1.
  pose proof (readVarint_complete probe_errors [] r2 v2 H2) as R2.
  cbn [app] in R1, R2. rewrite H, R2 in R1. injection R1 as -> _.
  split; [done|]. by apply app_inv_head in H.
Qed.

(** ** Tags: a field number and a wire type in one varint *)

(** A field number below [2^53] is read from its tag without rounding. *)
Lemma tag_split t n w :
  0 <= t -> n = to_double (Z.shiftr t 3) -> w = to_double (Z.land t 7) -> Z.abs n < 2 ^ 53 ->
  t = n * 8 + w /\ 0 <= w < 8.
Proof.
  intros Ht Hn Hw Hr.
  change 7 with (Z.ones 3) in Hw. rewrite Z.land_ones in Hw by lia.
  rewrite Z.shiftr_div_pow2 in Hn by lia. change (2 ^ 3) with 8 in *.
  pose proof (Z.mod_pos_bound t 8 ltac:(lia)).
  rewrite to_double_exact in Hw by lia.
  symmetry in Hn. apply to_double_small_inv in Hn; [|lia].
  rewrite (Z.div_mod t 8) by lia. lia.
Qed.

Lemma tag_join n w :
  0 <= n < 2 ^ 53 -> 0 <= w < 8 ->
  to_double (Z.shiftr (n * 8 + w) 3) = n /\ to_double (Z.land (n * 8 + w) 7) = w.
Proof.
  intros Hn Hw. change 7 with (Z.ones 3). rewrite Z.land_ones by lia.
  rewrite Z.shiftr_div_pow2 by lia. change (2 ^ 3) with 8.
  rewrite (Z.add_comm (n * 8)), Z.div_add, Z.mod_add, Z.div_small, Z.mod_small by lia.
  rewrite !to_double_exact by lia. lia.
Qed.

#[export] Hint Resolve readVarint_not_NoFuel encodeVarint_bytes : cap.
