(* ===== verification/ProductionWire.v ===== *)
(** * CAP-PRODUCTION wire extraction

    The raw-byte half of production-signing.ts: the walk over a received
    BusPacket that separates the signature field from the exact bytes it
    signs.  The walk is specified by a grammar of top-level fields, and
    [extractProductionSignature] is proved to accept precisely that grammar. *)

From S2P Require Import Prelude JsString JsValue Varint.

(** ** production-signing.ts *)

Definition PRODUCTION_SIGNATURE_DOMAIN : bytes := js "CAP-PRODUCTION-SIGNATURE-V1" ++ [0].

Definition MAX_PRODUCTION_RAW_BYTES : Z := Z.shiftl 1 20.

Definition BUS_PACKET_WIRE_TYPES : list (Z * Z) :=
  [(1, 2); (2, 2); (3, 2); (4, 0); (5, 2); (6, 2);
   (10, 2); (11, 2); (12, 2); (13, 2); (14, 2); (15, 2);
   (16, 2); (17, 2); (18, 2); (19, 2); (20, 2); (21, 2); (22, 2)].

Definition BUS_PACKET_PAYLOAD_FIELDS : list Z := [10; 11; 12; 13; 15; 16; 17; 19; 20; 21; 22].

Definition wire_error {A} (m : string) : result A := throw ProductionWireError (js m).

Definition readVarint : bytes -> Z -> result (Z * Z) :=
  readVarint_with {| ve_class := ProductionWireError;
                     ve_truncated := js "truncated varint";
                     ve_nonminimal := js "non-minimal varint";
                     ve_oversize := js "oversize varint" |}.

(** [skipValue]: the offset after a value of the given wire type. *)
Definition skipValue (raw : bytes) (offset wireType : Z) : result Z :=
  if wireType =? 0 then let! r := readVarint raw offset in Ok r.2
  else
    let! end_ :=
      (if wireType =? 1 then Ok (offset + 8)
       else if wireType =? 2 then
         let! length := readVarint raw offset in
         Ok (to_double (length.2 + to_double length.1))
       else if wireType =? 5 then Ok (offset + 4)
       else wire_error "unsupported wire type") in
    do! throw_if (zlen raw <? end_) ProductionWireError (js "truncated field") ;;
    Ok end_.

(** [validateBusPacketField]: the new [seen] set and payload field. *)
Definition validateBusPacketField (fieldNumber wireType : Z) (seen : list Z)
    (payloadField : option Z) : result (list Z * option Z) :=
  match zassoc fieldNumber BUS_PACKET_WIRE_TYPES with
  | None => wire_error "unknown BusPacket field"
  | Some expected =>
      do! throw_if (negb (wireType =? expected)) ProductionWireError
            (js "wrong BusPacket field wire type") ;;
      do! throw_if (zmem fieldNumber seen) ProductionWireError
            (js "duplicate singular BusPacket field") ;;
      let seen := fieldNumber :: seen in
      if negb (zmem fieldNumber BUS_PACKET_PAYLOAD_FIELDS) then Ok (seen, payloadField)
      else
        do! throw_if (match payloadField with Some _ => true | None => false end)
              ProductionWireError (js "multiple BusPacket payload fields") ;;
        Ok (seen, Some fieldNumber)
  end.

(** The local variables of [extractProductionSignature]. *)
Record extract_state : Set := {
  es_offset : Z;
  es_unsigned : list bytes;
  es_signature : option bytes;
  es_seen : list Z;
  es_payloadField : option Z
}.

(** One iteration of its [while] loop. *)
Definition extract_step (source : bytes) (st : extract_state) : result extract_state :=
  let start := es_offset st in
  let! tag := readVarint source start in
  let offset := tag.2 in
  let fieldNumber := to_double (Z.shiftr tag.1 3) in
  let wireType := to_double (Z.land tag.1 7) in
  let! sp := validateBusPacketField fieldNumber wireType (es_seen st) (es_payloadField st) in
  let! valueEnd :=
    (if fieldNumber =? 4 then
       let! protocolVersion := readVarint source offset in
       do! throw_if (negb (protocolVersion.1 =? 1) ||
                     negb (bool_decide (slice source offset protocolVersion.2 = [1])))
             ProductionWireError (js "invalid protocol version wire") ;;
       Ok protocolVersion.2
     else skipValue source offset wireType) in
  if negb (fieldNumber =? 14) then
    Ok {| es_offset := valueEnd;
          es_unsigned := es_unsigned st ++ [slice source start valueEnd];
          es_signature := es_signature st;
          es_seen := sp.1; es_payloadField := sp.2 |}
  else
    let! length := readVarint source offset in
    let end_ := to_double (length.2 + to_double length.1) in
    do! throw_if (negb (end_ =? valueEnd) || (end_ =? length.2))
          ProductionWireError (js "malformed signature") ;;
    Ok {| es_offset := valueEnd;
          es_unsigned := es_unsigned st;
          es_signature := Some (slice source length.2 end_);
          es_seen := sp.1; es_payloadField := sp.2 |}.

Fixpoint extract_loop (fuel : nat) (source : bytes) (st : extract_state) : result extract_state :=
  if es_offset st <? zlen source then
    match fuel with
    | O => NoFuel
    | S fuel' => let! st' := extract_step source st in extract_loop fuel' source st'
    end
  else Ok st.

Definition extract_init : extract_state :=
  {| es_offset := 0; es_unsigned := []; es_signature := None; es_seen := []; es_payloadField := None |}.

(** The unsigned bytes and the signature.  Each iteration consumes a byte at
    least, so the length of the packet bounds the iterations. *)
Definition extractProductionSignature (raw : bytes) : result (bytes * bytes) :=
  do! throw_if (MAX_PRODUCTION_RAW_BYTES <? zlen raw) ProductionWireError
        (js "production packet exceeds size limit") ;;
  let! st := extract_loop (length raw) raw extract_init in
  do! throw_if (negb (zmem 4 (es_seen st))) ProductionWireError
        (js "invalid protocol version wire") ;;
  match es_signature st with
  | None => wire_error "missing signature"
  | Some signature => Ok (concat (es_unsigned st), signature)
  end.

(** ** The grammar of a signed BusPacket *)

(** A top-level field: the protocol version, always 1, or a length-delimited
    field. *)
Inductive bus_field : Set :=
| VersionField
| BytesField (n : Z) (payload : bytes).

Definition bf_number (f : bus_field) : Z :=
  match f with VersionField => 4 | BytesField n _ => n end.

Definition bf_wire (f : bus_field) : Z :=
  match f with VersionField => 0 | BytesField _ _ => 2 end.

Definition bf_value (f : bus_field) : bytes :=
  match f with
  | VersionField => [1]
  | BytesField _ p => encodeVarint (zlen p) ++ p
  end.

Definition bf_encode (f : bus_field) : bytes :=
  encodeVarint (bf_number f * 8 + bf_wire f) ++ bf_value f.

Definition bf_known (f : bus_field) : Prop :=
  match f with
  | VersionField => True
  | BytesField n _ => zassoc n BUS_PACKET_WIRE_TYPES = Some 2
  end.

Definition is_payload_field (f : bus_field) : bool := zmem (bf_number f) BUS_PACKET_PAYLOAD_FIELDS.

Definition is_signature_field (f : bus_field) : bool := bf_number f =? 14.

Definition encode_fields (fs : list bus_field) : bytes := concat (map bf_encode fs).

(** The field sequences a production packet may consist of: known fields, none
    twice, at most one payload, the version present, and the signature [s],
    which is not empty. *)
Record signed_fields (fs : list bus_field) (s : bytes) : Prop := {
  sf_known : Forall bf_known fs;
  sf_distinct : NoDup (map bf_number fs);
  sf_one_payload : forall f g, In f fs -> In g fs ->
    is_payload_field f = true -> is_payload_field g = true -> bf_number f = bf_number g;
  sf_version : In VersionField fs;
  sf_signature : In (BytesField 14 s) fs;
  sf_nonempty : s <> []
}.

(** The fields the signature covers. *)
Definition covered_fields (fs : list bus_field) : list bus_field :=
  List.filter (fun f => negb (is_signature_field f)) fs.

(** ** One iteration reads one field *)

Definition advance (st : extract_state) (f : bus_field) : extract_state := {|
  es_offset := es_offset st + zlen (bf_encode f);
  es_unsigned := if is_signature_field f then es_unsigned st else es_unsigned st ++ [bf_encode f];
  es_signature := match f with
                  | BytesField n p => if n =? 14 then Some p else es_signature st
                  | VersionField => es_signature st
                  end;
  es_seen := bf_number f :: es_seen st;
  es_payloadField := if is_payload_field f then Some (bf_number f) else es_payloadField st
|}.

Record accepts (st : extract_state) (f : bus_field) : Prop := {
  ac_known : bf_known f;
  ac_fresh : ~ In (bf_number f) (es_seen st);
  ac_payload : is_payload_field f = true -> es_payloadField st = None;
  ac_signature : match f with BytesField n p => n = 14 -> p <> [] | VersionField => True end
}.

Lemma wire_types_cases n w :
  zassoc n BUS_PACKET_WIRE_TYPES = Some w ->
  1 <= n <= 22 /\ ((n = 4 /\ w = 0) \/ (n <> 4 /\ w = 2)).
Proof.
  cbn. repeat match goal with |- context [n =? ?k] => destruct (Z.eqb_spec n k) end;
    intros [= <-] || done; lia.
Qed.

Lemma known_number f : bf_known f -> 1 <= bf_number f <= 22.
Proof. destruct f; cbn; [lia|]. by intros [? _]%wire_types_cases. Qed.

Lemma validate_ok_iff n w seen pf seen' pf' :
  validateBusPacketField n w seen pf = Ok (seen', pf') <->
  zassoc n BUS_PACKET_WIRE_TYPES = Some w /\ ~ In n seen /\ seen' = n :: seen /\
  (zmem n BUS_PACKET_PAYLOAD_FIELDS = true -> pf = None) /\
  pf' = if zmem n BUS_PACKET_PAYLOAD_FIELDS then Some n else pf.
Proof.
  unfold validateBusPacketField, wire_error. rewrite <- zmem_not_In.
  generalize (zmem n BUS_PACKET_PAYLOAD_FIELDS) as pay. intros pay.
  generalize (zassoc n BUS_PACKET_WIRE_TYPES) as o. intros o.
  generalize (zmem n seen) as dup. intros dup.
  destruct o as [w'|]; [|naive_solver].
  destruct (Z.eqb_spec w w') as [<-|Hne]; [|cbn; naive_solver].
  destruct dup, pay, pf; cbn; naive_solver.
Qed.

(** A length-delimited value that fits a buffer below [2^53] bytes is read
    without rounding. *)
Lemma length_delimited_sound raw offset len lend end_ :
  readVarint raw offset = Ok (len, lend) -> end_ = to_double (lend + to_double len) ->
  zlen raw < 2 ^ 53 -> end_ <= zlen raw -> 0 <= offset ->
  0 <= len /\ end_ = lend + len /\ offset < lend /\
  slice raw offset end_ = encodeVarint len ++ slice raw lend end_ /\
  zlen (slice raw lend end_) = len.
Proof.
  intros (He & Ho & Hl & Hv)%readVarint_sound Hend Hraw Hle Hoff.
  assert (0 <= to_double len) as Hd.
  { destruct (Z.le_gt_cases len (2 ^ 53)); [rewrite to_double_exact by lia; lia|].
    pose proof (to_double_large len). lia. }
  assert (0 <= end_) as He0.
  { rewrite Hend. destruct (Z.le_gt_cases (lend + to_double len) (2 ^ 53)).
    - rewrite to_double_exact; lia.
    - pose proof (to_double_large (lend + to_double len)). lia. }
  symmetry in Hend. apply to_double_small_inv in Hend; [|lia].
  assert (to_double len = end_ - lend) as Hlen by lia.
  apply to_double_small_inv in Hlen; [|lia].
  repeat split; try lia.
  - rewrite He, slice_app_slice by lia. done.
  - rewrite slice_zlen by lia. lia.
Qed.

Lemma readVarint_field_complete pre v post :
  0 <= v < 2 ^ 70 ->
  readVarint (pre ++ encodeVarint v ++ post) (zlen pre) = Ok (v, zlen pre + zlen (encodeVarint v)).
Proof. apply readVarint_complete. Qed.

Lemma length_delimited_complete pre p post :
  zlen (pre ++ (encodeVarint (zlen p) ++ p) ++ post) < 2 ^ 53 ->
  exists lend,
    readVarint (pre ++ (encodeVarint (zlen p) ++ p) ++ post) (zlen pre) = Ok (zlen p, lend) /\
    to_double (lend + to_double (zlen p)) = zlen pre + zlen (encodeVarint (zlen p) ++ p) /\
    slice (pre ++ (encodeVarint (zlen p) ++ p) ++ post) lend
          (zlen pre + zlen (encodeVarint (zlen p) ++ p)) = p.
Proof.
  intros Hb. exists (zlen (pre ++ encodeVarint (zlen p))).
  pose proof (zlen_nonneg p). pose proof (zlen_nonneg pre). pose proof (zlen_nonneg post).
  pose proof (zlen_nonneg (encodeVarint (zlen p))).
  repeat split.
  - rewrite <- app_assoc, readVarint_field_complete by (autorewrite with zlen in Hb; lia).
    by autorewrite with zlen.
  - autorewrite with zlen in *. rewrite (to_double_exact (zlen p)), to_double_exact by lia. lia.
  - rewrite <- (app_assoc (encodeVarint (zlen p))), (app_assoc pre).
    rewrite (zlen_app (encodeVarint (zlen p))), Z.add_assoc, <- zlen_app. apply slice_app_mid.
Qed.

Lemma skipValue_bytes_complete pre p post :
  zlen (pre ++ (encodeVarint (zlen p) ++ p) ++ post) < 2 ^ 53 ->
  skipValue (pre ++ (encodeVarint (zlen p) ++ p) ++ post) (zlen pre) 2
  = Ok (zlen pre + zlen (encodeVarint (zlen p)) + zlen p).
Proof.
  intros Hb. destruct (length_delimited_complete pre p post Hb) as (l & Hl & Hend & _).
  unfold skipValue. cbn [Z.eqb Pos.eqb]. rewrite Hl. cbn [mbind result_bind fst snd].
  rewrite Hend. pose proof (zlen_nonneg post). autorewrite with zlen in *. unfold throw_if.
  destruct (Z.ltb_spec (zlen pre + (zlen (encodeVarint (zlen p)) + zlen p + zlen post))
              (zlen pre + (zlen (encodeVarint (zlen p)) + zlen p))); [lia|].
  cbn. f_equal. lia.
Qed.

Lemma size_limit_small (raw : bytes) : zlen raw <= MAX_PRODUCTION_RAW_BYTES -> zlen raw < 2 ^ 53.
Proof. change MAX_PRODUCTION_RAW_BYTES with (2 ^ 20). lia. Qed.

(** The value part of an iteration: where the field after the tag ends. *)
Definition read_value (source : bytes) (n w offset : Z) : result Z :=
  if n =? 4 then
    let! protocolVersion := readVarint source offset in
    do! throw_if (negb (protocolVersion.1 =? 1) ||
                  negb (bool_decide (slice source offset protocolVersion.2 = [1])))
          ProductionWireError (js "invalid protocol version wire") ;;
    Ok protocolVersion.2
  else skipValue source offset w.

Lemma skipValue_bytes_sound raw offset valueEnd :
  skipValue raw offset 2 = Ok valueEnd ->
  exists len lend, readVarint raw offset = Ok (len, lend) /\
    valueEnd = to_double (lend + to_double len) /\ valueEnd <= zlen raw.
Proof.
  unfold skipValue. cbn [Z.eqb Pos.eqb]. intros. resolve_ok.
  match goal with r : (Z * Z)%type |- _ => destruct r as [len lend] end.
  exists len, lend. cbn in *. rewrite Z.ltb_ge in *. done.
Qed.

Lemma read_value_sound raw n w offset vend :
  0 <= offset -> zlen raw < 2 ^ 53 -> zassoc n BUS_PACKET_WIRE_TYPES = Some w ->
  read_value raw n w offset = Ok vend ->
  exists f, bf_number f = n /\ bf_wire f = w /\ bf_known f /\
    slice raw offset vend = bf_value f /\ offset < vend <= zlen raw /\
    (n = 14 -> exists lend, f = BytesField 14 (slice raw lend vend) /\
       readVarint raw offset = Ok (vend - lend, lend)).
Proof.
  intros Hoff Hsize Htab Hval. unfold read_value in Hval.
  apply wire_types_cases in Htab as Hc. destruct Hc as [Hn [[-> ->]|[Hne ->]]].
  - cbn [Z.eqb Pos.eqb] in Hval. resolve_ok. case_bool_decide as Hone; [|done].
    match goal with H : readVarint _ _ = Ok ?x |- _ =>
      destruct x as [pv pend]; apply readVarint_sound in H as (_ & ? & ? & _) end.
    exists VersionField. cbn in *. repeat split; try lia. done.
  - destruct (Z.eqb_spec n 4); [done|].
    apply skipValue_bytes_sound in Hval as (len & lend & Hr & Hend & Hle).
    pose proof (length_delimited_sound _ _ _ _ _ Hr Hend Hsize Hle Hoff)
      as (Hlen & Hv & Ho & Hs & Hz).
    exists (BytesField n (slice raw lend vend)). cbn [bf_number bf_wire bf_value bf_known].
    rewrite Hz. repeat split; try done; try lia.
    intros ->. exists lend. split; [done|]. rewrite Hr. do 2 f_equal. lia.
Qed.

Lemma extract_step_eq source st :
  extract_step source st =
  let! tag := readVarint source (es_offset st) in
  let n := to_double (Z.shiftr tag.1 3) in
  let w := to_double (Z.land tag.1 7) in
  let! sp := validateBusPacketField n w (es_seen st) (es_payloadField st) in
  let! vend := read_value source n w tag.2 in
  if negb (n =? 14) then
    Ok {| es_offset := vend; es_unsigned := es_unsigned st ++ [slice source (es_offset st) vend];
          es_signature := es_signature st; es_seen := sp.1; es_payloadField := sp.2 |}
  else
    let! length := readVarint source tag.2 in
    let end_ := to_double (length.2 + to_double length.1) in
    do! throw_if (negb (end_ =? vend) || (end_ =? length.2))
          ProductionWireError (js "malformed signature") ;;
    Ok {| es_offset := vend; es_unsigned := es_unsigned st;
          es_signature := Some (slice source length.2 end_);
          es_seen := sp.1; es_payloadField := sp.2 |}.
Proof. done. Qed.

Lemma extract_step_sound raw st st' :
  0 <= es_offset st -> zlen raw < 2 ^ 53 -> extract_step raw st = Ok st' ->
  exists f, accepts st f /\ slice raw (es_offset st) (es_offset st') = bf_encode f /\
    es_offset st' <= zlen raw /\ st' = advance st f.
Proof.
  intros Hoff Hsize Hstep. rewrite extract_step_eq in Hstep.
  apply bind_Ok_iff in Hstep as ([t toff] & Htag & Hstep). cbn [fst snd] in Hstep.
  apply bind_Ok_iff in Hstep as ([seen' pf'] & Hval & Hstep). cbn [fst snd] in Hstep.
  apply bind_Ok_iff in Hstep as (vend & Hvend & Hstep).
  apply validate_ok_iff in Hval as (Htab & Hfresh & -> & Hpay & ->).
  apply readVarint_sound in Htag as (Htag & Hto & Htl & Ht).
  apply wire_types_cases in Htab as Hrange.
  destruct (tag_split t _ _ ltac:(lia) eq_refl eq_refl ltac:(lia)) as [Hsplit _].
  set (n := to_double (Z.shiftr t 3)) in *. set (w := to_double (Z.land t 7)) in *.
  clearbody n w. apply read_value_sound in Hvend as (f & Hfn & Hfw & Hk & Hsl & Hve & H14); [|lia|done..].
  assert (slice raw (es_offset st) vend = bf_encode f) as Henc.
  { rewrite <- (slice_app_slice raw _ toff vend) by lia. unfold bf_encode.
    rewrite <- Htag, Hsl, Hfn, Hfw. by f_equal; f_equal. }
  assert (vend = es_offset st + zlen (bf_encode f)) as Hlen.
  { rewrite <- Henc, slice_zlen by lia. lia. }
  assert (is_payload_field f = zmem n BUS_PACKET_PAYLOAD_FIELDS) as Hpf
    by (unfold is_payload_field; by rewrite Hfn).
  exists f. unfold advance, is_signature_field. rewrite Hpf, <- Hlen, Hfn, <- Henc.
  destruct (Z.eqb_spec n 14) as [E14|N14]; cbn [negb] in Hstep.
  - destruct (H14 E14) as (lend & -> & Hr). rewrite Hr in Hstep.
    cbn zeta in Hstep. cbn [mbind result_bind fst snd] in Hstep.
    apply readVarint_sound in Hr as (_ & ? & ? & ?).
    rewrite (to_double_exact (vend - lend)), to_double_exact in Hstep by lia.
    replace (lend + (vend - lend)) with vend in Hstep by lia. resolve_ok. cbn [es_offset].
    split; [|split; [done | split; [lia | done]]].
    constructor; [done | by rewrite Hfn | by rewrite Hpf | intros _ Hnil].
    pose proof (slice_zlen raw lend vend ltac:(lia) ltac:(lia)) as Hz.
    rewrite Hnil, zlen_nil in Hz. lia.
  - resolve_ok. cbn [es_offset]. split; [|split; [done | split; [lia|]]].
    + constructor; [done | by rewrite Hfn | by rewrite Hpf |]. destruct f; cbn in *; [done|].
      intros ->. by symmetry in Hfn.
    + destruct f as [|m p]; cbn in Hfn; [done|]. rewrite Hfn. by destruct (Z.eqb_spec n 14).
Qed.

Lemma read_value_complete pre f post :
  bf_known f -> zlen (pre ++ bf_value f ++ post) < 2 ^ 53 ->
  read_value (pre ++ bf_value f ++ post) (bf_number f) (bf_wire f) (zlen pre)
  = Ok (zlen pre + zlen (bf_value f)).
Proof.
  intros Hk Hsize. destruct f as [|n p]; cbn [bf_number bf_wire bf_value] in *; unfold read_value.
  - cbn [Z.eqb Pos.eqb]. change [1] with (encodeVarint 1) in *.
    rewrite readVarint_field_complete by lia. cbn [mbind result_bind fst snd].
    rewrite slice_app_mid. done.
  - destruct (Z.eqb_spec n 4) as [->|]; [discriminate Hk|].
    rewrite skipValue_bytes_complete by done. autorewrite with zlen. f_equal. lia.
Qed.

Lemma extract_step_complete pre f post st :
  accepts st f -> es_offset st = zlen pre ->
  zlen (pre ++ bf_encode f ++ post) < 2 ^ 53 ->
  extract_step (pre ++ bf_encode f ++ post) st = Ok (advance st f).
Proof.
  intros [Hk Hfresh Hpay Hsig] Hoff Hsize. pose proof (known_number f Hk) as Hn.
  assert (0 <= bf_wire f < 8) as Hw by (destruct f; cbn; lia).
  set (tag := encodeVarint (bf_number f * 8 + bf_wire f)).
  remember (pre ++ bf_encode f ++ post) as raw eqn:Hraw.
  assert (raw = (pre ++ tag) ++ bf_value f ++ post) as Hraw2.
  { rewrite Hraw. unfold bf_encode. fold tag. by rewrite <- !app_assoc. }
  assert (readVarint raw (zlen pre) = Ok (bf_number f * 8 + bf_wire f, zlen (pre ++ tag))) as Htag.
  { rewrite Hraw2, <- app_assoc. unfold tag. rewrite readVarint_field_complete by lia.
    by autorewrite with zlen. }
  assert (read_value raw (bf_number f) (bf_wire f) (zlen (pre ++ tag))
          = Ok (zlen pre + zlen (bf_encode f))) as Hval.
  { rewrite Hraw2, read_value_complete by (rewrite <- ?Hraw2; done).
    unfold bf_encode. fold tag. autorewrite with zlen. f_equal. lia. }
  assert (validateBusPacketField (bf_number f) (bf_wire f) (es_seen st) (es_payloadField st)
          = Ok (bf_number f :: es_seen st,
                if is_payload_field f then Some (bf_number f) else es_payloadField st)) as Hvf.
  { apply validate_ok_iff. repeat split; try done. by destruct f. }
  rewrite extract_step_eq, Hoff, Htag. cbn [mbind result_bind fst snd]. cbn zeta.
  destruct (tag_join (bf_number f) (bf_wire f) ltac:(lia) Hw) as [-> ->].
  rewrite Hvf. cbn [mbind result_bind fst snd]. rewrite Hval. cbn [mbind result_bind].
  unfold advance, is_signature_field. rewrite Hoff.
  destruct (Z.eqb_spec (bf_number f) 14) as [E14|N14]; cbn [negb].
  - destruct f as [|n p]; [done|]. cbn in E14. subst n. cbn [bf_value] in Hraw2.
    destruct (length_delimited_complete (pre ++ tag) p post) as (l & Hl & Hend & Hsl);
      [by rewrite <- Hraw2|]. rewrite <- Hraw2 in Hl, Hsl.
    assert (zlen (pre ++ tag) + zlen (bf_value (BytesField 14 p))
            = zlen pre + zlen (bf_encode (BytesField 14 p))) as Hz.
    { unfold bf_encode. fold tag. autorewrite with zlen. lia. }
    cbn [bf_value] in Hz. rewrite Hz in Hend, Hsl.
    rewrite Hl. cbn [mbind result_bind fst snd]. cbn zeta. rewrite Hend, Hsl.
    rewrite Z.eqb_refl. cbn [negb orb].
    destruct (Z.eqb_spec (zlen pre + zlen (bf_encode (BytesField 14 p))) l) as [E|_]; [|done].
    exfalso. apply (Hsig eq_refl). rewrite <- Hsl, E. apply slice_empty.
  - rewrite Hraw, slice_app_mid. destruct f as [|n p]; [done|]. cbn in N14.
    by destruct (Z.eqb_spec n 14).
Qed.

(** ** The loop reads a field sequence *)

Fixpoint accepts_all (st : extract_state) (fs : list bus_field) : Prop :=
  match fs with
  | [] => True
  | f :: fs' => accepts st f /\ accepts_all (advance st f) fs'
  end.

Definition signature_of (f : bus_field) : option bytes :=
  match f with BytesField n p => if n =? 14 then Some p else None | VersionField => None end.

Lemma bf_encode_nonempty f : bf_known f -> 1 <= zlen (bf_encode f).
Proof.
  intros Hk%known_number. unfold bf_encode.
  assert (0 <= bf_wire f) by (destruct f; cbn; lia).
  pose proof (encodeVarint_nonempty (bf_number f * 8 + bf_wire f) ltac:(lia)).
  pose proof (zlen_nonneg (bf_value f)). autorewrite with zlen. lia.
Qed.

Lemma extract_loop_sound fuel raw st st' :
  0 <= es_offset st <= zlen raw -> zlen raw < 2 ^ 53 ->
  extract_loop fuel raw st = Ok st' ->
  exists fs, accepts_all st fs /\ slice raw (es_offset st) (zlen raw) = encode_fields fs /\
    st' = fold_left advance fs st.
Proof.
  revert st. induction fuel as [|fuel IH]; intros st Hoff Hsize; cbn [extract_loop];
    destruct (Z.ltb_spec (es_offset st) (zlen raw)) as [Hlt|Hge]; try done.
  2: intros (st1 & Hstep & Hloop)%bind_Ok_iff.
  1, 3: intros [= <-]; exists []; replace (es_offset st) with (zlen raw) by lia;
    split; [done|]; split; [apply slice_empty | done].
  apply extract_step_sound in Hstep as (f & Ha & Hs & Hl & ->); [|lia|done].
  pose proof (bf_encode_nonempty f (ac_known _ _ Ha)). cbn [advance es_offset] in *.
  apply IH in Hloop as (fs & Has & Hsl & ->); [|cbn [advance es_offset]; lia|done].
  cbn [advance es_offset] in Hsl.
  exists (f :: fs). split; [done|]. split; [|done].
  rewrite <- (slice_app_slice raw _ (es_offset st + zlen (bf_encode f))) by lia.
  rewrite Hs, Hsl. done.
Qed.

Lemma extract_loop_complete fuel pre fs st :
  accepts_all st fs -> es_offset st = zlen pre -> zlen (pre ++ encode_fields fs) < 2 ^ 53 ->
  (length fs <= fuel)%nat ->
  extract_loop fuel (pre ++ encode_fields fs) st = Ok (fold_left advance fs st).
Proof.
  revert fuel pre st. induction fs as [|f fs IH]; intros fuel pre st Has Hoff Hsize Hfuel.
  - unfold encode_fields. cbn [map concat]. rewrite app_nil_r.
    destruct fuel; cbn; by rewrite Hoff, Z.ltb_irrefl.
  - destruct Has as [Ha Has]. destruct fuel as [|fuel]; cbn in Hfuel; [lia|].
    pose proof (bf_encode_nonempty f (ac_known _ _ Ha)).
    change (encode_fields (f :: fs)) with (bf_encode f ++ encode_fields fs) in *.
    pose proof (zlen_nonneg (encode_fields fs)). cbn [extract_loop fold_left].
    destruct (Z.ltb_spec (es_offset st) (zlen (pre ++ bf_encode f ++ encode_fields fs)));
      [|autorewrite with zlen in *; lia].
    rewrite extract_step_complete by done. cbn [mbind result_bind].
    rewrite app_assoc. apply IH; [done | | by rewrite <- app_assoc | lia].
    cbn [advance es_offset]. autorewrite with zlen. lia.
Qed.

Lemma extract_step_not_NoFuel raw st : extract_step raw st <> NoFuel.
Proof.
  rewrite extract_step_eq.
  unfold read_value, skipValue, validateBusPacketField, wire_error, readVarint. no_fuel.
Qed.

(** The length of the packet is enough iterations. *)
Lemma extract_loop_not_NoFuel fuel raw st :
  0 <= es_offset st -> zlen raw < 2 ^ 53 -> zlen raw - es_offset st <= Z.of_nat fuel ->
  extract_loop fuel raw st <> NoFuel.
Proof.
  revert st. induction fuel as [|fuel IH]; intros st Hoff Hsize Hfuel; cbn [extract_loop];
    destruct (Z.ltb_spec (es_offset st) (zlen raw)); try done; [lia|].
  apply bind_not_NoFuel; [apply extract_step_not_NoFuel|]. intros st1 Hstep.
  apply extract_step_sound in Hstep as (f & Ha & _ & _ & ->); [|done..].
  pose proof (bf_encode_nonempty f (ac_known _ _ Ha)).
  apply IH; cbn [advance es_offset]; lia.
Qed.

(** ** The state after a field sequence *)

Lemma fold_advance_unsigned fs st :
  concat (es_unsigned (fold_left advance fs st))
  = concat (es_unsigned st) ++ encode_fields (covered_fields fs).
Proof.
  revert st; induction fs as [|f fs IH]; intros st; cbn [fold_left].
  - unfold encode_fields. cbn. by rewrite app_nil_r.
  - rewrite IH. unfold covered_fields. cbn [advance es_unsigned List.filter].
    destruct (is_signature_field f); cbn [negb]; [done|].
    unfold encode_fields. cbn [map concat]. rewrite concat_app. cbn.
    by rewrite app_nil_r, <- app_assoc.
Qed.

Lemma fold_advance_seen fs st n :
  In n (es_seen (fold_left advance fs st)) <-> In n (es_seen st) \/ In n (map bf_number fs).
Proof.
  revert st; induction fs as [|f fs IH]; intros st; cbn [fold_left map In].
  - tauto.
  - rewrite IH. cbn [advance es_seen In]. tauto.
Qed.

Lemma fold_advance_signature fs st :
  NoDup (map bf_number fs) ->
  match es_signature (fold_left advance fs st) with
  | Some s => In (BytesField 14 s) fs \/ (es_signature st = Some s /\ ~ In 14 (map bf_number fs))
  | None => es_signature st = None /\ ~ In 14 (map bf_number fs)
  end.
Proof.
  revert st; induction fs as [|f fs IH]; intros st Hd; cbn [fold_left map].
  - destruct (es_signature st); cbn; tauto.
  - inversion Hd as [|? ? Hni Hd']; subst. rewrite list_elem_of_In in Hni.
    specialize (IH (advance st f) Hd'). cbn [advance es_signature] in IH.
    destruct (es_signature _) as [s|]; destruct f as [|n p]; cbn [bf_number] in *.
    + destruct IH as [|[? ?]]; [by left; right | right; split; [done | cbn; intuition lia]].
    + destruct (Z.eqb_spec n 14) as [->|]; destruct IH as [|[? ?]].
      1, 3: by left; right.
      * left. left. congruence.
      * right. split; [done | cbn; intuition lia].
    + destruct IH. split; [done | cbn; intuition lia].
    + destruct (Z.eqb_spec n 14); [by destruct IH|]. destruct IH.
      split; [done | cbn; intuition lia].
Qed.

(** Acceptance along the loop is the grammar's side conditions. *)
Lemma accepts_all_iff fs st :
  accepts_all st fs <->
  Forall bf_known fs /\ NoDup (map bf_number fs) /\
  (forall f, In f fs -> ~ In (bf_number f) (es_seen st)) /\
  (forall f, In f fs -> is_payload_field f = true -> es_payloadField st = None) /\
  (forall f g, In f fs -> In g fs -> is_payload_field f = true -> is_payload_field g = true ->
     bf_number f = bf_number g) /\
  (forall s, In (BytesField 14 s) fs -> s <> []).
Proof.
  revert st; induction fs as [|f fs IH]; intros st; cbn [accepts_all map].
  { split; [|done]. intros _. repeat split; try constructor; intros; cbn in *; tauto. }
  rewrite IH, Forall_cons, NoDup_cons. cbn [advance es_seen es_payloadField]. clear IH.
  assert (bf_number f ∈ map bf_number fs <-> exists g, bf_number g = bf_number f /\ In g fs) as Hmem
    by (rewrite list_elem_of_In; apply in_map_iff).
  split.
  - intros ([Hk Hf Hp Hs] & Hks & Hd & Hseen & Hpay & Hone & Hsig). repeat split; auto.
    + rewrite Hmem. intros (g & Hg & Hin). apply (Hseen g Hin). left. done.
    + intros g [<-|Hin]; [done|]. intros Hg. apply (Hseen g Hin). by right.
    + intros g [<-|Hin] Hg; [by apply Hp|]. specialize (Hpay g Hin Hg).
      by destruct (is_payload_field f).
    + intros g h [<-|Hg] [<-|Hh] Pg Ph; auto.
      * specialize (Hpay h Hh Ph). by rewrite Pg in Hpay.
      * specialize (Hpay g Hg Pg). by rewrite Ph in Hpay.
    + intros s [->|Hin]; [by apply Hs | by apply Hsig].
  - intros ([Hk Hks] & [Hni Hd] & Hseen & Hpay & Hone & Hsig).
    split; [|repeat split; auto].
    + constructor; [done | apply Hseen; by left | apply Hpay; by left |].
      destruct f; [done|]. intros ->. apply Hsig. by left.
    + intros g Hin [Heq|Hg]; [|by apply (Hseen g); [right|]].
      apply Hni, Hmem. by exists g.
    + intros g Hin Pg. destruct (is_payload_field f) eqn:Pf.
      * exfalso. apply Hni, Hmem. exists g. split; [|done].
        apply Hone; [by right | by left | done..].
      * apply (Hpay g); [by right | done].
    + intros g h Hg Hh. apply Hone; by right.
    + intros s Hin. apply Hsig. by right.
Qed.

Lemma NoDup_same_signature fs s1 s2 :
  NoDup (map bf_number fs) -> In (BytesField 14 s1) fs -> In (BytesField 14 s2) fs -> s1 = s2.
Proof.
  induction fs as [|f fs IH]; [done|]. cbn [map]. rewrite NoDup_cons, list_elem_of_In.
  assert (forall s, In (BytesField 14 s) fs -> In 14 (map bf_number fs)) as Hin
    by (intros s; apply (in_map bf_number)).
  intros [Hni Hd] [->|H1] [E2|H2]; [congruence | | subst | by apply IH];
    exfalso; cbn in Hni; eauto.
Qed.

Lemma covered_insert fs s :
  NoDup (map bf_number fs) -> In (BytesField 14 s) fs ->
  exists pre post, fs = pre ++ BytesField 14 s :: post /\ covered_fields fs = pre ++ post.
Proof.
  intros Hd (pre & post & ->)%in_split. exists pre, post. split; [done|].
  rewrite map_app in Hd. apply NoDup_app in Hd as (_ & Hpre & [Hpost _]%NoDup_cons).
  unfold covered_fields. rewrite List.filter_app. cbn. 
  assert (forall l, (forall f, In f l -> bf_number f <> 14) ->
    List.filter (fun f => negb (is_signature_field f)) l = l) as Hid.
  { induction l as [|f l IH]; intros Hl; [done|]. cbn. unfold is_signature_field at 1.
    destruct (Z.eqb_spec (bf_number f) 14); [by destruct (Hl f); [left|]|].
    cbn. f_equal. apply IH. intros g Hg. apply Hl. by right. }
  rewrite !Hid; [done | |].
  - intros f Hf E. apply Hpost. rewrite list_elem_of_In. cbn. rewrite <- E. by apply in_map.
  - intros f Hf E. apply (Hpre 14); [|left].
    rewrite list_elem_of_In, <- E. by apply in_map.
Qed.

Lemma length_fields_le fs : Forall bf_known fs -> Z.of_nat (length fs) <= zlen (encode_fields fs).
Proof.
  induction 1 as [|f fs Hk _ IH]; [done|].
  change (encode_fields (f :: fs)) with (bf_encode f ++ encode_fields fs).
  pose proof (bf_encode_nonempty f Hk). autorewrite with zlen. cbn [length]. lia.
Qed.

Lemma extract_sound raw u s :
  extractProductionSignature raw = Ok (u, s) ->
  zlen raw <= MAX_PRODUCTION_RAW_BYTES /\
  exists fs, raw = encode_fields fs /\ signed_fields fs s /\ u = encode_fields (covered_fields fs).
Proof.
  unfold extractProductionSignature. intros H. resolve_ok.
  match goal with H : (_ <? _) = false |- _ => apply Z.ltb_ge in H as Hsize end.
  split; [done|]. apply size_limit_small in Hsize.
  match goal with H : extract_loop _ _ _ = Ok _ |- _ =>
    apply extract_loop_sound in H as (fs & Has & Hsl & ->); [|pose proof (zlen_nonneg raw); cbn; lia|done] end.
  cbn [extract_init es_offset] in Hsl. rewrite slice_full in Hsl.
  apply accepts_all_iff in Has as (Hk & Hd & _ & _ & Hone & Hne).
  pose proof (fold_advance_signature fs extract_init Hd) as Hsig.
  destruct (es_signature _) as [s'|]; [|done]. resolve_ok.
  destruct Hsig as [Hsig|[[=] _]].
  exists fs. split; [done|]. split; [|by rewrite fold_advance_unsigned].
  constructor; auto.
  match goal with H : zmem 4 _ = true |- _ => apply zmem_In, fold_advance_seen in H as [[]|Hv] end.
  apply in_map_iff in Hv as ([|n p] & Hn & Hin); [done|]. cbn in Hn. subst n.
  rewrite Forall_forall in Hk. specialize (Hk (BytesField 4 p)).
  rewrite list_elem_of_In in Hk. by specialize (Hk Hin).
Qed.

Lemma extract_complete fs s :
  zlen (encode_fields fs) <= MAX_PRODUCTION_RAW_BYTES -> signed_fields fs s ->
  extractProductionSignature (encode_fields fs) = Ok (encode_fields (covered_fields fs), s).
Proof.
  intros Hsize [Hk Hd Hone Hver Hsig Hne]. unfold extractProductionSignature, throw_if.
  destruct (Z.ltb_spec MAX_PRODUCTION_RAW_BYTES (zlen (encode_fields fs))); [lia|].
  cbn [mbind result_bind].
  pose proof (extract_loop_complete (length (encode_fields fs)) [] fs extract_init) as Hloop.
  cbn [app] in Hloop. rewrite Hloop; clear Hloop.
  - cbn [mbind result_bind].
    assert (zmem 4 (es_seen (fold_left advance fs extract_init)) = true) as ->.
    { apply zmem_In, fold_advance_seen. right. by apply (in_map bf_number) in Hver. }
    cbn [negb mbind result_bind]. rewrite fold_advance_unsigned.
    pose proof (fold_advance_signature fs extract_init Hd) as Hs.
    apply (in_map bf_number) in Hsig as H14.
    destruct (es_signature _) as [s'|]; [|by destruct Hs].
    destruct Hs as [Hs|[_ Hs]]; [|done].
    by rewrite (NoDup_same_signature fs s s' Hd Hsig Hs).
  - apply accepts_all_iff. repeat split; try done; [by intros f _ [] |].
    intros s' Hs'. by rewrite (NoDup_same_signature fs s' s Hd Hs' Hsig).
  - done.
  - by apply size_limit_small.
  - pose proof (length_fields_le fs Hk). unfold zlen in *. lia.
Qed.

(** C1. [extractProductionSignature] accepts exactly the packets of the
    grammar: a packet within the size limit that is a sequence of canonically
    encoded known BusPacket fields, none repeated, at most one payload, the
    protocol version 1 and a non-empty signature.  What it returns is the
    encoding of all fields but the signature, in order, and the signature. *)
Theorem extract_iff raw u s :
  extractProductionSignature raw = Ok (u, s) <->
  zlen raw <= MAX_PRODUCTION_RAW_BYTES /\
  exists fs, raw = encode_fields fs /\ signed_fields fs s /\
    u = encode_fields (covered_fields fs).
Proof.
  split; [apply extract_sound|]. intros (Hsize & fs & -> & Hs & ->). by apply extract_complete.
Qed.

Lemma extract_not_NoFuel raw : extractProductionSignature raw <> NoFuel.
Proof.
  unfold extractProductionSignature. apply bind_not_NoFuel; [auto with cap|].
  intros _ Hs%throw_if_Ok_iff%Z.ltb_ge%size_limit_small.
  apply bind_not_NoFuel; [|intros; unfold wire_error; no_fuel].
  apply extract_loop_not_NoFuel; cbn; [lia | done | unfold zlen; lia].
Qed.

Lemma extract_throws_only raw : throws_only ProductionWireError (extractProductionSignature raw).
Proof.
  assert (forall r o, throws_only ProductionWireError (readVarint r o)) as Hv
    by (intros; apply readVarint_throws_only).
  unfold extractProductionSignature, wire_error. throws_only.
  generalize (length raw) as n, extract_init as st. clear -Hv.
  induction n as [|n IH]; intros st; cbn [extract_loop]; throws_only.
  all: unfold validateBusPacketField, skipValue, wire_error; throws_only.
Qed.

(** The walk terminates on every input: the byte length of the packet
    bounds its iterations, so a result or an exception is always returned. *)
Theorem extract_terminates raw : extractProductionSignature raw <> NoFuel.
Proof. apply extract_not_NoFuel. Qed.

Lemma covered_small fs :
  zlen (encode_fields fs) <= MAX_PRODUCTION_RAW_BYTES ->
  zlen (encode_fields (covered_fields fs)) < 2 ^ 53.
Proof.
  intros H. apply Z.le_lt_trans with MAX_PRODUCTION_RAW_BYTES; [|done].
  eapply Z.le_trans; [|exact H]. clear H. unfold encode_fields, covered_fields.
  induction fs as [|f fs IH]; cbn [List.filter map concat]; [done|].
  destruct (negb _); cbn [map concat]; autorewrite with zlen; [lia|].
  pose proof (zlen_nonneg (bf_encode f)). lia.
Qed.

Lemma bf_encode_prefix_free f g r r' :
  bf_known f -> bf_known g -> zlen (bf_encode f) < 2 ^ 70 -> zlen (bf_encode g) < 2 ^ 70 ->
  bf_encode f ++ r = bf_encode g ++ r' -> f = g /\ r = r'.
Proof.
  assert (forall n p, zlen p <= zlen (bf_encode (BytesField n p))) as Hp.
  { intros n p. unfold bf_encode. cbn [bf_value]. rewrite !zlen_app. pose proof (zlen_nonneg (encodeVarint (zlen p))).
    pose proof (zlen_nonneg (encodeVarint (bf_number (BytesField n p) * 8 + bf_wire (BytesField n p)))). lia. }
  intros Hf%known_number Hg%known_number Lf Lg. unfold bf_encode. rewrite <- !app_assoc. intros E.
  apply encodeVarint_prefix_free in E as [Et E]; [|destruct f, g; cbn in *; lia..].
  destruct f as [|n p], g as [|m q]; cbn [bf_number bf_wire bf_value] in *; try lia.
  - by injection E.
  - assert (n = m) as -> by lia. rewrite <- !app_assoc in E.
    pose proof (Hp m p). pose proof (Hp m q). pose proof (zlen_nonneg p). pose proof (zlen_nonneg q).
    apply encodeVarint_prefix_free in E as [El E]; [|lia..].
    apply app_inj_1 in E as [-> ->]; [done|]. unfold zlen in El. lia.
Qed.

Lemma encode_fields_inj fs : forall gs,
  Forall bf_known fs -> Forall bf_known gs -> zlen (encode_fields fs) < 2 ^ 70 -> encode_fields fs = encode_fields gs -> fs = gs.
Proof.
  assert (forall f r, bf_known f -> bf_encode f ++ r <> []) as Hne.
  { intros f r Hf%bf_encode_nonempty E. apply app_nil in E as [E _]. by rewrite E in Hf. }
  induction fs as [|f fs IH]; intros [|g gs] Hfs Hgs Hl E; [done | | |].
  - apply Forall_cons in Hgs as [Hg _]. by destruct (Hne g (encode_fields gs) Hg).
  - apply Forall_cons in Hfs as [Hf _]. by destruct (Hne f (encode_fields fs) Hf).
  - apply Forall_cons in Hfs as [Hf Hfs]. apply Forall_cons in Hgs as [Hg Hgs].
    change (encode_fields (f :: fs)) with (bf_encode f ++ encode_fields fs) in *.
    change (encode_fields (g :: gs)) with (bf_encode g ++ encode_fields gs) in *.
    pose proof (zlen_nonneg (encode_fields fs)). pose proof (zlen_nonneg (encode_fields gs)). pose proof (f_equal zlen E) as El.
    rewrite !zlen_app in *. pose proof (zlen_nonneg (bf_encode f)).
    apply bf_encode_prefix_free in E as [-> E]; [|done || lia..]. rewrite (IH gs); done || lia.
Qed.

(** C23. The signature covers the packet: an accepted packet is the covered bytes
    with the encoded signature field inserted between two fields, and two accepted
    packets with the same covered bytes consist of the same fields in the same
    order, apart from their signature fields. *)
Theorem extract_covers_all raw raw' u s s' :
  extractProductionSignature raw = Ok (u, s) -> extractProductionSignature raw' = Ok (u, s') ->
  (exists pre post, u = pre ++ post /\
    raw = pre ++ (encodeVarint 114 ++ encodeVarint (zlen s) ++ s) ++ post) /\
  exists fs fs', raw = encode_fields fs /\ signed_fields fs s /\ raw' = encode_fields fs' /\ signed_fields fs' s' /\
    covered_fields fs = covered_fields fs'.
Proof.
  intros (Hsize & fs & -> & Hs & Hu)%extract_sound (_ & fs' & -> & Hs' & Hu')%extract_sound. split.
  - destruct Hs as [_ Hd _ _ Hsig _]. destruct (covered_insert fs s Hd Hsig) as (pre & post & E & Ec). rewrite Ec in Hu. rewrite E.
    exists (encode_fields pre), (encode_fields post). subst u. unfold encode_fields. by rewrite !concat_map_app.
  - exists fs, fs'. repeat (split; [done|]). destruct Hs as [Hk _ _ _ _ _], Hs' as [Hk' _ _ _ _ _].
    apply encode_fields_inj; [by apply (List.incl_Forall (List.incl_filter _ _)) | by apply (List.incl_Forall (List.incl_filter _ _)) | | congruence].
    apply (Z.lt_trans _ (2 ^ 53)); [by apply covered_small | done].
Qed.

(** A minimal packet: version, trace id, one payload, signature. *)
Definition sample_packet : bytes :=
  [0x0a; 1; 116] ++ [0x20; 1] ++ [0x52; 2; 7; 8] ++ [0x72; 3; 1; 2; 3].

Example extract_sample :
  extractProductionSignature sample_packet
  = Ok ([0x0a; 1; 116; 0x20; 1; 0x52; 2; 7; 8], [1; 2; 3]).
Proof. vm_compute. reflexivity. Qed.

(** The same fields with another signature in another place. *)
Definition moved_packet : bytes := [0x0a; 1; 116] ++ [0x72; 1; 9] ++ [0x20; 1] ++ [0x52; 2; 7; 8].

Lemma extract_covers_all_witness :
  exists fs fs', sample_packet = encode_fields fs /\ moved_packet = encode_fields fs' /\ covered_fields fs = covered_fields fs'.
Proof.
  destruct (extract_covers_all sample_packet moved_packet [0x0a; 1; 116; 0x20; 1; 0x52; 2; 7; 8] [1; 2; 3] [9])
    as (_ & fs & fs' & H1 & _ & H2 & _ & H3); [vm_compute; reflexivity..|]. by exists fs, fs'.
Defined.
