(* ===== verification/WireSchema.v ===== *)
(** * Closed nested wire

    production-wire-schema.ts: the recursive walk that rejects a packet with
    an unknown field, a wrong wire type or, below the top level, a repeated
    singular field or oneof.  Schemas are the reflection objects of protobufjs
    (message types, fields, resolved types) as data.  The walk is proved to
    accept exactly the byte strings of a grammar indexed by the schema. *)

From S2P Require Import Prelude JsString JsValue Varint.

(** ** Schemas *)

(** [Type], [Field] and [field.resolvedType] of protobufjs: the parts the SDK
    reads.  The types reachable from BusPacket are not recursive, so a resolved type is
    held by the field. *)
Inductive msg_type : Type :=
| MsgType (fullName : string) (fields : list field)
with field : Type :=
| Field (id : Z) (name type : string) (repeated map : bool) (keyType : string)
        (packed : bool) (partOf : option string) (resolvedType : resolved)
with resolved : Type :=
| Unresolved
| ResolvedEnum
| ResolvedMessage (t : msg_type).

Definition mt_fullName (t : msg_type) : string := let 'MsgType n _ := t in n.
Definition mt_fields (t : msg_type) : list field := let 'MsgType _ fs := t in fs.
Definition f_id (f : field) : Z := let 'Field i _ _ _ _ _ _ _ _ := f in i.
Definition f_name (f : field) : string := let 'Field _ n _ _ _ _ _ _ _ := f in n.
Definition f_type (f : field) : string := let 'Field _ _ t _ _ _ _ _ _ := f in t.
Definition f_repeated (f : field) : bool := let 'Field _ _ _ r _ _ _ _ _ := f in r.
Definition f_map (f : field) : bool := let 'Field _ _ _ _ m _ _ _ _ := f in m.
Definition f_keyType (f : field) : string := let 'Field _ _ _ _ _ k _ _ _ := f in k.
Definition f_packed (f : field) : bool := let 'Field _ _ _ _ _ _ p _ _ := f in p.
Definition f_partOf (f : field) : option string := let 'Field _ _ _ _ _ _ _ o _ := f in o.
Definition f_resolved (f : field) : resolved := let 'Field _ _ _ _ _ _ _ _ r := f in r.

(** Induction over a type and the types of its fields. *)
Definition msg_type_nested_ind (P : msg_type -> Prop)
  (H : forall name fs, Forall (fun f => forall t, f_resolved f = ResolvedMessage t -> P t) fs ->
       P (MsgType name fs)) : forall t, P t :=
  fix F (t : msg_type) : P t :=
    match t with
    | MsgType name fs =>
        H name fs ((fix G (l : list field) : Forall (fun f => forall t, f_resolved f = ResolvedMessage t -> P t) l :=
          match l with
          | [] => Forall_nil_2 _
          | f :: l' => Forall_cons_2 _ _ _
              (match f as f0 return forall t, f_resolved f0 = ResolvedMessage t -> P t with
               | Field _ _ _ _ _ _ _ _ r =>
                   match r as r0 return forall t, r0 = ResolvedMessage t -> P t with
                   | ResolvedMessage t' => fun t E =>
                       eq_ind t' P (F t') t (f_equal (fun x => match x with ResolvedMessage u => u | _ => t' end) E)
                   | Unresolved => fun t E => match E in _ = x return match x with ResolvedMessage u => P u | _ => True end with
                                      | eq_refl => I end
                   | ResolvedEnum => fun t E => match E in _ = x return match x with ResolvedMessage u => P u | _ => True end with
                                      | eq_refl => I end
                   end
               end) (G l')
          end) fs)
    end.

(** [messageType.fieldsById[n]] *)
Definition fieldsById (t : msg_type) (n : Z) : option field :=
  List.find (fun f => f_id f =? n) (mt_fields t).

(** ** production-wire-schema.ts *)

Definition wire_fail {A} : result A := throw PlainError (js "invalid nested protobuf wire").

Definition SCALAR_WIRE_TYPES : list (string * Z) :=
  [("bool", 0); ("enum", 0); ("int32", 0); ("int64", 0); ("sint32", 0); ("sint64", 0);
   ("uint32", 0); ("uint64", 0); ("double", 1); ("fixed64", 1); ("sfixed64", 1);
   ("bytes", 2); ("string", 2); ("fixed32", 5); ("float", 5); ("sfixed32", 5)]%string.

Definition scalarWireType (type : string) : result Z :=
  match List.find (fun p => String.eqb p.1 type) SCALAR_WIRE_TYPES with
  | Some p => Ok p.2
  | None => throw PlainError (js "unknown nested protobuf schema")
  end.

Definition resolvedMessageType (f : field) : option msg_type :=
  match f_resolved f with ResolvedMessage t => Some t | _ => None end.

Definition is_resolved (f : field) : bool :=
  match f_resolved f with Unresolved => false | _ => true end.

Definition allowedWireTypes (f : field) : result (list Z) :=
  if f_map f || match resolvedMessageType f with Some _ => true | None => false end
  then Ok [2]
  else
    let! base := (if is_resolved f then Ok 0 else scalarWireType (f_type f)) in
    if f_repeated f && f_packed f && zmem base [0; 1; 5] then Ok [base; 2] else Ok [base].

Definition mapValueWireType (f : field) : result Z :=
  match resolvedMessageType f with
  | Some _ => Ok 2
  | None => if is_resolved f then Ok 0 else scalarWireType (f_type f)
  end.

Definition readVarint : bytes -> Z -> result (Z * Z) :=
  readVarint_with {| ve_class := PlainError;
                     ve_truncated := js "invalid nested protobuf wire";
                     ve_nonminimal := js "invalid nested protobuf wire";
                     ve_oversize := js "invalid nested protobuf wire" |}.

(** The end of the value, and its payload when it is length-delimited. *)
Definition boundedValue (raw : bytes) (end_ : Z) : result (Z * option bytes) :=
  if zlen raw <? end_ then wire_fail else Ok (end_, None).

Definition readWireValue (raw : bytes) (offset wireType : Z) : result (Z * option bytes) :=
  if wireType =? 0 then let! r := readVarint raw offset in Ok (r.2, None)
  else if wireType =? 1 then boundedValue raw (offset + 8)
  else if wireType =? 5 then boundedValue raw (offset + 4)
  else if negb (wireType =? 2) then wire_fail
  else
    let! length := readVarint raw offset in
    if MAX_SAFE_INTEGER <? length.1 then wire_fail
    else
      let end_ := to_double (length.2 + to_double length.1) in
      if zlen raw <? end_ then wire_fail
      else Ok (end_, Some (slice raw length.2 end_)).

(** [field.partOf?.name], when it is truthy. *)
Definition oneof_name (f : field) : option string :=
  match f_partOf f with
  | Some s => if String.eqb s "" then None else Some s
  | None => None
  end.

Definition smem (s : string) (l : list string) : bool := existsb (String.eqb s) l.

(** The sets [seen] and [seenOneofs] after the field. *)
Definition validateOccurrence (f : field) (fieldNumber wireType : Z) (seen : list Z)
    (seenOneofs : list string) (nested : bool) : result (list Z * list string) :=
  let! allowed := allowedWireTypes f in
  do! throw_if (negb (zmem wireType allowed)) PlainError (js "invalid nested protobuf wire") ;;
  do! throw_if (nested && negb (f_repeated f) && negb (f_map f) && zmem fieldNumber seen)
        PlainError (js "duplicate nested protobuf field") ;;
  let seen := fieldNumber :: seen in
  match oneof_name f with
  | Some oneof =>
      do! throw_if (nested && smem oneof seenOneofs) PlainError
            (js "multiple nested protobuf oneof fields") ;;
      Ok (seen, oneof :: seenOneofs)
  | None => Ok (seen, seenOneofs)
  end.

(** [validateNestedValue], over the two walks it calls. *)
Definition validateNestedValue (walkMessage : bytes -> msg_type -> result unit)
    (walkMapEntry : bytes -> field -> result unit) (f : field) (payload : option bytes)
    : result unit :=
  match payload with
  | None => Ok tt
  | Some p =>
      if f_map f then walkMapEntry p f
      else match resolvedMessageType f with
           | Some t => walkMessage p t
           | None => Ok tt
           end
  end.

(** The loops of [walkMessage] and [walkMapEntry] from a given offset.  Every
    iteration consumes a byte of its buffer, and a nested buffer is shorter
    than what is left of the one around it: one unit of fuel per byte is
    enough for both. *)
Fixpoint walkMessage_loop (fuel : nat) (raw : bytes) (messageType : msg_type) (nested : bool)
    (offset : Z) (seen : list Z) (seenOneofs : list string) : result unit :=
  if offset <? zlen raw then
    match fuel with
    | O => NoFuel
    | S fuel' =>
        let! tag := readVarint raw offset in
        let fieldNumber := to_double (Z.shiftr tag.1 3) in
        let wireType := to_double (Z.land tag.1 7) in
        match fieldsById messageType fieldNumber with
        | None => throw PlainError (js "unknown nested protobuf field")
        | Some f =>
            let! sets := validateOccurrence f fieldNumber wireType seen seenOneofs nested in
            let! value := readWireValue raw tag.2 wireType in
            do! validateNestedValue
                  (fun p t => walkMessage_loop fuel' p t true 0 [] [])
                  (fun p f => walkMapEntry_loop fuel' p f 0 []) f value.2 ;;
            walkMessage_loop fuel' raw messageType nested value.1 sets.1 sets.2
        end
    end
  else Ok tt
with walkMapEntry_loop (fuel : nat) (raw : bytes) (f : field) (offset : Z) (seen : list Z)
    : result unit :=
  if offset <? zlen raw then
    match fuel with
    | O => NoFuel
    | S fuel' =>
        let! tag := readVarint raw offset in
        let number := to_double (Z.shiftr tag.1 3) in
        let wireType := to_double (Z.land tag.1 7) in
        do! throw_if ((negb (number =? 1) && negb (number =? 2)) || zmem number seen)
              PlainError (js "unknown nested protobuf field") ;;
        let! expected := (if number =? 1 then scalarWireType (f_keyType f) else mapValueWireType f) in
        do! throw_if (negb (wireType =? expected)) PlainError (js "invalid nested protobuf wire") ;;
        let! value := readWireValue raw tag.2 wireType in
        do! (match value.2, resolvedMessageType f with
             | Some p, Some t => if number =? 2 then walkMessage_loop fuel' p t true 0 [] [] else Ok tt
             | _, _ => Ok tt
             end) ;;
        walkMapEntry_loop fuel' raw f value.1 (number :: seen)
    end
  else Ok tt.

Definition walkMessage (raw : bytes) (messageType : msg_type) (nested : bool) : result unit :=
  walkMessage_loop (length raw) raw messageType nested 0 [] [].

Definition walkMapEntry (raw : bytes) (f : field) : result unit :=
  walkMapEntry_loop (length raw) raw f 0 [].

Definition assertClosedNestedWire (raw : bytes) (messageType : msg_type) : result unit :=
  walkMessage raw messageType false.

(** ** The grammar of closed messages *)

Inductive wire_value : Set :=
| VVarint (v : Z)
| VFixed64 (b : bytes)
| VBytes (p : bytes)
| VFixed32 (b : bytes).

Definition wv_type (v : wire_value) : Z :=
  match v with VVarint _ => 0 | VFixed64 _ => 1 | VBytes _ => 2 | VFixed32 _ => 5 end.

Definition wv_encode (v : wire_value) : bytes :=
  match v with
  | VVarint v => encodeVarint v
  | VFixed64 b => b
  | VBytes p => encodeVarint (zlen p) ++ p
  | VFixed32 b => b
  end.

Definition wv_ok (v : wire_value) : Prop :=
  match v with
  | VVarint v => 0 <= v < 2 ^ 70
  | VFixed64 b => zlen b = 8
  | VBytes p => True
  | VFixed32 b => zlen b = 4
  end.

Definition wv_payload (v : wire_value) : option bytes :=
  match v with VBytes p => Some p | _ => None end.

(** A field on the wire: number and value. *)
Abbreviation wfield := (Z * wire_value)%type.

Definition wf_encode (f : wfield) : bytes := encodeVarint (f.1 * 8 + wv_type f.2) ++ wv_encode f.2.

Definition encode_wfields (fs : list wfield) : bytes := concat (map wf_encode fs).

(** The field may carry a value of this wire type. *)
Definition wire_allowed (f : field) (w : Z) : Prop :=
  exists l, allowedWireTypes f = Ok l /\ In w l.

Definition singular (t : msg_type) (f : wfield) : bool :=
  match fieldsById t f.1 with
  | Some d => negb (f_repeated d) && negb (f_map d)
  | None => false
  end.

Definition oneof_of (t : msg_type) (f : wfield) : option string :=
  fieldsById t f.1 ≫= oneof_name.

(** No singular field twice, no two members of one oneof. *)
Definition once (t : msg_type) (fs : list wfield) : Prop :=
  NoDup (map fst (List.filter (singular t) fs)) /\ NoDup (omap (oneof_of t) fs).

(** [closed t nested raw]: [raw] is a sequence of fields of [t], each of an
    allowed wire type, with closed nested messages; below the top level no
    singular field and no oneof occurs twice. *)
Inductive closed : msg_type -> bool -> bytes -> Prop :=
| closed_intro t nested fs :
    Forall (closed_field t) fs -> (nested = true -> once t fs) ->
    closed t nested (encode_wfields fs)
with closed_field : msg_type -> wfield -> Prop :=
| closed_field_intro t d n v :
    fieldsById t n = Some d -> wire_allowed d (wv_type v) -> wv_ok v ->
    closed_value d v -> closed_field t (n, v)
with closed_value : field -> wire_value -> Prop :=
| closed_scalar d v :
    wv_payload v = None -> closed_value d v
| closed_opaque d p :
    f_map d = false -> resolvedMessageType d = None -> closed_value d (VBytes p)
| closed_nested d t p :
    f_map d = false -> resolvedMessageType d = Some t -> closed t true p ->
    closed_value d (VBytes p)
| closed_map d p :
    f_map d = true -> closed_entry d p -> closed_value d (VBytes p)
with closed_entry : field -> bytes -> Prop :=
| closed_entry_intro d es :
    Forall (closed_entry_field d) es -> NoDup (map fst es) ->
    closed_entry d (encode_wfields es)
with closed_entry_field : field -> wfield -> Prop :=
| closed_key d v :
    scalarWireType (f_keyType d) = Ok (wv_type v) -> wv_ok v -> closed_entry_field d (1, v)
| closed_entry_value d v :
    mapValueWireType d = Ok (wv_type v) -> wv_ok v ->
    (forall p t, v = VBytes p -> resolvedMessageType d = Some t -> closed t true p) ->
    closed_entry_field d (2, v).

(** Protobuf field numbers are below [2^29]. *)
Inductive wf_type : msg_type -> Prop :=
| wf_type_intro name fs :
    Forall (fun f => 0 < f_id f < 2 ^ 29) fs ->
    Forall (fun f => forall t, resolvedMessageType f = Some t -> wf_type t) fs ->
    wf_type (MsgType name fs).

(** ** Reading one value *)

#[local] Arguments encodeVarint : simpl never.

Section Values.
Implicit Types raw pre post : bytes.

Lemma readVarint_schema_complete pre v post :
  0 <= v < 2 ^ 70 ->
  readVarint (pre ++ encodeVarint v ++ post) (zlen pre) = Ok (v, zlen pre + zlen (encodeVarint v)).
Proof. apply readVarint_complete. Qed.

Lemma readWireValue_sound raw off w vend pl :
  0 <= off -> zlen raw < 2 ^ 53 -> readWireValue raw off w = Ok (vend, pl) ->
  exists v, wv_ok v /\ wv_type v = w /\ pl = wv_payload v /\
    slice raw off vend = wv_encode v /\ off < vend <= zlen raw.
Proof.
  intros Hoff Hsize. unfold readWireValue, boundedValue, wire_fail.
  destruct (Z.eqb_spec w 0) as [->|_].
  { intros ([v e] & (? & ? & ? & ?)%readVarint_sound & [= <- <-])%bind_Ok_iff.
    exists (VVarint v). cbn. repeat split; try lia; done. }
  destruct (Z.eqb_spec w 1) as [->|_].
  { destruct (Z.ltb_spec (zlen raw) (off + 8)); [done|]. intros [= <- <-].
    exists (VFixed64 (slice raw off (off + 8))). cbn. rewrite slice_zlen by lia.
    repeat split; lia. }
  destruct (Z.eqb_spec w 5) as [->|_].
  { destruct (Z.ltb_spec (zlen raw) (off + 4)); [done|]. intros [= <- <-].
    exists (VFixed32 (slice raw off (off + 4))). cbn. rewrite slice_zlen by lia.
    repeat split; lia. }
  destruct (Z.eqb_spec w 2) as [->|_]; cbn [negb]; [|done].
  intros ([len lend] & Hr & Hv)%bind_Ok_iff. cbn [fst snd] in Hv. cbn zeta in Hv.
  apply readVarint_sound in Hr as (He & Ho & Hl & Hlen). unfold MAX_SAFE_INTEGER in Hv.
  destruct (Z.ltb_spec (2 ^ 53 - 1) len); [done|].
  rewrite (to_double_exact len) in Hv by lia.
  destruct (Z.ltb_spec (zlen raw) (to_double (lend + len))); [done|].
  assert (lend + len <= 2 ^ 53) as Hx.
  { destruct (Z.le_gt_cases (lend + len) (2 ^ 53)); [done|].
    pose proof (to_double_large (lend + len)). lia. }
  rewrite to_double_exact in * by lia. injection Hv as <- <-.
  exists (VBytes (slice raw lend (lend + len))). cbn. rewrite slice_zlen by lia.
  repeat split; try lia. replace (lend + len - lend) with len by lia.
  rewrite He, slice_app_slice by lia. done.
Qed.

Lemma readWireValue_complete pre v post :
  wv_ok v -> zlen (pre ++ wv_encode v ++ post) < 2 ^ 53 ->
  readWireValue (pre ++ wv_encode v ++ post) (zlen pre) (wv_type v)
  = Ok (zlen pre + zlen (wv_encode v), wv_payload v).
Proof.
  intros Hok Hsize. pose proof (zlen_nonneg pre). pose proof (zlen_nonneg post).
  unfold readWireValue, boundedValue.
  destruct v as [v|b|p|b]; cbn [wv_type wv_encode wv_payload wv_ok Z.eqb Pos.eqb negb] in *.
  - rewrite readVarint_schema_complete by done. done.
  - autorewrite with zlen in *. rewrite Hok.
    destruct (Z.ltb_spec (zlen pre + (8 + zlen post)) (zlen pre + 8)); [lia|done].
  - pose proof (zlen_nonneg p). pose proof (zlen_nonneg (encodeVarint (zlen p))).
    rewrite <- app_assoc, readVarint_schema_complete by (autorewrite with zlen in *; lia).
    cbn [mbind result_bind fst snd]. cbn zeta. unfold MAX_SAFE_INTEGER.
    rewrite app_assoc in Hsize |- *.
    set (l := zlen pre + zlen (encodeVarint (zlen p))).
    assert (l = zlen (pre ++ encodeVarint (zlen p))) as Hl by (subst l; autorewrite with zlen; lia).
    autorewrite with zlen in Hsize.
    destruct (Z.ltb_spec (2 ^ 53 - 1) (zlen p)); [lia|].
    rewrite (to_double_exact (zlen p)), to_double_exact by lia.
    rewrite Hl, slice_app_mid. autorewrite with zlen.
    destruct (Z.ltb_spec (zlen pre + zlen (encodeVarint (zlen p)) + (zlen p + zlen post))
      (zlen pre + zlen (encodeVarint (zlen p)) + zlen p)); [lia|].
    do 2 f_equal. lia.
  - autorewrite with zlen in *. rewrite Hok.
    destruct (Z.ltb_spec (zlen pre + (4 + zlen post)) (zlen pre + 4)); [lia|done].
Qed.

(** ** Reading one tagged field *)

Lemma read_field_sound raw off t toff n w vend pl :
  0 <= off -> zlen raw < 2 ^ 53 -> readVarint raw off = Ok (t, toff) ->
  n = to_double (Z.shiftr t 3) -> w = to_double (Z.land t 7) -> Z.abs n < 2 ^ 53 ->
  readWireValue raw toff w = Ok (vend, pl) ->
  exists v, wv_ok v /\ wv_type v = w /\ pl = wv_payload v /\
    slice raw off vend = wf_encode (n, v) /\ off + zlen (wv_encode v) < vend <= zlen raw.
Proof.
  intros Hoff Hsize (Htag & Hto & Htl & Ht)%readVarint_sound Hn Hw Habs Hval.
  destruct (tag_split t n w ltac:(lia) Hn Hw Habs) as [Hsplit _].
  apply readWireValue_sound in Hval as (v & Hok & Hty & Hpl & Hsl & Hve); [|lia|done].
  exists v. unfold wf_encode. cbn [fst snd]. rewrite Hty, <- Hsl, <- Hsplit, Htag, slice_app_slice by lia.
  rewrite slice_zlen by lia. repeat split; try done; lia.
Qed.

Lemma readWireValue_not_NoFuel raw off w : readWireValue raw off w <> NoFuel.
Proof. unfold readWireValue, boundedValue, wire_fail, readVarint. no_fuel. Qed.

Lemma wire_value_nonempty v : wv_ok v -> 1 <= zlen (wv_encode v).
Proof.
  destruct v as [v|b|p|b]; cbn; intros; try lia.
  - apply encodeVarint_nonempty; lia.
  - autorewrite with zlen. pose proof (zlen_nonneg p).
    pose proof (encodeVarint_nonempty (zlen p) ltac:(lia)). lia.
Qed.

Lemma payload_shorter v p : wv_payload v = Some p -> zlen p < zlen (wv_encode v).
Proof.
  destruct v; cbn; intros [= <-]. autorewrite with zlen. pose proof (zlen_nonneg p0).
  pose proof (encodeVarint_nonempty (zlen p0) ltac:(lia)). lia.
Qed.
End Values.

Lemma fieldsById_bound t n d : wf_type t -> fieldsById t n = Some d -> 0 < n < 2 ^ 29.
Proof.
  intros [name fs Hid _] [Hin Heq%Z.eqb_eq]%find_some. cbn in Hin.
  rewrite Forall_forall in Hid. rewrite <- Heq. apply Hid. by apply list_elem_of_In.
Qed.

Lemma fieldsById_wf t n d t' :
  wf_type t -> fieldsById t n = Some d -> resolvedMessageType d = Some t' -> wf_type t'.
Proof.
  intros [name fs _ Hwf] [Hin _]%find_some. cbn in Hin.
  rewrite Forall_forall in Hwf. apply Hwf. by apply list_elem_of_In.
Qed.

(** ** Occurrence bookkeeping *)

(** [once] for the fields still to come, given what was seen. *)
Definition once_from (t : msg_type) (seen : list Z) (os : list string) (fs : list wfield) : Prop :=
  NoDup (map fst (List.filter (singular t) fs)) /\
  (forall f, In f fs -> singular t f = true -> ~ In f.1 seen) /\
  NoDup (omap (oneof_of t) fs) /\
  (forall o, In o (omap (oneof_of t) fs) -> ~ In o os).

Definition add_oneof (t : msg_type) (f : wfield) (os : list string) : list string :=
  match oneof_of t f with Some o => o :: os | None => os end.

Lemma smem_In s l : smem s l = true <-> In s l.
Proof.
  unfold smem. rewrite existsb_exists. split.
  - intros (x & ? & ->%String.eqb_eq). done.
  - intros. exists s. by rewrite String.eqb_refl.
Qed.

Lemma singular_same_number t (f g : wfield) : f.1 = g.1 -> singular t f = singular t g.
Proof. unfold singular. by intros ->. Qed.

Lemma once_from_cons t seen os f fs :
  once_from t seen os (f :: fs) <->
  (singular t f = true -> ~ In f.1 seen) /\
  (forall o, oneof_of t f = Some o -> ~ In o os) /\
  once_from t (f.1 :: seen) (add_oneof t f os) fs.
Proof.
  unfold once_from, add_oneof. cbn [List.filter]. 
  change (omap (oneof_of t) (f :: fs)) with
    (match oneof_of t f with Some o => o :: omap (oneof_of t) fs | None => omap (oneof_of t) fs end).
  assert (forall g, In g fs -> singular t g = true -> g.1 = f.1 ->
    In f.1 (map fst (List.filter (singular t) fs))) as Hsame.
  { intros g Hg Sg E. rewrite <- E. apply in_map, filter_In. done. }
  assert (singular t f = false -> forall g, In g fs -> singular t g = true -> f.1 <> g.1) as Hns.
  { intros Sf g _ Sg E. by rewrite (singular_same_number t f g E), Sg in Sf. }
  assert (In f.1 (map fst (List.filter (singular t) fs)) -> exists g, In g fs /\ singular t g = true /\ g.1 = f.1) as Hback.
  { intros (g & E & [Hg Sg]%filter_In)%in_map_iff. eauto. }
  split.
  - intros (Hd & Hs & Ho & Hos). split; [intros; apply Hs; [by left | done]|].
    destruct (singular t f) eqn:Sf; cbn [map] in Hd;
      [apply NoDup_cons in Hd as [Hni Hd]; rewrite list_elem_of_In in Hni|];
      (destruct (oneof_of t f) as [o|];
        [apply NoDup_cons in Ho as [Hoi Ho]; rewrite list_elem_of_In in Hoi|]);
      repeat split; try done;
      try (intros o' [= <-]; apply Hos; by left);
      try (intros g Hg Sg [E|Hin]; [naive_solver | by apply (Hs g); [right|..]]);
      try (intros o' Hin [->|Hin']; [done | by apply (Hos o'); [right|]]);
      try (intros o' Hin; by apply Hos).
  - intros (Hs1 & Ho1 & Hd & Hs & Ho & Hos). repeat split.
    + destruct (singular t f) eqn:Sf; [|done]. cbn [map]. apply NoDup_cons. split; [|done].
      rewrite list_elem_of_In. intros (g & Hg & Sg & E)%Hback. apply (Hs g Hg Sg). left. done.
    + intros g [<-|Hg] Sg; [by apply Hs1|]. intros Hin. apply (Hs g Hg Sg). by right.
    + destruct (oneof_of t f) as [o|]; [|done]. apply NoDup_cons. split; [|done].
      rewrite list_elem_of_In. intros Hin. apply (Hos o Hin). by left.
    + intros o'. destruct (oneof_of t f) as [o|]; [|by apply Hos].
      intros [<-|Hin]; [by apply Ho1|]. intros ?. apply (Hos o' Hin). by right.
Qed.

Lemma once_from_init t fs : once_from t [] [] fs <-> once t fs.
Proof. unfold once_from, once. naive_solver. Qed.

Lemma validateOccurrence_ok_iff t d n w v seen os nested seen' os' :
  fieldsById t n = Some d -> wv_type v = w ->
  validateOccurrence d n w seen os nested = Ok (seen', os') <->
  wire_allowed d w /\ seen' = n :: seen /\ os' = add_oneof t (n, v) os /\
  (nested = true -> (singular t (n, v) = true -> ~ In n seen) /\
                    (forall o, oneof_of t (n, v) = Some o -> ~ In o os)).
Proof.
  intros Hd Hv. unfold validateOccurrence, wire_allowed, add_oneof, singular, oneof_of.
  cbn [fst]. rewrite Hd. cbn [mbind option_bind]. rewrite <- zmem_not_In.
  destruct (allowedWireTypes d) as [l| |]; cbn [mbind result_bind]; [|naive_solver..].
  assert ((exists l0, Ok l = Ok l0 /\ In w l0) <-> zmem w l = true) as ->
    by (rewrite zmem_In; naive_solver).
  generalize (zmem w l) as a. generalize (zmem n seen) as s. intros s a.
  destruct a; cbn; [|naive_solver].
  destruct (oneof_name d) as [o|].
  - assert ((forall o0, Some o = Some o0 -> ~ In o0 os) <-> smem o os = false) as Ho.
    { rewrite <- not_true_iff_false, smem_In. naive_solver. }
    setoid_rewrite Ho. generalize (smem o os) as b. intros b.
    destruct nested, (f_repeated d), (f_map d), s, b; cbn; naive_solver.
  - destruct nested, (f_repeated d), (f_map d), s; cbn; naive_solver.
Qed.

(** ** The walk accepts closed messages only *)

(** What is left of a message, and of a map entry, from an offset on. *)
Definition rest_closed (t : msg_type) (nested : bool) (seen : list Z) (os : list string)
    (rest : bytes) : Prop :=
  exists fs, rest = encode_wfields fs /\ Forall (closed_field t) fs /\
    (nested = true -> once_from t seen os fs).

Definition rest_entry (d : field) (seen : list Z) (rest : bytes) : Prop :=
  exists es, rest = encode_wfields es /\ Forall (closed_entry_field d) es /\
    NoDup (map fst es) /\ (forall f, In f es -> ~ In f.1 seen).

Lemma rest_closed_init t nested raw : rest_closed t nested [] [] raw <-> closed t nested raw.
Proof.
  split.
  - intros (fs & -> & Hfs & Ho). constructor; [done|]. intros. by apply once_from_init, Ho.
  - destruct 1 as [t nested fs Hfs Ho]. exists fs. split; [done|]. split; [done|].
    intros. by apply once_from_init, Ho.
Qed.

Lemma rest_entry_init d raw : rest_entry d [] raw <-> closed_entry d raw.
Proof.
  split.
  - intros (es & -> & Hes & Hd & _). by constructor.
  - destruct 1 as [d es Hes Hd]. exists es. repeat split; auto.
Qed.

Lemma rest_closed_nil t nested seen os : rest_closed t nested seen os [].
Proof. exists []. split; [done|]. split; [constructor|]. intros _. repeat split; try constructor; done. Qed.

Lemma rest_entry_nil d seen : rest_entry d seen [].
Proof. exists []. repeat split; try constructor; done. Qed.

Lemma rest_closed_cons t nested seen os f rest :
  closed_field t f ->
  (nested = true -> (singular t f = true -> ~ In f.1 seen) /\
                    (forall o, oneof_of t f = Some o -> ~ In o os)) ->
  rest_closed t nested (f.1 :: seen) (add_oneof t f os) rest ->
  rest_closed t nested seen os (wf_encode f ++ rest).
Proof.
  intros Hf Hocc (fs & -> & Hfs & Ho). exists (f :: fs). split; [done|].
  split; [by constructor|]. intros Hn. apply once_from_cons. split; [by apply Hocc|].
  split; [by apply Hocc | by apply Ho].
Qed.

Lemma rest_entry_cons d seen f rest :
  closed_entry_field d f -> ~ In f.1 seen -> rest_entry d (f.1 :: seen) rest ->
  rest_entry d seen (wf_encode f ++ rest).
Proof.
  intros Hf Hs (es & -> & Hes & Hd & Hn). exists (f :: es). split; [done|].
  split; [by constructor|]. split.
  - cbn [map]. apply NoDup_cons. split; [|done]. rewrite list_elem_of_In.
    intros (g & E & Hg)%in_map_iff. apply (Hn g Hg). left. done.
  - intros g [<-|Hg]; [done|]. intros ?. apply (Hn g Hg). by right.
Qed.

Lemma tail_split {A} (raw : list A) off e x :
  0 <= off <= e -> e <= zlen raw -> slice raw off e = x ->
  slice raw off (zlen raw) = x ++ slice raw e (zlen raw).
Proof. intros ? ? <-. symmetry. apply slice_app_slice; lia. Qed.

(** Nested values, given that the nested walks are right. *)
Lemma validateNestedValue_sound wm we d v :
  (forall p t, wm p t = Ok tt -> resolvedMessageType d = Some t -> wv_payload v = Some p ->
     closed t true p) ->
  (forall p, we p d = Ok tt -> wv_payload v = Some p -> closed_entry d p) ->
  validateNestedValue wm we d (wv_payload v) = Ok tt -> closed_value d v.
Proof.
  intros Hm He. unfold validateNestedValue.
  destruct v as [| |p|]; cbn [wv_payload] in *; intros H; try by apply closed_scalar.
  destruct (f_map d) eqn:Em; [apply closed_map; auto|].
  destruct (resolvedMessageType d) eqn:Er; [eapply closed_nested | apply closed_opaque]; eauto.
Qed.

Definition message_sound (fuel : nat) : Prop :=
  forall raw t nested off seen os,
    wf_type t -> zlen raw < 2 ^ 53 -> 0 <= off <= zlen raw ->
    walkMessage_loop fuel raw t nested off seen os = Ok tt ->
    rest_closed t nested seen os (slice raw off (zlen raw)).

Definition entry_sound (fuel : nat) : Prop :=
  forall raw d off seen,
    (forall t, resolvedMessageType d = Some t -> wf_type t) ->
    zlen raw < 2 ^ 53 -> 0 <= off <= zlen raw ->
    walkMapEntry_loop fuel raw d off seen = Ok tt ->
    rest_entry d seen (slice raw off (zlen raw)).

Section WalkStepSound.
Context (fuel : nat) (IHm : message_sound fuel) (IHe : entry_sound fuel).

Lemma message_payload_sound p t :
  wf_type t -> zlen p < 2 ^ 53 -> walkMessage_loop fuel p t true 0 [] [] = Ok tt -> closed t true p.
Proof using IHm.
  intros. apply rest_closed_init. rewrite <- (slice_full p). pose proof (zlen_nonneg p).
  apply IHm; (done || lia).
Qed.

Lemma walkMessage_step_sound : message_sound (S fuel).
Proof using IHm IHe.
  intros raw t nested off seen os Hwf Hsize Hoff. cbn [walkMessage_loop].
  destruct (Z.ltb_spec off (zlen raw)) as [Hlt|Hge];
    [|intros _; replace off with (zlen raw) by lia; rewrite slice_empty; apply rest_closed_nil].
  intros ([tag toff] & Htag & H)%bind_Ok_iff. cbn [fst snd] in H. cbn zeta in H.
  set (n := to_double (Z.shiftr tag 3)) in *. set (w := to_double (Z.land tag 7)) in *.
  destruct (fieldsById t n) as [d|] eqn:Hd; [|done].
  pose proof (fieldsById_bound _ _ _ Hwf Hd).
  apply bind_Ok_iff in H as ([seen' os'] & Hocc & H).
  apply bind_Ok_iff in H as ([vend pl] & Hval & H). cbn [fst snd] in H.
  apply bind_Ok_iff in H as ([] & Hnest & Hrest).
  destruct (read_field_sound raw off tag toff n w vend pl) as (v & Hok & Hty & -> & Hsl & Hve);
    try done; try lia.
  pose proof (wire_value_nonempty v Hok).
  apply (validateOccurrence_ok_iff t d n w v) in Hocc as (Hal & -> & -> & Hocc); try done.
  rewrite (tail_split raw off vend (wf_encode (n, v))) by (done || lia).
  apply rest_closed_cons; [|done|apply IHm; (done || lia)].
  rewrite <- Hty in Hal. eapply closed_field_intro; try done.
  revert Hnest. apply validateNestedValue_sound.
  - intros p t' Hp Ht' Hpl%payload_shorter.
    pose proof (fieldsById_wf _ _ _ _ Hwf Hd Ht'). apply message_payload_sound; (done || lia).
  - intros p Hp Hpl%payload_shorter. pose proof (zlen_nonneg p).
    apply rest_entry_init. rewrite <- (slice_full p). apply (IHe p d 0 []); try (done || lia).
    intros t' Ht'. by apply (fieldsById_wf t n d).
Qed.

Lemma walkMapEntry_step_sound : entry_sound (S fuel).
Proof using IHm IHe.
  intros raw d off seen Hwf Hsize Hoff. cbn [walkMapEntry_loop].
  destruct (Z.ltb_spec off (zlen raw)) as [Hlt|Hge];
    [|intros _; replace off with (zlen raw) by lia; rewrite slice_empty; apply rest_entry_nil].
  intros ([tag toff] & Htag & H)%bind_Ok_iff. cbn [fst snd] in H. cbn zeta in H.
  set (n := to_double (Z.shiftr tag 3)) in *. set (w := to_double (Z.land tag 7)) in *.
  apply bind_Ok_iff in H as ([] & [Hn Hseen%zmem_not_In]%throw_if_Ok_iff%orb_false_iff & H).
  apply andb_false_iff in Hn.
  apply bind_Ok_iff in H as (expected & Hexp & H).
  apply bind_Ok_iff in H as ([] & Hw%throw_if_Ok_iff%negb_false_iff%Z.eqb_eq & H).
  apply bind_Ok_iff in H as ([vend pl] & Hval & H). cbn [fst snd] in H.
  apply bind_Ok_iff in H as ([] & Hnest & Hrest).
  assert (Z.abs n < 2 ^ 53) by (destruct Hn as [Hn|Hn]; apply negb_false_iff, Z.eqb_eq in Hn; lia).
  destruct (read_field_sound raw off tag toff n w vend pl) as (v & Hok & Hty & -> & Hsl & Hve);
    try done; try lia.
  pose proof (wire_value_nonempty v Hok).
  rewrite (tail_split raw off vend (wf_encode (n, v))) by (done || lia).
  apply rest_entry_cons; [|done|apply IHe; (done || lia)].
  clearbody n w. destruct (Z.eqb_spec n 1) as [->|Hn1]; [apply closed_key; [congruence | done]|].
  destruct Hn as [Hn|Hn]; [done|]. apply negb_false_iff, Z.eqb_eq in Hn as ->.
  apply closed_entry_value; [congruence | done|].
  intros p t -> Ht. cbn [wv_payload] in Hnest. rewrite Ht in Hnest. cbn in Hnest.
  pose proof (payload_shorter (VBytes p) p eq_refl).
  apply message_payload_sound; try (done || lia). by apply Hwf.
Qed.
End WalkStepSound.

Lemma walk_loop_sound fuel : message_sound fuel /\ entry_sound fuel.
Proof.
  induction fuel as [|fuel [IHm IHe]];
    [|split; [by apply walkMessage_step_sound | by apply walkMapEntry_step_sound]].
  split; [intros raw t nested off seen os Hwf Hsize Hoff | intros raw d off seen Hwf Hsize Hoff];
    cbn [walkMessage_loop walkMapEntry_loop]; destruct (Z.ltb_spec off (zlen raw)); try done;
    intros _; replace off with (zlen raw) by lia; rewrite slice_empty;
    [apply rest_closed_nil | apply rest_entry_nil].
Qed.

(** ** The walk accepts every closed message *)

Definition message_complete (fuel : nat) : Prop :=
  forall pre rest t nested seen os,
    wf_type t -> zlen (pre ++ rest) < 2 ^ 53 -> zlen rest <= Z.of_nat fuel ->
    rest_closed t nested seen os rest ->
    walkMessage_loop fuel (pre ++ rest) t nested (zlen pre) seen os = Ok tt.

Definition entry_complete (fuel : nat) : Prop :=
  forall pre rest d seen,
    (forall t, resolvedMessageType d = Some t -> wf_type t) ->
    zlen (pre ++ rest) < 2 ^ 53 -> zlen rest <= Z.of_nat fuel ->
    rest_entry d seen rest ->
    walkMapEntry_loop fuel (pre ++ rest) d (zlen pre) seen = Ok tt.

Lemma wf_encode_length f : 0 <= f.1 -> wv_ok f.2 -> 2 <= zlen (wf_encode f).
Proof.
  intros Hn Hv. unfold wf_encode. autorewrite with zlen. pose proof (wire_value_nonempty _ Hv).
  pose proof (encodeVarint_nonempty (f.1 * 8 + wv_type f.2)). destruct f.2; cbn in *; lia.
Qed.

(** ** The wire encoding is a code *)

Definition wfield_bounded (f : wfield) : Prop :=
  0 < f.1 < 2 ^ 29 /\ wv_ok f.2 /\ (forall p, f.2 = VBytes p -> zlen p < 2 ^ 53).

Lemma wv_encode_prefix_free v1 v2 r1 r2 :
  wv_type v1 = wv_type v2 -> wv_ok v1 -> wv_ok v2 ->
  (forall p, v1 = VBytes p -> zlen p < 2 ^ 53) -> (forall p, v2 = VBytes p -> zlen p < 2 ^ 53) ->
  wv_encode v1 ++ r1 = wv_encode v2 ++ r2 -> v1 = v2 /\ r1 = r2.
Proof.
  intros Ht H1 H2 B1 B2 H. destruct v1 as [x|x|x|x], v2 as [y|y|y|y]; cbn [wv_type] in Ht; try lia;
    cbn [wv_encode wv_ok] in *.
  - apply encodeVarint_prefix_free in H as [-> ->]; done || lia.
  - apply app_inj_1 in H as [-> ->]; [done|]. unfold zlen in *. lia.
  - rewrite <- !app_assoc in H. specialize (B1 x eq_refl). specialize (B2 y eq_refl).
    pose proof (zlen_nonneg x). pose proof (zlen_nonneg y).
    apply encodeVarint_prefix_free in H as [Hl H]; [|lia..].
    apply app_inj_1 in H as [-> ->]; [done|]. unfold zlen in Hl. lia.
  - apply app_inj_1 in H as [-> ->]; [done|]. unfold zlen in *. lia.
Qed.

Lemma wf_encode_prefix_free f g r1 r2 :
  wfield_bounded f -> wfield_bounded g -> wf_encode f ++ r1 = wf_encode g ++ r2 -> f = g /\ r1 = r2.
Proof.
  destruct f as [n v], g as [m w]. intros (Hn & Hv & Bv) (Hm & Hw & Bw). cbn [fst snd] in *.
  unfold wf_encode. cbn [fst snd]. rewrite <- !app_assoc. intros H.
  assert (0 <= wv_type v < 8 /\ 0 <= wv_type w < 8) as [] by (destruct v, w; cbn; lia).
  apply encodeVarint_prefix_free in H as [Ht H]; [|lia..].
  assert (n = m /\ wv_type v = wv_type w) as [-> Hty] by lia.
  apply wv_encode_prefix_free in H as [-> ->]; done.
Qed.

Lemma encode_wfields_inj l1 l2 :
  Forall wfield_bounded l1 -> Forall wfield_bounded l2 ->
  encode_wfields l1 = encode_wfields l2 -> l1 = l2.
Proof.
  intros H1. revert l2.
  assert (forall f l, wfield_bounded f -> wf_encode f ++ l <> []) as Hne.
  { intros f l (Hn & Hv & _) E. pose proof (wf_encode_length f ltac:(lia) Hv).
    apply app_eq_nil in E as [E _]. rewrite E in *. done. }
  induction H1 as [|f l1 Hf H1 IH]; intros l2 H2 E.
  - destruct H2 as [|g l2 Hg H2]; [done|]. by destruct (Hne g (encode_wfields l2)).
  - destruct H2 as [|g l2 Hg H2]; [by destruct (Hne f (encode_wfields l1))|].
    apply wf_encode_prefix_free in E as [-> E]; [|done..]. by rewrite (IH l2).
Qed.

(** A payload is no longer than the bytes around it. *)
Lemma payload_in_encoding fs f p : In f fs -> f.2 = VBytes p -> zlen p <= zlen (encode_wfields fs).
Proof.
  intros Hin Hp. induction fs as [|g fs IH]; [done|].
  change (encode_wfields (g :: fs)) with (wf_encode g ++ encode_wfields fs). rewrite zlen_app.
  pose proof (zlen_nonneg (encode_wfields fs)). pose proof (zlen_nonneg (wf_encode g)).
  destruct Hin as [->|Hin]; [|specialize (IH Hin); lia].
  unfold wf_encode. rewrite Hp. cbn [wv_encode]. rewrite !zlen_app.
  pose proof (zlen_nonneg (encodeVarint (f.1 * 8 + wv_type (VBytes p)))).
  pose proof (zlen_nonneg (encodeVarint (zlen p))). lia.
Qed.

(** The tag and the value of a field at the cursor. *)
Lemma read_field_complete (pre : bytes) n v (post : bytes) :
  0 <= n < 2 ^ 53 -> wv_ok v -> zlen (pre ++ wf_encode (n, v) ++ post) < 2 ^ 53 ->
  exists tag toff,
    readVarint (pre ++ wf_encode (n, v) ++ post) (zlen pre) = Ok (tag, toff) /\
    to_double (Z.shiftr tag 3) = n /\ to_double (Z.land tag 7) = wv_type v /\
    readWireValue (pre ++ wf_encode (n, v) ++ post) toff (wv_type v)
    = Ok (zlen (pre ++ wf_encode (n, v)), wv_payload v).
Proof.
  intros Hn Hv Hsize. assert (0 <= wv_type v < 8) as Ht by (destruct v; cbn; lia).
  destruct (tag_join n (wv_type v) Hn Ht) as [H1 H2].
  unfold wf_encode in *. cbn [fst snd] in *.
  exists (n * 8 + wv_type v), (zlen pre + zlen (encodeVarint (n * 8 + wv_type v))).
  rewrite <- app_assoc in *. rewrite readVarint_schema_complete by lia.
  repeat split; try done.
  replace (zlen pre + zlen (encodeVarint (n * 8 + wv_type v)))
    with (zlen (pre ++ encodeVarint (n * 8 + wv_type v))) by (autorewrite with zlen; lia).
  rewrite (app_assoc pre) in Hsize |- *. rewrite readWireValue_complete by done.
  do 2 f_equal. autorewrite with zlen. lia.
Qed.

Lemma rest_closed_uncons t nested seen os (rest : bytes) :
  rest_closed t nested seen os rest -> rest <> [] ->
  exists f rest', rest = wf_encode f ++ rest' /\ closed_field t f /\
    (nested = true -> (singular t f = true -> ~ In f.1 seen) /\
                      (forall o, oneof_of t f = Some o -> ~ In o os)) /\
    rest_closed t nested (f.1 :: seen) (add_oneof t f os) rest'.
Proof.
  intros ([|f fs] & -> & Hfs & Ho) Hne; [done|]. apply Forall_cons in Hfs as [Hf Hfs].
  exists f, (encode_wfields fs). split; [done|]. split; [done|].
  split; [intros Hn; apply Ho, once_from_cons in Hn; naive_solver|].
  exists fs. split; [done|]. split; [done|]. intros Hn. apply Ho, once_from_cons in Hn. naive_solver.
Qed.

Lemma rest_entry_uncons d seen (rest : bytes) :
  rest_entry d seen rest -> rest <> [] ->
  exists f rest', rest = wf_encode f ++ rest' /\ closed_entry_field d f /\ ~ In f.1 seen /\
    rest_entry d (f.1 :: seen) rest'.
Proof.
  intros ([|f es] & -> & Hes & Hd & Hn) Hne; [done|]. apply Forall_cons in Hes as [Hf Hes].
  cbn [map] in Hd. apply NoDup_cons in Hd as [Hni Hd]. rewrite list_elem_of_In in Hni.
  exists f, (encode_wfields es). split; [done|]. split; [done|]. split; [apply Hn; by left|].
  exists es. repeat split; try done. intros g Hg [E|Hin].
  - apply Hni. rewrite E. by apply in_map.
  - by apply (Hn g); [right|].
Qed.

Section WalkStepComplete.
Context (fuel : nat) (IHm : message_complete fuel) (IHe : entry_complete fuel).

Lemma message_payload_complete p t :
  wf_type t -> zlen p < 2 ^ 53 -> zlen p <= Z.of_nat fuel -> closed t true p ->
  walkMessage_loop fuel p t true 0 [] [] = Ok tt.
Proof using IHm. intros ? ? ? ?%rest_closed_init. by apply (IHm [] p). Qed.

Lemma validateNestedValue_complete d v :
  (forall t, resolvedMessageType d = Some t -> wf_type t) ->
  zlen (wv_encode v) < 2 ^ 53 -> zlen (wv_encode v) <= Z.of_nat fuel -> closed_value d v ->
  validateNestedValue (fun p t => walkMessage_loop fuel p t true 0 [] [])
    (fun p f => walkMapEntry_loop fuel p f 0 []) d (wv_payload v) = Ok tt.
Proof using IHm IHe.
  intros Hwf Hs Hfuel Hc. unfold validateNestedValue.
  destruct (wv_payload v) as [p|] eqn:Hp; [|done]. pose proof (payload_shorter v p Hp).
  destruct v; try done. injection Hp as ->.
  inversion Hc as [|? ? Hm Hres|? t ? Hm Hres Hcl|? ? Hm Hen]; subst; try done; rewrite Hm.
  - by rewrite Hres.
  - rewrite Hres. apply message_payload_complete; try (done || lia). by apply Hwf.
  - apply (IHe [] p); cbn [app]; try (done || lia). by apply rest_entry_init.
Qed.

Lemma walkMessage_step_complete : message_complete (S fuel).
Proof using IHm IHe.
  intros pre rest t nested seen os Hwf Hsize Hfuel Hr.
  cbn [walkMessage_loop]. destruct (Z.ltb_spec (zlen pre) (zlen (pre ++ rest))) as [Hlt|]; [|done].
  destruct (rest_closed_uncons _ _ _ _ _ Hr) as (f & rest' & -> & Hf & Hocc & Hr').
  { intros ->. rewrite app_nil_r in Hlt. lia. }
  inversion Hf as [t' d n v Hd Hal Hok Hcv]; subst t' f. cbn [fst] in *.
  pose proof (fieldsById_bound _ _ _ Hwf Hd).
  destruct (read_field_complete pre n v rest') as (tag & toff & -> & Hn & Hw & Hval); [lia|done..|].
  cbn [mbind result_bind fst snd]. cbn zeta. rewrite Hn, Hw, Hd.
  rewrite (proj2 (validateOccurrence_ok_iff t d n (wv_type v) v seen os nested _ _ Hd eq_refl))
    by (split; [done|]; split; [reflexivity|]; split; [reflexivity | done]).
  cbn [mbind result_bind fst snd]. rewrite Hval. cbn [mbind result_bind fst snd].
  pose proof (wf_encode_length (n, v) ltac:(cbn; lia) Hok).
  pose proof (encodeVarint_nonempty (n * 8 + wv_type v)).
  assert (0 <= wv_type v) by (destruct v; cbn; lia).
  pose proof (zlen_nonneg pre). pose proof (zlen_nonneg rest').
  assert (zlen (wf_encode (n, v)) = zlen (encodeVarint (n * 8 + wv_type v)) + zlen (wv_encode v))
    by (unfold wf_encode; by autorewrite with zlen).
  autorewrite with zlen in Hsize, Hfuel.
  rewrite validateNestedValue_complete; [|intros t' ?; by apply (fieldsById_wf t n d) | lia..|done].
  cbn [mbind result_bind]. rewrite app_assoc. apply IHm; try done; autorewrite with zlen; lia.
Qed.

Lemma entry_field_step d f :
  (forall t, resolvedMessageType d = Some t -> wf_type t) ->
  closed_entry_field d f -> zlen (wv_encode f.2) < 2 ^ 53 ->
  zlen (wv_encode f.2) <= Z.of_nat fuel ->
  (f.1 = 1 \/ f.1 = 2) /\ wv_ok f.2 /\
  (if f.1 =? 1 then scalarWireType (f_keyType d) else mapValueWireType d) = Ok (wv_type f.2) /\
  (match wv_payload f.2, resolvedMessageType d with
   | Some p, Some t => if f.1 =? 2 then walkMessage_loop fuel p t true 0 [] [] else Ok tt
   | _, _ => Ok tt
   end) = Ok tt.
Proof using IHm.
  intros Hwf Hf Hs Hfuel. inversion Hf as [d' v He Hok|d' v He Hok Hc]; subst d' f; cbn in *.
  - repeat split; auto. by repeat case_match.
  - repeat split; auto. destruct (wv_payload v) as [p|] eqn:Hp; [|done].
    destruct (resolvedMessageType d) as [t|] eqn:Ht; [|done].
    pose proof (payload_shorter v p Hp). destruct v; try done. injection Hp as ->.
    apply message_payload_complete; try lia; auto.
Qed.

Lemma walkMapEntry_step_complete : entry_complete (S fuel).
Proof using IHm IHe.
  intros pre rest d seen Hwf Hsize Hfuel Hr.
  cbn [walkMapEntry_loop]. destruct (Z.ltb_spec (zlen pre) (zlen (pre ++ rest))) as [Hlt|]; [|done].
  destruct (rest_entry_uncons _ _ _ Hr) as ([n v] & rest' & -> & Hf & Hs & Hr').
  { intros ->. rewrite app_nil_r in Hlt. lia. }
  cbn [fst] in *. pose proof (zlen_nonneg pre). pose proof (zlen_nonneg rest').
  pose proof (zlen_nonneg (wv_encode v)).
  assert (0 <= n * 8 + wv_type v) as Htag by (inversion Hf; destruct v; cbn; lia).
  pose proof (encodeVarint_nonempty _ Htag).
  assert (zlen (wf_encode (n, v)) = zlen (encodeVarint (n * 8 + wv_type v)) + zlen (wv_encode v))
    by (unfold wf_encode; by autorewrite with zlen).
  pose proof Hsize as Hsize'. autorewrite with zlen in Hsize', Hfuel.
  destruct (entry_field_step d (n, v) Hwf Hf) as (Hn & Hok & Hexp & Hnest); cbn [fst snd] in *; [lia..|].
  destruct (read_field_complete pre n v rest') as (tag & toff & -> & Hn' & Hw & Hval);
    [lia|done..|].
  cbn [mbind result_bind fst snd]. cbn zeta. rewrite Hn', Hw.
  replace ((negb (n =? 1) && negb (n =? 2)) || zmem n seen) with false
    by (apply zmem_not_In in Hs as ->; destruct Hn as [-> | ->]; done).
  cbn [throw_if mbind result_bind]. rewrite Hexp. cbn [mbind result_bind].
  rewrite Z.eqb_refl. cbn [negb throw_if mbind result_bind]. rewrite Hval.
  cbn [mbind result_bind fst snd]. rewrite Hnest. cbn [mbind result_bind].
  rewrite app_assoc. apply IHe; try done; autorewrite with zlen; lia.
Qed.
End WalkStepComplete.

Lemma walk_loop_complete fuel : message_complete fuel /\ entry_complete fuel.
Proof.
  induction fuel as [|fuel [IHm IHe]];
    [|split; [by apply walkMessage_step_complete | by apply walkMapEntry_step_complete]].
  split; [intros pre rest t nested seen os Hwf Hsize Hfuel Hr | intros pre rest d seen Hwf Hsize Hfuel Hr];
    pose proof (zlen_nonneg rest);
    (rewrite (zlen_0_inv rest) by lia); rewrite app_nil_r;
    cbn [walkMessage_loop walkMapEntry_loop]; by rewrite Z.ltb_irrefl.
Qed.

(** ** The walk ends *)

Definition walk_bounded (fuel : nat) (raw : bytes) (off : Z) : Prop :=
  zlen raw < 2 ^ 53 /\ 0 <= off /\ zlen raw - off <= Z.of_nat fuel.

Lemma allowedWireTypes_not_NoFuel d : allowedWireTypes d <> NoFuel.
Proof. unfold allowedWireTypes, scalarWireType. no_fuel. Qed.

Lemma mapValueWireType_not_NoFuel d : mapValueWireType d <> NoFuel.
Proof. unfold mapValueWireType, scalarWireType. no_fuel. Qed.

Lemma scalarWireType_not_NoFuel s : scalarWireType s <> NoFuel.
Proof. unfold scalarWireType. no_fuel. Qed.

Lemma readVarint_schema_not_NoFuel (raw : bytes) off : readVarint raw off <> NoFuel.
Proof. apply readVarint_not_NoFuel. Qed.

#[local] Hint Resolve allowedWireTypes_not_NoFuel mapValueWireType_not_NoFuel
  scalarWireType_not_NoFuel readVarint_schema_not_NoFuel readWireValue_not_NoFuel : cap.

Lemma validateOccurrence_not_NoFuel d n w seen os nested :
  validateOccurrence d n w seen os nested <> NoFuel.
Proof. unfold validateOccurrence. no_fuel. Qed.

#[local] Hint Resolve validateOccurrence_not_NoFuel : cap.

(** One field read at the cursor leaves less to read, and less to walk. *)
Lemma walk_bounded_step fuel (raw : bytes) off tag toff w vend pl :
  walk_bounded (S fuel) raw off ->
  readVarint raw off = Ok (tag, toff) -> readWireValue raw toff w = Ok (vend, pl) ->
  walk_bounded fuel raw vend /\ forall p, pl = Some p -> walk_bounded fuel p 0.
Proof.
  intros (Hs & Ho & Hf) (_ & Ht & _)%readVarint_sound Hv.
  apply readWireValue_sound in Hv as (v & _ & _ & -> & Hsl & Hve); [|lia|done].
  split; [unfold walk_bounded; lia|]. intros p Hp%payload_shorter.
  rewrite <- Hsl, slice_zlen in Hp by lia. unfold walk_bounded. lia.
Qed.

Lemma walk_loop_ends fuel :
  (forall raw t nested off seen os, walk_bounded fuel raw off ->
     walkMessage_loop fuel raw t nested off seen os <> NoFuel) /\
  (forall raw d off seen, walk_bounded fuel raw off ->
     walkMapEntry_loop fuel raw d off seen <> NoFuel).
Proof.
  induction fuel as [|fuel [IHm IHe]]; (split; [intros raw t nested off seen os Hb | intros raw d off seen Hb]);
    cbn [walkMessage_loop walkMapEntry_loop]; destruct (Z.ltb_spec off (zlen raw)) as [Hlt|]; try done;
    try (unfold walk_bounded in Hb; lia);
    (apply bind_not_NoFuel; [auto with cap | intros [tag toff] Htag; cbn [fst snd]; cbn zeta]).
  - destruct (fieldsById _ _) as [d|]; [|done]. 
    apply bind_not_NoFuel; [auto with cap | intros sets _].
    apply bind_not_NoFuel; [auto with cap | intros [vend pl] Hval; cbn [fst snd]].
    destruct (walk_bounded_step _ _ _ _ _ _ _ _ Hb Htag Hval) as [Hb' Hp].
    apply bind_not_NoFuel; [|auto].
    unfold validateNestedValue. destruct pl as [p|]; [|done].
    destruct (f_map d); [by apply IHe, Hp|]. by destruct (resolvedMessageType d); [apply IHm, Hp|].
  - apply bind_not_NoFuel; [auto with cap | intros _ _].
    apply bind_not_NoFuel; [destruct (_ =? 1); auto with cap | intros expected _].
    apply bind_not_NoFuel; [auto with cap | intros _ _].
    apply bind_not_NoFuel; [auto with cap | intros [vend pl] Hval; cbn [fst snd]].
    destruct (walk_bounded_step _ _ _ _ _ _ _ _ Hb Htag Hval) as [Hb' Hp].
    apply bind_not_NoFuel; [|auto].
    destruct pl as [p|]; [|done]. destruct (resolvedMessageType d); [|done].
    destruct (_ =? 2); [by apply IHm, Hp | done].
Qed.

(** ** Claims *)

(** The walk decides the grammar. *)
Lemma assertClosedNestedWire_closed raw t :
  wf_type t -> zlen raw < 2 ^ 53 -> assertClosedNestedWire raw t = Ok tt <-> closed t false raw.
Proof.
  intros Hwf Hsize. unfold assertClosedNestedWire, walkMessage. pose proof (zlen_nonneg raw). split.
  - intros Hw. apply rest_closed_init. rewrite <- (slice_full raw).
    apply (proj1 (walk_loop_sound (length raw)) raw t false 0 [] []); (done || lia).
  - intros Hc%rest_closed_init.
    by apply (proj1 (walk_loop_complete (length raw)) [] raw).
Qed.

(** C5. [assertClosedNestedWire] accepts a buffer exactly when it is a closed
    encoding for the schema: a sequence of minimally tagged fields the message
    type declares, of an allowed wire type each, whose nested messages and map
    entries are closed in turn, without a repeated singular field, a second
    member of a oneof or a repeated map key or value below the top level. *)
Theorem assertClosedNestedWire_iff raw t :
  wf_type t -> zlen raw < 2 ^ 53 -> assertClosedNestedWire raw t = Ok tt <-> closed t false raw.
Proof. apply assertClosedNestedWire_closed. Qed.

Lemma closedNestedWire_ends raw t :
  zlen raw < 2 ^ 53 -> assertClosedNestedWire raw t <> NoFuel.
Proof.
  intros Hsize. apply (proj1 (walk_loop_ends (length raw))).
  unfold walk_bounded, zlen in *. lia.
Qed.

(** The recursive walk ends on every buffer, with acceptance or an
    exception: the fuel of one unit per byte is never exhausted. *)
Theorem assertClosedNestedWire_ends raw t :
  zlen raw < 2 ^ 53 -> assertClosedNestedWire raw t <> NoFuel.
Proof. apply closedNestedWire_ends. Qed.

(** A message with a nested message, a map, a packed field and a oneof. *)
Definition sample_timestamp : msg_type :=
  MsgType ".google.protobuf.Timestamp"
    [Field 1 "seconds" "int64" false false "" true None Unresolved;
     Field 2 "nanos" "int32" false false "" true None Unresolved].

Definition sample_message : msg_type :=
  MsgType ".cordum.agent.v1.Sample"
    [Field 1 "traceId" "string" false false "" true None Unresolved;
     Field 2 "createdAt" "google.protobuf.Timestamp" false false "" true None
       (ResolvedMessage sample_timestamp);
     Field 3 "labels" "string" false true "string" true None Unresolved;
     Field 4 "codes" "int32" true false "" true None Unresolved;
     Field 5 "expiresAt" "google.protobuf.Timestamp" false false "" true (Some "bound")
       (ResolvedMessage sample_timestamp)]%string.

Definition sample_raw : bytes :=
  [10; 1; 97;  18; 4; 8; 5; 16; 7;  26; 6; 10; 1; 107; 18; 1; 118;  34; 2; 1; 2;  32; 3].

Lemma sample_message_wf : wf_type sample_message.
Proof.
  assert (wf_type sample_timestamp).
  { constructor; repeat constructor; cbn; try lia; intros; discriminate. }
  constructor; repeat constructor; cbn; try lia; intros t [=]; by subst.
Qed.

Lemma assertClosedNestedWire_iff_witness :
  closed sample_message false sample_raw /\
  ~ closed sample_message false (sample_raw ++ [18; 4; 8; 5; 8; 6]) /\
  ~ closed sample_message false (sample_raw ++ [48; 1]).
Proof.
  split; [|split].
  - apply (assertClosedNestedWire_iff sample_raw sample_message); [apply sample_message_wf | |];
      vm_compute; reflexivity.
  - rewrite <- (assertClosedNestedWire_iff (sample_raw ++ [18; 4; 8; 5; 8; 6]) sample_message);
      [vm_compute; discriminate | apply sample_message_wf | vm_compute; reflexivity].
  - rewrite <- (assertClosedNestedWire_iff (sample_raw ++ [48; 1]) sample_message);
      [vm_compute; discriminate | apply sample_message_wf | vm_compute; reflexivity].
Defined.

Lemma assertClosedNestedWire_ends_witness :
  zlen sample_raw < 2 ^ 53 /\ assertClosedNestedWire sample_raw sample_message <> NoFuel.
Proof.
  split; [vm_compute; reflexivity|].
  apply (assertClosedNestedWire_ends sample_raw sample_message). vm_compute. reflexivity.
Defined.
