(* ===== verification/ProductionSigning.v ===== *)
(** * Verification of production packets

    production-signing.ts from the digest on, with production-signing-types.ts:
    the local trust authority, the signature metadata, the validity window, the
    bindings to the authority and the signature itself.  The protobuf decoder
    and the cryptographic library are parameters. *)

From S2P Require Import Prelude JsString JsValue Varint ProductionWire WireSchema.

(** ** The libraries the SDK calls *)

(** node:crypto: key import, the key details the SDK reads, and a signature
    check over SHA-256 of the bytes given. *)
Record crypto : Type := {
  public_key : Type;
  createPublicKey : jsstr -> result public_key;
  asymmetricKeyType : public_key -> jsstr;
  namedCurve : public_key -> option jsstr;
  verify : public_key -> bytes -> bytes -> bool;
  sha256 : bytes -> bytes;
}.

(** [ProductionPacketType]: the schema, and the decoder of protobufjs. *)
Record packet_type : Type := {
  pt_schema : msg_type;
  pt_decode : bytes -> result jsval;
}.

(** ** production-signing-types.ts *)

(** [ProductionTrustStore].  [nowMs] is the clock callback: what it returns or
    throws when it is called at a time of the system clock.  The three authority
    fields are untyped because the code checks their type. *)
Record trust_store : Type := {
  audience : jsval;
  publicKeys : list (jsstr * jsval);
  tenant : jsval;
  sender : jsval;
  maxLifetimeMs : option jsnum;
  clockSkewMs : option jsnum;
  nowMs : option (Z -> result jsnum);
}.

Definition isProductionRecord (v : jsval) : bool := is_record v.

(** A string that is not blank and has no blank at either end. *)
Definition authority_value (v : jsval) : bool :=
  match v with
  | JStr s => negb (str_empty (trim s)) && bool_decide (s = trim s)
  | _ => false
  end.

Definition validateProductionTrustAuthority (trust : trust_store) : result unit :=
  throw_if (existsb (fun v => negb (authority_value v)) [audience trust; tenant trust; sender trust])
    PlainError (js "production trust authority required").

(** ** production-signing.ts *)

Definition PRODUCTION_PROFILE_VERSION : jsstr := js "cap-production-v1".
Definition PRODUCTION_ALGORITHM : jsstr := js "ECDSA-P256-SHA256".
Definition DEFAULT_PRODUCTION_MAX_LIFETIME_MS : Z := 5 * 60000.
Definition MAX_PRODUCTION_CLOCK_SKEW_MS : Z := 60000.

Definition validateTrustAuthority (trust : trust_store) : result unit :=
  try_catch (validateProductionTrustAuthority trust)
    (fun _ => wire_error "production trust authority required").

(** [Number(String(v))] of an object and [Number(v ?? 0)] of anything else. *)
Definition wire_number (v : jsval) : jsnum :=
  if nullish v then NInt 0 else to_number v.

(** [Math.floor(nanos / 1e6)] is the integer quotient
    ([JsValue.floor_number_of_ratio]). *)
Definition timestampMillis (value : jsval) : result Z :=
  if negb (isProductionRecord value) then wire_error "invalid signature expiry"
  else
    match wire_number (get value "seconds"), wire_number (get value "nanos") with
    | NInt seconds, NInt nanos =>
        if (seconds <? -62135596800) || (253402300799 <? seconds) ||
           (nanos <? 0) || (999999999 <? nanos)
        then wire_error "invalid signature expiry"
        else Ok (seconds * 1000 + nanos / 1000000)
    | _, _ => wire_error "invalid signature expiry"
    end.

Definition nonempty_string (v : jsval) : bool := is_string v && truthy v.

Definition bytes_of_length (n : Z) (v : jsval) : bool :=
  match v with JBytes b => zlen b =? n | _ => false end.

Definition validateMetadataShape (metadata : jsval) : result unit :=
  do! throw_if (negb (isProductionRecord metadata)) ProductionWireError
        (js "missing signature metadata") ;;
  throw_if
    (negb (strict_eq (get metadata "profileVersion") (JStr PRODUCTION_PROFILE_VERSION)) ||
     negb (strict_eq (get metadata "algorithm") (JStr PRODUCTION_ALGORITHM)) ||
     negb (bytes_of_length 16 (get metadata "messageId")) ||
     negb (nonempty_string (get metadata "audience")) ||
     negb (nonempty_string (get metadata "keyId")) ||
     negb (isProductionRecord (get metadata "expiresAt")))
    ProductionWireError (js "invalid signature metadata").

Definition decodeClosedPacket (unsigned : bytes) (packetType : packet_type) : result jsval :=
  do! try_catch (assertClosedNestedWire unsigned (pt_schema packetType))
        (fun error => throw ProductionWireError (exn_message error)) ;;
  try_catch
    (let! decoded := pt_decode packetType unsigned in
     if negb (isProductionRecord decoded) then throw PlainError (js "not an object") else Ok decoded)
    (fun _ => wire_error "malformed production protobuf").

(** [trust.nowMs?.() ?? Date.now()], where [dateNow] is the value of
    [Date.now()]. *)
Definition trust_now (trust : trust_store) (dateNow : Z) : result jsnum :=
  match nowMs trust with Some clock => clock dateNow | None => Ok (NInt dateNow) end.

Definition validateLifetime (metadata : jsval) (trust : trust_store) (dateNow : Z) : result unit :=
  let! now := trust_now trust dateNow in
  match now, default (NInt 0) (clockSkewMs trust),
        default (NInt DEFAULT_PRODUCTION_MAX_LIFETIME_MS) (maxLifetimeMs trust) with
  | NInt now, NInt clockSkew, NInt maxLifetime =>
      do! throw_if
            (negb (is_safe_integer (NInt now)) ||
             negb (is_safe_integer (NInt maxLifetime)) || (maxLifetime <=? 0) ||
             (DEFAULT_PRODUCTION_MAX_LIFETIME_MS <? maxLifetime) ||
             negb (is_safe_integer (NInt clockSkew)) || (clockSkew <? 0) ||
             (MAX_PRODUCTION_CLOCK_SKEW_MS <? clockSkew) || (maxLifetime <? clockSkew))
            ProductionWireError (js "invalid production lifetime bounds") ;;
      let! expiresAt := timestampMillis (get metadata "expiresAt") in
      do! throw_if (expiresAt <=? to_double (now - clockSkew)) ProductionWireError
            (js "signature expired") ;;
      throw_if (to_double (to_double (now + maxLifetime) + clockSkew) <? expiresAt)
        ProductionWireError (js "signature lifetime exceeds bound")
  | _, _, _ => wire_error "invalid production lifetime bounds"
  end.

Section Crypto.
Context (C : crypto).

Definition productionPreimageDigest (unsigned : bytes) : bytes :=
  sha256 C (PRODUCTION_SIGNATURE_DOMAIN ++ unsigned).

Definition productionPublicKey (publicKeyPem : jsstr) : result (public_key C) :=
  try_catch
    (let! key := createPublicKey C publicKeyPem in
     let curve := namedCurve C key in
     if negb (bool_decide (asymmetricKeyType C key = js "ec")) ||
        (negb (bool_decide (curve = Some (js "prime256v1"))) &&
         negb (bool_decide (curve = Some (js "P-256"))))
     then throw PlainError (js "wrong curve")
     else Ok key)
    (fun _ => wire_error "production signatures require ECDSA P-256").

Definition verifyProductionSignature (raw : bytes) (publicKeyPem : jsstr) : result bytes :=
  let! extracted := extractProductionSignature raw in
  let! publicKey := productionPublicKey publicKeyPem in
  do! throw_if (negb (verify C publicKey (PRODUCTION_SIGNATURE_DOMAIN ++ extracted.1) extracted.2))
        ProductionWireError (js "invalid signature") ;;
  Ok extracted.1.

Definition verifyExactSignature (extracted : bytes * bytes) (publicKeyPem : jsstr) : result unit :=
  let! publicKey := productionPublicKey publicKeyPem in
  throw_if (negb (verify C publicKey (PRODUCTION_SIGNATURE_DOMAIN ++ extracted.1) extracted.2))
    ProductionWireError (js "invalid signature").

(** The public key registered for a key id: an own property that is a
    non-empty string. *)
Definition registered_key (trust : trust_store) (keyId : jsval) : option jsstr :=
  match keyId with
  | JStr k => match assoc k (publicKeys trust) with
              | Some (JStr ((_ :: _) as pem)) => Some pem
              | _ => None
              end
  | _ => None
  end.

Definition verifyProductionPacket (raw : bytes) (busPacketType : packet_type) (trust : trust_store)
    (dateNow : Z) : result jsval :=
  do! validateTrustAuthority trust ;;
  let! extracted := extractProductionSignature raw in
  let! packet := decodeClosedPacket extracted.1 busPacketType in
  let metadata := get packet "signatureMetadata" in
  do! validateMetadataShape metadata ;;
  do! throw_if (negb (strict_eq (get metadata "audience") (audience trust))) ProductionWireError
        (js "audience mismatch") ;;
  do! validateLifetime metadata trust dateNow ;;
  do! throw_if (negb (isProductionRecord (get packet "identity")) ||
                negb (strict_eq (get (get packet "identity") "tenantId") (tenant trust)))
        ProductionWireError (js "tenant mismatch") ;;
  do! throw_if (negb (strict_eq (get packet "senderId") (sender trust))) ProductionWireError
        (js "sender mismatch") ;;
  match registered_key trust (get metadata "keyId") with
  | None => wire_error "unknown key id"
  | Some publicKeyPem => do! verifyExactSignature extracted publicKeyPem ;; Ok packet
  end.
End Crypto.

(** ** What an accepted packet satisfies *)

Definition authority_string (v : jsval) (s : jsstr) : Prop :=
  v = JStr s /\ s <> [] /\ trim s = s.

(** A timestamp record in the range of google.protobuf.Timestamp. *)
Definition timestamp_at (value : jsval) (ms : Z) : Prop :=
  exists seconds nanos,
    is_record value = true /\
    wire_number (get value "seconds") = NInt seconds /\
    wire_number (get value "nanos") = NInt nanos /\
    -62135596800 <= seconds <= 253402300799 /\ 0 <= nanos <= 999999999 /\
    ms = seconds * 1000 + nanos / 1000000.

(** The validity window the authority's clock, skew and lifetime bound give. *)
Definition valid_at (trust : trust_store) (dateNow expiresAt : Z) : Prop :=
  exists now clockSkew maxLifetime,
    trust_now trust dateNow = Ok (NInt now) /\
    default (NInt 0) (clockSkewMs trust) = NInt clockSkew /\
    default (NInt 300000) (maxLifetimeMs trust) = NInt maxLifetime /\
    Z.abs now < 2 ^ 53 /\ 0 < maxLifetime <= 300000 /\ 0 <= clockSkew <= 60000 /\
    clockSkew <= maxLifetime /\ now - clockSkew < expiresAt <= now + maxLifetime + clockSkew.

Record metadata_shape (m : jsval) (aud keyId : jsstr) (messageId : bytes) : Prop := {
  ms_record : is_record m = true;
  ms_profile : get m "profileVersion" = JStr PRODUCTION_PROFILE_VERSION;
  ms_algorithm : get m "algorithm" = JStr PRODUCTION_ALGORITHM;
  ms_messageId : get m "messageId" = JBytes messageId /\ zlen messageId = 16;
  ms_audience : get m "audience" = JStr aud /\ aud <> [];
  ms_keyId : get m "keyId" = JStr keyId /\ keyId <> [];
  ms_expiresAt : is_record (get m "expiresAt") = true;
}.

(** The key is an elliptic-curve key on P-256. *)
Definition p256_key (C : crypto) (pem : jsstr) (key : public_key C) : Prop :=
  createPublicKey C pem = Ok key /\ asymmetricKeyType C key = js "ec" /\
  (namedCurve C key = Some (js "prime256v1") \/ namedCurve C key = Some (js "P-256")).

(** Everything verification establishes of a packet and its bytes: the local
    authority; the bytes are one signature field among known fields with closed
    contents; the packet is the decoding of the covered bytes; it is bound to
    the authority's audience, tenant, sender and clock; and the covered bytes
    are signed by the P-256 key the authority registers under the key id. *)
Inductive verified (C : crypto) (raw : bytes) (pt : packet_type) (trust : trust_store)
    (dateNow : Z) (packet : jsval) : Prop :=
| verified_intro fs sig aud ten snd keyId messageId expiresAt pem key
    (v_authority : authority_string (audience trust) aud /\
                   authority_string (tenant trust) ten /\ authority_string (sender trust) snd)
    (v_size : zlen raw <= MAX_PRODUCTION_RAW_BYTES)
    (v_wire : raw = encode_fields fs /\ signed_fields fs sig)
    (v_closed : closed (pt_schema pt) false (encode_fields (covered_fields fs)))
    (v_decoded : pt_decode pt (encode_fields (covered_fields fs)) = Ok packet /\
                 is_record packet = true)
    (v_metadata : metadata_shape (get packet "signatureMetadata") aud keyId messageId)
    (v_window : timestamp_at (get (get packet "signatureMetadata") "expiresAt") expiresAt /\
                valid_at trust dateNow expiresAt)
    (v_identity : is_record (get packet "identity") = true /\
                  get (get packet "identity") "tenantId" = JStr ten)
    (v_senderId : get packet "senderId" = JStr snd)
    (v_registered : assoc keyId (publicKeys trust) = Some (JStr pem) /\ pem <> [])
    (v_p256 : p256_key C pem key)
    (v_signed : verify C key
                  (PRODUCTION_SIGNATURE_DOMAIN ++ encode_fields (covered_fields fs)) sig = true).

(** ** Each check decides its part *)

Lemma authority_value_iff v : authority_value v = true <-> exists s, authority_string v s.
Proof.
  unfold authority_string. destruct v as [| | | |s| | | |]; cbn; try naive_solver.
  rewrite andb_true_iff, negb_true_iff, bool_decide_eq_true. split.
  - intros [He Ht]. exists s. repeat split; [|done]. intros ->. done.
  - intros (s' & [= <-] & Hne & Ht). rewrite Ht. split; [by destruct s | done].
Qed.

Lemma validateTrustAuthority_iff trust :
  validateTrustAuthority trust = Ok tt <->
  exists a t s, authority_string (audience trust) a /\ authority_string (tenant trust) t /\
    authority_string (sender trust) s.
Proof.
  unfold validateTrustAuthority, validateProductionTrustAuthority, wire_error.
  rewrite try_catch_throw_Ok_iff, throw_if_Ok_iff. cbn [existsb].
  rewrite !orb_false_iff, !negb_false_iff, !authority_value_iff. naive_solver.
Qed.

Lemma timestampMillis_iff v ms : timestampMillis v = Ok ms <-> timestamp_at v ms.
Proof.
  unfold timestampMillis, timestamp_at, isProductionRecord, wire_error.
  destruct (is_record v); cbn [negb]; [|naive_solver].
  destruct (wire_number (get v "seconds")) as [s| | |]; [|naive_solver..].
  destruct (wire_number (get v "nanos")) as [n| | |]; [|naive_solver..].
  destruct (_ || _) eqn:Hb.
  - rewrite !orb_true_iff, !Z.ltb_lt in Hb. split; [done|].
    intros (? & ? & _ & [= <-] & [= <-] & ? & ? & _). lia.
  - rewrite !orb_false_iff, !Z.ltb_ge in Hb. split.
    + intros [= <-]. exists s, n. repeat split; done || lia.
    + intros (? & ? & _ & [= <-] & [= <-] & _ & _ & ->). done.
Qed.

Lemma nonempty_string_iff v : nonempty_string v = true <-> exists s, v = JStr s /\ s <> [].
Proof.
  unfold nonempty_string. destruct v as [| | | |s| | | |]; cbn; try naive_solver.
  destruct s; cbn; naive_solver.
Qed.

Lemma bytes_of_length_iff n v : bytes_of_length n v = true <-> exists b, v = JBytes b /\ zlen b = n.
Proof. destruct v; cbn; try naive_solver. rewrite Z.eqb_eq. naive_solver. Qed.

Lemma validateMetadataShape_iff m :
  validateMetadataShape m = Ok tt <-> exists aud keyId messageId, metadata_shape m aud keyId messageId.
Proof.
  unfold validateMetadataShape, isProductionRecord.
  rewrite do_Ok_iff, !throw_if_Ok_iff.
  rewrite !orb_false_iff, !negb_false_iff, !strict_eq_str, bytes_of_length_iff, !nonempty_string_iff.
  split.
  - intros (Hr & (((((? & ?) & (b & ? & ?)) & (a & ? & ?)) & (k & ? & ?)) & ?)).
    exists a, k, b. by split.
  - intros (a & k & b & [? ? ? [? ?] [? ?] [? ?] ?]). naive_solver.
Qed.

(** Comparison with a number of moderate size is not affected by rounding. *)
Lemma to_double_ltb x y : Z.abs x < 2 ^ 53 -> (x <=? to_double y) = (x <=? y).
Proof.
  intros Hx. destruct (Z.le_gt_cases (Z.abs y) (2 ^ 53)); [by rewrite to_double_exact|].
  destruct (Z.le_gt_cases 0 y).
  - pose proof (to_double_large y ltac:(lia)).
    destruct (Z.leb_spec x (to_double y)), (Z.leb_spec x y); lia.
  - pose proof (to_double_large_neg y ltac:(lia)).
    destruct (Z.leb_spec x (to_double y)), (Z.leb_spec x y); lia.
Qed.

Lemma to_double_add_ltb x y z :
  Z.abs x < 2 ^ 53 -> - 2 ^ 53 < y -> 0 <= z -> (to_double (to_double y + z) <? x) = (y + z <? x).
Proof.
  intros Hx Hy Hz. rewrite !Z.ltb_antisym, to_double_ltb by done.
  destruct (Z.le_gt_cases y (2 ^ 53)); [by rewrite (to_double_exact y) by lia|].
  pose proof (to_double_large y ltac:(lia)).
  destruct (Z.leb_spec x (to_double y + z)), (Z.leb_spec x (y + z)); done || lia.
Qed.

Lemma timestamp_at_small v ms : timestamp_at v ms -> Z.abs ms < 2 ^ 53.
Proof.
  intros (s & n & _ & _ & _ & Hs & Hn & ->).
  pose proof (Z.div_pos n 1000000 ltac:(lia) ltac:(lia)).
  pose proof (Z.div_lt_upper_bound n 1000000 1000 ltac:(lia) ltac:(lia)). lia.
Qed.

Lemma validateLifetime_iff m trust dateNow :
  validateLifetime m trust dateNow = Ok tt <->
  exists expiresAt, timestamp_at (get m "expiresAt") expiresAt /\ valid_at trust dateNow expiresAt.
Proof.
  unfold validateLifetime, valid_at, wire_error, DEFAULT_PRODUCTION_MAX_LIFETIME_MS,
    MAX_PRODUCTION_CLOCK_SKEW_MS. change (5 * 60000) with 300000.
  destruct (trust_now trust dateNow) as [[now| | |]| |]; cbn [mbind result_bind]; [|naive_solver..].
  destruct (default (NInt 0) (clockSkewMs trust)) as [skew| | |]; [|naive_solver..].
  destruct (default (NInt 300000) (maxLifetimeMs trust)) as [max| | |]; [|naive_solver..].
  cbn [is_safe_integer]. unfold MAX_SAFE_INTEGER.
  rewrite do_Ok_iff, throw_if_Ok_iff, bind_Ok_iff.
  setoid_rewrite timestampMillis_iff. setoid_rewrite do_Ok_iff. setoid_rewrite throw_if_Ok_iff.
  rewrite !orb_false_iff, !negb_false_iff, !Z.leb_le, !Z.leb_gt, !Z.ltb_ge. split.
  - intros (Hb & e & Ht & H1 & H2). pose proof (timestamp_at_small _ _ Ht).
    rewrite to_double_ltb in H1 by done. rewrite to_double_add_ltb in H2 by lia.
    apply Z.leb_gt in H1. apply Z.ltb_ge in H2.
    exists e. split; [done|]. exists now, skew, max. repeat split; lia.
  - intros (e & Ht & ? & ? & ? & [= <-] & [= <-] & [= <-] & ? & ? & ? & ? & ?).
    pose proof (timestamp_at_small _ _ Ht). split; [repeat split; lia|].
    exists e. split; [done|]. rewrite to_double_ltb by done. rewrite to_double_add_ltb by lia.
    rewrite Z.leb_gt, Z.ltb_ge. lia.
Qed.

Lemma decodeClosedPacket_iff u pt p :
  wf_type (pt_schema pt) -> zlen u < 2 ^ 53 ->
  decodeClosedPacket u pt = Ok p <->
  closed (pt_schema pt) false u /\ pt_decode pt u = Ok p /\ is_record p = true.
Proof.
  intros Hwf Hsize. unfold decodeClosedPacket, isProductionRecord, wire_error.
  rewrite <- (assertClosedNestedWire_closed u) by done.
  destruct (assertClosedNestedWire u (pt_schema pt)) as [[]| |]; cbn [mbind result_bind try_catch];
    [|naive_solver..].
  rewrite try_catch_throw_Ok_iff.
  destruct (pt_decode pt u) as [d| |]; cbn; [|naive_solver..].
  destruct (is_record d) eqn:Hd; cbn; split; try done.
  - by intros [= <-].
  - by intros (_ & ? & _).
  - intros (_ & [= <-] & ?). congruence.
Qed.

Lemma decodeClosedPacket_not_NoFuel u pt :
  (forall u, pt_decode pt u <> NoFuel) -> zlen u < 2 ^ 53 -> decodeClosedPacket u pt <> NoFuel.
Proof.
  intros Hd Hu. unfold decodeClosedPacket, wire_error. no_fuel. by apply closedNestedWire_ends.
Qed.

(** The clock callback returns or throws. *)
Definition clock_ends (trust : trust_store) : Prop := forall dateNow, trust_now trust dateNow <> NoFuel.

Lemma validateLifetime_not_NoFuel m trust dateNow : clock_ends trust -> validateLifetime m trust dateNow <> NoFuel.
Proof.
  intros Hc. apply bind_not_NoFuel; [apply Hc|]. intros now _. unfold timestampMillis, wire_error. no_fuel.
Qed.

Lemma registered_key_iff trust keyId pem :
  registered_key trust (JStr keyId) = Some pem <->
  assoc keyId (publicKeys trust) = Some (JStr pem) /\ pem <> [].
Proof.
  unfold registered_key.
  destruct (assoc keyId (publicKeys trust)) as [[| | | |[|c s]| | | |]|]; split; try done;
    (intros [= <-] || intros [[= <-] ?]); done.
Qed.

Section Verification.
Context (C : crypto).

Lemma productionPublicKey_iff pem key :
  productionPublicKey C pem = Ok key <-> p256_key C pem key.
Proof.
  unfold productionPublicKey, p256_key, wire_error. rewrite try_catch_throw_Ok_iff, bind_Ok_iff.
  split.
  - intros (k & Hk & H). cbn zeta in H. destruct (_ || _) eqn:Hb; [done|]. injection H as ->.
    rewrite orb_false_iff, negb_false_iff, andb_false_iff, !negb_false_iff, !bool_decide_eq_true in Hb.
    naive_solver.
  - intros (Hk & Ht & Hc). exists key. split; [done|]. cbn zeta. rewrite bool_decide_true by done.
    destruct Hc as [-> | ->]; done.
Qed.

Lemma verifyExactSignature_iff u s pem :
  verifyExactSignature C (u, s) pem = Ok tt <->
  exists key, p256_key C pem key /\ verify C key (PRODUCTION_SIGNATURE_DOMAIN ++ u) s = true.
Proof.
  unfold verifyExactSignature. rewrite bind_Ok_iff.
  setoid_rewrite productionPublicKey_iff. setoid_rewrite throw_if_Ok_iff.
  by setoid_rewrite negb_false_iff.
Qed.
End Verification.

(** ** Claims *)

Section VerifyPacket.
Context (C : crypto) (pt : packet_type) (Hwf : wf_type (pt_schema pt)).

Lemma verify_sound raw trust dateNow packet :
  verifyProductionPacket C raw pt trust dateNow = Ok packet ->
  verified C raw pt trust dateNow packet.
Proof using Hwf.
  unfold verifyProductionPacket. rewrite do_Ok_iff, validateTrustAuthority_iff.
  intros ((a & t & s & (Ea & Hna) & (Et & Hnt) & (Es & Hns)) & H).
  apply bind_Ok_iff in H as ([u sig] & He & H). cbn [fst] in H.
  apply extract_sound in He as (Hsize & fs & -> & Hsf & ->).
  apply bind_Ok_iff in H as (p & Hd & H).
  apply decodeClosedPacket_iff in Hd as (Hc & Hdec & Hrec); [|done|by apply covered_small].
  cbn zeta in H. rewrite !do_Ok_iff, !throw_if_Ok_iff, validateMetadataShape_iff,
    validateLifetime_iff, orb_false_iff, !negb_false_iff, Ea, Et, Es, !strict_eq_str in H.
  destruct H as ((aud & keyId & mid & Hm) & Haud & (e & Hexp & Hval) & (Hir & Hten) & Hsnd & H).
  pose proof Hm as [_ _ _ _ [Em _] [Ek _] _]. rewrite Em in Haud. injection Haud as ->.
  rewrite Ek in H. destruct (registered_key trust (JStr keyId)) as [pem|] eqn:Hreg; [|done].
  apply do_Ok_iff in H as [(key & Hkey & Hver)%verifyExactSignature_iff [= <-]].
  apply registered_key_iff in Hreg as [Hreg ?].
  by apply (verified_intro C _ pt trust dateNow p fs sig a t s keyId mid e pem key).
Qed.

Lemma verify_complete raw trust dateNow packet :
  verified C raw pt trust dateNow packet ->
  verifyProductionPacket C raw pt trust dateNow = Ok packet.
Proof using Hwf.
  intros [fs sig aud ten snd keyId mid e pem key Hauth Hsize [-> Hsf] Hc [Hdec Hrec] Hm [Hexp Hval]
    [Hir Hten] Hsnd Hreg%registered_key_iff Hkey Hver].
  unfold verifyProductionPacket. rewrite do_Ok_iff, validateTrustAuthority_iff.
  split; [by exists aud, ten, snd|]. destruct Hauth as ((Ea & _) & (Et & _) & (Es & _)).
  rewrite (extract_complete fs sig) by done. cbn [mbind result_bind fst].
  rewrite (proj2 (decodeClosedPacket_iff _ pt packet Hwf (covered_small _ Hsize))) by done.
  cbn [mbind result_bind]. cbn zeta.
  rewrite !do_Ok_iff, !throw_if_Ok_iff, validateMetadataShape_iff,
    validateLifetime_iff, orb_false_iff, !negb_false_iff, Ea, Et, Es, !strict_eq_str.
  pose proof Hm as [_ _ _ _ [Em _] [Ek _] _]. rewrite Em, Ek, Hreg, do_Ok_iff.
  split; [by eauto|]. split; [done|]. split; [by eauto|]. split; [done|]. split; [done|].
  split; [|done]. apply verifyExactSignature_iff. by exists key.
Qed.
End VerifyPacket.

(** Verification ends when the libraries and the clock do. *)
Lemma verify_not_NoFuel C pt raw trust dateNow :
  (forall u, pt_decode pt u <> NoFuel) -> (forall pem, createPublicKey C pem <> NoFuel) -> clock_ends trust ->
  verifyProductionPacket C raw pt trust dateNow <> NoFuel.
Proof.
  intros Hdec Hkey Hclock. unfold verifyProductionPacket, validateTrustAuthority, validateProductionTrustAuthority,
    validateMetadataShape, verifyExactSignature, productionPublicKey, wire_error.
  pose proof extract_not_NoFuel. pose proof (fun m => validateLifetime_not_NoFuel m trust dateNow Hclock).
  apply bind_not_NoFuel; [no_fuel | intros _ _]. apply bind_not_NoFuel; [auto|].
  intros [u s] Hu. apply bind_not_NoFuel; [|intros p _; no_fuel].
  apply decodeClosedPacket_not_NoFuel; [done|]. cbn [fst].
  apply extract_sound in Hu as (Hsize & fs & -> & _ & ->). by apply covered_small.
Qed.

(** What verification throws is a [ProductionWireError], or what the clock
    threw. *)
Lemma verify_throws C pt raw trust dateNow e :
  verifyProductionPacket C raw pt trust dateNow = Throw e ->
  exn_class e = ProductionWireError \/ trust_now trust dateNow = Throw e.
Proof.
  set (P e := exn_class e = ProductionWireError \/ trust_now trust dateNow = Throw e). revert e. change (forall e,
    verifyProductionPacket C raw pt trust dateNow = Throw e -> P e).
  assert (forall A (m : result A), throws_only ProductionWireError m -> forall e, m = Throw e -> P e) as Hw
    by (intros A m Hm e He; left; by apply Hm).
  assert (forall A B (m : result A) (f : A -> result B), (forall e, m = Throw e -> P e) ->
    (forall a e, f a = Throw e -> P e) -> forall e, mbind f m = Throw e -> P e) as Hb.
  { intros A B [a|e|] f Hm Hf e'; cbn; [apply Hf | intros [= <-]; by apply Hm | done]. }
  pose proof extract_throws_only as Hx. unfold verifyProductionPacket, validateTrustAuthority, validateProductionTrustAuthority,
    decodeClosedPacket, validateMetadataShape, verifyExactSignature, productionPublicKey, wire_error.
  apply Hb; [apply Hw; throws_only | intros _]. apply Hb; [by apply Hw | intros x].
  apply Hb; [apply Hw; throws_only | intros packet]. cbn zeta. apply Hb; [apply Hw; throws_only | intros _].
  apply Hb; [apply Hw; throws_only | intros _]. apply Hb; [|intros _; apply Hw; throws_only].
  unfold validateLifetime, timestampMillis, wire_error. apply Hb; [by right | intros now; apply Hw; throws_only].
Qed.

(** C4. [verifyProductionPacket] returns a packet exactly when the raw bytes
    are a signed packet of the closed grammar whose covered bytes decode to it,
    the packet is bound to the audience, tenant and sender of the local
    authority, its expiry is in the window the authority allows, and the
    covered bytes under the domain prefix verify with the P-256 key the
    authority registers for its key id. *)
Theorem verifyProductionPacket_iff (C : crypto) (pt : packet_type) raw trust dateNow packet :
  wf_type (pt_schema pt) ->
  verifyProductionPacket C raw pt trust dateNow = Ok packet <->
  verified C raw pt trust dateNow packet.
Proof. intros Hwf. split; [by apply verify_sound | by apply verify_complete]. Qed.

(** C24. Verification fails closed with one class of error: whatever the bytes,
    the decoder and the keys, the call returns a packet or throws a
    [ProductionWireError], when key import, decoding and the clock return or
    throw.  The one other exception that can come out is the one that the clock
    callback of the authority threw, as it is. *)
Theorem verifyProductionPacket_errors (C : crypto) (pt : packet_type) raw trust dateNow :
  (forall u, pt_decode pt u <> NoFuel) -> (forall pem, createPublicKey C pem <> NoFuel) -> clock_ends trust ->
  (exists packet, verifyProductionPacket C raw pt trust dateNow = Ok packet) \/
  (exists message, verifyProductionPacket C raw pt trust dateNow = throw ProductionWireError message) \/
  (exists e, trust_now trust dateNow = Throw e /\ verifyProductionPacket C raw pt trust dateNow = Throw e).
Proof.
  intros Hdec Hkey Hclock. pose proof (verify_not_NoFuel C pt raw trust dateNow Hdec Hkey Hclock) as Hn.
  pose proof (verify_throws C pt raw trust dateNow) as Ht.
  destruct (verifyProductionPacket C raw pt trust dateNow) as [p|e|]; [by eauto | | done]. right.
  destruct (Ht e eq_refl) as [He|He]; [|by eauto]. left. exists (exn_message e). destruct e. cbn in *. by subst.
Qed.

(** ** A concrete instance *)

(** A toy signature scheme: one key, a signature is the checksum of the data. *)
Definition toy_crypto : crypto := {|
  public_key := unit;
  createPublicKey := fun pem => if bool_decide (pem = js "PEM") then Ok tt else throw TypeError [];
  asymmetricKeyType := fun _ => js "ec";
  namedCurve := fun _ => Some (js "prime256v1");
  verify := fun _ data sig => bool_decide (sig = [fold_right Z.add 0 data mod 256]);
  sha256 := fun data => [fold_right Z.add 0 data mod 256];
|}.

Definition sample_schema : msg_type :=
  MsgType ".cordum.agent.v1.BusPacket"
    [Field 1 "traceId" "string" false false "" true None Unresolved;
     Field 2 "senderId" "string" false false "" true None Unresolved;
     Field 4 "protocolVersion" "int32" false false "" true None Unresolved]%string.

Definition sample_unsigned : bytes := [10; 1; 116; 18; 1; 115; 32; 1].

Definition sample_decoded : jsval :=
  JPlain [(js "senderId", JStr (js "s"));
          (js "identity", JPlain [(js "tenantId", JStr (js "ten"))]);
          (js "signatureMetadata", JPlain
             [(js "profileVersion", JStr PRODUCTION_PROFILE_VERSION);
              (js "algorithm", JStr PRODUCTION_ALGORITHM);
              (js "messageId", JBytes (repeat 7 16));
              (js "audience", JStr (js "aud")); (js "keyId", JStr (js "k1"));
              (js "expiresAt", JPlain [(js "seconds", JLong 1700000060); (js "nanos", JNum (NInt 5000000))])])].

Definition sample_type : packet_type := {|
  pt_schema := sample_schema;
  pt_decode := fun u => if bool_decide (u = sample_unsigned) then Ok sample_decoded
                        else throw PlainError (js "index out of range");
|}.

Definition sample_trust : trust_store := {|
  audience := JStr (js "aud"); tenant := JStr (js "ten"); sender := JStr (js "s");
  publicKeys := [(js "k1", JStr (js "PEM"))];
  maxLifetimeMs := None; clockSkewMs := Some (NInt 1000); nowMs := None |}.

Definition sample_signature : bytes :=
  sha256 toy_crypto (PRODUCTION_SIGNATURE_DOMAIN ++ sample_unsigned).

Definition sample_signed : bytes := sample_unsigned ++ [114; 1] ++ sample_signature.

Lemma sample_schema_wf : wf_type sample_schema.
Proof. constructor; repeat constructor; cbn; try lia; intros; discriminate. Qed.

Lemma verifyProductionPacket_iff_witness :
  verified toy_crypto sample_signed sample_type sample_trust 1700000000000 sample_decoded.
Proof.
  apply (verifyProductionPacket_iff toy_crypto sample_type sample_signed sample_trust 1700000000000
           sample_decoded sample_schema_wf).
  vm_compute. reflexivity.
Defined.

Lemma verifyProductionPacket_errors_witness :
  (exists packet, verifyProductionPacket toy_crypto sample_signed sample_type sample_trust 1700000062000 = Ok packet) \/
  (exists message, verifyProductionPacket toy_crypto sample_signed sample_type sample_trust 1700000062000
                   = throw ProductionWireError message) \/
  (exists e, trust_now sample_trust 1700000062000 = Throw e /\
     verifyProductionPacket toy_crypto sample_signed sample_type sample_trust 1700000062000 = Throw e).
Proof.
  apply (verifyProductionPacket_errors toy_crypto sample_type sample_signed sample_trust 1700000062000).
  - intros u. cbn. destruct (bool_decide _); discriminate.
  - intros pem. cbn. destruct (bool_decide _); discriminate.
  - intros dateNow. discriminate.
Defined.

(** A clock callback that throws. *)
Example verify_broken_clock :
  verifyProductionPacket toy_crypto sample_signed sample_type
    {| audience := audience sample_trust; publicKeys := publicKeys sample_trust; tenant := tenant sample_trust;
       sender := sender sample_trust; maxLifetimeMs := None; clockSkewMs := None;
       nowMs := Some (fun _ => throw TypeError (js "no clock")) |} 1700000000000
  = throw TypeError (js "no clock").
Proof. vm_compute. reflexivity. Qed.

Example verify_expired :
  verifyProductionPacket toy_crypto sample_signed sample_type sample_trust 1700000061005
  = throw ProductionWireError (js "signature expired").
Proof. vm_compute. reflexivity. Qed.
