(* ===== verification/Validate.v ===== *)
(** * Message validation

    validate.ts: the opt-in checks of decoded [BusPacket], [JobRequest] and
    [JobResult] messages, in camel or snake case.  Each returns the list of its
    errors; a packet has none exactly when it satisfies [valid_packet], which is
    stated without them. *)

From S2P Require Import Prelude JsString JsValue.

(** The text of an error; the value is printed into the second. *)
Inductive error_text : Type :=
| Text (s : string)
| InvalidValue (v : jsval).

Record ValidationError : Type := VError { ve_field : string; ve_message : error_text }.

Definition JOB_PRIORITY_MAX : Z := 3.
Definition JOB_STATUS_UNSPECIFIED : Z := 0.
Definition SUPPORTED_PROTOCOL_VERSION : Z := 1.

Definition asMessage (value : jsval) : option jsval :=
  if is_record value then Some value else None.

Definition field (message : jsval) (camel : string) (snake : option string) : jsval :=
  coalesce (get message camel) (match snake with Some s => get message s | None => JUndef end).

Definition textField (message : jsval) (camel : string) (snake : option string) : jsstr :=
  default [] (as_str (field message camel snake)).

(** Each upper-case letter becomes an underscore and its lower case. *)
Fixpoint snakeName (value : string) : string :=
  match value with
  | EmptyString => EmptyString
  | String c s =>
      let n := Ascii.nat_of_ascii c in
      if (65 <=? n)%nat && (n <=? 90)%nat
      then String (Ascii.ascii_of_nat 95) (String (Ascii.ascii_of_nat (n + 32)) (snakeName s))
      else String c (snakeName s)
  end.

(** [a < b] and [a > b] of a value and a number. *)
Definition less (v : jsval) (z : Z) : bool := num_ltb (to_number v) (NInt z).
Definition greater (v : jsval) (z : Z) : bool := num_ltb (NInt z) (to_number v).

(** [errors.push(e)] under a condition. *)
Definition error_if (b : bool) (f : string) (m : error_text) : list ValidationError :=
  if b then [VError f m] else [].

Definition identityError (packet : jsval) (payloadName identityName path : string) : list ValidationError :=
  match asMessage (field packet payloadName (Some (snakeName payloadName))) with
  | None => []
  | Some payload =>
      let sender := textField packet "senderId" (Some "sender_id"%string) in
      let nested := textField payload identityName (Some (snakeName identityName)) in
      if bool_decide (nested = sender) then [] else [VError path (Text "must equal sender_id")]
  end.

Definition payload_names : list string :=
  ["jobRequest"; "job_request"; "jobResult"; "job_result"; "heartbeat";
   "alert"; "jobProgress"; "job_progress"; "jobCancel"; "job_cancel";
   "handshake"; "workerHandshakeChallengeRequest"; "worker_handshake_challenge_request";
   "workerHandshakeChallenge"; "worker_handshake_challenge";
   "workerHandshakeAuthenticate"; "worker_handshake_authenticate";
   "workerHandshakeResult"; "worker_handshake_result"]%string.

Definition payloadPresent (message : jsval) : bool :=
  existsb (fun name => negb (nullish (get message name))) payload_names.

(** [Object.keys(v).length > 0]; a buffer has a key per byte, a Long its three. *)
Definition has_keys (v : jsval) : bool :=
  match v with
  | JObj own _ => negb (zlen own =? 0)
  | JBytes b => negb (zlen b =? 0)
  | JLong _ => true
  | _ => false
  end.

Definition alertIdentityError (message : jsval) : list ValidationError :=
  match asMessage (field message "alert" None) with
  | None => []
  | Some alert =>
      let details := asMessage (field alert "details" None) in
      let structuredSignal :=
        truthy (field alert "severity" None) ||
        truthy (field alert "errorCodeEnum" (Some "error_code_enum"%string)) ||
        truthy (field alert "sourceComponent" (Some "source_component"%string)) ||
        match details with Some d => has_keys d | None => false end ||
        negb (str_empty (textField alert "traceId" (Some "trace_id"%string))) in
      let legacySignal :=
        truthy (field alert "level" None) || truthy (field alert "component" None) ||
        truthy (field alert "code" None) in
      if structuredSignal || negb legacySignal
      then identityError message "alert" "sourceComponent" "alert.source_component"
      else []
  end.

Definition validateNestedIdentity (message : jsval) : list ValidationError :=
  identityError message "jobResult" "workerId" "job_result.worker_id" ++
  identityError message "heartbeat" "workerId" "heartbeat.worker_id" ++
  identityError message "handshake" "componentId" "handshake.component_id" ++
  alertIdentityError message.

Definition budget_fields : list (string * string) :=
  [("maxInputTokens", "max_input_tokens"); ("maxOutputTokens", "max_output_tokens");
   ("maxTotalTokens", "max_total_tokens"); ("deadlineMs", "deadline_ms")]%string.

Definition negative_number (v : jsval) : bool :=
  match v with JNum n => num_ltb n (NInt 0) | _ => false end.

Definition validateBudget (value : jsval) : list ValidationError :=
  match asMessage value with
  | None => []
  | Some budget =>
      concat (map (fun '(camel, snake) =>
        error_if (negative_number (field budget camel (Some snake)))
          (String.append "budget." snake) (Text "must not be negative")) budget_fields)
  end.

Definition validateJobRequest (msg : jsval) : list ValidationError :=
  if nullish msg then [VError "JobRequest" (Text "must not be nil")]
  else
    let priority := coalesce (get msg "priority") (JNum (NInt 0)) in
    let stepIndex := coalesce (coalesce (get msg "stepIndex") (get msg "step_index")) (JNum (NInt 0)) in
    error_if (negb (truthy (get msg "jobId")) && negb (truthy (get msg "job_id")))
      "job_id" (Text "must not be empty") ++
    error_if (negb (truthy (get msg "topic"))) "topic" (Text "must not be empty") ++
    error_if (less priority 0 || greater priority JOB_PRIORITY_MAX) "priority" (InvalidValue priority) ++
    error_if (less stepIndex 0) "step_index" (Text "must not be negative") ++
    validateBudget (get msg "budget").

Definition validateJobResult (msg : jsval) : list ValidationError :=
  if nullish msg then [VError "JobResult" (Text "must not be nil")]
  else
    let status := coalesce (get msg "status") (JNum (NInt 0)) in
    let executionMs := coalesce (coalesce (get msg "executionMs") (get msg "execution_ms")) (JNum (NInt 0)) in
    error_if (negb (truthy (get msg "jobId")) && negb (truthy (get msg "job_id")))
      "job_id" (Text "must not be empty") ++
    error_if (strict_eq status (JNum (NInt JOB_STATUS_UNSPECIFIED))) "status" (Text "must not be UNSPECIFIED") ++
    error_if (negb (truthy (get msg "workerId")) && negb (truthy (get msg "worker_id")))
      "worker_id" (Text "must not be empty") ++
    error_if (less executionMs 0) "execution_ms" (Text "must not be negative").

Definition validateBusPacket (value : jsval) : list ValidationError :=
  match asMessage value with
  | None => [VError "BusPacket" (Text "must not be nil")]
  | Some msg =>
      let jobReq := field msg "jobRequest" (Some "job_request"%string) in
      let jobRes := field msg "jobResult" (Some "job_result"%string) in
      error_if (str_empty (textField msg "traceId" (Some "trace_id"%string)))
        "trace_id" (Text "must not be empty") ++
      error_if (str_empty (textField msg "senderId" (Some "sender_id"%string)))
        "sender_id" (Text "must not be empty") ++
      error_if (negb (strict_eq (field msg "protocolVersion" (Some "protocol_version"%string))
                        (JNum (NInt SUPPORTED_PROTOCOL_VERSION))))
        "protocol_version" (Text "must equal 1") ++
      error_if (nullish (field msg "createdAt" (Some "created_at"%string)))
        "created_at" (Text "must not be nil") ++
      error_if (negb (payloadPresent msg)) "payload" (Text "must not be nil") ++
      (if negb (nullish jobReq) then validateJobRequest jobReq else []) ++
      (if negb (nullish jobRes) then validateJobResult jobRes else []) ++
      validateNestedIdentity msg
  end.

(** ** Valid packets *)

(** The message has the value under the first of the two names it is set under. *)
Inductive reads (m : jsval) (camel snake : string) (v : jsval) : Prop :=
| reads_camel : get m camel = v -> nullish v = false -> reads m camel snake v
| reads_snake : nullish (get m camel) = true -> get m snake = v -> nullish v = false -> reads m camel snake v.

Definition below (v : jsval) (z : Z) : Prop := num_ltb (to_number v) (NInt z) = true.
Definition above (v : jsval) (z : Z) : Prop := num_ltb (NInt z) (to_number v) = true.

(** A token, output or time budget that is a number is not negative. *)
Definition valid_budget (b : jsval) : Prop :=
  forall n, num_ltb n (NInt 0) = true ->
    ~ reads b "maxInputTokens" "max_input_tokens" (JNum n) /\ ~ reads b "maxOutputTokens" "max_output_tokens" (JNum n) /\
    ~ reads b "maxTotalTokens" "max_total_tokens" (JNum n) /\ ~ reads b "deadlineMs" "deadline_ms" (JNum n).

Record valid_request (r : jsval) : Prop := {
  vq_id : truthy (get r "jobId") = true \/ truthy (get r "job_id") = true;
  vq_topic : truthy (get r "topic") = true;
  vq_priority : nullish (get r "priority") = true \/ ~ below (get r "priority") 0 /\ ~ above (get r "priority") 3;
  vq_step : forall v, reads r "stepIndex" "step_index" v -> ~ below v 0;
  vq_budget : is_record (get r "budget") = true -> valid_budget (get r "budget")
}.

Record valid_result (r : jsval) : Prop := {
  vr_id : truthy (get r "jobId") = true \/ truthy (get r "job_id") = true;
  vr_status : nullish (get r "status") = false /\ get r "status" <> JNum (NInt 0);
  vr_worker : truthy (get r "workerId") = true \/ truthy (get r "worker_id") = true;
  vr_time : forall v, reads r "executionMs" "execution_ms" v -> ~ below v 0
}.

(** The payload names the sender of the packet. *)
Definition names_sender (packet payload : jsval) (camel snake : string) : Prop :=
  exists s, s <> [] /\ reads packet "senderId" "sender_id" (JStr s) /\ reads payload camel snake (JStr s).

(** An alert with a field of the structured form, or with none of the old one. *)
Definition structured_alert (a : jsval) : Prop :=
  truthy (get a "severity") = true \/
  (exists v, reads a "errorCodeEnum" "error_code_enum" v /\ truthy v = true) \/
  (exists v, reads a "sourceComponent" "source_component" v /\ truthy v = true) \/
  (is_record (get a "details") = true /\ has_keys (get a "details") = true) \/
  (exists s, s <> [] /\ reads a "traceId" "trace_id" (JStr s)) \/
  (truthy (get a "level") = false /\ truthy (get a "component") = false /\ truthy (get a "code") = false).

(** The members of the payload of BusPacket. *)
Definition payload_members : list (string * string) :=
  [("jobRequest", "job_request"); ("jobResult", "job_result"); ("heartbeat", "heartbeat"); ("alert", "alert");
   ("jobProgress", "job_progress"); ("jobCancel", "job_cancel"); ("handshake", "handshake");
   ("workerHandshakeChallengeRequest", "worker_handshake_challenge_request");
   ("workerHandshakeChallenge", "worker_handshake_challenge");
   ("workerHandshakeAuthenticate", "worker_handshake_authenticate");
   ("workerHandshakeResult", "worker_handshake_result")]%string.

Record valid_packet (msg : jsval) : Prop := {
  vp_record : is_record msg = true;
  vp_trace : exists s, s <> [] /\ reads msg "traceId" "trace_id" (JStr s);
  vp_sender : exists s, s <> [] /\ reads msg "senderId" "sender_id" (JStr s);
  vp_version : reads msg "protocolVersion" "protocol_version" (JNum (NInt 1));
  vp_created : exists v, reads msg "createdAt" "created_at" v;
  vp_payload : exists camel snake v, In (camel, snake) payload_members /\ reads msg camel snake v;
  vp_request : forall r, reads msg "jobRequest" "job_request" r -> valid_request r;
  vp_result : forall r, reads msg "jobResult" "job_result" r ->
    valid_result r /\ (is_record r = true -> names_sender msg r "workerId" "worker_id");
  vp_heartbeat : is_record (get msg "heartbeat") = true -> names_sender msg (get msg "heartbeat") "workerId" "worker_id";
  vp_handshake : is_record (get msg "handshake") = true ->
    names_sender msg (get msg "handshake") "componentId" "component_id";
  vp_alert : is_record (get msg "alert") = true -> structured_alert (get msg "alert") ->
    names_sender msg (get msg "alert") "sourceComponent" "source_component"
}.

(** ** Each check decides its part *)

Lemma error_if_nil b f m : error_if b f m = [] <-> b = false.
Proof. by destruct b. Qed.

Lemma field_reads m camel snake v : field m camel (Some snake) = v /\ nullish v = false <-> reads m camel snake v.
Proof.
  unfold field, coalesce. split.
  - intros [E Hv]. destruct (nullish (get m camel)) eqn:Hn; [by apply reads_snake | by apply reads_camel].
  - intros [E Hv|Hn E Hv]; [by rewrite E, Hv | by rewrite Hn].
Qed.

(** What is read, or nothing is. *)
Lemma field_cases m camel snake :
  reads m camel snake (field m camel (Some snake)) \/
  nullish (field m camel (Some snake)) = true /\ forall v, ~ reads m camel snake v.
Proof.
  destruct (nullish (field m camel (Some snake))) eqn:Hn; [|left; by apply field_reads].
  right. split; [done|]. intros v [E Hv]%field_reads. congruence.
Qed.

Lemma reads_field m camel snake v : reads m camel snake v -> field m camel (Some snake) = v.
Proof. by intros [E _]%field_reads. Qed.

Lemma reads_set m camel snake : nullish (field m camel (Some snake)) = false <-> exists v, reads m camel snake v.
Proof.
  split; [intros H; eexists; by apply field_reads|]. intros [v [E Hv]%field_reads]. congruence.
Qed.

Lemma text_set m camel snake :
  str_empty (textField m camel (Some snake)) = false <-> exists s, s <> [] /\ reads m camel snake (JStr s).
Proof.
  unfold textField. split.
  - destruct (field m camel (Some snake)) as [| | | |s| | | |] eqn:E; try done. cbn. intros Hs. exists s.
    split; [by intros -> | by apply field_reads].
  - intros (s & Hs & E%reads_field). rewrite E. by destruct s.
Qed.

Lemma text_is m camel snake s : s <> [] -> textField m camel (Some snake) = s <-> reads m camel snake (JStr s).
Proof.
  intros Hs. unfold textField. split; [|by intros ->%reads_field].
  destruct (field m camel (Some snake)) as [| | | |t| | | |] eqn:E; try done. cbn. intros ->. by apply field_reads.
Qed.

Lemma less_spec v z : less v z = false <-> ~ below v z.
Proof. unfold less, below. by destruct (num_ltb _ _). Qed.

Lemma greater_spec v z : greater v z = false <-> ~ above v z.
Proof. unfold greater, above. by destruct (num_ltb _ _). Qed.

Lemma amount_spec b camel snake :
  negative_number (field b camel (Some snake)) = false <->
  forall n, num_ltb n (NInt 0) = true -> ~ reads b camel snake (JNum n).
Proof.
  split.
  - intros H n Hn E%reads_field. rewrite E in H. cbn in H. congruence.
  - intros H. destruct (field b camel (Some snake)) as [| | |n| | | | |] eqn:E; try done. cbn.
    destruct (num_ltb n (NInt 0)) eqn:Hn; [|done]. destruct (H n Hn). by apply field_reads.
Qed.

Lemma validateBudget_nil b : validateBudget b = [] <-> (is_record b = true -> valid_budget b).
Proof.
  unfold validateBudget, asMessage. destruct (is_record b); [|done]. cbn [map concat budget_fields].
  rewrite !app_nil, !error_if_nil, !amount_spec. unfold valid_budget. split.
  - intros (H1 & H2 & H3 & H4 & _) _ n Hn. auto.
  - intros H. specialize (H eq_refl). repeat split; intros n Hn; by apply (H n Hn).
Qed.

(** A field whose absence counts as zero. *)
Lemma number_spec r camel snake :
  less (coalesce (coalesce (get r camel) (get r snake)) (JNum (NInt 0))) 0 = false <->
  forall v, reads r camel snake v -> ~ below v 0.
Proof.
  change (coalesce (get r camel) (get r snake)) with (field r camel (Some snake)).
  destruct (field_cases r camel snake) as [Hr | [Hn Hno]]; unfold coalesce.
  - pose proof (proj2 (field_reads r camel snake _) Hr) as [_ ->]. rewrite less_spec. split; [|by intros H; apply H].
    intros H v E%reads_field. by rewrite <- E.
  - rewrite Hn. split; [|done]. intros _ v Hv. by destruct (Hno v).
Qed.

Lemma either_set a b : negb (truthy a) && negb (truthy b) = false <-> truthy a = true \/ truthy b = true.
Proof. destruct (truthy a), (truthy b); cbn; naive_solver. Qed.

Lemma validateJobRequest_nil r : nullish r = false -> validateJobRequest r = [] <-> valid_request r.
Proof.
  intros Hr. unfold validateJobRequest, JOB_PRIORITY_MAX. rewrite Hr. cbn zeta.
  rewrite !app_nil, !error_if_nil, either_set, negb_false_iff, number_spec, validateBudget_nil, orb_false_iff.
  assert ((less (coalesce (get r "priority") (JNum (NInt 0))) 0 = false /\
           greater (coalesce (get r "priority") (JNum (NInt 0))) 3 = false) <->
          (nullish (get r "priority") = true \/ ~ below (get r "priority") 0 /\ ~ above (get r "priority") 3)) as ->.
  { unfold coalesce. destruct (nullish (get r "priority")); [by split; [left|]|]. rewrite less_spec, greater_spec. naive_solver. }
  split; [intros (? & ? & ? & ? & ?); by split | by intros []].
Qed.

Lemma validateJobResult_nil r : nullish r = false -> validateJobResult r = [] <-> valid_result r.
Proof.
  intros Hr. unfold validateJobResult, JOB_STATUS_UNSPECIFIED. rewrite Hr. cbn zeta.
  rewrite !app_nil, !error_if_nil, !either_set, number_spec.
  assert (strict_eq (coalesce (get r "status") (JNum (NInt 0))) (JNum (NInt 0)) = false <->
          nullish (get r "status") = false /\ get r "status" <> JNum (NInt 0)) as ->.
  { unfold coalesce. destruct (get r "status") as [| |b|[z|q|b|]|s|b|z|l|own inh]; cbn; try naive_solver.
    rewrite Z.eqb_neq. naive_solver. }
  split; [intros (? & ? & ? & ?); by split | by intros []].
Qed.

(** With a sender, the identity of a payload is the sender when it names it. *)
Lemma identityError_nil packet p i path :
  (exists s, s <> [] /\ reads packet "senderId" "sender_id" (JStr s)) ->
  identityError packet p i path = [] <->
  let payload := field packet p (Some (snakeName p)) in
  is_record payload = true -> names_sender packet payload i (snakeName i).
Proof.
  intros (s & Hs & Hr). unfold identityError, asMessage. cbn zeta. set (payload := field packet p _).
  pose proof (proj2 (text_is packet "senderId" "sender_id" s Hs) Hr) as ->.
  destruct (is_record payload); [|done]. case_bool_decide as E; split; try done.
  - intros _ _. exists s. split; [done|]. split; [done|]. by apply text_is.
  - intros H. destruct (H eq_refl) as (s' & Hs' & Hr' & Hn). destruct E. apply text_is; [done|].
    apply reads_field in Hr, Hr'. rewrite Hr in Hr'. by injection Hr' as <-.
Qed.

Lemma field_same m k : field m k (Some k) = get m k \/ nullish (get m k) = true /\ nullish (field m k (Some k)) = true.
Proof. unfold field, coalesce. destruct (nullish (get m k)) eqn:E; [by right | by left]. Qed.

(** A payload that has one name only. *)
Lemma identity_single packet p i path :
  (exists s, s <> [] /\ reads packet "senderId" "sender_id" (JStr s)) -> snakeName p = p ->
  identityError packet p i path = [] <-> (is_record (get packet p) = true -> names_sender packet (get packet p) i (snakeName i)).
Proof.
  intros Hs Hp. rewrite identityError_nil by done. cbn zeta. rewrite Hp.
  destruct (field_same packet p) as [-> | [Hn Hn']]; [done|].
  split; intros _ Hr; [by destruct (get packet p) | by destruct (field packet p (Some p))].
Qed.

Lemma truthy_reads m camel snake :
  truthy (field m camel (Some snake)) = true <-> exists v, reads m camel snake v /\ truthy v = true.
Proof.
  split.
  - intros H. eexists. split; [|exact H]. apply field_reads. split; [done|]. by destruct (field m camel (Some snake)).
  - intros (v & ->%reads_field & H). done.
Qed.

Lemma field_none m k : truthy (field m k None) = truthy (get m k).
Proof. unfold field, coalesce. by destruct (get m k). Qed.

Lemma alert_nil msg :
  (exists s, s <> [] /\ reads msg "senderId" "sender_id" (JStr s)) ->
  alertIdentityError msg = [] <-> (is_record (get msg "alert") = true -> structured_alert (get msg "alert") ->
    names_sender msg (get msg "alert") "sourceComponent" "source_component").
Proof.
  intros Hs. unfold alertIdentityError, asMessage.
  assert (is_record (field msg "alert" None) = is_record (get msg "alert")) as Ha
    by (unfold field, coalesce; by destruct (get msg "alert")). rewrite Ha.
  destruct (is_record (get msg "alert")) eqn:Hr; [|done]. cbn zeta.
  assert (field msg "alert" None = get msg "alert") as -> by (unfold field, coalesce; by destruct (get msg "alert")).
  set (a := get msg "alert") in *. set (details := if is_record (field a "details" None) then _ else _).
  assert (match details with Some d => has_keys d | None => false end = true <->
          is_record (get a "details") = true /\ has_keys (get a "details") = true) as Hd.
  { subst details. unfold field, coalesce. destruct (get a "details"); cbn; naive_solver. }
  set (signal := _ || _). assert (signal = true <-> structured_alert a) as Hsig.
  { subst signal. unfold structured_alert.
    rewrite !orb_true_iff, !field_none, !truthy_reads, Hd, !negb_true_iff, text_set, !orb_false_iff. tauto. }
  pose proof (identity_single msg "alert" "sourceComponent" "alert.source_component" Hs eq_refl) as Hid. fold a in Hid.
  destruct signal.
  - rewrite Hid. split; [intros H _ _; by apply H | intros H _; apply H; [done|]; by apply Hsig].
  - split; [|done]. intros _ _ Hst. by apply Hsig in Hst.
Qed.

Lemma payload_present msg :
  payloadPresent msg = true <-> exists camel snake v, In (camel, snake) payload_members /\ reads msg camel snake v.
Proof.
  unfold payloadPresent. rewrite existsb_exists. setoid_rewrite negb_true_iff. split.
  - intros (name & Hin & Hn).
    assert (exists camel snake, In (camel, snake) payload_members /\ (name = camel \/ name = snake)) as (camel & snake & Hm & Hc).
    { cbn in Hin. repeat destruct Hin as [<- | Hin]; try done; eexists _, _; cbn; eauto 20. }
    exists camel, snake. destruct (field_cases msg camel snake) as [Hr | [_ Hno]]; [by eexists|]. exfalso.
    destruct (nullish (get msg camel)) eqn:Ec; [|by apply (Hno (get msg camel)), reads_camel].
    destruct Hc as [-> | ->]; [congruence | by apply (Hno (get msg snake)), reads_snake].
  - intros (camel & snake & v & Hm & [E Hv | _ E Hv]); [exists camel | exists snake]; rewrite E; (split; [|done]);
      cbn in Hm; repeat destruct Hm as [[= <- <-] | Hm]; cbn; tauto.
Qed.

Lemma validateBusPacket_nil msg : validateBusPacket msg = [] <-> valid_packet msg.
Proof.
  unfold validateBusPacket, asMessage, validateNestedIdentity, SUPPORTED_PROTOCOL_VERSION.
  destruct (is_record msg) eqn:Hr; cbn zeta iota; [|split; [done | intros []; congruence]].
  rewrite !app_nil, !error_if_nil, !text_set, reads_set, !negb_false_iff, payload_present.
  assert (strict_eq (field msg "protocolVersion" (Some "protocol_version"%string)) (JNum (NInt 1)) = true <->
          reads msg "protocolVersion" "protocol_version" (JNum (NInt 1))) as ->.
  { split; [|by intros ->%reads_field]. intros H. apply field_reads. split; [|done].
    destruct (field _ _ _) as [| | |[z| | |]| | | | |]; try done. cbn in H. by apply Z.eqb_eq in H as ->. }
  assert ((if negb (nullish (field msg "jobRequest" (Some "job_request"%string)))
           then validateJobRequest (field msg "jobRequest" (Some "job_request"%string)) else []) = [] <->
          forall r, reads msg "jobRequest" "job_request" r -> valid_request r) as ->.
  { destruct (field_cases msg "jobRequest" "job_request") as [Hq | [-> Hno]]; [|split; [intros _ r Hq; by destruct (Hno r) | done]].
    pose proof (proj2 (field_reads _ _ _ _) Hq) as [_ Hn]. rewrite Hn. cbn [negb]. rewrite validateJobRequest_nil by done.
    split; [|intros H; by apply H]. intros H r <-%reads_field. done. }
  split.
  - intros (Ht & Hs & Hv & Hc & Hp & Hq & Hres & Hw & Hh & Hk & Ha). rewrite identityError_nil in Hw by done.
    rewrite identity_single in Hh, Hk by done. rewrite alert_nil in Ha by done. split; try done.
    intros r Hrd. pose proof (reads_field _ _ _ _ Hrd) as E. pose proof (proj2 (field_reads _ _ _ _) Hrd) as [_ Hn].
    rewrite E, Hn in Hres. cbn [negb] in Hres. split; [by apply validateJobResult_nil|]. cbn zeta in Hw.
    change (snakeName "jobResult") with "job_result"%string in Hw. by rewrite E in Hw.
  - intros [_ Ht Hs Hv Hc Hp Hq Hres Hh Hk Ha]. do 6 (split; [done|]). split.
    { destruct (field_cases msg "jobResult" "job_result") as [Hrd | [-> _]]; [|done].
      pose proof (proj2 (field_reads _ _ _ _) Hrd) as [_ Hn]. rewrite Hn. cbn [negb]. apply validateJobResult_nil; [done|].
      by apply Hres. }
    rewrite identityError_nil by done. rewrite !identity_single by done. rewrite alert_nil by done. repeat split; try done.
    cbn zeta. change (snakeName "jobResult") with "job_result"%string.
    destruct (field_cases msg "jobResult" "job_result") as [Hrd | [Hn _]]; [by apply Hres|]. intros Hrec.
    by destruct (field _ _ _).
Qed.


Example validateBusPacket_samples :
  let packet extra := JPlain ([(js "traceId", JStr (js "t")); (js "senderId", JStr (js "w1"));
    (js "protocolVersion", JNum (NInt 1)); (js "createdAt", JPlain [])] ++ extra) in
  map (fun e => map ve_field (validateBusPacket (packet e)))
    [[]; [(js "heartbeat", JPlain [(js "workerId", JStr (js "w1"))])];
     [(js "heartbeat", JPlain [(js "workerId", JStr (js "w2"))])];
     [(js "jobRequest", JPlain [(js "jobId", JStr (js "j")); (js "topic", JStr (js "job.x"));
                                (js "priority", JNum (NInt 4))])]]
  = [["payload"]; []; ["heartbeat.worker_id"]; ["priority"]]%string.
Proof. vm_compute. reflexivity. Qed.
