(* ===== verification/ProductionIdentity.v ===== *)
(** * Identity binding

    production-validation.ts: the identity fields a job request repeats must
    agree with the identity the packet was authenticated for. *)

From S2P Require Import Prelude JsString JsValue.

Definition sameIdentity (a b : jsval) : bool :=
  if negb (truthy a) || negb (truthy b) then false
  else
    strict_eq (get a "tenantId") (get b "tenantId") &&
    strict_eq (get a "principalId") (get b "principalId") &&
    strict_eq (get a "actorId") (get b "actorId") &&
    strict_eq (get a "delegationId") (get b "delegationId").

(** The repeated fields, in the order [Object.entries] yields them. *)
Definition mirrors (request : jsval) : list (jsstr * jsval) :=
  [(js "tenant", get request "tenantId");
   (js "principal", get request "principalId");
   (js "meta.tenant", get (get request "meta") "tenantId");
   (js "meta.actor", get (get request "meta") "actorId");
   (js "env.tenant", get (get request "env") "tenant_id");
   (js "env.principal", get (get request "env") "principal_id")].

Definition check_mirror (authoritative : jsval) (mirror : jsstr * jsval) : result unit :=
  let '(name, actual) := mirror in
  if negb (truthy actual) then Ok tt
  else
    let expected :=
      if includes (js "actor") name then get authoritative "actorId"
      else if includes (js "principal") name then get authoritative "principalId"
      else get authoritative "tenantId" in
    throw_if (negb (strict_eq actual expected)) IdentityMismatchError (name ++ js " mismatch").

Definition validateIdentityBinding (request authoritative : jsval) : result unit :=
  do! throw_if (negb (truthy request) || negb (truthy authoritative) ||
                negb (truthy (get authoritative "tenantId")))
        IdentityMismatchError (js "missing request or authoritative identity") ;;
  do! iter_result (check_mirror authoritative) (mirrors request) ;;
  throw_if (truthy (get request "identity") &&
            negb (sameIdentity (get request "identity") authoritative))
    IdentityMismatchError (js "request.identity mismatch").

(** ** What a bound request satisfies *)

(** A field that is set has the expected value. *)
Definition agrees (actual expected : jsval) : Prop :=
  truthy actual = true -> strict_eq actual expected = true.

Record identity_bound (request auth : jsval) : Prop := {
  ib_present : truthy request = true /\ truthy auth = true /\ truthy (get auth "tenantId") = true;
  ib_tenant : agrees (get request "tenantId") (get auth "tenantId");
  ib_principal : agrees (get request "principalId") (get auth "principalId");
  ib_meta_tenant : agrees (get (get request "meta") "tenantId") (get auth "tenantId");
  ib_meta_actor : agrees (get (get request "meta") "actorId") (get auth "actorId");
  ib_env_tenant : agrees (get (get request "env") "tenant_id") (get auth "tenantId");
  ib_env_principal : agrees (get (get request "env") "principal_id") (get auth "principalId");
  ib_identity : truthy (get request "identity") = true ->
    forall k, In k ["tenantId"; "principalId"; "actorId"; "delegationId"]%string ->
    strict_eq (get (get request "identity") k) (get auth k) = true;
}.

Lemma check_mirror_iff auth name actual :
  check_mirror auth (name, actual) = Ok tt <->
  agrees actual (if includes (js "actor") name then get auth "actorId"
                 else if includes (js "principal") name then get auth "principalId"
                 else get auth "tenantId").
Proof.
  unfold check_mirror, agrees. destruct (truthy actual); cbn [negb]; [|naive_solver].
  rewrite throw_if_Ok_iff, negb_false_iff. naive_solver.
Qed.

Lemma sameIdentity_iff a b :
  truthy a = true -> truthy b = true ->
  sameIdentity a b = true <->
  forall k, In k ["tenantId"; "principalId"; "actorId"; "delegationId"]%string ->
    strict_eq (get a k) (get b k) = true.
Proof.
  unfold sameIdentity. intros -> ->. cbn [negb orb]. rewrite !andb_true_iff. cbn [In].
  split.
  - intros (((? & ?) & ?) & ?) k Hk. destruct Hk as [<-|[<-|[<-|[<-|[]]]]]; done.
  - intros H. repeat split; apply H; tauto.
Qed.

Lemma identity_binding_iff request auth :
  validateIdentityBinding request auth = Ok tt <-> identity_bound request auth.
Proof.
  unfold validateIdentityBinding, mirrors.
  rewrite !do_Ok_iff, !throw_if_Ok_iff, iter_result_Ok_iff, !Forall_cons, Forall_nil, !check_mirror_iff.
  rewrite !orb_false_iff, !negb_false_iff, andb_false_iff, negb_false_iff.
  assert (truthy (get request "identity") = false \/ truthy (get request "identity") = true) as Hd
    by (destruct (truthy _); auto).
  split.
  - intros (((Hr & Ha) & Ht) & (H1 & H2 & H3 & H4 & H5 & H6 & _) & Hid).
    split; auto. intros Hi. destruct Hid as [Hid|Hid]; [congruence|].
    by apply sameIdentity_iff.
  - intros [(Hr & Ha & Ht) H1 H2 H3 H4 H5 H6 Hid]. split; [done|]. split; [repeat split; done|].
    destruct Hd as [Hd|Hd]; [by left|]. right. apply sameIdentity_iff; auto.
Qed.

(** [validateIdentityBinding] returns exactly when the authoritative
    identity has a tenant and every identity field the request repeats (top
    level, metadata, environment, nested identity) is unset or equal to the
    authoritative one: tenant against tenant, principal against principal,
    actor against actor. *)
Theorem validateIdentityBinding_iff request auth :
  validateIdentityBinding request auth = Ok tt <-> identity_bound request auth.
Proof. apply identity_binding_iff. Qed.

Example binding_samples :
  let auth := JPlain [(js "tenantId", JStr (js "t")); (js "actorId", JStr (js "a"))] in
  map (fun r => is_ok (validateIdentityBinding (JPlain r) auth))
    [[(js "tenantId", JStr (js "t"))];
     [(js "tenantId", JStr (js "u"))];
     [(js "meta", JPlain [(js "actorId", JStr (js "a"))])];
     [(js "env", JPlain [(js "principal_id", JStr (js "p"))])]]
  = [true; false; true; false].
Proof. vm_compute. reflexivity. Qed.
