(* ===== verification/ProductionReplay.v ===== *)
(** * Replay admission

    production-replay.ts: the [ReplayStore] interface, as a class with the laws
    its clients rely on, and [InMemoryReplayStore], proved to refine a store
    keyed by the admission tuple and to satisfy the laws. *)

From S2P Require Import Prelude JsString.

Inductive ReplayOutcome : Set := First | Duplicate.

#[global] Instance replay_outcome_eq_dec : EqDecision ReplayOutcome.
Proof. solve_decision. Defined.

(** The arguments of [admit].  The expiry is the integer number of
    milliseconds that verification computes. *)
Record admission : Set := {
  ad_tenant : jsstr;
  ad_audience : jsstr;
  ad_sender : jsstr;
  ad_messageId : bytes;
  ad_digest : bytes;
  ad_expiresAtMs : Z;
}.

(** What identifies a message. *)
Definition ad_key (a : admission) : jsstr * jsstr * jsstr * bytes :=
  (ad_tenant a, ad_audience a, ad_sender a, ad_messageId a).

(** ** The interface *)

(** A store is given by the operator: what [admit] returns is one of the
    outcomes, or another value. *)
Inductive store_answer : Set := Known (outcome : ReplayOutcome) | OtherValue.

(** [admit_message] at clock [now]: its answer, and the store after it. *)
Class ReplayStore (S : Type) : Type :=
  admit_message : S -> Z -> admission -> result store_answer * S.

(** What admission control relies on: [remembers s k d e] says that the store
    holds a record of message [k] with digest [d] that is live before [e]. *)
Class ReplayStoreLaws (S : Type) `{ReplayStore S} : Type := {
  remembers : S -> jsstr * jsstr * jsstr * bytes -> bytes -> Z -> Prop;
  first_remembered : forall s now a s',
    admit_message s now a = (Ok (Known First), s') -> remembers s' (ad_key a) (ad_digest a) (ad_expiresAtMs a);
  remembered_stays : forall s k d e now b,
    remembers s k d e -> now < e -> remembers (admit_message s now b).2 k d e;
  remembered_not_first : forall s k d e now b,
    remembers s k d e -> now < e -> ad_key b = k -> (admit_message s now b).1 <> Ok (Known First);
}.

(** ** InMemoryReplayStore *)

Record Entry : Set := { digest : bytes; expiresAtMs : Z }.

Fixpoint bytesEqual (a b : bytes) : bool :=
  match a, b with
  | [], [] => true
  | x :: a', y :: b' => (x =? y) && bytesEqual a' b'
  | _, _ => false
  end.

Abbreviation entries_map := (gmap jsstr Entry).

Record InMemoryReplayStore : Set := { entries : entries_map }.

Definition replay_key (a : admission) : jsstr :=
  json_strings [ad_tenant a; ad_audience a; ad_sender a; to_hex (ad_messageId a)].

Definition invalid_admission (a : admission) : bool :=
  str_empty (ad_tenant a) || str_empty (ad_audience a) || str_empty (ad_sender a) ||
  negb (zlen (ad_messageId a) =? 16) || (zlen (ad_digest a) =? 0).

(** The entries that survive the sweep at [now]. *)
Definition sweep (now : Z) (m : entries_map) : entries_map :=
  filter (fun kv => ~ expiresAtMs kv.2 <= now) m.

#[global] Instance in_memory_admit : ReplayStore InMemoryReplayStore := fun store now a =>
  if invalid_admission a then
    (throw ReplayStoreUnavailableError (js "invalid replay admission input"), store)
  else if ad_expiresAtMs a <=? now then
    (throw ReplayStoreUnavailableError (js "expiresAtMs must be in the future"), store)
  else
    let key := replay_key a in
    let live := sweep now (entries store) in
    let fresh := (Ok (Known First), {| entries :=
      <[key := {| digest := ad_digest a; expiresAtMs := ad_expiresAtMs a |}]> live |}) in
    match live !! key with
    | Some existing =>
        if now <? expiresAtMs existing then
          if bytesEqual (digest existing) (ad_digest a) then (Ok (Known Duplicate), {| entries := live |})
          else (throw ReplayConflictError
                  (js "replay digest conflict for message_id=" ++ to_hex (ad_messageId a)), {| entries := live |})
        else fresh
    | None => fresh
    end.

(** ** Lemmas *)

Lemma bytesEqual_iff a b : bytesEqual a b = true <-> a = b.
Proof.
  revert b. induction a as [|x a IH]; intros [|y b]; cbn; try naive_solver.
  rewrite andb_true_iff, Z.eqb_eq, IH. naive_solver.
Qed.

Lemma sweep_lookup (now : Z) (m : entries_map) (k : jsstr) (e : Entry) :
  sweep now m !! k = Some e <-> m !! k = Some e /\ now < expiresAtMs e.
Proof.
  unfold sweep. rewrite map_lookup_filter_Some. cbn.
  split; intros [? ?]; split; try done; lia.
Qed.

(** Arguments that come from decoded text and bytes. *)
Record wf_admission (a : admission) : Prop := {
  wa_tenant : wf_str (ad_tenant a);
  wa_audience : wf_str (ad_audience a);
  wa_sender : wf_str (ad_sender a);
  wa_messageId : Forall is_byte (ad_messageId a);
}.

Lemma replay_key_inj a b :
  wf_admission a -> wf_admission b -> replay_key a = replay_key b -> ad_key a = ad_key b.
Proof.
  intros [? ? ? ?] [? ? ? ?] Hk. unfold replay_key in Hk. apply json_strings_inj in Hk as [= ? ? ? Hh].
  - apply to_hex_inj in Hh; [|done..]. unfold ad_key. congruence.
  - repeat constructor; auto using to_hex_wf.
  - repeat constructor; auto using to_hex_wf.
  - done.
Qed.

Lemma replay_key_of_ad_key a b : ad_key a = ad_key b -> replay_key a = replay_key b.
Proof. unfold ad_key, replay_key. by intros [= -> -> -> ->]. Qed.

(** ** The abstract store *)

Module Spec.

(** A record per message, keyed by the tuple itself. *)
Abbreviation store := (gmap (jsstr * jsstr * jsstr * bytes) Entry).

Definition live (now : Z) (s : store) k : option Entry :=
  match s !! k with
  | Some e => if now <? expiresAtMs e then Some e else None
  | None => None
  end.

(** A valid admission of a message with no live record is first and recorded;
    with a live record it is a duplicate or a conflict. *)
Definition spec_admit (s : store) (now : Z) (a : admission) : result store_answer * store :=
  if invalid_admission a then
    (throw ReplayStoreUnavailableError (js "invalid replay admission input"), s)
  else if ad_expiresAtMs a <=? now then
    (throw ReplayStoreUnavailableError (js "expiresAtMs must be in the future"), s)
  else match live now s (ad_key a) with
  | None => (Ok (Known First), <[ad_key a := {| digest := ad_digest a; expiresAtMs := ad_expiresAtMs a |}]> s)
  | Some e =>
      if bool_decide (digest e = ad_digest a) then (Ok (Known Duplicate), s)
      else (throw ReplayConflictError
              (js "replay digest conflict for message_id=" ++ to_hex (ad_messageId a)), s)
  end.

(** The two stores agree at [now] on every message; records only the abstract
    store still holds are expired. *)
Definition simulates (now : Z) (c : InMemoryReplayStore) (s : store) : Prop :=
  forall a, wf_admission a ->
    forall e, entries c !! replay_key a = Some e /\ now < expiresAtMs e <->
              s !! ad_key a = Some e /\ now < expiresAtMs e.
End Spec.

#[global] Instance spec_store_admit : ReplayStore Spec.store := Spec.spec_admit.

(** ** Traces of calls *)

(** The outcomes of a sequence of calls, each with its clock, and the store
    after them. *)
Fixpoint replay_run {S} `{ReplayStore S} (s : S) (calls : list (Z * admission))
    : list (result store_answer) * S :=
  match calls with
  | [] => ([], s)
  | (now, a) :: calls' =>
      let '(r, s') := admit_message s now a in
      let '(rs, s'') := replay_run s' calls' in (r :: rs, s'')
  end.

(** The clock does not go back. *)
Fixpoint clocked (from : Z) (calls : list (Z * admission)) : Prop :=
  match calls with
  | [] => True
  | (now, _) :: calls' => from <= now /\ clocked now calls'
  end.

Section Simulation.
Import Spec.

Lemma simulates_later now now' c s : now <= now' -> simulates now c s -> simulates now' c s.
Proof.
  intros Hle Hsim a Ha e. pose proof (Hsim a Ha e).
  split; intros [He Hl]; (split; [|done]); assert (now < expiresAtMs e) by lia; tauto.
Qed.

Lemma simulates_sweep now c s :
  simulates now c s -> simulates now {| entries := sweep now (entries c) |} s.
Proof.
  intros Hsim a Ha e. cbn [entries]. rewrite sweep_lookup, <- (Hsim a Ha e). tauto.
Qed.

Lemma simulates_insert now c s a e :
  wf_admission a -> simulates now c s ->
  simulates now {| entries := <[replay_key a := e]> (entries c) |} (<[ad_key a := e]> s).
Proof.
  intros Ha Hsim b Hb e'. cbn [entries].
  destruct (decide (ad_key a = ad_key b)) as [E|E].
  - rewrite (replay_key_of_ad_key a b E), E, !lookup_insert_eq. tauto.
  - rewrite !lookup_insert_ne by (try done; intros E'; by apply E, replay_key_inj). by apply Hsim.
Qed.

Lemma simulates_live now c s a :
  simulates now c s -> wf_admission a -> sweep now (entries c) !! replay_key a = live now s (ad_key a).
Proof.
  intros Hsim Ha. apply option_eq. intros e. rewrite sweep_lookup, (Hsim a Ha e). unfold live.
  destruct (s !! ad_key a) as [e'|]; [|naive_solver].
  destruct (Z.ltb_spec now (expiresAtMs e')); naive_solver lia.
Qed.

Lemma admit_simulates now c s a :
  simulates now c s -> wf_admission a ->
  (admit_message c now a).1 = (spec_admit s now a).1 /\
  simulates now (admit_message c now a).2 (spec_admit s now a).2.
Proof.
  intros Hsim Ha. unfold admit_message, in_memory_admit, spec_admit.
  destruct (invalid_admission a); [done|]. destruct (_ <=? _); [done|]. cbn zeta.
  rewrite (simulates_live now c s a Hsim Ha).
  pose proof (simulates_sweep now c s Hsim) as Hsw.
  destruct (live now s (ad_key a)) as [e|] eqn:Hl.
  - replace (now <? expiresAtMs e) with true; cycle 1.
    { unfold live in Hl. destruct (s !! ad_key a) as [e'|]; [|done].
      destruct (now <? expiresAtMs e') eqn:?; congruence. }
    destruct (bytesEqual (digest e) (ad_digest a)) eqn:Hb.
    + apply bytesEqual_iff in Hb. by rewrite bool_decide_true.
    + rewrite bool_decide_false; [done|]. intros Hd%bytesEqual_iff. congruence.
  - split; [done|]. apply (simulates_insert now {| entries := sweep now (entries c) |}); done.
Qed.

Lemma run_simulates from c s calls :
  simulates from c s -> Forall (fun x => wf_admission x.2) calls -> clocked from calls ->
  (replay_run c calls).1 = (replay_run s calls).1.
Proof.
  intros Hsim Hwf. revert from c s Hsim. induction Hwf as [|[now a] calls Ha Hwf IH];
    intros from c s Hsim Hc; [done|]. cbn in Ha, Hc |- *. destruct Hc as [Hle Hc].
  apply (simulates_later _ now) in Hsim; [|done].
  destruct (admit_simulates now c s a Hsim Ha) as [Hr Hsim']. unfold admit_message at 2, spec_store_admit.
  destruct (admit_message c now a) as [r c'], (spec_admit s now a) as [r' s'].
  cbn in Hr, Hsim'. specialize (IH now c' s' Hsim' Hc).
  destruct (replay_run c' calls), (replay_run s' calls). cbn in *. congruence.
Qed.
End Simulation.

Definition empty_store : InMemoryReplayStore := {| entries := ∅ |}.

(** C6. [InMemoryReplayStore] behaves as a store keyed by the admission tuple
    (tenant, audience, sender, message id): over any sequence of calls with a
    clock that does not go back, each call has the outcome the abstract store
    gives.  The JSON key never confuses two messages, and sweeping expired
    entries is not observable. *)
Theorem in_memory_refines from calls :
  Forall (fun x => wf_admission x.2) calls -> clocked from calls ->
  (replay_run empty_store calls).1 = (replay_run (∅ : Spec.store) calls).1.
Proof.
  apply run_simulates. intros a _ e. cbn. rewrite !lookup_empty. naive_solver.
Qed.

(** The in-memory store keeps its promises to admission control. *)
#[global] Instance in_memory_laws : ReplayStoreLaws InMemoryReplayStore.
Proof.
  refine {| remembers := fun s k d e =>
    forall a, ad_key a = k -> entries s !! replay_key a = Some {| digest := d; expiresAtMs := e |} |}.
  - intros s now a s'. unfold admit_message, in_memory_admit. cbn zeta. intros H.
    repeat case_match; try done; injection H as <-; intros b Hb%replay_key_of_ad_key; cbn [entries];
      rewrite Hb; apply lookup_insert_eq.
  - intros s k d e now b Hr Hlt a Ha. specialize (Hr a Ha).
    assert (sweep now (entries s) !! replay_key a = Some {| digest := d; expiresAtMs := e |}) as Hs
      by (by apply sweep_lookup).
    unfold admit_message, in_memory_admit. cbn zeta.
    destruct (decide (replay_key a = replay_key b)) as [E|E].
    + rewrite <- E, Hs. cbn [expiresAtMs]. rewrite (proj2 (Z.ltb_lt _ _) Hlt).
      repeat case_match; done.
    + repeat case_match; cbn [snd entries]; rewrite ?lookup_insert_ne by done; done.
  - intros s k d e now b Hr Hlt Hb. specialize (Hr b Hb).
    assert (sweep now (entries s) !! replay_key b = Some {| digest := d; expiresAtMs := e |}) as Hs
      by (by apply sweep_lookup).
    unfold admit_message, in_memory_admit. cbn zeta. rewrite Hs. cbn [expiresAtMs].
    rewrite (proj2 (Z.ltb_lt _ _) Hlt). repeat case_match; done.
Defined.

(** A store that does not admit what has expired by its own clock. *)
Definition refuses_expired (S : Type) `{ReplayStore S} : Prop :=
  forall (s : S) now a, ad_expiresAtMs a <= now -> (admit_message s now a).1 <> Ok (Known First).

Lemma in_memory_refuses_expired : refuses_expired InMemoryReplayStore.
Proof.
  intros s now a He. unfold admit_message, in_memory_admit. destruct (invalid_admission a); [done|].
  by rewrite (proj2 (Z.leb_le _ _) He).
Qed.

Section AtMostOnce.
Context {S : Type} `{ReplayStoreLaws S}.

Lemma replay_run_remembers (s : S) k d e calls :
  remembers s k d e -> Forall (fun x => x.1 < e) calls -> remembers (replay_run s calls).2 k d e.
Proof.
  intros Hr Hc. revert s Hr. induction Hc as [|[now a] calls Hlt Hc IH]; intros s Hr; [done|].
  cbn. pose proof (remembered_stays s k d e now a Hr Hlt) as Hs.
  destruct (admit_message s now a) as [r s']. cbn in Hs. specialize (IH s' Hs).
  by destruct (replay_run s' calls).
Qed.

(** Over any store that keeps the laws of the interface, a message admitted
    as first is not admitted as first again before its expiry, whatever is
    admitted in between. *)
Theorem replay_at_most_once (s s1 : S) now a between now' b :
  admit_message s now a = (Ok (Known First), s1) -> ad_key b = ad_key a ->
  Forall (fun x => x.1 < ad_expiresAtMs a) between -> now' < ad_expiresAtMs a ->
  (admit_message (replay_run s1 between).2 now' b).1 <> Ok (Known First).
Proof.
  intros Ha Hb Hc Hlt. apply first_remembered in Ha.
  eapply remembered_not_first; [by apply replay_run_remembers | done | done].
Qed.
End AtMostOnce.

Definition sample_admission : admission := {|
  ad_tenant := js "t"; ad_audience := js "a"; ad_sender := js "s";
  ad_messageId := repeat 9 16; ad_digest := [1; 2]; ad_expiresAtMs := 5000 |}.

Definition sample_conflict : admission := {|
  ad_tenant := js "t"; ad_audience := js "a"; ad_sender := js "s";
  ad_messageId := repeat 9 16; ad_digest := [3]; ad_expiresAtMs := 9000 |}.

Definition sample_calls : list (Z * admission) :=
  [(1000, sample_admission); (2000, sample_admission); (4999, sample_conflict); (5000, sample_conflict)].

Lemma in_memory_refines_witness :
  (replay_run empty_store sample_calls).1 = (replay_run (∅ : Spec.store) sample_calls).1 /\
  map is_ok (replay_run empty_store sample_calls).1 = [true; true; false; true].
Proof.
  split; [|vm_compute; reflexivity].
  apply (in_memory_refines 0 sample_calls); [|cbn; lia].
  repeat constructor; cbn; unfold is_unit; lia.
Defined.

Lemma replay_at_most_once_witness :
  (admit_message (replay_run (admit_message empty_store 1000 sample_admission).2 [(2000, sample_conflict)]).2
     4000 sample_admission).1 <> Ok (Known First).
Proof.
  apply (replay_at_most_once empty_store _ 1000 sample_admission); [vm_compute; reflexivity | reflexivity | | ].
  - repeat constructor.
  - reflexivity.
Defined.
