(* ===== verification/ProductionResource.v ===== *)
(** * Resource references

    production-resource.ts: validation of [ResourceRef] and of the legacy
    Redis pointers.  Regular expressions are predicates on code units; the URI
    check is proved to accept exactly a grammar of normalized URIs. *)

From S2P Require Import Prelude JsString JsValue.

Definition MAX_RESOURCE_IDENTIFIER_BYTES : Z := 128.
Definition MAX_RESOURCE_AUTHORITY_BYTES : Z := 255.
Definition MAX_RESOURCE_URI_BYTES : Z := 2048.
Definition MAX_RESOURCE_MEDIA_TYPE_BYTES : Z := 127.
Definition MAX_RESOURCE_PURPOSE_BYTES : Z := 128.
Definition MAX_RESOURCE_SIZE_BYTES : Z := 1073741824.
Definition MAX_LEGACY_REDIS_KEY_BYTES : Z := 1024.

(** [number | string | bigint | { toString(): string }]; for the last, the
    text, or [None] when [toString] throws or returns something else. *)
Inductive ResourceInteger : Set :=
| RNumber (n : jsnum)
| RString (s : jsstr)
| RBigInt (z : Z)
| RObject (text : option jsstr).

Record ResourceTimestampInput : Set := {
  seconds : option ResourceInteger;
  nanos : option ResourceInteger;
}.

Record ResourceRefInput : Type := {
  resolverId : option jsstr;
  uri : option jsstr;
  sha256 : jsval;
  mediaType : option jsstr;
  sizeBytes : option ResourceInteger;
  expiresAt : option ResourceTimestampInput;
  purpose : option jsstr;
}.

Definition resource_error {A} (message : jsstr) : result A :=
  throw ResourceRefValidationError (js "invalid production resource reference: " ++ message).

Definition reject_if (b : bool) (message : string) : result unit :=
  if b then resource_error (js message) else Ok tt.

(** ** Character classes and patterns *)

Definition is_lower (c : Z) : bool := between 97 122 c.
Definition is_upper (c : Z) : bool := between 65 90 c.
Definition lower_alnum (c : Z) : bool := is_lower c || is_digit c.
Definition one_of (s : string) (c : Z) : bool := zmem c (js s).

Definition ID_PATTERN : jsstr -> bool := pattern lower_alnum (fun c => lower_alnum c || one_of "._-" c).
Definition PURPOSE_PATTERN : jsstr -> bool :=
  pattern lower_alnum (fun c => lower_alnum c || one_of "._:-" c).

(** The two halves of a media type; no class contains the slash, so the
    pattern holds when there are exactly two. *)
Definition MEDIA_PATTERN (s : jsstr) : bool :=
  let half := pattern lower_alnum (fun c => lower_alnum c || one_of "!#$&^_.+-" c) in
  match split_on 47 s with [a; b] => half a && half b | _ => false end.

Fixpoint span (p : Z -> bool) (s : jsstr) : jsstr * jsstr :=
  match s with
  | c :: s' => if p c then let '(a, b) := span p s' in (c :: a, b) else ([], s)
  | [] => ([], [])
  end.

Definition scheme_char (c : Z) : bool := lower_alnum c || one_of "+.-" c.

(** A unit the dot of a pattern does not match. *)
Definition line_terminator (c : Z) : bool := zmem c [10; 13; 0x2028; 0x2029].

(** [URI_PATTERN.exec(uri)]: the scheme and the rest.  The scheme class has no
    colon, so only the longest run of it can be followed by one. *)
Definition URI_PATTERN (s : jsstr) : option (jsstr * jsstr) :=
  let '(scheme, rest) := span scheme_char s in
  match rest with
  | 58 :: 47 :: 47 :: ((_ :: _) as body) =>
      if pattern is_lower scheme_char scheme && (zlen scheme <=? 32) &&
         forallb (fun c => negb (line_terminator c)) body
      then Some (scheme, body) else None
  | _ => None
  end.

Definition legacy_first (c : Z) : bool := is_upper c || is_lower c || is_digit c.
Definition LEGACY_KEY_PATTERN : jsstr -> bool :=
  pattern legacy_first (fun c => legacy_first c || one_of ":._@-[]" c).

(** ** Integers *)

Definition parseInteger (value : option ResourceInteger) (label : string) : result Z :=
  let from_text text :=
    if negb (canonical_decimal text) then resource_error (js label ++ js " is not canonical")
    else Ok (bigint_of text) in
  match value with
  | None => resource_error (js label ++ js " is missing")
  | Some (RNumber n) =>
      match n with
      | NInt z => if is_safe_integer (NInt z) then Ok z
                  else resource_error (js label ++ js " must be a safe integer")
      | _ => resource_error (js label ++ js " must be a safe integer")
      end
  | Some (RString s) => from_text s
  | Some (RBigInt z) => from_text (decimal_text z)
  | Some (RObject (Some s)) => from_text s
  | Some (RObject None) => resource_error (js label ++ js " cannot be read")
  end.

(** ** Validation *)

Definition validIdentifier (value : option jsstr) (limit : Z) (pat : jsstr -> bool) : bool :=
  match value with
  | None => false
  | Some s => (0 <? zlen s) && (zlen (utf8 s) <=? limit) && trimmed s && pat s
  end.

Definition validateInstalledResolvers (installed : list jsstr) : result unit :=
  reject_if ((zlen installed =? 0) ||
             existsb (fun v => negb (validIdentifier (Some v) MAX_RESOURCE_IDENTIFIER_BYTES ID_PATTERN)) installed)
    "resolver configuration is empty or noncanonical".

Definition validateIdentifiers (ref : ResourceRefInput) (installed : list jsstr) : result unit :=
  do! reject_if (negb (validIdentifier (resolverId ref) MAX_RESOURCE_IDENTIFIER_BYTES ID_PATTERN))
        "resolver ID is not canonical" ;;
  do! reject_if (negb (existsb (fun v => bool_decide (resolverId ref = Some v)) installed))
        "resolver is not installed" ;;
  do! reject_if (negb (validIdentifier (mediaType ref) MAX_RESOURCE_MEDIA_TYPE_BYTES MEDIA_PATTERN))
        "media type is not canonical" ;;
  reject_if (negb (validIdentifier (purpose ref) MAX_RESOURCE_PURPOSE_BYTES PURPOSE_PATTERN))
    "purpose is not canonical".

Definition isPrintableAscii (value : jsstr) : bool :=
  forallb (fun byte => negb ((byte <? 0x21) || (0x7e <? byte))) (utf8 value).

Definition validatePath (authorityAndPath : jsstr) : result unit :=
  let slash := index_of 47 authorityAndPath in
  let authority := if slash <? 0 then authorityAndPath else slice authorityAndPath 0 slash in
  do! reject_if (str_empty authority || (MAX_RESOURCE_AUTHORITY_BYTES <? zlen authority))
        "resource URI authority is empty or too long" ;;
  if slash <? 0 then Ok tt
  else
    let segments := split_on 47 (drop (Z.to_nat (slash + 1)) authorityAndPath) in
    reject_if (existsb (fun segment => str_empty segment || bool_decide (segment = js ".") ||
                                       includes (js "..") segment) segments)
      "resource URI path is not normalized".

Definition validateUri (uri : jsstr) : result unit :=
  do! reject_if (str_empty uri || (MAX_RESOURCE_URI_BYTES <? zlen (utf8 uri)) || negb (trimmed uri))
        "resource URI is empty, untrimmed, or too long" ;;
  do! reject_if (negb (isPrintableAscii uri)) "resource URI must contain printable ASCII only" ;;
  match URI_PATTERN uri with
  | None => resource_error (js "resource URI scheme is not canonical")
  | Some (_, authorityAndPath) =>
      do! reject_if (existsb (one_of "@?#\%") authorityAndPath)
            "resource URI contains credentials, metadata, or escapes" ;;
      validatePath authorityAndPath
  end.

(** [now] is [now.getTime()], [None] when it is NaN. *)
Definition validateExpiry (expiresAt : option ResourceTimestampInput) (now : option Z) : result unit :=
  match expiresAt, now with
  | Some t, Some nowMs =>
      let! seconds := parseInteger (seconds t) "expiry seconds" in
      let! nanos := parseInteger (Some (default (RNumber (NInt 0)) (nanos t))) "expiry nanos" in
      do! reject_if ((seconds <? -62135596800) || (253402300799 <? seconds) ||
                     (nanos <? 0) || (1000000000 <=? nanos))
            "resource expiry timestamp is invalid" ;;
      reject_if (seconds * 1000000000 + nanos <=? nowMs * 1000000) "resource reference is expired"
  | _, _ => resource_error (js "resource expiry is required and validation time must be valid")
  end.

(** [None] is a reference that is null or not an object. *)
Definition validateResourceRef (ref : option ResourceRefInput) (installedResolvers : list jsstr)
    (now : option Z) : result unit :=
  match ref with
  | None => resource_error (js "missing reference")
  | Some ref =>
      do! validateInstalledResolvers installedResolvers ;;
      do! validateIdentifiers ref installedResolvers ;;
      do! reject_if (match sha256 ref with JBytes b => negb (zlen b =? 32) | _ => true end)
            "SHA-256 must contain exactly 32 bytes" ;;
      let! size := parseInteger (sizeBytes ref) "declared size" in
      do! reject_if ((size <=? 0) || (MAX_RESOURCE_SIZE_BYTES <? size))
            "declared size is outside production bounds" ;;
      do! validateUri (default [] (uri ref)) ;;
      validateExpiry (expiresAt ref) now
  end.

(** ** Legacy pointers *)

Definition canonicalLegacyRedisKey (pointer : jsstr) : result bytes :=
  do! reject_if (negb (trimmed pointer) ||
                 (zlen (js "redis://") + MAX_LEGACY_REDIS_KEY_BYTES <? zlen (utf8 pointer)))
        "legacy Redis pointer is untrimmed or too long" ;;
  do! reject_if (negb (starts_with (js "redis://") pointer))
        "legacy Redis pointer has the wrong scheme" ;;
  let key := drop (length (js "redis://")) pointer in
  let at_ := index_of 64 key in
  let colon := index_of 58 key in
  let hasUserinfo := (0 <=? at_) && ((colon <? 0) || (at_ <? colon)) in
  do! reject_if (negb (LEGACY_KEY_PATTERN key) || includes (js "..") key || hasUserinfo)
        "legacy Redis key is empty or ambiguous" ;;
  Ok (map (fun c => Z.land c 255) key).

Definition validateResourceRefCompatibility (legacyPointer : jsstr) (ref : option ResourceRefInput)
    : result unit :=
  match ref with
  | None => Ok tt
  | Some ref =>
      if str_empty legacyPointer then Ok tt
      else
        do! reject_if (negb (bool_decide (resolverId ref = Some (js "redis"))))
              "legacy Redis pointer uses a different resolver" ;;
        let! legacyKey := canonicalLegacyRedisKey legacyPointer in
        let! structuredKey := try_catch (canonicalLegacyRedisKey (default [] (uri ref)))
          (fun _ => resource_error (js "legacy structured URI is ambiguous")) in
        reject_if (negb (bool_decide (legacyKey = structuredKey)))
          "legacy and structured references differ"
  end.

(** ** The grammar of accepted URIs *)

(** A unit of an authority or of a path segment. *)
Definition uri_char (c : Z) : bool := printable c && negb (one_of "@?#\%" c) && negb (c =? 47).

Definition segment_ok (s : jsstr) : Prop := s <> [] /\ s <> js "." /\ includes (js "..") s = false.

(** [scheme://authority/segment/...] in normal form. *)
Inductive normalized_uri : jsstr -> Prop :=
| normalized_uri_intro scheme authority segments :
    pattern is_lower scheme_char scheme = true -> zlen scheme <= 32 ->
    authority <> [] -> zlen authority <= 255 ->
    Forall segment_ok segments ->
    Forall (fun part => forallb uri_char part = true) (authority :: segments) ->
    zlen (scheme ++ js "://" ++ join [47] (authority :: segments)) <= 2048 ->
    normalized_uri (scheme ++ js "://" ++ join [47] (authority :: segments)).

Section UriLemmas.
Implicit Types s : jsstr.

Lemma span_spec p s a b :
  span p s = (a, b) <->
  s = a ++ b /\ forallb p a = true /\ match b with c :: _ => p c = false | [] => True end.
Proof.
  revert a b. induction s as [|c s IH]; intros a b; cbn.
  - split; [by intros [= <- <-]|]. intros (H & _ & _). by destruct a, b.
  - destruct (p c) eqn:Hc.
    + destruct (span p s) as [a' b'] eqn:Hs. split.
      * intros [= <- <-]. destruct (proj1 (IH a' b') eq_refl) as (-> & Ha & Hb). cbn. by rewrite Hc.
      * intros (H & Ha & Hb). destruct a as [|x a]; cbn in *.
        { subst b. congruence. }
        injection H as <- ->. rewrite Hc in Ha. cbn in Ha.
        by injection (proj2 (IH a b) (conj eq_refl (conj Ha Hb))) as -> ->.
    + split; [by intros [= <- <-]|]. intros (H & Ha & Hb). destruct a as [|x a]; cbn in *; [congruence|].
      injection H as <- ->. by rewrite Hc in Ha.
Qed.

Lemma scheme_char_class s : pattern is_lower scheme_char s = true -> forallb scheme_char s = true.
Proof.
  destruct s as [|c s]; cbn; [done|]. rewrite !andb_true_iff. intros [Hc Hs]. split; [|done].
  unfold scheme_char, lower_alnum. by rewrite Hc.
Qed.

Lemma URI_PATTERN_iff s scheme body :
  URI_PATTERN s = Some (scheme, body) <->
  s = scheme ++ js "://" ++ body /\ pattern is_lower scheme_char scheme = true /\
  zlen scheme <= 32 /\ body <> [] /\ forallb (fun c => negb (line_terminator c)) body = true.
Proof.
  unfold URI_PATTERN. destruct (span scheme_char s) as [a b] eqn:Hs. split.
  - apply span_spec in Hs as (-> & Ha & Hb). 
    repeat case_match; try done. intros [= <- <-].
    match goal with H : _ && _ = true |- _ => rewrite !andb_true_iff, Z.leb_le in H end.
    naive_solver.
  - intros (-> & Hp & Hl & Hne & Hlt).
    assert (span scheme_char (scheme ++ js "://" ++ body) = (scheme, js "://" ++ body)) as Hsp.
    { apply span_spec. split; [done|]. split; [by apply scheme_char_class | done]. }
    rewrite Hsp in Hs. injection Hs as <- <-. destruct body as [|c body]; [done|].
    change (js "://" ++ c :: body) with (58 :: 47 :: 47 :: c :: body). cbv iota.
    rewrite Hp, Hlt, (proj2 (Z.leb_le _ _) Hl). done.
Qed.

Lemma reject_if_iff b m : reject_if b m = Ok tt <-> b = false.
Proof. destruct b; done. Qed.

Lemma segment_ok_iff s :
  str_empty s || bool_decide (s = js ".") || includes (js "..") s = false <-> segment_ok s.
Proof.
  unfold segment_ok. rewrite !orb_false_iff, bool_decide_eq_false. destruct s; cbn; naive_solver.
Qed.

(** [validatePath] splits at the slashes. *)
Lemma validatePath_iff s :
  validatePath s = Ok tt <->
  exists authority segments, split_on 47 s = authority :: segments /\
    authority <> [] /\ zlen authority <= 255 /\ Forall segment_ok segments.
Proof.
  unfold validatePath, MAX_RESOURCE_AUTHORITY_BYTES. cbn zeta. rewrite do_Ok_iff, reject_if_iff.
  assert (forall a, str_empty a || (255 <? zlen a) = false <-> a <> [] /\ zlen a <= 255) as Ha.
  { intros a. rewrite orb_false_iff, Z.ltb_ge. destruct a; cbn; naive_solver. }
  destruct (index_of_spec 47 s) as [[-> Hni]|(a & b & -> & Hni & ->)].
  - cbn [Z.ltb Z.compare]. rewrite Ha, split_on_absent by done.
    split; [intros [? _]; exists s, []; naive_solver|]. intros (? & ? & [= <- <-] & ? & ? & _). done.
  - pose proof (zlen_nonneg a). destruct (Z.ltb_spec (zlen a) 0); [lia|].
    pose proof (slice_app_mid [] a (47 :: b)) as Hsl. cbn [app] in Hsl.
    rewrite zlen_nil, Z.add_0_l in Hsl. rewrite Hsl, Ha, reject_if_iff, split_on_cons by done.
    replace (drop (Z.to_nat (zlen a + 1)) (a ++ 47 :: b)) with b; cycle 1.
    { unfold zlen. replace (Z.to_nat _) with (length (a ++ [47])) by (rewrite length_app; cbn; lia).
      change (47 :: b) with ([47] ++ b). by rewrite app_assoc, drop_app_length. }
    assert (existsb (fun seg => str_empty seg || bool_decide (seg = js ".") || includes (js "..") seg)
              (split_on 47 b) = false <-> Forall segment_ok (split_on 47 b)) as ->.
    { rewrite <- not_true_iff_false, existsb_exists, Forall_forall. split.
      - intros Hne x Hx%list_elem_of_In. apply segment_ok_iff, not_true_iff_false. eauto.
      - intros Hok (x & Hx%list_elem_of_In & Hb). apply Hok, segment_ok_iff in Hx. congruence. }
    split; [intros [[? ?] ?]; exists a, (split_on 47 b); naive_solver|].
    intros (? & ? & [= <- <-] & ? & ? & ?). done.
Qed.
End UriLemmas.

(** ** Claims on URIs *)

Lemma uri_chars_iff parts :
  Forall (fun seg => ~ In 47 seg) parts ->
  forallb (fun c => printable c && negb (one_of "@?#\%" c)) (join [47] parts) = true <->
  Forall (fun part => forallb uri_char part = true) parts.
Proof.
  intros Hns. rewrite forallb_join by done. rewrite forallb_forall, Forall_forall.
  rewrite Forall_forall in Hns. setoid_rewrite list_elem_of_In. setoid_rewrite list_elem_of_In in Hns.
  split; intros H part Hp; specialize (H part Hp); rewrite forallb_forall in *; intros c Hc;
    specialize (H c Hc); unfold uri_char in *; rewrite !andb_true_iff in *; [|tauto].
  split; [tauto|]. apply negb_true_iff, Z.eqb_neq. intros ->. by apply (Hns part).
Qed.

Lemma isPrintableAscii_iff s : isPrintableAscii s = forallb printable s.
Proof.
  unfold isPrintableAscii. rewrite <- (proj1 (utf8_printable s)).
  induction (utf8 s) as [|b l IH]; cbn [forallb]; [done|]. rewrite IH. f_equal.
  unfold printable. rewrite negb_orb, !Z.ltb_antisym, !negb_involutive. done.
Qed.

Lemma scheme_printable s : pattern is_lower scheme_char s = true -> forallb printable s = true.
Proof.
  intros Hs%scheme_char_class. rewrite forallb_forall in *. intros c Hc%Hs. revert Hc.
  unfold scheme_char, lower_alnum, is_lower, between, is_digit, one_of, zmem, printable. cbn [existsb js].
  change (existsb (Z.eqb c) (js "+.-")) with ((c =? 43) || ((c =? 46) || ((c =? 45) || false))).
  rewrite !orb_true_iff, !andb_true_iff, !Z.leb_le, !Z.eqb_eq. lia.
Qed.

Lemma printable_no_terminator c : printable c = true -> negb (line_terminator c) = true.
Proof.
  unfold printable, line_terminator, zmem. cbn [existsb]. rewrite andb_true_iff, !Z.leb_le.
  intros Hc. apply negb_true_iff. rewrite !orb_false_iff, !Z.eqb_neq. lia.
Qed.

Lemma validateUri_sound s : validateUri s = Ok tt -> normalized_uri s.
Proof.
  unfold validateUri. rewrite !do_Ok_iff, !reject_if_iff, !orb_false_iff, !negb_false_iff.
  rewrite isPrintableAscii_iff. unfold MAX_RESOURCE_URI_BYTES.
  intros (((_ & Hlen) & _) & Hpr & H). rewrite (proj2 (utf8_printable s) Hpr) in Hlen.
  destruct (URI_PATTERN s) as [[scheme body]|] eqn:Hu; [|done].
  apply URI_PATTERN_iff in Hu as (-> & Hp & Hl & _ & _).
  rewrite do_Ok_iff, reject_if_iff, validatePath_iff in H.
  destruct H as (Hx & authority & segments & Hs & Ha & Hal & Hseg).
  pose proof (split_on_segments 47 body) as Hns. rewrite Hs in Hns.
  rewrite <- (join_split_on 47 body), Hs in Hlen, Hpr, Hx |- *.
  apply Z.ltb_ge in Hlen. constructor; try done. apply uri_chars_iff; [done|].
  rewrite !forallb_app, !andb_true_iff in Hpr. destruct Hpr as (_ & _ & Hpr).
  rewrite forallb_forall in *. intros c Hc. rewrite (Hpr c Hc). cbn [andb].
  apply negb_true_iff, not_true_iff_false. intros Hone. apply not_true_iff_false in Hx.
  apply Hx, existsb_exists. eauto.
Qed.

Lemma validateUri_complete s : normalized_uri s -> validateUri s = Ok tt.
Proof.
  intros [scheme authority segments Hp Hl Ha Hal Hseg Hch Hlen].
  set (body := join [47] (authority :: segments)) in *.
  assert (Forall (fun seg => ~ In 47 seg) (authority :: segments)) as Hns.
  { eapply Forall_impl; [exact Hch|]. cbn. intros part Hpart Hin. rewrite forallb_forall in Hpart.
    apply Hpart in Hin. done. }
  assert (split_on 47 body = authority :: segments) as Hsp by (by apply split_on_join).
  apply uri_chars_iff in Hch; [|done]. fold body in Hch.
  assert (forallb printable body = true) as Hpb.
  { rewrite forallb_forall in *. intros c Hc%Hch. by apply andb_true_iff in Hc as [? _]. }
  assert (forallb printable (scheme ++ js "://" ++ body) = true) as Hpr.
  { rewrite !forallb_app, Hpb, scheme_printable by done. done. }
  unfold validateUri. rewrite !do_Ok_iff, !reject_if_iff, !orb_false_iff, !negb_false_iff.
  rewrite isPrintableAscii_iff, (proj2 (utf8_printable _) Hpr), printable_trimmed, Z.ltb_ge by done.
  split; [split; [split|]; try done; by destruct scheme|]. split; [done|].
  rewrite (proj2 (URI_PATTERN_iff _ scheme body)).
  - rewrite do_Ok_iff, reject_if_iff, validatePath_iff. split; [|by exists authority, segments].
    apply not_true_iff_false. intros (c & Hc & Hone)%existsb_exists. rewrite forallb_forall in Hch.
    apply Hch in Hc. rewrite Hone, andb_false_r in Hc. done.
  - repeat split; try done.
    + intros E. apply (f_equal (split_on 47)) in E. rewrite Hsp in E. by injection E.
    + rewrite forallb_forall in *. intros c Hc%Hpb. by apply printable_no_terminator.
Qed.

(** [validateUri] accepts exactly the normalized URIs: a lower-case scheme
    of at most 32 characters, a non-empty authority of at most 255, and path
    segments that are non-empty, not a dot and without two dots in a row, all
    in printable ASCII without credentials, query, fragment, backslash or
    percent escapes, in at most 2048 characters. *)
Theorem validateUri_iff s : validateUri s = Ok tt <-> normalized_uri s.
Proof. split; [apply validateUri_sound | apply validateUri_complete]. Qed.

(** [parseInteger] reads text exactly as JavaScript prints integers: a
    string, or the text of an object, is read as [z] when it is the decimal
    text of [z] (no leading zero, no plus sign, no blank) or [-0] for zero; in
    particular a bigint is read back as itself. *)
Theorem parseInteger_text s label z :
  parseInteger (Some (RString s)) label = Ok z <-> s = decimal_text z \/ (s = js "-0" /\ z = 0).
Proof.
  rewrite <- parse_text_iff. cbn [parseInteger].
  destruct (canonical_decimal s); cbn [negb]; [|naive_solver].
  split; [by intros [= <-] | by intros [_ <-]].
Qed.

Lemma parseInteger_bigint z label : parseInteger (Some (RBigInt z)) label = Ok z.
Proof.
  cbn [parseInteger]. destruct (proj2 (parse_text_iff (decimal_text z) z) (or_introl eq_refl)) as [-> ->].
  done.
Qed.

(** ** Legacy pointers *)

(** A key that cannot be read as having user information or a parent path. *)
Record legacy_key (key : jsstr) : Prop := {
  lk_pattern : LEGACY_KEY_PATTERN key = true;
  lk_length : zlen key <= 1024;
  lk_no_parent : includes (js "..") key = false;
  lk_no_userinfo : forall a b, key = a ++ 64 :: b -> In 58 a;
}.

Lemma legacy_printable key : LEGACY_KEY_PATTERN key = true -> forallb printable key = true.
Proof.
  assert (forall c, legacy_first c || one_of ":._@-[]" c = true -> printable c = true) as Hc.
  { intros c. unfold legacy_first, is_upper, is_lower, is_digit, between, one_of, zmem, printable.
    rewrite !orb_true_iff, !andb_true_iff, existsb_exists, !Z.leb_le.
    intros [?|(x & Hx & ->%Z.eqb_eq)]; [lia|]. cbn in Hx. lia. }
  unfold LEGACY_KEY_PATTERN, pattern. destruct key as [|c key]; [done|].
  rewrite andb_true_iff. intros [Hf Hr]. cbn [forallb]. apply andb_true_iff. split.
  - apply Hc. by rewrite Hf.
  - rewrite forallb_forall in *. auto.
Qed.

Lemma znth_In {A} (l : list A) i x : znth l i = Some x -> In x l.
Proof.
  unfold znth. destruct (i <? 0); [done|]. intros H%list_elem_of_lookup_2. by apply list_elem_of_In.
Qed.

Lemma znth_at (a : jsstr) x b : znth (a ++ x :: b) (zlen a) = Some x.
Proof. rewrite znth_app_r by lia. by rewrite Z.sub_diag. Qed.

(** An occurrence of one unit before another. *)
Lemma occurs_before (x y : Z) a b c d :
  a ++ x :: b = c ++ y :: d -> zlen c < zlen a -> In y a.
Proof.
  intros E Hlt. apply (znth_In _ (zlen c)). rewrite <- (znth_app_l a (x :: b)) by lia.
  rewrite E. apply znth_at.
Qed.

Lemma hasUserinfo_iff key :
  (0 <=? index_of 64 key) && ((index_of 58 key <? 0) || (index_of 64 key <? index_of 58 key)) = false <->
  forall a b, key = a ++ 64 :: b -> In 58 a.
Proof.
  destruct (index_of_spec 64 key) as [[-> Hna]|(a & b & Ha & Hna & ->)].
  - split; [|done]. intros _ a b ->. destruct Hna. apply in_or_app. cbn. tauto.
  - pose proof (zlen_nonneg a). rewrite (proj2 (Z.leb_le 0 (zlen a))) by done. cbn [andb].
    destruct (index_of_spec 58 key) as [[-> Hnc]|(c & d & Hc & Hnc & ->)].
    + split; [done|]. intros H58. destruct Hnc. rewrite Ha. apply in_or_app. left. by apply (H58 a b).
    + pose proof (zlen_nonneg c). rewrite (proj2 (Z.ltb_ge (zlen c) 0)) by done. cbn [orb].
      rewrite Z.ltb_ge. split.
      * intros Hle a' b' Ha'. destruct (Z.lt_ge_cases (zlen c) (zlen a')) as [Hlt|Hge].
        { eapply (occurs_before 64 58 a' b' c d); [congruence | done]. }
        destruct (Z.eq_dec (zlen a') (zlen c)) as [Heq|Hne].
        { exfalso. pose proof (znth_at a' 64 b') as E1. pose proof (znth_at c 58 d) as E2.
          rewrite <- Ha', Heq, Hc in E1. congruence. }
        exfalso. apply Hna, (occurs_before 64 64 a b a' b'); [congruence | lia].
      * intros H58. specialize (H58 a b Ha). destruct (Z.le_gt_cases (zlen c) (zlen a)); [done|].
        exfalso. apply Hnc. apply in_split in H58 as (l1 & l2 & ->).
        apply (occurs_before 58 58 c d l1 (l2 ++ 64 :: b)).
        { rewrite <- Hc, Ha, <- app_assoc. done. }
        autorewrite with zlen in *. pose proof (zlen_nonneg l2). lia.
Qed.

Lemma land_255_printable s : forallb printable s = true -> map (fun c => Z.land c 255) s = s.
Proof.
  induction s as [|c s IH]; cbn [forallb map]; [done|]. intros [Hc Hs]%andb_true_iff.
  rewrite (IH Hs). f_equal. unfold printable in Hc. rewrite andb_true_iff, !Z.leb_le in Hc.
  change 255 with (Z.ones 8). rewrite Z.land_ones by lia. apply Z.mod_small. lia.
Qed.

Lemma canonicalLegacyRedisKey_iff pointer key :
  canonicalLegacyRedisKey pointer = Ok key <-> pointer = js "redis://" ++ key /\ legacy_key key.
Proof.
  unfold canonicalLegacyRedisKey, MAX_LEGACY_REDIS_KEY_BYTES. cbn zeta.
  rewrite !do_Ok_iff, !reject_if_iff, !orb_false_iff, !negb_false_iff, hasUserinfo_iff, Z.ltb_ge, starts_with_iff.
  split.
  - intros ((_ & Hlen) & (t & ->) & (((Hp & Hd) & Hu) & [= <-])).
    change (drop _ (js "redis://" ++ t)) with (drop 0 t) in *. rewrite drop_0 in *.
    pose proof (legacy_printable t Hp) as Hpr. rewrite land_255_printable by done. split; [done|]. split; try done.
    rewrite (proj2 (utf8_printable (js "redis://" ++ t))) in Hlen by (by rewrite forallb_app, Hpr).
    autorewrite with zlen in Hlen. lia.
  - intros (-> & [Hp Hl Hd Hu]). pose proof (legacy_printable key Hp) as Hpr.
    assert (forallb printable (js "redis://" ++ key) = true) as Hpa by (by rewrite forallb_app, Hpr).
    rewrite drop_app_length, land_255_printable, (proj2 (utf8_printable _) Hpa) by done.
    autorewrite with zlen. split; [split; [by apply printable_trimmed | lia]|].
    split; [eauto|]. done.
Qed.

(** When a request carries both a legacy pointer and a structured
    reference, compatibility holds exactly when the resolver is [redis] and the
    two are the same canonical pointer: no two different texts are taken for
    the same resource. *)
Theorem resourceRefCompatibility_iff pointer ref :
  validateResourceRefCompatibility pointer ref = Ok tt <->
  pointer = [] \/ ref = None \/
  exists r key, ref = Some r /\ resolverId r = Some (js "redis") /\
    legacy_key key /\ pointer = js "redis://" ++ key /\ uri r = Some pointer.
Proof.
  unfold validateResourceRefCompatibility. destruct ref as [r|]; [|naive_solver].
  destruct (str_empty pointer) eqn:He; [destruct pointer; naive_solver|].
  rewrite do_Ok_iff, reject_if_iff, negb_false_iff, bool_decide_eq_true, bind_Ok_iff. split.
  - intros (Hr & k & Hk & H). right; right. apply bind_Ok_iff in H as (k' & Hk' & H).
    apply try_catch_throw_Ok_iff in Hk'. apply reject_if_iff, negb_false_iff, bool_decide_eq_true in H as <-.
    apply canonicalLegacyRedisKey_iff in Hk as [-> Hk], Hk' as [Hu _].
    exists r, k. split; [done|]. split; [done|]. split; [done|]. split; [done|].
    destruct (uri r) as [u|]; [exact (f_equal Some Hu) | discriminate Hu].
  - intros [->|[[=]|(r' & key & [= <-] & Hr & Hk & -> & Hu)]]; [done|]. split; [done|].
    exists key. rewrite Hu.
    change (default [] (Some (js "redis://" ++ key))) with (js "redis://" ++ key).
    assert (canonicalLegacyRedisKey (js "redis://" ++ key) = Ok key) as Hok
      by (by apply canonicalLegacyRedisKey_iff).
    rewrite Hok. split; [done|]. cbn [try_catch mbind result_bind]. by rewrite bool_decide_true.
Qed.

(** ** References *)

(** An expiry timestamp after the clock. *)
Definition expires_after (t : ResourceTimestampInput) (nowMs : Z) : Prop :=
  exists s n, parseInteger (seconds t) "expiry seconds" = Ok s /\
    parseInteger (Some (default (RNumber (NInt 0)) (nanos t))) "expiry nanos" = Ok n /\
    -62135596800 <= s <= 253402300799 /\ 0 <= n < 1000000000 /\
    nowMs * 1000000 < s * 1000000000 + n.

Record valid_ref (ref : ResourceRefInput) (installed : list jsstr) (nowMs : Z) : Prop := {
  vr_installed : installed <> [] /\
    forall v, In v installed -> validIdentifier (Some v) 128 ID_PATTERN = true;
  vr_resolver : exists r, resolverId ref = Some r /\ In r installed;
  vr_media : validIdentifier (mediaType ref) 127 MEDIA_PATTERN = true;
  vr_purpose : validIdentifier (purpose ref) 128 PURPOSE_PATTERN = true;
  vr_sha256 : exists b, sha256 ref = JBytes b /\ zlen b = 32;
  vr_size : exists n, parseInteger (sizeBytes ref) "declared size" = Ok n /\ 0 < n <= 2 ^ 30;
  vr_uri : exists u, uri ref = Some u /\ normalized_uri u;
  vr_expiry : exists t, expiresAt ref = Some t /\ expires_after t nowMs;
}.

Lemma validateExpiry_iff e nowMs :
  validateExpiry e (Some nowMs) = Ok tt <-> exists t, e = Some t /\ expires_after t nowMs.
Proof.
  unfold validateExpiry, expires_after. destruct e as [t|]; [|naive_solver]. rewrite bind_Ok_iff.
  setoid_rewrite bind_Ok_iff. setoid_rewrite do_Ok_iff. setoid_rewrite reject_if_iff. split.
  - intros (s & Hs & n & Hn & Hb & He). exists t. split; [done|]. exists s, n.
    rewrite !orb_false_iff, !Z.ltb_ge, Z.leb_gt in Hb. apply Z.leb_gt in He. repeat split; done || lia.
  - intros (? & [= <-] & s & n & Hs & Hn & Hsb & Hnb & He). exists s. split; [done|].
    exists n. split; [done|]. rewrite !orb_false_iff, !Z.ltb_ge, !Z.leb_gt. lia.
Qed.

Lemma validateInstalled_iff installed :
  validateInstalledResolvers installed = Ok tt <->
  installed <> [] /\ forall v, In v installed -> validIdentifier (Some v) 128 ID_PATTERN = true.
Proof.
  unfold validateInstalledResolvers, MAX_RESOURCE_IDENTIFIER_BYTES.
  rewrite reject_if_iff, orb_false_iff, Z.eqb_neq. split; intros [Hne Hv]; split.
  - by intros ->.
  - intros v Hin. destruct (validIdentifier _ _ _) eqn:E; [done|].
    apply not_true_iff_false in Hv. destruct Hv. apply existsb_exists. exists v. by rewrite E.
  - intros H%zlen_0_inv. done.
  - apply not_true_iff_false. intros (v & Hin & Hb)%existsb_exists. by rewrite (Hv v Hin) in Hb.
Qed.

Lemma validateIdentifiers_iff ref installed :
  (forall v, In v installed -> validIdentifier (Some v) 128 ID_PATTERN = true) ->
  validateIdentifiers ref installed = Ok tt <->
  (exists r, resolverId ref = Some r /\ In r installed) /\
  validIdentifier (mediaType ref) 127 MEDIA_PATTERN = true /\
  validIdentifier (purpose ref) 128 PURPOSE_PATTERN = true.
Proof.
  intros Hinst. unfold validateIdentifiers, MAX_RESOURCE_IDENTIFIER_BYTES,
    MAX_RESOURCE_MEDIA_TYPE_BYTES, MAX_RESOURCE_PURPOSE_BYTES.
  rewrite !do_Ok_iff, !reject_if_iff, !negb_false_iff, existsb_exists.
  setoid_rewrite bool_decide_eq_true. split.
  - intros (_ & (r & ? & ?) & ? & ?). repeat split; try done. eauto.
  - intros ((r & Hr & Hin) & ? & ?). rewrite Hr. repeat split; try done; [by apply Hinst | eauto].
Qed.

(** [validateResourceRef] accepts a reference exactly when the resolver
    configuration is canonical and names its resolver, its media type and
    purpose are canonical, its digest is 32 bytes, its declared size is
    positive and at most 1 GiB, its URI is normalized and it expires after the
    validation time. *)
Theorem validateResourceRef_iff ref installed nowMs :
  validateResourceRef (Some ref) installed (Some nowMs) = Ok tt <-> valid_ref ref installed nowMs.
Proof.
  unfold validateResourceRef. rewrite !do_Ok_iff, validateInstalled_iff, reject_if_iff.
  unfold MAX_RESOURCE_SIZE_BYTES. split.
  - intros (Hi & Hid & Hsha & H). apply bind_Ok_iff in H as (n & Hn & H).
    rewrite !do_Ok_iff, reject_if_iff in H. destruct H as (Hb & Hu & He).
    apply validateIdentifiers_iff in Hid as (? & ? & ?); [|apply Hi].
    apply validateUri_sound in Hu. apply validateExpiry_iff in He.
    rewrite orb_false_iff, Z.leb_gt, Z.ltb_ge in Hb. split; try done.
    + destruct (sha256 ref); try done. apply negb_false_iff, Z.eqb_eq in Hsha. eauto.
    + exists n. split; [done | lia].
    + destruct (uri ref) as [u|]; [by eauto|]. exfalso. inversion Hu as [[|] ? ? Hp]; done.
  - intros [Hi Hr Hm Hp (b & Hb & Hlen) (n & Hn & Hsz) (u & Hu & Hnu) He]. split; [done|].
    split; [apply validateIdentifiers_iff; [apply Hi | done]|]. rewrite Hb, Hlen. split; [done|].
    apply bind_Ok_iff. exists n. split; [done|].
    rewrite !do_Ok_iff, reject_if_iff, orb_false_iff, Z.leb_gt, Z.ltb_ge.
    split; [lia|]. rewrite Hu. split; [by apply validateUri_complete | by apply validateExpiry_iff].
Qed.

Definition sample_ref : ResourceRefInput := {|
  resolverId := Some (js "redis"); uri := Some (js "redis://ctx/job-1");
  sha256 := JBytes (repeat 0 32); mediaType := Some (js "application/json");
  sizeBytes := Some (RString (js "42"));
  expiresAt := Some {| seconds := Some (RNumber (NInt 1700000000)); nanos := None |};
  purpose := Some (js "job:input") |}.

Example validateResourceRef_samples :
  validateResourceRef (Some sample_ref) [js "redis"] (Some 1600000000000) = Ok tt /\
  is_ok (validateResourceRef (Some sample_ref) [js "s3"] (Some 1600000000000)) = false /\
  is_ok (validateResourceRef (Some sample_ref) [js "redis"] (Some 1700000000000)) = false /\
  map (fun u => is_ok (validateUri (js u)))
    ["s3://bucket/a/b"; "s3://bucket/a//b"; "s3://u@bucket/a"; "s3://bucket/../a"; "S3://bucket"; "s3://"]
    = [true; false; false; false; false; false].
Proof. vm_compute. done. Qed.
