(* ===== verification/ProductionProducer.v ===== *)
(** * Signing of production packets

    production-signing-producer.ts: the closed-input check, the packet checks,
    the exact bytes that are signed and the place of the signature field.  The
    protobuf type (create, verify, encode) and the private-key operations are
    parameters.  What is signed is what verification extracts, and a signed
    packet verifies under the matching authority. *)

From S2P Require Import Prelude JsString JsValue Varint ProductionWire WireSchema ProductionSigning Validate.

(** ** The libraries *)

(** The protobufjs [Type] the producer is given. *)
Record producer_type : Type := {
  pd_schema : msg_type;
  create : jsval -> jsval;
  verify_type : jsval -> option jsstr;
  encode : jsval -> result bytes;
}.

(** Private keys: [key_input] is [crypto.KeyLike], [as_key] is the key object
    it is or imports to. *)
Record key_crypto : Type := {
  key_input : Type;
  private_key : Type;
  as_key : key_input -> result private_key;
  key_type : private_key -> jsstr;
  key_algorithm : private_key -> jsstr;
  key_curve : private_key -> option jsstr;
  sign : private_key -> bytes -> bytes;
}.

(** ** Closed input *)

Definition isRecord (v : jsval) : bool :=
  match v with JObj _ _ | JLong _ => true | _ => false end.

(** Names every object inherits from [Object.prototype]. *)
Definition object_prototype_names : list string :=
  ["constructor"; "__defineGetter__"; "__defineSetter__"; "hasOwnProperty";
   "__lookupGetter__"; "__lookupSetter__"; "isPrototypeOf"; "propertyIsEnumerable";
   "toString"; "valueOf"; "__proto__"; "toLocaleString"]%string.

(** [messageType.fields[key]]: a declared field, a value inherited by the plain
    object [fields], or undefined. *)
Inductive field_lookup : Type :=
| Declared (f : WireSchema.field)
| InheritedName
| Unknown.

Definition lookup_name (messageType : msg_type) (key : jsstr) : field_lookup :=
  match List.find (fun f => bool_decide (js (f_name f) = key)) (mt_fields messageType) with
  | Some f => Declared f
  | None => if existsb (fun n => bool_decide (js n = key)) object_prototype_names
            then InheritedName else Unknown
  end.

Definition invalid_packet {A} : result A := wire_error "invalid production packet".

(** A number or boolean under a message-typed field. *)
Definition closed_leaf (f : WireSchema.field) : result unit :=
  match WireSchema.resolvedMessageType f with Some _ => invalid_packet | None => Ok tt end.

(** [assertClosedInput], with [assertClosedField] inlined so that the recursion
    follows the value.  The own keys of a Long are [low], [high], [unsigned]. *)
Fixpoint assertClosedInput (value : jsval) (messageType : msg_type) {struct value} : result unit :=
  match value with
  | JObj own _ =>
      iter_result (fun entry =>
        match lookup_name messageType entry.1 with
        | Unknown => wire_error "unknown production packet field"
        | InheritedName => Ok tt
        | Declared f =>
            match WireSchema.resolvedMessageType f with
            | None => Ok tt
            | Some nestedType =>
                if nullish entry.2 then Ok tt
                else if f_map f then
                  match entry.2 with
                  | JObj entries _ => iter_result (fun e => assertClosedInput e.2 nestedType) entries
                  | JLong _ => invalid_packet
                  | _ => invalid_packet
                  end
                else if f_repeated f then
                  match entry.2 with
                  | JArr l => iter_result (fun e => assertClosedInput e nestedType) l
                  | _ => invalid_packet
                  end
                else assertClosedInput entry.2 nestedType
            end
        end) own
  | JLong _ =>
      iter_result (fun key =>
        match lookup_name messageType (js key) with
        | Unknown => wire_error "unknown production packet field"
        | InheritedName => Ok tt
        | Declared f => closed_leaf f
        end) ["low"; "high"; "unsigned"]%string
  | _ => invalid_packet
  end.

(** [assertClosedField]. *)
Definition assertClosedField (value : jsval) (f : WireSchema.field) : result unit :=
  match WireSchema.resolvedMessageType f with
  | None => Ok tt
  | Some nestedType =>
      if nullish value then Ok tt
      else if f_map f then
        match value with
        | JObj entries _ => iter_result (fun e => assertClosedInput e.2 nestedType) entries
        | _ => invalid_packet
        end
      else if f_repeated f then
        match value with
        | JArr l => iter_result (fun e => assertClosedInput e nestedType) l
        | _ => invalid_packet
        end
      else assertClosedInput value nestedType
  end.

Lemma assertClosedInput_fields own inh t :
  assertClosedInput (JObj own inh) t =
  iter_result (fun entry =>
    match lookup_name t entry.1 with
    | Unknown => wire_error "unknown production packet field"
    | InheritedName => Ok tt
    | Declared f => assertClosedField entry.2 f
    end) own.
Proof.
  cbn [assertClosedInput]. induction own as [|[k v] own IH]; [done|]. cbn [iter_result fst snd].
  rewrite IH. destruct (lookup_name t k) as [f| |]; [|done..]. unfold assertClosedField.
  destruct (WireSchema.resolvedMessageType f); [|done]. destruct (nullish v); [done|].
  destruct (f_map f); [by destruct v | by destruct (f_repeated f)].
Qed.

(** ** Packet checks *)

Definition recordField (parent : jsval) (name : string) : result jsval :=
  if negb (isRecord (get parent name)) then wire_error "invalid signature metadata"
  else Ok (get parent name).

Definition nonblank_string (v : jsval) : bool :=
  match v with JStr s => negb (str_empty (trim s)) | _ => false end.

Definition validateExpiry (timestamp : jsval) (dateNow : Z) : result unit :=
  match wire_number (get timestamp "seconds"), wire_number (get timestamp "nanos") with
  | NInt seconds, NInt nanos =>
      do! throw_if (negb (is_safe_integer (NInt seconds)) ||
                    (seconds <? -62135596800) || (253402300799 <? seconds) ||
                    negb (is_safe_integer (NInt nanos)) || (nanos <? 0) || (999999999 <? nanos))
            ProductionWireError (js "invalid signature expiry") ;;
      let expiresAt := seconds * 1000 + nanos / 1000000 in
      throw_if ((expiresAt <=? dateNow) || (dateNow + DEFAULT_PRODUCTION_MAX_LIFETIME_MS <? expiresAt))
        ProductionWireError (js "invalid signature expiry")
  | _, _ => wire_error "invalid signature expiry"
  end.

Definition validatePacket (packet : jsval) (packetType : producer_type) (dateNow : Z) : result unit :=
  do! throw_if (match verify_type packetType packet with Some (_ :: _) => true | _ => false end)
        ProductionWireError (js "invalid production packet") ;;
  do! throw_if (match validateBusPacket packet with [] => false | _ => true end)
        ProductionWireError (js "invalid production packet") ;;
  do! throw_if (negb (strict_eq (get packet "protocolVersion") (JNum (NInt 1))))
        ProductionWireError (js "invalid protocol version wire") ;;
  let! metadata := recordField packet "signatureMetadata" in
  do! throw_if
        (negb (strict_eq (get metadata "profileVersion") (JStr PRODUCTION_PROFILE_VERSION)) ||
         negb (strict_eq (get metadata "algorithm") (JStr PRODUCTION_ALGORITHM)) ||
         negb (bytes_of_length 16 (get metadata "messageId")) ||
         negb (nonblank_string (get metadata "audience")) ||
         negb (nonblank_string (get metadata "keyId")))
        ProductionWireError (js "invalid signature metadata") ;;
  let! expiresAt := recordField metadata "expiresAt" in
  validateExpiry expiresAt dateNow.

(** A length-delimited field. *)
Definition field (number : Z) (value : bytes) : bytes :=
  encodeVarint (Z.lor (Z.shiftl number 3) 2) ++ encodeVarint (zlen value) ++ value.

Section Keys.
Context (K : key_crypto).

Definition productionPrivateKey (input : key_input K) : result (private_key K) :=
  try_catch
    (let! key := as_key K input in
     let curve := key_curve K key in
     if negb (bool_decide (key_type K key = js "private")) ||
        negb (bool_decide (key_algorithm K key = js "ec")) ||
        (negb (bool_decide (curve = Some (js "prime256v1"))) &&
         negb (bool_decide (curve = Some (js "P-256"))))
     then throw PlainError (js "wrong key")
     else Ok key)
    (fun _ => wire_error "production signatures require ECDSA P-256").

Definition signExactWire (unsigned : bytes) (privateKey : key_input K) : result bytes :=
  let! key := productionPrivateKey privateKey in
  Ok (sign K key (PRODUCTION_SIGNATURE_DOMAIN ++ unsigned)).

Definition signProductionPacket (packet : jsval) (packetType : producer_type)
    (privateKey : key_input K) (dateNow : Z) : result bytes :=
  do! assertClosedInput packet (pd_schema packetType) ;;
  let clone := del "signature" (create packetType packet) in
  do! validatePacket clone packetType dateNow ;;
  let! unsigned := encode packetType clone in
  do! throw_if (MAX_PRODUCTION_RAW_BYTES <=? zlen unsigned) ProductionWireError
        (js "production packet exceeds size limit") ;;
  do! assertClosedNestedWire unsigned (pd_schema packetType) ;;
  let! signature := signExactWire unsigned privateKey in
  let raw := unsigned ++ field 14 signature in
  do! throw_if (MAX_PRODUCTION_RAW_BYTES <? zlen raw) ProductionWireError
        (js "production packet exceeds size limit") ;;
  do! (let! _ := extractProductionSignature raw in Ok tt) ;;
  Ok raw.
End Keys.

(** ** Appending the signature *)

(** A top-level field as a wire field. *)
Definition to_wfield (f : bus_field) : wfield :=
  match f with VersionField => (4, VVarint 1) | BytesField n p => (n, VBytes p) end.

Lemma encode_to_wfield fs : encode_wfields (map to_wfield fs) = encode_fields fs.
Proof.
  unfold encode_wfields, encode_fields. rewrite map_map. f_equal. apply map_ext. by intros [].
Qed.

Lemma delimited_number n : zassoc n BUS_PACKET_WIRE_TYPES = Some 2 -> 0 < n < 2 ^ 29.
Proof.
  assert (forall l : list (Z * Z), Forall (fun p => 0 < p.1 < 2 ^ 29) l -> forall w, zassoc n l = Some w -> 0 < n < 2 ^ 29) as H.
  { induction 1 as [|[k v] l Hk Hl IH]; cbn; [done|]. intros w. destruct (Z.eqb_spec n k) as [->|]; eauto. }
  apply H. repeat constructor.
Qed.

Lemma closed_bounded t nested raw :
  wf_type t -> zlen raw < 2 ^ 53 -> closed t nested raw ->
  exists ws, raw = encode_wfields ws /\ Forall wfield_bounded ws.
Proof.
  intros Hwf Hs Hc. destruct Hc as [t nested ws Hws _]. exists ws. split; [done|].
  apply Forall_forall. intros f Hin. rewrite Forall_forall in Hws. pose proof (Hws f Hin) as Hf.
  apply list_elem_of_In in Hin. destruct Hf as [t d n v Hd _ Hok _].
  split; [by apply (fieldsById_bound t n d)|]. split; [done|]. intros p Hp.
  pose proof (payload_in_encoding ws (n, v) p Hin Hp). lia.
Qed.

Lemma bus_fields_bounded fs :
  Forall bf_known fs -> zlen (encode_fields fs) < 2 ^ 53 -> Forall wfield_bounded (map to_wfield fs).
Proof.
  intros Hk Hs. rewrite <- encode_to_wfield in Hs. apply Forall_forall. intros w Hw%list_elem_of_In.
  pose proof (fun p => payload_in_encoding (map to_wfield fs) w p Hw) as Hp.
  apply in_map_iff in Hw as (f & <- & Hf%list_elem_of_In). rewrite Forall_forall in Hk.
  pose proof (Hk f Hf) as Hkf. unfold wfield_bounded. destruct f as [|n p]; cbn in *.
  - repeat split; try lia. done.
  - repeat split; try apply (delimited_number n Hkf). intros p' Hp'. specialize (Hp p' Hp'). lia.
Qed.

(** Bytes followed by a signature field, when the scan accepts them, are split
    where the producer joined them. *)
Lemma extract_appended t u sig :
  wf_type t -> closed t false u ->
  is_ok (extractProductionSignature (u ++ field 14 sig)) = true ->
  extractProductionSignature (u ++ field 14 sig) = Ok (u, sig).
Proof.
  intros Hwf Hc Hok. destruct (extractProductionSignature _) as [[u' s']| |] eqn:He; try done.
  apply extract_sound in He as (Hsize & fs & Hraw & Hsf & ->).
  assert (zlen (encode_fields fs) < 2 ^ 53) as Hsmall
    by (rewrite <- Hraw; eapply Z.le_lt_trans; [exact Hsize | done]).
  assert (zlen u + zlen (field 14 sig) < 2 ^ 53) as Hsum by (rewrite <- zlen_app, Hraw; done).
  pose proof (zlen_nonneg u). pose proof (zlen_nonneg (field 14 sig)).
  destruct (closed_bounded t false u Hwf ltac:(lia) Hc) as (ws & -> & Hws).
  assert (zlen sig <= zlen (field 14 sig)) as Hsl.
  { unfold field. rewrite !zlen_app. pose proof (zlen_nonneg (encodeVarint (zlen sig))).
    pose proof (zlen_nonneg (encodeVarint (Z.lor (14 ≪ 3) 2))). lia. }
  assert (ws ++ [(14, VBytes sig)] = map to_wfield fs) as Hfs.
  { apply encode_wfields_inj.
    - apply Forall_app. split; [done|]. constructor; [|constructor].
      split; [cbn; lia|]. split; [done|]. cbn. intros p [= <-]. lia.
    - apply bus_fields_bounded; [apply Hsf | done].
    - rewrite encode_to_wfield, <- Hraw. unfold encode_wfields. rewrite concat_map_app.
      f_equal. cbn [map concat]. by rewrite app_nil_r. }
  destruct fs as [|g fs' _] using rev_ind; [by destruct ws|].
  rewrite map_app in Hfs. cbn [map] in Hfs. apply app_inj_tail in Hfs as [-> Hg].
  destruct g as [|n p]; [done|]. cbn in Hg. injection Hg as <- <-.
  destruct Hsf as [_ Hd _ _ Hin _]. rewrite encode_to_wfield.
  rewrite map_app in Hd. cbn in Hd. apply NoDup_app in Hd as (_ & Hni & _).
  assert (Forall (fun f => is_signature_field f = false) fs') as Hns.
  { apply Forall_forall. intros f Hf. unfold is_signature_field. apply Z.eqb_neq. intros E.
    apply (Hni (bf_number f)); [by apply list_elem_of_fmap_2 | rewrite E; constructor]. }
  assert (s' = sig) as ->.
  { apply in_app_or in Hin as [Hin|[[= ->]|[]]]; [|done].
    rewrite Forall_forall in Hns. apply list_elem_of_In, Hns in Hin. done. }
  do 3 f_equal. unfold covered_fields. rewrite List.filter_app. cbn. rewrite app_nil_r.
  clear -Hns. induction Hns as [|f l Hf Hl IH]; cbn; [done|]. rewrite Hf. cbn. by rewrite IH.
Qed.

(** ** What signing returns *)

Definition p256_private (K : key_crypto) (input : key_input K) (key : private_key K) : Prop :=
  as_key K input = Ok key /\ key_type K key = js "private" /\ key_algorithm K key = js "ec" /\
  (key_curve K key = Some (js "prime256v1") \/ key_curve K key = Some (js "P-256")).

Lemma productionPrivateKey_iff K input key :
  productionPrivateKey K input = Ok key <-> p256_private K input key.
Proof.
  unfold productionPrivateKey, p256_private, wire_error. rewrite try_catch_throw_Ok_iff, bind_Ok_iff.
  split.
  - intros (k & Hk & H). cbn zeta in H. destruct (_ || _) eqn:Hb; [done|]. injection H as ->.
    rewrite !orb_false_iff, !negb_false_iff, andb_false_iff, !negb_false_iff, !bool_decide_eq_true in Hb.
    naive_solver.
  - intros (Hk & Ht & Ha & Hc). exists key. split; [done|]. cbn zeta.
    rewrite !(bool_decide_true (_ = js _)) by done. destruct Hc as [-> | ->]; done.
Qed.

(** The bytes a call to [signProductionPacket] returns, and what it checked. *)
Inductive signed_output (K : key_crypto) (P : producer_type) (packet : jsval) (input : key_input K)
    (dateNow : Z) (raw : bytes) : Prop :=
| signed_output_intro unsigned key
    (so_closed : closed (pd_schema P) false unsigned)
    (so_checked : validatePacket (del "signature" (create P packet)) P dateNow = Ok tt)
    (so_encoded : encode P (del "signature" (create P packet)) = Ok unsigned)
    (so_key : p256_private K input key)
    (so_raw : raw = unsigned ++ field 14 (sign K key (PRODUCTION_SIGNATURE_DOMAIN ++ unsigned)))
    (so_size : zlen raw <= MAX_PRODUCTION_RAW_BYTES)
    (so_extract : extractProductionSignature raw
                  = Ok (unsigned, sign K key (PRODUCTION_SIGNATURE_DOMAIN ++ unsigned))).

Lemma sign_output K P packet input dateNow raw :
  wf_type (pd_schema P) ->
  signProductionPacket K packet P input dateNow = Ok raw -> signed_output K P packet input dateNow raw.
Proof.
  intros Hwf. unfold signProductionPacket. cbn zeta.
  rewrite !do_Ok_iff. intros (_ & Hv & H).
  apply bind_Ok_iff in H as (u & Hu & H). rewrite !do_Ok_iff, throw_if_Ok_iff, Z.leb_gt in H.
  destruct H as (Hus & Hcl & H). apply bind_Ok_iff in H as (sig & Hs & H).
  unfold signExactWire in Hs. apply bind_Ok_iff in Hs as (key & Hk%productionPrivateKey_iff & [= <-]).
  rewrite !do_Ok_iff, throw_if_Ok_iff, Z.ltb_ge in H. destruct H as (Hsize & Hex & [= <-]).
  apply assertClosedNestedWire_closed in Hcl;
    [|done|eapply Z.lt_trans; [exact Hus | done]].
  econstructor; try done. apply (extract_appended (pd_schema P)); [done..|].
  by destruct (extractProductionSignature _).
Qed.

(** C18. Signing is exact: the bytes [signProductionPacket] returns are the
    encoding of the packet without its signature, followed by one signature
    field over the domain prefix and exactly those bytes, within the size
    limit; and the verifier's scan splits them at that point. *)
Theorem signProductionPacket_exact K P packet input dateNow raw :
  wf_type (pd_schema P) ->
  signProductionPacket K packet P input dateNow = Ok raw ->
  signed_output K P packet input dateNow raw.
Proof. apply sign_output. Qed.

(** ** A signed packet verifies *)

(** The decoded message reads as the message that was encoded, in the fields
    verification reads: documented behaviour of a protobuf round trip. *)
Record reads_same (m d : jsval) : Prop := {
  rs_record : is_record d = true;
  rs_metadata_record : is_record (get d "signatureMetadata") = true;
  rs_metadata : forall k, In k ["profileVersion"; "algorithm"; "messageId"; "audience"; "keyId"]%string ->
    get (get d "signatureMetadata") k = get (get m "signatureMetadata") k;
  rs_expiry_record : is_record (get (get d "signatureMetadata") "expiresAt") = true;
  rs_expiry : forall k, In k ["seconds"; "nanos"]%string ->
    wire_number (get (get (get d "signatureMetadata") "expiresAt") k)
    = wire_number (get (get (get m "signatureMetadata") "expiresAt") k);
  rs_sender : get d "senderId" = get m "senderId";
  rs_identity : is_record (get m "identity") = true ->
    is_record (get d "identity") = true /\ get (get d "identity") "tenantId" = get (get m "identity") "tenantId";
}.

(** The authority names what the packet carries, registers the public key of
    the signer under its key id, and the expiry of the packet is in the window it
    allows at the time of the verification. *)
Record matching_authority (C : crypto) (m : jsval) (trust : trust_store) (pub : public_key C)
    (verifiedAt : Z) : Prop := {
  ma_audience : exists s, authority_string (audience trust) s /\
    get (get m "signatureMetadata") "audience" = JStr s;
  ma_tenant : exists s, authority_string (tenant trust) s /\
    is_record (get m "identity") = true /\ get (get m "identity") "tenantId" = JStr s;
  ma_sender : exists s, authority_string (sender trust) s /\ get m "senderId" = JStr s;
  ma_key : exists k pem, get (get m "signatureMetadata") "keyId" = JStr k /\
    assoc k (publicKeys trust) = Some (JStr pem) /\ pem <> [] /\ p256_key C pem pub;
  ma_window : forall e, timestamp_at (get (get m "signatureMetadata") "expiresAt") e -> valid_at trust verifiedAt e;
}.

(** The window of an authority with the default lifetime and without a clock of
    its own contains the expiry that signing allows, until it has passed, when
    the clock at the signing is at most the skew ahead. *)
Lemma default_window trust signedAt verifiedAt skew e :
  nowMs trust = None -> maxLifetimeMs trust = None -> clockSkewMs trust = Some (NInt skew) -> 0 <= skew <= 60000 ->
  Z.abs verifiedAt < 2 ^ 53 -> signedAt <= verifiedAt + skew -> signedAt < e <= signedAt + 300000 ->
  verifiedAt - skew < e -> valid_at trust verifiedAt e.
Proof.
  intros Hn Hm Hs Hk Ha Hc He Hl. exists verifiedAt, skew, 300000. unfold trust_now. rewrite Hn, Hm, Hs. cbn. repeat split; lia.
Qed.

Lemma isRecord_is_record v : isRecord v = true -> is_record v = true.
Proof. by destruct v. Qed.

Lemma recordField_iff p name v :
  recordField p name = Ok v <-> isRecord (get p name) = true /\ v = get p name.
Proof. unfold recordField, wire_error. destruct (isRecord _); cbn; naive_solver. Qed.

Lemma validateExpiry_facts ts dateNow :
  isRecord ts = true -> validateExpiry ts dateNow = Ok tt ->
  exists e, timestamp_at ts e /\ dateNow < e <= dateNow + 300000.
Proof.
  intros Hr%isRecord_is_record. unfold validateExpiry, timestamp_at, DEFAULT_PRODUCTION_MAX_LIFETIME_MS.
  destruct (wire_number (get ts "seconds")) as [s| | |]; try done.
  destruct (wire_number (get ts "nanos")) as [n| | |]; try done. cbn zeta.
  rewrite do_Ok_iff, !throw_if_Ok_iff, !orb_false_iff, !Z.ltb_ge, Z.leb_gt.
  intros ((((((_ & ?) & ?) & _) & ?) & ?) & ? & ?).
  exists (s * 1000 + n / 1000000). split; [|lia]. exists s, n. repeat split; done || lia.
Qed.

Lemma validatePacket_facts m P dateNow :
  validatePacket m P dateNow = Ok tt ->
  (exists aud keyId mid, metadata_shape (get m "signatureMetadata") aud keyId mid) /\
  exists e, timestamp_at (get (get m "signatureMetadata") "expiresAt") e /\ dateNow < e <= dateNow + 300000.
Proof.
  unfold validatePacket. rewrite !do_Ok_iff. intros (_ & _ & _ & H).
  apply bind_Ok_iff in H as (md & [Hmr ->]%recordField_iff & H).
  rewrite do_Ok_iff, throw_if_Ok_iff, !orb_false_iff, !negb_false_iff, !strict_eq_str,
    bytes_of_length_iff in H.
  destruct H as (((((Hp & Ha) & (mid & Hm & Hml)) & Haud) & Hk) & H).
  apply bind_Ok_iff in H as (ex & [Her ->]%recordField_iff & H).
  split; [|by apply validateExpiry_facts].
  assert (forall v, nonblank_string v = true -> exists s, v = JStr s /\ s <> []) as Hnb.
  { intros [| | | |s| | | |]; try done. cbn. intros Hs. exists s. split; [done|]. by intros ->. }
  destruct (Hnb _ Haud) as (aud & ? & ?), (Hnb _ Hk) as (keyId & ? & ?).
  exists aud, keyId, mid. split; auto using isRecord_is_record.
Qed.

Lemma timestamp_at_same m d e :
  reads_same m d -> timestamp_at (get (get m "signatureMetadata") "expiresAt") e ->
  timestamp_at (get (get d "signatureMetadata") "expiresAt") e.
Proof.
  intros [_ _ _ Hr He _ _] (s & n & _ & Hs & Hn & ? & ? & ->). exists s, n.
  rewrite !He by (cbn; tauto). done.
Qed.

Lemma metadata_shape_same m d aud keyId mid :
  reads_same m d -> metadata_shape (get m "signatureMetadata") aud keyId mid ->
  metadata_shape (get d "signatureMetadata") aud keyId mid.
Proof.
  intros [_ Hmr Hm Her _ _ _] [_ Hp Ha Hmid Haud Hk _]. split; try done; rewrite Hm by (cbn; tauto); done.
Qed.

Section RoundTrip.
Context (C : crypto) (K : key_crypto) (P : producer_type) (V : packet_type).
Context (Hschema : pt_schema V = pd_schema P) (Hwf : wf_type (pd_schema P)).

(** The message that is signed, and that decoding its encoding gives a message
    that reads the same. *)
Definition signed_message (packet : jsval) : jsval := del "signature" (create P packet).
Definition reads_back (packet : jsval) (signedAt : Z) : Prop := forall u,
  validatePacket (signed_message packet) P signedAt = Ok tt -> encode P (signed_message packet) = Ok u ->
  zlen u <= MAX_PRODUCTION_RAW_BYTES -> exists d, pt_decode V u = Ok d /\ reads_same (signed_message packet) d.

(** A packet that [signProductionPacket] signs is accepted by
    [verifyProductionPacket] under any authority that names its audience,
    tenant, sender and public key, while its expiry is in the window of the
    authority, and when the encoding of the packet decodes to a
    message that reads the same; the packet returned is the decoding of the
    encoding that was signed. *)
Theorem sign_verify_roundtrip packet input key pub trust signedAt verifiedAt raw :
  reads_back packet signedAt ->
  (forall data, verify C pub data (sign K key data) = true) ->
  as_key K input = Ok key ->
  signProductionPacket K packet P input signedAt = Ok raw ->
  matching_authority C (signed_message packet) trust pub verifiedAt ->
  exists u d, verifyProductionPacket C raw V trust verifiedAt = Ok d /\ reads_same (signed_message packet) d /\
    encode P (signed_message packet) = Ok u /\ pt_decode V u = Ok d.
Proof using Hschema Hwf.
  intros Hback Hsv Hkey Hsign Hma. unfold reads_back, signed_message in *. apply sign_output in Hsign; [|done].
  destruct Hsign as [u key' Hcl Hchk Henc (Hkey' & _) Hraw Hsize Hex].
  assert (key' = key) as -> by congruence. set (m := del "signature" (create P packet)) in *.
  assert (zlen u <= MAX_PRODUCTION_RAW_BYTES) as Hu.
  { rewrite Hraw, zlen_app in Hsize. pose proof (zlen_nonneg (field 14 (sign K key (PRODUCTION_SIGNATURE_DOMAIN ++ u)))). lia. }
  destruct (Hback u Hchk Henc Hu) as (d & Hd & Hrs). exists u, d. split; [|done].
  apply validatePacket_facts in Hchk as ((aud & keyId & mid & Hms) & e & He & Hwin).
  apply extract_sound in Hex as (_ & fs & Hfs & Hsf & Hcov).
  destruct Hma as [(a & Ha & Haeq) (t & Ht & Htr & Hteq) (s & Hs & Hseq) (k & pem & Hk & Hreg & Hpem & Hp256) Hlive].
  pose proof Hms as [_ _ _ _ [Haud _] [Hkid _] _].
  assert (a = aud) as -> by congruence. assert (k = keyId) as -> by congruence.
  destruct Hrs as [Hrec Hmr Hm Her Hex' Hsnd Hid] eqn:Hrs'. destruct (Hid Htr) as [Hdir Hdt].
  apply verify_complete; [by rewrite Hschema|].
  apply (verified_intro C raw V trust verifiedAt d fs (sign K key (PRODUCTION_SIGNATURE_DOMAIN ++ u))
           aud t s keyId mid e pem pub); try done; rewrite <- ?Hcov.
  - by rewrite Hschema.
  - done.
  - by apply (metadata_shape_same m).
  - split; [by apply (timestamp_at_same m) | by apply Hlive].
  - split; [done | congruence].
  - congruence.
  - apply Hsv.
Qed.

End RoundTrip.

(** ** A concrete instance *)

Definition toy_keys : key_crypto := {|
  key_input := jsstr;
  private_key := unit;
  as_key := fun pem => if bool_decide (pem = js "KEY") then Ok tt else throw TypeError [];
  key_type := fun _ => js "private";
  key_algorithm := fun _ => js "ec";
  key_curve := fun _ => Some (js "P-256");
  sign := fun _ data => sha256 toy_crypto data;
|}.

Definition full_schema : msg_type :=
  MsgType ".cordum.agent.v1.BusPacket"
    [Field 1 "traceId" "string" false false "" true None Unresolved;
     Field 2 "senderId" "string" false false "" true None Unresolved;
     Field 3 "createdAt" "google.protobuf.Timestamp" false false "" true None (ResolvedMessage sample_timestamp);
     Field 4 "protocolVersion" "int32" false false "" true None Unresolved;
     Field 12 "heartbeat" "bytes" false false "" true (Some "payload") Unresolved;
     Field 18 "signatureMetadata" "bytes" false false "" true None Unresolved;
     Field 6 "identity" "bytes" false false "" true None Unresolved]%string.

Definition full_packet : jsval :=
  match sample_decoded with
  | JObj own inh => JObj (own ++
      [(js "traceId", JStr (js "t")); (js "protocolVersion", JNum (NInt 1));
       (js "createdAt", JPlain [(js "seconds", JNum (NInt 1700000000))]);
       (js "heartbeat", JPlain [(js "workerId", JStr (js "s"))])]) inh
  | v => v
  end.

(** Equality of text and of bytes. *)
Definition same_leaf (a b : jsval) : bool :=
  match a, b with
  | JStr x, JStr y => bool_decide (x = y)
  | JBytes x, JBytes y => bool_decide (x = y)
  | _, _ => false
  end.

Definition same_int (a b : jsnum) : bool :=
  match a, b with NInt x, NInt y => x =? y | _, _ => false end.

(** An encoder for messages that read as [full_packet]. *)
Definition toy_encode (m : jsval) : result bytes :=
  let md v := get v "signatureMetadata" in
  if forallb (fun k => same_leaf (get (md full_packet) k) (get (md m) k))
       ["profileVersion"; "algorithm"; "messageId"; "audience"; "keyId"]%string &&
     forallb (fun k => same_int (wire_number (get (get (md full_packet) "expiresAt") k))
                                (wire_number (get (get (md m) "expiresAt") k)))
       ["seconds"; "nanos"]%string &&
     same_leaf (get full_packet "senderId") (get m "senderId") &&
     same_leaf (get (get full_packet "identity") "tenantId") (get (get m "identity") "tenantId")
  then Ok sample_unsigned else throw PlainError [].

Definition toy_producer : producer_type := {|
  pd_schema := full_schema; create := fun v => v; verify_type := fun _ => None; encode := toy_encode |}.

Definition toy_verifier : packet_type := {|
  pt_schema := full_schema;
  pt_decode := fun u => if bool_decide (u = sample_unsigned) then Ok full_packet
                        else throw PlainError (js "index out of range") |}.

Lemma same_leaf_eq a b : same_leaf a b = true -> a = b.
Proof. destruct a, b; cbn; try done; rewrite bool_decide_eq_true; congruence. Qed.

Lemma same_int_eq a b : same_int a b = true -> a = b.
Proof. destruct a, b; cbn; try done. rewrite Z.eqb_eq. congruence. Qed.

Lemma toy_decode_encode m u :
  encode toy_producer m = Ok u -> exists d, pt_decode toy_verifier u = Ok d /\ reads_same m d.
Proof.
  cbn [encode toy_producer]. unfold toy_encode. cbn zeta. destruct (_ && _) eqn:Hb; [|done].
  intros [= <-]. exists full_packet. split; [done|].
  rewrite !andb_true_iff, !forallb_forall in Hb. destruct Hb as (((Hm & He) & Hs) & Hi).
  split; try done.
  - intros k Hk. by apply same_leaf_eq, Hm.
  - intros k Hk. by apply same_int_eq, He.
  - by apply same_leaf_eq.
  - intros _. split; [done|]. by apply same_leaf_eq.
Qed.

Lemma full_schema_wf : wf_type full_schema.
Proof.
  assert (wf_type sample_timestamp).
  { constructor; repeat constructor; cbn; try lia; intros; discriminate. }
  constructor; repeat constructor; cbn; try lia; intros t [=]; by subst.
Qed.

Lemma toy_matching :
  matching_authority toy_crypto (del "signature" (create toy_producer full_packet)) sample_trust tt 1700000000500.
Proof.
  split.
  - exists (js "aud"). done.
  - exists (js "ten"). done.
  - exists (js "s"). done.
  - exists (js "k1"), (js "PEM"). split; [done|]. split; [done|]. split; [done|]. split; [done|]. by split; [|left].
  - intros e (s & n & _ & Hs & Hn & _ & _ & ->). vm_compute in Hs, Hn. injection Hs as <-. injection Hn as <-.
    apply (default_window sample_trust 1700000000000 1700000000500 1000); done || lia.
Qed.

Lemma signProductionPacket_exact_witness :
  signed_output toy_keys toy_producer full_packet (js "KEY" : key_input toy_keys) 1700000000000 sample_signed.
Proof.
  apply (signProductionPacket_exact toy_keys toy_producer full_packet (js "KEY" : key_input toy_keys)).
  - apply full_schema_wf.
  - vm_compute. reflexivity.
Defined.

Lemma sign_verify_roundtrip_witness :
  exists u d, verifyProductionPacket toy_crypto sample_signed toy_verifier sample_trust 1700000000500 = Ok d /\
    reads_same (del "signature" (create toy_producer full_packet)) d /\
    encode toy_producer (del "signature" (create toy_producer full_packet)) = Ok u /\ pt_decode toy_verifier u = Ok d.
Proof.
  apply (sign_verify_roundtrip toy_crypto toy_keys toy_producer toy_verifier eq_refl full_schema_wf
           full_packet (js "KEY" : key_input toy_keys) tt tt sample_trust
           1700000000000 1700000000500).
  - intros u _ Hu _. by apply toy_decode_encode.
  - intros data. apply bool_decide_eq_true. reflexivity.
  - reflexivity.
  - vm_compute. reflexivity.
  - apply toy_matching.
Defined.

(** An own key named like a member of [Object.prototype] is taken for a
    declared field: [fields] is a plain object and the lookup is not limited to
    its own properties. *)
Lemma inherited_name_is_accepted t :
  List.find (fun f => bool_decide (js (f_name f) = js "constructor")) (mt_fields t) = None ->
  assertClosedInput (JPlain [(js "constructor", JStr (js "x"))]) t = Ok tt.
Proof. intros H. cbn [assertClosedInput iter_result fst]. unfold lookup_name. by rewrite H. Qed.

(** Any other undeclared key is rejected. *)
Lemma unknown_key_rejected own inh t k v :
  In (k, v) own -> lookup_name t k = Unknown -> assertClosedInput (JObj own inh) t <> Ok tt.
Proof.
  intros Hin Hk. rewrite assertClosedInput_fields, iter_result_Ok_iff, Forall_forall.
  intros H. apply list_elem_of_In, H in Hin. cbn in Hin. by rewrite Hk in Hin.
Qed.
