(* ===== verification/ProductionEvents.v ===== *)
(** * Managed-worker events

    production-events.ts: the authority frozen from an admitted request, its
    echo onto an outgoing event, and sealing.  Binding mutates the event, so
    the model returns the event beside the outcome. *)

From S2P Require Import Prelude JsString JsValue Varint ProductionWire WireSchema ProductionSigning Validate ProductionProducer.

Definition PRODUCTION_MESSAGE_ID_BYTES : Z := 16.

(** ** Authority *)

Definition text_or_empty (v : jsval) : jsval := coalesce v (JStr []).
Definition number_or_zero (v : jsval) : jsval := coalesce v (JNum (NInt 0)).

Definition cloneIdentity (value : jsval) : jsval :=
  JPlain [(js "tenantId", text_or_empty (get value "tenantId"));
          (js "principalId", text_or_empty (get value "principalId"));
          (js "actorId", text_or_empty (get value "actorId"));
          (js "delegationId", text_or_empty (get value "delegationId"))].

Definition cloneDispatch (value : jsval) : jsval :=
  JPlain [(js "dispatchId", text_or_empty (get value "dispatchId"));
          (js "attempt", number_or_zero (get value "attempt"));
          (js "assignedWorkerId", text_or_empty (get value "assignedWorkerId"))].

Definition identityDiffers (a b : jsval) : bool :=
  negb (strict_eq (text_or_empty (get a "tenantId")) (text_or_empty (get b "tenantId"))) ||
  negb (strict_eq (text_or_empty (get a "principalId")) (text_or_empty (get b "principalId"))) ||
  negb (strict_eq (text_or_empty (get a "actorId")) (text_or_empty (get b "actorId"))) ||
  negb (strict_eq (text_or_empty (get a "delegationId")) (text_or_empty (get b "delegationId"))).

Definition dispatchDiffers (a b : jsval) : bool :=
  negb (strict_eq (text_or_empty (get a "dispatchId")) (text_or_empty (get b "dispatchId"))) ||
  negb (strict_eq (number_or_zero (get a "attempt")) (number_or_zero (get b "attempt"))) ||
  negb (strict_eq (text_or_empty (get a "assignedWorkerId")) (text_or_empty (get b "assignedWorkerId"))).

Record ProductionEventAuthority : Type := {
  jobId : jsstr;
  identity : jsval;
  dispatch : jsval;
}.

Definition conflict {A} (m : jsstr) : result A := throw ProductionEventConflictError m.

(** [(v ?? "").trim()]; a value that is not a string has no [trim]. *)
Definition trimmed_text (v : jsval) : result jsstr :=
  match text_or_empty v with
  | JStr s => Ok (trim s)
  | _ => throw TypeError (js "trim is not a function")
  end.

Definition freezeProductionAuthority (request : jsval) : result ProductionEventAuthority :=
  if negb (truthy request) then conflict (js "cannot freeze authority from a missing request")
  else
    let! job := trimmed_text (get request "jobId") in
    if str_empty job then conflict (js "admitted request carries no job id")
    else Ok {| jobId := job;
               identity := cloneIdentity (get request "identity");
               dispatch := cloneDispatch (get request "dispatch") |}.

(** The outcome, and the event as the call leaves it. *)
Definition bindProductionEvent (event : jsval) (authority : ProductionEventAuthority)
    : result unit * jsval :=
  if negb (truthy event) then (conflict (js "cannot bind a missing event"), event)
  else
    match trimmed_text (get event "jobId") with
    | Throw e => (Throw e, event)
    | NoFuel => (NoFuel, event)
    | Ok job =>
        if negb (str_empty job) && negb (bool_decide (job = jobId authority)) then
          (conflict (js "event job id " ++ job ++ js " conflicts with admitted " ++ jobId authority), event)
        else
          let event := set "jobId" (JStr (jobId authority)) event in
          if truthy (get event "identity") && identityDiffers (get event "identity") (identity authority)
          then (conflict (js "event identity conflicts with admitted authority"), event)
          else
            let event := set "identity" (cloneIdentity (identity authority)) event in
            if truthy (get event "dispatch") && dispatchDiffers (get event "dispatch") (dispatch authority)
            then (conflict (js "event dispatch conflicts with admitted authority"), event)
            else (Ok tt, set "dispatch" (cloneDispatch (dispatch authority)) event)
    end.

(** ** Sealing *)

Record SealProductionEventOptions (K : key_crypto) : Type := {
  privateKey : key_input K;
  keyId : option jsstr;
  seal_audience : option jsstr;
  lifetimeMs : option jsnum;
  (** The clock callback, at a time of the system clock. *)
  seal_nowMs : option (Z -> result jsnum);
}.
Arguments privateKey {K} _.
Arguments keyId {K} _.
Arguments seal_audience {K} _.
Arguments lifetimeMs {K} _.
Arguments seal_nowMs {K} _.

(** The packet handed to [signProductionPacket]: own properties of the caller's
    packet, without signature, with fresh metadata.  [messageId] is the result
    of [crypto.randomBytes(16)]. *)
Definition outgoing_packet (packet : jsval) (key audience : jsstr) (messageId : bytes)
    (expiresMs : jsnum) : jsval :=
  let outgoing := del "signature" (match packet with JObj own _ => JPlain own | _ => JPlain [] end) in
  let outgoing := if negb (truthy (get outgoing "protocolVersion"))
                  then set "protocolVersion" (JNum (NInt 1)) outgoing else outgoing in
  set "signatureMetadata"
    (JPlain [(js "profileVersion", JStr PRODUCTION_PROFILE_VERSION);
             (js "algorithm", JStr PRODUCTION_ALGORITHM);
             (js "messageId", JBytes messageId);
             (js "audience", JStr audience);
             (js "expiresAt", JPlain [(js "seconds", JNum (num_floor (num_div expiresMs 1000)));
                                      (js "nanos", JNum (num_scale (num_rem expiresMs 1000) 1000000))]);
             (js "keyId", JStr key)]) outgoing.

Definition sealProductionEvent (K : key_crypto) (packet : jsval) (busPacketType : producer_type)
    (options : SealProductionEventOptions K) (messageId : bytes) (dateNow : Z) : result bytes :=
  let key := trim (default [] (keyId options)) in
  do! throw_if (str_empty key) ProductionEventConflictError (js "production sealing requires a key id") ;;
  let audience := trim (default [] (seal_audience options)) in
  do! throw_if (str_empty audience) ProductionEventConflictError
        (js "production sealing requires the outbound subject as audience") ;;
  let lifetime := default (NInt DEFAULT_PRODUCTION_MAX_LIFETIME_MS) (lifetimeMs options) in
  do! throw_if (negb (is_finite lifetime) || negb (num_ltb (NInt 0) lifetime) ||
                num_ltb (NInt DEFAULT_PRODUCTION_MAX_LIFETIME_MS) lifetime)
        ProductionEventConflictError (js "production sealing requires a bounded positive lifetime") ;;
  let! issuedMs := match seal_nowMs options with Some clock => clock dateNow | None => Ok (NInt dateNow) end in
  let expiresMs := num_add issuedMs lifetime in
  signProductionPacket K (outgoing_packet packet key audience messageId expiresMs) busPacketType
    (privateKey options) dateNow.

(** ** Binding echoes the authority or rejects *)

(** The event does not contradict the authority: its job id, identity and
    dispatch are unset or the same. *)
Record consistent (event : jsval) (a : ProductionEventAuthority) : Prop := {
  co_job : exists s, text_or_empty (get event "jobId") = JStr s /\ (trim s = [] \/ trim s = jobId a);
  co_identity : truthy (get event "identity") = true ->
    forall k, In k ["tenantId"; "principalId"; "actorId"; "delegationId"]%string ->
    strict_eq (text_or_empty (get (get event "identity") k)) (text_or_empty (get (identity a) k)) = true;
  co_dispatch : truthy (get event "dispatch") = true ->
    (forall k, In k ["dispatchId"; "assignedWorkerId"]%string ->
     strict_eq (text_or_empty (get (get event "dispatch") k)) (text_or_empty (get (dispatch a) k)) = true) /\
    strict_eq (number_or_zero (get (get event "dispatch") "attempt"))
              (number_or_zero (get (dispatch a) "attempt")) = true;
}.

Lemma trimmed_text_iff v t : trimmed_text v = Ok t <-> exists s, text_or_empty v = JStr s /\ t = trim s.
Proof. unfold trimmed_text. destruct (text_or_empty v); naive_solver. Qed.

Lemma identityDiffers_false a b :
  identityDiffers a b = false <->
  forall k, In k ["tenantId"; "principalId"; "actorId"; "delegationId"]%string ->
    strict_eq (text_or_empty (get a k)) (text_or_empty (get b k)) = true.
Proof.
  unfold identityDiffers. rewrite !orb_false_iff, !negb_false_iff. cbn [In]. split.
  - intros (((? & ?) & ?) & ?) k Hk. destruct Hk as [<-|[<-|[<-|[<-|[]]]]]; done.
  - intros H. repeat split; apply H; tauto.
Qed.

Lemma dispatchDiffers_false a b :
  dispatchDiffers a b = false <->
  (forall k, In k ["dispatchId"; "assignedWorkerId"]%string ->
    strict_eq (text_or_empty (get a k)) (text_or_empty (get b k)) = true) /\
  strict_eq (number_or_zero (get a "attempt")) (number_or_zero (get b "attempt")) = true.
Proof.
  unfold dispatchDiffers. rewrite !orb_false_iff, !negb_false_iff. cbn [In]. split.
  - intros ((? & ?) & ?). split; [|done]. intros k Hk. destruct Hk as [<-|[<-|[]]]; done.
  - intros [H ?]. repeat split; try done; apply H; tauto.
Qed.

Lemma job_conflict_false job id :
  negb (str_empty job) && negb (bool_decide (job = id)) = false <-> job = [] \/ job = id.
Proof.
  rewrite andb_false_iff, !negb_false_iff, bool_decide_eq_true. destruct job; cbn; naive_solver.
Qed.

Section Bind.
Context (own inh : list (jsstr * jsval)) (a : ProductionEventAuthority).
Let event := JObj own inh.

(** The event the authority is echoed onto. *)
Definition echoed : jsval :=
  set "dispatch" (cloneDispatch (dispatch a))
    (set "identity" (cloneIdentity (identity a)) (set "jobId" (JStr (jobId a)) event)).

Lemma bind_outcome :
  consistent event a /\ bindProductionEvent event a = (Ok tt, echoed) \/
  ~ consistent event a /\ (bindProductionEvent event a).1 <> Ok tt.
Proof.
  unfold bindProductionEvent, echoed, conflict, event. clear event. cbn [truthy negb].
  destruct (trimmed_text (get (JObj own inh) "jobId")) as [job|e|] eqn:Hj.
  - apply trimmed_text_iff in Hj as (s & Hs & ->).
    destruct (negb (str_empty (trim s)) && negb (bool_decide (trim s = jobId a))) eqn:Hc.
    { right. split; [|done]. intros [(s' & Hs' & H) _ _]. assert (s' = s) as -> by congruence.
      apply job_conflict_false in H. congruence. }
    apply job_conflict_false in Hc. cbn zeta. rewrite !get_set_ne by done.
    destruct (truthy (get (JObj own inh) "identity") && _) eqn:Hi.
    { right. split; [|done]. apply andb_true_iff in Hi as [Ht Hd]. intros [_ H _].
      apply identityDiffers_false in H; [|done]. congruence. }
    destruct (truthy (get (JObj own inh) "dispatch") && _) eqn:Hdd.
    { right. split; [|done]. apply andb_true_iff in Hdd as [Ht Hd]. intros [_ _ H].
      apply dispatchDiffers_false in H; [|done]. congruence. }
    left. split; [|done]. split; [eauto|..]; intros Ht; rewrite Ht in *.
    + by apply identityDiffers_false.
    + by apply dispatchDiffers_false.
  - right. split; [|done]. intros [(s & Hs & _) _ _].
    unfold trimmed_text in Hj. by rewrite Hs in Hj.
  - right. split; [|done]. intros [(s & Hs & _) _ _].
    unfold trimmed_text in Hj. by rewrite Hs in Hj.
Qed.
End Bind.

(** [bindProductionEvent] succeeds exactly when the event contradicts no
    part of the frozen authority, and then the event carries the authority's
    job id, identity and dispatch, every other property being left as it was;
    a contradiction is rejected, never corrected. *)
Theorem bindProductionEvent_iff own inh a :
  let event := JObj own inh in
  ((bindProductionEvent event a).1 = Ok tt <-> consistent event a) /\
  (consistent event a ->
   let event' := (bindProductionEvent event a).2 in
   get event' "jobId" = JStr (jobId a) /\
   get event' "identity" = cloneIdentity (identity a) /\
   get event' "dispatch" = cloneDispatch (dispatch a) /\
   forall k, ~ In k ["jobId"; "identity"; "dispatch"]%string -> get event' k = get event k).
Proof.
  cbn zeta. destruct (bind_outcome own inh a) as [[Hc ->]|[Hc Hb]]; [|by split; [|done]].
  split; [done|]. intros _. cbn [snd]. unfold echoed.
  destruct (set_obj "jobId" (JStr (jobId a)) own inh) as [o1 E1].
  destruct (set_obj "identity" (cloneIdentity (identity a)) o1 inh) as [o2 E2].
  repeat split.
  - by rewrite !get_set_ne, get_set_eq by done.
  - by rewrite get_set_ne, E1, get_set_eq by done.
  - by rewrite E1, E2, get_set_eq.
  - intros k Hk. cbn [In] in Hk. rewrite !get_set_ne by (intros <-; tauto). done.
Qed.

Lemma bind_Ok_echoed own inh a ev :
  bindProductionEvent (JObj own inh) a = (Ok tt, ev) -> ev = echoed own inh a.
Proof.
  destruct (bind_outcome own inh a) as [[_ ->]|[_ Hb]]; [by intros [= <-]|].
  intros E. by rewrite E in Hb.
Qed.

(** Reading a clone gives the text or number of the original, or the default. *)
Lemma get_cloneIdentity v k :
  In k ["tenantId"; "principalId"; "actorId"; "delegationId"]%string ->
  get (cloneIdentity v) k = text_or_empty (get v k).
Proof. cbn [In]. intros [<-|[<-|[<-|[<-|[]]]]]; done. Qed.

Lemma get_cloneDispatch v :
  get (cloneDispatch v) "dispatchId" = text_or_empty (get v "dispatchId") /\
  get (cloneDispatch v) "attempt" = number_or_zero (get v "attempt") /\
  get (cloneDispatch v) "assignedWorkerId" = text_or_empty (get v "assignedWorkerId").
Proof. done. Qed.

Lemma coalesce_idem v d : nullish d = false -> coalesce (coalesce v d) d = coalesce v d.
Proof. intros Hd. unfold coalesce. destruct (nullish v) eqn:E; [by rewrite Hd | by rewrite E]. Qed.

(** What an event echoes is what was admitted: after freezing a request and
    binding an event, the event's job id is the request's trimmed, non-empty
    job id, and each identity and dispatch field is the request's, unset fields
    being empty or zero. *)
Theorem bound_event_echoes_request request a own inh ev :
  freezeProductionAuthority request = Ok a ->
  bindProductionEvent (JObj own inh) a = (Ok tt, ev) ->
  (exists s, text_or_empty (get request "jobId") = JStr s /\ trim s <> [] /\ get ev "jobId" = JStr (trim s)) /\
  (forall k, In k ["tenantId"; "principalId"; "actorId"; "delegationId"]%string ->
     get (get ev "identity") k = text_or_empty (get (get request "identity") k)) /\
  get (get ev "dispatch") "dispatchId" = text_or_empty (get (get request "dispatch") "dispatchId") /\
  get (get ev "dispatch") "attempt" = number_or_zero (get (get request "dispatch") "attempt") /\
  get (get ev "dispatch") "assignedWorkerId" = text_or_empty (get (get request "dispatch") "assignedWorkerId").
Proof.
  unfold freezeProductionAuthority, conflict. destruct (negb (truthy request)); [done|].
  intros (job & (s & Hs & ->)%trimmed_text_iff & H)%bind_Ok_iff.
  destruct (str_empty (trim s)) eqn:He; [done|]. injection H as <-.
  intros ->%bind_Ok_echoed. unfold echoed. cbn [jobId identity dispatch].
  destruct (set_obj "jobId" (JStr (trim s)) own inh) as [o1 E1].
  destruct (set_obj "identity" (cloneIdentity (cloneIdentity (get request "identity"))) o1 inh) as [o2 E2].
  split; [|split].
  - exists s. split; [done|]. split; [by intros Hn; rewrite Hn in He|].
    by rewrite !get_set_ne, get_set_eq by done.
  - intros k Hk. rewrite get_set_ne, E1, get_set_eq, !get_cloneIdentity by done.
    by apply coalesce_idem.
  - rewrite E1, E2, get_set_eq.
    destruct (get_cloneDispatch (cloneDispatch (get request "dispatch"))) as (-> & -> & ->).
    destruct (get_cloneDispatch (get request "dispatch")) as (-> & -> & ->).
    unfold text_or_empty, number_or_zero. by rewrite !coalesce_idem.
Qed.

Definition sample_request : jsval :=
  JPlain [(js "jobId", JStr (js " job-1 "));
          (js "identity", JPlain [(js "tenantId", JStr (js "t"))]);
          (js "dispatch", JPlain [(js "dispatchId", JStr (js "d")); (js "attempt", JNum (NInt 2))])].

Definition sample_authority : ProductionEventAuthority := {|
  jobId := js "job-1";
  identity := cloneIdentity (JPlain [(js "tenantId", JStr (js "t"))]);
  dispatch := cloneDispatch (JPlain [(js "dispatchId", JStr (js "d")); (js "attempt", JNum (NInt 2))]) |}.

Lemma bound_event_echoes_request_witness :
  get (get (bindProductionEvent (JPlain [(js "status", JNum (NInt 3))]) sample_authority).2 "identity") "tenantId"
  = JStr (js "t").
Proof.
  destruct (bound_event_echoes_request sample_request sample_authority [(js "status", JNum (NInt 3))] []
              (bindProductionEvent (JPlain [(js "status", JNum (NInt 3))]) sample_authority).2)
    as (_ & H & _); [vm_compute; reflexivity | vm_compute; reflexivity|].
  apply (H "tenantId"%string). left. reflexivity.
Defined.

Example bind_conflicts :
  map (fun e => is_ok (bindProductionEvent (JPlain e) sample_authority).1)
    [[]; [(js "jobId", JStr (js "job-1"))]; [(js "jobId", JStr (js "job-2"))];
     [(js "identity", JPlain [])]; [(js "dispatch", JPlain [(js "dispatchId", JStr (js "d")); (js "attempt", JNum (NInt 3))])]]
  = [true; true; false; false; false].
Proof. vm_compute. reflexivity. Qed.

(** ** Sealing stamps the outgoing subject and a bounded expiry *)

Lemma outgoing_metadata packet key aud mid ms :
  exists own, outgoing_packet packet key aud mid ms = JObj own [] /\
  get (JObj own []) "signatureMetadata" =
    JPlain [(js "profileVersion", JStr PRODUCTION_PROFILE_VERSION);
             (js "algorithm", JStr PRODUCTION_ALGORITHM);
             (js "messageId", JBytes mid);
             (js "audience", JStr aud);
             (js "expiresAt", JPlain [(js "seconds", JNum (num_floor (num_div ms 1000)));
                                      (js "nanos", JNum (num_scale (num_rem ms 1000) 1000000))]);
             (js "keyId", JStr key)] /\
  assoc (js "signature") own = None.
Proof.
  unfold outgoing_packet. cbn zeta.
  set (base := del "signature" _). assert (exists o, base = JObj o [] /\ assoc (js "signature") o = None) as (o & -> & Ho).
  { unfold base. destruct packet; cbn; eexists; (split; [reflexivity|]); try done. apply assoc_del_eq. }
  destruct (negb _); cbn [set]; eexists; (split; [reflexivity|]); (split; [apply get_set_eq|]);
    rewrite !assoc_set_ne by (by intros ?%js_inj); done.
Qed.

Lemma expires_timestamp ms :
  0 <= ms < 2 ^ 47 ->
  timestamp_at (JPlain [(js "seconds", JNum (num_floor (num_div (NInt ms) 1000)));
                        (js "nanos", JNum (num_scale (num_rem (NInt ms) 1000) 1000000))]) ms.
Proof.
  intros Hms. assert (0 <= ms mod 1000 < 1000) by (apply Z.mod_pos_bound; lia).
  pose proof (Z.div_mod ms 1000 ltac:(lia)).
  exists (ms / 1000), (ms mod 1000 * 1000000). split; [done|].
  split; [|split; [|split; [|split]]].
  - cbn [get]. unfold num_div. rewrite floor_number_of_ratio by lia. done.
  - cbn -[Z.mul Z.rem number_of_Z]. rewrite Z.rem_mod_nonneg by lia. unfold number_of_Z.
    rewrite to_double_exact by lia. cbn zeta.
    by destruct (Z.leb_spec (2 ^ 1024) (Z.abs (ms mod 1000 * 1000000))); [lia|].
  - split; [lia|]. apply Z.div_le_upper_bound; lia.
  - lia.
  - rewrite Z.div_mul by lia. lia.
Qed.

(** Sealing binds an event to the subject it is published on and to a
    bounded time: bytes that [sealProductionEvent] returns are a signed packet
    whose metadata carries the trimmed, non-empty outbound subject as audience,
    the key id, the fresh message id, and an expiry exactly the lifetime after
    the issuing clock, a lifetime of at most five minutes; a caller's signature
    is dropped. *)
Theorem sealProductionEvent_stamps K P packet options mid dateNow issued lifetime raw :
  wf_type (pd_schema P) ->
  match seal_nowMs options with Some clock => clock dateNow | None => Ok (NInt dateNow) end = Ok (NInt issued) ->
  default (NInt DEFAULT_PRODUCTION_MAX_LIFETIME_MS) (lifetimeMs options) = NInt lifetime ->
  0 <= issued < 2 ^ 46 ->
  sealProductionEvent K packet P options mid dateNow = Ok raw ->
  exists own, let md := get (JObj own []) "signatureMetadata" in
    signed_output K P (JObj own []) (privateKey options) dateNow raw /\
    assoc (js "signature") own = None /\
    get md "audience" = JStr (trim (default [] (seal_audience options))) /\
    trim (default [] (seal_audience options)) <> [] /\
    get md "keyId" = JStr (trim (default [] (keyId options))) /\
    get md "messageId" = JBytes mid /\
    0 < lifetime <= 300000 /\ timestamp_at (get md "expiresAt") (issued + lifetime).
Proof.
  intros Hwf Hi Hl Hrange. unfold sealProductionEvent. cbn zeta. rewrite Hi, Hl.
  rewrite !do_Ok_iff, !throw_if_Ok_iff. intros (_ & Haud & Hlife & Hs).
  cbn [is_finite negb orb num_ltb] in Hlife. rewrite orb_false_iff, negb_false_iff, Z.ltb_lt, Z.ltb_ge in Hlife.
  unfold DEFAULT_PRODUCTION_MAX_LIFETIME_MS in Hlife.
  assert (num_add (NInt issued) (NInt lifetime) = NInt (issued + lifetime)) as E.
  { cbn [num_add]. unfold number_of_Z. rewrite to_double_exact by lia. cbn zeta.
    by destruct (Z.leb_spec (2 ^ 1024) (Z.abs (issued + lifetime))); [lia|]. }
  cbn [mbind result_bind] in Hs. rewrite E in Hs.
  destruct (outgoing_metadata packet (trim (default [] (keyId options)))
              (trim (default [] (seal_audience options))) mid (NInt (issued + lifetime))) as (own & Ho & Hmd & Hsig).
  rewrite Ho in Hs. apply sign_output in Hs; [|done]. exists own. cbn zeta. rewrite Hmd.
  split; [done|]. split; [done|]. split; [done|]. split; [by intros En; rewrite En in Haud|].
  split; [done|]. split; [done|]. split; [lia|]. apply expires_timestamp. lia.
Qed.

Definition seal_options : SealProductionEventOptions toy_keys := {|
  privateKey := js "KEY" : key_input toy_keys;
  keyId := Some (js " k1"); seal_audience := Some (js "aud "); lifetimeMs := Some (NInt 60005);
  seal_nowMs := None |}.

Lemma sealProductionEvent_stamps_witness :
  exists own, let md := get (JObj own []) "signatureMetadata" in
    signed_output toy_keys toy_producer (JObj own []) (js "KEY" : key_input toy_keys) 1700000000000 sample_signed /\
    assoc (js "signature") own = None /\
    get md "audience" = JStr (js "aud") /\ js "aud" <> [] /\ get md "keyId" = JStr (js "k1") /\
    get md "messageId" = JBytes (repeat 7 16) /\
    0 < 60005 <= 300000 /\ timestamp_at (get md "expiresAt") (1700000000000 + 60005).
Proof.
  apply (sealProductionEvent_stamps toy_keys toy_producer full_packet seal_options (repeat 7 16)
           1700000000000 1700000000000 60005 sample_signed).
  - apply full_schema_wf.
  - reflexivity.
  - reflexivity.
  - lia.
  - vm_compute. reflexivity.
Defined.
