(* ===== verification/Codec.v ===== *)
(** * Deterministic encoding

    codec.ts: normalisation of a message before encoding ([stripDefaults]),
    [canonicalize], and the two encoders.  The protobuf library's [toObject]
    and [encode] are parameters.  Normalisation is a projection that does not
    depend on the order in which properties or map entries were added. *)

From stdpp Require Import sorting.
From S2P Require Import Prelude JsString JsValue Varint WireSchema.

(** ** Property order *)

(** The default order of [sort]: by code units. *)
Fixpoint str_leb (a b : jsstr) : bool :=
  match a, b with
  | [], _ => true
  | _ :: _, [] => false
  | x :: a', y :: b' => (x <? y) || ((x =? y) && str_leb a' b')
  end.

Definition str_le (a b : jsstr) : Prop := str_leb a b = true.

#[global] Instance str_le_dec : RelDecision str_le.
Proof. intros a b. unfold str_le. apply _. Defined.

(** [Object.keys(v).sort()] on the own keys. *)
Definition sort_keys (l : list jsstr) : list jsstr := merge_sort str_le l.

(** A key that is an array index: its decimal text has no leading zero and is
    below [2^32 - 1]. *)
Definition is_index (k : jsstr) : bool :=
  (bool_decide (k = [48]) ||
   match k with c :: k' => (49 <=? c) && (c <=? 57) && forallb is_digit k' | [] => false end) &&
  (decimal_value k <? 2 ^ 32 - 1).

Definition index_le {A} (a b : jsstr * A) : Prop := decimal_value a.1 <= decimal_value b.1.

#[global] Instance index_le_dec {A} : RelDecision (@index_le A).
Proof. intros a b. unfold index_le. apply _. Defined.

(** The order in which an object's properties are enumerated: array indices
    ascending, then the others as they were added. *)
Definition enumerate {A} (entries : list (jsstr * A)) : list (jsstr * A) :=
  merge_sort index_le (List.filter (fun p => is_index p.1) entries) ++
  List.filter (fun p => negb (is_index p.1)) entries.

(** A new object filled from [v] in the order of its sorted keys. *)
Definition sorted_copy (v : jsval) : list (jsstr * jsval) :=
  enumerate (omap (fun k => pair k <$> assoc k (own_entries v)) (sort_keys (map fst (own_entries v)))).

(** ** codec.ts *)

Definition isBinary (v : jsval) : bool := match v with JBytes _ => true | _ => false end.
Definition isLong (v : jsval) : bool := match v with JLong _ => true | _ => false end.
Definition isPlainObject (v : jsval) : bool := match v with JObj _ _ => true | _ => false end.

Fixpoint canonicalize (value : jsval) : jsval :=
  match value with
  | JArr l => JArr (map canonicalize l)
  | JObj own _ =>
      let done := map (fun p => (p.1, canonicalize p.2)) own in
      JPlain (enumerate (omap (fun k =>
        match assoc k own with
        | Some JUndef | None => None
        | Some _ => pair k <$> assoc k done
        end) (sort_keys (map fst own))))
  | _ => value
  end.

Definition isDefaultScalar (f : field) (value : jsval) : bool :=
  if nullish value then true
  else if match f_resolved f with ResolvedEnum => true | _ => false end
  then strict_eq value (JNum (NInt 0))
  else match value with
  | JLong z => z =? 0
  | _ =>
      if String.eqb (f_type f) "string" then strict_eq value (JStr [])
      else if String.eqb (f_type f) "bool" then strict_eq value (JBool false)
      else if String.eqb (f_type f) "bytes" then
        match value with
        | JStr s => str_empty s
        | JBytes b => zlen b =? 0
        | _ => strict_eq value (JNum (NInt 0))
        end
      else if smem (f_type f)
        ["double"; "float"; "int32"; "uint32"; "sint32"; "fixed32"; "sfixed32";
         "int64"; "uint64"; "sint64"; "fixed64"; "sfixed64"]%string
      then strict_eq value (JNum (NInt 0))
      else false
  end.

(** What [stripDefaults] stores for a field, over the normalisation of its
    message type if it has one; [None] when it stores nothing. *)
Definition strip_value (nested : option (jsval -> jsval)) (f : field) (value : jsval) : option jsval :=
  if nullish value then None
  else if f_map f then
    if negb (is_object value) then None
    else match sorted_copy value with [] => None | l => Some (JPlain l) end
  else if f_repeated f then
    match value with
    | JArr ((_ :: _) as l) => Some (match nested with Some strip => JArr (map strip l) | None => value end)
    | _ => None
    end
  else match nested with
  | Some strip =>
      let n := strip value in
      if truthy n && negb (zlen (own_entries n) =? 0) then Some n else None
  | None => if isDefaultScalar f value then None else Some value
  end.

(** [Object.prototype.hasOwnProperty.call(obj, name)] and the value; arrays,
    buffers and Longs have no own property named like a field. *)
Definition own_field (obj : jsval) (f : field) : option jsval :=
  match obj with JObj own _ => assoc (js (f_name f)) own | _ => None end.

Fixpoint stripDefaults (type : msg_type) (obj : jsval) {struct type} : jsval :=
  if negb (is_object obj) then obj
  else
    match type with
    | MsgType _ fields =>
        JPlain (concat (map (fun f =>
          match f with
          | Field _ name _ _ _ _ _ _ r =>
              match own_field obj f with
              | None => []
              | Some value =>
                  match strip_value (match r with ResolvedMessage t => Some (stripDefaults t) | _ => None end)
                          f value with
                  | Some v => [(js name, v)]
                  | None => []
                  end
              end
          end) fields))
    end.

(** The protobufjs type. *)
Record codec_type : Type := {
  ct_schema : msg_type;
  toObject : jsval -> jsval;
  ct_encode : jsval -> result bytes;
}.

(** A message instance has a [$type], inherited from its class. *)
Definition toPlainObject (type : codec_type) (message : jsval) : jsval :=
  if is_object message && truthy (get message "$type") then toObject type message else message.

Definition encodeDeterministic (type : codec_type) (message : jsval) : result bytes :=
  ct_encode type (stripDefaults (ct_schema type) (toPlainObject type message)).

(** The bytes, and the packet after the call: a plain packet is its own plain
    object, so [delete obj.signature] removes the caller's property. *)
Definition encodeUnsignedForSignature (type : codec_type) (packet : jsval) : result bytes * jsval :=
  let obj := del "signature" (toPlainObject type packet) in
  let packet' := if is_object packet && truthy (get packet "$type") then packet else obj in
  (ct_encode type (stripDefaults (ct_schema type) obj), packet').

(** ** Sorting keys *)

#[global] Instance str_le_antisym : AntiSymm (=) str_le.
Proof.
  unfold str_le. intros a. induction a as [|x a IH]; intros [|y b]; cbn; try done.
  rewrite !orb_true_iff, !andb_true_iff, !Z.ltb_lt, !Z.eqb_eq. intros [?|[? Ha]] [?|[? Hb]]; try lia.
  subst. f_equal. by apply IH.
Qed.

#[global] Instance str_le_trans : Transitive str_le.
Proof.
  unfold str_le. intros a. induction a as [|x a IH]; intros [|y b] [|z c]; cbn; try done.
  rewrite !orb_true_iff, !andb_true_iff, !Z.ltb_lt, !Z.eqb_eq.
  intros [?|[-> Ha]] [?|[-> Hb]]; [left; lia..|]. right. split; [done|]. by apply (IH b).
Qed.

#[global] Instance str_le_total : Total str_le.
Proof.
  unfold Total, str_le. intros a. induction a as [|x a IH]; intros [|y b]; cbn; auto.
  rewrite !orb_true_iff, !andb_true_iff, !Z.ltb_lt, !Z.eqb_eq.
  destruct (Z.lt_trichotomy x y) as [?|[->|?]]; [auto..|].
  - destruct (IH b); auto.
  - auto.
Qed.

Lemma sort_keys_perm l1 l2 : Permutation l1 l2 -> sort_keys l1 = sort_keys l2.
Proof.
  intros Hp. unfold sort_keys. apply (Sorted_unique str_le).
  - apply Sorted_merge_sort, _.
  - apply Sorted_merge_sort, _.
  - by rewrite !merge_sort_Permutation.
Qed.

Lemma sort_keys_Permutation l : Permutation (sort_keys l) l.
Proof. apply merge_sort_Permutation. Qed.

Lemma assoc_perm {A} k (l1 l2 : list (jsstr * A)) :
  NoDup (map fst l1) -> Permutation l1 l2 -> assoc k l1 = assoc k l2.
Proof.
  intros Hd Hp. induction Hp as [|[k1 v1] l1 l2 Hp IH|[k1 v1] [k2 v2] l|l1 l2 l3 H1 IH1 H2 IH2]; cbn in *.
  - done.
  - apply NoDup_cons in Hd as [_ Hd]. by rewrite IH.
  - apply NoDup_cons in Hd as [Hn _]. rewrite list_elem_of_In in Hn. cbn in Hn.
    case_bool_decide as E1; case_bool_decide as E2; try done. subst. tauto.
  - rewrite IH1 by done. apply IH2. by rewrite <- H1.
Qed.

Lemma enumerate_perm {A} (l : list (jsstr * A)) : Permutation (enumerate l) l.
Proof.
  unfold enumerate. rewrite merge_sort_Permutation.
  induction l as [|p l IH]; cbn; [done|]. destruct (is_index p.1); cbn.
  - by constructor.
  - by rewrite <- Permutation_middle, IH.
Qed.

Lemma assoc_Some_keys {A} k (l : list (jsstr * A)) : In k (map fst l) <-> exists v, assoc k l = Some v.
Proof.
  induction l as [|[k' v'] l IH]; cbn; [split; [done | by intros [? ?]]|].
  case_bool_decide as E; [subst; split; eauto|]. rewrite IH. split; [intros [?|?]; [congruence|done] | auto].
Qed.

(** A list whose values are a function of the keys. *)
Lemma assoc_functional {A} (g : jsstr -> option A) (l : list (jsstr * A)) k :
  (forall k v, In (k, v) l -> g k = Some v) ->
  (forall v, g k = Some v -> In k (map fst l)) -> assoc k l = g k.
Proof.
  intros Hg Hk. destruct (assoc k l) as [v|] eqn:E.
  - apply assoc_In, Hg in E. done.
  - destruct (g k) as [v|] eqn:Eg; [|done].
    destruct (proj1 (assoc_Some_keys k l) (Hk v eq_refl)) as [w Hw]. congruence.
Qed.

Lemma omap_assoc_keys {A} (own : list (jsstr * A)) ks :
  (forall k, In k ks -> In k (map fst own)) ->
  map fst (omap (fun k => pair k <$> assoc k own) ks) = ks.
Proof.
  induction ks as [|k ks IH]; intros Hk; [done|]. cbn.
  destruct (proj1 (assoc_Some_keys k own)) as [v ->]; [apply Hk; by left|]. cbn.
  f_equal. apply IH. intros k' Hin. apply Hk. by right.
Qed.

Lemma omap_assoc_In {A} (own : list (jsstr * A)) ks k v :
  In (k, v) (omap (fun k => pair k <$> assoc k own) ks) -> assoc k own = Some v.
Proof.
  induction ks as [|k' ks IH]; cbn; [done|]. destruct (assoc k' own) as [w|] eqn:E; cbn; [|done].
  intros [[= <- <-]|Hin]; auto.
Qed.

(** A sorted copy has the keys and the values of the original. *)
Lemma sorted_copy_keys v : Permutation (map fst (sorted_copy v)) (map fst (own_entries v)).
Proof.
  unfold sorted_copy. rewrite enumerate_perm, omap_assoc_keys; [apply sort_keys_Permutation|].
  intros k. by rewrite sort_keys_Permutation.
Qed.

Lemma sorted_copy_assoc v k : assoc k (sorted_copy v) = assoc k (own_entries v).
Proof.
  apply (assoc_functional (fun k => assoc k (own_entries v))).
  - intros k' x Hin. unfold sorted_copy in Hin. rewrite enumerate_perm in Hin. by eapply omap_assoc_In.
  - intros x Hx. rewrite sorted_copy_keys. apply assoc_Some_keys. eauto.
Qed.

(** It depends on nothing else. *)
Lemma sorted_copy_ext v w :
  Permutation (map fst (own_entries v)) (map fst (own_entries w)) ->
  (forall k, assoc k (own_entries v) = assoc k (own_entries w)) -> sorted_copy v = sorted_copy w.
Proof.
  intros Hk Ha. unfold sorted_copy. f_equal. rewrite (sort_keys_perm _ _ Hk).
  generalize (sort_keys (map fst (own_entries w))) as ks.
  induction ks as [|k ks IH]; cbn; [done|]. by rewrite Ha, IH.
Qed.

Lemma sorted_copy_idem v : sorted_copy (JPlain (sorted_copy v)) = sorted_copy v.
Proof. apply sorted_copy_ext; cbn [own_entries]; [apply sorted_copy_keys | apply sorted_copy_assoc]. Qed.

Lemma sorted_copy_unique own1 inh1 own2 inh2 :
  NoDup (map fst own1) -> Permutation own1 own2 ->
  sorted_copy (JObj own1 inh1) = sorted_copy (JObj own2 inh2).
Proof.
  intros Hd Hp. apply sorted_copy_ext; cbn [own_entries]; [by rewrite Hp|]. intros k. by apply assoc_perm.
Qed.

(** ** Normalisation does not depend on the order of properties *)

(** The default value of a field that is an enum or a scalar. *)
Definition default_value (f : field) (v : jsval) : Prop :=
  match f_resolved f with
  | ResolvedEnum => v = JNum (NInt 0)
  | ResolvedMessage _ => False
  | Unresolved =>
      (f_type f = "string"%string /\ v = JStr []) \/ (f_type f = "bool"%string /\ v = JBool false) \/
      (f_type f = "bytes"%string /\ (v = JStr [] \/ v = JBytes [])) \/
      (In (f_type f) ["double"; "float"; "int32"; "uint32"; "sint32"; "fixed32"; "sfixed32"]%string /\ v = JNum (NInt 0)) \/
      (In (f_type f) ["int64"; "uint64"; "sint64"; "fixed64"; "sfixed64"]%string /\ (v = JNum (NInt 0) \/ v = JLong 0))
  end.

(** A field that says no more than its absence: it is not there, null, the
    default of its type, or an empty map, list or message, where a message is
    empty when all of its fields are. *)
Inductive blank : field -> option jsval -> Prop :=
| blank_absent f : blank f None
| blank_null f v : nullish v = true -> blank f (Some v)
| blank_map f inh : f_map f = true -> blank f (Some (JObj [] inh))
| blank_list f : f_map f = false -> f_repeated f = true -> blank f (Some (JArr []))
| blank_scalar f v : f_map f = false -> f_repeated f = false -> default_value f v -> blank f (Some v)
| blank_message f t own inh :
    f_map f = false -> f_repeated f = false -> f_resolved f = ResolvedMessage t ->
    (forall g, In g (mt_fields t) -> blank g (assoc (js (f_name g)) own)) -> blank f (Some (JObj own inh)).

(** Two messages with the same contents: the same value under each declared
    field, whatever the order of the properties, with map entries in any order,
    or nothing more than the default on both sides, at every depth. *)
Inductive same_msg : msg_type -> jsval -> jsval -> Prop :=
| same_refl t v : same_msg t v v
| same_obj t own1 inh1 own2 inh2 :
    (forall f, In f (mt_fields t) -> same_opt f (assoc (js (f_name f)) own1) (assoc (js (f_name f)) own2)) ->
    same_msg t (JObj own1 inh1) (JObj own2 inh2)
with same_opt : field -> option jsval -> option jsval -> Prop :=
| same_value f o : same_opt f o o
| same_map f own1 inh1 own2 inh2 :
    f_map f = true -> NoDup (map fst own1) -> Permutation own1 own2 ->
    same_opt f (Some (JObj own1 inh1)) (Some (JObj own2 inh2))
| same_repeated f t l1 l2 :
    f_map f = false -> f_repeated f = true -> f_resolved f = ResolvedMessage t ->
    Forall2 (same_msg t) l1 l2 -> same_opt f (Some (JArr l1)) (Some (JArr l2))
| same_nested f t v1 v2 :
    f_map f = false -> f_repeated f = false -> f_resolved f = ResolvedMessage t ->
    same_msg t v1 v2 -> same_opt f (Some v1) (Some v2)
| same_blank f o1 o2 : blank f o1 -> blank f o2 -> same_opt f o1 o2.

(** One field of the result. *)
Definition strip_field (obj : jsval) (f : field) : list (jsstr * jsval) :=
  match own_field obj f with
  | None => []
  | Some value =>
      match strip_value (match f_resolved f with ResolvedMessage t => Some (stripDefaults t) | _ => None end)
              f value with
      | Some v => [(js (f_name f), v)]
      | None => []
      end
  end.

Lemma stripDefaults_unfold t obj :
  stripDefaults t obj = if negb (is_object obj) then obj else JPlain (concat (map (strip_field obj) (mt_fields t))).
Proof.
  destruct t as [name fs]. cbn [stripDefaults mt_fields]. destruct (negb (is_object obj)); [done|].
  do 2 f_equal. apply map_ext. intros []. done.
Qed.

Lemma default_stripped f v : default_value f v -> isDefaultScalar f v = true.
Proof.
  unfold default_value, isDefaultScalar. destruct (f_resolved f); [|by intros ->|done].
  intros [[-> ->]|[[-> ->]|[[-> [-> | ->]]|[[Ht ->]|[Ht [-> | ->]]]]]]; try done; cbn [nullish]; try done;
    cbn in Ht; repeat destruct Ht as [<- | Ht]; done.
Qed.

(** Nothing is stored for a blank field. *)
Lemma blank_stripped f o : blank f o -> forall v, o = Some v ->
  strip_value (match f_resolved f with ResolvedMessage t => Some (stripDefaults t) | _ => None end) f v = None.
Proof.
  induction 1 as [|f v Hv|f inh Hm|f Hm Hr|f v Hm Hr Hd|f t own inh Hm Hr Ht _ IH]; [done|..]; intros w [= <-]; unfold strip_value.
  - by rewrite Hv.
  - by rewrite Hm.
  - by rewrite Hm, Hr.
  - rewrite Hm, Hr. destruct (nullish v); [done|]. pose proof (default_stripped f v Hd) as E. unfold default_value in Hd.
    destruct (f_resolved f); [by rewrite E..|done].
  - rewrite Hm, Hr, Ht. cbn [nullish]. cbn zeta. rewrite stripDefaults_unfold. cbn [is_object negb].
    assert (concat (map (strip_field (JObj own inh)) (mt_fields t)) = []) as ->; [|done].
    induction (mt_fields t) as [|g fs IHf]; [done|]. cbn [map concat]. rewrite IHf by (intros h Hh; apply IH; by right).
    rewrite app_nil_r. unfold strip_field, own_field. specialize (IH g (or_introl eq_refl)).
    destruct (assoc _ own) as [v|]; [|done]. by rewrite (IH v eq_refl).
Qed.

Lemma stripDefaults_same t a b : same_msg t a b -> stripDefaults t a = stripDefaults t b.
Proof.
  revert a b. induction t as [name fs IH] using msg_type_nested_ind. intros a b Hab.
  inversion Hab as [|? own1 inh1 own2 inh2 Hf]; subst; [done|].
  rewrite !stripDefaults_unfold. cbn [is_object negb mt_fields]. do 2 f_equal. apply map_ext_in.
  intros f Hin. specialize (Hf f Hin). unfold strip_field, own_field.
  rewrite Forall_forall in IH. apply list_elem_of_In in Hin. specialize (IH f Hin).
  destruct Hf as [f o|f o1 i1 o2 i2 Hm Hd Hp|f t l1 l2 Hm Hr Ht Hl|f t v1 v2 Hm Hr Ht Hv|f o1 o2 H1 H2]; [done|..].
  - unfold strip_value. rewrite Hm. cbn [nullish is_object negb].
    by rewrite (sorted_copy_unique o1 i1 o2 i2).
  - unfold strip_value. rewrite Hm, Hr, Ht. cbn [nullish].
    assert (map (stripDefaults t) l1 = map (stripDefaults t) l2) as E.
    { clear -IH Hl Ht. induction Hl as [|x y l1 l2 Hxy Hl IHl]; cbn; [done|].
      by rewrite (IH t Ht x y Hxy), IHl. }
    destruct Hl; [done|]. cbn [map] in *. by injection E as -> ->.
  - unfold strip_value. rewrite Hm, Hr, Ht, (IH t Ht v1 v2 Hv).
    by inversion Hv.
  - pose proof (blank_stripped f o1 H1) as E1. pose proof (blank_stripped f o2 H2) as E2.
    destruct o1 as [v1|]; [rewrite (E1 v1 eq_refl)|]; (destruct o2 as [v2|]; [by rewrite (E2 v2 eq_refl) | done]).
Qed.

(** Encoding is a morphism for [same_msg]. *)
#[global] Instance stripDefaults_proper t : Proper (same_msg t ==> eq) (stripDefaults t).
Proof. intros a b. apply stripDefaults_same. Qed.

(** ** Normalisation is a projection *)

(** Field names are distinct, at every depth. *)
Inductive names_ok : msg_type -> Prop :=
| names_ok_intro name fs :
    NoDup (map f_name fs) ->
    Forall (fun f => forall t, f_resolved f = ResolvedMessage t -> names_ok t) fs ->
    names_ok (MsgType name fs).

Abbreviation nested_strip f :=
  (match f_resolved f with ResolvedMessage t => Some (stripDefaults t) | _ => None end).

Lemma assoc_app {A} k (l1 l2 : list (jsstr * A)) :
  assoc k (l1 ++ l2) = match assoc k l1 with Some v => Some v | None => assoc k l2 end.
Proof. induction l1 as [|[k' v'] l1 IH]; cbn; [done|]. by case_bool_decide. Qed.

Lemma strip_field_keys obj f k : assoc k (strip_field obj f) <> None -> k = js (f_name f).
Proof.
  unfold strip_field. destruct (own_field obj f) as [v|]; [|done].
  destruct (strip_value _ f v); [|done]. cbn. by case_bool_decide.
Qed.

Lemma strip_field_assoc obj fs f :
  NoDup (map f_name fs) -> In f fs ->
  assoc (js (f_name f)) (concat (map (strip_field obj) fs)) =
  match own_field obj f with Some value => strip_value (nested_strip f) f value | None => None end.
Proof.
  intros Hd Hin. induction fs as [|g fs IH]; [done|]. cbn [map concat] in *.
  apply NoDup_cons in Hd as [Hn Hd]. rewrite list_elem_of_In in Hn. rewrite assoc_app.
  destruct Hin as [->|Hin].
  - assert (assoc (js (f_name f)) (concat (map (strip_field obj) fs)) = None) as ->.
    { clear IH Hd. induction fs as [|h fs IH]; cbn; [done|]. cbn in Hn. rewrite assoc_app, IH by tauto.
      destruct (assoc _ (strip_field obj h)) eqn:E; [|done]. destruct Hn. left.
      apply js_inj. symmetry. apply (strip_field_keys obj). by rewrite E. }
    unfold strip_field. destruct (own_field obj f) as [v|]; [|done].
    destruct (strip_value _ f v); cbn; [by rewrite bool_decide_true | done].
  - rewrite (IH Hd Hin). destruct (assoc (js (f_name f)) (strip_field obj g)) eqn:E; [|done].
    destruct Hn. assert (f_name f = f_name g) as <-.
    { apply js_inj, (strip_field_keys obj). by rewrite E. }
    by apply in_map.
Qed.

(** A value that was stored is stored again unchanged. *)
Lemma strip_value_stable nested f v w :
  (forall strip, nested = Some strip -> forall x, strip (strip x) = strip x) ->
  strip_value nested f v = Some w -> strip_value nested f w = Some w.
Proof.
  intros Hst Hs. unfold strip_value in *. destruct (nullish v) eqn:Hnv; [done|].
  destruct (f_map f).
  - destruct (negb (is_object v)); [done|]. pose proof (sorted_copy_idem v) as Hi.
    destruct (sorted_copy v) as [|e l] eqn:Hc; [done|]. injection Hs as <-.
    cbn [nullish is_object negb]. by rewrite Hi.
  - destruct (f_repeated f).
    + destruct v as [| | | | | | |[|x l]|]; try done. destruct nested as [strip|]; injection Hs as <-; [|done].
      cbn [map nullish]. rewrite (Hst strip eq_refl x), map_map. do 3 f_equal.
      apply map_ext. intros y. by apply Hst.
    + destruct nested as [strip|].
      * cbn zeta in *. destruct (truthy (strip v) && _) eqn:Hb; [|done]. injection Hs as <-.
        rewrite (Hst strip eq_refl), Hb. by destruct (strip v).
      * destruct (isDefaultScalar f v) eqn:Hdef; [done|]. injection Hs as <-. by rewrite Hnv, Hdef.
Qed.

Lemma stripDefaults_idem t : names_ok t -> forall v, stripDefaults t (stripDefaults t v) = stripDefaults t v.
Proof.
  induction t as [name fs IH] using msg_type_nested_ind. intros Hn v.
  inversion Hn as [? ? Hd Hnf]; subst. rewrite !(stripDefaults_unfold (MsgType name fs)).
  destruct (negb (is_object v)) eqn:Ho; [by rewrite Ho|]. cbn [is_object negb mt_fields].
  do 2 f_equal. apply map_ext_in. intros f Hin. unfold strip_field at 1. cbn [own_field].
  rewrite (strip_field_assoc v fs f Hd Hin). unfold strip_field.
  destruct (own_field v f) as [x|]; [|done].
  destruct (strip_value (nested_strip f) f x) as [w|] eqn:Hs; [|done].
  rewrite (strip_value_stable _ f x w); [done| |done].
  intros strip Hstrip y. rewrite Forall_forall in IH, Hnf. apply list_elem_of_In in Hin.
  specialize (IH f Hin). specialize (Hnf f Hin). destruct (f_resolved f) as [| |t]; try done.
  injection Hstrip as <-. by apply (IH t eq_refl), Hnf.
Qed.

(** ** Claims *)

(** C26. Encoding is deterministic: two messages with the same contents, in
    whatever order their properties and map entries were added, and whether their
    blank fields are absent, null, default values, or empty maps, lists and
    messages, at any depth, have the same bytes. *)
Theorem encodeDeterministic_same (T : codec_type) a b :
  same_msg (ct_schema T) (toPlainObject T a) (toPlainObject T b) ->
  encodeDeterministic T a = encodeDeterministic T b.
Proof. intros Hs. unfold encodeDeterministic. by rewrite Hs. Qed.

(** Normalisation is a projection: a normalised message is its own normal
    form. *)
Theorem stripDefaults_projection t v :
  names_ok t -> stripDefaults t (stripDefaults t v) = stripDefaults t v.
Proof. intros Hn. by apply stripDefaults_idem. Qed.

Definition labels_type : msg_type :=
  MsgType ".cordum.agent.v1.Labels"
    [Field 1 "name" "string" false false "" true None Unresolved;
     Field 2 "labels" "string" false true "string" true None Unresolved;
     Field 3 "attempt" "int32" false false "" true None Unresolved]%string.

Definition labels_codec : codec_type := {|
  ct_schema := labels_type; toObject := fun v => v;
  ct_encode := fun v => Ok (concat (map fst (own_entries (get v "labels")))) |}.

Definition labels_a : jsval :=
  JPlain [(js "name", JStr (js "n")); (js "attempt", JNum (NInt 0));
          (js "labels", JPlain [(js "b", JStr (js "2")); (js "a", JStr (js "1"))])].
Definition labels_b : jsval :=
  JPlain [(js "labels", JPlain [(js "a", JStr (js "1")); (js "b", JStr (js "2"))]);
          (js "name", JStr (js "n"))].

Lemma encodeDeterministic_same_witness :
  encodeDeterministic labels_codec labels_a = encodeDeterministic labels_codec labels_b.
Proof.
  apply (encodeDeterministic_same labels_codec labels_a labels_b).
  apply same_obj. intros f Hf. destruct Hf as [<-|[<-|[<-|[]]]]; [apply same_value | |].
  - apply same_map; [reflexivity | | apply Permutation_swap]. repeat constructor; set_solver.
  - apply same_blank; [|apply blank_absent]. apply blank_scalar; [reflexivity | reflexivity|].
    right. right. right. left. split; [cbn; tauto | reflexivity].
Defined.

Lemma stripDefaults_projection_witness :
  stripDefaults labels_type (stripDefaults labels_type labels_a) = stripDefaults labels_type labels_a /\
  stripDefaults labels_type labels_a =
    JPlain [(js "name", JStr (js "n"));
            (js "labels", JPlain [(js "a", JStr (js "1")); (js "b", JStr (js "2"))])].
Proof.
  split; [|vm_compute; reflexivity].
  apply (stripDefaults_projection labels_type labels_a). constructor.
  - repeat constructor; set_solver.
  - repeat constructor; discriminate.
Defined.

(** Map entries are not always in the order of their keys: keys that look like
    array indices are enumerated first, by value.  For the keys 9 and 10 the
    sorted order is 10, 9, and the encoder is given 9, 10. *)
Lemma index_keys_not_in_key_order :
  map fst (sorted_copy (JPlain [(js "9", JStr (js "x")); (js "10", JStr (js "y"))])) = [js "9"; js "10"] /\
  sort_keys [js "9"; js "10"] = [js "10"; js "9"].
Proof. vm_compute. done. Qed.

(** ** The signature field *)

Lemma own_field_ext t a b :
  is_object a = true -> is_object b = true ->
  (forall f, In f (mt_fields t) -> own_field a f = own_field b f) -> stripDefaults t a = stripDefaults t b.
Proof.
  intros Ha Hb Hf. rewrite !stripDefaults_unfold, Ha, Hb. cbn [negb]. do 2 f_equal. apply map_ext_in.
  intros f Hin. unfold strip_field. by rewrite (Hf f Hin).
Qed.

Lemma own_field_del k o f :
  own_field (del k o) f = if String.eqb (f_name f) k then None else own_field o f.
Proof.
  destruct o; try by destruct (String.eqb _ _). cbn. destruct (String.eqb_spec (f_name f) k) as [->|Hne].
  - apply assoc_del_eq.
  - apply assoc_del_ne. intros E%js_inj. congruence.
Qed.

Lemma is_object_del k o : is_object (del k o) = is_object o.
Proof. by destruct o. Qed.

Lemma same_msg_del t k a b : same_msg t a b -> same_msg t (del k a) (del k b).
Proof.
  destruct 1 as [|t own1 inh1 own2 inh2 Hf]; [apply same_refl|]. apply same_obj. intros f Hin.
  destruct (decide (f_name f = k)) as [->|Hne].
  - rewrite !assoc_del_eq. apply same_value.
  - rewrite !assoc_del_ne by (intros E%js_inj; congruence). by apply Hf.
Qed.

(** Dropping a property before normalising again. *)
Lemma stripDefaults_del t k v :
  names_ok t -> stripDefaults t (del k (stripDefaults t v)) = stripDefaults t (del k v).
Proof.
  intros Hn. destruct Hn as [name fs Hd Hnf]. rewrite (stripDefaults_unfold _ v).
  destruct (is_object v) eqn:Ho; cbn [negb]; [|done].
  rewrite (stripDefaults_unfold _ (del k v)), (stripDefaults_unfold _ (del k (JPlain _))).
  rewrite !is_object_del, Ho. cbn [is_object negb mt_fields]. do 2 f_equal.
  apply map_ext_in. intros f Hin. unfold strip_field at 1 3. rewrite !own_field_del.
  destruct (String.eqb (f_name f) k); [done|]. cbn [own_field].
  rewrite (strip_field_assoc v fs f Hd Hin). destruct (own_field v f) as [x|]; [|done].
  destruct (strip_value (nested_strip f) f x) as [w|] eqn:Hs; [|done].
  rewrite (strip_value_stable _ f x w); [done| |done].
  intros strip Hstrip y. rewrite Forall_forall in Hnf. apply list_elem_of_In in Hin.
  specialize (Hnf f Hin). destruct (f_resolved f) as [| |t]; try done.
  injection Hstrip as <-. by apply stripDefaults_idem, Hnf.
Qed.
