(* ===== verification/PacketBoundary.v ===== *)
(** * Packet boundary

    packet-boundary.ts and security.ts: what leaves and enters the bus outside
    the production profile.  Session tokens, validation of outbound packets,
    ordinary signatures over the normalised encoding, and verification of
    inbound packets.  Calls that mutate the packet return it beside their
    outcome. *)

From S2P Require Import Prelude JsString JsValue Varint WireSchema ProductionSigning Validate Codec.

(** ** packet-boundary.ts *)

Definition MAX_SESSION_TOKEN_SIZE : Z := 16 * 1024.

(** Iteration is by character; the first unit of each is checked, and the
    first unit of a surrogate pair is out of range. *)
Definition invalidToken (token : jsstr) : bool :=
  (zlen token =? 0) || (MAX_SESSION_TOKEN_SIZE <? zlen token) ||
  existsb (fun code => (code <? 0x21) || (0x7e <? code)) token.

Definition assertSessionToken (token : jsval) : result unit :=
  match token with
  | JUndef => Ok tt
  | JStr [] => Ok tt
  | JStr s => throw_if (invalidToken s) MalformedPacketError
                (js "auth_token: must be printable ASCII and at most 16384 bytes")
  | _ => throw MalformedPacketError (js "auth_token: must be printable ASCII and at most 16384 bytes")
  end.

Definition validateAttachedToken (packet : jsval) : result unit :=
  if negb (is_object packet) then Ok tt
  else do! assertSessionToken (get packet "authToken") ;; assertSessionToken (get packet "auth_token").

Definition attachSessionToken (packet : jsval) (sessionToken : option jsstr) : result unit * jsval :=
  match sessionToken with
  | None | Some [] => (Ok tt, packet)
  | Some token =>
      match assertSessionToken (JStr token) with
      | Ok _ => (Ok tt, set "authToken" (JStr token) packet)
      | r => (r, packet)
      end
  end.

Definition error_text_string (m : error_text) : jsstr :=
  match m with Text s => js s | InvalidValue v => js "invalid value " ++ to_text v end.

(** The first eight errors, joined. *)
Definition details (errors : list ValidationError) : jsstr :=
  join (js "; ") (map (fun e => js (ve_field e) ++ js ": " ++ error_text_string (ve_message e)) (take 8 errors)).

Definition validateOutboundPacket (packet : jsval) : result unit :=
  do! validateAttachedToken packet ;;
  let errors := validateBusPacket packet in
  throw_if (negb (zlen errors =? 0)) MalformedPacketError (details errors).

Definition prepareOutboundPacket (packet : jsval) (sessionToken : option jsstr) : result unit * jsval :=
  match attachSessionToken packet sessionToken with
  | (Ok _, packet) => (validateOutboundPacket packet, packet)
  | (r, packet) => (r, packet)
  end.

Section Boundary.
(** [createSign("sha256")] over the bytes, with a PEM key. *)
Context (sign_pem : jsstr -> bytes -> result bytes).

Definition encodeOutboundPacket (packetType : codec_type) (packet : jsval) (privateKey : option jsstr)
    : result bytes * jsval :=
  match validateOutboundPacket packet with
  | Throw e => (Throw e, packet)
  | NoFuel => (NoFuel, packet)
  | Ok _ =>
      match privateKey with
      | Some ((_ :: _) as key) =>
          match encodeUnsignedForSignature packetType packet with
          | (r, packet) =>
              match (let! unsigned := r in sign_pem key unsigned) with
              | Ok signature =>
                  let packet := set "signature" (JBytes signature) packet in
                  (encodeDeterministic packetType packet, packet)
              | Throw e => (Throw e, packet)
              | NoFuel => (NoFuel, packet)
              end
          end
      | _ => (encodeDeterministic packetType packet, packet)
      end
  end.

(** ** security.ts *)

Context (C : crypto).

Definition requireSender (value : jsval) : result jsstr :=
  match value with
  | JStr s => if zlen (trim s) =? 0
              then throw SignatureInvalidError (js "authenticated sender identity is required") else Ok s
  | _ => throw SignatureInvalidError (js "authenticated sender identity is required")
  end.

Definition requireSignature (value : jsval) : result bytes :=
  match value with
  | JBytes b => if zlen b =? 0 then throw SignatureMissingError (js "inbound signature is required") else Ok b
  | _ => throw SignatureMissingError (js "inbound signature is required")
  end.

Definition lookupPublicKey (publicKeyMap : list (jsstr * jsval)) (senderId : jsstr) : result jsstr :=
  match assoc senderId publicKeyMap with
  | None => throw SignatureInvalidError (js "no trusted public key for sender")
  | Some (JStr s) => if zlen (trim s) =? 0
                     then throw SignatureInvalidError (js "trusted public key is invalid") else Ok s
  | Some _ => throw SignatureInvalidError (js "trusted public key is invalid")
  end.

Definition requireP256PublicKey (publicKey : jsstr) : result (public_key C) :=
  let! key := try_catch (createPublicKey C publicKey)
    (fun _ => throw SignatureInvalidError (js "trusted public key is invalid")) in
  do! throw_if (negb (bool_decide (asymmetricKeyType C key = js "ec")) ||
                negb (bool_decide (namedCurve C key = Some (js "prime256v1"))))
        SignatureInvalidError (js "trusted public key must use ECDSA P-256") ;;
  Ok key.

(** The outcome and the packet after the call. *)
Definition verifySignature (packetType : codec_type) (packet : jsval) (publicKey : jsstr) (signature : bytes)
    : result bool * jsval :=
  match requireP256PublicKey publicKey with
  | Throw e => (Throw e, packet)
  | NoFuel => (NoFuel, packet)
  | Ok key =>
      let '(r, packet) := encodeUnsignedForSignature packetType packet in
      (try_catch (let! unsigned := r in Ok (verify C key unsigned signature))
         (fun _ => throw SignatureInvalidError (js "trusted public key is invalid")), packet)
  end.

Definition verifyInboundPacket (packetType : codec_type) (packet : jsval)
    (publicKeyMap : option (list (jsstr * jsval))) : result unit * jsval :=
  let validationErrors := validateBusPacket packet in
  if negb (zlen validationErrors =? 0) then (throw MalformedPacketError (details validationErrors), packet)
  else
    match publicKeyMap with
    | None => (Ok tt, packet)
    | Some keys =>
        match (let! senderId := requireSender (get packet "senderId") in
               let! signature := requireSignature (get packet "signature") in
               let! publicKey := lookupPublicKey keys senderId in
               Ok (publicKey, signature)) with
        | Throw e => (Throw e, packet)
        | NoFuel => (NoFuel, packet)
        | Ok (publicKey, signature) =>
            let '(r, packet) := verifySignature packetType packet publicKey signature in
            (let! ok := r in
             throw_if (negb ok) SignatureInvalidError (js "inbound signature verification failed"), packet)
        end
    end.
End Boundary.

(** ** Claims *)

Lemma no_errors_iff p : negb (zlen (validateBusPacket p) =? 0) = false <-> valid_packet p.
Proof.
  rewrite negb_false_iff, Z.eqb_eq, <- validateBusPacket_nil. split; [apply zlen_0_inv | by intros ->].
Qed.

Lemma requireSender_iff v s : requireSender v = Ok s <-> v = JStr s /\ trim s <> [].
Proof.
  destruct v as [| | | |t| | | |]; cbn; try naive_solver.
  destruct (Z.eqb_spec (zlen (trim t)) 0) as [E|E].
  - apply zlen_0_inv in E. split; [done|]. intros [[= ->] H]. done.
  - split; [|by intros [[= ->] _]]. intros [= ->]. split; [done|]. intros E'. by rewrite E' in E.
Qed.

Lemma requireSignature_iff v b : requireSignature v = Ok b <-> v = JBytes b /\ b <> [].
Proof.
  destruct v as [| | | | |b'| | |]; cbn; try naive_solver.
  destruct (Z.eqb_spec (zlen b') 0) as [E|E].
  - apply zlen_0_inv in E. split; [done|]. intros [[= ->] H]. done.
  - split; [|by intros [[= ->] _]]. intros [= ->]. split; [done|]. intros ->. done.
Qed.

Lemma lookupPublicKey_iff keys s pem :
  lookupPublicKey keys s = Ok pem <-> assoc s keys = Some (JStr pem) /\ trim pem <> [].
Proof.
  unfold lookupPublicKey. destruct (assoc s keys) as [[| | | |t| | | |]|]; try naive_solver.
  destruct (Z.eqb_spec (zlen (trim t)) 0) as [E|E].
  - apply zlen_0_inv in E. split; [done|]. intros [[= ->] H]. done.
  - split; [|by intros [[= ->] _]]. intros [= ->]. split; [done|]. intros E'. by rewrite E' in E.
Qed.

Definition prime256v1_key (C : crypto) (pem : jsstr) (key : public_key C) : Prop :=
  createPublicKey C pem = Ok key /\ asymmetricKeyType C key = js "ec" /\
  namedCurve C key = Some (js "prime256v1").

Lemma requireP256PublicKey_iff C pem key :
  requireP256PublicKey C pem = Ok key <-> prime256v1_key C pem key.
Proof.
  unfold requireP256PublicKey, prime256v1_key. rewrite bind_Ok_iff. setoid_rewrite try_catch_throw_Ok_iff.
  split.
  - intros (k & Hk & H). rewrite do_Ok_iff, throw_if_Ok_iff, orb_false_iff, !negb_false_iff,
      !bool_decide_eq_true in H. destruct H as [[? ?] [= <-]]. done.
  - intros (Hk & Ht & Hc). exists key. split; [done|]. by rewrite !bool_decide_true.
Qed.

(** What inbound verification with a key map establishes. *)
Definition authenticated (C : crypto) (T : codec_type) (p : jsval) (keys : list (jsstr * jsval)) : Prop :=
  exists s pem sig key unsigned,
    get p "senderId" = JStr s /\ trim s <> [] /\
    get p "signature" = JBytes sig /\ sig <> [] /\
    assoc s keys = Some (JStr pem) /\ trim pem <> [] /\ prime256v1_key C pem key /\
    (encodeUnsignedForSignature T p).1 = Ok unsigned /\ verify C key unsigned sig = true.

Lemma verifyInbound_iff C T p keys :
  (verifyInboundPacket C T p (Some keys)).1 = Ok tt <-> valid_packet p /\ authenticated C T p keys.
Proof.
  unfold verifyInboundPacket, authenticated. rewrite <- no_errors_iff.
  destruct (negb (zlen (validateBusPacket p) =? 0)); [by split; [|intros []]|].
  match goal with |- context [match ?m with Ok _ => _ | Throw _ => _ | NoFuel => _ end] => set (pre := m) end.
  assert (forall pem sig, pre = Ok (pem, sig) <->
    exists s, get p "senderId" = JStr s /\ trim s <> [] /\ get p "signature" = JBytes sig /\ sig <> [] /\
      assoc s keys = Some (JStr pem) /\ trim pem <> []) as Hpre.
  { intros pem sig. unfold pre. rewrite bind_Ok_iff. split.
    - intros (s & Hs%requireSender_iff & H). apply bind_Ok_iff in H as (b & Hb%requireSignature_iff & H).
      apply bind_Ok_iff in H as (k & Hk%lookupPublicKey_iff & [= <- <-]). naive_solver.
    - intros (s & Hs & Hst & Hb & Hne & Hk & Hkt). exists s. split; [by apply requireSender_iff|].
      rewrite (proj2 (requireSignature_iff _ sig)) by done. cbn [mbind result_bind].
      by rewrite (proj2 (lookupPublicKey_iff keys s pem)). }
  destruct pre as [[pem sig]|e|].
  2-3: (split; [done|]; intros (_ & s & pem & sig & key & u & H1 & H2 & H3 & H4 & H5 & H6 & _);
        discriminate (proj2 (Hpre pem sig) ltac:(eauto 10))).
  unfold verifySignature. destruct (encodeUnsignedForSignature T p) as [r p'] eqn:Hu.
  destruct (proj1 (Hpre pem sig) eq_refl) as (s & H1 & H2 & H3 & H4 & H5 & H6).
  destruct (requireP256PublicKey C pem) as [key|e|] eqn:Hkey; cbn [fst].
  2-3: (split; [done|]; intros (_ & s' & pem' & sig' & key & u & G1 & _ & _ & _ & G5 & _ & Hp & _);
        assert (pem' = pem) as -> by congruence; apply requireP256PublicKey_iff in Hp; congruence).
  apply requireP256PublicKey_iff in Hkey. split.
  - intros (ok & Hok & Hv%throw_if_Ok_iff%negb_false_iff)%bind_Ok_iff. subst ok.
    apply try_catch_throw_Ok_iff, bind_Ok_iff in Hok as (u & -> & [= Hv]).
    split; [done|]. exists s, pem, sig, key, u. repeat split; try done; apply Hkey.
  - intros (_ & s' & pem' & sig' & key' & u & G1 & _ & G3 & _ & G5 & _ & (Gk & _) & Gu & Gv).
    destruct Hkey as (Hk & _). assert (pem' = pem) as -> by congruence.
    assert (key' = key) as -> by congruence. assert (sig' = sig) as -> by congruence.
    rewrite Gu. cbn. by rewrite Gv.
Qed.

(** C27. With a key map, an inbound packet is accepted exactly when it is a valid
    packet and carries a signature that verifies, over its normalised encoding
    without the signature, with the P-256 key the map holds for its sender;
    without a key map, exactly when it is valid. *)
Theorem verifyInboundPacket_iff C T p keys :
  ((verifyInboundPacket C T p (Some keys)).1 = Ok tt <-> valid_packet p /\ authenticated C T p keys) /\
  ((verifyInboundPacket C T p None).1 = Ok tt <-> valid_packet p).
Proof.
  split; [apply verifyInbound_iff|]. unfold verifyInboundPacket. rewrite <- no_errors_iff.
  by destruct (negb _).
Qed.

(** *** Ordinary signatures *)

Lemma set_del_fields k v o f :
  own_field (del k (set k v (del k o))) f = own_field (del k o) f.
Proof.
  rewrite !own_field_del. destruct (String.eqb_spec (f_name f) k) as [_|Hne]; [done|].
  destruct o; try done. cbn. rewrite assoc_set_ne by (intros E%js_inj; congruence).
  apply assoc_del_ne. intros E%js_inj. congruence.
Qed.

Definition own_prop (v : jsval) (k : string) : option jsval :=
  match v with JObj own _ => assoc (js k) own | _ => None end.

Definition nonempty_value (v : jsval) : Prop :=
  match v with JStr s => s <> [] | JBytes b => b <> [] | _ => False end.

(** The schema declares a singular field of a scalar type. *)
Definition scalar_field (t : msg_type) (name type : string) : Prop :=
  exists f, In f (mt_fields t) /\ f_name f = name /\ f_type f = type /\
    f_map f = false /\ f_repeated f = false /\ f_resolved f = Unresolved.

Lemma strip_nonempty f v :
  f_map f = false -> f_repeated f = false -> f_resolved f = Unresolved ->
  In (f_type f) ["string"; "bytes"]%string -> nonempty_value v -> strip_value (nested_strip f) f v = Some v.
Proof.
  intros Hm Hr Hu Ht Hv. unfold strip_value, isDefaultScalar. rewrite Hm, Hr, Hu.
  destruct Ht as [<-|[<-|[]]]; destruct v as [| | | |[|c w]|[|c w]| | |]; done.
Qed.

Lemma nonempty_not_blank f v :
  f_resolved f = Unresolved -> nonempty_value v -> ~ blank f (Some v).
Proof.
  intros Hu Hv Hb. inversion Hb as [|? ? Hn| | |? ? _ _ Hd|? ? ? ? _ _ Ht]; subst; try done; [by destruct v|].
  unfold default_value in Hd. rewrite Hu in Hd. by destruct v; naive_solver.
Qed.

Lemma same_scalar f o v :
  f_map f = false -> f_repeated f = false -> f_resolved f = Unresolved -> ~ blank f (Some v) ->
  same_opt f o (Some v) -> o = Some v.
Proof. intros Hm Hr Hu Hb Hs. inversion Hs; subst; congruence || done. Qed.

Lemma same_msg_field t a own f :
  same_msg t a (JPlain own) -> In f (mt_fields t) ->
  a = JPlain own \/ same_opt f (own_prop a (f_name f)) (assoc (js (f_name f)) own).
Proof. intros Hs Hin. inversion Hs as [|? o1 i1 o2 i2 Hf]; subst; [by left|]. right. by apply Hf. Qed.

(** The object an instance or a plain packet is encoded as. *)
Section OrdinarySignature.
Context (T : codec_type) (Hnames : names_ok (ct_schema T)).
(** [toObject] converts each field on its own: the signature does not affect
    the others, and an instance is converted to an object. *)
Context (toObject_field : forall p s, truthy (get p "$type") = true ->
  same_msg (ct_schema T) (del "signature" (toObject T (set "signature" (JBytes s) p)))
                         (del "signature" (toObject T p))).

(** The bytes that are signed do not change when the signature is stored. *)
Lemma unsigned_stable p s :
  (encodeUnsignedForSignature T (set "signature" (JBytes s) (encodeUnsignedForSignature T p).2)).1
  = (encodeUnsignedForSignature T p).1.
Proof using toObject_field.
  unfold encodeUnsignedForSignature. cbn zeta. cbn [fst snd]. unfold toPlainObject at 1 2 3.
  destruct (is_object p && truthy (get p "$type")) eqn:Hi.
  - apply andb_true_iff in Hi as [Ho Ht]. unfold toPlainObject.
    rewrite get_set_ne, Ht by done.
    assert (is_object (set "signature" (JBytes s) p) = true) as -> by (by destruct p).
    cbn [andb]. by rewrite (toObject_field p s Ht).
  - assert (is_object (set "signature" (JBytes s) (del "signature" p)) &&
            truthy (get (set "signature" (JBytes s) (del "signature" p)) "$type") = false) as E.
    { rewrite get_set_ne, get_del_ne by done. rewrite <- Hi at 1. by destruct p. }
    unfold toPlainObject. rewrite E. destruct (is_object p) eqn:Ho.
    + f_equal. apply own_field_ext.
      * rewrite is_object_del. by destruct p.
      * by rewrite is_object_del.
      * intros f _. apply set_del_fields.
    + by destruct p.
Qed.

(** The two fields that verification reads from the instance itself are the
    ones [toObject] copies, when they are set. *)
Context (toObject_reads : forall p k v, truthy (get p "$type") = true ->
  In k ["senderId"; "signature"]%string -> nonempty_value v ->
  get p k = v <-> own_prop (toObject T p) k = Some v).

(** The value a packet has for a field when it is encoded. *)
Definition sent_field (m : jsval) (k : string) : option jsval :=
  own_prop (toPlainObject T m) k.

Lemma received_unsigned sent d :
  is_object d = true -> truthy (get d "$type") = true ->
  same_msg (ct_schema T) (toObject T d) (stripDefaults (ct_schema T) (toPlainObject T sent)) ->
  (encodeUnsignedForSignature T d).1 = (encodeUnsignedForSignature T sent).1.
Proof using Hnames.
  intros Ho Ht Hc. unfold encodeUnsignedForSignature. cbn zeta. cbn [fst].
  unfold toPlainObject at 1. rewrite Ho, Ht. cbn [andb].
  apply (same_msg_del _ "signature") in Hc. by rewrite Hc, stripDefaults_del.
Qed.

(** A sender or a signature that was sent is read from the instance. *)
Lemma received_field sent d k type v :
  truthy (get d "$type") = true ->
  same_msg (ct_schema T) (toObject T d) (stripDefaults (ct_schema T) (toPlainObject T sent)) ->
  In k ["senderId"; "signature"]%string -> nonempty_value v ->
  scalar_field (ct_schema T) k type -> In type ["string"; "bytes"]%string ->
  sent_field sent k = Some v -> get d k = v.
Proof using Hnames toObject_reads.
  intros Ht Hc Hk Hv (f & Hin & <- & Htype & Hm & Hr & Hu) Hty Hs. apply toObject_reads; [done..|].
  unfold sent_field in Hs. destruct (toPlainObject T sent) as [| | | | | | | |own inh] eqn:Ep; try done.
  rewrite stripDefaults_unfold in Hc. cbn [is_object negb] in Hc.
  pose proof (strip_field_assoc (JObj own inh) (mt_fields (ct_schema T)) f) as Hf.
  cbn [own_field] in Hf. cbn [own_prop] in Hs. rewrite Hs in Hf.
  rewrite (strip_nonempty f v) in Hf by (try done; congruence).
  destruct (same_msg_field _ _ _ f Hc Hin) as [Hsame|Hsame].
  - rewrite Hsame. apply Hf; [by inversion Hnames | done].
  - rewrite Hf in Hsame; [|by inversion Hnames | done]. apply (same_scalar f) in Hsame; try done.
    apply nonempty_not_blank; congruence.
Qed.

Lemma plain_signed own inh sig :
  is_object (JObj own inh) && truthy (get (JObj own inh) "$type") = false ->
  toPlainObject T (set "signature" (JBytes sig) (del "signature" (JObj own inh))) =
  JObj (assoc_set (js "signature") (JBytes sig) (assoc_del (js "signature") own)) inh.
Proof.
  intros Hi. unfold toPlainObject. rewrite get_set_ne, get_del_ne by done.
  destruct (truthy (get (JObj own inh) "$type")); [done|]. by rewrite andb_false_r.
Qed.

(** Storing the signature keeps the sender. *)
Lemma sent_fields packet sig s :
  let sent := set "signature" (JBytes sig) (encodeUnsignedForSignature T packet).2 in
  sig <> [] -> s <> [] -> sent_field packet "senderId" = Some (JStr s) ->
  sent_field sent "senderId" = Some (JStr s) /\ sent_field sent "signature" = Some (JBytes sig).
Proof using toObject_reads.
  cbn zeta. intros Hsig Hne. unfold sent_field, encodeUnsignedForSignature. cbn zeta. cbn [snd].
  assert (toPlainObject T packet = if is_object packet && truthy (get packet "$type") then toObject T packet else packet)
    as -> by done.
  destruct (is_object packet && truthy (get packet "$type")) eqn:Hi.
  - apply andb_true_iff in Hi as [Ho Ht]. intros Hs.
    assert (truthy (get (set "signature" (JBytes sig) packet) "$type") = true) as Ht' by (by rewrite get_set_ne).
    unfold toPlainObject. rewrite Ht'. assert (is_object (set "signature" (JBytes sig) packet) = true) as ->
      by (by destruct packet). cbn [andb].
    split; apply (toObject_reads _ _ _ Ht'); cbn; try tauto.
    + rewrite get_set_ne by done. apply toObject_reads; cbn; tauto.
    + destruct packet; try done; apply get_set_eq.
  - destruct packet as [| | | | | | | |own inh]; try done. intros Hs.
    rewrite (plain_signed _ _ _ Hi). cbn [own_prop] in *. split.
    + rewrite assoc_set_ne, assoc_del_ne by (intros E%js_inj; done). done.
    + apply assoc_set_eq.
Qed.

(** The decoder of the packet type. *)
Context (decode : bytes -> result jsval).

(** A message that survives the protobuf library: its encoding decodes to an
    instance whose plain object is the normal form that was encoded. *)
Definition decodes_back (m : jsval) : Prop :=
  forall u, encodeDeterministic T m = Ok u ->
  exists d, decode u = Ok d /\ is_object d = true /\ truthy (get d "$type") = true /\
    same_msg (ct_schema T) (toObject T d) (stripDefaults (ct_schema T) (toPlainObject T m)).

(** C28. A packet signed on its way out is authenticated on its way in: when a
    packet with a sender is encoded and signed, and the encoded message survives
    the protobuf library, the bytes on the wire decode to a packet whose
    signature verifies with the P-256 key the receiver holds for the sender,
    although both sides sign and verify a re-encoding of the normalised message
    and not those bytes.  [verifyInboundPacket] then accepts it exactly when the
    decoded packet is valid, which normalisation does not promise. *)
Theorem ordinary_sign_verify sign_pem C packet key data sent keys s pem pub :
  scalar_field (ct_schema T) "senderId" "string" -> scalar_field (ct_schema T) "signature" "bytes" ->
  (forall m sig, sign_pem key m = Ok sig -> sig <> [] /\ verify C pub m sig = true) ->
  key <> [] ->
  encodeOutboundPacket sign_pem T packet (Some key) = (Ok data, sent) ->
  decodes_back sent ->
  sent_field packet "senderId" = Some (JStr s) -> trim s <> [] ->
  assoc s keys = Some (JStr pem) -> trim pem <> [] -> prime256v1_key C pem pub ->
  exists d, decode data = Ok d /\ authenticated C T d keys /\
    ((verifyInboundPacket C T d (Some keys)).1 = Ok tt <-> valid_packet d).
Proof using Hnames toObject_field toObject_reads.
  intros Fs Fg Hpair Hkey Henc Hback Hs Hst Ha Hpem Hpub.
  unfold encodeOutboundPacket in Henc. destruct (validateOutboundPacket packet) as [u| |]; [|done..].
  destruct key as [|c key]; [done|].
  pose proof (unsigned_stable packet) as Hstable. pose proof (sent_fields packet) as Hfields.
  destruct (encodeUnsignedForSignature T packet) as [r packet'] eqn:Hu. cbn [fst snd] in Hstable, Hfields.
  destruct r as [unsigned| |]; [|done..]. cbn [mbind result_bind] in Henc.
  destruct (sign_pem (c :: key) unsigned) as [sig| |] eqn:Hsign; [|done..].
  injection Henc as Hd <-. destruct (Hpair _ _ Hsign) as [Hne Hv].
  assert (s <> []) as Hs0 by (by intros ->).
  destruct (Hfields sig s Hne Hs0 Hs) as [Gs Gg].
  destruct (Hback data Hd) as (d & Hdec & Ho & Ht & Hc). exists d. split; [done|].
  assert (authenticated C T d keys) as Hauth.
  { exists s, pem, sig, pub, unsigned. repeat split; try done; try apply Hpub.
    - apply (received_field _ d _ "string" _ Ht Hc); cbn; tauto.
    - apply (received_field _ d _ "bytes" _ Ht Hc); cbn; tauto.
    - rewrite (received_unsigned _ _ Ho Ht Hc). apply Hstable. }
  split; [done|]. rewrite verifyInbound_iff. tauto.
Qed.
End OrdinarySignature.

(** ** Session tokens *)

(** A token that may travel: printable ASCII within the limit. *)
Definition token_ok (t : jsstr) : Prop :=
  0 < zlen t <= 16384 /\ forallb printable t = true.

Lemma invalidToken_false t : invalidToken t = false <-> token_ok t.
Proof.
  unfold invalidToken, token_ok, MAX_SESSION_TOKEN_SIZE.
  rewrite !orb_false_iff, Z.eqb_neq, Z.ltb_ge. pose proof (zlen_nonneg t).
  assert (existsb (fun code => (code <? 33) || (126 <? code)) t = false <-> forallb printable t = true) as ->.
  { induction t as [|c t IH]; cbn [existsb forallb]; [done|]. rewrite orb_false_iff, andb_true_iff, IH
      by apply zlen_nonneg. unfold printable. rewrite orb_false_iff, andb_true_iff, !Z.ltb_ge, !Z.leb_le. tauto. }
  split; intros H0; repeat split; try apply H0; lia.
Qed.

(** A token property that is unset, empty, or may travel. *)
Definition token_field_ok (v : jsval) : Prop :=
  v = JUndef \/ v = JStr [] \/ exists t, v = JStr t /\ token_ok t.

Lemma assertSessionToken_iff v : assertSessionToken v = Ok tt <-> token_field_ok v.
Proof.
  unfold token_field_ok. destruct v as [| | | |[|c t]| | | |]; cbn [assertSessionToken]; try naive_solver.
  rewrite throw_if_Ok_iff, invalidToken_false. naive_solver.
Qed.

(** A packet that is prepared for the bus is valid and leaks no malformed
    token: after [prepareOutboundPacket] succeeds, the packet carries the given
    session token as [authToken] (or what it had, if none is given), and every
    token it carries is printable ASCII of at most 16384 bytes; nothing else in
    the packet has changed. *)
Theorem prepareOutboundPacket_ok own inh token :
  let p := JObj own inh in
  (prepareOutboundPacket p token).1 = Ok tt ->
  let p' := (prepareOutboundPacket p token).2 in
  valid_packet p' /\
  token_field_ok (get p' "authToken") /\ token_field_ok (get p' "auth_token") /\
  get p' "authToken" = match token with Some ((_ :: _) as t) => JStr t | _ => get p "authToken" end /\
  (forall k, k <> "authToken"%string -> get p' k = get p k).
Proof.
  cbn zeta. set (p := JObj own inh).
  assert (forall q, validateOutboundPacket q = Ok tt -> is_object q = true ->
            valid_packet q /\ token_field_ok (get q "authToken") /\ token_field_ok (get q "auth_token")) as Hout.
  { intros q. unfold validateOutboundPacket, validateAttachedToken. intros Hq Ho. rewrite Ho in Hq.
    cbn [negb] in Hq. cbn zeta in Hq.
    rewrite !do_Ok_iff, !assertSessionToken_iff, throw_if_Ok_iff, no_errors_iff in Hq. tauto. }
  unfold prepareOutboundPacket, attachSessionToken.
  destruct token as [[|c t]|]; cbn [fst snd].
  - intros Hv. destruct (Hout p Hv eq_refl) as (? & ? & ?). done.
  - destruct (assertSessionToken (JStr (c :: t))) as [[]| |] eqn:Ha; cbn [fst snd]; [|done..].
    intros Hv. destruct (Hout _ Hv eq_refl) as (? & ? & ?). do 3 (split; [done|]).
    split; [apply get_set_eq|]. intros k Hk. by apply get_set_ne.
  - intros Hv. destruct (Hout p Hv eq_refl) as (? & ? & ?). done.
Qed.

(** ** Concrete instances *)

Definition boundary_field (n : Z) (name type : string) (r : resolved) : WireSchema.field :=
  Field n name type false false "" true None r.

Definition boundary_schema : msg_type :=
  MsgType ".cordum.agent.v1.BusPacket"
    [boundary_field 1 "traceId" "string" Unresolved; boundary_field 2 "senderId" "string" Unresolved;
     boundary_field 3 "createdAt" "google.protobuf.Timestamp"
       (ResolvedMessage (MsgType ".google.protobuf.Timestamp" [boundary_field 1 "seconds" "int64" Unresolved]));
     boundary_field 4 "protocolVersion" "int32" Unresolved;
     boundary_field 12 "heartbeat" "Heartbeat"
       (ResolvedMessage (MsgType ".cordum.agent.v1.Heartbeat" [boundary_field 1 "workerId" "string" Unresolved]));
     boundary_field 16 "jobCancel" "JobCancel"
       (ResolvedMessage (MsgType ".cordum.agent.v1.JobCancel" [boundary_field 1 "jobId" "string" Unresolved]));
     boundary_field 14 "signature" "bytes" Unresolved; boundary_field 18 "authToken" "string" Unresolved]%string.

(** The fields of an instance that are set. *)
Definition copy_fields (fs : list WireSchema.field) (v : jsval) : list (jsstr * jsval) :=
  concat (map (fun f => if nullish (get v (f_name f)) then [] else [(js (f_name f), get v (f_name f))]) fs).

Definition boundary_type : codec_type := {|
  ct_schema := boundary_schema;
  toObject := fun v => JPlain (copy_fields (mt_fields boundary_schema) v);
  ct_encode := fun v => Ok (concat (map fst (own_entries v)) ++ default [] (as_str (get v "senderId"))) |}.

Definition toy_sign (_ : jsstr) (m : bytes) : result bytes := Ok (ProductionSigning.sha256 toy_crypto m).

Definition heartbeat_packet : list (jsstr * jsval) :=
  [(js "traceId", JStr (js "w1")); (js "senderId", JStr (js "w1")); (js "protocolVersion", JNum (NInt 1));
   (js "createdAt", JPlain [(js "seconds", JNum (NInt 1700000000))]);
   (js "heartbeat", JPlain [(js "workerId", JStr (js "w1"))])].

Definition heartbeat_sent : jsval :=
  (encodeOutboundPacket toy_sign boundary_type (JPlain heartbeat_packet) (Some (js "KEY"))).2.

Definition heartbeat_bytes : bytes :=
  match (encodeOutboundPacket toy_sign boundary_type (JPlain heartbeat_packet) (Some (js "KEY"))).1 with
  | Ok b => b
  | _ => []
  end.

Definition heartbeat_received : jsval :=
  match stripDefaults boundary_schema heartbeat_sent with
  | JObj own _ => JObj own [(js "$type", JBool true)]
  | v => v
  end.

Definition heartbeat_decode (u : bytes) : result jsval :=
  if bool_decide (u = heartbeat_bytes) then Ok heartbeat_received else throw TypeError (js "index out of range").

Lemma boundary_names : names_ok boundary_schema.
Proof.
  constructor; [repeat constructor; set_solver|].
  repeat (apply Forall_cons; split); try apply Forall_nil_2; intros t [= <-];
    (constructor; [repeat constructor; set_solver | repeat constructor; discriminate]).
Qed.

Lemma copy_fields_assoc fs p f :
  In f fs -> assoc (js (f_name f)) (copy_fields fs p) =
    if nullish (get p (f_name f)) then None else Some (get p (f_name f)).
Proof.
  unfold copy_fields. induction fs as [|g fs IH]; [done|]. cbn [map concat]. rewrite assoc_app.
  destruct (decide (f_name g = f_name f)) as [E|Hne].
  - rewrite E. intros _. destruct (nullish (get p (f_name f))) eqn:Hn; cbn; [|by rewrite bool_decide_true].
    clear IH E. induction fs as [|h fs IH]; cbn [map concat]; [done|]. rewrite assoc_app, IH.
    destruct (nullish (get p (f_name h))) eqn:Hh; [done|]. cbn.
    by rewrite bool_decide_false by (intros E%js_inj; congruence).
  - intros [->|Hin]; [done|]. rewrite (IH Hin). destruct (nullish (get p (f_name g))); cbn; [done|].
    by rewrite bool_decide_false by (intros E%js_inj; congruence).
Qed.

Lemma boundary_toObject p s :
  truthy (get p "$type") = true ->
  same_msg boundary_schema (del "signature" (toObject boundary_type (set "signature" (JBytes s) p)))
                           (del "signature" (toObject boundary_type p)).
Proof.
  intros _. apply same_obj. intros f Hf. destruct (decide (f_name f = "signature"%string)) as [->|Hne].
  - rewrite !assoc_del_eq. apply same_value.
  - rewrite !assoc_del_ne, !copy_fields_assoc, get_set_ne by (done || intros E%js_inj; congruence). apply same_value.
Qed.

Lemma boundary_reads p k v :
  truthy (get p "$type") = true -> In k ["senderId"; "signature"]%string -> nonempty_value v ->
  get p k = v <-> own_prop (toObject boundary_type p) k = Some v.
Proof.
  intros _ Hk Hv. assert (exists f, In f (mt_fields boundary_schema) /\ f_name f = k) as (f & Hf & <-).
  { destruct Hk as [<-|[<-|[]]].
    - exists (boundary_field 2 "senderId" "string" Unresolved). cbn. tauto.
    - exists (boundary_field 14 "signature" "bytes" Unresolved). cbn. tauto. }
  cbn [toObject boundary_type own_prop]. rewrite copy_fields_assoc by done.
  split; [intros ->; by destruct v | by destruct (nullish _); intros [= ->]].
Qed.

Lemma heartbeat_decodes_back : decodes_back boundary_type heartbeat_decode heartbeat_sent.
Proof.
  intros u Hu. exists heartbeat_received. split; [|split; [|split]].
  - unfold heartbeat_decode. rewrite bool_decide_true; [done|].
    enough (Ok u = Ok heartbeat_bytes) by congruence. rewrite <- Hu. vm_compute. reflexivity.
  - vm_compute. reflexivity.
  - vm_compute. reflexivity.
  - match goal with |- same_msg _ ?a ?b => assert (a = b) as -> by (vm_compute; reflexivity) end. apply same_refl.
Qed.

Lemma ordinary_sign_verify_witness :
  exists d, heartbeat_decode heartbeat_bytes = Ok d /\
    authenticated toy_crypto boundary_type d [(js "w1", JStr (js "PEM"))] /\
    ((verifyInboundPacket toy_crypto boundary_type d (Some [(js "w1", JStr (js "PEM"))])).1 = Ok tt <-> valid_packet d).
Proof.
  apply (ordinary_sign_verify boundary_type boundary_names boundary_toObject boundary_reads heartbeat_decode
           toy_sign toy_crypto (JPlain heartbeat_packet) (js "KEY") heartbeat_bytes
           heartbeat_sent [(js "w1", JStr (js "PEM"))] (js "w1") (js "PEM") tt).
  - exists (boundary_field 2 "senderId" "string" Unresolved). cbn. tauto.
  - exists (boundary_field 14 "signature" "bytes" Unresolved). cbn. tauto.
  - intros m sig [= <-]. split; [discriminate|]. apply bool_decide_eq_true. reflexivity.
  - discriminate.
  - vm_compute. reflexivity.
  - apply heartbeat_decodes_back.
  - vm_compute. reflexivity.
  - vm_compute. discriminate.
  - vm_compute. reflexivity.
  - vm_compute. discriminate.
  - repeat split.
Defined.

(** The decoded packet is valid, so it is accepted. *)
Example heartbeat_accepted :
  (verifyInboundPacket toy_crypto boundary_type heartbeat_received (Some [(js "w1", JStr (js "PEM"))])).1 = Ok tt.
Proof. vm_compute. reflexivity. Qed.

(** A packet may leave with an empty payload that normalisation drops, and that
    the receiver then misses. *)
Definition empty_cancel : jsval :=
  JPlain [(js "traceId", JStr (js "w1")); (js "senderId", JStr (js "w1")); (js "protocolVersion", JNum (NInt 1));
          (js "createdAt", JPlain [(js "seconds", JNum (NInt 1700000000))]); (js "jobCancel", JPlain [])].

Example empty_payload_dropped :
  validateOutboundPacket empty_cancel = Ok tt /\
  validateBusPacket (stripDefaults boundary_schema empty_cancel) <> [].
Proof. split; [vm_compute; reflexivity | vm_compute; discriminate]. Qed.

Lemma prepareOutboundPacket_ok_witness :
  get (prepareOutboundPacket (JPlain heartbeat_packet) (Some (js "tok"))).2 "authToken" = JStr (js "tok").
Proof.
  apply (prepareOutboundPacket_ok heartbeat_packet [] (Some (js "tok"))). vm_compute. reflexivity.
Defined.
