(* ===== verification/WorkerTrustContract.v ===== *)
(** * Worker trust: configuration, identities, time and copies

    src/sdk/node/src/worker-trust-contract.ts, worker-trust-time.ts and
    worker-trust-clone.ts.  Keys of node:crypto are the [key_api] parameter; a
    [Date] is the number of milliseconds of its [getTime], [None] when it is
    not a date or not a valid one. *)

From S2P Require Import Prelude JsString JsValue.

(** ** Keys of node:crypto

    A [KeyLike] is a key object or material one can be made from. *)
Record key_api : Type := {
  key_object : Type;
  key_like : Type;
  as_key_object : key_like -> option key_object;
  of_key_object : key_object -> key_like;
  as_of_key_object : forall k, as_key_object (of_key_object k) = Some k;
  create_private : key_like -> result key_object;
  create_public : key_like -> result key_object;
  ko_type : key_object -> jsstr;
  ko_kind : key_object -> option jsstr;
  ko_curve : key_object -> option jsstr;
  ko_sign : key_object -> bytes -> bytes;
  ko_verify : key_object -> bytes -> bytes -> result bool;
  ko_sha256 : bytes -> bytes;
  ko_export : key_object -> jsstr
}.

Inductive key_usage : Set := Private | Public.

Definition usage_text (u : key_usage) : jsstr :=
  match u with Private => js "private" | Public => js "public" end.

(** ** Constants *)

Definition WORKER_HANDSHAKE_AUDIENCE : jsstr := js "cordum-scheduler".
Definition WORKER_HANDSHAKE_PROTOCOL_VERSION : Z := 1.
Definition WORKER_HANDSHAKE_NONCE_SIZE : Z := 32.
Definition WORKER_HANDSHAKE_MAX_PACKET_SIZE : Z := 64 * 1024.
Definition WORKER_HANDSHAKE_MAX_IDENTITY_LENGTH : Z := 256.
Definition WORKER_HANDSHAKE_MAX_SESSION_TOKEN_SIZE : Z := 16 * 1024.
Definition WORKER_HANDSHAKE_MAX_SKEW_MS : Z := 60000.
Definition WORKER_HANDSHAKE_MAX_LIFETIME_MS : Z := 60000.
Definition NANOS_PER_MILLISECOND : Z := 1000000.
Definition NANOS_PER_SECOND : Z := 1000000000.
Definition MIN_PROTO_SECONDS : Z := -62135596800.
Definition MAX_PROTO_SECONDS : Z := 253402300799.

(** ** Modes *)

Inductive WorkerTrustMode : Set := OFF | WARN | ENFORCE.

#[global] Instance WorkerTrustMode_eq_dec : EqDecision WorkerTrustMode.
Proof. solve_decision. Defined.

Definition mode_text (m : WorkerTrustMode) : jsstr :=
  match m with OFF => js "off" | WARN => js "warn" | ENFORCE => js "enforce" end.

(** [toLowerCase] where it matters here: no character outside A-Z has one of
    the letters of the three modes as its lower case. *)
Definition to_lower (s : jsstr) : jsstr :=
  map (fun c => if between 65 90 c then c + 32 else c) s.

Definition parseWorkerTrustMode (raw : jsval) : result WorkerTrustMode :=
  let normalized := match raw with JStr s => to_lower (trim s) | _ => [] end in
  match find (fun m => bool_decide (mode_text m = normalized)) [OFF; WARN; ENFORCE] with
  | Some mode => Ok mode
  | None => throw WorkerTrustModeError (js "invalid worker trust mode: " ++ to_text raw)
  end.

(** ** Identities and keys *)

Definition requireIdentity (value : jsval) (field : string) : result jsstr :=
  match value with
  | JStr s =>
      if str_empty s || negb (trimmed s) || (WORKER_HANDSHAKE_MAX_IDENTITY_LENGTH <? zlen s)
      then throw WorkerTrustConfigError (js field ++ js " is invalid")
      else Ok s
  | _ => throw WorkerTrustConfigError (js field ++ js " is invalid")
  end.

Section Keys.
Context (K : key_api).

Definition requireP256Key (value : key_like K) (expectedType : key_usage) : result (key_object K) :=
  let! key := try_catch
    (match as_key_object K value with
     | Some key => Ok key
     | None => match expectedType with
               | Private => create_private K value
               | Public => create_public K value
               end
     end)
    (fun _ => throw WorkerTrustConfigError (js "worker trust key is invalid")) in
  let curve := ko_curve K key in
  do! throw_if
        (negb (bool_decide (ko_type K key = usage_text expectedType)) ||
         negb (bool_decide (ko_kind K key = Some (js "ec"))) ||
         (negb (bool_decide (curve = Some (js "prime256v1"))) &&
          negb (bool_decide (curve = Some (js "P-256")))))
        WorkerTrustConfigError
        (js "worker trust key must be " ++ usage_text expectedType ++ js " P-256") ;;
  Ok key.

(** The configuration; key ids are listed in the order [Object.entries] yields
    them.  The same record serves for the input, whose keys may be any
    [KeyLike]. *)
Record WorkerTrustConfig : Type := {
  workerId : jsval;
  expectedAgentId : jsval;
  tenantId : jsval;
  wt_audience : jsval;
  proofKeyId : jsval;
  proofPrivateKey : key_like K;
  expectedSchedulerId : jsval;
  schedulerPublicKeys : option (list (jsstr * key_like K));
  sdkVersion : jsval
}.

Definition config_identities (c : WorkerTrustConfig) : list jsval :=
  [workerId c; expectedAgentId c; tenantId c; proofKeyId c; expectedSchedulerId c; sdkVersion c].

Definition scheduler_keys (c : WorkerTrustConfig) : list (jsstr * key_like K) :=
  default [] (schedulerPublicKeys c).

Definition validateWorkerTrustConfig (config : option WorkerTrustConfig) : result unit :=
  match config with
  | None => throw WorkerTrustConfigError (js "worker trust configuration is required")
  | Some config =>
      do! iter_result (fun value => let! _ := requireIdentity value "worker trust identity" in Ok tt)
            (config_identities config) ;;
      do! throw_if (negb (strict_eq (wt_audience config) (JStr WORKER_HANDSHAKE_AUDIENCE)))
            WorkerTrustConfigError (js "worker trust audience is invalid") ;;
      let! _ := requireP256Key (proofPrivateKey config) Private in
      do! throw_if (match scheduler_keys config with [] => true | _ => false end)
            WorkerTrustConfigError (js "scheduler trust keys are required") ;;
      iter_result (fun '(keyId, key) =>
          let! _ := requireIdentity (JStr keyId) "scheduler key ID" in
          let! _ := requireP256Key key Public in Ok tt)
        (scheduler_keys config)
  end.

(** The loop that resolves the scheduler keys. *)
Fixpoint resolve_keys (entries : list (jsstr * key_like K)) : result (list (jsstr * key_like K)) :=
  match entries with
  | [] => Ok []
  | (keyId, value) :: rest =>
      let! _ := requireIdentity (JStr keyId) "scheduler key ID" in
      let! key := requireP256Key value Public in
      let! keys := resolve_keys rest in
      Ok ((keyId, of_key_object K key) :: keys)
  end.

Definition createWorkerTrustConfig (input : option WorkerTrustConfig) : result WorkerTrustConfig :=
  match input with
  | None => throw WorkerTrustConfigError (js "worker trust configuration is required")
  | Some input =>
      let! keys := resolve_keys (scheduler_keys input) in
      let! proof := requireP256Key (proofPrivateKey input) Private in
      let config := {|
        workerId := workerId input; expectedAgentId := expectedAgentId input;
        tenantId := tenantId input; wt_audience := wt_audience input;
        proofKeyId := proofKeyId input; proofPrivateKey := of_key_object K proof;
        expectedSchedulerId := expectedSchedulerId input;
        schedulerPublicKeys := Some keys; sdkVersion := sdkVersion input |} in
      do! validateWorkerTrustConfig (Some config) ;;
      Ok config
  end.
End Keys.

Arguments workerId {K} _.
Arguments expectedAgentId {K} _.
Arguments tenantId {K} _.
Arguments wt_audience {K} _.
Arguments proofKeyId {K} _.
Arguments proofPrivateKey {K} _.
Arguments expectedSchedulerId {K} _.
Arguments schedulerPublicKeys {K} _.
Arguments sdkVersion {K} _.
Arguments scheduler_keys {K} _.
Arguments config_identities {K} _.

(** ** Timestamps *)

Abbreviation date := (option Z).

Definition invalid_timestamp {A} : result A :=
  throw WorkerHandshakePacketError (js "timestamp is invalid").

Definition timestampFromDate (value : date) : result jsval :=
  match value with
  | None => invalid_timestamp
  | Some ms =>
      let seconds := num_floor (num_div (NInt ms) 1000) in
      Ok (JPlain [(js "seconds", JNum seconds);
                  (js "nanos", JNum (num_scale (num_sub (NInt ms) (num_scale seconds 1000)) 1000000))])
  end.

(** [v?.toString()] *)
Definition optional_text (v : jsval) : option jsstr :=
  if nullish v then None else Some (to_text v).

Definition timestampNanos (value : jsval) : result Z :=
  if negb (is_object value) then invalid_timestamp
  else
    let secondsText := default (js "undefined") (optional_text (get value "seconds")) in
    match coalesce (get value "nanos") (JNum (NInt 0)) with
    | JNum (NInt nanos) =>
        if negb (canonical_decimal secondsText) || (nanos <? 0) || (1000000000 <=? nanos)
        then invalid_timestamp
        else
          let seconds := bigint_of secondsText in
          do! throw_if ((seconds <? MIN_PROTO_SECONDS) || (MAX_PROTO_SECONDS <? seconds))
                WorkerHandshakePacketError (js "timestamp is outside protobuf range") ;;
          Ok (seconds * NANOS_PER_SECOND + nanos)
    | _ => invalid_timestamp
    end.

(** BigInt division truncates; a Date holds at most 8.64e15 milliseconds
    either side of the epoch. *)
Definition dateFromTimestamp (value : jsval) : result date :=
  let! nanos := timestampNanos value in
  let milliseconds := to_double (Z.quot nanos NANOS_PER_MILLISECOND) in
  if Z.abs milliseconds <=? 8640000000000000 then Ok (Some milliseconds) else invalid_timestamp.

Definition dateNanos (value : date) : result Z :=
  match value with
  | None => invalid_timestamp
  | Some ms => Ok (ms * NANOS_PER_MILLISECOND)
  end.

(** ** Freshness *)

Definition requireFreshTimestamp (value : jsval) (now : date) (field : string) : result unit :=
  let! at_ := timestampNanos value in
  let! nowNanos := dateNanos now in
  let difference := if nowNanos <=? at_ then at_ - nowNanos else nowNanos - at_ in
  throw_if (WORKER_HANDSHAKE_MAX_SKEW_MS * 1000000 <? difference)
    WorkerHandshakeExpiredError (js field ++ js " exceeds allowed skew").

Definition requireLiveChallenge (challenge : jsval) (now : date) : result unit :=
  do! requireFreshTimestamp (get challenge "issuedAt") now "challenge issued_at" ;;
  let! expires := timestampNanos (get challenge "expiresAt") in
  let! nowNanos := dateNanos now in
  throw_if (expires <=? nowNanos) WorkerHandshakeExpiredError (js "challenge is expired").

(** ** Copies *)

(** [{ ...v }] *)
Definition spread (v : jsval) : jsval := JPlain (own_entries v).

(** [new Uint8Array(v)] of a buffer, or of nothing. *)
Definition copy_bytes (v : jsval) : jsval :=
  match v with JBytes b => JBytes b | _ => JBytes [] end.

Definition cloneChallenge (value : jsval) : jsval :=
  set "expiresAt" (spread (get value "expiresAt"))
    (set "issuedAt" (spread (get value "issuedAt"))
      (set "serverNonce" (copy_bytes (get value "serverNonce"))
        (set "clientNonce" (copy_bytes (get value "clientNonce")) (spread value)))).

(** [[...v]] *)
Definition spread_array (v : jsval) : result jsval :=
  match v with
  | JArr l => Ok (JArr l)
  | JBytes b => Ok (JArr (map (fun x => JNum (NInt x)) b))
  | JStr s => Ok (JArr (map JStr (string_chars s)))
  | _ => throw TypeError (js "value is not iterable")
  end.

Definition cloneCapability (value : jsval) : result jsval :=
  let! versions := spread_array (coalesce (get value "supportedVersions") (JArr [])) in
  let! topics := spread_array (coalesce (get value "readyTopics") (JArr [])) in
  Ok (set "readyTopics" topics
       (set "capabilities" (spread (get value "capabilities"))
         (set "supportedVersions" versions (spread value)))).

(** [Buffer.from(left).equals(Buffer.from(right))] *)
Definition sameBytes (left right : jsval) : result bool :=
  match left, right with
  | JBytes a, JBytes b => Ok (bool_decide (a = b))
  | _, _ => throw TypeError (js "The first argument must be an instance of Buffer")
  end.

(** ** Modes and identities *)

Lemma parseWorkerTrustMode_Ok raw m :
  parseWorkerTrustMode raw = Ok m <-> exists s, raw = JStr s /\ to_lower (trim s) = mode_text m.
Proof.
  unfold parseWorkerTrustMode. cbn zeta. split.
  - destruct raw; cbn [find]; repeat case_bool_decide; try discriminate; intros [= <-]; eauto.
  - intros (s & -> & Hs). destruct m; rewrite Hs; done.
Qed.

Definition identity_text (v : jsval) (s : jsstr) : Prop :=
  v = JStr s /\ s <> [] /\ trim s = s /\ zlen s <= 256.

Lemma requireIdentity_iff v f s : requireIdentity v f = Ok s <-> identity_text v s.
Proof.
  unfold requireIdentity, identity_text, WORKER_HANDSHAKE_MAX_IDENTITY_LENGTH, trimmed.
  destruct v as [| | | |t| | | |]; try (split; [discriminate | naive_solver]).
  destruct t as [|c t]; [cbn; naive_solver|]. cbn [str_empty orb].
  case_bool_decide; destruct (Z.ltb_spec 256 (zlen (c :: t))); cbn [negb orb];
    (split; [first [discriminate | intros [= <-]; done] | intros ([= <-] & ? & ? & ?); try done; lia]).
Qed.

Section KeyLemmas.
Context (K : key_api).

(** The P-256 key of the wanted sort that a [KeyLike] stands for. *)
Definition p256_object (value : key_like K) (u : key_usage) (key : key_object K) : Prop :=
  (as_key_object K value = Some key \/
   as_key_object K value = None /\
   match u with Private => create_private K value = Ok key | Public => create_public K value = Ok key end) /\
  ko_type K key = usage_text u /\ ko_kind K key = Some (js "ec") /\
  (ko_curve K key = Some (js "prime256v1") \/ ko_curve K key = Some (js "P-256")).

Lemma requireP256Key_iff value u key : requireP256Key K value u = Ok key <-> p256_object value u key.
Proof.
  unfold requireP256Key, p256_object. rewrite bind_Ok_iff. split.
  - intros (k & Hk & H). apply try_catch_throw_Ok_iff in Hk. apply do_Ok_iff in H as [H [= <-]].
    apply throw_if_Ok_iff in H. rewrite !orb_false_iff, !negb_false_iff, !bool_decide_eq_true in H.
    destruct H as [[-> ->] Hc]. split.
    + destruct (as_key_object K value); [naive_solver | destruct u; naive_solver].
    + split; [done|]. split; [done|]. apply andb_false_iff in Hc. rewrite !negb_false_iff, !bool_decide_eq_true in Hc. done.
  - intros (Hk & Ht & Hkind & Hc). exists key. split.
    + apply try_catch_Ok. destruct Hk as [->|[-> Hk]]; [done | by destruct u].
    + rewrite Ht, Hkind. rewrite !bool_decide_eq_true_2 by done.
      destruct Hc as [-> | ->]; done.
Qed.

Lemma p256_of_object key u :
  ko_type K key = usage_text u -> ko_kind K key = Some (js "ec") ->
  (ko_curve K key = Some (js "prime256v1") \/ ko_curve K key = Some (js "P-256")) ->
  p256_object (of_key_object K key) u key.
Proof. intros. split; [left; apply as_of_key_object | done]. Qed.

Lemma p256_resolved value u key : p256_object value u key -> p256_object (of_key_object K key) u key.
Proof. intros (_ & ? & ? & ?). by apply p256_of_object. Qed.

(** ** Configurations *)

(** A scheduler key entry and the entry of the resolved configuration. *)
Definition resolves_to (entry entry' : jsstr * key_like K) : Prop :=
  (exists s, identity_text (JStr entry.1) s) /\
  exists key, p256_object entry.2 Public key /\ entry' = (entry.1, of_key_object K key).

Record valid_config (c : WorkerTrustConfig K) : Prop := {
  vc_identities : Forall (fun v => exists s, identity_text v s) (config_identities c);
  vc_audience : wt_audience c = JStr (js "cordum-scheduler");
  vc_proof : exists key, p256_object (proofPrivateKey c) Private key;
  vc_some_key : scheduler_keys c <> [];
  vc_keys : Forall (fun e => exists e', resolves_to e e') (scheduler_keys c)
}.

Lemma requireIdentity_unit v f :
  (let! _ := requireIdentity v f in Ok tt) = Ok tt <-> exists s, identity_text v s.
Proof.
  rewrite bind_Ok_iff. setoid_rewrite requireIdentity_iff. naive_solver.
Qed.

Lemma validateWorkerTrustConfig_iff c : validateWorkerTrustConfig K (Some c) = Ok tt <-> valid_config c.
Proof.
  unfold validateWorkerTrustConfig. rewrite !do_Ok_iff, bind_Ok_iff, iter_result_Ok_iff, throw_if_Ok_iff,
    negb_false_iff, strict_eq_str.
  setoid_rewrite requireIdentity_unit. setoid_rewrite do_Ok_iff.
  setoid_rewrite throw_if_Ok_iff. setoid_rewrite iter_result_Ok_iff. setoid_rewrite requireP256Key_iff.
  assert (forall e, (let '(keyId, key) := e in
              let! _ := requireIdentity (JStr keyId) "scheduler key ID" in
              let! _ := requireP256Key K key Public in Ok tt) = Ok tt <-> exists e', resolves_to e e') as He.
  { intros [i k]. unfold resolves_to. cbn [fst snd]. rewrite bind_Ok_iff. setoid_rewrite bind_Ok_iff.
    setoid_rewrite requireIdentity_iff. setoid_rewrite requireP256Key_iff. split.
    - intros (s & Hs & key & Hk & _). exists (i, of_key_object K key). eauto.
    - intros (e' & [s Hs] & key & Hk & _). eauto 6. }
  setoid_rewrite He. split.
  - intros (? & ? & key & ? & Hne & ?). split; eauto. by destruct (scheduler_keys c).
  - intros [? ? [key ?] Hne ?]. split; [done|]. split; [done|]. exists key. split; [done|].
    split; [by destruct (scheduler_keys c) | done].
Qed.

Lemma resolve_keys_iff entries entries' :
  resolve_keys K entries = Ok entries' <-> Forall2 resolves_to entries entries'.
Proof.
  revert entries'. induction entries as [|[i v] rest IH]; intros entries'; cbn [resolve_keys].
  - split; [by intros [= <-] | by intros ->%Forall2_nil_inv_l].
  - split.
    + intros (s & Hs%requireIdentity_iff & H)%bind_Ok_iff.
      apply bind_Ok_iff in H as (key & Hk%requireP256Key_iff & H).
      apply bind_Ok_iff in H as (ks & Hks%IH & [= <-]).
      constructor; [|done]. split; [by exists s | by exists key].
    + intros (e' & l' & [[s Hs] (key & Hk & ->)] & Hr & ->)%Forall2_cons_inv_l. cbn [fst snd] in *.
      rewrite (proj2 (requireIdentity_iff _ _ _) Hs). cbn.
      rewrite (proj2 (requireP256Key_iff _ _ _) Hk). cbn. rewrite (proj2 (IH _) Hr). done.
Qed.

(** The configuration [createWorkerTrustConfig] returns for an input. *)
Record resolved_config (input c : WorkerTrustConfig K) : Prop := {
  rc_identities : config_identities c = config_identities input;
  rc_audience : wt_audience c = wt_audience input;
  rc_proof : exists key, p256_object (proofPrivateKey input) Private key /\
                         proofPrivateKey c = of_key_object K key;
  rc_keys : exists keys, schedulerPublicKeys c = Some keys /\
                         Forall2 resolves_to (scheduler_keys input) keys
}.

Lemma resolved_config_valid input c : resolved_config input c -> valid_config input -> valid_config c.
Proof.
  intros [Hi Ha (key & Hkey & Hp) (keys & Hs & HF)] [Vi Va Vp Vn Vk].
  assert (scheduler_keys c = keys) as Hsk by (unfold scheduler_keys; by rewrite Hs).
  split; rewrite ?Hi, ?Ha, ?Hsk, ?Hp; try done.
  - exists key. by eapply p256_resolved.
  - intros ->. apply Forall2_nil_inv_r in HF. done.
  - clear -HF. induction HF as [|e e' l l' [Hid (k & Hk & ->)] _ IH]; constructor; [|done].
    exists (e.1, of_key_object K k). split; [done|]. exists k. split; [by eapply p256_resolved | done].
Qed.

(** [createWorkerTrustConfig] returns a configuration exactly when the
    input is valid: six trimmed identities of at most 256 code units, the
    scheduler audience, a private P-256 proof key and at least one scheduler
    key, each with a valid id and a public P-256 key.  The result keeps every
    identity and holds the key objects themselves. *)
Theorem createWorkerTrustConfig_iff (input c : WorkerTrustConfig K) :
  createWorkerTrustConfig K (Some input) = Ok c <->
  valid_config input /\ resolved_config input c.
Proof.
  unfold createWorkerTrustConfig. rewrite bind_Ok_iff. setoid_rewrite bind_Ok_iff.
  setoid_rewrite resolve_keys_iff. setoid_rewrite requireP256Key_iff. split.
  - intros (keys & Hkeys & proof & Hproof & H). apply do_Ok_iff in H as [Hv [= <-]].
    pose proof Hv as [Hi Ha _ Hn _]%validateWorkerTrustConfig_iff. split.
    + split; [done | done | by exists proof | |].
      * intros E. rewrite E in Hkeys. apply Forall2_nil_inv_l in Hkeys. by subst.
      * clear -Hkeys. induction Hkeys; constructor; eauto.
    + split; [done | done | by exists proof | by exists keys].
  - intros (Hval & Hres). pose proof (resolved_config_valid _ _ Hres Hval) as Hv. destruct Hres as [Hi Ha (key & Hkey & Hp) (keys & Hs & HF)].
    exists keys. split; [done|]. exists key. split; [done|].
    assert (c = {| workerId := workerId input; expectedAgentId := expectedAgentId input;
        tenantId := tenantId input; wt_audience := wt_audience input;
        proofKeyId := proofKeyId input; proofPrivateKey := of_key_object K key;
        expectedSchedulerId := expectedSchedulerId input;
        schedulerPublicKeys := Some keys; sdkVersion := sdkVersion input |}) as <-.
    { destruct c; cbn in *. injection Hi as -> -> -> -> -> ->. congruence. }
    rewrite do_Ok_iff, validateWorkerTrustConfig_iff. done.
Qed.
End KeyLemmas.

(** ** Timestamps *)

(** The instant, in nanoseconds since the epoch, that a protobuf timestamp
    denotes: the text of its seconds is an integer in the range of years 1 to
    9999, and its nanos, absent or a number, are in range. *)
Inductive instant : jsval -> Z -> Prop :=
| instant_intro v text seconds nanos :
    is_object v = true ->
    optional_text (get v "seconds") = Some text ->
    text = decimal_text seconds \/ (text = js "-0" /\ seconds = 0) ->
    (get v "nanos" = JNum (NInt nanos) \/ nullish (get v "nanos") = true /\ nanos = 0) ->
    -62135596800 <= seconds <= 253402300799 -> 0 <= nanos < 1000000000 ->
    instant v (seconds * 1000000000 + nanos).

Lemma coalesce_nanos v nanos :
  coalesce v (JNum (NInt 0)) = JNum (NInt nanos) <->
  v = JNum (NInt nanos) \/ nullish v = true /\ nanos = 0.
Proof. unfold coalesce. destruct v; cbn; naive_solver. Qed.

Lemma timestampNanos_iff v n : timestampNanos v = Ok n <-> instant v n.
Proof.
  unfold timestampNanos. destruct (is_object v) eqn:Ho; cbn [negb]; [|split; [done | intros Hi; inversion Hi; congruence]].
  set (c := coalesce (get v "nanos") (JNum (NInt 0))).
  assert (forall z, c = JNum (NInt z) <-> get v "nanos" = JNum (NInt z) \/ nullish (get v "nanos") = true /\ z = 0) as Hc
    by (intros z; apply coalesce_nanos).
  split.
  - destruct c as [| | |[nanos| | |]| | | | |]; try discriminate.
    destruct (canonical_decimal _) eqn:Hcan; cbn [negb orb]; [|discriminate].
    destruct (Z.ltb_spec nanos 0); [discriminate|]. destruct (Z.leb_spec 1000000000 nanos); [discriminate|].
    cbn [orb]. intros [Hr [= <-]]%do_Ok_iff. apply throw_if_Ok_iff in Hr.
    apply orb_false_iff in Hr as [?%Z.ltb_ge ?%Z.ltb_ge]. unfold MIN_PROTO_SECONDS, MAX_PROTO_SECONDS in *.
    destruct (optional_text _) as [text|] eqn:Ht; [|by vm_compute in Hcan].
    apply (instant_intro v text); try done; [|by apply Hc].
    apply parse_text_iff. done.
  - intros Hi. inversion Hi as [v' text seconds nanos _ Ht Htext Hn Hs Hb]. subst v'. apply Hc in Hn. rewrite Hn, Ht. cbn [from_option id].
    apply parse_text_iff in Htext as [Hcan Hbig].
    rewrite Hcan, Hbig. cbn [negb orb].
    destruct (Z.ltb_spec nanos 0); [lia|]. destruct (Z.leb_spec 1000000000 nanos); [lia|]. cbn [orb].
    unfold MIN_PROTO_SECONDS, MAX_PROTO_SECONDS.
    destruct (Z.ltb_spec seconds (-62135596800)); [lia|]. destruct (Z.ltb_spec 253402300799 seconds); [lia|]. done.
Qed.

Lemma instant_functional v n n' : instant v n -> instant v n' -> n = n'.
Proof. rewrite <- !timestampNanos_iff. congruence. Qed.

Lemma dateNanos_iff d n : dateNanos d = Ok n <-> exists ms, d = Some ms /\ n = ms * 1000000.
Proof. unfold dateNanos, NANOS_PER_MILLISECOND. destruct d; split; naive_solver. Qed.

(** Within a minute of [now]. *)
Definition fresh (v : jsval) (now : date) : Prop :=
  exists at_ ms, instant v at_ /\ now = Some ms /\ Z.abs (at_ - ms * 1000000) <= 60000 * 1000000.

Lemma requireFreshTimestamp_iff v now f : requireFreshTimestamp v now f = Ok tt <-> fresh v now.
Proof.
  unfold requireFreshTimestamp, fresh, WORKER_HANDSHAKE_MAX_SKEW_MS. rewrite bind_Ok_iff.
  setoid_rewrite timestampNanos_iff. setoid_rewrite bind_Ok_iff. setoid_rewrite dateNanos_iff.
  setoid_rewrite throw_if_Ok_iff. setoid_rewrite Z.ltb_ge. split.
  - intros (at_ & Hat & n & (ms & -> & ->) & H). exists at_, ms. split; [done|]. split; [done|].
    destruct (Z.leb_spec (ms * 1000000) at_); lia.
  - intros (at_ & ms & Hat & -> & H). exists at_. split; [done|]. exists (ms * 1000000). split; [by exists ms|].
    destruct (Z.leb_spec (ms * 1000000) at_); lia.
Qed.

(** Issued within a minute of [now] and not expired. *)
Definition live_challenge (ch : jsval) (now : date) : Prop :=
  fresh (get ch "issuedAt") now /\
  exists e ms, instant (get ch "expiresAt") e /\ now = Some ms /\ ms * 1000000 < e.

Lemma requireLiveChallenge_iff ch now : requireLiveChallenge ch now = Ok tt <-> live_challenge ch now.
Proof.
  unfold requireLiveChallenge, live_challenge. rewrite do_Ok_iff, requireFreshTimestamp_iff, bind_Ok_iff.
  setoid_rewrite timestampNanos_iff. setoid_rewrite bind_Ok_iff. setoid_rewrite dateNanos_iff.
  setoid_rewrite throw_if_Ok_iff. setoid_rewrite Z.leb_gt. naive_solver.
Qed.

Lemma number_of_Z_small z : Z.abs z <= 2 ^ 53 -> number_of_Z z = NInt z.
Proof.
  intros Hz. unfold number_of_Z. rewrite to_double_exact by done.
  destruct (Z.leb_spec (2 ^ 1024) (Z.abs z)); [|done].
  assert (2 ^ 53 < 2 ^ 1024) by (apply Z.pow_lt_mono_r; lia). lia.
Qed.

Lemma timestampFromDate_value ms :
  0 <= ms < 2 ^ 52 ->
  timestampFromDate (Some ms) =
  Ok (JPlain [(js "seconds", JNum (NInt (ms / 1000))); (js "nanos", JNum (NInt (ms mod 1000 * 1000000)))]).
Proof.
  intros Hms. unfold timestampFromDate. cbn [num_div]. rewrite floor_number_of_ratio by lia.
  pose proof (Z.mod_pos_bound ms 1000 ltac:(lia)). pose proof (Z.div_mod ms 1000 ltac:(lia)) as Hdm.
  assert (0 <= ms / 1000) by (apply Z.div_pos; lia).
  cbn [num_scale]. rewrite number_of_Z_small by lia. unfold num_sub. cbn [num_neg num_add].
  rewrite (number_of_Z_small (ms + _)) by lia. cbn [num_scale]. rewrite number_of_Z_small by lia.
  replace (ms + - (ms / 1000 * 1000)) with (ms mod 1000) by lia. done.
Qed.

Lemma timestampFromDate_instant ms :
  0 <= ms < 253402300800000 ->
  exists t, timestampFromDate (Some ms) = Ok t /\ instant t (ms * 1000000).
Proof.
  intros Hms. eexists. split; [apply timestampFromDate_value; lia|].
  pose proof (Z.mod_pos_bound ms 1000 ltac:(lia)). pose proof (Z.div_mod ms 1000 ltac:(lia)).
  assert (0 <= ms / 1000 <= 253402300799) by (split; [apply Z.div_pos; lia | apply Z.lt_succ_r, Z.div_lt_upper_bound; lia]).
  replace (ms * 1000000) with (ms / 1000 * 1000000000 + ms mod 1000 * 1000000) by lia.
  eapply instant_intro; [done | | left; reflexivity | left; reflexivity | lia | lia].
  change (optional_text (JNum (NInt (ms / 1000))) = Some (decimal_text (ms / 1000))).
  unfold optional_text. cbn [nullish to_text number_to_text].
  destruct (Z.leb_spec (Z.abs (ms / 1000)) (2 ^ 53)); [done | lia].
Qed.

(** Dates survive the protobuf timestamp: for every instant from the
    epoch to the end of year 9999, [dateFromTimestamp] returns the date that
    [timestampFromDate] was given, and the timestamp denotes that very
    instant, although the seconds are computed with a floating-point
    division. *)
Theorem date_timestamp_roundtrip (ms : Z) :
  0 <= ms < 253402300800000 ->
  exists t, timestampFromDate (Some ms) = Ok t /\ timestampNanos t = Ok (ms * 1000000) /\
            dateFromTimestamp t = Ok (Some ms).
Proof.
  intros Hms. destruct (timestampFromDate_instant ms Hms) as (t & Ht & Hi%timestampNanos_iff).
  exists t. split; [done|]. split; [done|]. unfold dateFromTimestamp. rewrite Hi. cbn [mbind result_bind].
  unfold NANOS_PER_MILLISECOND. rewrite Z.quot_mul, to_double_exact by lia.
  destruct (Z.leb_spec (Z.abs ms) 8640000000000000); [done | lia].
Qed.

Lemma date_timestamp_roundtrip_witness :
  exists t, timestampFromDate (Some 1767225600123) = Ok t /\
            timestampNanos t = Ok (1767225600123 * 1000000) /\
            dateFromTimestamp t = Ok (Some 1767225600123).
Proof. apply (date_timestamp_roundtrip 1767225600123). lia. Defined.
