(* ===== verification/WorkerTrustWire.v ===== *)
(** * Worker trust: the wire scan

    src/sdk/node/src/worker-trust-wire.ts: before a handshake packet is
    decoded, its bytes are scanned for unknown fields, wrong wire types,
    duplicates and lengths that leave their message.  The protobufjs [Reader]
    is the parameter [reader_api]; the schema is that of WireSchema.v. *)

From S2P Require Import Prelude JsString JsValue Varint WireSchema.

(** ** The protobufjs reader

    [reader.uint32()] and [reader.skipType(w)] at a position, with the position
    after it.  A call reads forward and ends. *)
Record reader_api : Type := {
  rd_uint32 : bytes -> Z -> result (Z * Z);
  rd_skipType : bytes -> Z -> Z -> result Z;
  rd_uint32_forward : forall data pos v pos',
    rd_uint32 data pos = Ok (v, pos') -> 0 <= v < 2 ^ 32 /\ pos < pos';
  rd_skipType_forward : forall data pos w pos',
    rd_skipType data pos w = Ok pos' -> pos <= pos';
  rd_uint32_ends : forall data pos, rd_uint32 data pos <> NoFuel;
  rd_skipType_ends : forall data pos w, rd_skipType data pos w <> NoFuel
}.

Definition packet_fail {A} (message : jsstr) : result A :=
  throw WorkerHandshakePacketError (js "worker trust packet " ++ message).

Definition VARINT_TYPES : list string :=
  ["int32"; "uint32"; "sint32"; "int64"; "uint64"; "sint64"; "bool"; "enum"]%string.
Definition FIXED64_TYPES : list string := ["fixed64"; "sfixed64"; "double"]%string.
Definition FIXED32_TYPES : list string := ["fixed32"; "sfixed32"; "float"]%string.

(** [field.fullName]: the name of the type it belongs to and its own. *)
Definition f_fullName (parent : msg_type) (f : field) : jsstr :=
  js (mt_fullName parent) ++ js "." ++ js (f_name f).

Definition expectedWire (parent : msg_type) (f : field) : result Z :=
  if f_map f || match resolvedMessageType f with Some _ => true | None => false end ||
     String.eqb (f_type f) "string" || String.eqb (f_type f) "bytes"
  then Ok 2
  else if smem (f_type f) FIXED64_TYPES then Ok 1
  else if smem (f_type f) FIXED32_TYPES then Ok 5
  else if smem (f_type f) VARINT_TYPES || is_resolved f then Ok 0
  else packet_fail (js "unsupported protobuf field " ++ f_fullName parent f).

(** The sets after the field. *)
Definition rejectDuplicate (parent : msg_type) (f : field) (seen : list Z) (seenOneofs : list string)
    : result (list Z * list string) :=
  if negb (f_repeated f) && negb (f_map f) && zmem (f_id f) seen
  then packet_fail (js "duplicate singular field " ++ f_fullName parent f)
  else
    let seen := f_id f :: seen in
    match oneof_name f with
    | Some oneof =>
        if smem oneof seenOneofs then packet_fail (js "duplicate oneof " ++ js oneof)
        else Ok (seen, oneof :: seenOneofs)
    | None => Ok (seen, seenOneofs)
    end.

Section Scan.
Context (R : reader_api) (data : bytes).

(** The loops take the reader's position and return it.  An iteration reads a
    tag, so one unit of fuel per byte left is enough. *)
Fixpoint scanMapEntry_loop (fuel : nat) (end_ : Z) (name : jsstr) (pos : Z) (seen : list Z) : result Z :=
  if pos <? end_ then
    match fuel with
    | O => NoFuel
    | S fuel' =>
        let! tag := rd_uint32 R data pos in
        let id := Z.shiftr tag.1 3 in
        if (negb (id =? 1) && negb (id =? 2)) || zmem id seen
        then packet_fail (js "unknown or duplicate map field in " ++ name)
        else
          let! pos' := rd_skipType R data tag.2 (Z.land tag.1 7) in
          scanMapEntry_loop fuel' end_ name pos' (id :: seen)
    end
  else if pos =? end_ then Ok pos
  else packet_fail (js "invalid map entry in " ++ name).

(** [scanField], over the scan of a nested message. *)
Definition scanField (fuel : nat) (scanMessage : Z -> Z -> msg_type -> result Z) (parent : msg_type)
    (parentEnd pos wire : Z) (f : field) : result Z :=
  let! expected := expectedWire parent f in
  let packed := f_repeated f && f_packed f && (wire =? 2) && negb (expected =? 2) in
  if negb (wire =? expected) && negb packed
  then packet_fail (js "invalid wire type for " ++ f_fullName parent f)
  else if negb (wire =? 2) then rd_skipType R data pos wire
  else
    let! length := rd_uint32 R data pos in
    let end_ := length.2 + length.1 in
    if parentEnd <? end_ then packet_fail (js "invalid length for " ++ f_fullName parent f)
    else if f_map f then scanMapEntry_loop fuel end_ (f_fullName parent f) length.2 []
    else match resolvedMessageType f with
         | Some t => scanMessage length.2 end_ t
         | None => Ok end_
         end.

Fixpoint scanMessage_loop (fuel : nat) (end_ : Z) (type : msg_type) (pos : Z) (seen : list Z)
    (seenOneofs : list string) : result Z :=
  if pos <? end_ then
    match fuel with
    | O => NoFuel
    | S fuel' =>
        let! tag := rd_uint32 R data pos in
        match fieldsById type (Z.shiftr tag.1 3) with
        | None => packet_fail (js "unknown field " ++ decimal_text (Z.shiftr tag.1 3) ++
                               js " in " ++ js (mt_fullName type))
        | Some f =>
            let! sets := rejectDuplicate type f seen seenOneofs in
            let! pos' := scanField fuel' (fun p e t => scanMessage_loop fuel' e t p [] []) type
                           end_ tag.2 (Z.land tag.1 7) f in
            scanMessage_loop fuel' end_ type pos' sets.1 sets.2
        end
    end
  else if pos =? end_ then Ok pos
  else packet_fail (js "invalid length in " ++ js (mt_fullName type)).

Definition scanMessage (type : msg_type) (end_ pos : Z) : result Z :=
  scanMessage_loop (Z.to_nat (end_ - pos)) end_ type pos [] [].

Definition rejectUnknownWire (type : msg_type) : result unit :=
  try_catch
    (let! pos := scanMessage type (zlen data) 0 in
     if negb (pos =? zlen data) then packet_fail (js "trailing bytes") else Ok tt)
    (fun error => if bool_decide (exn_class error = WorkerHandshakePacketError) then Throw error
                  else packet_fail (js "malformed protobuf")).
End Scan.

(** ** What the scan accepts

    The same scan as a relation, without the sets and without fuel: a message
    between two positions is a sequence of known fields, each with a value of
    its wire type, nested messages again, and no singular field or oneof
    twice. *)

Definition occurrences (ids : list Z) : list wfield := map (fun n => (n, VVarint 0)) ids.

Section Grammar.
Context (R : reader_api) (data : bytes).

Inductive entry_scanned : Z -> Z -> list Z -> Prop :=
| entry_end e : entry_scanned e e []
| entry_field e pos tag p1 p2 ids :
    pos < e -> rd_uint32 R data pos = Ok (tag, p1) ->
    Z.shiftr tag 3 = 1 \/ Z.shiftr tag 3 = 2 ->
    rd_skipType R data p1 (Z.land tag 7) = Ok p2 ->
    entry_scanned e p2 ids -> entry_scanned e pos (Z.shiftr tag 3 :: ids).

Inductive scanned : msg_type -> Z -> Z -> list Z -> Prop :=
| scanned_end t e : scanned t e e []
| scanned_field t e pos tag p1 f p2 ids :
    pos < e -> rd_uint32 R data pos = Ok (tag, p1) ->
    fieldsById t (Z.shiftr tag 3) = Some f ->
    value_scanned t e p1 (Z.land tag 7) f p2 ->
    scanned t e p2 ids -> scanned t e pos (Z.shiftr tag 3 :: ids)
with value_scanned : msg_type -> Z -> Z -> Z -> field -> Z -> Prop :=
| value_scalar t e pos w f p2 :
    expectedWire t f = Ok w -> w <> 2 -> rd_skipType R data pos w = Ok p2 ->
    value_scanned t e pos w f p2
| value_delimited t e pos f w len p1 :
    expectedWire t f = Ok w -> w = 2 \/ f_repeated f = true /\ f_packed f = true ->
    rd_uint32 R data pos = Ok (len, p1) -> p1 + len <= e ->
    payload_scanned f p1 (p1 + len) ->
    value_scanned t e pos 2 f (p1 + len)
with payload_scanned : field -> Z -> Z -> Prop :=
| payload_entry f p e ids :
    f_map f = true -> entry_scanned e p ids -> NoDup ids -> payload_scanned f p e
| payload_message f t p e ids :
    f_map f = false -> resolvedMessageType f = Some t ->
    scanned t e p ids -> once t (occurrences ids) -> payload_scanned f p e
| payload_opaque f p e :
    f_map f = false -> resolvedMessageType f = None -> payload_scanned f p e.

Lemma fieldsById_id t n f : fieldsById t n = Some f -> f_id f = n.
Proof. intros [_ H]%find_some. by apply Z.eqb_eq. Qed.

Lemma rejectDuplicate_iff t n f seen os seen' os' :
  fieldsById t n = Some f ->
  rejectDuplicate t f seen os = Ok (seen', os') <->
  seen' = n :: seen /\ os' = add_oneof t (n, VVarint 0) os /\
  (singular t (n, VVarint 0) = true -> ~ In n seen) /\
  (forall o, oneof_of t (n, VVarint 0) = Some o -> ~ In o os).
Proof.
  intros Hf. unfold rejectDuplicate, add_oneof, singular, oneof_of. cbn [fst].
  rewrite Hf, (fieldsById_id _ _ _ Hf). cbn [mbind option_bind]. rewrite <- zmem_not_In.
  generalize (zmem n seen) as s. intros s.
  destruct (oneof_name f) as [o|].
  - assert ((forall o0, Some o = Some o0 -> ~ In o0 os) <-> smem o os = false) as Ho.
    { rewrite <- not_true_iff_false, smem_In. naive_solver. }
    setoid_rewrite Ho. generalize (smem o os) as b. intros b.
    destruct (f_repeated f), (f_map f), s, b; cbn; naive_solver.
  - destruct (f_repeated f), (f_map f), s; cbn; naive_solver.
Qed.

(** ** Soundness *)

Lemma scanMapEntry_sound fuel e name pos seen p :
  scanMapEntry_loop R data fuel e name pos seen = Ok p ->
  p = e /\ exists ids, entry_scanned e pos ids /\ NoDup ids /\ (forall i, In i ids -> ~ In i seen).
Proof.
  revert pos seen. induction fuel as [|fuel IH]; intros pos seen; cbn [scanMapEntry_loop];
    destruct (Z.ltb_spec pos e) as [Hlt|Hge]; try discriminate;
    try (destruct (Z.eqb_spec pos e) as [->|]; [|discriminate]; intros [= <-];
         split; [done|]; exists []; split; [constructor|]; split; [constructor | naive_solver]).
  intros ([tag p1] & Ht & H)%bind_Ok_iff. cbn [fst snd] in H.
  destruct (_ || _) eqn:E in H; [discriminate|].
  apply orb_false_iff in E as [E Hs%zmem_not_In]. rewrite andb_false_iff, !negb_false_iff, !Z.eqb_eq in E.
  apply bind_Ok_iff in H as (p2 & Hp2 & H). apply IH in H as (-> & ids & Hids & Hn & Hseen).
  split; [done|]. exists (Z.shiftr tag 3 :: ids). split; [by econstructor|]. split.
  - apply NoDup_cons. split; [|done]. rewrite list_elem_of_In. intros Hin. apply (Hseen _ Hin). by left.
  - intros i [<-|Hin]; [done|]. intros Hi. apply (Hseen i Hin). by right.
Qed.

Lemma scanField_sound fuel scan t e pos w f p2 :
  (forall p e t p', scan p e t = Ok p' -> p' = e /\ exists ids, scanned t e p ids /\ once t (occurrences ids)) ->
  scanField R data fuel scan t e pos w f = Ok p2 -> value_scanned t e pos w f p2.
Proof.
  intros Hscan. unfold scanField. intros (ex & Hex & H)%bind_Ok_iff. cbn zeta in H.
  destruct (negb (w =? ex) && _) eqn:Ew; [discriminate|].
  destruct (Z.eqb_spec w 2) as [->|Hw]; cbn [negb] in H.
  - apply bind_Ok_iff in H as ([len p1] & Hl & H). cbn [fst snd] in H.
    destruct (Z.ltb_spec e (p1 + len)) as [|Hle]; [discriminate|].
    assert (p2 = p1 + len /\ payload_scanned f p1 (p1 + len)) as [-> Hp].
    { destruct (f_map f) eqn:Em.
      - apply scanMapEntry_sound in H as (-> & ids & ? & ? & _). split; [done|]. by eapply payload_entry.
      - destruct (resolvedMessageType f) as [t'|] eqn:Er.
        + apply Hscan in H as (-> & ids & ? & ?). split; [done|]. by eapply payload_message.
        + injection H as <-. split; [done|]. by apply payload_opaque. }
    eapply value_delimited; [done | | done | done | done].
    destruct (Z.eqb_spec 2 ex) as [<-|]; [by left|]. cbn [negb andb] in Ew.
    destruct (f_repeated f), (f_packed f); cbn in Ew; try discriminate. by right.
  - replace (w =? 2) with false in Ew by (symmetry; by apply Z.eqb_neq).
    rewrite andb_false_r in Ew. cbn [andb negb] in Ew.
    destruct (Z.eqb_spec w ex) as [<-|]; [|discriminate]. by apply value_scalar.
Qed.

Lemma scanMessage_sound fuel e t pos seen os p :
  scanMessage_loop R data fuel e t pos seen os = Ok p ->
  p = e /\ exists ids, scanned t e pos ids /\ once_from t seen os (occurrences ids).
Proof.
  revert e t pos seen os p. induction fuel as [|fuel IH]; intros e t pos seen os p; cbn [scanMessage_loop];
    destruct (Z.ltb_spec pos e) as [Hlt|Hge]; try discriminate;
    try (destruct (Z.eqb_spec pos e) as [->|]; [|discriminate]; intros [= <-];
         split; [done|]; exists []; split; [constructor|]; repeat split; try constructor; naive_solver).
  intros ([tag p1] & Ht & H)%bind_Ok_iff. cbn [fst snd] in H.
  destruct (fieldsById t _) as [f|] eqn:Hf; [|discriminate].
  apply bind_Ok_iff in H as ([seen' os'] & Hd & H). cbn [fst snd] in H.
  apply (rejectDuplicate_iff _ _ _ _ _ _ _ Hf) in Hd as (-> & -> & Hs & Ho).
  apply bind_Ok_iff in H as (p2 & Hp2 & H). apply IH in H as (-> & ids & Hids & Honce).
  split; [done|]. exists (Z.shiftr tag 3 :: ids). split.
  - eapply scanned_field; try done. eapply scanField_sound; [|done].
    intros q e' t' p' (-> & ids' & ? & Ho')%IH. split; [done|]. exists ids'. split; [done|]. by apply once_from_init.
  - cbn [occurrences map]. apply once_from_cons. done.
Qed.

(** ** Completeness *)

Lemma entry_scanned_le e pos ids : entry_scanned e pos ids -> pos <= e.
Proof. destruct 1; lia. Qed.

Lemma entry_scanned_ids e pos ids : entry_scanned e pos ids -> Forall (fun i => i = 1 \/ i = 2) ids.
Proof. induction 1; by constructor. Qed.

Lemma scanMapEntry_complete e name pos ids :
  entry_scanned e pos ids -> forall fuel seen, e - pos <= Z.of_nat fuel ->
  NoDup ids -> (forall i, In i ids -> ~ In i seen) ->
  scanMapEntry_loop R data fuel e name pos seen = Ok e.
Proof.
  induction 1 as [e|e pos tag p1 p2 ids Hlt Ht Hid Hp2 Hrest IH]; intros fuel seen Hfuel Hn Hseen.
  - destruct fuel; cbn [scanMapEntry_loop]; rewrite Z.ltb_irrefl, Z.eqb_refl; done.
  - destruct fuel as [|fuel]; [lia|]. cbn [scanMapEntry_loop]. rewrite (proj2 (Z.ltb_lt _ _) Hlt), Ht.
    cbn [mbind result_bind fst snd]. apply NoDup_cons in Hn as [Hni Hn]. rewrite list_elem_of_In in Hni.
    rewrite (proj2 (zmem_not_In _ _)) by (apply Hseen; by left).
    replace (negb (Z.shiftr tag 3 =? 1) && negb (Z.shiftr tag 3 =? 2)) with false
      by (destruct Hid as [-> | ->]; done).
    cbn [orb]. rewrite Hp2. cbn [mbind result_bind]. apply IH; [|done|].
    + pose proof (rd_uint32_forward R _ _ _ _ Ht). pose proof (rd_skipType_forward R _ _ _ _ Hp2). lia.
    + intros i Hin [<-|Hi]; [done|]. apply (Hseen i); [by right | done].
Qed.

Scheme scanned_mind := Induction for scanned Sort Prop
with value_scanned_mind := Induction for value_scanned Sort Prop
with payload_scanned_mind := Induction for payload_scanned Sort Prop.
Combined Scheme scanned_mutind from scanned_mind, value_scanned_mind, payload_scanned_mind.

Definition scan_from (fuel : nat) (p e : Z) (t : msg_type) : result Z :=
  scanMessage_loop R data fuel e t p [] [].

(** What [scanField] does with a length-delimited payload. *)
Definition scan_payload (fuel : nat) (name : jsstr) (f : field) (p e : Z) : result Z :=
  if f_map f then scanMapEntry_loop R data fuel e name p []
  else match resolvedMessageType f with Some t => scan_from fuel p e t | None => Ok e end.

Lemma value_scanned_forward t e pos w f p2 : value_scanned t e pos w f p2 -> pos <= p2.
Proof.
  destruct 1 as [? ? ? ? ? ? ? ? H|? ? ? ? ? ? ? ? ? H]; [by apply rd_skipType_forward in H|].
  apply rd_uint32_forward in H. lia.
Qed.

Lemma scan_complete :
  (forall t e pos ids, scanned t e pos ids -> forall fuel seen os, e - pos <= Z.of_nat fuel ->
     once_from t seen os (occurrences ids) -> scanMessage_loop R data fuel e t pos seen os = Ok e) /\
  (forall t e pos w f p2, value_scanned t e pos w f p2 -> forall fuel, e - pos <= Z.of_nat fuel ->
     scanField R data fuel (scan_from fuel) t e pos w f = Ok p2) /\
  (forall f p e, payload_scanned f p e -> forall fuel name, e - p <= Z.of_nat fuel ->
     scan_payload fuel name f p e = Ok e).
Proof.
  apply scanned_mutind.
  - intros t e fuel seen os _ _. destruct fuel; cbn [scanMessage_loop]; rewrite Z.ltb_irrefl, Z.eqb_refl; done.
  - intros t e pos tag p1 f p2 ids Hlt Ht Hf Hv IHv Hs IHs fuel seen os Hfuel Honce.
    destruct fuel as [|fuel]; [lia|]. cbn [scanMessage_loop]. rewrite (proj2 (Z.ltb_lt _ _) Hlt), Ht.
    cbn [mbind result_bind fst snd]. rewrite Hf. cbn [occurrences map] in Honce. apply once_from_cons in Honce as (Hsi & Ho & Honce).
    rewrite (proj2 (rejectDuplicate_iff t _ f seen os _ _ Hf) (conj eq_refl (conj eq_refl (conj Hsi Ho)))).
    cbn [mbind result_bind fst snd]. pose proof (rd_uint32_forward R _ _ _ _ Ht).
    pose proof (value_scanned_forward _ _ _ _ _ _ Hv).
    assert (scanField R data fuel (scan_from fuel) t e p1 (Z.land tag 7) f = Ok p2) as Hfield by (apply IHv; lia).
    unfold scan_from in Hfield. rewrite Hfield. cbn [mbind result_bind]. apply IHs; [lia | done].
  - intros t e pos w f p2 Hex Hw Hp fuel _. unfold scanField. rewrite Hex. cbn [mbind result_bind].
    rewrite Z.eqb_refl. cbn [negb andb]. by rewrite (proj2 (Z.eqb_neq w 2) Hw).
  - intros t e pos f w len p1 Hex Hw Hl Hle Hpay IH fuel Hfuel. unfold scanField. rewrite Hex.
    cbn [mbind result_bind]. pose proof (rd_uint32_forward R _ _ _ _ Hl).
    replace (negb (2 =? w) && _) with false; cycle 1.
    { destruct Hw as [->|[-> ->]]; [done|]. rewrite (Z.eqb_sym w 2), Z.eqb_refl.
      by destruct (2 =? w). }
    cbn [Z.eqb Pos.eqb negb]. rewrite Hl. cbn [mbind result_bind fst snd].
    rewrite (proj2 (Z.ltb_ge _ _) Hle). apply (IH fuel (f_fullName t f)). lia.
  - intros f p e ids Hm He Hn fuel name Hfuel. unfold scan_payload. rewrite Hm.
    by eapply scanMapEntry_complete; [| |  | intros ? ? []].
  - intros f t p e ids Hm Hr Hs IH Ho fuel name Hfuel. unfold scan_payload. rewrite Hm, Hr.
    apply IH; [done|]. by apply once_from_init.
  - intros f p e Hm Hr fuel name _. unfold scan_payload. by rewrite Hm, Hr.
Qed.
End Grammar.

(** ** Termination *)

Lemma scanMapEntry_ends (R : reader_api) data fuel e name pos seen :
  e - pos <= Z.of_nat fuel -> scanMapEntry_loop R data fuel e name pos seen <> NoFuel.
Proof.
  revert pos seen. induction fuel as [|fuel IH]; intros pos seen Hfuel; cbn [scanMapEntry_loop];
    destruct (Z.ltb_spec pos e); [lia | by destruct (pos =? e) | | by destruct (pos =? e)].
  apply bind_not_NoFuel; [apply rd_uint32_ends|]. intros [tag p1] Ht%rd_uint32_forward. cbn [fst snd].
  destruct (_ || _); [done|].
  apply bind_not_NoFuel; [apply rd_skipType_ends|]. intros p2 Hp%rd_skipType_forward. apply IH. lia.
Qed.

Lemma expectedWire_ends t f : expectedWire t f <> NoFuel.
Proof. unfold expectedWire. repeat case_match; done. Qed.

Lemma rejectDuplicate_ends t f seen os : rejectDuplicate t f seen os <> NoFuel.
Proof. unfold rejectDuplicate. repeat case_match; done. Qed.

Lemma scanField_ends (R : reader_api) data fuel scan t e pos w f :
  (forall p e' t', pos < p -> e' <= e -> scan p e' t' <> NoFuel) -> e - pos <= Z.of_nat fuel ->
  scanField R data fuel scan t e pos w f <> NoFuel.
Proof.
  intros Hscan Hfuel. unfold scanField. apply bind_not_NoFuel; [apply expectedWire_ends|]. intros ex _. cbn zeta.
  destruct (_ && _); [done|]. destruct (negb _); [apply rd_skipType_ends|].
  apply bind_not_NoFuel; [apply rd_uint32_ends|]. intros [len p1] Hl%rd_uint32_forward. cbn [fst snd].
  destruct (Z.ltb_spec e (p1 + len)); [done|]. destruct (f_map f); [apply scanMapEntry_ends; lia|].
  destruct (resolvedMessageType f); [|done]. apply Hscan; lia.
Qed.

Lemma scanMessage_ends (R : reader_api) data fuel e t pos seen os :
  e - pos <= Z.of_nat fuel -> scanMessage_loop R data fuel e t pos seen os <> NoFuel.
Proof.
  revert e t pos seen os. induction fuel as [|fuel IH]; intros e t pos seen os Hfuel; cbn [scanMessage_loop];
    destruct (Z.ltb_spec pos e); [lia | by destruct (pos =? e) | | by destruct (pos =? e)].
  apply bind_not_NoFuel; [apply rd_uint32_ends|]. intros [tag p1] Ht%rd_uint32_forward. cbn [fst snd].
  destruct (fieldsById t _) as [f|] eqn:Hf; [|done].
  apply bind_not_NoFuel; [apply rejectDuplicate_ends|]. intros [seen' os'] _. cbn [fst snd].
  apply bind_not_NoFuel.
  - apply scanField_ends; [|lia]. intros. apply IH. lia.
  - intros p2 Hp2. apply IH. apply scanField_sound in Hp2; [apply value_scanned_forward in Hp2; lia|].
    intros q e' t' p' (-> & ids & ? & Ho)%scanMessage_sound. split; [done|]. exists ids. split; [done|].
    by apply once_from_init.
Qed.

Lemma rejectUnknownWire_accepts (R : reader_api) (data : bytes) (t : msg_type) :
  rejectUnknownWire R data t = Ok tt <->
  exists ids, scanned R data t (zlen data) 0 ids /\ once t (occurrences ids).
Proof.
  unfold rejectUnknownWire. split.
  - intros H. assert (scanMessage R data t (zlen data) 0 = Ok (zlen data)) as Hs.
    { destruct (scanMessage _ _ _ _ _) as [p|e|] eqn:E; cbn in H; [|by case_bool_decide|done].
      by apply scanMessage_sound in E as [-> _]. }
    apply scanMessage_sound in Hs as (_ & ids & ? & Ho). exists ids. split; [done|]. by apply once_from_init.
  - intros (ids & Hs & Ho). apply try_catch_Ok. unfold scanMessage.
    rewrite (proj1 (scan_complete R data) _ _ _ _ Hs); [|lia|by apply once_from_init].
    cbn. by rewrite Z.eqb_refl.
Qed.


Lemma rejectUnknownWire_answers (R : reader_api) data t :
  rejectUnknownWire R data t = Ok tt \/
  exists msg, rejectUnknownWire R data t = throw WorkerHandshakePacketError msg.
Proof.
  assert (rejectUnknownWire R data t <> NoFuel) as Hends.
  { unfold rejectUnknownWire. apply try_catch_not_NoFuel.
    - apply bind_not_NoFuel; [apply scanMessage_ends; lia|]. intros. by case_match.
    - intros e. by case_bool_decide. }
  assert (throws_only WorkerHandshakePacketError (rejectUnknownWire R data t)) as Hthrows.
  { unfold rejectUnknownWire. apply throws_only_try. intros e. case_bool_decide; [by intros e' [= <-]|].
    apply throws_only_throw. }
  destruct (returns_or_throws _ _ Hends Hthrows) as [[[] ?]|]; [by left | by right].
Qed.

(** C35. The scan accepts exactly the packets of its grammar: from the first
    byte to the last a sequence of fields the schema knows, each with a value
    of its wire type, every nested message and map entry filling its length
    exactly, and no singular field, oneof or map-entry field twice, at any
    depth.  On every other input it ends with the packet error. *)
Theorem rejectUnknownWire_iff (R : reader_api) (data : bytes) (t : msg_type) :
  (rejectUnknownWire R data t = Ok tt <->
   exists ids, scanned R data t (zlen data) 0 ids /\ once t (occurrences ids)) /\
  (rejectUnknownWire R data t = Ok tt \/
   exists msg, rejectUnknownWire R data t = throw WorkerHandshakePacketError msg).
Proof. split; [apply rejectUnknownWire_accepts | apply rejectUnknownWire_answers]. Qed.

(** ** A reader

    One that reads minimal varints only; it shows that the laws can hold. *)
Definition minimal_uint32 (data : bytes) (pos : Z) : result (Z * Z) :=
  let! r := WireSchema.readVarint data pos in
  if 2 ^ 32 <=? r.1 then throw PlainError (js "index out of range") else Ok r.

Definition minimal_skipType (data : bytes) (pos w : Z) : result Z :=
  if (pos <? 0) || (2 ^ 53 <=? zlen data) then throw PlainError (js "index out of range")
  else let! r := readWireValue data pos w in Ok r.1.

Lemma minimal_uint32_forward data pos v pos' :
  minimal_uint32 data pos = Ok (v, pos') -> 0 <= v < 2 ^ 32 /\ pos < pos'.
Proof.
  intros ([x e] & Hx%readVarint_sound & H)%bind_Ok_iff. cbn [fst] in H.
  destruct (Z.leb_spec (2 ^ 32) x); [discriminate|]. injection H as <- <-. lia.
Qed.

Lemma minimal_skipType_forward data pos w pos' : minimal_skipType data pos w = Ok pos' -> pos <= pos'.
Proof.
  unfold minimal_skipType. destruct (Z.ltb_spec pos 0), (Z.leb_spec (2 ^ 53) (zlen data)); cbn [orb]; try discriminate.
  intros ([e pl] & Hx & [= <-])%bind_Ok_iff. apply readWireValue_sound in Hx as (? & _ & _ & _ & _ & ?); [|done..].
  cbn. lia.
Qed.

Lemma minimal_uint32_ends data pos : minimal_uint32 data pos <> NoFuel.
Proof. apply bind_not_NoFuel; [apply readVarint_schema_not_NoFuel|]. intros. by case_match. Qed.

Lemma minimal_skipType_ends data pos w : minimal_skipType data pos w <> NoFuel.
Proof.
  unfold minimal_skipType. case_match; [done|]. apply bind_not_NoFuel; [apply readWireValue_not_NoFuel | done].
Qed.

Definition minimal_reader : reader_api := {|
  rd_uint32_forward := minimal_uint32_forward;
  rd_skipType_forward := minimal_skipType_forward;
  rd_uint32_ends := minimal_uint32_ends;
  rd_skipType_ends := minimal_skipType_ends |}.

Definition inner_type : msg_type :=
  MsgType "Inner" [Field 1 "text" "string" false false "" false None Unresolved;
                   Field 2 "flags" "bool" false true "string" false None Unresolved].
Definition outer_type : msg_type :=
  MsgType "Outer" [Field 1 "inner" "Inner" false false "" false None (ResolvedMessage inner_type);
                   Field 2 "numbers" "int32" true false "" true None Unresolved].

(** A nested message with a map entry and a packed list is accepted; a
    repeated singular field, an unknown field and a length that runs past its
    message are not. *)
Example scan_samples :
  map (fun d => is_ok (rejectUnknownWire minimal_reader d outer_type))
    [[10; 8; 10; 1; 97; 18; 3; 10; 1; 98; 18; 2; 1; 2];
     [10; 0; 10; 0]; [10; 2; 24; 1]; [10; 3; 10; 9; 97]] = [true; false; false; false].
Proof. vm_compute. reflexivity. Qed.
