(* ===== verification/WorkerTrustPacket.v ===== *)
(** * Worker trust: packet validation and canonical wire

    src/sdk/node/src/worker-trust-packet.ts: the shape of the four handshake
    packets and their bindings, and the marshalling that admits only the
    canonical encoding.  The protobufjs type is a [codec_type] with its
    [decode] as a parameter. *)

From S2P Require Import Prelude JsString JsValue Varint WireSchema Codec WorkerTrustContract WorkerTrustWire.

(** ** Constants *)

Inductive WorkerTrustPhase : Set := challenge_request | challenge_phase | authenticate_phase | result_phase.

#[global] Instance WorkerTrustPhase_eq_dec : EqDecision WorkerTrustPhase.
Proof. solve_decision. Defined.

Definition phase_field (phase : WorkerTrustPhase) : string :=
  match phase with
  | challenge_request => "workerHandshakeChallengeRequest"
  | challenge_phase => "workerHandshakeChallenge"
  | authenticate_phase => "workerHandshakeAuthenticate"
  | result_phase => "workerHandshakeResult"
  end.

Definition PHASES : list WorkerTrustPhase :=
  [challenge_request; challenge_phase; authenticate_phase; result_phase].

Definition PHASE_FIELDS : list string := map phase_field PHASES.

Definition ENVELOPE_FIELDS : list string :=
  ["traceId"; "senderId"; "createdAt"; "protocolVersion"; "signature"; "authToken"]%string ++ PHASE_FIELDS.

Definition CHALLENGE_FIELDS : list string :=
  ["requestId"; "challengeId"; "traceId"; "workerId"; "agentId"; "tenantId";
   "proofKeyId"; "proofAlgorithm"; "serverKeyId"; "audience"; "purpose";
   "clientNonce"; "serverNonce"; "protocolVersion"; "sdkVersion"; "issuedAt"; "expiresAt"]%string.

Definition CAPABILITY_FIELDS : list string :=
  ["componentId"; "role"; "supportedVersions"; "capabilities"; "sdkVersion";
   "readyTopics"; "agentName"]%string.

Definition REQUEST_FIELDS : list string :=
  ["requestId"; "traceId"; "workerId"; "proofKeyId"; "proofAlgorithm"; "audience";
   "purpose"; "clientNonce"; "protocolVersion"; "sdkVersion"]%string.

Definition RESULT_FIELDS : list string :=
  ["challenge"; "accepted"; "rejectionReason"; "tokenExpiresAt"; "issuedAt"]%string.

Definition CAPABILITY_KEY (s : jsstr) : bool :=
  pattern (between 97 122)
    (fun c => between 97 122 c || is_digit c || zmem c (js "_.-")) s && (zlen s <=? 64).

(** ** Helpers *)

Definition fail_if (b : bool) (message : string) : result unit :=
  if b then packet_fail (js message) else Ok tt.

Definition assertObject (value : jsval) (field : string) : result unit :=
  if is_record value then Ok tt else packet_fail (js field ++ js " is required").

Definition known_name (fields : list string) (key : jsstr) : bool :=
  existsb (fun f => bool_decide (js f = key)) fields.

Definition assertKnown (value : jsval) (fields : list string) (label : string) : result unit :=
  do! assertObject value label ;;
  match List.filter (fun key => negb (known_name fields key)) (map fst (own_entries value)) with
  | [] => Ok tt
  | unknown :: _ => packet_fail (js label ++ js " contains unknown field " ++ unknown)
  end.

Definition packetText (value : jsval) (field : string) : result unit :=
  match value with
  | JStr s => if str_empty s || negb (trimmed s) || (256 <? zlen s)
              then packet_fail (js field ++ js " is invalid") else Ok tt
  | _ => packet_fail (js field ++ js " is invalid")
  end.

Definition validateTimestampObject (value : jsval) (field : string) : result Z :=
  do! assertKnown value ["seconds"; "nanos"]%string field ;;
  timestampNanos value.

Definition nonce (value : jsval) (field : string) : result unit :=
  match value with
  | JBytes b => if zlen b =? WORKER_HANDSHAKE_NONCE_SIZE then Ok tt
                else packet_fail (js field ++ js " must be exactly 32 bytes")
  | _ => packet_fail (js field ++ js " must be exactly 32 bytes")
  end.

(** A character outside the basic plane starts with a unit above 0x7e, so
    checking every unit is the check of every character. *)
Definition validToken (token : jsval) : bool :=
  match token with
  | JStr s => negb (str_empty s) && (zlen s <=? WORKER_HANDSHAKE_MAX_SESSION_TOKEN_SIZE) &&
              forallb printable s
  | _ => false
  end.

Definition is_int (v : jsval) (z : Z) : bool := strict_eq v (JNum (NInt z)).

Definition validateProof (version algorithm purpose : jsval) : result unit :=
  do! fail_if (negb (is_int version 1)) "nested protocol version must be exactly v1" ;;
  do! fail_if (negb (is_int algorithm 1)) "proof algorithm must be ECDSA P-256 SHA-256" ;;
  fail_if (negb (is_int purpose 1) && negb (is_int purpose 2)) "handshake purpose is invalid".

Definition validateSessionForPurpose (purpose token : jsval) : result unit :=
  do! fail_if (is_int purpose 1 && negb (strict_eq token (JStr [])))
        "initial authentication must not carry a token" ;;
  fail_if (is_int purpose 2 && negb (validToken token)) "renewal requires a valid token".

(** ** Packets *)

Definition validateEnvelope (packet : jsval) : result unit :=
  do! packetText (get packet "traceId") "trace ID" ;;
  do! packetText (get packet "senderId") "sender ID" ;;
  let! _ := validateTimestampObject (get packet "createdAt") "created_at" in
  do! fail_if (negb (is_int (get packet "protocolVersion") WORKER_HANDSHAKE_PROTOCOL_VERSION))
        "protocol version must be exactly v1" ;;
  fail_if (match get packet "signature" with JBytes (_ :: _) => false | _ => true end)
    "signature is required".

Definition request_identities (request : jsval) : list jsval :=
  map (get request) ["requestId"; "traceId"; "workerId"; "proofKeyId"; "audience"; "sdkVersion"]%string.

Definition validateRequest (packet : jsval) : result unit :=
  let request := get packet "workerHandshakeChallengeRequest" in
  do! assertKnown request REQUEST_FIELDS "challenge request" ;;
  do! iter_result (fun value => packetText value "request identity") (request_identities request) ;;
  do! fail_if (negb (strict_eq (get packet "traceId") (get request "traceId")) ||
               negb (strict_eq (get packet "senderId") (get request "workerId")))
        "challenge request trace or sender binding is invalid" ;;
  do! validateProof (get request "protocolVersion") (get request "proofAlgorithm") (get request "purpose") ;;
  do! nonce (get request "clientNonce") "client nonce" ;;
  fail_if (truthy (get packet "authToken")) "challenge request must not carry a session token".

Definition challenge_identities (challenge : jsval) : list jsval :=
  map (get challenge) ["requestId"; "challengeId"; "traceId"; "workerId"; "agentId"; "tenantId";
                       "proofKeyId"; "serverKeyId"; "audience"; "sdkVersion"]%string.

Definition validateChallenge (packet challenge : jsval) : result unit :=
  do! assertKnown challenge CHALLENGE_FIELDS "challenge" ;;
  do! iter_result (fun value => packetText value "challenge identity") (challenge_identities challenge) ;;
  do! fail_if (negb (strict_eq (get packet "traceId") (get challenge "traceId")))
        "challenge trace binding is invalid" ;;
  do! validateProof (get challenge "protocolVersion") (get challenge "proofAlgorithm")
        (get challenge "purpose") ;;
  do! nonce (get challenge "clientNonce") "client nonce" ;;
  do! nonce (get challenge "serverNonce") "server nonce" ;;
  let! issued := validateTimestampObject (get challenge "issuedAt") "challenge issued_at" in
  let! expires := validateTimestampObject (get challenge "expiresAt") "challenge expires_at" in
  fail_if ((expires <=? issued) || (WORKER_HANDSHAKE_MAX_LIFETIME_MS * 1000000 <? expires - issued))
    "challenge lifetime is invalid".

Definition validateChallengePacket (packet : jsval) : result unit :=
  do! validateChallenge packet (get packet "workerHandshakeChallenge") ;;
  fail_if (truthy (get packet "authToken")) "challenge must not carry a session token".

(** [value?.length] and [value[0]] *)
Definition js_length (v : jsval) : jsval :=
  match v with
  | JArr l => JNum (NInt (zlen l))
  | JBytes l | JStr l => JNum (NInt (zlen l))
  | JObj _ _ => get v "length"
  | _ => JUndef
  end.
Definition js_first (v : jsval) : jsval :=
  match v with
  | JArr (x :: _) => x
  | JBytes (x :: _) => JNum (NInt x)
  | JStr (c :: _) => JStr [c]
  | JObj _ _ => get v "0"
  | _ => JUndef
  end.

(** [topics.some((topic) => !topic?.trim())] *)
Fixpoint some_blank (topics : list jsval) : result bool :=
  match topics with
  | [] => Ok false
  | topic :: rest =>
      match topic with
      | JUndef | JNull => Ok true
      | JStr s => if str_empty (trim s) then Ok true else some_blank rest
      | _ => throw TypeError (js "topic?.trim is not a function")
      end
  end.

Definition topic_list (v : jsval) : result (list jsval) :=
  match v with
  | JArr l => Ok l
  | JBytes b => Ok (map (fun x => JNum (NInt x)) b)
  | _ => throw TypeError (js "topics.some is not a function")
  end.

Definition validateCapability (capability challenge : jsval) : result unit :=
  do! assertKnown capability CAPABILITY_FIELDS "capability handshake" ;;
  do! fail_if (negb (strict_eq (get capability "componentId") (get challenge "workerId")) ||
               negb (is_int (get capability "role") 3) ||
               negb (strict_eq (get capability "sdkVersion") (get challenge "sdkVersion")))
        "capability identity does not match challenge" ;;
  do! fail_if (negb (is_int (js_length (get capability "supportedVersions")) 1) ||
               negb (is_int (js_first (get capability "supportedVersions")) 1))
        "capability must support exactly protocol v1" ;;
  do! iter_result (fun '(key, enabled) =>
          fail_if (negb (CAPABILITY_KEY key) || negb (strict_eq enabled (JBool true)))
            "capability entry is invalid")
        (own_entries (get capability "capabilities")) ;;
  let! topics := topic_list (coalesce (get capability "readyTopics") (JArr [])) in
  let! blank := some_blank topics in
  fail_if (blank || negb (bool_decide (NoDup (map as_str topics))))
    "ready topic is empty or duplicated".

Definition validateAuthenticate (packet : jsval) : result unit :=
  let authenticate := get packet "workerHandshakeAuthenticate" in
  do! assertKnown authenticate ["challenge"; "capabilityHandshake"]%string "authenticate" ;;
  let challenge := get authenticate "challenge" in
  do! validateChallenge packet challenge ;;
  do! fail_if (negb (strict_eq (get packet "senderId") (get challenge "workerId")))
        "authenticate sender binding is invalid" ;;
  do! validateCapability (get authenticate "capabilityHandshake") challenge ;;
  validateSessionForPurpose (get challenge "purpose") (coalesce (get packet "authToken") (JStr [])).

Definition validateResult (packet : jsval) : result unit :=
  let result_ := get packet "workerHandshakeResult" in
  do! assertKnown result_ RESULT_FIELDS "result" ;;
  do! validateChallenge packet (get result_ "challenge") ;;
  let! issued := validateTimestampObject (get result_ "issuedAt") "result issued_at" in
  if truthy (get result_ "accepted") then
    let! expires := validateTimestampObject (get result_ "tokenExpiresAt") "token expires_at" in
    fail_if (negb (validToken (coalesce (get packet "authToken") (JStr []))) ||
             (expires <=? issued) || negb (is_int (get result_ "rejectionReason") 0))
      "accepted result token metadata is invalid"
  else
    fail_if (truthy (get packet "authToken") || truthy (get result_ "tokenExpiresAt") ||
             match get result_ "rejectionReason" with
             | JNum (NInt z) => (z <? 1) || (9 <? z)
             | _ => true
             end)
      "rejected result token metadata is invalid".

Definition trustPhase (packet : jsval) : result WorkerTrustPhase :=
  match List.filter (fun phase => truthy (get packet (phase_field phase))) PHASES with
  | [phase] => Ok phase
  | _ => packet_fail (js "must contain exactly one trust phase")
  end.

Definition validateWorkerTrustPacket (packet : jsval) : result unit :=
  do! assertObject packet "packet" ;;
  do! assertKnown packet ENVELOPE_FIELDS "envelope" ;;
  do! validateEnvelope packet ;;
  let! phase := trustPhase packet in
  match phase with
  | challenge_request => validateRequest packet
  | challenge_phase => validateChallengePacket packet
  | authenticate_phase => validateAuthenticate packet
  | result_phase => validateResult packet
  end.

(** ** Marshalling *)

(** The BusPacket type: what the codec uses of it, and [decode]. *)
Record trust_type : Type := {
  tt_codec : codec_type;
  tt_decode : bytes -> result jsval
}.

Definition marshalWorkerTrustPacket (T : trust_type) (packet : jsval) : result bytes :=
  do! validateWorkerTrustPacket packet ;;
  let! encoded := encodeDeterministic (tt_codec T) packet in
  do! fail_if (WORKER_HANDSHAKE_MAX_PACKET_SIZE <? zlen encoded) "size exceeds 65536 bytes" ;;
  Ok encoded.

Definition unmarshalWorkerTrustPacket (R : reader_api) (T : trust_type) (data : bytes) : result jsval :=
  do! fail_if ((zlen data =? 0) || (WORKER_HANDSHAKE_MAX_PACKET_SIZE <? zlen data))
        "size must be 1..65536 bytes" ;;
  do! rejectUnknownWire R data (ct_schema (tt_codec T)) ;;
  let! packet := try_catch (tt_decode T data) (fun _ => packet_fail (js "cannot be decoded")) in
  do! validateWorkerTrustPacket packet ;;
  let! canonical := encodeDeterministic (tt_codec T) packet in
  do! fail_if (negb (bool_decide (canonical = data))) "wire encoding is not canonical" ;;
  Ok packet.

(** ** Checks as propositions *)

Definition text (v : jsval) : Prop := exists s, identity_text v s.

(** Every own property is one of the fields. *)
Definition known (v : jsval) (fields : list string) : Prop :=
  is_record v = true /\ Forall (fun e => In e.1 (map js fields)) (own_entries v).

(** A timestamp object with no other property. *)
Definition stamp (v : jsval) (n : Z) : Prop := known v ["seconds"; "nanos"]%string /\ instant v n.

Definition nonce32 (v : jsval) : Prop := exists b, v = JBytes b /\ zlen b = 32.

(** 1 to 16384 printable ASCII characters. *)
Definition token_text (v : jsval) : Prop :=
  exists s, v = JStr s /\ s <> [] /\ zlen s <= 16384 /\ Forall (fun c => 0x21 <= c <= 0x7e) s.

Lemma fail_if_iff b m u : fail_if b m = Ok u <-> b = false.
Proof. unfold fail_if. destruct b, u; split; done. Qed.

Lemma assertObject_iff v l : assertObject v l = Ok tt <-> is_record v = true.
Proof. unfold assertObject. by destruct (is_record v). Qed.

Lemma known_name_iff fields k : known_name fields k = true <-> In k (map js fields).
Proof.
  unfold known_name. rewrite existsb_exists, in_map_iff. split.
  - intros (f & Hf & E%bool_decide_eq_true). eauto.
  - intros (f & E & Hf). exists f. by rewrite bool_decide_eq_true.
Qed.

Lemma assertKnown_iff v fields l : assertKnown v fields l = Ok tt <-> known v fields.
Proof.
  unfold assertKnown, known. rewrite do_Ok_iff, assertObject_iff.
  assert (Forall (fun e => In e.1 (map js fields)) (own_entries v) <->
          List.filter (fun key => negb (known_name fields key)) (map fst (own_entries v)) = []) as Hf.
  { generalize (own_entries v) as es. induction es as [|[k x] es IH]; cbn [map List.filter]; [split; [done | by constructor]|].
    rewrite Forall_cons, IH. cbn [fst]. rewrite <- known_name_iff. destruct (known_name fields k); cbn; naive_solver. }
  rewrite Hf. destruct (List.filter _ _); split; intros [? ?]; by split.
Qed.

Lemma packetText_iff v l : packetText v l = Ok tt <-> text v.
Proof.
  unfold text. rewrite <- (requireIdentity_unit v "").
  unfold packetText, requireIdentity, WORKER_HANDSHAKE_MAX_IDENTITY_LENGTH.
  destruct v; try done. by destruct (_ || _).
Qed.

Lemma iter_packetText_iff l vs : iter_result (fun v => packetText v l) vs = Ok tt <-> Forall text vs.
Proof. rewrite iter_result_Ok_iff. by setoid_rewrite packetText_iff. Qed.

Lemma validateTimestampObject_iff v l n : validateTimestampObject v l = Ok n <-> stamp v n.
Proof. unfold validateTimestampObject, stamp. by rewrite do_Ok_iff, assertKnown_iff, timestampNanos_iff. Qed.

Lemma nonce_iff v l : nonce v l = Ok tt <-> nonce32 v.
Proof.
  unfold nonce, nonce32, WORKER_HANDSHAKE_NONCE_SIZE. destruct v; try (split; [discriminate | naive_solver]).
  destruct (Z.eqb_spec (zlen b) 32); naive_solver.
Qed.

Lemma printable_iff c : printable c = true <-> 0x21 <= c <= 0x7e.
Proof. unfold printable. rewrite andb_true_iff, !Z.leb_le. done. Qed.

Lemma validToken_iff v : validToken v = true <-> token_text v.
Proof.
  unfold validToken, token_text, WORKER_HANDSHAKE_MAX_SESSION_TOKEN_SIZE.
  destruct v as [| | | |s| | | |]; try (split; [discriminate | naive_solver]).
  rewrite !andb_true_iff, negb_true_iff, Z.leb_le, forallb_forall.
  setoid_rewrite printable_iff. rewrite <- (List.Forall_forall (fun c => 33 <= c <= 126)).
  destruct s; cbn [str_empty]; naive_solver.
Qed.

Lemma is_int_iff v z : is_int v z = true <-> v = JNum (NInt z).
Proof.
  unfold is_int. destruct v as [| | |[]| | | | |]; cbn; try (split; [discriminate | naive_solver]).
  rewrite Z.eqb_eq. naive_solver.
Qed.

Lemma strict_eq_text a b : text b -> strict_eq a b = true <-> a = b.
Proof. intros (s & -> & _). apply strict_eq_str. Qed.

Lemma strict_eq_true v : strict_eq v (JBool true) = true <-> v = JBool true.
Proof. destruct v as [| |[]| | | | | |]; cbn; naive_solver. Qed.

(** Version 1, ECDSA P-256 with SHA-256, and a purpose of issue or renew. *)
Definition proof_ok (v : jsval) : Prop :=
  get v "protocolVersion" = JNum (NInt 1) /\ get v "proofAlgorithm" = JNum (NInt 1) /\
  (get v "purpose" = JNum (NInt 1) \/ get v "purpose" = JNum (NInt 2)).

Lemma validateProof_iff v :
  validateProof (get v "protocolVersion") (get v "proofAlgorithm") (get v "purpose") = Ok tt <-> proof_ok v.
Proof.
  unfold validateProof, proof_ok. rewrite !do_Ok_iff, !fail_if_iff, andb_false_iff, !negb_false_iff, !is_int_iff. done.
Qed.

Definition envelope_ok (p : jsval) : Prop :=
  known p ENVELOPE_FIELDS /\ text (get p "traceId") /\ text (get p "senderId") /\
  (exists n, stamp (get p "createdAt") n) /\ get p "protocolVersion" = JNum (NInt 1) /\
  exists b, get p "signature" = JBytes b /\ b <> [].

Lemma validateEnvelope_iff p :
  (do! assertKnown p ENVELOPE_FIELDS "envelope" ;; validateEnvelope p) = Ok tt <-> envelope_ok p.
Proof.
  unfold validateEnvelope, envelope_ok. rewrite !do_Ok_iff, assertKnown_iff, !packetText_iff, bind_Ok_iff.
  setoid_rewrite validateTimestampObject_iff. setoid_rewrite do_Ok_iff. setoid_rewrite fail_if_iff.
  setoid_rewrite negb_false_iff. setoid_rewrite is_int_iff.
  assert (match get p "signature" with JBytes (_ :: _) => false | _ => true end = false <->
          exists b, get p "signature" = JBytes b /\ b <> []) as Hs
    by (destruct (get p "signature") as [| | | | |[|x b]| | |]; split; naive_solver).
  setoid_rewrite Hs. naive_solver.
Qed.

(** ** Valid packets *)

Record request_ok (p r : jsval) : Prop := {
  rq_known : known r REQUEST_FIELDS;
  rq_identities : Forall text (request_identities r);
  rq_trace : get p "traceId" = get r "traceId";
  rq_sender : get p "senderId" = get r "workerId";
  rq_proof : proof_ok r;
  rq_nonce : nonce32 (get r "clientNonce");
  rq_token : truthy (get p "authToken") = false
}.

(** A challenge carried by packet [p]: issued and expiring at most a minute
    apart. *)
Record challenge_ok (p c : jsval) : Prop := {
  ch_known : known c CHALLENGE_FIELDS;
  ch_identities : Forall text (challenge_identities c);
  ch_trace : get p "traceId" = get c "traceId";
  ch_proof : proof_ok c;
  ch_client : nonce32 (get c "clientNonce");
  ch_server : nonce32 (get c "serverNonce");
  ch_life : exists issued expires, stamp (get c "issuedAt") issued /\ stamp (get c "expiresAt") expires /\
              issued < expires <= issued + 60000 * 1000000
}.

Record capability_ok (k c : jsval) : Prop := {
  cb_known : known k CAPABILITY_FIELDS;
  cb_component : get k "componentId" = get c "workerId";
  cb_role : get k "role" = JNum (NInt 3);
  cb_sdk : get k "sdkVersion" = get c "sdkVersion";
  cb_version : js_length (get k "supportedVersions") = JNum (NInt 1) /\
               js_first (get k "supportedVersions") = JNum (NInt 1);
  cb_entries : Forall (fun e => CAPABILITY_KEY e.1 = true /\ e.2 = JBool true)
                 (own_entries (get k "capabilities"));
  cb_topics : exists topics, topic_list (coalesce (get k "readyTopics") (JArr [])) = Ok (map JStr topics) /\
                Forall (fun t => trim t <> []) topics /\ NoDup topics
}.

Record authenticate_ok (p a : jsval) : Prop := {
  au_known : known a ["challenge"; "capabilityHandshake"]%string;
  au_challenge : challenge_ok p (get a "challenge");
  au_sender : get p "senderId" = get (get a "challenge") "workerId";
  au_capability : capability_ok (get a "capabilityHandshake") (get a "challenge");
  au_issue : get (get a "challenge") "purpose" = JNum (NInt 1) ->
             coalesce (get p "authToken") (JStr []) = JStr [];
  au_renew : get (get a "challenge") "purpose" = JNum (NInt 2) ->
             token_text (coalesce (get p "authToken") (JStr []))
}.

(** An accepted result carries a token that expires after it was issued and no
    rejection reason; a rejected one carries a reason and neither token nor
    expiry. *)
Inductive outcome_ok (p r : jsval) (issued : Z) : Prop :=
| outcome_accepted expires :
    truthy (get r "accepted") = true ->
    stamp (get r "tokenExpiresAt") expires -> issued < expires ->
    token_text (coalesce (get p "authToken") (JStr [])) ->
    get r "rejectionReason" = JNum (NInt 0) -> outcome_ok p r issued
| outcome_rejected reason :
    truthy (get r "accepted") = false ->
    truthy (get p "authToken") = false -> truthy (get r "tokenExpiresAt") = false ->
    get r "rejectionReason" = JNum (NInt reason) -> 1 <= reason <= 9 -> outcome_ok p r issued.

Record result_ok (p r : jsval) : Prop := {
  rs_known : known r RESULT_FIELDS;
  rs_challenge : challenge_ok p (get r "challenge");
  rs_outcome : exists issued, stamp (get r "issuedAt") issued /\ outcome_ok p r issued
}.

(** Exactly this phase field is set. *)
Definition only_phase (p : jsval) (phase : WorkerTrustPhase) : Prop :=
  forall phase', truthy (get p (phase_field phase')) = true <-> phase' = phase.

Definition phase_ok (p : jsval) (phase : WorkerTrustPhase) : Prop :=
  let payload := get p (phase_field phase) in
  match phase with
  | challenge_request => request_ok p payload
  | challenge_phase => challenge_ok p payload /\ truthy (get p "authToken") = false
  | authenticate_phase => authenticate_ok p payload
  | result_phase => result_ok p payload
  end.

Definition valid_packet (p : jsval) (phase : WorkerTrustPhase) : Prop :=
  envelope_ok p /\ only_phase p phase /\ phase_ok p phase.

Lemma trustPhase_iff p phase : trustPhase p = Ok phase <-> only_phase p phase.
Proof.
  unfold trustPhase, only_phase. split.
  - intros H phase'. assert (In phase' PHASES) as Hin by (destruct phase'; cbn; tauto).
    assert (In phase' (List.filter (fun phase => truthy (get p (phase_field phase))) PHASES) <-> phase' = phase) as Hf.
    { destruct (List.filter _ _) as [|a [|]]; try discriminate. injection H as ->. cbn. naive_solver. }
    rewrite filter_In in Hf. naive_solver.
  - intros H. cbn [PHASES List.filter].
    pose proof (H challenge_request) as H1. pose proof (H challenge_phase) as H2.
    pose proof (H authenticate_phase) as H3. pose proof (H result_phase) as H4.
    destruct (truthy (get p (phase_field challenge_request))), (truthy (get p (phase_field challenge_phase))),
      (truthy (get p (phase_field authenticate_phase))), (truthy (get p (phase_field result_phase))), phase;
      naive_solver.
Qed.

Lemma Forall_text_get o names n :
  Forall text (map (get o) names) -> In n names -> text (get o n).
Proof. rewrite List.Forall_forall. intros H Hn. apply H. by apply in_map. Qed.

Lemma validateRequest_iff p :
  validateRequest p = Ok tt <-> request_ok p (get p "workerHandshakeChallengeRequest").
Proof.
  unfold validateRequest. set (r := get p "workerHandshakeChallengeRequest"). cbn zeta.
  rewrite !do_Ok_iff, assertKnown_iff, iter_packetText_iff, validateProof_iff, nonce_iff, !fail_if_iff,
    orb_false_iff, !negb_false_iff. split.
  - intros (? & Ht & [E1 E2] & ? & ? & ?). split; try done.
    + apply strict_eq_text in E1; [done|]. apply (Forall_text_get _ _ _ Ht). cbn. tauto.
    + apply strict_eq_text in E2; [done|]. apply (Forall_text_get _ _ _ Ht). cbn. tauto.
  - intros [? Ht E1 E2 ? ? ?]. do 2 (split; [done|]). split; [|done].
    rewrite E1, E2. split; apply strict_eq_text; try done; apply (Forall_text_get _ _ _ Ht); cbn; tauto.
Qed.

Lemma validateChallenge_iff p c : validateChallenge p c = Ok tt <-> challenge_ok p c.
Proof.
  unfold validateChallenge, WORKER_HANDSHAKE_MAX_LIFETIME_MS.
  rewrite !do_Ok_iff, assertKnown_iff, iter_packetText_iff, validateProof_iff, !nonce_iff, fail_if_iff,
    negb_false_iff, bind_Ok_iff.
  setoid_rewrite validateTimestampObject_iff. setoid_rewrite bind_Ok_iff. setoid_rewrite validateTimestampObject_iff.
  setoid_rewrite fail_if_iff. setoid_rewrite orb_false_iff. setoid_rewrite Z.leb_gt. setoid_rewrite Z.ltb_ge. split.
  - intros (? & Ht & E & ? & ? & ? & i & ? & e & ? & ? & ?). split; try done.
    + apply strict_eq_text in E; [done|]. apply (Forall_text_get _ _ _ Ht). cbn. tauto.
    + exists i, e. split; [done|]. split; [done | lia].
  - intros [? Ht E ? ? ? (i & e & ? & ? & ? & ?)]. do 2 (split; [done|]). split.
    { rewrite E. apply strict_eq_text; [|done]. apply (Forall_text_get _ _ _ Ht). cbn. tauto. }
    do 3 (split; [done|]). exists i. split; [done|]. exists e. split; [done|]. lia.
Qed.

Lemma validateChallengePacket_iff p :
  validateChallengePacket p = Ok tt <->
  challenge_ok p (get p "workerHandshakeChallenge") /\ truthy (get p "authToken") = false.
Proof. unfold validateChallengePacket. by rewrite do_Ok_iff, validateChallenge_iff, fail_if_iff. Qed.

Lemma some_blank_false l :
  some_blank l = Ok false <-> exists ts, l = map JStr ts /\ Forall (fun t => trim t <> []) ts.
Proof.
  induction l as [|x l IH]; cbn [some_blank].
  - split; [intros _; by exists [] | done].
  - split.
    + destruct x as [| | | |s| | | |]; try discriminate. destruct (str_empty (trim s)) eqn:E; [discriminate|].
      intros (ts & -> & Hts)%IH. exists (s :: ts). split; [done|]. constructor; [|done]. intros Hs. by rewrite Hs in E.
    + intros ([|t ts] & [= -> ->] & Hts). apply Forall_cons in Hts as [Ht Hts].
      destruct (trim t) eqn:E; [done|]. cbn [str_empty]. apply IH. eauto.
Qed.

Lemma capability_entry_iff (e : jsstr * jsval) :
  (let '(key, enabled) := e in
   fail_if (negb (CAPABILITY_KEY key) || negb (strict_eq enabled (JBool true))) "capability entry is invalid") = Ok tt <->
  CAPABILITY_KEY e.1 = true /\ e.2 = JBool true.
Proof. destruct e. rewrite fail_if_iff, orb_false_iff, !negb_false_iff, strict_eq_true. done. Qed.

Lemma as_str_NoDup ts : NoDup (map as_str (map JStr ts)) <-> NoDup ts.
Proof.
  rewrite List.map_map. split; [apply NoDup_fmap_1|]. apply NoDup_fmap_2. by intros ? ? [= ->].
Qed.

Lemma validateTopics_iff topics :
  (let! blank := some_blank topics in
   fail_if (blank || negb (bool_decide (NoDup (map as_str topics)))) "ready topic is empty or duplicated") = Ok tt <->
  exists ts, topics = map JStr ts /\ Forall (fun t => trim t <> []) ts /\ NoDup ts.
Proof.
  rewrite bind_Ok_iff. split.
  - intros (b & Hb & H). apply fail_if_iff, orb_false_iff in H as [-> Hn%negb_false_iff].
    apply bool_decide_eq_true in Hn. apply some_blank_false in Hb as (ts & -> & ?).
    exists ts. split; [done|]. split; [done|]. by apply as_str_NoDup.
  - intros (ts & -> & Ht & Hn). exists false. split; [apply some_blank_false; eauto|].
    rewrite fail_if_iff. cbn [orb]. rewrite negb_false_iff, bool_decide_eq_true. by apply as_str_NoDup.
Qed.

Lemma validateCapability_iff k c :
  text (get c "workerId") -> text (get c "sdkVersion") ->
  validateCapability k c = Ok tt <-> capability_ok k c.
Proof.
  intros Hw Hv. unfold validateCapability.
  rewrite !do_Ok_iff, assertKnown_iff, !fail_if_iff, !orb_false_iff, !negb_false_iff, !is_int_iff, !strict_eq_text,
    iter_result_Ok_iff, bind_Ok_iff by done.
  setoid_rewrite capability_entry_iff. setoid_rewrite validateTopics_iff. split.
  - intros (? & [[? ?] ?] & ? & ? & l & Hl & ts & -> & ? & ?). split; try done. by exists ts.
  - intros [? ? ? ? ? ? (ts & Hl & ? & ?)]. repeat (split; [done|]). exists (map JStr ts). split; [done|]. by exists ts.
Qed.

Lemma validateAuthenticate_iff p :
  validateAuthenticate p = Ok tt <-> authenticate_ok p (get p "workerHandshakeAuthenticate").
Proof.
  unfold validateAuthenticate, validateSessionForPurpose. set (a := get p "workerHandshakeAuthenticate"). cbn zeta.
  set (c := get a "challenge"). set (token := coalesce _ _).
  rewrite !do_Ok_iff, assertKnown_iff, validateChallenge_iff, !fail_if_iff, !andb_false_iff, !negb_false_iff,
    validToken_iff, strict_eq_str, <- !not_true_iff_false, !is_int_iff.
  assert (challenge_ok p c -> text (get c "workerId") /\ text (get c "sdkVersion")) as Htext.
  { intros [_ Ht _ _ _ _ _]. split; apply (Forall_text_get _ _ _ Ht); cbn; tauto. }
  split.
  - intros (? & Hc & E & Hk & ? & ?). destruct (Htext Hc) as [Hw Hv]. apply validateCapability_iff in Hk; [|done..].
    apply strict_eq_text in E; [|done]. split; try done; intros ?; naive_solver.
  - intros [? Hc E Hk Hi Hr]. destruct (Htext Hc) as [Hw Hv]. do 2 (split; [done|]).
    split; [by apply strict_eq_text|]. split; [by apply validateCapability_iff|].
    fold c in Hi, Hr. fold token in Hi, Hr.
    destruct (ch_proof p c Hc) as (_ & _ & [Hp|Hp]); rewrite Hp; (split;
      [first [by left | right; by apply Hi] | first [by left | right; by apply Hr]]).
Qed.

Lemma accepted_iff p r issued :
  truthy (get r "accepted") = true ->
  (let! expires := validateTimestampObject (get r "tokenExpiresAt") "token expires_at" in
   fail_if (negb (validToken (coalesce (get p "authToken") (JStr []))) ||
            (expires <=? issued) || negb (is_int (get r "rejectionReason") 0))
     "accepted result token metadata is invalid") = Ok tt <-> outcome_ok p r issued.
Proof.
  intros Ha. rewrite bind_Ok_iff. split.
  - intros (e & He%validateTimestampObject_iff & H). apply fail_if_iff in H.
    rewrite !orb_false_iff, !negb_false_iff, validToken_iff, is_int_iff, Z.leb_gt in H.
    destruct H as [[? ?] ?]. by eapply outcome_accepted.
  - intros [e _ He ? ? ?|]; [|congruence]. exists e. rewrite validateTimestampObject_iff, fail_if_iff.
    rewrite !orb_false_iff, !negb_false_iff, validToken_iff, is_int_iff, Z.leb_gt. done.
Qed.

Lemma rejected_iff p r issued :
  truthy (get r "accepted") = false ->
  fail_if (truthy (get p "authToken") || truthy (get r "tokenExpiresAt") ||
           match get r "rejectionReason" with
           | JNum (NInt z) => (z <? 1) || (9 <? z)
           | _ => true
           end) "rejected result token metadata is invalid" = Ok tt <-> outcome_ok p r issued.
Proof.
  intros Ha. rewrite fail_if_iff, !orb_false_iff. split.
  - intros [[Ht He] H]. destruct (get r "rejectionReason") as [| | |[z| | |]| | | | |] eqn:E; try discriminate.
    rewrite orb_false_iff, !Z.ltb_ge in H. by eapply outcome_rejected.
  - intros [|z _ ? ? -> ?]; [congruence|]. rewrite orb_false_iff, !Z.ltb_ge. done.
Qed.

Lemma validateResult_iff p :
  validateResult p = Ok tt <-> result_ok p (get p "workerHandshakeResult").
Proof.
  unfold validateResult. set (r := get p "workerHandshakeResult"). cbn zeta.
  rewrite !do_Ok_iff, assertKnown_iff, validateChallenge_iff, bind_Ok_iff.
  setoid_rewrite validateTimestampObject_iff. destruct (truthy (get r "accepted")) eqn:Ha.
  - setoid_rewrite accepted_iff; [|done]. split; [by intros (? & ? & ?); split | by intros [? ? ?]].
  - setoid_rewrite rejected_iff; [|done]. split; [by intros (? & ? & ?); split | by intros [? ? ?]].
Qed.

Lemma validate_packet_iff p :
  validateWorkerTrustPacket p = Ok tt <-> exists phase, valid_packet p phase.
Proof.
  assert (validateWorkerTrustPacket p = Ok tt <->
          envelope_ok p /\ exists phase, trustPhase p = Ok phase /\ phase_ok p phase) as ->.
  { rewrite <- validateEnvelope_iff. unfold validateWorkerTrustPacket. rewrite !do_Ok_iff, bind_Ok_iff, assertObject_iff.
    assert (forall phase, match phase with
      | challenge_request => validateRequest p
      | challenge_phase => validateChallengePacket p
      | authenticate_phase => validateAuthenticate p
      | result_phase => validateResult p
      end = Ok tt <-> phase_ok p phase) as Hph.
    { intros []; cbn; [apply validateRequest_iff | apply validateChallengePacket_iff |
        apply validateAuthenticate_iff | apply validateResult_iff]. }
    setoid_rewrite Hph. rewrite assertKnown_iff. unfold known. naive_solver. }
  setoid_rewrite trustPhase_iff. unfold valid_packet. naive_solver.
Qed.

(** C34. [validateWorkerTrustPacket] accepts exactly the valid handshake
    packets: closed envelope and payload, exactly one phase, 32-byte nonces,
    version 1 with ECDSA P-256, trace and sender bound to the payload, a
    challenge that lives at most a minute, a session token exactly where the
    purpose and the outcome ask for one, and a rejection reason from 1 to 9
    exactly on a rejected result. *)
Theorem validateWorkerTrustPacket_iff (p : jsval) :
  validateWorkerTrustPacket p = Ok tt <-> exists phase, valid_packet p phase.
Proof. apply validate_packet_iff. Qed.

(** ** Canonical wire *)

Lemma marshal_iff T p data :
  marshalWorkerTrustPacket T p = Ok data <->
  validateWorkerTrustPacket p = Ok tt /\ encodeDeterministic (tt_codec T) p = Ok data /\ zlen data <= 65536.
Proof.
  unfold marshalWorkerTrustPacket, WORKER_HANDSHAKE_MAX_PACKET_SIZE. rewrite do_Ok_iff, bind_Ok_iff. split.
  - intros (Hv & e & He & H). apply do_Ok_iff in H as [H [= <-]]. apply fail_if_iff, Z.ltb_ge in H. done.
  - intros (? & ? & ?). split; [done|]. exists data. split; [done|]. rewrite do_Ok_iff, fail_if_iff, Z.ltb_ge. done.
Qed.

Lemma unmarshal_iff R T data p :
  unmarshalWorkerTrustPacket R T data = Ok p <->
  1 <= zlen data <= 65536 /\ rejectUnknownWire R data (ct_schema (tt_codec T)) = Ok tt /\
  tt_decode T data = Ok p /\ validateWorkerTrustPacket p = Ok tt /\
  encodeDeterministic (tt_codec T) p = Ok data.
Proof.
  unfold unmarshalWorkerTrustPacket, WORKER_HANDSHAKE_MAX_PACKET_SIZE.
  rewrite !do_Ok_iff, bind_Ok_iff, fail_if_iff, orb_false_iff, Z.eqb_neq, Z.ltb_ge.
  pose proof (zlen_nonneg data). split.
  - intros (? & ? & q & Hq & H1). apply try_catch_throw_Ok_iff in Hq.
    apply do_Ok_iff in H1 as [? H1]. apply bind_Ok_iff in H1 as (c & Hc & H1).
    apply do_Ok_iff in H1 as [E [= <-]]. apply fail_if_iff, negb_false_iff, bool_decide_eq_true in E. subst c.
    repeat split; try done; lia.
  - intros (? & ? & Hd & Hv & He). split; [lia|]. split; [done|]. exists p. split; [by apply try_catch_Ok|].
    rewrite do_Ok_iff, bind_Ok_iff. split; [done|]. exists data. split; [done|].
    rewrite do_Ok_iff, fail_if_iff, negb_false_iff, bool_decide_eq_true. done.
Qed.

(** C33. Handshake packets have one wire form: a buffer that
    [unmarshalWorkerTrustPacket] accepts is, byte for byte, what
    [marshalWorkerTrustPacket] writes for the packet it returns, so that no
    two accepted buffers carry the same packet. *)
Theorem unmarshal_canonical (R : reader_api) (T : trust_type) (data : bytes) (p : jsval) :
  unmarshalWorkerTrustPacket R T data = Ok p ->
  marshalWorkerTrustPacket T p = Ok data /\
  (forall data', unmarshalWorkerTrustPacket R T data' = Ok p -> data' = data).
Proof.
  intros (? & _ & _ & Hv & He)%unmarshal_iff. split; [apply marshal_iff; repeat split; try done; lia|].
  intros data' (_ & _ & _ & _ & He')%unmarshal_iff. congruence.
Qed.
