(* ===== verification/TrustSigning.v ===== *)
(** * Worker trust: transcripts and signatures

    src/sdk/node/src/trust-signing.ts and trust-signing-crypto.ts.  A handshake
    packet is signed over a transcript: the domain of its phase, a zero byte
    and a fixed subset of its fields in wire order.  The protobufjs [Writer]
    is the parameter [writer_api], the types of the loaded root are
    [trust_root], node:crypto is [key_api]. *)

From S2P Require Import Prelude JsString JsValue Varint WireSchema Codec WorkerTrustContract WorkerTrustWire WorkerTrustPacket.

(** ** The protobufjs writer

    What each call appends: varints, and length-delimited text and bytes. *)
Record writer_api : Type := {
  wr_uint32 : Z -> bytes;
  wr_int32 : Z -> bytes;
  wr_bytes : bytes -> bytes;
  wr_string : jsstr -> bytes;
  wr_utf8 : jsstr -> bytes;
  wr_uint32_varint : forall z, 0 <= z < 2 ^ 32 -> wr_uint32 z = encodeVarint z;
  wr_int32_varint : forall z, 0 <= z < 2 ^ 31 -> wr_int32 z = encodeVarint z;
  wr_bytes_delimited : forall b, wr_bytes b = encodeVarint (zlen b) ++ b;
  wr_string_delimited : forall s, wr_string s = encodeVarint (zlen (wr_utf8 s)) ++ wr_utf8 s
}.

(** [root.lookupType] for the types the SDK looks up, and the BusPacket type
    with its decoder. *)
Record trust_root : Type := {
  lookupType : string -> codec_type;
  bus_type : trust_type
}.

(** ** trust-signing-crypto.ts *)

Definition signing_error {A} (message : jsstr) : result A := throw WorkerTrustSigningError message.

Section Keys.
Context (K : key_api).

Definition requireP256Key (keyLike : key_like K) (usage : key_usage) : result (key_object K) :=
  let! key := try_catch
    (match as_key_object K keyLike with
     | Some key =>
         match usage with
         | Private => if bool_decide (ko_type K key = js "private") then Ok key
                      else throw PlainError (js "private key required")
         | Public => if bool_decide (ko_type K key = js "public") then Ok key
                     else create_public K keyLike
         end
     | None => match usage with
               | Private => create_private K keyLike
               | Public => create_public K keyLike
               end
     end)
    (fun _ => signing_error (js "worker trust " ++ usage_text usage ++ js " key is invalid")) in
  do! throw_if (negb (bool_decide (ko_kind K key = Some (js "ec"))) ||
                negb (bool_decide (ko_curve K key = Some (js "prime256v1"))))
        WorkerTrustSigningError (js "worker trust " ++ usage_text usage ++ js " key must use P-256") ;;
  Ok key.
End Keys.

Definition requireSignature (value : jsval) : result bytes :=
  match value with
  | JBytes ((_ :: _) as b) => Ok b
  | _ => signing_error (js "worker trust signature is required")
  end.

(** [signature[i]]; out of range reads as undefined, which differs from every
    number and has no bits. *)
Definition byte_at (signature : bytes) (i : Z) : option Z := znth signature i.

Definition derIntegerEnd (signature : bytes) (offset : Z) : Z :=
  if (zlen signature <? offset + 2) || negb (bool_decide (byte_at signature offset = Some 0x02)) then -1
  else
    let length := default 0 (byte_at signature (offset + 1)) in
    let start := offset + 2 in
    let end_ := start + length in
    if (length <? 1) || (33 <? length) || (zlen signature <? end_) then -1
    else
      let first := default 0 (byte_at signature start) in
      if negb (Z.land first 0x80 =? 0) then -1
      else if (1 <? length) && (first =? 0) && (Z.land (default 0 (byte_at signature (start + 1))) 0x80 =? 0)
      then -1
      else end_.

Definition isStrictDerSignature (signature : bytes) : bool :=
  if (zlen signature <? 8) || (72 <? zlen signature) ||
     negb (bool_decide (byte_at signature 0 = Some 0x30)) ||
     negb (bool_decide (byte_at signature 1 = Some (zlen signature - 2)))
  then false
  else
    let rEnd := derIntegerEnd signature 2 in
    if rEnd <? 0 then false else derIntegerEnd signature rEnd =? zlen signature.

(** ** Phases *)

Record PhaseConfig : Type := {
  pc_domain : string;
  pc_field : string;
  pc_payloadType : string;
  pc_tag : Z
}.

Definition PHASE_CONFIG (phase : WorkerTrustPhase) : PhaseConfig :=
  match phase with
  | challenge_request => {|
      pc_domain := "CAP-WORKER-HANDSHAKE-CHALLENGE-REQUEST-V1";
      pc_field := "workerHandshakeChallengeRequest";
      pc_payloadType := "cordum.agent.v1.WorkerHandshakeChallengeRequest";
      pc_tag := 19 |}
  | challenge_phase => {|
      pc_domain := "CAP-WORKER-HANDSHAKE-CHALLENGE-V1";
      pc_field := "workerHandshakeChallenge";
      pc_payloadType := "cordum.agent.v1.WorkerHandshakeChallenge";
      pc_tag := 20 |}
  | authenticate_phase => {|
      pc_domain := "CAP-WORKER-HANDSHAKE-AUTHENTICATE-V1";
      pc_field := "workerHandshakeAuthenticate";
      pc_payloadType := "cordum.agent.v1.WorkerHandshakeAuthenticate";
      pc_tag := 21 |}
  | result_phase => {|
      pc_domain := "CAP-WORKER-HANDSHAKE-RESULT-V1";
      pc_field := "workerHandshakeResult";
      pc_payloadType := "cordum.agent.v1.WorkerHandshakeResult";
      pc_tag := 22 |}
  end.

Definition BUS_PAYLOAD_FIELDS : list string :=
  ["jobRequest"; "jobResult"; "heartbeat"; "alert"; "jobProgress"; "jobCancel"; "handshake"]%string ++
  map (fun phase => pc_field (PHASE_CONFIG phase)) PHASES.

Definition workerTrustPhase (packet : jsval) : result WorkerTrustPhase :=
  match List.filter (fun field => negb (nullish (get packet field))) BUS_PAYLOAD_FIELDS with
  | [field] =>
      match find (fun phase => String.eqb (pc_field (PHASE_CONFIG phase)) field) PHASES with
      | Some phase => Ok phase
      | None => signing_error (js "a worker trust payload is required")
      end
  | _ => signing_error (js "exactly one worker trust payload is required")
  end.

Definition workerTrustDomain (phase : WorkerTrustPhase) : jsstr := js (pc_domain (PHASE_CONFIG phase)).

Definition requireRecord (value : jsval) (label : jsstr) : result jsval :=
  if is_record value then Ok value else signing_error (label ++ js " is required").

Definition trustProofRecord (packet : jsval) (phase : WorkerTrustPhase) : result jsval :=
  let! payload := requireRecord (get packet (pc_field (PHASE_CONFIG phase))) (js "worker trust payload") in
  match phase with
  | authenticate_phase | result_phase =>
      requireRecord (get payload "challenge") (js "worker trust challenge")
  | _ => Ok payload
  end.

Definition validatedTrustPhase (packet : jsval) : result WorkerTrustPhase :=
  let! phase := workerTrustPhase packet in
  let! record := trustProofRecord packet phase in
  do! throw_if (negb (is_int (get record "proofAlgorithm") 1)) WorkerTrustSigningError
        (js "worker trust proof algorithm must be ECDSA_P256_SHA256") ;;
  Ok phase.

Definition workerTrustKeyId (packet : jsval) : result jsstr :=
  let! phase := workerTrustPhase packet in
  let! challenge := trustProofRecord packet phase in
  let value := match phase with
               | challenge_phase | result_phase => get challenge "serverKeyId"
               | _ => get challenge "proofKeyId"
               end in
  match value with
  | JStr ((_ :: _) as s) => Ok s
  | _ => signing_error (js "worker trust key id is required")
  end.

Definition lookupKey {A} (keys : list (jsstr * A)) (keyId : jsstr) : result A :=
  match assoc keyId keys with
  | Some key => Ok key
  | None => signing_error (js "unknown worker trust key id")
  end.

(** ** The transcript *)

Section Transcript.
Context (W : writer_api) (T : trust_root).

Definition writeString (tag : Z) (value : jsval) : result bytes :=
  match value with
  | JUndef => Ok []
  | JStr [] => Ok []
  | JStr s => Ok (wr_uint32 W (Z.lor (Z.shiftl tag 3) 2) ++ wr_string W s)
  | _ => signing_error (js "field " ++ decimal_text tag ++ js " must be a string")
  end.

Definition writeInt32 (tag : Z) (value : jsval) : result bytes :=
  match value with
  | JUndef => Ok []
  | JNum (NInt z) => if z =? 0 then Ok [] else Ok (wr_uint32 W (Z.shiftl tag 3) ++ wr_int32 W z)
  | _ => signing_error (js "field " ++ decimal_text tag ++ js " must be an int32")
  end.

Definition writeMessage (tag : Z) (type : codec_type) (value : jsval) : result bytes :=
  if nullish value then Ok []
  else
    let! record := requireRecord value (js "field " ++ decimal_text tag) in
    let! encoded := encodeDeterministic type record in
    Ok (wr_uint32 W (Z.lor (Z.shiftl tag 3) 2) ++ wr_bytes W encoded).

Definition encodeWorkerTrustUnsigned (packet : jsval) : result bytes :=
  do! validateWorkerTrustPacket packet ;;
  let! phase := validatedTrustPhase packet in
  let config := PHASE_CONFIG phase in
  let! trace := writeString 1 (get packet "traceId") in
  let! sender := writeString 2 (get packet "senderId") in
  let! created := writeMessage 3 (lookupType T "google.protobuf.Timestamp") (get packet "createdAt") in
  let! version := writeInt32 4 (get packet "protocolVersion") in
  let! token := writeString 18 (get packet "authToken") in
  let! payload := writeMessage (pc_tag config) (lookupType T (pc_payloadType config))
                    (get packet (pc_field config)) in
  Ok (trace ++ sender ++ created ++ version ++ token ++ payload).

Definition workerTrustTranscript (packet : jsval) : result bytes :=
  let! phase := workerTrustPhase packet in
  let! unsigned := encodeWorkerTrustUnsigned packet in
  Ok (workerTrustDomain phase ++ [0] ++ unsigned).

Definition workerTrustDigest (K : key_api) (packet : jsval) : result bytes :=
  let! transcript := workerTrustTranscript packet in
  Ok (ko_sha256 K transcript).

(** ** Signing and verifying *)

Definition signWorkerTrustPacket (K : key_api) (packet : jsval) (privateKeys : list (jsstr * key_like K))
    : result jsval :=
  let candidate := set "signature" (JBytes [1]) (spread packet) in
  do! validateWorkerTrustPacket candidate ;;
  let! keyId := workerTrustKeyId candidate in
  let! keyLike := lookupKey privateKeys keyId in
  let! key := requireP256Key K keyLike Private in
  let! transcript := workerTrustTranscript candidate in
  Ok (set "signature" (JBytes (ko_sign K key transcript)) (spread packet)).

Definition verifyWorkerTrustPacket (K : key_api) (packet : jsval) (publicKeys : list (jsstr * key_like K))
    : result bool :=
  do! validateWorkerTrustPacket packet ;;
  let! signature := requireSignature (get packet "signature") in
  if negb (isStrictDerSignature signature) then Ok false
  else
    let! keyId := workerTrustKeyId packet in
    let! keyLike := lookupKey publicKeys keyId in
    let! key := requireP256Key K keyLike Public in
    try_catch (let! transcript := workerTrustTranscript packet in ko_verify K key transcript signature)
      (fun _ => Ok false).
End Transcript.

(** ** Strict DER *)

(** The value of big-endian bytes. *)
Definition be_value (b : bytes) : Z := fold_left (fun acc x => acc * 256 + x) b 0.

(** The least bytes of a nonnegative integer in two's complement, 33 at most. *)
Record integer_bytes (n : Z) (b : bytes) : Prop := {
  ib_size : 1 <= zlen b <= 33;
  ib_bytes : Forall is_byte b;
  ib_value : be_value b = n;
  ib_positive : forall x, znth b 0 = Some x -> x < 128;
  ib_minimal : forall y, znth b 0 = Some 0 -> znth b 1 = Some y -> 128 <= y
}.

(** The DER encoding of the pair: a sequence of the two integers. *)
Inductive der_signature (r s : Z) : bytes -> Prop :=
| der_intro rb sb :
    integer_bytes r rb -> integer_bytes s sb ->
    der_signature r s ([0x30; zlen rb + zlen sb + 4] ++ ([0x02; zlen rb] ++ rb) ++ ([0x02; zlen sb] ++ sb)).

Lemma be_value_snoc b x : be_value (b ++ [x]) = be_value b * 256 + x.
Proof. unfold be_value. by rewrite fold_left_app. Qed.

Lemma be_value_cons x b : be_value (x :: b) = x * 256 ^ zlen b + be_value b.
Proof.
  induction b as [|y b IH] using rev_ind.
  - unfold be_value. cbn [fold_left]. rewrite (@zlen_nil Z). lia.
  - rewrite app_comm_cons, !be_value_snoc, IH. rewrite zlen_app, zlen_cons, (@zlen_nil Z).
    rewrite Z.add_0_r, Z.pow_add_r by (pose proof (zlen_nonneg b); lia). lia.
Qed.

Lemma be_value_bound b : Forall is_byte b -> 0 <= be_value b < 256 ^ zlen b.
Proof.
  induction 1 as [|x b [? ?] Hb IH]; [done|]. rewrite be_value_cons, zlen_cons.
  rewrite Z.pow_add_r by (pose proof (zlen_nonneg b); lia). nia.
Qed.

Lemma be_value_inj a b :
  Forall is_byte a -> Forall is_byte b -> zlen a = zlen b -> be_value a = be_value b -> a = b.
Proof.
  intros Ha. revert b. induction Ha as [|x a Hx Ha IH]; intros b Hb Hl E.
  - symmetry. apply zlen_0_inv. done.
  - destruct Hb as [|y b Hy Hb]; [rewrite zlen_cons, (@zlen_nil Z) in Hl; pose proof (zlen_nonneg a); lia|].
    rewrite !zlen_cons in Hl. assert (zlen a = zlen b) as Hl' by lia. rewrite !be_value_cons, Hl' in E.
    pose proof (be_value_bound a Ha). pose proof (be_value_bound b Hb). rewrite Hl' in *.
    assert (x = y) as -> by (unfold is_byte in *; nia). f_equal. apply IH; [done..|lia].
Qed.

(** The size of the least bytes is determined by the value. *)
Lemma integer_bytes_size n b :
  integer_bytes n b -> 0 <= n < 2 ^ (8 * zlen b - 1) /\ (1 < zlen b -> 2 ^ (8 * (zlen b - 1) - 1) <= n).
Proof.
  intros [Hs Hb <- Hp Hm]. destruct Hb as [|x b Hx Hb]; [rewrite (@zlen_nil Z) in Hs; lia|].
  rewrite be_value_cons. pose proof (be_value_bound b Hb) as Hv. specialize (Hp x eq_refl).
  rewrite zlen_cons in *. pose proof (zlen_nonneg b). destruct Hx as [Hx0 _].
  replace (8 * (1 + zlen b) - 1) with (7 + 8 * zlen b) by lia. rewrite Z.pow_add_r by lia.
  replace (8 * (1 + zlen b - 1) - 1) with (8 * zlen b - 1) by lia.
  change 256 with (2 ^ 8) in *. rewrite <- Z.pow_mul_r in * by lia. change (2 ^ 7) with 128.
  split; [nia|]. intros Hlen. destruct (Z.eq_dec x 0) as [->|].
  - destruct Hb as [|y b Hy Hb]; [rewrite (@zlen_nil Z) in Hlen; lia|].
    specialize (Hm y eq_refl eq_refl). rewrite be_value_cons. pose proof (be_value_bound b Hb).
    rewrite zlen_cons in *. pose proof (zlen_nonneg b).
    replace (8 * (1 + zlen b) - 1) with (7 + 8 * zlen b) by lia. rewrite Z.pow_add_r by lia.
    change 256 with (2 ^ 8). rewrite <- Z.pow_mul_r by lia. change (2 ^ 7) with 128.
    assert (0 < 2 ^ (8 * zlen b)) by (apply Z.pow_pos_nonneg; lia). nia.
  - assert (2 ^ (8 * zlen b - 1) <= 2 ^ (8 * zlen b)) by (apply Z.pow_le_mono_r; lia). nia.
Qed.

Lemma integer_bytes_unique n a b : integer_bytes n a -> integer_bytes n b -> a = b.
Proof.
  intros Ha Hb. pose proof (integer_bytes_size n a Ha) as [Ha1 Ha2]. pose proof (integer_bytes_size n b Hb) as [Hb1 Hb2].
  pose proof (ib_size _ _ Ha). pose proof (ib_size _ _ Hb).
  assert (zlen a = zlen b) as Hl.
  { destruct (Z.lt_trichotomy (zlen a) (zlen b)) as [Hlt|[E|Hlt]]; [exfalso|done|exfalso].
    - assert (2 ^ (8 * zlen a - 1) <= 2 ^ (8 * (zlen b - 1) - 1)) by (apply Z.pow_le_mono_r; lia). lia.
    - assert (2 ^ (8 * zlen b - 1) <= 2 ^ (8 * (zlen a - 1) - 1)) by (apply Z.pow_le_mono_r; lia). lia. }
  apply be_value_inj; [apply Ha | apply Hb | done |]. by rewrite (ib_value _ _ Ha), (ib_value _ _ Hb).
Qed.

Lemma integer_bytes_small n : 0 <= n < 128 -> integer_bytes n [n].
Proof.
  intros. split; [unfold zlen; cbn; lia | repeat constructor; lia | done | |].
  - intros x [= <-]. lia.
  - intros y _. discriminate.
Qed.

Lemma integer_bytes_snoc q r b :
  0 < q -> 0 <= r < 256 -> zlen b <= 32 -> integer_bytes q b -> integer_bytes (q * 256 + r) (b ++ [r]).
Proof.
  intros Hq Hr Hlen [Hs Hb Hv Hp Hm]. assert (exists x b', b = x :: b') as (x & b' & ->)
    by (destruct b; [rewrite (@zlen_nil Z) in Hs; lia | eauto]).
  split.
  - rewrite zlen_app. change (zlen [r]) with 1. lia.
  - apply Forall_app. split; [done|]. apply Forall_singleton. done.
  - by rewrite be_value_snoc, Hv.
  - intros y [= <-]. by apply (Hp x).
  - intros y [= ->]. destruct b' as [|z b']; [cbn in Hv; lia|]. intros [= <-]. by apply (Hm z).
Qed.

Lemma integer_bytes_exist k n :
  0 <= n < 2 ^ (8 * Z.of_nat (S k) - 1) -> (k < 33)%nat -> exists b, integer_bytes n b /\ zlen b <= Z.of_nat (S k).
Proof.
  revert n. induction k as [|k IH]; intros n Hn Hk.
  - exists [n]. split; [|done]. apply integer_bytes_small. cbn in Hn. lia.
  - destruct (Z.ltb_spec n 128); [exists [n]; split; [by apply integer_bytes_small; lia | unfold zlen; cbn; lia]|].
    pose proof (Z.div_mod n 256 ltac:(lia)). pose proof (Z.mod_pos_bound n 256 ltac:(lia)).
    destruct (Z.ltb_spec n 256) as [Hlt|Hge].
    + exists [0; n]. split; [|unfold zlen; cbn; lia]. split; [unfold zlen; cbn; lia | repeat constructor; lia | unfold zlen; cbn; lia | |].
      * intros x [= <-]. lia.
      * intros y _ [= <-]. lia.
    + destruct (IH (n / 256)) as (b & Hb & Hl); [|lia|].
      * split; [apply Z.div_pos; lia|]. apply Z.div_lt_upper_bound; [lia|].
        replace (8 * Z.of_nat (S (S k)) - 1) with (8 + (8 * Z.of_nat (S k) - 1)) in Hn by lia.
        rewrite Z.pow_add_r in Hn by lia. lia.
      * exists (b ++ [n mod 256]). rewrite zlen_app, zlen_cons, zlen_nil. split; [|lia].
        replace n with (n / 256 * 256 + n mod 256) at 1 by lia.
        apply integer_bytes_snoc; [|done|lia|done].
        assert (1 <= n / 256) by (apply Z.div_le_lower_bound; lia). lia.
Qed.

Lemma high_bit x : is_byte x -> (Z.land x 0x80 =? 0) = (x <? 128).
Proof.
  intros [Hx0 Hx1].
  assert (forallb (fun n => Bool.eqb (Z.land (Z.of_nat n) 0x80 =? 0) (Z.of_nat n <? 128)) (seq 0 256) = true) as H
    by (vm_compute; reflexivity).
  rewrite forallb_forall in H. specialize (H (Z.to_nat x)). rewrite Z2Nat.id in H by done.
  apply Bool.eqb_prop, H, in_seq. lia.
Qed.

Lemma byte_at_app pre rest i : 0 <= i -> byte_at (pre ++ rest) (zlen pre + i) = byte_at rest i.
Proof. intros. unfold byte_at. rewrite znth_app_r by lia. f_equal. lia. Qed.

Lemma derIntegerEnd_shift pre rest :
  derIntegerEnd (pre ++ rest) (zlen pre) =
  if derIntegerEnd rest 0 <? 0 then -1 else zlen pre + derIntegerEnd rest 0.
Proof.
  unfold derIntegerEnd. pose proof (zlen_nonneg pre).
  assert (byte_at (pre ++ rest) (zlen pre) = byte_at rest 0) as ->
    by (rewrite <- (byte_at_app pre rest 0) by lia; f_equal; lia).
  rewrite (byte_at_app pre rest 1) by lia.
  rewrite <- !Z.add_assoc. rewrite (byte_at_app pre rest 2), (byte_at_app pre rest (2 + 1)) by lia.
  rewrite zlen_app, ?Z.add_0_l.
  set (l := default 0 (byte_at rest 1)).
  replace (zlen pre + zlen rest <? zlen pre + 2) with (zlen rest <? 2)
    by (destruct (Z.ltb_spec (zlen rest) 2), (Z.ltb_spec (zlen pre + zlen rest) (zlen pre + 2)); lia).
  replace (zlen pre + zlen rest <? zlen pre + (2 + l)) with (zlen rest <? 2 + l)
    by (destruct (Z.ltb_spec (zlen rest) (2 + l)), (Z.ltb_spec (zlen pre + zlen rest) (zlen pre + (2 + l))); lia).
  destruct (_ || _); [done|]. destruct (Z.ltb_spec l 1), (Z.ltb_spec 33 l), (zlen rest <? 2 + l); cbn [orb]; try done.
  destruct (negb _); [done|]. destruct (_ && _); [done|]. destruct (Z.ltb_spec (2 + l) 0); lia.
Qed.

Lemma derIntegerEnd_sound rest :
  Forall is_byte rest -> 0 <= derIntegerEnd rest 0 ->
  exists n b post, rest = [0x02; zlen b] ++ b ++ post /\ integer_bytes n b /\
                   derIntegerEnd rest 0 = 2 + zlen b.
Proof.
  intros Hrest. unfold derIntegerEnd. change (0 + 2) with 2. change (0 + 1) with 1.
  destruct Hrest as [|x rest Hx Hrest]; [done|]. destruct Hrest as [|l rest Hl Hrest]; [done|].
  destruct (Z.ltb_spec (zlen (x :: l :: rest)) 2); [done|]. cbn [orb byte_at].
  change (byte_at (x :: l :: rest) 0) with (Some x). change (default 0 (byte_at (x :: l :: rest) 1)) with l.
  case_bool_decide as E; [|done]. injection E as ->. cbn [negb].
  rewrite !zlen_cons.
  destruct (Z.ltb_spec l 1); [done|]. destruct (Z.ltb_spec 33 l); [done|].
  destruct (Z.ltb_spec (1 + (1 + zlen rest)) (2 + l)); [done|]. cbn [orb].
  change (byte_at (2 :: l :: rest) 2) with (znth rest 0). change (2 + 1) with 3.
  change (byte_at (2 :: l :: rest) 3) with (znth rest 1).
  set (b := take (Z.to_nat l) rest). set (post := drop (Z.to_nat l) rest).
  assert (rest = b ++ post) as Hsplit by (symmetry; apply take_drop).
  assert (zlen b = l) as Hzb by (unfold b, zlen in *; rewrite length_take; lia).
  assert (forall i, i < l -> znth rest i = znth b i) as Hnth
    by (intros; rewrite Hsplit; apply znth_app_l; lia).
  assert (Forall is_byte b) as Hbytes by (apply Forall_take; done).
  destruct (znth_lt_Some b 0) as [f Hf]; [lia|]. rewrite (Hnth 0), Hf by lia. cbn [default from_option id].
  assert (is_byte f) as Hfb by (eapply Forall_lookup_1; [exact Hbytes | exact Hf]).
  rewrite (high_bit f Hfb). destruct (Z.ltb_spec f 128); [|done]. cbn [negb].
  destruct ((1 <? l) && (f =? 0) && _) eqn:E; [done|]. intros _.
  exists (be_value b), b, post. split; [by rewrite Hzb, Hsplit|]. split; [|lia].
  split; [lia | done | done | |].
  - intros y Hy. rewrite Hf in Hy. by injection Hy as <-.
  - intros y Hy0 Hy. rewrite Hf in Hy0. injection Hy0 as ->.
    pose proof (znth_Some_lt b 1 y Hy) as Hlen. rewrite (Hnth 1), Hy in E by lia. cbn [from_option id] in E.
    assert (is_byte y) as Hyb by (eapply Forall_lookup_1; [exact Hbytes | exact Hy]).
    rewrite (high_bit y Hyb) in E. destruct (Z.ltb_spec 1 l); [|lia]. cbn [andb] in E.
    change (0 =? 0) with true in E. cbn [andb] in E. apply Z.ltb_ge in E. lia.
Qed.

Lemma derIntegerEnd_complete n b post :
  integer_bytes n b -> derIntegerEnd ([0x02; zlen b] ++ b ++ post) 0 = 2 + zlen b.
Proof.
  intros [Hs Hb Hv Hp Hm]. set (l := zlen b) in *.
  assert (exists f b', b = f :: b') as (f & b' & Eb) by (destruct b; [done || (unfold l, zlen in Hs; cbn in Hs; lia) | eauto]).
  assert (is_byte f) as Hf by (rewrite Eb in Hb; by inversion Hb).
  unfold derIntegerEnd. rewrite ?Z.add_0_l, !zlen_app. change (zlen [2; l]) with 2. fold l.
  pose proof (zlen_nonneg post).
  destruct (Z.ltb_spec (2 + (l + zlen post)) 2); [lia|]. cbn [orb].
  change (byte_at ([2; l] ++ b ++ post) 0) with (Some 2). rewrite bool_decide_eq_true_2 by done. cbn [negb].
  change (default 0 (byte_at ([2; l] ++ b ++ post) 1)) with l.
  destruct (Z.ltb_spec l 1), (Z.ltb_spec 33 l), (Z.ltb_spec (2 + (l + zlen post)) (2 + l)); cbn [orb]; try lia.
  change (byte_at ([2; l] ++ b ++ post) 2) with (znth (b ++ post) 0).
  change (byte_at ([2; l] ++ b ++ post) (2 + 1)) with (znth (b ++ post) 1).
  assert (znth b 0 = Some f) as Hb0 by (by rewrite Eb). specialize (Hp f Hb0).
  rewrite (znth_app_l b post 0), Hb0 by (fold l; lia). cbn [from_option id].
  rewrite high_bit by done. destruct (Z.ltb_spec f 128); [|lia]. cbn [negb].
  destruct (Z.ltb_spec 1 l), (Z.eqb_spec f 0) as [->|]; cbn [andb]; try done.
  rewrite znth_app_l by (fold l; lia). destruct (znth_lt_Some b 1) as [y Hy]; [fold l; lia|].
  rewrite Hy. cbn [from_option id]. specialize (Hm y Hb0 Hy).
  assert (is_byte y) as Hyb by (eapply Forall_lookup_1; [exact Hb | exact Hy]).
  rewrite high_bit by done. destruct (Z.ltb_spec y 128); [lia | done].
Qed.

Lemma strict_der_sound sig :
  Forall is_byte sig -> isStrictDerSignature sig = true -> exists r s, der_signature r s sig.
Proof.
  intros Hsig. unfold isStrictDerSignature.
  destruct (Z.ltb_spec (zlen sig) 8); [done|]. destruct (Z.ltb_spec 72 (zlen sig)); [done|]. cbn [orb].
  case_bool_decide as E0; [|done]. case_bool_decide as E1; [|done]. cbn [negb orb].
  assert (exists rest, sig = [48; zlen sig - 2] ++ rest) as [rest Er].
  { destruct sig as [|x [|y rest]]; try done. injection E0 as ->. injection E1 as Ey. exists rest. cbn [app]. congruence. }
  set (head := [48; zlen sig - 2]) in *.
  assert (Forall is_byte rest) as Hrest by (rewrite Er in Hsig; by apply Forall_app in Hsig as [_ ?]).
  assert (derIntegerEnd sig 2 = if derIntegerEnd rest 0 <? 0 then -1 else 2 + derIntegerEnd rest 0) as ->
    by (rewrite Er at 1; apply (derIntegerEnd_shift head rest)).
  destruct (Z.ltb_spec (derIntegerEnd rest 0) 0) as [|Hr]; [done|].
  destruct (derIntegerEnd_sound rest Hrest Hr) as (r & rb & post & Ep & Hrb & He). rewrite He.
  pose proof (zlen_nonneg rb). destruct (Z.ltb_spec (2 + (2 + zlen rb)) 0); [lia|].
  set (pre := head ++ [2; zlen rb] ++ rb).
  assert (sig = pre ++ post) as Es by (unfold pre; rewrite Er, Ep at 1; by rewrite <- !app_assoc).
  assert (zlen pre = 2 + (2 + zlen rb)) as Hpre by (unfold pre; rewrite !zlen_app; done).
  assert (Forall is_byte post) as Hpost by (rewrite Es in Hsig; by apply Forall_app in Hsig as [_ ?]).
  rewrite <- Hpre. rewrite Es at 1. rewrite derIntegerEnd_shift.
  destruct (Z.ltb_spec (derIntegerEnd post 0) 0) as [|Hs]; [intros E%Z.eqb_eq; lia|].
  destruct (derIntegerEnd_sound post Hpost Hs) as (s & sb & tl & Et & Hsb & He'). rewrite He'.
  intros E%Z.eqb_eq. rewrite Es, zlen_app, Et, !zlen_app in E. change (zlen [2; zlen sb]) with 2 in E.
  assert (tl = []) as -> by (apply zlen_0_inv; lia). exists r, s. rewrite app_nil_r in Et.
  replace sig with ([48; zlen rb + zlen sb + 4] ++ ([2; zlen rb] ++ rb) ++ [2; zlen sb] ++ sb); [by constructor|].
  rewrite Es at 1. unfold pre, head. rewrite Et. replace (zlen sig - 2) with (zlen rb + zlen sb + 4); [by rewrite <- !app_assoc|].
  rewrite Es, zlen_app, Hpre, Et, zlen_app. change (zlen [2; zlen sb]) with 2. lia.
Qed.

Lemma strict_der_complete r s sig : der_signature r s sig -> isStrictDerSignature sig = true.
Proof.
  intros [rb sb Hr Hs]. pose proof (ib_size _ _ Hr). pose proof (ib_size _ _ Hs).
  set (head := [48; zlen rb + zlen sb + 4]). set (sig' := head ++ ([2; zlen rb] ++ rb) ++ [2; zlen sb] ++ sb).
  assert (zlen sig' = zlen rb + zlen sb + 6) as Hlen
    by (unfold sig'; rewrite !zlen_app; change (zlen head) with 2; change (zlen [2; zlen rb]) with 2;
        change (zlen [2; zlen sb]) with 2; lia).
  unfold isStrictDerSignature. rewrite Hlen.
  destruct (Z.ltb_spec (zlen rb + zlen sb + 6) 8), (Z.ltb_spec 72 (zlen rb + zlen sb + 6)); try lia. cbn [orb].
  change (byte_at sig' 0) with (Some 48). change (byte_at sig' 1) with (Some (zlen rb + zlen sb + 4)).
  rewrite !bool_decide_eq_true_2 by (done || f_equal; lia). cbn [negb orb].
  assert (derIntegerEnd sig' 2 = 2 + (2 + zlen rb)) as ->.
  { unfold sig'. rewrite <- (app_assoc [2; zlen rb] rb).
    pose proof (derIntegerEnd_shift head ([2; zlen rb] ++ rb ++ [2; zlen sb] ++ sb)) as E.
    change (zlen head) with 2 in E. rewrite E, (derIntegerEnd_complete r rb) by done.
    destruct (Z.ltb_spec (2 + zlen rb) 0); [lia | done]. }
  destruct (Z.ltb_spec (2 + (2 + zlen rb)) 0); [lia|]. apply Z.eqb_eq.
  set (pre := head ++ [2; zlen rb] ++ rb).
  assert (sig' = pre ++ ([2; zlen sb] ++ sb ++ [])) as -> by (unfold sig', pre; by rewrite <- !app_assoc, app_nil_r).
  assert (zlen pre = 2 + (2 + zlen rb)) as <- by (unfold pre; rewrite !zlen_app; done).
  rewrite derIntegerEnd_shift, (derIntegerEnd_complete s sb) by done.
  destruct (Z.ltb_spec (2 + zlen sb) 0); [lia|]. unfold pre. rewrite !zlen_app.
  change (zlen head) with 2. change (zlen [2; zlen rb]) with 2. lia.
Qed.

(** A buffer of bytes passes [isStrictDerSignature] exactly when it is the
    DER encoding of a pair of nonnegative integers with the least number of
    bytes each; every pair below 2^256 has such an encoding, and only one, so
    a verified signature cannot be re-encoded into another accepted buffer. *)
Theorem isStrictDerSignature_iff (sig : bytes) :
  Forall is_byte sig ->
  (isStrictDerSignature sig = true <-> exists r s, der_signature r s sig) /\
  (forall r s, 0 <= r < 2 ^ 256 -> 0 <= s < 2 ^ 256 ->
     exists e, der_signature r s e /\ forall e', der_signature r s e' -> e' = e).
Proof.
  intros Hsig. split.
  - split; [by apply strict_der_sound | intros (r & s & H); by eapply strict_der_complete].
  - assert (2 ^ 256 <= 2 ^ (8 * Z.of_nat 33 - 1)) by (apply Z.pow_le_mono_r; lia).
    intros r s Hr Hs. destruct (integer_bytes_exist 32 r) as (rb & Hrb & _); [lia|lia|].
    destruct (integer_bytes_exist 32 s) as (sb & Hsb & _); [lia|lia|].
    eexists. split; [by constructor|]. intros e' [rb' sb' Hr' Hs'].
    by rewrite (integer_bytes_unique r rb' rb), (integer_bytes_unique s sb' sb).
Qed.

Lemma isStrictDerSignature_iff_witness :
  exists r s, der_signature r s [0x30; 7; 0x02; 1; 5; 0x02; 2; 0; 200].
Proof.
  apply isStrictDerSignature_iff; [|vm_compute; reflexivity].
  repeat constructor; unfold is_byte; lia.
Defined.

(** ** What a transcript covers *)

Section Transcripts.
Context (W : writer_api) (T : trust_root).

Definition token_field (v : jsval) : list wfield :=
  match v with JStr ((_ :: _) as s) => [(18, VBytes (wr_utf8 W s))] | _ => [] end.

(** The fields of [p] that its transcript holds, as they stand on the wire. *)
Inductive signed_fields (p : jsval) (phase : WorkerTrustPhase) : list wfield -> Prop :=
| signed_fields_intro trace sender created payload :
    get p "traceId" = JStr trace -> get p "senderId" = JStr sender ->
    encodeDeterministic (lookupType T "google.protobuf.Timestamp") (get p "createdAt") = Ok created ->
    encodeDeterministic (lookupType T (pc_payloadType (PHASE_CONFIG phase)))
      (get p (pc_field (PHASE_CONFIG phase))) = Ok payload ->
    signed_fields p phase
      ([(1, VBytes (wr_utf8 W trace)); (2, VBytes (wr_utf8 W sender)); (3, VBytes created); (4, VVarint 1)] ++
       token_field (get p "authToken") ++ [(pc_tag (PHASE_CONFIG phase), VBytes payload)]).

Lemma tag_delimited tag : 0 < tag < 2 ^ 28 -> wr_uint32 W (Z.lor (Z.shiftl tag 3) 2) = encodeVarint (tag * 8 + 2).
Proof.
  intros Ht. assert (Z.lor (Z.shiftl tag 3) 2 = tag * 8 + 2) as ->.
  { rewrite Z.lor_comm. pose proof (lor_shiftl_add 2 tag 3) as E. rewrite E by lia. lia. }
  apply wr_uint32_varint. lia.
Qed.

Lemma writeString_iff tag v b :
  0 < tag < 2 ^ 28 -> v <> JStr [] -> v <> JUndef ->
  writeString W tag v = Ok b <-> exists s, v = JStr s /\ b = wf_encode (tag, VBytes (wr_utf8 W s)).
Proof.
  intros Ht Hn Hu. unfold writeString, wf_encode. cbn [fst snd wv_type wv_encode].
  destruct v as [| | | |[|c s]| | | |]; try done; try (split; [discriminate | naive_solver]).
  rewrite tag_delimited, wr_string_delimited by done. naive_solver.
Qed.

Lemma writeToken_iff v b :
  writeString W 18 v = Ok b -> b = encode_wfields (token_field v).
Proof.
  unfold writeString, token_field, encode_wfields. destruct v as [| | | |[|c s]| | | |]; try discriminate; intros [= <-]; [done..|].
  cbn [map concat]. rewrite app_nil_r. unfold wf_encode. cbn [fst snd wv_type wv_encode].
  by rewrite tag_delimited, wr_string_delimited by lia.
Qed.

Lemma writeMessage_Ok tag type v b :
  0 < tag < 2 ^ 28 -> nullish v = false -> writeMessage W tag type v = Ok b ->
  exists e, encodeDeterministic type v = Ok e /\ b = wf_encode (tag, VBytes e).
Proof.
  intros Ht Hn. unfold writeMessage, requireRecord. rewrite Hn.
  destruct (is_record v); [|discriminate]. cbn [mbind result_bind]. intros (e & He & [= <-])%bind_Ok_iff.
  exists e. split; [done|]. unfold wf_encode. cbn [fst snd wv_type wv_encode].
  by rewrite tag_delimited, wr_bytes_delimited.
Qed.

Lemma phase_tag phase : 0 < pc_tag (PHASE_CONFIG phase) < 2 ^ 28.
Proof. destruct phase; cbn; lia. Qed.

Lemma pc_field_phase phase : pc_field (PHASE_CONFIG phase) = phase_field phase.
Proof. by destruct phase. Qed.

Lemma phase_field_inj phase phase' : phase_field phase = phase_field phase' -> phase = phase'.
Proof. destruct phase, phase'; done || discriminate. Qed.

Lemma stamp_not_nullish v n : stamp v n -> nullish v = false.
Proof. intros [[H _] _]. by destruct v. Qed.

Lemma truthy_not_nullish v : truthy v = true -> nullish v = false.
Proof. by destruct v. Qed.

Lemma workerTrustPhase_valid p phase phase' :
  only_phase p phase -> workerTrustPhase p = Ok phase' -> phase' = phase.
Proof.
  intros Ho. unfold workerTrustPhase.
  destruct (List.filter _ _) as [|f [|]] eqn:Ef; try discriminate.
  destruct (find _ _) as [ph|] eqn:E; [|discriminate]. intros [= ->].
  apply find_some in E as [_ Hf%String.eqb_eq].
  assert (In (phase_field phase) [f]) as [E|[]].
  { rewrite <- Ef. apply filter_In. split.
    - apply in_app_iff. right. rewrite <- pc_field_phase.
      apply in_map_iff. exists phase. split; [done|]. destruct phase; cbn; tauto.
    - apply negb_true_iff, truthy_not_nullish, Ho. done. }
  rewrite pc_field_phase in Hf. apply phase_field_inj. congruence.
Qed.

Lemma unsigned_sound p u :
  encodeWorkerTrustUnsigned W T p = Ok u ->
  exists phase fs, valid_packet p phase /\ workerTrustPhase p = Ok phase /\
                   signed_fields p phase fs /\ u = encode_wfields fs.
Proof.
  unfold encodeWorkerTrustUnsigned. intros [Hv H]%do_Ok_iff. apply validate_packet_iff in Hv as [phase Hv].
  apply bind_Ok_iff in H as (phase' & Hp & H). apply bind_Ok_iff in Hp as (ph & Hw & Hp).
  apply bind_Ok_iff in Hp as (rec & _ & Hp). apply do_Ok_iff in Hp as [_ [= ->]].
  pose proof Hv as (He & Ho & _). pose proof (workerTrustPhase_valid p phase phase' Ho Hw) as ->.
  destruct He as (_ & (trace & Et & Htne & _) & (sender & Es & Hsne & _) & [n Hc] & Hver & _).
  cbn zeta in H. repeat (apply bind_Ok_iff in H as (? & ? & H)). injection H as <-.
  rewrite Et in H0. rewrite Es in H1. rewrite Hver in H3.
  apply writeString_iff in H0 as (? & [= <-] & ->); [|lia|congruence|done].
  apply writeString_iff in H1 as (? & [= <-] & ->); [|lia|congruence|done].
  apply writeMessage_Ok in H2 as (created & Hcr & ->); [|lia|by eapply stamp_not_nullish].
  apply writeToken_iff in H4. subst.
  apply writeMessage_Ok in H5 as (payload & Hpay & ->);
    [|apply phase_tag | rewrite pc_field_phase; by apply truthy_not_nullish, Ho].
  assert (x2 = wf_encode (4, VVarint 1)) as ->.
  { injection H3 as <-. change (Z.shiftl 4 3) with 32.
    by rewrite (wr_uint32_varint W 32), (wr_int32_varint W 1) by lia. }
  eexists phase, _. split; [done|]. split; [done|]. split; [by eapply signed_fields_intro|].
  unfold encode_wfields at 2. rewrite !map_app, !concat_app. cbn [map concat]. rewrite !app_nil_r, <- !app_assoc.
  done.
Qed.

Lemma domains_prefix_free phase phase' u u' :
  workerTrustDomain phase ++ [0] ++ u = workerTrustDomain phase' ++ [0] ++ u' -> phase = phase' /\ u = u'.
Proof.
  destruct phase, phase'; intros H;
    first [apply app_inv_head in H; injection H as ->; done | exfalso; vm_compute in H; discriminate H].
Qed.

Lemma signed_fields_bounded p phase fs :
  zlen (encode_wfields fs) < 2 ^ 53 -> signed_fields p phase fs -> Forall wfield_bounded fs.
Proof.
  intros Hs Hf. apply Forall_forall. intros f Hin%list_elem_of_In.
  assert (0 < f.1 < 2 ^ 29 /\ wv_ok f.2) as [Hn Hok].
  { destruct Hf as [trace sender created payload _ _ _ _]. apply in_app_iff in Hin as [Hin|Hin].
    - destruct Hin as [<-|[<-|[<-|[<-|[]]]]]; cbn; lia.
    - apply in_app_iff in Hin as [Hin|[<-|[]]].
      + unfold token_field in Hin. destruct (get p "authToken") as [| | | |[|]| | | |]; try done.
        destruct Hin as [<-|[]]. cbn. lia.
      + pose proof (phase_tag phase). cbn. lia. }
  split; [done|]. split; [done|]. intros b Hb. pose proof (payload_in_encoding fs f b Hin Hb). lia.
Qed.

(** C32. A transcript determines what was signed: two packets with the same
    transcript are of the same phase and agree on every field it covers, the
    trace and sender identifiers, the creation time, the session token and the
    whole payload.  A signature made for one phase is never one for another. *)
Theorem workerTrustTranscript_injective (p q : jsval) (t : bytes) :
  workerTrustTranscript W T p = Ok t -> workerTrustTranscript W T q = Ok t -> zlen t < 2 ^ 53 ->
  exists phase fs, workerTrustPhase p = Ok phase /\ workerTrustPhase q = Ok phase /\
                   signed_fields p phase fs /\ signed_fields q phase fs.
Proof.
  unfold workerTrustTranscript.
  intros (ph & Hp & H)%bind_Ok_iff (ph' & Hq & H')%bind_Ok_iff Hsize.
  apply bind_Ok_iff in H as (u & Hu & [= <-]). apply bind_Ok_iff in H' as (u' & Hu' & [= E]).
  destruct (unsigned_sound p u Hu) as (phase & fs & _ & Hp' & Hfs & ->).
  destruct (unsigned_sound q u' Hu') as (phase' & fs' & _ & Hq' & Hfs' & ->).
  rewrite Hp in Hp'. injection Hp' as ->. rewrite Hq in Hq'. injection Hq' as ->.
  apply domains_prefix_free in E as [-> E]. rewrite !zlen_app in Hsize.
  pose proof (zlen_nonneg (workerTrustDomain phase)). rewrite zlen_cons in Hsize.
  apply encode_wfields_inj in E as ->.
  - by exists phase, fs.
  - eapply signed_fields_bounded; [|done]. rewrite E. lia.
  - eapply signed_fields_bounded; [|done]. lia.
Qed.

(** ** Signing and verifying *)

(** Two packets that differ in their signature only. *)
Record same_content (p q : jsval) : Prop := {
  sc_get : forall k, k <> "signature"%string -> get p k = get q k;
  sc_known : known p ENVELOPE_FIELDS <-> known q ENVELOPE_FIELDS;
  sc_signed : (exists b, get p "signature" = JBytes b /\ b <> []) <->
              (exists b, get q "signature" = JBytes b /\ b <> [])
}.

Lemma phase_field_ne phase : phase_field phase <> "signature"%string.
Proof. by destruct phase. Qed.

Lemma same_content_valid p q phase : same_content p q -> valid_packet p phase -> valid_packet q phase.
Proof.
  intros [Hg Hk Hs] ((He1 & He2 & He3 & He4 & He5 & He6) & Ho & Hph).
  split; [|split].
  - unfold envelope_ok. rewrite <- Hk, <- Hs, <- !Hg by done. done.
  - intros phase'. rewrite <- Hg by apply phase_field_ne. apply Ho.
  - unfold phase_ok in *. rewrite <- Hg by apply phase_field_ne. destruct phase; cbn zeta in *.
    + destruct Hph. split; rewrite <- ?Hg by done; done.
    + destruct Hph as [[] ?]. split; [split|]; rewrite <- ?Hg by done; done.
    + destruct Hph as [? [] ? ? ? ?]. split; [done | split; rewrite <- ?Hg by done; done |..]; rewrite <- ?Hg by done; done.
    + destruct Hph as [? [] (i & Hi & Ho')]. split; [done | split; rewrite <- ?Hg by done; done|].
      exists i. split; [done|].
      destruct Ho'; [eapply outcome_accepted | eapply outcome_rejected]; rewrite <- ?Hg by done; done.
Qed.

Lemma same_content_phase p q : same_content p q -> workerTrustPhase p = workerTrustPhase q.
Proof.
  intros [Hg _ _]. unfold workerTrustPhase.
  assert (Forall (fun f => f <> "signature"%string) BUS_PAYLOAD_FIELDS) as Hne by (repeat constructor; discriminate).
  rewrite List.Forall_forall in Hne.
  rewrite (List.filter_ext_in _ (fun field => negb (nullish (get q field)))); [done|].
  intros f Hf. by rewrite (Hg f (Hne f Hf)).
Qed.

Lemma same_content_proof p q phase : same_content p q -> trustProofRecord p phase = trustProofRecord q phase.
Proof. intros [Hg _ _]. unfold trustProofRecord. rewrite pc_field_phase, Hg by apply phase_field_ne. done. Qed.

Lemma same_content_keyId p q : same_content p q -> workerTrustKeyId p = workerTrustKeyId q.
Proof.
  intros H. unfold workerTrustKeyId. rewrite (same_content_phase p q H).
  destruct (workerTrustPhase q) as [phase| |]; cbn [mbind result_bind]; [|done..].
  by rewrite (same_content_proof p q phase H).
Qed.

Lemma same_content_sym p q : same_content p q -> same_content q p.
Proof. intros [Hg Hk Hs]. split; [intros; symmetry; by apply Hg | done | done]. Qed.

Lemma validate_same_content p q :
  same_content p q -> validateWorkerTrustPacket p = Ok tt -> validateWorkerTrustPacket q = Ok tt.
Proof.
  rewrite !validate_packet_iff. intros H [phase Hv]. exists phase. by eapply same_content_valid.
Qed.

Lemma transcript_same_content p q :
  same_content p q -> validateWorkerTrustPacket p = Ok tt ->
  workerTrustTranscript W T p = workerTrustTranscript W T q.
Proof.
  intros H Hv. pose proof (validate_same_content p q H Hv) as Hv'.
  unfold workerTrustTranscript, encodeWorkerTrustUnsigned, validatedTrustPhase.
  rewrite Hv, Hv', (same_content_phase p q H). cbn [mbind result_bind].
  destruct (workerTrustPhase q) as [phase| |]; cbn [mbind result_bind]; [|done..].
  rewrite (same_content_proof p q phase H), !(sc_get p q H) by done.
  destruct (mbind _ (trustProofRecord q phase)) as [phase'| |]; cbn [mbind result_bind]; [|done..].
  by rewrite (sc_get p q H) by (rewrite pc_field_phase; apply phase_field_ne).
Qed.

Lemma set_signature_same own a b :
  a <> [] -> b <> [] ->
  same_content (set "signature" (JBytes a) (JPlain own)) (set "signature" (JBytes b) (JPlain own)).
Proof.
  intros Ha Hb. split.
  - intros k Hk. by rewrite !get_set_ne.
  - unfold known. cbn [set is_record own_entries]. f_equiv.
    generalize (js "signature") as k. intros k. induction own as [|[k' v] own IH]; cbn [assoc_set].
    + by rewrite !Forall_singleton.
    + destruct (bool_decide _); rewrite !Forall_cons; [done|]. by rewrite IH.
  - rewrite !get_set_eq. split; eauto.
Qed.

Section SignVerify.
Context (K : key_api).

(** A private and a public key that belong together: what the one signs the
    other accepts, in strict DER. *)
Definition key_pair (priv pub : key_object K) : Prop :=
  forall m, isStrictDerSignature (ko_sign K priv m) = true /\ ko_verify K pub m (ko_sign K priv m) = Ok true.

(** Every private key has its public key registered under the same id. *)
Definition matching_keys (privateKeys publicKeys : list (jsstr * key_like K)) : Prop :=
  forall keyId value priv, assoc keyId privateKeys = Some value -> requireP256Key K value Private = Ok priv ->
  exists value' pub, assoc keyId publicKeys = Some value' /\ requireP256Key K value' Public = Ok pub /\
                     key_pair priv pub.

Lemma strict_der_nonempty sig : isStrictDerSignature sig = true -> sig <> [].
Proof. by intros H ->. Qed.

(** Signing sets the signature and copies the rest. *)
Lemma sign_sets (p signed : jsval) (privateKeys : list (jsstr * key_like K)) :
  signWorkerTrustPacket W T K p privateKeys = Ok signed ->
  forall k, k <> "signature"%string -> get signed k = get (spread p) k.
Proof.
  unfold signWorkerTrustPacket. cbn zeta. intros [_ H]%do_Ok_iff.
  apply bind_Ok_iff in H as (keyId & _ & H). apply bind_Ok_iff in H as (value & _ & H).
  apply bind_Ok_iff in H as (priv & _ & H). apply bind_Ok_iff in H as (t & _ & E).
  intros k Hk. assert (signed = set "signature" (JBytes (ko_sign K priv t)) (spread p)) as -> by congruence.
  apply get_set_ne. congruence.
Qed.

(** C31. What [signWorkerTrustPacket] returns verifies: with the matching
    public keys [verifyWorkerTrustPacket] accepts the signed packet, whose
    other fields are those of the packet that was signed. *)
Theorem trust_sign_verify (p signed : jsval) (privateKeys publicKeys : list (jsstr * key_like K)) :
  matching_keys privateKeys publicKeys ->
  signWorkerTrustPacket W T K p privateKeys = Ok signed ->
  verifyWorkerTrustPacket W T K signed publicKeys = Ok true /\
  (forall k, k <> "signature"%string -> get signed k = get (spread p) k).
Proof.
  intros Hkeys. unfold signWorkerTrustPacket. cbn zeta.
  set (candidate := set "signature" (JBytes [1]) _). intros [Hv H]%do_Ok_iff.
  apply bind_Ok_iff in H as (keyId & Hid & H). apply bind_Ok_iff in H as (value & Hvalue & H).
  apply bind_Ok_iff in H as (priv & Hpriv & H). apply bind_Ok_iff in H as (t & Ht & E).
  assert (signed = set "signature" (JBytes (ko_sign K priv t)) (spread p)) as -> by congruence. clear E.
  split; [|intros k Hk; apply get_set_ne; congruence].
  unfold lookupKey in Hvalue. destruct (assoc keyId privateKeys) as [value0|] eqn:Ea; [|discriminate].
  injection Hvalue as ->. destruct (Hkeys keyId value priv Ea Hpriv) as (value' & pub & Ea' & Hpub & Hpair).
  destruct (Hpair t) as [Hder Hver]. pose proof (strict_der_nonempty _ Hder) as Hne.
  set (signed := set "signature" _ (spread p)).
  assert (same_content candidate signed) as Hsame by (by apply set_signature_same).
  unfold verifyWorkerTrustPacket. rewrite (validate_same_content _ _ Hsame Hv). cbn [mbind result_bind].
  assert (requireSignature (get signed "signature") = Ok (ko_sign K priv t)) as ->.
  { unfold signed, spread. rewrite get_set_eq. cbn. by destruct (ko_sign K priv t). }
  cbn [mbind result_bind]. rewrite Hder. cbn [negb].
  rewrite <- (same_content_keyId _ _ Hsame), Hid. cbn [mbind result_bind].
  unfold lookupKey. rewrite Ea'. cbn [mbind result_bind]. rewrite Hpub. cbn [mbind result_bind].
  rewrite <- (transcript_same_content _ _ Hsame Hv), Ht. cbn [mbind result_bind]. by rewrite Hver.
Qed.
End SignVerify.
End Transcripts.
