(* ===== verification/WorkerTrustFlow.v ===== *)
(** * Worker trust: the handshake flow

    src/sdk/node/src/worker-trust-flow.ts: the worker's side of the signed
    challenge/authenticate exchange.  Packets are the values of
    WorkerTrustPacket.v; a [Promise] argument is the result it settles to; a
    verified challenge is the entry the module keeps for it in its private
    map. *)

From S2P Require Import Prelude JsString JsValue Varint WireSchema Codec WorkerTrustContract WorkerTrustWire WorkerTrustPacket TrustSigning.

Record WorkerHandshakeRequestOptions : Type := {
  ro_requestId : jsval;
  ro_traceId : jsval;
  ro_purpose : jsval;
  ro_clientNonce : jsval;
  ro_createdAt : date
}.

Record WorkerHandshakeSession : Type := {
  ss_token : jsval;
  ss_issuedAt : date;
  ss_expiresAt : date
}.

(** The packets [VERIFIED] maps the object to; an object the module did not
    make has none. *)
Record VerifiedWorkerHandshakeChallenge : Type := {
  vc_packets : option (jsval * jsval)
}.

(** [v.k] where [v] is null or undefined throws. *)
Definition require_value (v : jsval) : result unit :=
  throw_if (nullish v) TypeError (js "Cannot read properties of undefined").

Definition binding_error {A} (m : string) : result A := throw WorkerHandshakeBindingError (js m).

Definition same (a b : jsval) (k : string) : bool := strict_eq (get a k) (get b k).

Definition verifiedPackets (value : VerifiedWorkerHandshakeChallenge) : result (jsval * jsval) :=
  match vc_packets value with
  | Some packets => Ok packets
  | None => binding_error "verified challenge is required"
  end.

(** [message()] of a verified challenge. *)
Definition verified_message (value : VerifiedWorkerHandshakeChallenge) : result jsval :=
  let! packets := verifiedPackets value in
  Ok (cloneChallenge (get packets.2 "workerHandshakeChallenge")).

(** A string property that must be non-empty and trimmed; a truthy value of
    another type has no [trim]. *)
Definition correlation_invalid (v : jsval) : result bool :=
  match v with
  | JStr s => Ok (str_empty s || negb (trimmed s))
  | _ => if truthy v then throw TypeError (js "value.trim is not a function") else Ok true
  end.

Definition validateOptions (options : WorkerHandshakeRequestOptions) : result unit :=
  let! bad_request : bool := correlation_invalid (ro_requestId options) in
  let! bad := (if bad_request then Ok true else correlation_invalid (ro_traceId options)) in
  do! throw_if bad WorkerHandshakePacketError (js "request correlation is invalid") ;;
  do! throw_if (negb (is_int (ro_purpose options) 1) && negb (is_int (ro_purpose options) 2))
        WorkerHandshakePacketError (js "request purpose is invalid") ;;
  do! throw_if (match ro_clientNonce options with
                | JBytes b => negb (zlen b =? WORKER_HANDSHAKE_NONCE_SIZE)
                | _ => true
                end)
        WorkerHandshakePacketError (js "client nonce must be exactly 32 bytes") ;;
  let! _ := timestampFromDate (ro_createdAt options) in
  Ok tt.

Section Flow.
Context (K : key_api) (R : reader_api) (W : writer_api) (T : trust_root).

(** The property name a value of an object literal's computed key becomes. *)
Definition property_key (v : jsval) : jsstr := to_text v.

Definition requireValidSignature (packet : jsval) (keys : list (jsstr * key_like K)) (label : string)
    : result unit :=
  let! verified : bool := try_catch (verifyWorkerTrustPacket W T K packet keys)
    (fun _ => throw WorkerHandshakePacketError (js label ++ js " signature is invalid")) in
  if verified then Ok tt
  else throw WorkerHandshakePacketError (js label ++ js " signature is invalid").

Definition buildChallengeRequest (config : WorkerTrustConfig K) (options : WorkerHandshakeRequestOptions)
    : result jsval :=
  do! validateWorkerTrustConfig K (Some config) ;;
  do! validateOptions options ;;
  let! createdAt := timestampFromDate (ro_createdAt options) in
  let packet := JPlain [
    (js "traceId", ro_traceId options);
    (js "senderId", workerId config);
    (js "createdAt", createdAt);
    (js "protocolVersion", JNum (NInt WORKER_HANDSHAKE_PROTOCOL_VERSION));
    (js "signature", JBytes []);
    (js "workerHandshakeChallengeRequest", JPlain [
      (js "requestId", ro_requestId options);
      (js "traceId", ro_traceId options);
      (js "workerId", workerId config);
      (js "proofKeyId", proofKeyId config);
      (js "proofAlgorithm", JNum (NInt 1));
      (js "audience", wt_audience config);
      (js "purpose", ro_purpose options);
      (js "clientNonce", copy_bytes (ro_clientNonce options));
      (js "protocolVersion", JNum (NInt WORKER_HANDSHAKE_PROTOCOL_VERSION));
      (js "sdkVersion", sdkVersion config)])] in
  let! signed := signWorkerTrustPacket W T K packet
                   [(property_key (proofKeyId config), proofPrivateKey config)] in
  do! validateWorkerTrustPacket signed ;;
  Ok signed.

Definition bindRequestConfig (config : WorkerTrustConfig K) (packet : jsval) : result unit :=
  let request := get packet "workerHandshakeChallengeRequest" in
  do! require_value request ;;
  throw_if (negb (strict_eq (get request "workerId") (workerId config)) ||
            negb (strict_eq (get request "proofKeyId") (proofKeyId config)) ||
            negb (strict_eq (get request "audience") (wt_audience config)) ||
            negb (strict_eq (get request "sdkVersion") (sdkVersion config)))
    WorkerHandshakeBindingError (js "request changed configured worker identity").

Definition bindChallengeConfig (config : WorkerTrustConfig K) (challenge : jsval) : result unit :=
  throw_if (negb (strict_eq (get challenge "workerId") (workerId config)) ||
            negb (strict_eq (get challenge "agentId") (expectedAgentId config)) ||
            negb (strict_eq (get challenge "tenantId") (tenantId config)) ||
            negb (strict_eq (get challenge "proofKeyId") (proofKeyId config)) ||
            negb (strict_eq (get challenge "audience") (wt_audience config)) ||
            negb (strict_eq (get challenge "sdkVersion") (sdkVersion config)))
    WorkerHandshakeBindingError (js "challenge identity changed").

Definition correlateChallenge (config : WorkerTrustConfig K) (packet challenge : jsval) : result unit :=
  let request := get packet "workerHandshakeChallengeRequest" in
  do! require_value request ;;
  do! require_value challenge ;;
  let! matches : bool :=
    (if forallb (same request challenge)
          ["requestId"; "traceId"; "workerId"; "proofKeyId"; "proofAlgorithm"; "audience"; "purpose"]%string
     then
       let! nonces := sameBytes (get request "clientNonce") (get challenge "clientNonce") in
       Ok (nonces && same request challenge "protocolVersion" && same request challenge "sdkVersion")
     else Ok false) in
  throw_if (negb matches || negb (strict_eq (get challenge "agentId") (expectedAgentId config)) ||
            negb (strict_eq (get challenge "tenantId") (tenantId config)))
    WorkerHandshakeBindingError (js "challenge correlation or identity changed").

Definition SCALAR_KEYS : list string :=
  ["requestId"; "challengeId"; "traceId"; "workerId"; "agentId"; "tenantId"; "proofKeyId";
   "proofAlgorithm"; "serverKeyId"; "audience"; "purpose"; "protocolVersion"; "sdkVersion"]%string.

Definition requireSameChallenge (actual expected : jsval) : result unit :=
  do! require_value actual ;;
  do! require_value expected ;;
  let scalarMatch := forallb (same actual expected) SCALAR_KEYS in
  let! issued : Z := timestampNanos (get actual "issuedAt") in
  let! issued' : Z := timestampNanos (get expected "issuedAt") in
  let! timeMatch : bool :=
    (if issued =? issued' then
       let! expires := timestampNanos (get actual "expiresAt") in
       let! expires' := timestampNanos (get expected "expiresAt") in
       Ok (expires =? expires')
     else Ok false) in
  let! matches : bool :=
    (if scalarMatch && timeMatch then
       let! client : bool := sameBytes (get actual "clientNonce") (get expected "clientNonce") in
       if client then sameBytes (get actual "serverNonce") (get expected "serverNonce") else Ok false
     else Ok false) in
  throw_if (negb matches) WorkerHandshakeBindingError (js "result challenge correlation changed").

Definition verifySchedulerPacket (config : WorkerTrustConfig K) (packet : jsval) (now : date) : result unit :=
  do! validateWorkerTrustPacket packet ;;
  do! throw_if (negb (strict_eq (get packet "senderId") (expectedSchedulerId config)))
        WorkerHandshakeBindingError (js "scheduler identity changed") ;;
  do! requireFreshTimestamp (get packet "createdAt") now "scheduler packet created_at" ;;
  requireValidSignature packet (scheduler_keys config) "scheduler packet".

Definition clonePacket (packet : jsval) : result jsval :=
  let! data := marshalWorkerTrustPacket (bus_type T) packet in
  unmarshalWorkerTrustPacket R (bus_type T) data.

(** The worker's own public key, under its key id. *)
Definition own_public_key (config : WorkerTrustConfig K) : result (list (jsstr * key_like K)) :=
  let! key := create_public K (proofPrivateKey config) in
  Ok [(property_key (proofKeyId config), of_key_object K key)].

Definition verifyChallenge (config : WorkerTrustConfig K) (request : jsval) (response : result jsval)
    (now : date) : result VerifiedWorkerHandshakeChallenge :=
  do! validateWorkerTrustConfig K (Some config) ;;
  do! validateWorkerTrustPacket request ;;
  do! bindRequestConfig config request ;;
  let! keys := own_public_key config in
  do! requireValidSignature request keys "request" ;;
  do! requireFreshTimestamp (get request "createdAt") now "request created_at" ;;
  let! resolved := response in
  do! verifySchedulerPacket config resolved now ;;
  do! correlateChallenge config request (get resolved "workerHandshakeChallenge") ;;
  do! requireLiveChallenge (get resolved "workerHandshakeChallenge") now ;;
  let! requestCopy := clonePacket request in
  let! responseCopy := clonePacket resolved in
  Ok {| vc_packets := Some (requestCopy, responseCopy) |}.

Definition buildAuthenticate (config : WorkerTrustConfig K) (verified : VerifiedWorkerHandshakeChallenge)
    (capability currentSessionToken : jsval) (createdAt : date) : result jsval :=
  do! validateWorkerTrustConfig K (Some config) ;;
  let! packets := verifiedPackets verified in
  let challenge := cloneChallenge (get packets.2 "workerHandshakeChallenge") in
  do! bindChallengeConfig config challenge ;;
  let! created := timestampFromDate createdAt in
  let! capabilityCopy := cloneCapability capability in
  let packet := JPlain [
    (js "traceId", get challenge "traceId");
    (js "senderId", workerId config);
    (js "createdAt", created);
    (js "protocolVersion", JNum (NInt 1));
    (js "signature", JBytes []);
    (js "authToken", currentSessionToken);
    (js "workerHandshakeAuthenticate", JPlain [
      (js "challenge", challenge);
      (js "capabilityHandshake", capabilityCopy)])] in
  let! signed := signWorkerTrustPacket W T K packet
                   [(property_key (proofKeyId config), proofPrivateKey config)] in
  do! validateWorkerTrustPacket signed ;;
  Ok signed.

Definition rejection_reason (v : jsval) : Z := match v with JNum (NInt z) => z | _ => 0 end.

Definition verifyResult (config : WorkerTrustConfig K) (verified : VerifiedWorkerHandshakeChallenge)
    (authenticate : jsval) (response : result jsval) (now : date) : result WorkerHandshakeSession :=
  do! validateWorkerTrustConfig K (Some config) ;;
  let! packets := verifiedPackets verified in
  let expected := get packets.2 "workerHandshakeChallenge" in
  do! validateWorkerTrustPacket authenticate ;;
  let! keys := own_public_key config in
  do! requireValidSignature authenticate keys "authenticate" ;;
  do! require_value (get authenticate "workerHandshakeAuthenticate") ;;
  do! requireSameChallenge (get (get authenticate "workerHandshakeAuthenticate") "challenge") expected ;;
  let! resolved := response in
  do! verifySchedulerPacket config resolved now ;;
  let result_ := get resolved "workerHandshakeResult" in
  do! require_value result_ ;;
  do! requireSameChallenge (get result_ "challenge") expected ;;
  do! requireLiveChallenge (get result_ "challenge") now ;;
  do! requireFreshTimestamp (get result_ "issuedAt") now "result issued_at" ;;
  do! throw_if (negb (truthy (get result_ "accepted")))
        (WorkerHandshakeRejectionError (rejection_reason (get result_ "rejectionReason")))
        (js "worker handshake rejected") ;;
  let! expiresAt := dateFromTimestamp (get result_ "tokenExpiresAt") in
  let! expires := timestampNanos (get result_ "tokenExpiresAt") in
  let! nowNanos := dateNanos now in
  do! throw_if (expires <=? nowNanos) WorkerHandshakeExpiredError (js "result token is expired") ;;
  do! throw_if (is_int (get (get result_ "challenge") "purpose") 2 &&
                strict_eq (get resolved "authToken") (get authenticate "authToken"))
        WorkerHandshakeBindingError (js "renewal must rotate session token") ;;
  let! issuedAt := dateFromTimestamp (get result_ "issuedAt") in
  Ok {| ss_token := coalesce (get resolved "authToken") (JStr []);
        ss_issuedAt := issuedAt; ss_expiresAt := expiresAt |}.
End Flow.

(** ** Comparisons of validated values *)

(** Text, or an integer: what the scalar fields of a valid payload hold. *)
Definition plain (v : jsval) : Prop := text v \/ exists z, v = JNum (NInt z).

Lemma strict_eq_plain a b : plain a -> strict_eq a b = true -> a = b.
Proof.
  intros [(s & -> & _)|[z ->]] H; [by apply strict_eq_str_l in H|].
  destruct b as [| | |[]| | | | |]; cbn in H; try discriminate. by apply Z.eqb_eq in H as ->.
Qed.

Lemma strict_eq_plain_r a b : plain b -> strict_eq a b = true -> a = b.
Proof.
  intros [(s & -> & _)|[z ->]] H; [by apply strict_eq_str in H|]. by apply is_int_iff in H.
Qed.

Lemma plain_text v : text v -> plain v.
Proof. by left. Qed.

Lemma proof_plain v k :
  proof_ok v -> In k ["protocolVersion"; "proofAlgorithm"; "purpose"]%string -> plain (get v k).
Proof. intros (Hv & Ha & Hp) [<-|[<-|[<-|[]]]]; right; destruct Hp; eauto. Qed.

Lemma challenge_scalar_plain p c k : challenge_ok p c -> In k SCALAR_KEYS -> plain (get c k).
Proof.
  intros [_ Ht _ Hp _ _ _] Hk.
  assert (In k ["protocolVersion"; "proofAlgorithm"; "purpose"]%string \/
          In k ["requestId"; "challengeId"; "traceId"; "workerId"; "agentId"; "tenantId";
                "proofKeyId"; "serverKeyId"; "audience"; "sdkVersion"]%string) as [H|H]
    by (cbn in Hk |- *; tauto).
  - by apply proof_plain.
  - left. by apply (Forall_text_get c _ k Ht).
Qed.

Lemma request_scalar_plain p r k :
  request_ok p r ->
  In k ["requestId"; "traceId"; "workerId"; "proofKeyId"; "proofAlgorithm"; "audience"; "purpose";
        "protocolVersion"; "sdkVersion"]%string -> plain (get r k).
Proof.
  intros [_ Ht _ _ Hp _ _] Hk.
  assert (In k ["protocolVersion"; "proofAlgorithm"; "purpose"]%string \/
          In k ["requestId"; "traceId"; "workerId"; "proofKeyId"; "audience"; "sdkVersion"]%string) as [H|H]
    by (cbn in Hk |- *; tauto).
  - by apply proof_plain.
  - left. by apply (Forall_text_get r _ k Ht).
Qed.

(** Only an object has a property that is text. *)
Lemma get_text_truthy v k : text (get v k) -> truthy v = true.
Proof. intros (s & H & _). by destruct v. Qed.

Lemma require_value_iff v : require_value v = Ok tt <-> nullish v = false.
Proof. apply throw_if_Ok_iff. Qed.

Lemma sameBytes_true a b : sameBytes a b = Ok true -> exists x, a = JBytes x /\ b = JBytes x.
Proof.
  unfold sameBytes. destruct a; try discriminate. destruct b; try discriminate. case_bool_decide; naive_solver.
Qed.

(** The two challenges agree on every field. *)
Record same_challenge (a e : jsval) : Prop := {
  sm_scalars : forall k, In k SCALAR_KEYS -> strict_eq (get a k) (get e k) = true;
  sm_client : exists b, get a "clientNonce" = JBytes b /\ get e "clientNonce" = JBytes b;
  sm_server : exists b, get a "serverNonce" = JBytes b /\ get e "serverNonce" = JBytes b;
  sm_issued : exists n, instant (get a "issuedAt") n /\ instant (get e "issuedAt") n;
  sm_expires : exists n, instant (get a "expiresAt") n /\ instant (get e "expiresAt") n
}.

Lemma requireSameChallenge_sound a e : requireSameChallenge a e = Ok tt -> same_challenge a e.
Proof.
  unfold requireSameChallenge. cbn zeta. intros [_ H]%do_Ok_iff. apply do_Ok_iff in H as [_ H].
  apply bind_Ok_iff in H as (i & Hi%timestampNanos_iff & H).
  apply bind_Ok_iff in H as (i' & Hi'%timestampNanos_iff & H).
  apply bind_Ok_iff in H as (tm & Htm & H). apply bind_Ok_iff in H as (m & Hm & H).
  apply throw_if_Ok_iff, negb_false_iff in H as ->.
  destruct (forallb _ SCALAR_KEYS) eqn:Hs; [|discriminate].
  destruct (Z.eqb_spec i i') as [<-|]; [|injection Htm as <-; discriminate].
  destruct tm; [|discriminate]. cbn [andb] in Hm.
  apply bind_Ok_iff in Htm as (x & Hx%timestampNanos_iff & Htm).
  apply bind_Ok_iff in Htm as (x' & Hx'%timestampNanos_iff & [= E%Z.eqb_eq]). subst x'.
  apply bind_Ok_iff in Hm as (c & Hc & Hm). destruct c; [|discriminate].
  rewrite forallb_forall in Hs. split; eauto using sameBytes_true.
Qed.

Section FlowLemmas.
Context (K : key_api) (R : reader_api) (W : writer_api) (T : trust_root).
Context (config : WorkerTrustConfig K).

Lemma requireValidSignature_iff p keys label :
  requireValidSignature K W T p keys label = Ok tt <-> verifyWorkerTrustPacket W T K p keys = Ok true.
Proof.
  unfold requireValidSignature. rewrite bind_Ok_iff. setoid_rewrite try_catch_throw_Ok_iff. split.
  - intros (b & Hb & H). by destruct b.
  - intros H. by exists true.
Qed.

Lemma config_text v : valid_config K config -> In v (config_identities config) -> text v.
Proof. intros [Hi _ _ _ _] Hv. rewrite List.Forall_forall in Hi. by apply Hi. Qed.

(** A packet of the pinned scheduler: valid, from its id, fresh, and with a
    signature that one of the pinned keys verifies. *)
Record from_scheduler (p : jsval) (now : date) : Prop := {
  fs_valid : exists phase, valid_packet p phase;
  fs_sender : get p "senderId" = expectedSchedulerId config;
  fs_fresh : fresh (get p "createdAt") now;
  fs_signed : verifyWorkerTrustPacket W T K p (scheduler_keys config) = Ok true
}.

Lemma verifySchedulerPacket_iff p now :
  valid_config K config -> verifySchedulerPacket K W T config p now = Ok tt <-> from_scheduler p now.
Proof.
  intros Hc. unfold verifySchedulerPacket.
  assert (plain (expectedSchedulerId config)) as Hs by (left; apply config_text; [done | cbn; tauto]).
  rewrite !do_Ok_iff, validate_packet_iff, throw_if_Ok_iff, negb_false_iff, requireFreshTimestamp_iff,
    requireValidSignature_iff. split.
  - intros (? & E & ? & ?). split; try done. by apply strict_eq_plain_r.
  - intros [? E ? ?]. split; [done|]. split; [|done]. rewrite E. destruct Hs as [(s & -> & _)|[z ->]]; cbn.
    + by apply bool_decide_eq_true.
    + apply Z.eqb_refl.
Qed.

Definition REQUEST_KEYS : list string :=
  ["requestId"; "traceId"; "workerId"; "proofKeyId"; "proofAlgorithm"; "audience"; "purpose";
   "protocolVersion"; "sdkVersion"]%string.

(** A challenge that answers the request: the request's own values and nonce,
    and the agent and tenant the worker expects. *)
Record answers (request challenge : jsval) : Prop := {
  an_request : forall k, In k REQUEST_KEYS -> get challenge k = get request k;
  an_nonce : exists b, get request "clientNonce" = JBytes b /\ get challenge "clientNonce" = JBytes b;
  an_agent : get challenge "agentId" = expectedAgentId config;
  an_tenant : get challenge "tenantId" = tenantId config
}.

Lemma correlateChallenge_sound p c :
  valid_config K config -> request_ok p (get p "workerHandshakeChallengeRequest") ->
  correlateChallenge K config p c = Ok tt -> answers (get p "workerHandshakeChallengeRequest") c.
Proof.
  intros Hc Hreq. unfold correlateChallenge. cbn zeta. set (r := get p _) in *.
  intros [_ H]%do_Ok_iff. apply do_Ok_iff in H as [_ H]. apply bind_Ok_iff in H as (m & Hm & H).
  apply throw_if_Ok_iff in H. rewrite !orb_false_iff, !negb_false_iff in H. destruct H as [[-> Ha] Ht].
  destruct (forallb _ _) eqn:Hs in Hm; [|discriminate]. rewrite forallb_forall in Hs.
  apply bind_Ok_iff in Hm as (n & Hn & [= Hm]). rewrite !andb_true_iff in Hm. destruct Hm as [[-> Hv] Hsdk].
  split.
  - intros k Hk. symmetry. apply strict_eq_plain; [by apply (request_scalar_plain p)|].
    assert (In k ["protocolVersion"; "sdkVersion"]%string \/
            In k ["requestId"; "traceId"; "workerId"; "proofKeyId"; "proofAlgorithm"; "audience"; "purpose"]%string)
      as [[<-|[<-|[]]]|Hin] by (cbn in Hk |- *; tauto); [done | done | by apply Hs].
  - apply sameBytes_true in Hn. naive_solver.
  - apply strict_eq_plain_r; [|done]. left. apply (config_text _ Hc). cbn. tauto.
  - apply strict_eq_plain_r; [|done]. left. apply (config_text _ Hc). cbn. tauto.
Qed.

Lemma bindRequestConfig_sound p phase :
  valid_config K config -> valid_packet p phase -> bindRequestConfig K config p = Ok tt ->
  phase = challenge_request /\
  get (get p "workerHandshakeChallengeRequest") "workerId" = workerId config.
Proof.
  intros Hc (_ & Ho & _). unfold bindRequestConfig. cbn zeta. intros [_ H]%do_Ok_iff. apply throw_if_Ok_iff in H.
  rewrite !orb_false_iff, !negb_false_iff in H. destruct H as [[[Hw _] _] _].
  assert (text (workerId config)) as Hwt by (apply (config_text _ Hc); cbn; tauto).
  apply strict_eq_plain_r in Hw; [|by left]. split; [|done]. symmetry. apply Ho.
  apply (get_text_truthy _ "workerId"). rewrite <- Hw in Hwt. done.
Qed.

(** What a verified challenge holds. *)
Record verified_challenge (request : jsval) (response : result jsval) (v : VerifiedWorkerHandshakeChallenge)
    (now : date) : Prop := {
  vf_request : valid_packet request challenge_request /\ fresh (get request "createdAt") now;
  vf_worker : get (get request "workerHandshakeChallengeRequest") "workerId" = workerId config;
  vf_response : exists resolved copy request',
    response = Ok resolved /\ vc_packets v = Some (request', copy) /\ clonePacket R T resolved = Ok copy /\
    from_scheduler resolved now /\ valid_packet resolved challenge_phase /\
    answers (get request "workerHandshakeChallengeRequest") (get resolved "workerHandshakeChallenge") /\
    live_challenge (get resolved "workerHandshakeChallenge") now
}.

Lemma verifyChallenge_sound request response now v :
  verifyChallenge K R W T config request response now = Ok v ->
  valid_config K config /\ verified_challenge request response v now.
Proof.
  unfold verifyChallenge. intros [Hc%validateWorkerTrustConfig_iff H]%do_Ok_iff.
  apply do_Ok_iff in H as [Hv H]. apply validate_packet_iff in Hv as [phase Hv].
  apply do_Ok_iff in H as [Hb H]. destruct (bindRequestConfig_sound _ _ Hc Hv Hb) as [-> Hw].
  apply bind_Ok_iff in H as (keys & Hkeys & H). apply do_Ok_iff in H as [Hsig H].
  apply do_Ok_iff in H as [Hfresh%requireFreshTimestamp_iff H].
  apply bind_Ok_iff in H as (resolved & Hres & H). apply do_Ok_iff in H as [Hsch H].
  apply (verifySchedulerPacket_iff _ _ Hc) in Hsch.
  apply do_Ok_iff in H as [Hcor H]. apply do_Ok_iff in H as [Hlive%requireLiveChallenge_iff H].
  apply bind_Ok_iff in H as (rc & Hrc & H). apply bind_Ok_iff in H as (copy & Hcopy & [= <-]).
  pose proof Hv as (_ & _ & Hreq). cbn in Hreq.
  pose proof (correlateChallenge_sound _ _ Hc Hreq Hcor) as Hans.
  split; [done|]. split; [done | done|]. exists resolved, copy, rc. do 4 (split; [done|]).
  split; [|done]. destruct (fs_valid _ _ Hsch) as [phase Hp].
  assert (phase = challenge_phase) as ->; [|done]. symmetry. destruct Hp as (_ & Ho & _). apply Ho.
  apply (get_text_truthy _ "requestId"). cbn [phase_field].
  rewrite (an_request _ _ Hans "requestId") by (cbn; tauto).
  apply (Forall_text_get _ _ _ (rq_identities _ _ Hreq)). cbn. tauto.
Qed.

(** protobufjs: decoding returns the challenge that was encoded. *)
Definition decoding_returns (p : jsval) : Prop :=
  forall q data k,
  marshalWorkerTrustPacket (bus_type T) p = Ok data ->
  unmarshalWorkerTrustPacket R (bus_type T) data = Ok q ->
  In k (SCALAR_KEYS ++ ["clientNonce"; "serverNonce"]%string) ->
  get (get q "workerHandshakeChallenge") k = get (get p "workerHandshakeChallenge") k.

(** A session and what the worker knows when it has one. *)
Record session_established (request authenticate : jsval) (now : date) (session : WorkerHandshakeSession)
    : Prop := {
  se_resolved : exists resolved,
    let result_ := get resolved "workerHandshakeResult" in
    from_scheduler resolved now /\ valid_packet resolved result_phase /\
    truthy (get result_ "accepted") = true /\
    answers (get request "workerHandshakeChallengeRequest") (get result_ "challenge") /\
    live_challenge (get result_ "challenge") now /\
    ss_token session = get resolved "authToken" /\
    exists e ms, instant (get result_ "tokenExpiresAt") e /\ now = Some ms /\ ms * 1000000 < e;
  se_token : token_text (ss_token session);
  se_rotated : get (get request "workerHandshakeChallengeRequest") "purpose" = JNum (NInt 2) ->
               ss_token session <> get authenticate "authToken"
}.

(** What [verifyResult] checks of the scheduler's answer. *)
Record verified_result (v : VerifiedWorkerHandshakeChallenge) (authenticate resolved : jsval) (now : date)
    (session : WorkerHandshakeSession) : Prop := {
  vr_scheduler : from_scheduler resolved now;
  vr_same : exists request copy, vc_packets v = Some (request, copy) /\
    same_challenge (get (get resolved "workerHandshakeResult") "challenge") (get copy "workerHandshakeChallenge");
  vr_live : live_challenge (get (get resolved "workerHandshakeResult") "challenge") now;
  vr_accepted : truthy (get (get resolved "workerHandshakeResult") "accepted") = true;
  vr_token : ss_token session = coalesce (get resolved "authToken") (JStr []);
  vr_expiry : exists e ms, instant (get (get resolved "workerHandshakeResult") "tokenExpiresAt") e /\
                           now = Some ms /\ ms * 1000000 < e;
  vr_rotated : is_int (get (get (get resolved "workerHandshakeResult") "challenge") "purpose") 2 = true ->
               strict_eq (get resolved "authToken") (get authenticate "authToken") = false
}.

Lemma verifyResult_sound v authenticate response now session :
  verifyResult K W T config v authenticate response now = Ok session ->
  exists resolved, verified_result v authenticate resolved now session.
Proof.
  unfold verifyResult. intros [Hc%validateWorkerTrustConfig_iff H]%do_Ok_iff.
  apply bind_Ok_iff in H as ([request copy] & Hp & H). cbn zeta in H. cbn [snd] in H.
  assert (vc_packets v = Some (request, copy)) as Hvp
    by (unfold verifiedPackets in Hp; destruct (vc_packets v); [by injection Hp as -> | discriminate]).
  apply do_Ok_iff in H as [_ H]. apply bind_Ok_iff in H as (keys & _ & H).
  do 3 apply do_Ok_iff in H as [_ H]. apply bind_Ok_iff in H as (resolved & _ & H).
  apply do_Ok_iff in H as [Hsch%(verifySchedulerPacket_iff _ _ Hc) H]. apply do_Ok_iff in H as [_ H].
  apply do_Ok_iff in H as [Hsame%requireSameChallenge_sound H].
  apply do_Ok_iff in H as [Hlive%requireLiveChallenge_iff H]. apply do_Ok_iff in H as [_ H].
  apply do_Ok_iff in H as [Hacc%throw_if_Ok_iff H]. apply negb_false_iff in Hacc.
  apply bind_Ok_iff in H as (x & _ & H). apply bind_Ok_iff in H as (e & He%timestampNanos_iff & H).
  apply bind_Ok_iff in H as (n & (ms & -> & ->)%dateNanos_iff & H).
  apply do_Ok_iff in H as [Hexp%throw_if_Ok_iff H]. apply Z.leb_gt in Hexp.
  apply do_Ok_iff in H as [Hrot%throw_if_Ok_iff H]. apply andb_false_iff in Hrot.
  apply bind_Ok_iff in H as (i & _ & [= <-]). exists resolved. split; try done.
  - by exists request, copy.
  - by exists e, ms.
  - intros Hpur. rewrite Hpur in Hrot. by destruct Hrot.
Qed.

Lemma answers_same request c c' :
  (forall k, In k REQUEST_KEYS -> get c k = get c' k) -> get c "clientNonce" = get c' "clientNonce" ->
  get c "agentId" = get c' "agentId" -> get c "tenantId" = get c' "tenantId" ->
  answers request c' -> answers request c.
Proof.
  intros Hk Hn Ha Ht [Hr (b & Hb & Hb') Hag Hte]. split; [|exists b | congruence | congruence].
  - intros k Hin. rewrite Hk by done. by apply Hr.
  - split; congruence.
Qed.

(** [verifyChallenge] and then [verifyResult]: the result echoes the challenge
    that answered the worker's own request. *)
Lemma session_bound (request authenticate : jsval) (challenge result_ : result jsval)
    (now now' : date) (v : VerifiedWorkerHandshakeChallenge) (session : WorkerHandshakeSession) :
  (forall p, challenge = Ok p -> decoding_returns p) ->
  verifyChallenge K R W T config request challenge now = Ok v ->
  verifyResult K W T config v authenticate result_ now' = Ok session ->
  session_established request authenticate now' session.
Proof.
  intros Hdec (Hc & [[Hreq _] _ (sent & copy & rc & Hsentok & Hvp & Hclone & _ & Hsent & Hans & _)])%verifyChallenge_sound
    (resolved & [Hsch (rc' & copy' & Hvp' & Hsame) Hlive Hacc Htok Hexp Hrot])%verifyResult_sound.
  assert (copy' = copy) as -> by congruence. specialize (Hdec sent Hsentok).
  apply bind_Ok_iff in Hclone as (data & Hdata & Hcopy).
  assert (forall k, In k SCALAR_KEYS -> strict_eq (get (get (get resolved "workerHandshakeResult") "challenge") k)
             (get (get sent "workerHandshakeChallenge") k) = true) as Hscalars.
  { intros k Hk. rewrite <- (Hdec copy data k Hdata Hcopy) by (apply in_app_iff; by left).
    by apply (sm_scalars _ _ Hsame). }
  set (c := get (get resolved "workerHandshakeResult") "challenge") in *.
  pose proof Hsent as (_ & _ & [Hch _]). cbn [phase_field] in Hch.
  assert (forall k, In k SCALAR_KEYS -> get c k = get (get sent "workerHandshakeChallenge") k) as Heq.
  { intros k Hk. apply strict_eq_plain_r; [by apply (challenge_scalar_plain sent) | by apply Hscalars]. }
  assert (answers (get request "workerHandshakeChallengeRequest") c) as Hansc.
  { destruct (sm_client _ _ Hsame) as (b & Hb & Hb').
    rewrite (Hdec copy data "clientNonce" Hdata Hcopy) in Hb' by (cbn; tauto).
    eapply answers_same; [| |apply Heq; cbn; tauto|apply Heq; cbn; tauto|done]; [|congruence].
    intros k Hk. apply Heq. unfold REQUEST_KEYS, SCALAR_KEYS in *. cbn in Hk |- *. tauto. }
  assert (valid_packet resolved result_phase) as Hres.
  { destruct (fs_valid _ _ Hsch) as [phase Hp]. assert (phase = result_phase) as ->; [|done].
    symmetry. destruct Hp as (_ & Ho & _). apply Ho. cbn [phase_field].
    assert (truthy c = true) as Hct.
    { apply (get_text_truthy _ "requestId"). rewrite Heq by (cbn; tauto).
      apply (Forall_text_get _ _ _ (ch_identities _ _ Hch)). cbn. tauto. }
    unfold c in Hct. by destruct (get resolved "workerHandshakeResult"). }
  pose proof Hres as (_ & _ & Hro). cbn [phase_ok phase_field] in Hro. destruct Hro as [_ _ (issued & _ & Hout)].
  destruct Hout as [expires _ _ _ Htt _|]; [|congruence].
  assert (get resolved "authToken" = ss_token session) as Htoken.
  { rewrite Htok. unfold coalesce. destruct (nullish _) eqn:En; [|done].
    exfalso. unfold coalesce in Htt. rewrite En in Htt. by destruct Htt as (s & [= <-] & ? & _). }
  split.
  - exists resolved. cbn zeta. repeat (split; [done|]). done.
  - rewrite Htok. done.
  - intros Hpur E. rewrite <- (an_request _ _ Hansc "purpose") in Hpur by (cbn; tauto).
    specialize (Hrot (proj2 (is_int_iff _ _) Hpur)). rewrite Htoken, <- E in Hrot.
    rewrite Htok in Hrot. destruct Htt as (s & Hs & _). rewrite Hs in Hrot. cbn in Hrot.
    by rewrite bool_decide_eq_true_2 in Hrot.
Qed.
End FlowLemmas.
