(* ===== verification/WorkerTrustExchange.v ===== *)
(** * Worker trust: the exchange over request/reply

    src/sdk/node/src/worker-trust-exchange.ts: one challenge/authenticate
    exchange over a NATS requester.  The requester is a parameter; what the
    method draws from its environment (identifiers, a nonce, the clock) is an
    argument. *)

From S2P Require Import Prelude JsString JsValue Varint WireSchema Codec Protos WorkerTrustContract WorkerTrustWire WorkerTrustPacket TrustSigning WorkerTrustFlow.

Definition OPERATIONAL_NATS_CODES : list nats_code :=
  [Cancelled; ConnectionClosed; ConnectionDraining; ConnectionRefused; ConnectionTimeout;
   Disconnect; NoResponders; SubClosed; SubDraining; Timeout].

(** [randomUUID().replace(/-/g, "")] *)
Definition requestId (uuid : jsstr) : jsstr := List.filter (fun c => negb (c =? 45)) uuid.

(** [k in v]: own or inherited. *)
Definition has_property (k : string) (v : jsval) : bool :=
  match v with
  | JObj own inh => match assoc (js k) own, assoc (js k) inh with None, None => false | _, _ => true end
  | _ => false
  end.

Definition requireChallenge (packet : jsval) : result jsval :=
  if has_property "workerHandshakeChallenge" packet then Ok packet
  else throw PlainError (js "worker trust response is not a challenge").

Definition requireResult (packet : jsval) : result jsval :=
  if has_property "workerHandshakeResult" packet then Ok packet
  else throw PlainError (js "worker trust response is not a result").

Definition classifyRequestError (error : exn) : option exn :=
  match exn_class error with
  | NatsError code =>
      if bool_decide (code ∈ OPERATIONAL_NATS_CODES)
      then Some (Exn WorkerTrustOperationalError (js "worker trust transport is unavailable"))
      else None
  | _ => None
  end.

(** What one exchange draws: two UUIDs, a random nonce, and the clock at its
    four readings. *)
Record exchange_draws : Type := {
  xd_requestUuid : jsstr;
  xd_traceUuid : jsstr;
  xd_nonce : bytes;
  xd_created : date;
  xd_challenged : date;
  xd_authenticated : date;
  xd_settled : date
}.

Section Exchange.
Context (K : key_api) (R : reader_api) (W : writer_api) (T : trust_root).
Context (config : WorkerTrustConfig K) (capability : jsval).
(** [requester.request(subject, data, { timeout })] *)
Context (request : jsstr -> bytes -> result bytes).

Definition requestPacket (subject : jsstr) (packet : jsval) : result jsval :=
  let! data := marshalWorkerTrustPacket (bus_type T) packet in
  let! response := try_catch (request subject data)
    (fun error => match classifyRequestError error with
                  | Some operational => Throw operational
                  | None => Throw error
                  end) in
  unmarshalWorkerTrustPacket R (bus_type T) response.

Definition exchange (draws : exchange_draws) (purpose : Z) (currentToken : jsstr)
    : result WorkerHandshakeSession :=
  let! packet := buildChallengeRequest K W T config {|
    ro_requestId := JStr (requestId (xd_requestUuid draws));
    ro_traceId := JStr (requestId (xd_traceUuid draws));
    ro_purpose := JNum (NInt purpose);
    ro_clientNonce := JBytes (xd_nonce draws);
    ro_createdAt := xd_created draws |} in
  let! response := requestPacket SUBJECT_WORKER_HANDSHAKE_CHALLENGE packet in
  let! challengePacket := requireChallenge response in
  let! verified := verifyChallenge K R W T config packet (Ok challengePacket) (xd_challenged draws) in
  let! authenticate := buildAuthenticate K W T config verified capability (JStr currentToken)
                         (xd_authenticated draws) in
  let! response' := requestPacket SUBJECT_WORKER_HANDSHAKE_AUTHENTICATE authenticate in
  let! resultPacket := requireResult response' in
  verifyResult K W T config verified authenticate (Ok resultPacket) (xd_settled draws).
End Exchange.

(** ** The session an exchange returns *)

Section ExchangeLemmas.
Context (K : key_api) (R : reader_api) (W : writer_api) (T : trust_root).
Context (config : WorkerTrustConfig K) (capability : jsval) (request : jsstr -> bytes -> result bytes).

Lemma requestPacket_received subject p q :
  requestPacket R T request subject p = Ok q ->
  exists data, unmarshalWorkerTrustPacket R (bus_type T) data = Ok q.
Proof.
  intros H. apply bind_Ok_iff in H as (data & _ & H). apply bind_Ok_iff in H as (response & _ & H). eauto.
Qed.

(** A packet that arrived on the wire is its own copy. *)
Lemma received_decoding_returns data p :
  unmarshalWorkerTrustPacket R (bus_type T) data = Ok p -> decoding_returns R T p.
Proof.
  intros H q data' k Hm Hu _. pose proof H as (_ & _ & _ & _ & He)%unmarshal_iff.
  apply marshal_iff in Hm as (_ & He' & _). assert (data' = data) as -> by congruence.
  assert (q = p) as -> by congruence. done.
Qed.

Lemma requireChallenge_id p q : requireChallenge p = Ok q -> q = p.
Proof. unfold requireChallenge. destruct (has_property _ _); [by intros [= ->] | discriminate]. Qed.

(** What the request of an exchange asks. *)
Record asked (options : WorkerHandshakeRequestOptions) (packet : jsval) : Prop := {
  as_id : get (get packet "workerHandshakeChallengeRequest") "requestId" = ro_requestId options;
  as_trace : get (get packet "workerHandshakeChallengeRequest") "traceId" = ro_traceId options;
  as_purpose : get (get packet "workerHandshakeChallengeRequest") "purpose" = ro_purpose options;
  as_nonce : get (get packet "workerHandshakeChallengeRequest") "clientNonce" = ro_clientNonce options;
  as_worker : get (get packet "workerHandshakeChallengeRequest") "workerId" = workerId config
}.

Lemma buildChallengeRequest_asked options packet :
  buildChallengeRequest K W T config options = Ok packet -> asked options packet.
Proof.
  unfold buildChallengeRequest. intros [_ H]%do_Ok_iff. apply do_Ok_iff in H as [Hopts H].
  apply bind_Ok_iff in H as (created & _ & H). cbn zeta in H.
  apply bind_Ok_iff in H as (signed & Hs & H). apply do_Ok_iff in H as [_ [= ->]].
  pose proof (sign_sets _ _ _ _ _ _ Hs "workerHandshakeChallengeRequest" ltac:(done)) as Hg.
  split; rewrite Hg; try done.
  unfold validateOptions in Hopts. apply bind_Ok_iff in Hopts as (b & _ & Hopts).
  apply bind_Ok_iff in Hopts as (b' & _ & Hopts). do 2 apply do_Ok_iff in Hopts as [_ Hopts].
  apply do_Ok_iff in Hopts as [Hn%throw_if_Ok_iff _]. by destruct (ro_clientNonce options).
Qed.

Lemma buildAuthenticate_token v token now packet :
  buildAuthenticate K W T config v capability token now = Ok packet -> get packet "authToken" = token.
Proof.
  unfold buildAuthenticate. intros [_ H]%do_Ok_iff. apply bind_Ok_iff in H as (ps & _ & H). cbn zeta in H.
  apply do_Ok_iff in H as [_ H]. apply bind_Ok_iff in H as (c & _ & H). apply bind_Ok_iff in H as (cap & _ & H).
  apply bind_Ok_iff in H as (signed & Hs & H). apply do_Ok_iff in H as [_ [= ->]].
  by rewrite (sign_sets _ _ _ _ _ _ Hs "authToken" ltac:(done)).
Qed.

(** C14. A session that an exchange returns comes from the pinned scheduler: a
    fresh packet that one of its keys signed, accepting a challenge with the
    request id, the trace id, the purpose and the nonce this exchange drew, for
    this worker, this agent and this tenant.  The token has not expired, and a
    renewal never returns the token it renews. *)
Theorem exchange_session (draws : exchange_draws) (purpose : Z) (currentToken : jsstr)
    (session : WorkerHandshakeSession) :
  exchange K R W T config capability request draws purpose currentToken = Ok session ->
  exists packet authenticate,
    asked {| ro_requestId := JStr (requestId (xd_requestUuid draws));
             ro_traceId := JStr (requestId (xd_traceUuid draws));
             ro_purpose := JNum (NInt purpose);
             ro_clientNonce := JBytes (xd_nonce draws);
             ro_createdAt := xd_created draws |} packet /\
    session_established K W T config packet authenticate (xd_settled draws) session /\
    (purpose = 2 -> ss_token session <> JStr currentToken).
Proof.
  unfold exchange. intros H. apply bind_Ok_iff in H as (packet & Hp%buildChallengeRequest_asked & H).
  apply bind_Ok_iff in H as (response & [data Hr]%requestPacket_received & H).
  apply bind_Ok_iff in H as (challenge & ->%requireChallenge_id & H).
  apply bind_Ok_iff in H as (v & Hv & H). apply bind_Ok_iff in H as (authenticate & Ha & H).
  apply bind_Ok_iff in H as (response' & _ & H). apply bind_Ok_iff in H as (final & _ & H).
  exists packet, authenticate. split; [done|].
  assert (session_established K W T config packet authenticate (xd_settled draws) session) as Hs.
  { eapply session_bound; [|exact Hv|exact H]. intros p [= <-]. by apply (received_decoding_returns data). }
  split; [done|]. intros ->. rewrite <- (buildAuthenticate_token _ _ _ _ Ha). apply (se_rotated _ _ _ _ _ _ _ _ Hs).
  apply (as_purpose _ _ Hp).
Qed.
End ExchangeLemmas.
