(* ===== verification/RuntimeTrustConfig.v ===== *)
(** * Worker trust: runtime settings

    src/sdk/node/src/worker-trust-runtime-config.ts: the options of an agent
    and the environment variable become the settings the runtime works with,
    or an error. *)

From Stdlib Require Import QArith.
From S2P Require Import Prelude JsString JsValue WorkerTrustContract.
#[local] Close Scope Q_scope.

Definition DEFAULT_TRUST_TIMEOUT_MS : Z := 10000.
Definition DEFAULT_TRUST_RETRIES : Z := 3.
Definition DEFAULT_RENEW_MIN_INTERVAL_MS : Z := 30000.
Definition MAX_TRUST_TIMEOUT_MS : Z := 60000.
Definition MAX_TRUST_RETRIES : Z := 10.

Definition requireBoundedNumber (value : jsval) (max : Z) (name : string) : result jsnum :=
  match value with
  | JNum n =>
      if negb (is_finite n) || negb (num_ltb (NInt 0) n) || num_ltb (NInt max) n
      then throw PlainError (js name ++ js " is outside allowed bounds")
      else Ok n
  | _ => throw PlainError (js name ++ js " is outside allowed bounds")
  end.

Definition requireRetries (value : jsval) : result jsnum :=
  match value with
  | JNum n =>
      if negb (is_integer n) || num_ltb n (NInt 1) || num_ltb (NInt MAX_TRUST_RETRIES) n
      then throw PlainError (js "worker trust retries are outside allowed bounds")
      else Ok n
  | _ => throw PlainError (js "worker trust retries are outside allowed bounds")
  end.


Section Settings.
Context (K : key_api).

Record RuntimeTrustOptions : Type := {
  to_mode : jsval;
  to_config : option (WorkerTrustConfig K);
  to_timeoutMs : jsval;
  to_retries : jsval;
  to_renewMinIntervalMs : jsval
}.

Record RuntimeTrustSettings : Type := {
  st_mode : WorkerTrustMode;
  st_config : option (WorkerTrustConfig K);
  st_timeoutMs : jsnum;
  st_retries : jsnum;
  st_renewMinIntervalMs : jsnum
}.

Definition no_config (o : RuntimeTrustOptions) : bool := match to_config o with None => true | _ => false end.

Definition legacyDefault (options : RuntimeTrustOptions) (environmentMode : jsstr) : bool :=
  str_empty (trim environmentMode) &&
  (is_undefined (to_mode options) && no_config options && is_undefined (to_timeoutMs options) &&
   is_undefined (to_retries options) && is_undefined (to_renewMinIntervalMs options)).

Definition resolveEnabled (options : RuntimeTrustOptions) (mode : WorkerTrustMode) (senderId : jsstr)
    : result RuntimeTrustSettings :=
  do! throw_if (no_config options) PlainError (js "worker trust configuration is required") ;;
  let! config := createWorkerTrustConfig K (to_config options) in
  do! throw_if (negb (strict_eq (workerId config) (JStr senderId)))
        PlainError (js "sender does not match worker trust identity") ;;
  let! timeoutMs := requireBoundedNumber
    (coalesce (to_timeoutMs options) (JNum (NInt DEFAULT_TRUST_TIMEOUT_MS))) MAX_TRUST_TIMEOUT_MS
    "worker trust timeout" in
  let! retries := requireRetries (coalesce (to_retries options) (JNum (NInt DEFAULT_TRUST_RETRIES))) in
  let! renew := requireBoundedNumber
    (coalesce (to_renewMinIntervalMs options) (JNum (NInt DEFAULT_RENEW_MIN_INTERVAL_MS)))
    MAX_TRUST_TIMEOUT_MS "worker trust renewal interval" in
  Ok {| st_mode := mode; st_config := Some config; st_timeoutMs := timeoutMs; st_retries := retries;
        st_renewMinIntervalMs := renew |}.

Definition resolveRuntimeTrustSettings (options : RuntimeTrustOptions) (senderId environmentMode : jsstr)
    : result RuntimeTrustSettings :=
  if legacyDefault options environmentMode then
    Ok {| st_mode := OFF; st_config := None; st_timeoutMs := NInt DEFAULT_TRUST_TIMEOUT_MS;
          st_retries := NInt DEFAULT_TRUST_RETRIES;
          st_renewMinIntervalMs := NInt DEFAULT_RENEW_MIN_INTERVAL_MS |}
  else
    let! mode := parseWorkerTrustMode (coalesce (to_mode options) (JStr environmentMode)) in
    match mode with
    | OFF =>
        do! throw_if (negb (no_config options) || negb (is_undefined (to_timeoutMs options)) ||
                      negb (is_undefined (to_retries options)) ||
                      negb (is_undefined (to_renewMinIntervalMs options)))
              PlainError (js "worker trust mode off conflicts with trust configuration") ;;
        let! renew := requireBoundedNumber
          (coalesce (to_renewMinIntervalMs options) (JNum (NInt DEFAULT_RENEW_MIN_INTERVAL_MS)))
          MAX_TRUST_TIMEOUT_MS "worker trust renewal interval" in
        Ok {| st_mode := OFF; st_config := None; st_timeoutMs := NInt DEFAULT_TRUST_TIMEOUT_MS;
              st_retries := NInt DEFAULT_TRUST_RETRIES; st_renewMinIntervalMs := renew |}
    | _ => resolveEnabled options mode senderId
    end.
End Settings.

Arguments to_mode {K} _.
Arguments to_config {K} _.
Arguments to_timeoutMs {K} _.
Arguments to_retries {K} _.
Arguments to_renewMinIntervalMs {K} _.
Arguments st_mode {K} _.
Arguments st_config {K} _.
Arguments st_timeoutMs {K} _.
Arguments st_retries {K} _.
Arguments st_renewMinIntervalMs {K} _.

(** ** Numbers within bounds *)

Lemma num_ltb_q a b x y : num_q a = Some x -> num_q b = Some y -> num_ltb a b = true <-> (x < y)%Q.
Proof.
  intros Ha Hb. destruct a as [a|a|?|], b as [b|b|?|]; try discriminate; injection Ha as <-; injection Hb as <-.
  - cbn [num_ltb]. rewrite Z.ltb_lt, <- Zlt_Qlt. done.
  - cbn [num_ltb num_q]. rewrite negb_true_iff, <- not_true_iff_false, Qle_bool_iff. split.
    + apply Qnot_le_lt.
    + apply Qlt_not_le.
  - cbn [num_ltb num_q]. rewrite negb_true_iff, <- not_true_iff_false, Qle_bool_iff. split.
    + apply Qnot_le_lt.
    + apply Qlt_not_le.
  - cbn [num_ltb num_q]. rewrite negb_true_iff, <- not_true_iff_false, Qle_bool_iff. split.
    + apply Qnot_le_lt.
    + apply Qlt_not_le.
Qed.

(** A finite number above zero and at most [max]. *)
Definition bounded (max : Z) (n : jsnum) : Prop := exists q, num_q n = Some q /\ (0 < q)%Q /\ (q <= inject_Z max)%Q.

Lemma requireBoundedNumber_iff v max name n :
  requireBoundedNumber v max name = Ok n <-> v = JNum n /\ bounded max n.
Proof.
  unfold requireBoundedNumber. destruct v as [| | |m| | | | |]; try (split; [discriminate | by intros [? _]]).
  destruct (is_finite m) eqn:Hf; cbn [negb orb].
  2:{ split; [discriminate|]. intros [[= ->] (q & Hq & _)]. by destruct n. }
  assert (exists q, num_q m = Some q) as [q Hq] by (destruct m; try discriminate; by eexists).
  pose proof (num_ltb_q (NInt 0) m _ q eq_refl Hq) as H0.
  pose proof (num_ltb_q (NInt max) m _ q eq_refl Hq) as Hm.
  assert (bounded max m <-> num_ltb (NInt 0) m = true /\ num_ltb (NInt max) m = false) as Hb.
  { unfold bounded. rewrite H0, <- not_true_iff_false, Hm. split.
    - intros (q' & Hq' & ? & ?). rewrite Hq in Hq'. injection Hq' as <-. split; [done|]. by apply Qle_not_lt.
    - intros [? ?]. exists q. split; [done|]. split; [done|]. by apply Qnot_lt_le. }
  destruct (num_ltb (NInt 0) m), (num_ltb (NInt max) m); cbn [negb orb]; split; try discriminate;
    try (intros [[= ->] H]; apply Hb in H; destruct H; discriminate).
  - intros [= ->]. split; [done|]. by apply Hb.
  - by intros [[= ->] _].
Qed.

Lemma requireRetries_iff v n :
  requireRetries v = Ok n <-> exists z, v = JNum (NInt z) /\ n = NInt z /\ 1 <= z <= 10.
Proof.
  unfold requireRetries, MAX_TRUST_RETRIES. destruct v as [| | |m| | | | |]; try (split; [discriminate | naive_solver]).
  destruct m as [z| | |]; cbn [is_integer negb orb num_ltb]; try (split; [discriminate | naive_solver]).
  destruct (Z.ltb_spec z 1), (Z.ltb_spec 10 z); cbn [orb]; split; try discriminate; intros H';
    try (destruct H' as (? & [= ->] & _ & ?); lia).
  - injection H' as <-. exists z. repeat split; lia.
  - destruct H' as (? & [= ->] & -> & _). done.
Qed.

(** ** The settings *)

Section SettingsLemmas.
Context (K : key_api).

(** Settings within their bounds: a timeout and a renewal interval of at most
    a minute, one to ten attempts, and with a mode other than off a valid
    configuration for the sender. *)
Record settled (senderId : jsstr) (s : RuntimeTrustSettings K) : Prop := {
  sd_timeout : bounded 60000 (st_timeoutMs s);
  sd_retries : exists z, st_retries s = NInt z /\ 1 <= z <= 10;
  sd_renew : bounded 60000 (st_renewMinIntervalMs s);
  sd_config : match st_config s with
              | None => st_mode s = OFF
              | Some c => st_mode s <> OFF /\ valid_config K c /\ workerId c = JStr senderId
              end
}.

Lemma bounded_const z : 0 < z <= 60000 -> bounded 60000 (NInt z).
Proof.
  intros Hz. exists (inject_Z z). split; [done|]. split.
  - change 0%Q with (inject_Z 0). rewrite <- Zlt_Qlt. lia.
  - rewrite <- Zle_Qle. lia.
Qed.

Lemma created_valid input c : createWorkerTrustConfig K input = Ok c -> valid_config K c.
Proof.
  destruct input as [input|]; [|discriminate]. unfold createWorkerTrustConfig.
  rewrite bind_Ok_iff. intros (keys & _ & H). apply bind_Ok_iff in H as (proof & _ & H).
  apply do_Ok_iff in H as [Hv [= <-]]. by apply validateWorkerTrustConfig_iff.
Qed.

Lemma resolveEnabled_settled options mode senderId s :
  mode <> OFF -> resolveEnabled K options mode senderId = Ok s -> settled senderId s /\ st_mode s = mode.
Proof.
  intros Hmode. unfold resolveEnabled. intros [_ H]%do_Ok_iff.
  apply bind_Ok_iff in H as (c & Hc%created_valid & H). apply do_Ok_iff in H as [Hw%throw_if_Ok_iff H].
  apply negb_false_iff, strict_eq_str in Hw.
  apply bind_Ok_iff in H as (t & [_ Ht]%requireBoundedNumber_iff & H).
  apply bind_Ok_iff in H as (r & (z & _ & -> & Hz)%requireRetries_iff & H).
  apply bind_Ok_iff in H as (n & [_ Hn]%requireBoundedNumber_iff & [= <-]).
  split; [|done]. split; cbn; eauto.
Qed.

(** Settings that the runtime resolves are within their bounds, the mode is
    the one the options or else the environment name, and nothing but an
    absence of options and environment, or an explicit off without trust
    options, turns worker trust off. *)
Theorem resolveRuntimeTrustSettings_settled (options : RuntimeTrustOptions K) (senderId environmentMode : jsstr)
    (s : RuntimeTrustSettings K) :
  resolveRuntimeTrustSettings K options senderId environmentMode = Ok s ->
  settled senderId s /\
  (st_mode s = OFF ->
     to_config options = None /\ to_timeoutMs options = JUndef /\ to_retries options = JUndef /\
     to_renewMinIntervalMs options = JUndef) /\
  (parseWorkerTrustMode (coalesce (to_mode options) (JStr environmentMode)) = Ok (st_mode s) \/
   to_mode options = JUndef /\ trim environmentMode = [] /\ st_mode s = OFF).
Proof.
  unfold resolveRuntimeTrustSettings. destruct (legacyDefault _ _ _) eqn:Hl.
  - intros [= <-]. unfold legacyDefault in Hl. rewrite !andb_true_iff in Hl.
    destruct Hl as [He [[[[Hm Hc] Ht] Hr] Hn]]. split; [|split].
    + split; cbn; try done; try (apply bounded_const; done). by exists 3.
    + intros _. unfold no_config in Hc. by destruct (to_config options), (to_timeoutMs options), (to_retries options),
        (to_renewMinIntervalMs options).
    + right. by destruct (to_mode options), (trim environmentMode).
  - intros H. apply bind_Ok_iff in H as (mode & Hm & H). destruct mode.
    2,3: apply resolveEnabled_settled in H as [Hs E]; [|done]; rewrite E; split; [done|]; split; [done | by left].
    apply do_Ok_iff in H as [Hg%throw_if_Ok_iff H].
    apply bind_Ok_iff in H as (n & [_ Hn]%requireBoundedNumber_iff & [= <-]).
    rewrite !orb_false_iff, !negb_false_iff in Hg. destruct Hg as [[[Hc Ht] Hr] Hw]. split; [|split; [|by left]].
    + split; cbn; try done; try (apply bounded_const; done). by exists 3.
    + intros _. unfold no_config in Hc. by destruct (to_config options), (to_timeoutMs options), (to_retries options),
        (to_renewMinIntervalMs options).
Qed.
End SettingsLemmas.
