(* ===== verification/WorkerTrustLifecycle.v ===== *)
(** * Worker trust: the session lifecycle

    src/sdk/node/src/worker-trust-lifecycle.ts: [WorkerTrustLifecycle], which
    obtains a session, renews it in the background and gives it up.  The class
    is asynchronous; its state changes in turns, each from one [await] to the
    next.  A turn is a function on the state that also returns what the turn
    does outside (a handshake started, a promise settled, a failure reported).
    Promises that only wait are in the state: the serialised queue of
    exchanges, the exchange that runs, and the phase of the renewal loop.  The
    clock is read once per turn; a timer may fire at any time. *)

From Stdlib Require Import QArith.
From S2P Require Import Prelude JsString JsValue WorkerTrustContract WorkerTrustFlow RuntimeTrustConfig.
#[local] Close Scope Q_scope.

Definition PURPOSE_ISSUE : Z := 1.
Definition PURPOSE_RENEW : Z := 2.

Definition retryDelayMs (attempt : Z) : Z := Z.min 1000 (25 * 2 ^ attempt).

(** [getTime()]: NaN for an invalid date. *)
Definition getTime (d : date) : jsnum := match d with Some ms => NInt ms | None => NNaN end.

(** The double nearest to 0.9. *)
Definition nine_tenths : jsnum := NFrac (Qmake 8106479329266893 (2 ^ 53)).

Definition renewalDelayMs (session : WorkerHandshakeSession) (now : Z) (minimum : jsnum) : jsnum :=
  let lifetime := num_max (NInt 0) (num_sub (getTime (ss_expiresAt session)) (NInt now)) in
  let target := num_min (num_div lifetime 2) (num_max (NInt 0) (num_sub lifetime (NInt 60000))) in
  num_min (num_max minimum target) (num_max (NInt 1) (num_mul lifetime nine_tenths)).

(** Who waits for an exchange: a caller of a method, or the renewal loop. *)
Inductive owner : Set := Caller (id : Z) | RenewLoop.

#[global] Instance owner_eq_dec : EqDecision owner.
Proof. solve_decision. Defined.

Record call : Set := { cl_owner : owner; cl_purpose : Z; cl_token : jsval }.

(** Where a running exchange waits: for its reply, or between attempts. *)
Inductive work_phase : Set := Exchanging | Sleeping (ms : Z).

Record work : Set := { wk_call : call; wk_attempt : Z; wk_failure : exn; wk_phase : work_phase }.

(** Where the renewal loop waits. *)
Inductive loop_phase : Set :=
| RenewSleeping (ms : jsnum)
| Renewing
| Renewed (outcome : result bool)
| Pausing (ms : jsnum)
| Reporting
| LoopEnded.

Record lifecycle : Set := {
  current : option WorkerHandshakeSession;
  closed : bool;
  working : option work;
  waiting : list call;
  renewTask : option loop_phase
}.

Definition new_lifecycle : lifecycle :=
  {| current := None; closed := false; working := None; waiting := []; renewTask := None |}.

Definition set_current (c : option WorkerHandshakeSession) (s : lifecycle) : lifecycle :=
  {| current := c; closed := closed s; working := working s; waiting := waiting s; renewTask := renewTask s |}.

Definition set_working (w : option work) (s : lifecycle) : lifecycle :=
  {| current := current s; closed := closed s; working := w; waiting := waiting s; renewTask := renewTask s |}.

Definition set_waiting (q : list call) (s : lifecycle) : lifecycle :=
  {| current := current s; closed := closed s; working := working s; waiting := q; renewTask := renewTask s |}.

Definition set_renewTask (l : option loop_phase) (s : lifecycle) : lifecycle :=
  {| current := current s; closed := closed s; working := working s; waiting := waiting s; renewTask := l |}.

(** What a turn does outside the object. *)
Inductive output : Set :=
| Sent (purpose : Z) (token : jsval)
| Settled (who : owner) (outcome : result bool)
| Warned
| Reported (error : exn).

Definition turn_result : Set := lifecycle * list output.

Definition closed_error : exn := Exn WorkerTrustRuntimeError (js "worker trust lifecycle is closed").
Definition no_session_error : exn := Exn PlainError (js "renew requires a live session").
Definition trust_failed_error : exn := Exn WorkerTrustRuntimeError (js "authenticated worker trust failed").

Definition operational (e : exn) : bool := bool_decide (exn_class e = WorkerTrustOperationalError).

Definition activeSession (now : Z) (s : lifecycle) : option WorkerHandshakeSession * lifecycle :=
  match current s with
  | Some session =>
      if num_ltb (NInt now) (getTime (ss_expiresAt session)) then (Some session, s)
      else (None, set_current None s)
  | None => (None, set_current None s)
  end.

Definition sessionToken (now : Z) (s : lifecycle) : jsval * lifecycle :=
  let '(session, s') := activeSession now s in
  (match session with Some x => ss_token x | None => JUndef end, s').

Definition renewalRunning (s : lifecycle) : bool := match renewTask s with Some _ => true | None => false end.

Section Lifecycle.
Context {K : key_api} (settings : RuntimeTrustSettings K).

(** A settled promise: the renewal loop resumes in a turn of its own. *)
Definition settle (who : owner) (outcome : result bool) (s : lifecycle) : turn_result :=
  match who with
  | RenewLoop => (set_renewTask (Some (Renewed outcome)) s, [Settled who outcome])
  | Caller _ => (s, [Settled who outcome])
  end.

Definition handleFailure (now : Z) (error : exn) (renewal : bool) (s : lifecycle)
    : result bool * turn_result :=
  let s' := if renewal && (bool_decide (st_mode settings = ENFORCE) || negb (operational error))
            then set_current None s
            else snd (activeSession now s) in
  if bool_decide (st_mode settings = WARN) && operational error then (Ok false, (s', [Warned]))
  else (Throw trust_failed_error, (s', [])).

(** The turn ends by settling [who] with the outcome of [handleFailure]. *)
Definition fail_call (now : Z) (who : owner) (error : exn) (renewal : bool) (s : lifecycle) : turn_result :=
  let '(outcome, (s', outs)) := handleFailure now error renewal s in
  let '(s'', outs') := settle who outcome s' in
  (s'', outs ++ outs').

Definition runSerialized (who : owner) (purpose : Z) (token : jsval) (s : lifecycle) : turn_result :=
  if closed s then settle who (Throw closed_error) s
  else (set_waiting (waiting s ++ [{| cl_owner := who; cl_purpose := purpose; cl_token := token |}]) s, []).

Definition authenticate (who : owner) (s : lifecycle) : turn_result :=
  match st_mode settings with
  | OFF => settle who (Ok false) s
  | _ => runSerialized who PURPOSE_ISSUE (JStr []) s
  end.

Definition renew (now : Z) (who : owner) (s : lifecycle) : turn_result :=
  let '(token, s') := sessionToken now s in
  if truthy token then runSerialized who PURPOSE_RENEW token s'
  else fail_call now who no_session_error true s'.

Definition reauthenticate (who : owner) (s : lifecycle) : turn_result := authenticate who (set_current None s).

(** ** exchangeWithRetries *)

(** One iteration of the loop: start an exchange, or leave the loop. *)
Definition attempt_exchange (now : Z) (c : call) (attempt : Z) (failure : exn) (s : lifecycle) : turn_result :=
  if num_ltb (NInt attempt) (st_retries settings)
  then (set_working (Some {| wk_call := c; wk_attempt := attempt; wk_failure := failure;
                              wk_phase := Exchanging |}) s,
        [Sent (cl_purpose c) (cl_token c)])
  else fail_call now (cl_owner c) failure (cl_purpose c =? PURPOSE_RENEW) (set_working None s).

(** The queue reaches a call. *)
Definition start_work (now : Z) (c : call) (s : lifecycle) : turn_result :=
  let '(activeToken, s') := sessionToken now s in
  if (cl_purpose c =? PURPOSE_RENEW) && negb (strict_eq activeToken (cl_token c)) then
    if truthy activeToken then settle (cl_owner c) (Ok true) s'
    else fail_call now (cl_owner c) no_session_error true s'
  else attempt_exchange now c 0 (Exn PlainError (js "worker trust exchange failed")) s'.

Inductive reply : Set := Granted (session : WorkerHandshakeSession) | Failed (error : exn).

(** The race of an exchange and the close signal settles. *)
Definition exchange_settled (now : Z) (w : work) (r : reply) (s : lifecycle) : turn_result :=
  let c := wk_call w in
  let leave outcome s := settle (cl_owner c) outcome (set_working None s) in
  match r with
  | Granted session =>
      if closed s then leave (Throw closed_error) s
      else leave (Ok true) (set_current (Some session) s)
  | Failed failure =>
      if closed s then leave (Throw failure) s
      else if negb (operational failure) then
        fail_call now (cl_owner c) failure (cl_purpose c =? PURPOSE_RENEW) (set_working None s)
      else if num_ltb (NInt (wk_attempt w + 1)) (st_retries settings) then
        (set_working (Some {| wk_call := c; wk_attempt := wk_attempt w; wk_failure := failure;
                              wk_phase := Sleeping (retryDelayMs (wk_attempt w)) |}) s, [])
      else attempt_exchange now c (wk_attempt w + 1) failure s
  end.

(** ** The renewal loop *)

(** The head of the loop. *)
Definition loop_head (now : Z) (s : lifecycle) : lifecycle :=
  if closed s then set_renewTask (Some LoopEnded) s
  else
    let '(session, s') := activeSession now s in
    match session with
    | None => set_renewTask (Some LoopEnded) s'
    | Some session =>
        set_renewTask (Some (RenewSleeping (renewalDelayMs session now (st_renewMinIntervalMs settings)))) s'
    end.

Definition startRenewal (now : Z) (s : lifecycle) : lifecycle :=
  if closed s || bool_decide (st_mode settings = OFF) then s
  else
    let '(token, s') := sessionToken now s in
    if negb (truthy token) || renewalRunning s' then s' else loop_head now s'.

(** The loop resumes after [renew]. *)
Definition loop_resume (now : Z) (outcome : result bool) (s : lifecycle) : turn_result :=
  match outcome with
  | Ok true => (loop_head now s, [])
  | Ok false =>
      let '(session, s') := activeSession now s in
      (set_renewTask (Some (match session with
                            | None => LoopEnded
                            | Some _ => Pausing (st_renewMinIntervalMs settings)
                            end)) s', [])
  | Throw e => if closed s then (set_renewTask (Some LoopEnded) s, [])
               else (set_renewTask (Some Reporting) s, [Reported e])
  | NoFuel => (s, [])
  end.

Definition lc_close (s : lifecycle) : lifecycle :=
  if closed s then s
  else {| current := None; closed := true; working := working s; waiting := waiting s;
          renewTask := renewTask s |}.

(** ** Turns *)

Inductive turn : Set :=
| Authenticate (id : Z)
| Renew (id : Z)
| Reauthenticate (id : Z)
| StartRenewal
| Close
| ReadToken
| QueueRuns
| ExchangeSettles (r : reply)
| CloseSignal
| RetryWakes
| RenewWakes
| LoopResumes
| PauseWakes
| ReportSettles
| LoopClears.

Definition take_turn (now : Z) (t : turn) (s : lifecycle) : option turn_result :=
  match t with
  | Authenticate id => Some (authenticate (Caller id) s)
  | Renew id => Some (renew now (Caller id) s)
  | Reauthenticate id => Some (reauthenticate (Caller id) s)
  | StartRenewal => Some (startRenewal now s, [])
  | Close => Some (lc_close s, [])
  | ReadToken => Some (snd (sessionToken now s), [])
  | QueueRuns =>
      match working s, waiting s with
      | None, c :: rest => Some (start_work now c (set_waiting rest s))
      | _, _ => None
      end
  | ExchangeSettles r =>
      match working s with
      | Some w => match wk_phase w with Exchanging => Some (exchange_settled now w r s) | _ => None end
      | None => None
      end
  | CloseSignal =>
      match working s with
      | Some w =>
          match wk_phase w with
          | Exchanging => if closed s then Some (exchange_settled now w (Failed closed_error) s) else None
          | _ => None
          end
      | None => None
      end
  | RetryWakes =>
      match working s with
      | Some w =>
          match wk_phase w with
          | Sleeping _ => Some (attempt_exchange now (wk_call w) (wk_attempt w + 1) (wk_failure w) s)
          | _ => None
          end
      | None => None
      end
  | RenewWakes =>
      match renewTask s with
      | Some (RenewSleeping _) =>
          if closed s then Some (set_renewTask (Some LoopEnded) s, [])
          else Some (renew now RenewLoop (set_renewTask (Some Renewing) s))
      | _ => None
      end
  | LoopResumes =>
      match renewTask s with Some (Renewed outcome) => Some (loop_resume now outcome s) | _ => None end
  | PauseWakes =>
      match renewTask s with Some (Pausing _) => Some (loop_head now s, []) | _ => None end
  | ReportSettles =>
      match renewTask s with Some Reporting => Some (set_renewTask (Some LoopEnded) s, []) | _ => None end
  | LoopClears =>
      match renewTask s with Some LoopEnded => Some (set_renewTask None s, []) | _ => None end
  end.
End Lifecycle.

(** ** Reachable states *)

Section Runs.
Context {K : key_api} (settings : RuntimeTrustSettings K).

(** The sessions a turn receives. *)
Definition grants (t : turn) : list WorkerHandshakeSession :=
  match t with ExchangeSettles (Granted session) => [session] | _ => [] end.

(** [reachable log granted s]: turns from a new object led to [s], did [log]
    and received the sessions [granted]. *)
Inductive reachable : list output -> list WorkerHandshakeSession -> lifecycle -> Prop :=
| reach_new : reachable [] [] new_lifecycle
| reach_turn log granted s now t s' outs :
    reachable log granted s -> take_turn settings now t s = Some (s', outs) ->
    reachable (log ++ outs) (granted ++ grants t) s'.

(** A call that may be queued or run: the renewal loop only renews, and only a
    live token is renewed. *)
Record call_ok (c : call) : Prop := {
  co_mode : st_mode settings <> OFF;
  co_loop : cl_owner c = RenewLoop -> cl_purpose c = PURPOSE_RENEW;
  co_token : cl_purpose c = PURPOSE_RENEW -> truthy (cl_token c) = true
}.

Definition attempts_left (w : work) : Prop :=
  0 <= wk_attempt w /\ num_ltb (NInt (wk_attempt w)) (st_retries settings) = true.

(** The invariant of the state. *)
Record lifecycle_ok (granted : list WorkerHandshakeSession) (s : lifecycle) : Prop := {
  lo_closed : closed s = true -> current s = None;
  lo_current : forall x, current s = Some x -> In x granted /\ st_mode settings <> OFF;
  lo_working : forall w, working s = Some w -> call_ok (wk_call w) /\ attempts_left w;
  lo_waiting : Forall call_ok (waiting s)
}.

Definition outputs_ok (outs : list output) : Prop :=
  forall purpose token, In (Sent purpose token) outs ->
  st_mode settings <> OFF /\ (purpose = PURPOSE_RENEW -> truthy token = true).

Definition turn_ok (granted : list WorkerHandshakeSession) (r : turn_result) : Prop :=
  lifecycle_ok granted (fst r) /\ outputs_ok (snd r).

Lemma outputs_ok_nil : outputs_ok [].
Proof. done. Qed.

Lemma outputs_ok_app a b : outputs_ok a -> outputs_ok b -> outputs_ok (a ++ b).
Proof. intros Ha Hb p t [H|H]%in_app_iff; eauto. Qed.

Lemma outputs_ok_settled who o : outputs_ok [Settled who o].
Proof. intros p t [|[]]. discriminate. Qed.

Lemma ok_set_current_None granted s : lifecycle_ok granted s -> lifecycle_ok granted (set_current None s).
Proof. intros [? ? ? ?]. by split. Qed.

Lemma ok_set_working_None granted s : lifecycle_ok granted s -> lifecycle_ok granted (set_working None s).
Proof. intros [? ? ? ?]. by split. Qed.

Lemma ok_set_renewTask granted l s : lifecycle_ok granted s -> lifecycle_ok granted (set_renewTask l s).
Proof. intros [? ? ? ?]. by split. Qed.

Lemma ok_grow granted more s : lifecycle_ok granted s -> lifecycle_ok (granted ++ more) s.
Proof. intros [? H ? ?]. split; try done. intros x Hx. rewrite in_app_iff. naive_solver. Qed.

#[local] Hint Resolve outputs_ok_nil outputs_ok_settled ok_set_current_None ok_set_working_None
  ok_set_renewTask : core.

Lemma activeSession_cases now s :
  (exists x, activeSession now s = (Some x, s) /\ current s = Some x /\
             num_ltb (NInt now) (getTime (ss_expiresAt x)) = true) \/
  activeSession now s = (None, set_current None s).
Proof.
  unfold activeSession. destruct (current s) as [x|]; [|by right].
  destruct (num_ltb _ _) eqn:E; [|by right]. left. by exists x.
Qed.

Lemma activeSession_ok granted now s : lifecycle_ok granted s -> lifecycle_ok granted (activeSession now s).2.
Proof. intros H. destruct (activeSession_cases now s) as [(x & -> & _)| ->]; cbn; auto. Qed.

Lemma sessionToken_cases now s :
  (exists x, sessionToken now s = (ss_token x, s) /\ current s = Some x /\
             num_ltb (NInt now) (getTime (ss_expiresAt x)) = true) \/
  sessionToken now s = (JUndef, set_current None s).
Proof.
  unfold sessionToken. destruct (activeSession_cases now s) as [(x & -> & H)| ->]; [left; by exists x | by right].
Qed.

Lemma sessionToken_ok granted now s : lifecycle_ok granted s -> lifecycle_ok granted (sessionToken now s).2.
Proof. intros H. destruct (sessionToken_cases now s) as [(x & -> & _)| ->]; cbn; auto. Qed.

Lemma settle_ok granted who o s : lifecycle_ok granted s -> turn_ok granted (settle who o s).
Proof. intros H. unfold settle, turn_ok. destruct who; cbn; auto. Qed.

Lemma handleFailure_ok granted now e b s :
  lifecycle_ok granted s -> turn_ok granted (handleFailure settings now e b s).2.
Proof.
  intros H. pose proof (activeSession_ok granted now s H). unfold handleFailure, turn_ok.
  destruct (b && _); destruct (bool_decide _ && _); cbn; split; auto; intros p t [|[]]; discriminate.
Qed.

Lemma fail_call_ok granted now who e b s :
  lifecycle_ok granted s -> turn_ok granted (fail_call settings now who e b s).
Proof.
  intros H. pose proof (handleFailure_ok granted now e b s H) as [Hs Ho]. unfold fail_call.
  destruct (handleFailure _ _ _ _ _) as [o [s' outs]]. cbn in Hs, Ho.
  pose proof (settle_ok granted who o s' Hs) as [Hs' Ho']. destruct (settle who o s') as [s'' outs'].
  split; [done|]. by apply outputs_ok_app.
Qed.

Lemma runSerialized_ok granted who p t s :
  lifecycle_ok granted s -> call_ok {| cl_owner := who; cl_purpose := p; cl_token := t |} ->
  turn_ok granted (runSerialized who p t s).
Proof.
  intros H Hc. unfold runSerialized. destruct (closed s) eqn:E; [by apply settle_ok|].
  split; [|apply outputs_ok_nil]. destruct H. split; cbn; try done. apply Forall_app. split; [done|]. by constructor.
Qed.

Lemma authenticate_ok granted id s :
  lifecycle_ok granted s -> turn_ok granted (authenticate settings (Caller id) s).
Proof.
  intros H. unfold authenticate. destruct (st_mode settings) eqn:E; [by apply settle_ok|..];
    (apply runSerialized_ok; [done|]; split; [by rewrite E | done | done]).
Qed.

Lemma renew_ok granted now who s : lifecycle_ok granted s -> turn_ok granted (renew settings now who s).
Proof.
  intros H. unfold renew. destruct (sessionToken_cases now s) as [(x & -> & Hx & _)| ->].
  - destruct (truthy _) eqn:Et; [|by apply fail_call_ok]. apply runSerialized_ok; [done|].
    split; [by apply (lo_current _ _ H x) | done | done].
  - cbn [truthy]. apply fail_call_ok. auto.
Qed.

Lemma attempt_exchange_ok granted now c attempt e s :
  lifecycle_ok granted s -> call_ok c -> 0 <= attempt -> turn_ok granted (attempt_exchange settings now c attempt e s).
Proof.
  intros H Hc Ha. unfold attempt_exchange. destruct (num_ltb _ _) eqn:E; [|by apply fail_call_ok; auto].
  split; cbn.
  - destruct H. split; cbn; try done. intros w [= <-]. done.
  - intros p t [[= <- <-]|[]]. by destruct Hc.
Qed.

Lemma start_work_ok granted now c s :
  lifecycle_ok granted s -> call_ok c -> turn_ok granted (start_work settings now c s).
Proof.
  intros H Hc. pose proof (sessionToken_ok granted now s H) as Ht. unfold start_work.
  destruct (sessionToken now s) as [token s']. cbn in Ht.
  destruct (_ && _); [destruct (truthy token)|]; auto using settle_ok, fail_call_ok, attempt_exchange_ok.
  apply attempt_exchange_ok; [done | done | lia].
Qed.

Lemma exchange_settled_ok granted now w r s :
  lifecycle_ok granted s -> working s = Some w ->
  turn_ok (granted ++ grants (ExchangeSettles r)) (exchange_settled settings now w r s).
Proof.
  intros H Hw. pose proof (lo_working _ _ H w Hw) as [Hc [Ha Hlt]]. unfold exchange_settled.
  destruct r as [x|e]; cbn [grants]; [|rewrite app_nil_r].
  - pose proof (ok_grow granted [x] s H). destruct (closed s) eqn:E; apply settle_ok; auto.
    destruct H as [Hcl Hcu Hwo Hwa]. split; cbn; try done; [by rewrite E|].
    intros y [= <-]. split; [apply in_app_iff; right; by left | by destruct Hc].
  - destruct (closed s) eqn:E; [by apply settle_ok; auto|].
    destruct (operational e); cbn [negb]; [|by apply fail_call_ok; auto].
    destruct (num_ltb (NInt (wk_attempt w + 1)) _) eqn:E'; [|apply attempt_exchange_ok; auto; lia].
    split; [|apply outputs_ok_nil]. destruct H. split; cbn; try done. intros w' [= <-]. done.
Qed.

Lemma loop_head_ok granted now s : lifecycle_ok granted s -> lifecycle_ok granted (loop_head settings now s).
Proof.
  intros H. pose proof (activeSession_ok granted now s H) as Ha. unfold loop_head. destruct (closed s); [auto|].
  destruct (activeSession now s) as [[x|] s']; cbn in Ha; auto.
Qed.

Lemma startRenewal_ok granted now s : lifecycle_ok granted s -> lifecycle_ok granted (startRenewal settings now s).
Proof.
  intros H. pose proof (sessionToken_ok granted now s H) as Ht. unfold startRenewal. destruct (_ || _); [done|].
  destruct (sessionToken now s) as [t s']. cbn in Ht. destruct (_ || _); [done | by apply loop_head_ok].
Qed.

Lemma loop_resume_ok granted now o s : lifecycle_ok granted s -> turn_ok granted (loop_resume settings now o s).
Proof.
  intros H. pose proof (activeSession_ok granted now s H) as Ha. unfold loop_resume. destruct o as [[]|e|].
  - split; cbn; auto using loop_head_ok.
  - destruct (activeSession now s) as [x s']. cbn in Ha. split; cbn; auto.
  - destruct (closed s); split; cbn; auto. intros p t [|[]]. discriminate.
  - split; cbn; auto.
Qed.

Lemma lc_close_ok granted s : lifecycle_ok granted s -> lifecycle_ok granted (lc_close s).
Proof. intros H. unfold lc_close. destruct (closed s); [done|]. destruct H. by split. Qed.

Lemma take_turn_ok granted now t s r :
  lifecycle_ok granted s -> take_turn settings now t s = Some r -> turn_ok (granted ++ grants t) r.
Proof.
  intros H. destruct t; cbn [take_turn grants]; try rewrite app_nil_r; try (intros [= <-]).
  - by apply authenticate_ok.
  - by apply renew_ok.
  - apply authenticate_ok. auto.
  - split; [by apply startRenewal_ok | apply outputs_ok_nil].
  - split; [by apply lc_close_ok | apply outputs_ok_nil].
  - split; [by apply sessionToken_ok | apply outputs_ok_nil].
  - destruct (working s) eqn:Hw; [done|]. destruct (waiting s) as [|c rest] eqn:Hq; [done|]. intros [= <-].
    destruct H as [Hcl Hcu Hwo Hwa]. rewrite Hq in Hwa. apply Forall_cons in Hwa as [Hc Hrest].
    apply start_work_ok; [|done]. by split.
  - destruct (working s) as [w|] eqn:Hw; [|done]. destruct (wk_phase w); [|done]. intros [= <-].
    by apply exchange_settled_ok.
  - destruct (working s) as [w|] eqn:Hw; [|done]. destruct (wk_phase w); [|done]. destruct (closed s); [|done].
    intros [= <-]. rewrite <- (app_nil_r granted). by apply (exchange_settled_ok granted now w (Failed closed_error)).
  - destruct (working s) as [w|] eqn:Hw; [|done]. destruct (wk_phase w); [done|]. intros [= <-].
    destruct (lo_working _ _ H w Hw) as [Hc [Ha _]]. apply attempt_exchange_ok; [done | done | lia].
  - destruct (renewTask s) as [[]|]; try done. destruct (closed s); intros [= <-]; [split; cbn; auto|].
    apply renew_ok. auto.
  - destruct (renewTask s) as [[]|]; try done. intros [= <-]. by apply loop_resume_ok.
  - destruct (renewTask s) as [[]|]; try done. intros [= <-]. split; cbn; auto using loop_head_ok.
  - destruct (renewTask s) as [[]|]; try done. intros [= <-]. split; cbn; auto.
  - destruct (renewTask s) as [[]|]; try done. intros [= <-]. split; cbn; auto.
Qed.

Lemma reachable_ok log granted s : reachable log granted s -> lifecycle_ok granted s /\ outputs_ok log.
Proof.
  induction 1 as [|log granted s now t s' outs _ [IH IHo] Ht]; [by split; [split|]|].
  pose proof (take_turn_ok _ _ _ _ _ IH Ht) as [Hs Ho]. split; [done|]. by apply outputs_ok_app.
Qed.

(** A token that is handed out is live. *)
Lemma live_token log granted s :
  reachable log granted s -> forall now, truthy (sessionToken now s).1 = true ->
  closed s = false /\ exists x ms, In x granted /\ (sessionToken now s).1 = ss_token x /\
                                   ss_expiresAt x = Some ms /\ now < ms.
Proof.
  intros [[Hcl Hcu _ _] _]%reachable_ok now Ht.
  destruct (sessionToken_cases now s) as [(x & E & Hx & Hlt)|E]; rewrite E in Ht |- *; [|done].
  split; [destruct (closed s); [by rewrite Hcl in Hx|done]|]. exists x.
  destruct (ss_expiresAt x) as [ms|] eqn:Ee; [|discriminate]. exists ms.
  split; [by apply Hcu|]. split; [done|]. split; [done|]. by apply Z.ltb_lt.
Qed.

(** C15. In every reachable state: a closed object has no session; a session it
    holds came from an exchange of this object; the token it hands out is the
    token of such a session, before its expiry; a running exchange has attempts
    left; with worker trust off no handshake was ever started; and no renewal
    was started without a live token. *)
Theorem lifecycle_invariant log granted s :
  reachable log granted s ->
  (closed s = true -> current s = None) /\
  (forall x, current s = Some x -> In x granted) /\
  (forall now, truthy (sessionToken now s).1 = true ->
     closed s = false /\ exists x ms, In x granted /\ (sessionToken now s).1 = ss_token x /\
                                      ss_expiresAt x = Some ms /\ now < ms) /\
  (forall w, working s = Some w ->
     0 <= wk_attempt w /\ num_ltb (NInt (wk_attempt w)) (st_retries settings) = true) /\
  (st_mode settings = OFF -> forall p t, ~ In (Sent p t) log) /\
  (forall t, In (Sent PURPOSE_RENEW t) log -> truthy t = true).
Proof.
  intros Hr. pose proof Hr as [[Hcl Hcu Hwo _] Ho]%reachable_ok. split_and!; try done.
  - intros x Hx. by apply Hcu.
  - by eapply live_token.
  - intros w Hw. by apply Hwo.
  - intros Hm p t Hin. by apply Ho in Hin as [? _].
  - intros t Hin. by apply Ho in Hin as [_ ?]; auto.
Qed.

(** ** Failed renewals *)

(** The turn leaves no session if it fails a renewal of the loop. *)
Definition revokes (r : turn_result) : Prop :=
  forall e, In (Settled RenewLoop (Throw e)) (snd r) -> current (fst r) = None.

Lemma revokes_quiet s outs : (forall e, ~ In (Settled RenewLoop (Throw e)) outs) -> revokes (s, outs).
Proof. intros H e He. by apply H in He. Qed.

Lemma revokes_settle who o s : (forall e, o = Throw e -> current s = None) -> revokes (settle who o s).
Proof.
  intros H e. unfold settle. destruct who; cbn; intros [[=]|[]]; subst. by eapply H.
Qed.

Lemma revokes_fail_call now who e b s :
  (who = RenewLoop -> b = true) -> st_mode settings <> OFF \/ operational e = false ->
  revokes (fail_call settings now who e b s).
Proof.
  intros Hb Hm e'. unfold fail_call, handleFailure, settle. destruct who as [id|].
  - destruct (_ && _), (_ && _); cbn; intros H; repeat destruct H as [H|H]; try discriminate; done.
  - rewrite Hb by done. cbn [andb]. destruct (operational e) eqn:Eo; cbn [negb].
    + destruct Hm as [Hm|]; [|done]. destruct (st_mode settings); [done|..]; cbn.
      * intros [|[|[]]]; discriminate.
      * done.
    + rewrite orb_true_r, andb_false_r. done.
Qed.

Lemma revokes_attempt now c attempt e s :
  call_ok c -> revokes (attempt_exchange settings now c attempt e s).
Proof.
  intros [Hm Hl _]. unfold attempt_exchange. destruct (num_ltb _ _).
  - apply revokes_quiet. intros e' [|[]]. discriminate.
  - apply revokes_fail_call; [|by left]. intros Ho. by rewrite Hl.
Qed.

Lemma revokes_start_work now c s : call_ok c -> revokes (start_work settings now c s).
Proof.
  intros Hc. unfold start_work. destruct (sessionToken now s) as [t s'].
  destruct (_ && _); [destruct (truthy t)|]; [by apply revokes_settle | apply revokes_fail_call; auto
    | by apply revokes_attempt].
Qed.

Lemma revokes_exchange_settled granted now w r s :
  lifecycle_ok granted s -> call_ok (wk_call w) -> revokes (exchange_settled settings now w r s).
Proof.
  intros H Hc. pose proof (lo_closed _ _ H) as Hcl. unfold exchange_settled. destruct r as [x|e].
  - destruct (closed s); apply revokes_settle; [|done]. intros ? _. by apply Hcl.
  - destruct (closed s); [apply revokes_settle; intros ? _; by apply Hcl|].
    destruct (operational e) eqn:Eo; cbn [negb].
    + destruct (num_ltb _ _); [apply revokes_quiet; by intros ? [] | by apply revokes_attempt].
    + destruct Hc as [_ Hl _]. apply revokes_fail_call; [|by right]. intros Ho. by rewrite Hl.
Qed.

Lemma revokes_renew granted now who s : lifecycle_ok granted s -> revokes (renew settings now who s).
Proof.
  intros H. unfold renew. pose proof (sessionToken_ok granted now s H) as [Hcl _ _ _].
  destruct (sessionToken now s) as [t s']. cbn [snd] in Hcl. destruct (truthy t).
  - unfold runSerialized. destruct (closed s'); [apply revokes_settle; auto | apply revokes_quiet; by intros ? []].
  - apply revokes_fail_call; [done | by right].
Qed.

Lemma take_turn_revokes granted now t s r :
  lifecycle_ok granted s -> take_turn settings now t s = Some r -> revokes r.
Proof.
  intros H. pose proof (lo_working _ _ H) as Hwo. pose proof (lo_waiting _ _ H) as Hwa.
  destruct t; cbn [take_turn]; try (intros <-%(inj Some)).
  1: unfold authenticate; destruct (st_mode settings); [by apply revokes_settle|..];
     unfold runSerialized; destruct (closed s); apply revokes_quiet; cbn; naive_solver.
  1: by eapply revokes_renew.
  1: unfold reauthenticate, authenticate; destruct (st_mode settings); [by apply revokes_settle|..];
     unfold runSerialized; destruct (closed (set_current None s)); apply revokes_quiet; cbn; naive_solver.
  1-3: apply revokes_quiet; by intros ? [].
  - destruct (working s); [done|]. destruct (waiting s); [done|]. intros <-%(inj Some).
    apply revokes_start_work. by apply Forall_cons in Hwa as [? _].
  - destruct (working s) as [w|]; [|done]. destruct (wk_phase w); [|done]. intros <-%(inj Some).
    eapply revokes_exchange_settled; [done|]. by apply Hwo.
  - destruct (working s) as [w|]; [|done]. destruct (wk_phase w); [|done]. destruct (closed s); [|done]. intros <-%(inj Some).
    eapply revokes_exchange_settled; [done|]. by apply Hwo.
  - destruct (working s) as [w|]; [|done]. destruct (wk_phase w); [done|]. intros <-%(inj Some).
    apply revokes_attempt. by apply Hwo.
  - destruct (renewTask s) as [[]|]; try done. destruct (closed s); intros <-%(inj Some);
      [apply revokes_quiet; by intros ? []|]. apply (revokes_renew granted). by apply ok_set_renewTask.
  - destruct (renewTask s) as [[]|]; try done. intros <-%(inj Some). unfold loop_resume. destruct outcome as [[]|e|].
    + apply revokes_quiet. by intros ? [].
    + destruct (activeSession now s). apply revokes_quiet. by intros ? [].
    + destruct (closed s); apply revokes_quiet; [by intros ? []|]. intros ? [|[]]. discriminate.
    + apply revokes_quiet. by intros ? [].
  - destruct (renewTask s) as [[]|]; try done. intros <-%(inj Some). apply revokes_quiet. by intros ? [].
  - destruct (renewTask s) as [[]|]; try done. intros <-%(inj Some). apply revokes_quiet. by intros ? [].
  - destruct (renewTask s) as [[]|]; try done. intros <-%(inj Some). apply revokes_quiet. by intros ? [].
Qed.

(** The session that is live at [now]. *)
Definition live_at (now : Z) (c : option WorkerHandshakeSession) : option WorkerHandshakeSession :=
  match c with
  | Some session => if num_ltb (NInt now) (getTime (ss_expiresAt session)) then Some session else None
  | None => None
  end.

(** If the turn ends a renewal of the loop without an exception, there is a
    session after a success; a failure happens only in warn mode and keeps the
    session [c] while it is live. *)
Definition retains (now : Z) (c : option WorkerHandshakeSession) (r : turn_result) : Prop :=
  (In (Settled RenewLoop (Ok true)) (snd r) -> current (fst r) <> None) /\
  (In (Settled RenewLoop (Ok false)) (snd r) -> st_mode settings = WARN /\ current (fst r) = live_at now c).

Lemma activeSession_live now s : activeSession now s = (live_at now (current s), set_current (live_at now (current s)) s).
Proof. unfold activeSession, live_at. destruct s as [[x|] ? ? ? ?]; cbn [current]; [|done].
  by destruct (num_ltb (NInt now) (getTime (ss_expiresAt x))).
Qed.

Lemma live_at_idem now c : live_at now (live_at now c) = live_at now c.
Proof.
  unfold live_at. destruct c as [x|]; [|done].
  by destruct (num_ltb (NInt now) (getTime (ss_expiresAt x))) eqn:E; rewrite ?E.
Qed.

Lemma retains_quiet now c s outs : (forall b, ~ In (Settled RenewLoop (Ok b)) outs) -> retains now c (s, outs).
Proof. intros H. split; intros Hi; by apply H in Hi. Qed.

Lemma retains_settle now c who o s :
  (who = RenewLoop -> o = Ok true -> current s <> None) -> (who = RenewLoop -> o <> Ok false) -> retains now c (settle who o s).
Proof.
  intros H H'. unfold settle. destruct who; split; cbn; intros [[=]|[]]; subst; [by apply H | by destruct H'].
Qed.

Lemma retains_fail_call now c who e b s :
  live_at now (current s) = live_at now c -> retains now c (fail_call settings now who e b s).
Proof.
  intros Hc. unfold fail_call, handleFailure. rewrite activeSession_live, Hc. cbn [snd].
  destruct (bool_decide (st_mode settings = WARN) && operational e) eqn:Ew.
  - apply andb_true_iff in Ew as [Hw%bool_decide_eq_true Ho]. rewrite Ho, Hw. cbn [negb orb].
    rewrite bool_decide_false, andb_false_r by done. unfold settle. destruct who; cbn.
    + apply retains_quiet. intros b' [|[|[]]]; discriminate.
    + split; cbn; intros [[=]|[[=]|[]]]. by split.
  - unfold settle. destruct who; cbn; apply retains_quiet; intros b' [|[]]; discriminate.
Qed.

Lemma retains_attempt now c cl attempt e s :
  live_at now (current s) = live_at now c -> retains now c (attempt_exchange settings now cl attempt e s).
Proof.
  intros Hc. unfold attempt_exchange. destruct (num_ltb _ _); [apply retains_quiet; intros b [|[]]; discriminate|].
  by apply retains_fail_call.
Qed.

Lemma retains_start_work now cl s : retains now (current s) (start_work settings now cl s).
Proof.
  unfold start_work, sessionToken. rewrite activeSession_live. cbn zeta.
  assert (live_at now (current (set_current (live_at now (current s)) s)) = live_at now (current s)) as Hc by apply live_at_idem.
  destruct (_ && _); [|by apply retains_attempt]. destruct (live_at now (current s)) as [x|] eqn:El; cbn [truthy].
  - destruct (truthy (ss_token x)); [by apply retains_settle|]. by apply retains_fail_call; rewrite El.
  - by apply retains_fail_call; rewrite El.
Qed.

Lemma retains_exchange_settled now w r s : retains now (current s) (exchange_settled settings now w r s).
Proof.
  unfold exchange_settled. destruct r as [x|e].
  - destruct (closed s); by apply retains_settle.
  - destruct (closed s); [by apply retains_settle|]. destruct (negb (operational e)); [by apply retains_fail_call|].
    destruct (num_ltb _ _); [apply retains_quiet; by intros ? []|]. by apply retains_attempt.
Qed.

Lemma retains_renew now who s : retains now (current s) (renew settings now who s).
Proof.
  unfold renew, sessionToken. rewrite activeSession_live. destruct (truthy _).
  - unfold runSerialized. destruct (closed _); [by apply retains_settle | apply retains_quiet; by intros ? []].
  - apply retains_fail_call, live_at_idem.
Qed.

Lemma retains_authenticate now c who s : who <> RenewLoop -> retains now c (authenticate settings who s).
Proof.
  intros Hw. unfold authenticate, runSerialized. destruct (st_mode settings), (closed s);
    solve [by apply retains_settle | apply retains_quiet; by intros ? []].
Qed.

Lemma take_turn_retains now t s r : take_turn settings now t s = Some r -> retains now (current s) r.
Proof.
  destruct t; cbn [take_turn]; try (intros <-%(inj Some)).
  1,3: by apply retains_authenticate.
  1: apply retains_renew.
  1-3: apply retains_quiet; by intros ? [].
  - destruct (working s); [done|]. destruct (waiting s); [done|]. intros <-%(inj Some). apply (retains_start_work now c (set_waiting l s)).
  - destruct (working s) as [w|]; [|done]. destruct (wk_phase w); [|done]. intros <-%(inj Some). apply retains_exchange_settled.
  - destruct (working s) as [w|]; [|done]. destruct (wk_phase w); [|done]. destruct (closed s); [|done]. intros <-%(inj Some).
    apply retains_exchange_settled.
  - destruct (working s) as [w|]; [|done]. destruct (wk_phase w); [done|]. intros <-%(inj Some). by apply retains_attempt.
  - destruct (renewTask s) as [[]|]; try done. destruct (closed s); intros <-%(inj Some);
      [apply retains_quiet; by intros ? []|]. apply (retains_renew now RenewLoop (set_renewTask _ s)).
  - destruct (renewTask s) as [[]|]; try done. intros <-%(inj Some). unfold loop_resume. destruct outcome as [[]|e|].
    + apply retains_quiet. by intros ? [].
    + destruct (activeSession now s). apply retains_quiet. by intros ? [].
    + destruct (closed s); apply retains_quiet; [by intros ? []|]. intros ? [|[]]. discriminate.
    + apply retains_quiet. by intros ? [].
  - destruct (renewTask s) as [[]|]; try done. intros <-%(inj Some). apply retains_quiet. by intros ? [].
  - destruct (renewTask s) as [[]|]; try done. intros <-%(inj Some). apply retains_quiet. by intros ? [].
  - destruct (renewTask s) as [[]|]; try done. intros <-%(inj Some). apply retains_quiet. by intros ? [].
Qed.

(** C20. How a renewal of the renewal loop ends decides the session: if it throws,
    whatever the reason, the turn that fails it leaves no session behind, so the
    worker stops presenting the token it could not renew; if it returns false,
    the mode is warn and the session stays while it has not expired; if it
    returns true there is a session. *)
Theorem failed_renewal_revokes log granted s now t s' outs outcome :
  reachable log granted s -> take_turn settings now t s = Some (s', outs) ->
  In (Settled RenewLoop outcome) outs ->
  match outcome with
  | Throw _ => current s' = None
  | Ok false => st_mode settings = WARN /\ current s' = live_at now (current s)
  | Ok true => current s' <> None
  | NoFuel => True
  end.
Proof.
  intros [Hs _]%reachable_ok Ht Hin. destruct (take_turn_retains _ _ _ _ Ht) as [H1 H2].
  destruct outcome as [[]|e|]; [by apply H1 | by apply H2 | exact (take_turn_revokes _ _ _ _ _ Hs Ht e Hin) | done].
Qed.

(** ** The queue drains *)

(** Who waits for an exchange, in the order of the queue. *)
Definition pending (s : lifecycle) : list owner :=
  match working s with Some w => [cl_owner (wk_call w)] | None => [] end ++ map cl_owner (waiting s).

Definition settled_owners (outs : list output) : list owner :=
  omap (fun o => match o with Settled who _ => Some who | _ => None end) outs.

Definition sent_count (outs : list output) : Z :=
  zlen (List.filter (fun o => match o with Sent _ _ => true | _ => false end) outs).

(** The turn that moves the queue, when the exchange in flight gets [r]. *)
Definition next_turn (r : reply) (s : lifecycle) : option turn :=
  match working s with
  | Some w => Some (match wk_phase w with Exchanging => ExchangeSettles r | Sleeping _ => RetryWakes end)
  | None => match waiting s with [] => None | _ :: _ => Some QueueRuns end
  end.

(** The queue runs against any replies, at any times. *)
Fixpoint serve (fuel : nat) (replies : nat -> Z * reply) (s : lifecycle) : lifecycle * list output :=
  match fuel with
  | O => (s, [])
  | S fuel =>
      match next_turn (replies fuel).2 s with
      | None => (s, [])
      | Some t =>
          match take_turn settings (replies fuel).1 t s with
          | None => (s, [])
          | Some (s', outs) => let '(s'', outs') := serve fuel replies s' in (s'', outs ++ outs')
          end
      end
  end.

Section Drain.
Context (R : Z) (retries_R : st_retries settings = NInt R) (R_pos : 1 <= R).

(** The turns and the handshakes the queue can still take. *)
Definition turns_left (s : lifecycle) : Z :=
  match working s with
  | Some w => 2 * (R - wk_attempt w) - match wk_phase w with Exchanging => 0 | Sleeping _ => 1 end
  | None => 0
  end + (2 * R + 1) * zlen (waiting s).

Definition sends_left (s : lifecycle) : Z :=
  match working s with Some w => R - wk_attempt w - 1 | None => 0 end + R * zlen (waiting s).

(** A turn that settles [who] and leaves the queue alone. *)
Record settles (who : owner) (s : lifecycle) (r : turn_result) : Prop := {
  ss_working : working (fst r) = working s;
  ss_waiting : waiting (fst r) = waiting s;
  ss_owners : settled_owners (snd r) = [who];
  ss_sent : sent_count (snd r) = 0
}.

Lemma settle_settles who o s : settles who s (settle who o s).
Proof. unfold settle. by destruct who. Qed.

Lemma fail_call_settles now who e b s : settles who s (fail_call settings now who e b s).
Proof.
  unfold fail_call, handleFailure, settle.
  assert (forall c, working (set_current c s) = working s /\ waiting (set_current c s) = waiting s) as Hc by done.
  destruct (b && _); [|destruct (activeSession_cases now s) as [(x & -> & _)| ->]];
    destruct (bool_decide _ && _), who; by split.
Qed.

(** What a turn of the queue does. *)
Definition advances (s : lifecycle) (r : turn_result) : Prop :=
  0 <= turns_left (fst r) < turns_left s /\ pending s = settled_owners (snd r) ++ pending (fst r) /\
  sent_count (snd r) + sends_left (fst r) <= sends_left s.

Lemma zlen_pos {A} (l : list A) : 0 <= R * zlen l.
Proof. pose proof (zlen_nonneg l). nia. Qed.

(** The running call is settled. *)
Lemma settles_advances s w s' r :
  working s = Some w -> attempts_left w -> working s' = None -> waiting s' = waiting s ->
  settles (cl_owner (wk_call w)) s' r -> advances s r.
Proof.
  intros Hw [Ha Hlt] Hw' Hq [E1 E2 E3 E4]. rewrite retries_R in Hlt. apply Z.ltb_lt in Hlt.
  pose proof (zlen_nonneg (waiting s)). unfold advances, turns_left, sends_left, pending.
  rewrite E1, E2, E3, E4, Hw, Hw', Hq. split; [destruct (wk_phase w); nia|]. split; [done | lia].
Qed.

(** The running call goes on to another attempt, or is settled. *)
Lemma attempt_advances now w e s :
  working s = Some w -> attempts_left w -> wk_phase w <> Exchanging \/ wk_attempt w + 1 = R ->
  advances s (attempt_exchange settings now (wk_call w) (wk_attempt w + 1) e s).
Proof.
  intros Hw Hl Hphase. pose proof Hl as [Ha Hlt]. rewrite retries_R in Hlt. apply Z.ltb_lt in Hlt.
  pose proof (zlen_nonneg (waiting s)). unfold attempt_exchange. rewrite retries_R. cbn [num_ltb].
  destruct (Z.ltb_spec (wk_attempt w + 1) R).
  - destruct Hphase as [Hphase|]; [|lia]. unfold advances, turns_left, sends_left, pending. cbn. rewrite Hw.
    unfold sent_count. cbn. destruct (wk_phase w); [done|]. split; [nia|]. split; [done|]. unfold zlen at 1. cbn. lia.
  - eapply (settles_advances s w (set_working None s)); try done. apply fail_call_settles.
Qed.

Lemma exchange_advances now w r s :
  working s = Some w -> attempts_left w -> wk_phase w = Exchanging ->
  advances s (exchange_settled settings now w r s).
Proof.
  intros Hw Hl Hphase. pose proof Hl as [Ha Hlt]. rewrite retries_R in Hlt. apply Z.ltb_lt in Hlt.
  pose proof (zlen_nonneg (waiting s)). unfold exchange_settled.
  destruct r as [x|e]; destruct (closed s); try (by eapply settles_advances; [..|apply settle_settles]).
  destruct (operational e); cbn [negb]; [|by eapply settles_advances; [..|apply fail_call_settles]].
  rewrite retries_R. cbn [num_ltb]. destruct (Z.ltb_spec (wk_attempt w + 1) R).
  - unfold advances, turns_left, sends_left, pending, sent_count. cbn. rewrite Hw, Hphase.
    split; [nia|]. split; [done|]. unfold zlen at 1. cbn. lia.
  - apply attempt_advances; [done | done | right; lia].
Qed.

Lemma start_advances now c rest s :
  working s = None -> waiting s = c :: rest -> advances s (start_work settings now c (set_waiting rest s)).
Proof.
  intros Hw Hq. pose proof (zlen_nonneg rest). pose proof (zlen_pos rest).
  assert (forall s' r, working s' = None -> waiting s' = rest -> settles (cl_owner c) s' r -> advances s r) as Hset.
  { intros s' r Hw' Hq' [E1 E2 E3 E4]. unfold advances, turns_left, sends_left, pending.
    rewrite E1, E2, E3, E4, Hw, Hw', Hq, Hq', zlen_cons. split; [nia|]. split; [done | nia]. }
  unfold start_work.
  assert (exists t s', sessionToken now (set_waiting rest s) = (t, s') /\ working s' = None /\ waiting s' = rest)
    as (t & s' & -> & Hw' & Hq').
  { destruct (sessionToken_cases now (set_waiting rest s)) as [(x & -> & _)| ->]; by eexists _, _. }
  destruct (_ && _).
  - destruct (truthy t); apply (Hset s'); auto using settle_settles, fail_call_settles.
  - unfold attempt_exchange. rewrite retries_R. cbn [num_ltb]. destruct (Z.ltb_spec 0 R); [|lia].
    unfold advances, turns_left, sends_left, pending, sent_count. cbn. rewrite Hw, Hq, Hq', zlen_cons.
    split; [nia|]. split; [done|]. unfold zlen at 1. cbn. nia.
Qed.

(** While someone waits, the queue can move, whatever the reply. *)
Lemma queue_moves granted now r s :
  lifecycle_ok granted s ->
  (next_turn r s = None /\ pending s = [] /\ turns_left s = 0) \/
  exists t res, next_turn r s = Some t /\ take_turn settings now t s = Some res /\ advances s res.
Proof.
  intros H. unfold next_turn. destruct (working s) as [w|] eqn:Hw.
  - right. destruct (lo_working _ _ H w Hw) as [_ Hl]. destruct (wk_phase w) eqn:Hp; eexists _, _;
      (split; [done|]); cbn [take_turn]; rewrite Hw, Hp; (split; [done|]).
    + by apply exchange_advances.
    + apply attempt_advances; [done | done | left; by rewrite Hp].
  - destruct (waiting s) as [|c rest] eqn:Hq.
    + left. unfold pending, turns_left. rewrite Hw, Hq. split; [done|]. split; [done|]. unfold zlen. cbn. lia.
    + right. eexists _, _. split; [done|]. cbn [take_turn]. rewrite Hw, Hq. split; [done|]. by apply start_advances.
Qed.

Lemma settled_owners_app a b : settled_owners (a ++ b) = settled_owners a ++ settled_owners b.
Proof. apply omap_app. Qed.

Lemma sent_count_app a b : sent_count (a ++ b) = sent_count a + sent_count b.
Proof. unfold sent_count. by rewrite List.filter_app, zlen_app. Qed.

Lemma idle_sends s : pending s = [] -> 0 <= sends_left s.
Proof. unfold pending, sends_left. destruct (working s); [done|]. intros _. apply (zlen_pos (waiting s)). Qed.

Lemma serve_drains fuel replies : forall granted s,
  lifecycle_ok granted s -> turns_left s <= Z.of_nat fuel ->
  let r := serve fuel replies s in
  pending (fst r) = [] /\ settled_owners (snd r) = pending s /\ sent_count (snd r) <= sends_left s.
Proof.
  induction fuel as [|fuel IH]; intros granted s Hs Hf.
  - destruct (queue_moves granted 0 (Failed closed_error) s Hs) as [(_ & Hp & _)|(t & res & _ & _ & (? & _))]; [|lia].
    cbn. rewrite Hp. split; [done|]. split; [done | by apply idle_sends].
  - cbn [serve]. destruct (replies fuel) as [now r]. cbn [fst snd].
    destruct (queue_moves granted now r s Hs) as [(-> & Hp & _)|(t & [s' outs] & -> & Ht & Hm & Hpend & Hsend)].
    + rewrite Hp. split; [done|]. split; [done | by apply idle_sends].
    + pose proof (take_turn_ok _ _ _ _ _ Hs Ht) as [Hs' _]. rewrite Ht. cbn [fst snd] in *.
      destruct (IH _ s' Hs' ltac:(lia)) as (E1 & E2 & E3). destruct (serve fuel replies s') as [s'' outs'].
      cbn [fst snd] in *. split; [done|]. rewrite settled_owners_app, sent_count_app, E2, Hpend. split; [done | lia].
Qed.
End Drain.

(** C37. No caller of the lifecycle waits for ever: from any reachable state,
    once each exchange in flight gets some reply and each pause ends, the queue
    settles every call that waits, in the order of the queue, within
    [turns_left] turns, and starts at most [retries] handshakes for each. *)
Theorem queue_drains log granted s R fuel replies :
  reachable log granted s -> st_retries settings = NInt R -> 1 <= R -> turns_left R s <= Z.of_nat fuel ->
  let r := serve fuel replies s in
  pending (fst r) = [] /\ settled_owners (snd r) = pending s /\
  sent_count (snd r) <= sends_left R s <= R * zlen (pending s).
Proof.
  intros [Hs _]%reachable_ok HR Hpos Hf. cbn zeta.
  destruct (serve_drains R HR Hpos fuel replies granted s Hs Hf) as (E1 & E2 & E3).
  split; [done|]. split; [done|]. split; [done|]. unfold sends_left, pending.
  destruct (working s) as [w|] eqn:Hw; cbn; rewrite ?zlen_cons; unfold zlen; rewrite length_map; [|lia].
  destruct (lo_working _ _ Hs w Hw) as [_ [Ha _]]. lia.
Qed.
End Runs.

(** ** Delays *)

Lemma num_min_q a b x y :
  num_q a = Some x -> num_q b = Some y ->
  exists q, num_q (num_min a b) = Some q /\ (q <= x)%Q /\ (q <= y)%Q /\ (q = x \/ q = y).
Proof.
  intros Ha Hb. assert (num_min a b = if num_ltb b a then b else a) as -> by (by destruct a, b).
  destruct (num_ltb b a) eqn:E.
  - apply (num_ltb_q b a y x Hb Ha) in E. exists y. split; [done|]. split; [by apply Qlt_le_weak|].
    split; [apply Qle_refl | by right].
  - exists x. split; [done|]. split; [apply Qle_refl|]. split; [|by left].
    apply Qnot_lt_le. rewrite <- (num_ltb_q b a y x Hb Ha). by rewrite E.
Qed.

Lemma num_max_q a b x y :
  num_q a = Some x -> num_q b = Some y ->
  exists q, num_q (num_max a b) = Some q /\ (x <= q)%Q /\ (y <= q)%Q /\ (q = x \/ q = y).
Proof.
  intros Ha Hb. assert (num_max a b = if num_ltb a b then b else a) as -> by (by destruct a, b).
  destruct (num_ltb a b) eqn:E.
  - apply (num_ltb_q a b x y Ha Hb) in E. exists y. split; [done|]. split; [by apply Qlt_le_weak|].
    split; [apply Qle_refl | by right].
  - exists x. split; [done|]. split; [apply Qle_refl|]. split; [|by left].
    apply Qnot_lt_le. rewrite <- (num_ltb_q a b x y Ha Hb). by rewrite E.
Qed.

(** Nine tenths of a lifetime end before it. *)
Lemma nine_tenths_before L :
  2 <= L < 2 ^ 52 -> exists q, num_q (num_mul (NInt L) nine_tenths) = Some q /\ (q < inject_Z L)%Q.
Proof.
  intros HL. destruct (Z.le_gt_cases L 10) as [Hs|Hb].
  - assert (exists k, (k < 9)%nat /\ L = 2 + Z.of_nat k) as (k & Hk & ->) by (exists (Z.to_nat (L - 2)); lia).
    do 9 (destruct k as [|k]; [eexists; split; [reflexivity | by vm_compute]|]). lia.
  - change (num_mul (NInt L) nine_tenths) with (number_of_ratio (L * 8106479329266893) (1 * 2 ^ 53)).
    destruct (number_of_ratio_le (L * 8106479329266893) (1 * 2 ^ 53) (L - 1)) as (q & Hq & _ & Hle); [lia | lia | lia|].
    exists q. split; [done|]. eapply Qle_lt_trans; [exact Hle|]. rewrite <- Zlt_Qlt. lia.
Qed.

(** The renewal of a session with at least two milliseconds to live is
    scheduled before the session expires. *)
Lemma renewalDelayMs_before_expiry session now expires minimum :
  ss_expiresAt session = Some expires -> 2 <= expires - now < 2 ^ 52 -> bounded 60000 minimum ->
  exists q, num_q (renewalDelayMs session now minimum) = Some q /\ (0 < q)%Q /\ (q < inject_Z (expires - now))%Q.
Proof.
  intros He HL (m & Hm & Hm0 & _). unfold renewalDelayMs. rewrite He. cbn [getTime].
  set (L := expires - now) in *.
  assert (num_max (NInt 0) (num_sub (NInt expires) (NInt now)) = NInt L) as ->.
  { unfold num_sub. cbn [num_neg num_add]. replace (expires + - now) with L by (unfold L; lia).
    rewrite number_of_Z_small by lia. cbn [num_max num_ltb]. destruct (Z.ltb_spec 0 L); [done | lia]. }
  destruct (number_of_ratio_le L 2 L) as (h & Hh & _ & _); [lia | lia | lia|].
  assert (exists y, num_q (num_max (NInt 0) (num_sub (NInt L) (NInt 60000))) = Some y) as (y & Hy).
  { unfold num_sub. cbn [num_neg num_add]. rewrite number_of_Z_small by lia. cbn [num_max].
    destruct (num_ltb _ _); by eexists. }
  destruct (num_min_q _ _ h y Hh Hy) as (target & Ht & _).
  destruct (num_max_q _ _ m target Hm Ht) as (lo & Hlo & Hlo' & _).
  destruct (nine_tenths_before L HL) as (n & Hn & HnL).
  destruct (num_max_q (NInt 1) _ _ n eq_refl Hn) as (hi & Hhi & Hhi1 & _ & Hhi').
  destruct (num_min_q _ _ lo hi Hlo Hhi) as (q & Hq & _ & Hqhi & Hor).
  assert (hi < inject_Z L)%Q as HhiL.
  { destruct Hhi' as [-> | ->]; [|done]. rewrite <- Zlt_Qlt. lia. }
  exists q. split; [exact Hq|]. split; [|by eapply Qle_lt_trans].
  destruct Hor as [-> | ->]; [by eapply Qlt_le_trans|].
  eapply Qlt_le_trans; [|exact Hhi1]. done.
Qed.

(** ** Samples *)

Section Samples.
Context (K : key_api) (config : WorkerTrustConfig K).

Definition warn_settings : RuntimeTrustSettings K := {|
  st_mode := WARN; st_config := Some config; st_timeoutMs := NInt 10000; st_retries := NInt 3;
  st_renewMinIntervalMs := NInt 30000 |}.

Definition sample_session (token : string) (expires : Z) : WorkerHandshakeSession :=
  {| ss_token := JStr (js token); ss_issuedAt := Some 0; ss_expiresAt := Some expires |}.

(** The outputs of a sequence of turns; [None] if one is not enabled. *)
Fixpoint play (turns : list (Z * turn)) (s : lifecycle) : option (lifecycle * list (list output)) :=
  match turns with
  | [] => Some (s, [])
  | (now, t) :: rest =>
      match take_turn warn_settings now t s with
      | None => None
      | Some (s', outs) => match play rest s' with None => None | Some (s'', os) => Some (s'', outs :: os) end
      end
  end.

Lemma play_reachable turns : forall log granted s s' os,
  reachable warn_settings log granted s -> play turns s = Some (s', os) ->
  reachable warn_settings (log ++ concat os) (granted ++ concat (map (fun nt => grants nt.2) turns)) s'.
Proof.
  induction turns as [|[now t] rest IH]; intros log granted s s' os Hr Hp; cbn in Hp.
  - injection Hp as <- <-. cbn. by rewrite !app_nil_r.
  - destruct (take_turn _ now t s) as [[s1 outs]|] eqn:Ht; [|done].
    destruct (play rest s1) as [[s2 os']|] eqn:Hp'; [|done]. injection Hp as <- <-. cbn.
    rewrite !(assoc_L (++)). eapply IH; [|done]. by eapply reach_turn.
Qed.

(** A call that waits when the object is closed still starts a handshake when
    the queue reaches it; the close signal then fails it. *)
Example handshake_after_close :
  option_map snd (play [(0, Authenticate 1); (0, Close); (0, QueueRuns); (0, CloseSignal)] new_lifecycle)
  = Some [[]; []; [Sent 1 (JStr [])]; [Settled (Caller 1) (Throw closed_error)]].
Proof. vm_compute. reflexivity. Qed.

(** The renewal timer may fire while a re-authentication is under way: the loop
    reports a failure to renew though no exchange failed, and the worker is
    told to stop. *)
Example renewal_during_reauthentication :
  option_map snd (play
    [(0, Authenticate 1); (0, QueueRuns); (10, ExchangeSettles (Granted (sample_session "t1" 600000)));
     (10, StartRenewal); (300010, Reauthenticate 2); (300010, QueueRuns); (300020, RenewWakes);
     (300020, LoopResumes); (300030, ExchangeSettles (Granted (sample_session "t2" 900000)))] new_lifecycle)
  = Some [[]; [Sent 1 (JStr [])]; [Settled (Caller 1) (Ok true)]; []; []; [Sent 1 (JStr [])];
          [Settled RenewLoop (Throw trust_failed_error)]; [Reported trust_failed_error];
          [Settled (Caller 2) (Ok true)]].
Proof. vm_compute. reflexivity. Qed.
End Samples.
