(* ===== verification/RuntimeWorkerTrust.v ===== *)
(** * Worker trust in the runtime

    src/sdk/node/src/runtime-worker-trust.ts: [RuntimeWorkerTrust], which ties
    the settings, the session lifecycle and the pinned scheduler keys together
    and decides whether the agent admits an inbound packet.  Methods that await
    the lifecycle are two turns: the call, and the continuation when the
    promise of the lifecycle is settled. *)

From S2P Require Import Prelude JsString JsValue WireSchema ProductionSigning Validate Codec PacketBoundary WorkerTrustContract WorkerTrustFlow RuntimeTrustConfig WorkerTrustLifecycle.

Definition COMPONENT_ROLE_WORKER : Z := 3.
Definition SDK_VERSION : jsstr := js "cap-node/v2".

Definition workerCapability (senderId : jsstr) (topics : list jsstr) (sdkVersion : jsval) : jsval :=
  JPlain [
    (js "componentId", JStr senderId);
    (js "role", JNum (NInt COMPONENT_ROLE_WORKER));
    (js "capabilities", JPlain []);
    (js "readyTopics", JArr (map JStr (sort_keys topics)));
    (js "supportedVersions", JArr [JNum (NInt 1)]);
    (js "sdkVersion", sdkVersion);
    (js "agentName", JStr senderId)].

Section Trust.
Context {K : key_api}.

(** [key.export({ type: "spki", format: "pem" })] *)
Definition export_key (key : key_like K) : result jsstr :=
  match as_key_object K key with
  | Some k => Ok (ko_export K k)
  | None => throw TypeError (js "key.export is not a function")
  end.

Fixpoint export_pins (schedulerId : jsstr) (keys : list (jsstr * key_like K))
    : result (list (list (jsstr * jsval))) :=
  match keys with
  | [] => Ok []
  | (_, key) :: rest =>
      let! pem := export_key key in
      let! pins := export_pins schedulerId rest in
      Ok ([(schedulerId, JStr pem)] :: pins)
  end.

Definition pinnedSchedulerMaps (settings : RuntimeTrustSettings K) : result (list (list (jsstr * jsval))) :=
  match st_config settings with
  | None => Ok []
  | Some config => export_pins (property_key (expectedSchedulerId config)) (enumerate (scheduler_keys config))
  end.

Record RuntimeWorkerTrust : Type := {
  rw_settings : RuntimeTrustSettings K;
  rw_capability : jsval;
  rw_pins : list (list (jsstr * jsval));
  rw_lifecycle : option lifecycle;
  rw_admitting : bool;
  (** Settled promises of the lifecycle whose continuation has not run. *)
  rw_settled : list (result bool)
}.

Definition new_trust (options : RuntimeTrustOptions K) (senderId : jsstr) (topics : list jsstr)
    (environmentMode : jsstr) : result RuntimeWorkerTrust :=
  let! settings := resolveRuntimeTrustSettings K options senderId environmentMode in
  let sdkVersion := match st_config settings with
                    | Some config => coalesce (sdkVersion config) (JStr SDK_VERSION)
                    | None => JStr SDK_VERSION
                    end in
  let! pins := pinnedSchedulerMaps settings in
  Ok {| rw_settings := settings; rw_capability := workerCapability senderId topics sdkVersion;
        rw_pins := pins; rw_lifecycle := None; rw_admitting := false; rw_settled := [] |}.

Definition set_lifecycle (l : option lifecycle) (st : RuntimeWorkerTrust) : RuntimeWorkerTrust :=
  {| rw_settings := rw_settings st; rw_capability := rw_capability st; rw_pins := rw_pins st;
     rw_lifecycle := l; rw_admitting := rw_admitting st; rw_settled := rw_settled st |}.

Definition set_admitting (b : bool) (st : RuntimeWorkerTrust) : RuntimeWorkerTrust :=
  {| rw_settings := rw_settings st; rw_capability := rw_capability st; rw_pins := rw_pins st;
     rw_lifecycle := rw_lifecycle st; rw_admitting := b; rw_settled := rw_settled st |}.

Definition set_settled (q : list (result bool)) (st : RuntimeWorkerTrust) : RuntimeWorkerTrust :=
  {| rw_settings := rw_settings st; rw_capability := rw_capability st; rw_pins := rw_pins st;
     rw_lifecycle := rw_lifecycle st; rw_admitting := rw_admitting st; rw_settled := q |}.

Definition enabled (st : RuntimeWorkerTrust) : bool := negb (bool_decide (st_mode (rw_settings st) = OFF)).
Definition enforcing (st : RuntimeWorkerTrust) : bool := bool_decide (st_mode (rw_settings st) = ENFORCE).

Definition trust_sessionToken (now : Z) (st : RuntimeWorkerTrust) : jsval * RuntimeWorkerTrust :=
  match rw_lifecycle st with
  | None => (JUndef, st)
  | Some l => let '(token, l') := sessionToken now l in (token, set_lifecycle (Some l') st)
  end.

Definition productionSessionActive (now : Z) (st : RuntimeWorkerTrust) : bool * RuntimeWorkerTrust :=
  if rw_admitting st && enforcing st then
    let '(token, st') := trust_sessionToken now st in (truthy token, st')
  else (false, st).

Definition outboundSessionToken (now : Z) (st : RuntimeWorkerTrust) : result jsval * RuntimeWorkerTrust :=
  let '(token, st') := trust_sessionToken now st in
  if enforcing st && negb (truthy token)
  then (throw PlainError (js "authenticated worker session is unavailable"), st')
  else (Ok (coalesce token (JStr [])), st').

(** The promises of this object's callers that a turn of the lifecycle
    settles. *)
Definition caller_outcomes (outs : list output) : list (result bool) :=
  omap (fun o => match o with Settled (Caller _) outcome => Some outcome | _ => None end) outs.

(** A turn of the lifecycle, seen from this object. *)
Definition lifecycle_turn (r : turn_result) (st : RuntimeWorkerTrust) : RuntimeWorkerTrust :=
  set_settled (rw_settled st ++ caller_outcomes (snd r)) (set_lifecycle (Some (fst r)) st).

(** [authenticate] up to its [await]. *)
Definition trust_authenticate (st : RuntimeWorkerTrust) : result unit * RuntimeWorkerTrust :=
  if negb (enabled st) then (Ok tt, set_admitting true st)
  else match st_config (rw_settings st) with
  | None => (throw PlainError (js "worker trust configuration is required"), st)
  | Some _ => (Ok tt, lifecycle_turn (authenticate (rw_settings st) (Caller 0) new_lifecycle) st)
  end.

(** [reauthenticate] up to its [await]. *)
Definition trust_reauthenticate (st : RuntimeWorkerTrust) : RuntimeWorkerTrust :=
  if negb (enabled st) then set_admitting true st
  else
    let st := set_admitting false st in
    match rw_lifecycle st with
    | None => st
    | Some l => lifecycle_turn (reauthenticate (rw_settings st) (Caller 0) l) st
    end.

(** Both continue with [this.admitting = true], unless the promise was
    rejected. *)
Definition trust_resume (outcome : result bool) (st : RuntimeWorkerTrust) : RuntimeWorkerTrust :=
  match outcome with Ok _ => set_admitting true st | _ => st end.

Definition trust_startRenewal (now : Z) (st : RuntimeWorkerTrust) : RuntimeWorkerTrust :=
  match rw_lifecycle st with
  | None => st
  | Some l => set_lifecycle (Some (startRenewal (rw_settings st) now l)) st
  end.

Definition stopAdmission (st : RuntimeWorkerTrust) : RuntimeWorkerTrust := set_admitting false st.

Definition trust_close (st : RuntimeWorkerTrust) : RuntimeWorkerTrust :=
  let st := set_admitting false st in
  match rw_lifecycle st with
  | None => st
  | Some l => set_lifecycle (Some (lc_close l)) st
  end.

Context (C : crypto) (packetType : codec_type).

(** The loop over the pinned keys; a rejection tries the next one. *)
Fixpoint verify_pins (packet : jsval) (pins : list (list (jsstr * jsval))) : bool * jsval :=
  match pins with
  | [] => (false, packet)
  | pin :: rest =>
      match verifyInboundPacket C packetType packet (Some pin) with
      | (Ok _, packet) => (true, packet)
      | (_, packet) => verify_pins packet rest
      end
  end.

Definition verifyInbound (now : Z) (packet : jsval) (legacyKeys : option (list (jsstr * jsval)))
    (st : RuntimeWorkerTrust) : result bool * jsval * RuntimeWorkerTrust :=
  if negb (rw_admitting st) then (Ok false, packet, st)
  else
    let '(token, st') := if enforcing st then trust_sessionToken now st else (JBool true, st) in
    if enforcing st && negb (truthy token) then (Ok false, packet, st')
    else if negb (enabled st') then
      let '(r, packet') := verifyInboundPacket C packetType packet legacyKeys in
      (do! r ;; Ok true, packet', st')
    else let '(ok, packet') := verify_pins packet (rw_pins st') in (Ok ok, packet', st').
End Trust.

Arguments RuntimeWorkerTrust K : clear implicits.

(** ** Reachable states *)

(** The turns of the lifecycle that this object does not call. *)
Definition internal (t : turn) : bool :=
  match t with
  | QueueRuns | ExchangeSettles _ | CloseSignal | RetryWakes | RenewWakes | LoopResumes | PauseWakes
  | ReportSettles | LoopClears => true
  | _ => false
  end.

Section Reachable.
Context {K : key_api}.

(** The agent creates the object, authenticates once, and then calls any
    method in any order, while the lifecycle takes its turns. *)
Inductive trust_step (now : Z) (st : RuntimeWorkerTrust K) : RuntimeWorkerTrust K -> Prop :=
| step_authenticate : rw_lifecycle st = None -> trust_step now st (trust_authenticate st).2
| step_reauthenticate : trust_step now st (trust_reauthenticate st)
| step_resume o rest : rw_settled st = o :: rest -> trust_step now st (trust_resume o (set_settled rest st))
| step_startRenewal : trust_step now st (trust_startRenewal now st)
| step_stop : trust_step now st (stopAdmission st)
| step_close : trust_step now st (trust_close st)
| step_token : trust_step now st (trust_sessionToken now st).2
| step_lifecycle l t r :
    rw_lifecycle st = Some l -> internal t = true -> take_turn (rw_settings st) now t l = Some r ->
    trust_step now st (lifecycle_turn r st).

Inductive trust_reachable (st0 : RuntimeWorkerTrust K) : RuntimeWorkerTrust K -> Prop :=
| trust_new : trust_reachable st0 st0
| trust_next now st st' : trust_reachable st0 st -> trust_step now st st' -> trust_reachable st0 st'.

(** What holds of the object: its settings and pins never change; without a
    lifecycle it admits only with worker trust off; its lifecycle is reachable. *)
Record trust_ok (st0 st : RuntimeWorkerTrust K) : Prop := {
  to_settings : rw_settings st = rw_settings st0;
  to_pins : rw_pins st = rw_pins st0;
  to_lifecycle : match rw_lifecycle st with
                 | None => rw_settled st = [] /\ (rw_admitting st = true -> st_mode (rw_settings st0) = OFF)
                 | Some l => st_mode (rw_settings st0) <> OFF /\
                             exists log granted, reachable (rw_settings st0) log granted l
                 end
}.

Lemma enabled_iff (st : RuntimeWorkerTrust K) : enabled st = true <-> st_mode (rw_settings st) <> OFF.
Proof. unfold enabled. rewrite negb_true_iff, bool_decide_eq_false. done. Qed.

Lemma reach_call settings log granted l now t r :
  reachable (K:=K) settings log granted l -> take_turn settings now t l = Some r ->
  exists log' granted', reachable settings log' granted' (fst r).
Proof. intros H Ht. destruct r as [l' outs]. eexists _, _. by eapply reach_turn. Qed.

Lemma step_ok st0 now st st' : trust_ok st0 st -> trust_step now st st' -> trust_ok st0 st'.
Proof.
  intros [Hs Hp Hl]. destruct 1 as [Hn| |o rest Hq| | | | |l t r Hlc Hi Ht].
  - unfold trust_authenticate. destruct (enabled st) eqn:He; cbn [negb].
    + apply enabled_iff in He. destruct (st_config _); [|by split]. split; [done | done|].
      cbn. rewrite Hs in *. split; [done|]. exact (reach_call _ [] [] new_lifecycle 0 (Authenticate 0) _ (reach_new _) eq_refl).
    + split; [done | done|]. cbn. rewrite Hn in *. destruct Hl as [? _]. split; [done|]. intros _.
      rewrite <- Hs. apply dec_stable. intros Hm. apply enabled_iff in Hm. congruence.
  - unfold trust_reauthenticate. destruct (enabled st) eqn:He; cbn [negb].
    + cbn. destruct (rw_lifecycle st) as [l|] eqn:E; [|split; [done | done|]; cbn; rewrite E; naive_solver].
      destruct Hl as (Hm & log & granted & Hr). split; [done | done|]. cbn. split; [done|].
      rewrite Hs. exact (reach_call _ _ _ _ 0 (Reauthenticate 0) _ Hr eq_refl).
    + split; [done | done|]. cbn. destruct (rw_lifecycle st); [done|]. destruct Hl as [? _]. split; [done|]. intros _.
      rewrite <- Hs. apply dec_stable. intros Hm. apply enabled_iff in Hm. congruence.
  - destruct (rw_lifecycle st) as [l|] eqn:E; [|by destruct Hl as [Hl _]; rewrite Hq in Hl].
    unfold trust_resume. destruct o; (split; [done | done|]); cbn; by rewrite E.
  - unfold trust_startRenewal. destruct (rw_lifecycle st) as [l|] eqn:E; [|split; [done | done|]; by rewrite E].
    destruct Hl as (Hm & log & granted & Hr). split; [done | done|]. cbn. split; [done|]. rewrite Hs.
    exact (reach_call _ _ _ _ now StartRenewal _ Hr eq_refl).
  - unfold stopAdmission. split; [done | done|]. cbn. destruct (rw_lifecycle st); naive_solver.
  - unfold trust_close. cbn. destruct (rw_lifecycle st) as [l|] eqn:E; [|split; [done|done|]; cbn; rewrite E; naive_solver].
    destruct Hl as (Hm & log & granted & Hr). split; [done | done|]. cbn. split; [done|].
    exact (reach_call _ _ _ _ now Close _ Hr eq_refl).
  - unfold trust_sessionToken. destruct (rw_lifecycle st) as [l|] eqn:E; [|split; [done | done|]; cbn; by rewrite E].
    destruct Hl as (Hm & log & granted & Hr).
    destruct (reach_call _ _ _ _ now ReadToken _ Hr eq_refl) as (log' & granted' & Hr'). cbn in Hr'.
    destruct (sessionToken now l) as [tk l']. split; [done | done|]. cbn. eauto.
  - rewrite Hlc in Hl. destruct Hl as (Hm & log & granted & Hr). split; [done | done|]. cbn. split; [done|].
    rewrite Hs in Ht. by eapply reach_call.
Qed.

Lemma trust_reachable_ok options senderId topics env st0 st :
  new_trust options senderId topics env = Ok st0 -> trust_reachable st0 st -> trust_ok st0 st.
Proof.
  intros Hnew. induction 1 as [|now st st' _ IH Hstep]; [|by eapply step_ok].
  unfold new_trust in Hnew. apply bind_Ok_iff in Hnew as (s & _ & H). cbn zeta in H.
  apply bind_Ok_iff in H as (pins & _ & [= <-]). by split.
Qed.
End Reachable.

(** ** Admission *)

Section Admission.
Context {K : key_api} (C : crypto) (packetType : codec_type).

(** A decoded message: protobufjs gives it a [$type]. *)
Definition decoded_message (p : jsval) : Prop := is_object p = true /\ truthy (get p "$type") = true.

Lemma verifyInboundPacket_same p keys :
  decoded_message p -> (verifyInboundPacket C packetType p keys).2 = p.
Proof.
  intros [Ho Ht]. unfold verifyInboundPacket. destruct (negb _); [done|]. destruct keys as [keys|]; [|done].
  destruct (let! senderId := _ in _) as [[pem sig]|e|]; [|done|done]. unfold verifySignature.
  destruct (requireP256PublicKey C pem); [|done|done]. unfold encodeUnsignedForSignature. by rewrite Ho, Ht.
Qed.

Lemma verify_pins_iff p pins :
  decoded_message p ->
  (verify_pins C packetType p pins).1 = true <->
  exists pin, In pin pins /\ valid_packet p /\ authenticated C packetType p pin.
Proof.
  intros Hd. induction pins as [|pin rest IH]; [split; [done | by intros (? & [] & _)]|].
  cbn [verify_pins]. pose proof (verifyInbound_iff C packetType p pin) as Hi.
  pose proof (verifyInboundPacket_same p (Some pin) Hd) as Hsame.
  destruct (verifyInboundPacket C packetType p (Some pin)) as [r p']. cbn in Hi, Hsame. subst p'.
  destruct r as [[]|e|].
  - split; [|done]. intros _. exists pin. split; [by left|]. by apply Hi.
  - rewrite IH. split; [intros (x & ? & ?); exists x; split; [by right | done]|].
    intros (x & [-> | Hx] & Hv); [by apply Hi in Hv | by exists x].
  - rewrite IH. split; [intros (x & ? & ?); exists x; split; [by right | done]|].
    intros (x & [-> | Hx] & Hv); [by apply Hi in Hv | by exists x].
Qed.

Lemma verify_pins_same p pins : decoded_message p -> (verify_pins C packetType p pins).2 = p.
Proof.
  intros Hd. induction pins as [|pin rest IH]; [done|]. cbn [verify_pins].
  pose proof (verifyInboundPacket_same p (Some pin) Hd) as Hs.
  destruct (verifyInboundPacket C packetType p (Some pin)) as [r p']. cbn in Hs. subst p'. by destruct r.
Qed.

(** Admission leaves a decoded packet as it is. *)
Lemma verifyInbound_same now p keys (st : RuntimeWorkerTrust K) :
  decoded_message p -> (verifyInbound C packetType now p keys st).1.2 = p.
Proof.
  intros Hd. unfold verifyInbound. destruct (negb _); [done|]. destruct (if enforcing st then _ else _) as [token st'].
  destruct (_ && _); [done|]. destruct (negb _).
  - pose proof (verifyInboundPacket_same p keys Hd). by destruct (verifyInboundPacket C packetType p keys).
  - pose proof (verify_pins_same p (rw_pins st') Hd). by destruct (verify_pins C packetType p (rw_pins st')).
Qed.

(** The pin of a scheduler key: the scheduler's id with the exported key. *)
Definition pins_key (config : WorkerTrustConfig K) (pin : list (jsstr * jsval)) : Prop :=
  exists id key k, In (id, key) (scheduler_keys config) /\ as_key_object K key = Some k /\
    pin = [(property_key (expectedSchedulerId config), JStr (ko_export K k))].

Lemma export_pins_sound sid (keys : list (jsstr * key_like K)) pins pin :
  export_pins sid keys = Ok pins -> In pin pins ->
  exists id key k, In (id, key) keys /\ as_key_object K key = Some k /\ pin = [(sid, JStr (ko_export K k))].
Proof.
  revert pins. induction keys as [|[id key] rest IH]; intros pins H Hin; cbn in H; [by injection H as <-|].
  apply bind_Ok_iff in H as (pem & Hpem & H). apply bind_Ok_iff in H as (pins' & Hpins & [= <-]).
  destruct Hin as [<-|Hin].
  - unfold export_key in Hpem. destruct (as_key_object K key) as [k|] eqn:Ek; [|done]. injection Hpem as <-.
    exists id, key, k. split; [by left|]. done.
  - destruct (IH _ Hpins Hin) as (id' & key' & k & Hi & ?). exists id', key', k. split; [by right | done].
Qed.

Lemma new_trust_pins options senderId topics env (st0 : RuntimeWorkerTrust K) pin :
  new_trust options senderId topics env = Ok st0 -> In pin (rw_pins st0) ->
  exists config, st_config (rw_settings st0) = Some config /\ pins_key config pin.
Proof.
  unfold new_trust. intros H Hin. apply bind_Ok_iff in H as (s & _ & H). cbn zeta in H.
  apply bind_Ok_iff in H as (pins & Hp & [= <-]). cbn in *. unfold pinnedSchedulerMaps in Hp.
  destruct (st_config s) as [config|]; [|by injection Hp as <-]. exists config. split; [done|].
  destruct (export_pins_sound _ _ _ _ Hp Hin) as (id & key & k & Hi & H). exists id, key, k. split; [|done].
  apply list_elem_of_In. apply list_elem_of_In in Hi. by rewrite enumerate_perm in Hi.
Qed.

(** Reading the token: a live token is one of a granted session. *)
Lemma live_session_token (st0 st : RuntimeWorkerTrust K) now :
  trust_ok st0 st ->
  let '(token, st') := trust_sessionToken now st in
  rw_settings st' = rw_settings st /\ rw_pins st' = rw_pins st /\
  (truthy token = true ->
   exists l log granted x ms, rw_lifecycle st = Some l /\ reachable (rw_settings st0) log granted l /\
     closed l = false /\ In x granted /\ truthy (ss_token x) = true /\ ss_expiresAt x = Some ms /\ now < ms).
Proof.
  intros [Hs _ Hl]. unfold trust_sessionToken. destruct (rw_lifecycle st) as [l|]; [|done].
  destruct Hl as (_ & log & granted & Hr). pose proof (live_token _ _ _ _ Hr now) as Ht.
  destruct (sessionToken now l) as [token l']. cbn in Ht. split; [done|]. split; [done|]. intros Htok.
  destruct (Ht Htok) as (Hc & x & ms & Hin & -> & He & Hlt). exists l, log, granted, x, ms. done.
Qed.

(** A live session: granted by an exchange of this object's lifecycle, and not
    expired. *)
Definition live_session (st0 st : RuntimeWorkerTrust K) (now : Z) : Prop :=
  exists l log granted x ms, rw_lifecycle st = Some l /\ reachable (rw_settings st0) log granted l /\
    closed l = false /\ In x granted /\ truthy (ss_token x) = true /\ ss_expiresAt x = Some ms /\ now < ms.

(** Why a packet is admitted: with worker trust off, the caller's key map
    accepts it; else it is valid and signed with a pinned key of the scheduler
    and, under enforce, the worker has a live session. *)
Definition inbound_admitted (st0 st : RuntimeWorkerTrust K) (now : Z) (packet : jsval)
    (legacyKeys : option (list (jsstr * jsval))) : Prop :=
  (st_mode (rw_settings st0) = OFF /\ (verifyInboundPacket C packetType packet legacyKeys).1 = Ok tt) \/
  (st_mode (rw_settings st0) <> OFF /\ valid_packet packet /\
   (exists config pin, st_config (rw_settings st0) = Some config /\ pins_key config pin /\
                       authenticated C packetType packet pin) /\
   (st_mode (rw_settings st0) = ENFORCE -> live_session st0 st now)).

Lemma verifyInbound_admission options senderId topics env (st0 st : RuntimeWorkerTrust K) now packet legacyKeys :
  new_trust options senderId topics env = Ok st0 -> trust_reachable st0 st -> decoded_message packet ->
  (verifyInbound C packetType now packet legacyKeys st).1.1 = Ok true -> inbound_admitted st0 st now packet legacyKeys.
Proof.
  intros Hnew Hr Hd. pose proof (trust_reachable_ok _ _ _ _ _ _ Hnew Hr) as Hok.
  pose proof (live_session_token st0 st now Hok) as Hlive. destruct Hok as [Hs Hp _].
  unfold inbound_admitted, live_session, verifyInbound. destruct (rw_admitting st) eqn:Ha; [cbn [negb]|done].
  unfold enforcing in *. rewrite Hs in *.
  destruct (trust_sessionToken now st) as [token st1] eqn:Et. destruct Hlive as (Hs1 & Hp1 & Hlive).
  assert (forall tk st', (tk, st') = (if bool_decide (st_mode (rw_settings st0) = ENFORCE) then (token, st1) else (JBool true, st)) ->
    rw_settings st' = rw_settings st0 /\ rw_pins st' = rw_pins st0 /\
    (st_mode (rw_settings st0) = ENFORCE -> tk = token)) as Hst.
  { intros tk st'. case_bool_decide; intros [= -> ->]; repeat split; congruence. }
  destruct (if bool_decide _ then _ else _) as [tk st'] eqn:E. destruct (Hst tk st' eq_refl) as (Hs' & Hp' & Htk).
  destruct (bool_decide (st_mode (rw_settings st0) = ENFORCE) && negb (truthy tk)) eqn:Eg; [done|].
  unfold enabled. rewrite Hs'. destruct (bool_decide_reflect (st_mode (rw_settings st0) = OFF)) as [Hoff|Hon]; cbn [negb].
  - destruct (verifyInboundPacket C packetType packet legacyKeys) as [r p'] eqn:Ev. cbn [fst].
    intros H. left. split; [done|]. apply do_Ok_iff in H as [-> _]. done.
  - pose proof (verify_pins_iff packet (rw_pins st') Hd) as Hv.
    destruct (verify_pins C packetType packet (rw_pins st')) as [ok p']. cbn [fst] in *. intros [= ->].
    destruct (proj1 Hv eq_refl) as (pin & Hin & Hval & Hauth). right. split; [done|]. split; [done|]. split.
    + rewrite Hp' in Hin. destruct (new_trust_pins _ _ _ _ _ _ Hnew Hin) as (config & ? & ?). eauto.
    + intros He. rewrite Htk in Eg by done. rewrite (bool_decide_eq_true_2 _ He) in Eg.
      apply negb_false_iff in Eg. by apply Hlive.
Qed.

(** Production admission asks for enforce mode and a live session. *)
Lemma production_session options senderId topics env (st0 st : RuntimeWorkerTrust K) now :
  new_trust options senderId topics env = Ok st0 -> trust_reachable st0 st ->
  (productionSessionActive now st).1 = true -> st_mode (rw_settings st0) = ENFORCE /\ live_session st0 st now.
Proof.
  intros Hnew Hr. pose proof (trust_reachable_ok _ _ _ _ _ _ Hnew Hr) as Hok.
  pose proof (live_session_token st0 st now Hok) as Hlive. destruct Hok as [Hs _ _].
  unfold productionSessionActive, enforcing. rewrite Hs. destruct (rw_admitting st); [|done].
  case_bool_decide as He; [|done]. cbn [andb]. destruct (trust_sessionToken now st) as [token st'].
  destruct Hlive as (_ & _ & Hlive). intros Ht. split; [done | by apply Hlive].
Qed.

(** With worker trust on, a decoded packet is admitted only from the pinned
    scheduler: it is valid and its signature verifies with one of the
    configured scheduler keys, under the scheduler's id.  Under enforce the
    worker also holds a session then, granted by an exchange and not expired.
    With worker trust off the caller's key map decides. *)
Theorem verifyInbound_admits options senderId topics env (st0 st : RuntimeWorkerTrust K) now packet legacyKeys :
  new_trust options senderId topics env = Ok st0 -> trust_reachable st0 st -> decoded_message packet ->
  (verifyInbound C packetType now packet legacyKeys st).1.1 = Ok true -> inbound_admitted st0 st now packet legacyKeys.
Proof. apply verifyInbound_admission. Qed.
End Admission.
