(* ===== verification/ProductionAdmission.v ===== *)
(** * Production admission

    src/sdk/node/src/runtime.ts: how [Agent] admits a raw production packet.
    The exact bytes are verified, then the envelope, the identity binding and
    at last replay, before any handler runs. *)

From S2P Require Import Prelude JsString JsValue Varint ProductionWire WireSchema ProductionSigning Validate ProductionIdentity ProductionReplay WorkerTrustContract.

(** The keys are copied, so that a later change of the caller's object has no
    effect; the copy has the same own properties. *)
Definition snapshotProductionTrust (trust : option trust_store) : option trust_store :=
  match trust with
  | None => None
  | Some t => Some {| audience := audience t; publicKeys := publicKeys t; tenant := tenant t;
                      sender := sender t; maxLifetimeMs := maxLifetimeMs t;
                      clockSkewMs := clockSkewMs t; nowMs := nowMs t |}
  end.

Definition replayErrorCategory (error : exn) : jsstr :=
  match exn_class error with
  | ReplayConflictError => js "replay conflict"
  | ReplayStoreUnavailableError => js "replay store unavailable"
  | _ => js "replay store unavailable"
  end.

Definition with_authority (t : trust_store) (aud ten snd : jsval) : trust_store :=
  {| audience := aud; publicKeys := publicKeys t; tenant := ten; sender := snd;
     maxLifetimeMs := maxLifetimeMs t; clockSkewMs := clockSkewMs t; nowMs := nowMs t |}.

(** [productionTrust] with another audience, bound to the tenant and the
    scheduler of the worker's session. *)
Definition productionTrustForAudience {K : key_api} (productionTrust : trust_store)
    (config : option (WorkerTrustConfig K)) (aud : jsval) : result trust_store :=
  let trust := with_authority productionTrust aud (tenant productionTrust) (sender productionTrust) in
  match config with
  | None => Ok trust
  | Some authority =>
      do! throw_if (existsb (fun v => negb (authority_value v)) [audience trust; tenant trust; sender trust])
            ProductionWireError (js "production trust authority required") ;;
      do! throw_if (negb (strict_eq (tenant trust) (tenantId authority)))
            ProductionWireError (js "production tenant conflicts with session") ;;
      do! throw_if (negb (strict_eq (sender trust) (expectedSchedulerId authority)))
            ProductionWireError (js "production sender conflicts with session") ;;
      Ok (with_authority trust (audience trust) (tenantId authority) (expectedSchedulerId authority))
  end.

Definition text_of (v : jsval) : jsstr := match v with JStr s => s | _ => [] end.

(** [seconds * 1000 + Math.floor(nanos / 1e6) + (trust.clockSkewMs ?? 0)] *)
Definition replay_expiry (metadata : jsval) (trust : trust_store) : jsnum :=
  let ts := get metadata "expiresAt" in
  num_add (num_add (num_scale (wire_number (get ts "seconds")) 1000)
                   (num_floor (num_div (wire_number (get ts "nanos")) 1000000)))
          (default (NInt 0) (clockSkewMs trust)).

(** What [admit] is called with.  Verification has shown that the expiry is an
    integer ([admission_of_verified]). *)
Definition admission_of (digest : bytes) (packet : jsval) (trust : trust_store) : option admission :=
  let metadata := get packet "signatureMetadata" in
  match replay_expiry metadata trust with
  | NInt expiresAtMs => Some {|
      ad_tenant := text_of (coalesce (get (get packet "identity") "tenantId") (JStr []));
      ad_audience := text_of (get metadata "audience");
      ad_sender := text_of (get packet "senderId");
      ad_messageId := match get metadata "messageId" with JBytes b => b | _ => [] end;
      ad_digest := digest;
      ad_expiresAtMs := expiresAtMs |}
  | _ => None
  end.

Section Admission.
Context (C : crypto) (pt : packet_type) {S : Type} `{ReplayStore S}.

(** The outcome, the store after the call, and the warning that was logged. *)
Definition admitProductionReplay (packet : jsval) (unsigned : bytes) (trust : trust_store) (now : Z)
    (store : S) : bool * S * list jsstr :=
  match admission_of (sha256 C unsigned) packet trust with
  | None => (false, store, [js "replay store unavailable"])
  | Some a =>
      let '(outcome, store') := admit_message store now a in
      match outcome with
      | Ok (Known First) => (true, store', [])
      | Ok (Known Duplicate) => (false, store', [])
      | Ok OtherValue => (false, store', [js "invalid outcome"])
      | Throw e => (false, store', [replayErrorCategory e])
      | NoFuel => (false, store', [])
      end
  end.

Context {K : key_api} (productionTrust : trust_store) (config : option (WorkerTrustConfig K)).

(** [error instanceof ProductionWireError ? error.message : String(error)] *)
Definition wire_warning (describe : exn -> jsstr) (e : exn) : jsstr :=
  if bool_decide (exn_class e = ProductionWireError) then exn_message e else describe e.

Context (describe : exn -> jsstr).

(** The first block: verification of the received bytes. *)
Definition verify_received (raw : bytes) (aud : option jsstr) (now : Z) : result (jsval * bytes * trust_store) :=
  let! extracted := extractProductionSignature raw in
  let! trust := productionTrustForAudience productionTrust config
                  (match aud with Some s => JStr s | None => audience productionTrust end) in
  let! packet := verifyProductionPacket C raw pt trust now in
  Ok (packet, extracted.1, trust).

Definition decodeProductionPacket (raw : bytes) (aud : option jsstr) (now : Z) (store : S)
    : result (option jsval) * S * list jsstr :=
  match verify_received raw aud now with
  | Throw e => (Ok None, store, [wire_warning describe e])
  | NoFuel => (NoFuel, store, [])
  | Ok (packet, unsigned, trust) =>
      if negb (zlen (validateBusPacket packet) =? 0) then (Ok None, store, [js "invalid envelope"])
      else
        let binding := if truthy (get packet "jobRequest") && truthy (get packet "identity")
                       then validateIdentityBinding (get packet "jobRequest") (get packet "identity")
                       else Ok tt in
        match binding with
        | Throw e => if bool_decide (exn_class e = IdentityMismatchError)
                     then (Ok None, store, [exn_message e]) else (Throw e, store, [])
        | NoFuel => (NoFuel, store, [])
        | Ok _ =>
            let '(admitted, store', warnings) := admitProductionReplay packet unsigned trust now store in
            (Ok (if admitted then Some packet else None), store', warnings)
        end
  end.
End Admission.

(** ** What an admitted packet satisfies *)

(** The authority a packet is verified for: the agent's trust with the subject
    as audience and, with worker trust, the tenant and the scheduler of the
    worker's own configuration. *)
Record bound_trust {K : key_api} (productionTrust : trust_store) (config : option (WorkerTrustConfig K))
    (aud : jsval) (t : trust_store) : Prop := {
  bt_trust : t = with_authority productionTrust aud (tenant productionTrust) (sender productionTrust);
  bt_config : forall c, config = Some c ->
    (exists a, authority_string aud a) /\
    (exists s, authority_string (tenant productionTrust) s) /\
    (exists s, authority_string (sender productionTrust) s) /\
    tenant productionTrust = tenantId c /\ sender productionTrust = expectedSchedulerId c
}.

Lemma productionTrustForAudience_iff {K : key_api} p (config : option (WorkerTrustConfig K)) aud t :
  productionTrustForAudience p config aud = Ok t <-> bound_trust p config aud t.
Proof.
  unfold productionTrustForAudience. destruct config as [c|]; cbn zeta.
  - rewrite !do_Ok_iff, !throw_if_Ok_iff. cbn [existsb audience tenant sender with_authority].
    rewrite !orb_false_iff, !negb_false_iff, !authority_value_iff. split.
    + intros ((Ha & (s & Hs) & (r & Hr) & _) & Et & Es & [= <-]).
      pose proof Hs as [E1 _]. pose proof Hr as [E2 _]. rewrite E1 in Et. rewrite E2 in Es.
      apply strict_eq_str_l in Et. apply strict_eq_str_l in Es.
      split; [unfold with_authority; cbn; by rewrite Et, Es, E1, E2|].
      intros c' [= <-]. split; [done|]. split; [by exists s|]. split; [by exists r|]. split; congruence.
    + intros [-> Hc]. destruct (Hc c eq_refl) as (Ha & (s & Hs) & (r & Hr) & Et & Es).
      split; [split; [done|]; split; [by exists s|]; split; [by exists r | done]|]. rewrite <- Et, <- Es. destruct Hs as [-> _], Hr as [-> _].
      split; [by apply strict_eq_str|]. split; [by apply strict_eq_str | done].
  - split; [intros [= <-]; by split | by intros [-> _]].
Qed.

Section Verdict.
Context (C : crypto) (pt : packet_type) (Hwf : wf_type (pt_schema pt)).
Context {K : key_api} (productionTrust : trust_store) (config : option (WorkerTrustConfig K)).

(** The expiry of the replay record is the end of the window in which
    verification accepts the packet. *)
Lemma replay_expiry_value metadata trust expiresAt dateNow :
  timestamp_at (get metadata "expiresAt") expiresAt -> valid_at trust dateNow expiresAt ->
  exists skew, default (NInt 0) (clockSkewMs trust) = NInt skew /\ 0 <= skew <= 60000 /\
    replay_expiry metadata trust = NInt (expiresAt + skew).
Proof.
  intros (s & n & _ & Hs & Hn & Hsr & Hnr & ->) (now & skew & max & _ & Hskew & _ & _ & _ & Hk & _).
  exists skew. split; [done|]. split; [done|]. unfold replay_expiry. rewrite Hs, Hn, Hskew. cbn [num_scale num_div].
  rewrite floor_number_of_ratio by lia.
  assert (0 <= n / 1000000 < 1000) by (split; [apply Z.div_pos | apply Z.div_lt_upper_bound]; lia).
  rewrite number_of_Z_small by lia. cbn [num_add]. rewrite number_of_Z_small by lia. cbn [num_add].
  by rewrite number_of_Z_small by lia.
Qed.

(** The authority's own clock, or the system clock. *)
Definition verification_clock (trust : trust_store) (dateNow now : Z) : Prop :=
  trust_now trust dateNow = Ok (NInt now).

Lemma admission_of_verified raw trust dateNow packet digest :
  verified C raw pt trust dateNow packet ->
  exists a now, admission_of digest packet trust = Some a /\ verification_clock trust dateNow now /\
                now < ad_expiresAtMs a.
Proof.
  intros [fs sig aud ten snd keyId mid e pem key _ _ _ _ _ _ [Ht Hv] _ _ _ _ _].
  destruct (replay_expiry_value _ _ _ _ Ht Hv) as (skew & Hs & _ & He).
  destruct Hv as (now & skew' & max & Hn & Hs' & _ & _ & _ & _ & _ & Hw). assert (skew' = skew) as -> by congruence.
  unfold admission_of. rewrite He. eexists _, now. split; [done|]. split; [done|]. cbn. lia.
Qed.

Context {S : Type} `{ReplayStore S}.

(** A packet the agent dispatches: its bytes verify for the bound authority,
    its envelope is valid, its request repeats no other identity, and the store
    admits it as first. *)
Inductive admitted (raw : bytes) (aud : option jsstr) (now : Z) (store : S) (packet : jsval) (store' : S) : Prop :=
| admitted_intro t unsigned sig a
    (adm_bound : bound_trust productionTrust config
                   (match aud with Some s => JStr s | None => audience productionTrust end) t)
    (adm_extracted : extractProductionSignature raw = Ok (unsigned, sig))
    (adm_verified : verified C raw pt t now packet)
    (adm_valid : valid_packet packet)
    (adm_identity : truthy (get packet "jobRequest") = true ->
                    identity_bound (get packet "jobRequest") (get packet "identity"))
    (adm_admission : admission_of (sha256 C unsigned) packet t = Some a)
    (adm_first : admit_message store now a = (Ok (Known First), store')).

Lemma verify_received_iff raw aud now packet unsigned trust :
  verify_received C pt productionTrust config raw aud now = Ok (packet, unsigned, trust) <->
  (exists sig, extractProductionSignature raw = Ok (unsigned, sig)) /\
  bound_trust productionTrust config (match aud with Some s => JStr s | None => audience productionTrust end) trust /\
  verified C raw pt trust now packet.
Proof.
  unfold verify_received. rewrite bind_Ok_iff. split.
  - intros ([u sig] & Hu & H1). apply bind_Ok_iff in H1 as (t & Ht%productionTrustForAudience_iff & H1).
    apply bind_Ok_iff in H1 as (p & Hp%(verify_sound _ _ Hwf) & [= <- <- <-]). eauto.
  - intros ((sig & Hu) & Ht%productionTrustForAudience_iff & Hp%(verify_complete _ _ Hwf)).
    exists (unsigned, sig). split; [done|]. rewrite Ht. cbn [mbind result_bind]. by rewrite Hp.
Qed.

Lemma verified_identity raw trust now packet :
  verified C raw pt trust now packet -> truthy (get packet "identity") = true.
Proof. intros [? ? ? ? ? ? ? ? ? ? _ _ _ _ _ _ _ [Hr _] _ _ _ _]. by destruct (get packet "identity"). Qed.

Lemma decode_sound describe raw aud now store packet store' warnings :
  decodeProductionPacket C pt productionTrust config describe raw aud now store = (Ok (Some packet), store', warnings) ->
  admitted raw aud now store packet store' /\ warnings = [].
Proof.
  unfold decodeProductionPacket.
  destruct (verify_received C pt productionTrust config raw aud now) as [[[p u] t]|e|] eqn:Hv; [|done|done].
  apply verify_received_iff in Hv as ((sig & Hu) & Ht & Hp).
  destruct (negb (zlen (validateBusPacket p) =? 0)) eqn:Hvalid; [done|].
  rewrite (verified_identity _ _ _ _ Hp), andb_true_r.
  destruct (if truthy (get p "jobRequest") then _ else _) as [[]|e|] eqn:Hb; [|by case_bool_decide|done].
  unfold admitProductionReplay.
  destruct (admission_of (sha256 C u) p t) as [a|] eqn:Ha; [|by intros [= ]].
  destruct (admit_message store now a) as [r s'] eqn:Hr. destruct r as [[[]|]|e|]; intros [= <- <- <-].
  split; [|done]. apply (admitted_intro raw aud now store p s' t u sig a); try done.
  - apply validateBusPacket_nil, zlen_0_inv. by apply negb_false_iff, Z.eqb_eq in Hvalid.
  - intros Hj. rewrite Hj in Hb. by apply identity_binding_iff.
Qed.

Lemma decode_complete describe raw aud now store packet store' :
  admitted raw aud now store packet store' ->
  decodeProductionPacket C pt productionTrust config describe raw aud now store = (Ok (Some packet), store', []).
Proof.
  intros [t u sig a Ht Hu Hp Hvalid Hid Ha Hr]. unfold decodeProductionPacket.
  rewrite (proj2 (verify_received_iff raw aud now packet u t)) by eauto.
  apply validateBusPacket_nil in Hvalid. rewrite Hvalid, (verified_identity _ _ _ _ Hp), andb_true_r. cbn [zlen length Z.of_nat Z.eqb negb].
  assert ((if truthy (get packet "jobRequest") then validateIdentityBinding (get packet "jobRequest") (get packet "identity")
           else Ok tt) = Ok tt) as ->.
  { destruct (truthy (get packet "jobRequest")); [|done]. by apply identity_binding_iff, Hid. }
  unfold admitProductionReplay. by rewrite Ha, Hr.
Qed.

(** C36. The agent dispatches a production packet exactly when every check
    holds: the exact bytes received verify for the agent's authority with the
    subject as audience (and, with worker trust, for the tenant and the
    scheduler of the worker's configuration), the envelope is valid, the
    request repeats no other identity, and the replay store admits the message
    as first. *)
Theorem decodeProductionPacket_iff describe raw aud now store packet store' :
  decodeProductionPacket C pt productionTrust config describe raw aud now store = (Ok (Some packet), store', []) <->
  admitted raw aud now store packet store'.
Proof. split; [by intros [? _]%decode_sound | apply decode_complete]. Qed.

(** ** At most once *)

(** One message: its bytes, its subject and the clock when it arrives. *)
Definition message : Type := bytes * option jsstr * Z.

Fixpoint admission_run (describe : exn -> jsstr) (store : S) (messages : list message) : S :=
  match messages with
  | [] => store
  | (raw, aud, now) :: rest =>
      let '(_, store', _) := decodeProductionPacket C pt productionTrust config describe raw aud now store in
      admission_run describe store' rest
  end.

(** Deciding one message calls the store at most once, at its clock. *)
Lemma decode_store describe raw aud now store r store' warnings :
  decodeProductionPacket C pt productionTrust config describe raw aud now store = (r, store', warnings) ->
  store' = store \/ exists a, store' = (admit_message store now a).2.
Proof.
  unfold decodeProductionPacket.
  destruct (verify_received C pt productionTrust config raw aud now) as [[[p u] t]|e|]; [|intros [= _ <- _]; by left..].
  destruct (negb _); [intros [= _ <- _]; by left|].
  destruct (if _ && _ then _ else _) as [[]|e|]; [|case_bool_decide; intros [= _ <- _]; by left|intros [= _ <- _]; by left].
  unfold admitProductionReplay. destruct (admission_of (sha256 C u) p t) as [a|]; [|intros [= _ <- _]; by left].
  destruct (admit_message store now a) as [o s'] eqn:Hs. intros Heq. right. exists a. rewrite Hs.
  by destruct o as [[[]|]|e|]; injection Heq as _ <- _.
Qed.
End Verdict.

Section Once.
Context (C : crypto) (pt : packet_type) (Hwf : wf_type (pt_schema pt)).
Context {K : key_api} (productionTrust : trust_store) (config : option (WorkerTrustConfig K)).
Context {S : Type} `{ReplayStoreLaws S} (describe : exn -> jsstr).

Lemma run_remembers messages : forall (store : S) k d e,
  remembers store k d e -> Forall (fun m : message => m.2 < e) messages ->
  remembers (admission_run C pt productionTrust config describe store messages) k d e.
Proof.
  induction messages as [|[[raw aud] now] rest IH]; intros store k d e Hr Hm; [done|].
  apply Forall_cons in Hm as [Hlt Hm]. cbn in Hlt |- *.
  destruct (decodeProductionPacket _ _ _ _ _ _ _ _ _) as [[r store'] w] eqn:Hd. apply IH; [|done].
  apply decode_store in Hd as [-> | [a ->]]; [done|]. by apply remembered_stays.
Qed.

(** The packet and its admission are determined by the bytes. *)
Lemma admitted_same raw aud aud' now now' (s s' s1 s1' : S) p p' :
  admitted C pt productionTrust config raw aud now s p s1 ->
  admitted C pt productionTrust config raw aud' now' s' p' s1' ->
  exists a, admit_message s now a = (Ok (Known First), s1) /\ admit_message s' now' a = (Ok (Known First), s1') /\
    exists n, verification_clock productionTrust now' n /\ n < ad_expiresAtMs a.
Proof.
  intros [t u sig a Ht Hu Hp _ _ Ha Hr] [t' u' sig' a' Ht' Hu' Hp' _ _ Ha' Hr'].
  assert (u' = u) as -> by congruence.
  assert (p' = p) as ->.
  { pose proof (verify_complete C pt Hwf _ _ _ _ Hp) as E. pose proof (verify_complete C pt Hwf _ _ _ _ Hp') as E'.
    unfold verifyProductionPacket in E, E'. apply do_Ok_iff in E as [_ E]. apply do_Ok_iff in E' as [_ E'].
    rewrite Hu in E, E'. cbn [mbind result_bind fst] in E, E'.
    apply bind_Ok_iff in E as (q & Hq & E). apply bind_Ok_iff in E' as (q' & Hq' & E').
    assert (q' = q) as -> by congruence. cbn zeta in E, E'. do 5 apply do_Ok_iff in E as [_ E].
    do 5 apply do_Ok_iff in E' as [_ E'].
    destruct (registered_key t _); [|done]. destruct (registered_key t' _); [|done].
    apply do_Ok_iff in E as [_ [= <-]]. apply do_Ok_iff in E' as [_ [= <-]]. done. }
  assert (admission_of (sha256 C u) p t' = admission_of (sha256 C u) p t) as E.
  { destruct Ht as [-> _], Ht' as [-> _]. done. }
  assert (a' = a) as -> by congruence. exists a. split; [done|]. split; [done|].
  destruct (admission_of_verified C pt _ _ _ _ (sha256 C u) Hp') as (a'' & n' & Ha'' & Hn' & Hlt).
  assert (a'' = a) as -> by congruence. destruct Ht' as [-> _]. by exists n'.
Qed.

(** The clock that verification uses is not behind the system clock, by which
    the store keeps its records.  Without [nowMs] they are the same. *)
Definition clock_not_behind (trust : trust_store) (dateNow : Z) : Prop :=
  forall now, verification_clock trust dateNow now -> dateNow <= now.

End Once.
