(* ===== verification/Json.v ===== *)
(** * JSON text and UTF-8

    [JSON.parse], [JSON.stringify] and [Buffer.prototype.toString] of the
    language, as src/sdk/node/src/runtime.ts uses them on job contexts and
    results, with the theorem that text written from a value reads back as the
    value. *)

From S2P Require Import Prelude JsString JsValue Protos Codec.

(** ** [buffer.toString("utf-8")]

    The decoder keeps the code point under construction, the number of bytes it
    still needs and the range of the next one; a byte out of range ends the
    sequence with U+FFFD and is read again. *)

Record utf8_state : Set := { us_needed : nat; us_point : Z; us_lower : Z; us_upper : Z }.

Definition units_of_point (p : Z) : jsstr :=
  if p <? 0x10000 then [p]
  else [0xd800 + (p - 0x10000) / 0x400; 0xdc00 + (p - 0x10000) mod 0x400].

(** What a byte starts: a character, an error, or a sequence. *)
Definition utf8_start (x : Z) : jsstr * option utf8_state :=
  if x <? 0x80 then ([x], None)
  else if (0xc2 <=? x) && (x <=? 0xdf) then ([], Some {| us_needed := 1; us_point := x - 0xc0; us_lower := 0x80; us_upper := 0xbf |})
  else if (0xe0 <=? x) && (x <=? 0xef) then
    ([], Some {| us_needed := 2; us_point := x - 0xe0;
                 us_lower := if x =? 0xe0 then 0xa0 else 0x80;
                 us_upper := if x =? 0xed then 0x9f else 0xbf |})
  else if (0xf0 <=? x) && (x <=? 0xf4) then
    ([], Some {| us_needed := 3; us_point := x - 0xf0;
                 us_lower := if x =? 0xf0 then 0x90 else 0x80;
                 us_upper := if x =? 0xf4 then 0x8f else 0xbf |})
  else ([0xfffd], None).

Fixpoint utf8_run (state : option utf8_state) (b : bytes) : jsstr :=
  match b with
  | [] => match state with Some _ => [0xfffd] | None => [] end
  | x :: b' =>
      match state with
      | None => let '(out, next) := utf8_start x in out ++ utf8_run next b'
      | Some u =>
          if (us_lower u <=? x) && (x <=? us_upper u) then
            let p := us_point u * 0x40 + (x - 0x80) in
            match us_needed u with
            | O | 1%nat => units_of_point p ++ utf8_run None b'
            | S n => utf8_run (Some {| us_needed := n; us_point := p; us_lower := 0x80; us_upper := 0xbf |}) b'
            end
          else let '(out, next) := utf8_start x in 0xfffd :: out ++ utf8_run next b'
      end
  end.

Definition utf8_decode (b : bytes) : jsstr := utf8_run None b.

(** ** [JSON.parse] *)

Definition json_ws (c : Z) : bool := (c =? 9) || (c =? 10) || (c =? 13) || (c =? 32).

Fixpoint skip_ws (s : jsstr) : jsstr :=
  match s with c :: s' => if json_ws c then skip_ws s' else s | [] => [] end.

Definition json_hex (c : Z) : option Z := radix_digit 16 c.

(** The single escapes. *)
Definition json_escape (e : Z) : option Z :=
  if zmem e [34; 92; 47] then Some e
  else if zmem e [98; 116; 110; 102; 114] then Some (unescape e)
  else None.

(** The rest of a string after its opening quote. *)
Fixpoint json_string (s : jsstr) : option (jsstr * jsstr) :=
  match s with
  | [] => None
  | c :: s' =>
      if c =? 34 then Some ([], s')
      else if c =? 92 then
        match s' with
        | e :: s2 =>
            if e =? 117 then
              match s2 with
              | x3 :: x2 :: x1 :: x0 :: s3 =>
                  match json_hex x3, json_hex x2, json_hex x1, json_hex x0 with
                  | Some v3, Some v2, Some v1, Some v0 =>
                      (fun p => (v3 * 4096 + v2 * 256 + v1 * 16 + v0 :: p.1, p.2)) <$> json_string s3
                  | _, _, _, _ => None
                  end
              | _ => None
              end
            else match json_escape e with
                 | Some v => (fun p => (v :: p.1, p.2)) <$> json_string s2
                 | None => None
                 end
        | [] => None
        end
      else if c <? 32 then None
      else (fun p => (c :: p.1, p.2)) <$> json_string s'
  end.

(** The text after the unit [c], if it is next. *)
Definition eat (c : Z) (s : jsstr) : option jsstr :=
  match s with x :: t => if x =? c then Some t else None | [] => None end.

(** The text of a number at the front, and the rest. *)
Definition json_exponent (text r : jsstr) : option (jsstr * jsstr) :=
  match r with
  | c :: t =>
      if (c =? 101) || (c =? 69) then
        let '(sign, t') := match eat 45 t, eat 43 t with
                           | Some t', _ => ([45], t') | _, Some t' => ([43], t') | _, _ => ([], t)
                           end in
        match span_digits t' with
        | ([], _) => None
        | (ds, r') => Some (text ++ c :: sign ++ ds, r')
        end
      else Some (text, r)
  | [] => Some (text, r)
  end.

Definition json_fraction (text r : jsstr) : option (jsstr * jsstr) :=
  match eat 46 r with
  | Some t =>
      match span_digits t with
      | ([], _) => None
      | (ds, r') => json_exponent (text ++ 46 :: ds) r'
      end
  | None => json_exponent text r
  end.

Definition json_number (s : jsstr) : option (jsstr * jsstr) :=
  let '(sign, t) := match eat 45 s with Some t => ([45], t) | None => ([], s) end in
  match eat 48 t with
  | Some r => json_fraction (sign ++ [48]) r
  | None =>
      match span_digits t with
      | ([], _) => None
      | (ds, r) => json_fraction (sign ++ ds) r
      end
  end.

Definition bad_json {A} : result A := throw SyntaxError [].

Definition or_bad {A} (o : option A) : result A := match o with Some a => Ok a | None => bad_json end.

Definition literal (text : string) (v : jsval) (s : jsstr) : result (jsval * jsstr) :=
  if starts_with (js text) s then Ok (v, drop (length (js text)) s) else bad_json.

(** A value at the front of the text and the rest; the elements of an array up
    to its bracket; the members of an object up to its brace. *)
Fixpoint json_value (fuel : nat) (s : jsstr) {struct fuel} : result (jsval * jsstr) :=
  match fuel with
  | O => NoFuel
  | S fuel =>
      match skip_ws s with
      | [] => bad_json
      | (c :: s') as t =>
          if c =? 34 then let! p := or_bad (json_string s') in Ok (JStr p.1, p.2)
          else if c =? 123 then
            match eat 125 (skip_ws s') with
            | Some r => Ok (JPlain [], r)
            | None => let! p := json_members fuel [] s' in Ok (JPlain p.1, p.2)
            end
          else if c =? 91 then
            match eat 93 (skip_ws s') with
            | Some r => Ok (JArr [], r)
            | None => let! p := json_elements fuel s' in Ok (JArr p.1, p.2)
            end
          else if c =? 116 then literal "rue" (JBool true) s'
          else if c =? 102 then literal "alse" (JBool false) s'
          else if c =? 110 then literal "ull" JNull s'
          else let! p := or_bad (json_number t) in Ok (JNum (string_to_number p.1), p.2)
      end
  end
with json_elements (fuel : nat) (s : jsstr) {struct fuel} : result (list jsval * jsstr) :=
  match fuel with
  | O => NoFuel
  | S fuel =>
      let! p := json_value fuel s in
      match eat 44 (skip_ws p.2), eat 93 (skip_ws p.2) with
      | Some r, _ => let! q := json_elements fuel r in Ok (p.1 :: q.1, q.2)
      | None, Some r => Ok ([p.1], r)
      | None, None => bad_json
      end
  end
with json_members (fuel : nat) (acc : list (jsstr * jsval)) (s : jsstr) {struct fuel}
    : result (list (jsstr * jsval) * jsstr) :=
  match fuel with
  | O => NoFuel
  | S fuel =>
      let! s' := or_bad (eat 34 (skip_ws s)) in
      let! k := or_bad (json_string s') in
      let! r := or_bad (eat 58 (skip_ws k.2)) in
      let! p := json_value fuel r in
      let acc := assoc_set k.1 p.1 acc in
      match eat 44 (skip_ws p.2), eat 125 (skip_ws p.2) with
      | Some r', _ => json_members fuel acc r'
      | None, Some r' => Ok (acc, r')
      | None, None => bad_json
      end
  end.

(** [JSON.parse(text)]; the message of the error is the engine's. *)
Definition JSON_parse (message : jsstr -> jsstr) (text : jsstr) : result jsval :=
  match json_value (S (2 * length text)) text with
  | Ok (v, rest) => match skip_ws rest with
                    | [] => Ok v
                    | _ => throw SyntaxError (message text)
                    end
  | Throw _ => throw SyntaxError (message text)
  | NoFuel => NoFuel
  end.

(** ** [JSON.stringify] *)

Definition braced (l : list (jsstr * jsstr)) : jsstr :=
  [123] ++ join [44] (map (fun p => json_quote p.1 ++ [58] ++ p.2) l) ++ [125].

(** [None] is the value undefined. *)
Fixpoint JSON_stringify (v : jsval) : option jsstr :=
  match v with
  | JUndef => None
  | JNull => Some (js "null")
  | JBool b => Some (if b then js "true" else js "false")
  | JNum n => Some (if is_finite n then number_to_text n else js "null")
  | JStr s => Some (json_quote s)
  | JBytes b =>
      Some (braced (map (fun p => (p.1, match p.2 with JNum n => number_to_text n | _ => [] end))
                        (own_entries (JBytes b))))
  | JLong z =>
      Some (braced [(js "low", number_to_text (NInt (low32 z)));
                    (js "high", number_to_text (NInt (low32 (z / 2 ^ 32)))); (js "unsigned", js "false")])
  | JArr l => Some ([91] ++ join [44] (map (fun x => default (js "null") (JSON_stringify x)) l) ++ [93])
  | JObj own _ =>
      let texts := map (fun p => (p.1, JSON_stringify p.2)) own in
      Some (braced (omap (fun k => match assoc k texts with Some (Some t) => Some (k, t) | _ => None end)
                         (map fst (enumerate own))))
  end.

(** ** Parsing ends *)

Lemma skip_ws_length s : (length (skip_ws s) <= length s)%nat.
Proof. induction s as [|c s IH]; cbn; [lia|]. destruct (json_ws c); cbn; lia. Qed.

Lemma json_string_length s p : json_string s = Some p -> (length p.2 < length s)%nat.
Proof.
  remember (length s) as n eqn:Hn. revert s p Hn. induction n as [n IH] using lt_wf_ind. intros s p -> H.
  destruct s as [|c s]; [done|]. cbn in H. destruct (c =? 34); [injection H as <-; cbn; lia|].
  destruct (c =? 92).
  - destruct s as [|e s]; [done|]. destruct (e =? 117).
    + destruct s as [|x3 [|x2 [|x1 [|x0 s]]]]; try done.
      destruct (json_hex x3), (json_hex x2), (json_hex x1), (json_hex x0); try done.
      apply fmap_Some in H as (q & Hq & ->). specialize (IH (length s) ltac:(cbn; lia) s q eq_refl Hq). cbn. lia.
    + destruct (json_escape e); [|done]. apply fmap_Some in H as (q & Hq & ->).
      specialize (IH (length s) ltac:(cbn; lia) s q eq_refl Hq). cbn. lia.
  - destruct (c <? 32); [done|]. apply fmap_Some in H as (q & Hq & ->).
    specialize (IH (length s) ltac:(cbn; lia) s q eq_refl Hq). cbn. lia.
Qed.

Lemma span_digits_length s : (length (span_digits s).1 + length (span_digits s).2 = length s)%nat.
Proof.
  induction s as [|c s IH]; [done|]. cbn. destruct (is_digit c); [|done].
  destruct (span_digits s) as [d r]. cbn in *. lia.
Qed.

Lemma eat_length c s t : eat c s = Some t -> length s = S (length t).
Proof. destruct s as [|x s]; cbn; [done|]. destruct (x =? c); [|done]. by intros [= ->]. Qed.

Lemma json_exponent_length text r p : json_exponent text r = Some p -> (length p.2 <= length r)%nat.
Proof.
  destruct r as [|c t]; cbn; [by intros [= <-]|]. destruct (_ || _); [|by intros [= <-]].
  assert (exists sign t', match eat 45 t, eat 43 t with
            | Some t', _ => ([45], t') | _, Some t' => ([43], t') | _, _ => ([], t) end = (sign, t')
            /\ (length t' <= length t)%nat) as (sign & t' & -> & Ht).
  { destruct (eat 45 t) eqn:E1; [apply eat_length in E1; eexists _, _; split; [done|lia]|].
    destruct (eat 43 t) eqn:E2; [apply eat_length in E2; eexists _, _; split; [done|lia] | by eexists _, _]. }
  pose proof (span_digits_length t') as Hl. destruct (span_digits t') as [[|d ds] r']; [done|]. cbn in Hl.
  intros [= <-]. cbn. lia.
Qed.

Lemma json_fraction_length text r p : json_fraction text r = Some p -> (length p.2 <= length r)%nat.
Proof.
  unfold json_fraction. destruct (eat 46 r) as [t|] eqn:E; [|apply json_exponent_length].
  apply eat_length in E. pose proof (span_digits_length t) as Hl.
  destruct (span_digits t) as [[|d ds] r']; [done|]. cbn in Hl. intros H%json_exponent_length. lia.
Qed.

Lemma json_number_length s p : json_number s = Some p -> (length p.2 < length s)%nat.
Proof.
  unfold json_number.
  assert (exists sign t, match eat 45 s with Some t => ([45], t) | None => ([], s) end = (sign, t)
            /\ (length t <= length s)%nat) as (sign & t & -> & Ht).
  { destruct (eat 45 s) eqn:E; [apply eat_length in E; eexists _, _; split; [done|lia] | by eexists _, _]. }
  destruct (eat 48 t) as [r|] eqn:E.
  - apply eat_length in E. intros H%json_fraction_length. lia.
  - pose proof (span_digits_length t) as Hl. destruct (span_digits t) as [[|d ds] r']; [done|]. cbn in Hl.
    intros H%json_fraction_length. lia.
Qed.

Lemma or_bad_Ok {A} (o : option A) a : or_bad o = Ok a <-> o = Some a.
Proof. destruct o; cbn; split; try discriminate; congruence. Qed.

Lemma or_bad_not_NoFuel {A} (o : option A) : or_bad o <> NoFuel.
Proof. by destruct o. Qed.

Lemma literal_length text v s p : literal text v s = Ok p -> (length p.2 <= length s)%nat.
Proof. unfold literal. destruct (starts_with _ _); [|done]. intros [= <-]. cbn. rewrite length_drop. lia. Qed.

(** A result that consumed at least one unit, within the fuel. *)
Definition consumed {A} (s : jsstr) (r : result (A * jsstr)) : Prop :=
  r <> NoFuel /\ forall p, r = Ok p -> (length p.2 < length s)%nat.

Lemma json_consumes fuel : forall s,
  ((2 * length s < fuel)%nat -> consumed s (json_value fuel s)) /\
  ((2 * length s + 1 < fuel)%nat -> consumed s (json_elements fuel s)) /\
  (forall acc, (2 * length s < fuel)%nat -> consumed s (json_members fuel acc s)).
Proof.
  induction fuel as [|fuel IH]; [by intros s; split_and!; intros; lia|]. intros s.
  pose proof (skip_ws_length s) as Hws. split_and!.
  - intros Hf. cbn [json_value]. destruct (skip_ws s) as [|c s'] eqn:Es; [by split|]. cbn in Hws.
    pose proof (skip_ws_length s') as Hws'.
    destruct (IH s') as (_ & IHe & IHm).
    destruct (c =? 34); [|destruct (c =? 123); [|destruct (c =? 91); [|destruct (c =? 116);
      [|destruct (c =? 102); [|destruct (c =? 110)]]]]].
    + split; [by destruct (json_string s')|]. intros p (q & Hq & [= <-])%bind_Ok_iff. cbn.
      apply or_bad_Ok, json_string_length in Hq. lia.
    + destruct (eat 125 _) eqn:E; [apply eat_length in E; split; [done|]; intros p [= <-]; cbn; lia|].
      destruct (IHm [] ltac:(lia)) as [H1 H2]. split; [by destruct (json_members _ _ _)|].
      intros p (q & Hq & [= <-])%bind_Ok_iff. specialize (H2 _ Hq). cbn. lia.
    + destruct (eat 93 _) eqn:E; [apply eat_length in E; split; [done|]; intros p [= <-]; cbn; lia|].
      destruct (IHe ltac:(lia)) as [H1 H2]. split; [by destruct (json_elements _ _)|].
      intros p (q & Hq & [= <-])%bind_Ok_iff. specialize (H2 _ Hq). cbn. lia.
    + split; [unfold literal; by destruct (starts_with _ _)|]. intros p H%literal_length. lia.
    + split; [unfold literal; by destruct (starts_with _ _)|]. intros p H%literal_length. lia.
    + split; [unfold literal; by destruct (starts_with _ _)|]. intros p H%literal_length. lia.
    + split; [by destruct (json_number _)|]. intros p (q & Hq & [= <-])%bind_Ok_iff. cbn.
      apply or_bad_Ok, json_number_length in Hq. cbn in Hq. lia.
  - intros Hf. cbn [json_elements]. destruct (IH s) as (IHv & _). destruct (IHv ltac:(lia)) as [H1 H2].
    destruct (json_value fuel s) as [p|e|]; [|by split | done]. specialize (H2 p eq_refl). cbn [mbind result_bind].
    pose proof (skip_ws_length p.2) as Hp. destruct (eat 44 _) as [r|] eqn:E1.
    + apply eat_length in E1. destruct (IH r) as (_ & IHe & _). destruct (IHe ltac:(lia)) as [G1 G2].
      split; [by destruct (json_elements fuel r)|]. intros q (q' & Hq & [= <-])%bind_Ok_iff. specialize (G2 _ Hq). cbn. lia.
    + destruct (eat 93 _) as [r|] eqn:E2; [|by split]. apply eat_length in E2. split; [done|]. intros q [= <-]. cbn. lia.
  - intros acc Hf. cbn [json_members].
    destruct (eat 34 (skip_ws s)) as [s'|] eqn:E0; [|by split]. apply eat_length in E0. cbn [or_bad mbind result_bind].
    destruct (json_string s') as [k|] eqn:Ek; [|by split]. apply json_string_length in Ek. cbn [or_bad mbind result_bind].
    pose proof (skip_ws_length k.2) as Hk. destruct (eat 58 _) as [r|] eqn:E1; [|by split]. apply eat_length in E1.
    cbn [or_bad mbind result_bind]. destruct (IH r) as (IHv & _). destruct (IHv ltac:(lia)) as [H1 H2].
    destruct (json_value fuel r) as [p|e|]; [|by split | done]. specialize (H2 p eq_refl). cbn [mbind result_bind].
    pose proof (skip_ws_length p.2) as Hp. destruct (eat 44 _) as [r'|] eqn:E2.
    + apply eat_length in E2. destruct (IH r') as (_ & _ & IHm). destruct (IHm (assoc_set k.1 p.1 acc) ltac:(lia)) as [G1 G2].
      split; [done|]. intros q Hq. specialize (G2 _ Hq). lia.
    + destruct (eat 125 _) as [r'|] eqn:E3; [|by split]. apply eat_length in E3. split; [done|]. intros q [= <-]. cbn. lia.
Qed.

(** [JSON.parse] returns or throws a SyntaxError, on every text. *)
Lemma JSON_parse_ends message text :
  (exists v, JSON_parse message text = Ok v) \/ JSON_parse message text = throw SyntaxError (message text).
Proof.
  unfold JSON_parse. destruct (json_consumes (S (2 * length text)) text) as ([H _] & _); [lia|].
  destruct (json_value _ _) as [[v rest]|e|]; [|by right | done]. destruct (skip_ws rest); [left; by exists v | by right].
Qed.

(** ** Written text reads back *)

Lemma json_hex_digit d : 0 <= d < 16 -> json_hex (hex_digit d) = Some d.
Proof.
  intros Hd. assert (exists k, (k < 16)%nat /\ d = Z.of_nat k) as (k & Hk & ->) by (exists (Z.to_nat d); lia).
  do 16 (destruct k as [|k]; [done|]). lia.
Qed.

Lemma json_string_unit c r p :
  is_unit c -> json_string r = Some p -> json_string (quote_unit c ++ r) = Some (c :: p.1, p.2).
Proof.
  unfold is_unit. intros Hc Hr. unfold quote_unit.
  repeat match goal with
  | |- context [c =? ?k] => destruct (Z.eqb_spec c k); [subst; cbn; by rewrite Hr |]
  end.
  destruct (_ || _ || _) eqn:E.
  - unfold hex4. cbn -[Z.mul Z.div Z.modulo]. rewrite !json_hex_digit; [|apply Z.mod_pos_bound; lia..|].
    + rewrite Hr. cbn -[Z.mul Z.div Z.modulo]. do 2 f_equal. f_equal.
      pose proof (Z.div_mod c 16 ltac:(lia)). pose proof (Z.div_mod (c / 16) 16 ltac:(lia)).
      pose proof (Z.div_mod (c / 256) 16 ltac:(lia)).
      rewrite !Z.div_div in * by lia. change (16 * 16) with 256 in *. change (256 * 16) with 4096 in *. lia.
    + split; [apply Z.div_pos; lia | apply Z.div_lt_upper_bound; lia].
  - cbn. destruct (Z.eqb_spec c 34); [lia|]. destruct (Z.eqb_spec c 92); [lia|].
    rewrite !orb_false_iff in E. destruct E as [[-> _] _]. by rewrite Hr.
Qed.

Lemma surrogate_not_control c : is_high c || is_low c = true -> (c <? 32) = false.
Proof. unfold is_high, is_low. rewrite orb_true_iff, !andb_true_iff, !Z.leb_le, Z.ltb_ge. lia. Qed.

Lemma json_string_quoted s r : wf_str s -> json_string (quote_body s ++ [34] ++ r) = Some (s, r).
Proof.
  remember (length s) as n eqn:Hn. revert s Hn. induction n as [n IH] using lt_wf_ind. intros s -> Hs.
  destruct s as [|c [|d s]]; cbn [quote_body].
  - done.
  - rewrite json_string_unit with (p := ([], r)); [done | by inversion Hs | done].
  - inversion Hs as [|? ? Hc Hs1]; subst. inversion Hs1 as [|? ? Hd Hs2]; subst.
    destruct (is_high c && is_low d) eqn:E.
    + apply andb_true_iff in E as [E1 E2].
      assert (is_high c || is_low c = true) as Ec by (by rewrite E1).
      assert (is_high d || is_low d = true) as Ed by (rewrite E2; apply orb_true_r).
      destruct (surrogate_not_special c Ec) as [C1 C2]. destruct (surrogate_not_special d Ed) as [D1 D2].
      cbn [app json_string]. rewrite C1, C2, D1, D2, (surrogate_not_control c Ec), (surrogate_not_control d Ed).
      rewrite (IH (length s)); cbn; [done | lia | done | done].
    + rewrite <- app_assoc. rewrite json_string_unit with (p := (d :: s, r)); [done | done |].
      refine (IH (length (d :: s)) _ (d :: s) eq_refl Hs1). cbn. lia.
Qed.

(** What may follow a value inside a text. *)
Definition delimited (r : jsstr) : Prop := match r with [] => True | c :: _ => c = 44 \/ c = 93 \/ c = 125 end.

Lemma span_digits_app ds r :
  forallb is_digit ds = true -> delimited r -> span_digits (ds ++ r) = (ds, r).
Proof.
  induction ds as [|d ds IH]; cbn; intros Hd Hr.
  - destruct r as [|c r]; [done|]. cbn. by destruct Hr as [-> | [-> | ->]].
  - apply andb_true_iff in Hd as [-> Hd]. by rewrite IH.
Qed.

Lemma json_fraction_delimited text r : delimited r -> json_fraction text r = Some (text, r).
Proof. destruct r as [|c r]; [done|]. by intros [-> | [-> | ->]]. Qed.

(** The digits of an integer: zero, or no leading zero. *)
Lemma decimal_text_digits z :
  exists neg ds, decimal_text z = (if neg : bool then 45 :: ds else ds) /\
    (ds = [48] \/ pattern (between 49 57) is_digit ds = true) /\
    (if neg then - decimal_value ds else decimal_value ds) = z.
Proof.
  destruct (proj2 (parse_text_iff (decimal_text z) z) (or_introl eq_refl)) as [Hc Hv].
  unfold canonical_decimal, bigint_of in *. destruct (sign_cases (decimal_text z)) as [[t Ht]|Hs].
  - rewrite Ht in *. exists true, t. split; [done|]. split; [|done].
    apply orb_true_iff in Hc as [->%bool_decide_eq_true|]; auto.
  - rewrite (unsigned_match _ (fun t => - decimal_value t)) in Hv by done.
    rewrite (unsigned_match _ (fun t => t)) in Hc by done. exists false, (decimal_text z). split; [done|]. split; [|done].
    apply orb_true_iff in Hc as [?%bool_decide_eq_true|]; auto.
Qed.

Lemma digits_of_pattern ds :
  ds = [48] \/ pattern (between 49 57) is_digit ds = true -> forallb is_digit ds = true /\ ds <> [].
Proof.
  intros [-> | H]; [done|]. destruct ds as [|c ds]; [done|]. cbn in H |- *. apply andb_true_iff in H as [Hc ->].
  split; [|done]. rewrite andb_true_r. unfold between, is_digit in *. apply andb_true_iff in Hc as [H1 H2].
  apply Z.leb_le in H1. rewrite H2, andb_true_r. apply Z.leb_le. lia.
Qed.

(** The first unit of a positive integer's digits. *)
Lemma leading_digit c ds :
  pattern (between 49 57) is_digit (c :: ds) = true -> In c [49; 50; 51; 52; 53; 54; 55; 56; 57].
Proof. cbn. unfold between. rewrite !andb_true_iff, !Z.leb_le. intros [[? ?] _]. lia. Qed.

Lemma json_number_decimal z r :
  delimited r -> json_number (decimal_text z ++ r) = Some (decimal_text z, r).
Proof.
  intros Hr. destruct (decimal_text_digits z) as (neg & ds & -> & Hds & _). unfold json_number.
  assert (match eat 45 ((if neg then 45 :: ds else ds) ++ r) with Some t => ([45], t)
          | None => ([], (if neg then 45 :: ds else ds) ++ r) end = ((if neg then [45] else []), ds ++ r)) as ->.
  { destruct neg; [done|]. destruct Hds as [-> | Hp]; [done|]. destruct ds as [|c ds]; [done|].
    apply leading_digit in Hp. cbn in Hp. cbn [eat app]. destruct (Z.eqb_spec c 45); [lia | done]. }
  destruct (digits_of_pattern ds Hds) as [Hd Hne]. destruct Hds as [-> | Hp].
  - cbn [eat app Z.eqb Pos.eqb]. rewrite json_fraction_delimited by done. by destruct neg.
  - rewrite span_digits_app by done. destruct ds as [|c ds]; [done|]. apply leading_digit in Hp as Hc. cbn in Hc.
    cbn [eat app]. destruct (Z.eqb_spec c 48); [lia|]. rewrite json_fraction_delimited by done. by destruct neg.
Qed.

Lemma unsigned_decimal_digits neg ds :
  forallb is_digit ds = true -> ds <> [] ->
  unsigned_decimal neg ds = number_of_Z (if neg then - decimal_value ds else decimal_value ds).
Proof.
  intros Hd Hne. unfold unsigned_decimal. rewrite bool_decide_eq_false_2 by (by intros ->).
  pose proof (span_digits_app ds [] Hd I) as E. rewrite app_nil_r in E. rewrite E. cbn [fst snd].
  rewrite app_nil_r. cbn [exponent_part]. destruct ds as [|d ds]; [done|]. unfold zlen. cbn [length Z.of_nat].
  change (0 - 0) with 0. cbn [Z.leb Z.compare]. by rewrite Z.pow_0_r, Z.mul_1_r.
Qed.

Lemma string_to_number_decimal z : Z.abs z <= 2 ^ 53 -> string_to_number (decimal_text z) = NInt z.
Proof.
  intros Hz. destruct (decimal_text_digits z) as (neg & ds & -> & Hds & Hv).
  destruct (digits_of_pattern ds Hds) as [Hd Hne].
  assert (trim (if neg then 45 :: ds else ds) = (if neg then 45 :: ds else ds)) as Ht.
  { apply (bool_decide_eq_true_1 (trim _ = _)), printable_trimmed. destruct neg; cbn [forallb]; [change (printable 45) with true; cbn [andb]|];
      (rewrite forallb_forall in Hd |- *; intros c Hc; specialize (Hd c Hc); revert Hd; unfold is_digit, printable;
       rewrite !andb_true_iff, !Z.leb_le; lia). }
  assert (string_to_number (if neg then 45 :: ds else ds) = unsigned_decimal neg ds) as ->.
  { unfold string_to_number. rewrite Ht. destruct neg; [done|]. destruct Hds as [-> | Hp]; [done|].
    destruct ds as [|c ds]; [done|]. apply leading_digit in Hp. cbn in Hp.
    repeat destruct Hp as [<-|Hp]; try done. }
  rewrite unsigned_decimal_digits by done. rewrite Hv. unfold number_of_Z. rewrite to_double_exact by done.
  destruct (Z.leb_spec (2 ^ 1024) (Z.abs z)); [|done]. assert (2 ^ 53 < 2 ^ 1024) by (apply Z.pow_lt_mono_r; lia). lia.
Qed.

(** Values that JSON text keeps: exact integers, text of 16-bit units, arrays,
    and plain objects whose keys are in the order of enumeration. *)
Fixpoint json_data (v : jsval) : Prop :=
  match v with
  | JNull | JBool _ => True
  | JNum (NInt z) => Z.abs z <= 2 ^ 53
  | JStr s => wf_str s
  | JArr l => fold_right (fun x P => json_data x /\ P) True l
  | JObj own inherited =>
      inherited = [] /\ NoDup (map fst own) /\ enumerate own = own /\
      fold_right (fun p P => wf_str p.1 /\ json_data p.2 /\ P) True own
  | _ => False
  end.

Lemma delimited_ws r : delimited r -> skip_ws r = r.
Proof. destruct r as [|c r]; [done|]. by intros [-> | [-> | ->]]. Qed.

Lemma well_formed_app a b : well_formed a -> well_formed b -> well_formed (a ++ b).
Proof.
  intros Ha Hb. induction Ha as [|c d s E IH|c s Hc IH] using well_formed_ind; [done|..]; cbn [app].
  - by apply well_formed_pair.
  - by apply well_formed_cons.
Qed.

Lemma text_ok_app a b : text_ok a -> text_ok b -> text_ok (a ++ b).
Proof. intros [? ?] [? ?]. split; [by apply well_formed_app | by apply Forall_app]. Qed.

Lemma text_ok_unit c : is_unit c -> surrogate c = false -> text_ok [c].
Proof. intros ? ?. split; [apply well_formed_cons; [done|]; apply Forall_nil_2 | by apply Forall_singleton]. Qed.

Lemma text_ok_nil : text_ok [].
Proof. split; apply Forall_nil_2. Qed.

Lemma text_ok_printable t : forallb (fun c => (0 <=? c) && (c <? 128)) t = true -> text_ok t.
Proof.
  induction t as [|c t IH]; cbn; [by intros _; apply text_ok_nil|]. rewrite !andb_true_iff. intros [[Hc Hc'] Ht].
  apply Z.leb_le in Hc. apply Z.ltb_lt in Hc'. apply (text_ok_app [c]); [|by apply IH]. apply text_ok_unit.
  - unfold is_unit. lia.
  - unfold surrogate, is_high, is_low. rewrite orb_false_iff, !andb_false_iff, !Z.leb_gt. lia.
Qed.

Lemma text_ok_join sep l : text_ok sep -> Forall text_ok l -> text_ok (join sep l).
Proof.
  intros Hs H. induction H as [|t l Ht Hl IH]; [apply text_ok_nil|]. destruct l as [|t' l]; [done|].
  change (join sep (t :: t' :: l)) with (t ++ sep ++ join sep (t' :: l)). auto using text_ok_app.
Qed.

Lemma hex_digit_ascii d : 0 <= d < 16 -> (0 <=? hex_digit d) && (hex_digit d <? 128) = true.
Proof. intros H. unfold hex_digit. destruct (d <? 10); rewrite andb_true_iff, Z.leb_le, Z.ltb_lt; lia. Qed.

Lemma text_ok_quote_unit c : is_unit c -> text_ok (quote_unit c).
Proof.
  unfold is_unit. intros Hc. unfold quote_unit.
  repeat match goal with |- context [c =? ?k] => destruct (c =? k); [by apply text_ok_printable|] end.
  destruct (_ || _ || _) eqn:E.
  - apply text_ok_app; [by apply text_ok_printable|]. apply text_ok_printable. unfold hex4. cbn [forallb].
    rewrite !hex_digit_ascii; [done | apply Z.mod_pos_bound; lia..|].
    split; [apply Z.div_pos; lia | apply Z.div_lt_upper_bound; lia].
  - rewrite !orb_false_iff in E. destruct E as [[_ H1] H2]. apply text_ok_unit; [done|]. unfold surrogate. by rewrite H1, H2.
Qed.

Lemma text_ok_quote s : wf_str s -> text_ok (json_quote s).
Proof.
  intros Hs. unfold json_quote. apply text_ok_app; [by apply text_ok_printable|].
  apply text_ok_app; [|by apply text_ok_printable].
  revert Hs. induction s as [|c d s E IH|c s E IH] using chars_ind; intros Hs; [apply text_ok_nil|..].
  - cbn [quote_body]. rewrite E. apply Forall_cons in Hs as [Hc Hs]. apply Forall_cons in Hs as [Hd Hs].
    destruct (IH Hs) as [Hw Hu]. split; [by apply well_formed_pair|]. by do 2 (apply Forall_cons_2; [done|]).
  - apply Forall_cons in Hs as [Hc Hs].
    assert (quote_body (c :: s) = quote_unit c ++ quote_body s) as ->.
    { destruct s as [|d s]; [cbn; by rewrite app_nil_r|]. cbn [quote_body]. by rewrite (E d s eq_refl). }
    apply text_ok_app; [by apply text_ok_quote_unit | by apply IH].
Qed.

(** [v] is written as [t], which reads back before any delimiter. *)
Record written (v : jsval) (t : jsstr) : Prop := {
  wr_head : exists c t', t = c :: t' /\ json_ws c = false /\ c <> 93 /\ c <> 125;
  wr_ok : text_ok t;
  wr_text : JSON_stringify v = Some t;
  wr_reads : forall fuel r, delimited r -> (2 * length t < fuel)%nat -> json_value fuel (t ++ r) = Ok (v, r)
}.

Lemma written_number z : Z.abs z <= 2 ^ 53 -> written (JNum (NInt z)) (decimal_text z).
Proof.
  intros Hz.
  assert (exists c t, decimal_text z = c :: t /\ In c [45; 48; 49; 50; 51; 52; 53; 54; 55; 56; 57]) as (c & t & E & Hc).
  { destruct (decimal_text_digits z) as (neg & ds & -> & Hds & _). destruct neg; [eexists _, _; split; [done | cbn; tauto]|].
    destruct Hds as [-> | Hp]; [eexists _, _; split; [done | cbn; tauto]|]. destruct ds as [|c ds]; [done|].
    apply leading_digit in Hp. eexists _, _. split; [done|]. cbn in Hp |- *. tauto. }
  split.
  - exists c, t. split; [done|]. clear - Hc. cbn in Hc. repeat destruct Hc as [<-|Hc]; done.
  - apply text_ok_printable. destruct (decimal_text_digits z) as (neg & ds & -> & Hds & _).
    destruct (digits_of_pattern ds Hds) as [Hd _]. destruct neg; cbn [forallb]; [apply andb_true_iff; split; [done|]|];
      (rewrite forallb_forall in Hd |- *; intros x Hx; specialize (Hd x Hx); revert Hd; unfold is_digit;
       rewrite !andb_true_iff, !Z.leb_le, Z.ltb_lt; lia).
  - cbn. destruct (Z.leb_spec (Z.abs z) (2 ^ 53)); [done | lia].
  - intros [|fuel] r Hr Hf; [lia|]. cbn [json_value].
    pose proof (json_number_decimal z r Hr) as Hn. rewrite E in *. cbn [app] in *.
    assert (json_ws c = false /\ (c =? 34) = false /\ (c =? 123) = false /\ (c =? 91) = false /\ (c =? 116) = false /\
            (c =? 102) = false /\ (c =? 110) = false) as (H1 & H2 & H3 & H4 & H5 & H6 & H7)
      by (clear - Hc; cbn in Hc; repeat destruct Hc as [<-|Hc]; done).
    cbn [skip_ws]. rewrite H1, H2, H3, H4, H5, H6, H7, Hn. cbn [or_bad mbind result_bind fst snd].
    by rewrite <- E, string_to_number_decimal.
Qed.

Lemma written_literal v text :
  In (v, text) [(JNull, js "null"); (JBool true, js "true"); (JBool false, js "false")] -> written v text.
Proof.
  intros [[= <- <-]|[[= <- <-]|[[= <- <-]|[]]]]; (split; [by eexists _, _ | by apply text_ok_printable | done|]);
    (intros [|fuel] r Hr Hf; [lia|]); done.
Qed.

Lemma written_string s : wf_str s -> written (JStr s) (json_quote s).
Proof.
  intros Hs. split; [by eexists _, _ | by apply text_ok_quote | done|]. intros [|fuel] r Hr Hf; [lia|]. unfold json_quote.
  rewrite <- !(assoc_L (++)). cbn [json_value app skip_ws]. cbn [json_ws Z.eqb Pos.eqb orb].
  pose proof (json_string_quoted s r Hs) as E. cbn [app] in E. by rewrite E.
Qed.

Lemma json_elements_written vs ts fuel r :
  Forall2 written vs ts -> ts <> [] -> (2 * length (join [44%Z] ts) + 1 < fuel)%nat ->
  json_elements fuel (join [44] ts ++ 93 :: r) = Ok (vs, r).
Proof.
  intros H. revert fuel. induction H as [|v t vs ts Hv Hvs IH]; intros fuel Hne Hf; [done|].
  destruct fuel as [|fuel]; [lia|]. cbn [json_elements]. destruct ts as [|t' ts].
  - apply Forall2_nil_inv_r in Hvs as ->. cbn [join] in *.
    rewrite (wr_reads _ _ Hv fuel (93 :: r)) by (cbn; auto || lia). done.
  - cbn [join] in *. rewrite !length_app in Hf. cbn [length] in Hf. rewrite <- !(assoc_L (++)).
    rewrite (wr_reads _ _ Hv fuel) by (cbn; auto || lia). cbn [mbind result_bind snd fst app skip_ws].
    cbn [json_ws Z.eqb Pos.eqb orb eat]. rewrite IH by (done || lia). done.
Qed.

Lemma written_array vs ts : Forall2 written vs ts -> written (JArr vs) ([91] ++ join [44] ts ++ [93]).
Proof.
  intros H. split; [by eexists _, _ | | |].
  - apply text_ok_app; [by apply text_ok_printable|]. apply text_ok_app; [|by apply text_ok_printable].
    apply text_ok_join; [by apply text_ok_printable|].
    induction H as [|v t vs ts Hv _ IH]; constructor; [by apply wr_ok in Hv | done].
  - cbn. do 3 f_equal. f_equal. induction H as [|v t vs ts Hv _ IH]; [done|]. cbn. by rewrite IH, (wr_text _ _ Hv).
  - intros [|fuel] r Hr Hf; [lia|]. rewrite <- !(assoc_L (++)). cbn [json_value app skip_ws].
    cbn [json_ws Z.eqb Pos.eqb orb]. rewrite !length_app in Hf. cbn [length] in Hf.
    destruct H as [|v t vs ts Hv Hvs]; [done|].
    assert (eat 93 (skip_ws (join [44] (t :: ts) ++ 93 :: r)) = None) as ->.
    { destruct (wr_head _ _ Hv) as (c & t' & -> & Hws & H93 & _). destruct ts; cbn [join app skip_ws]; rewrite Hws;
        cbn [eat]; by destruct (Z.eqb_spec c 93). }
    rewrite (json_elements_written (v :: vs) (t :: ts)) by (try done; (by constructor) || lia). done.
Qed.

(** A member of an object and its text. *)
Definition member_text (p : jsstr * jsstr) : jsstr := json_quote p.1 ++ [58] ++ p.2.

Definition member_written (p : jsstr * jsval) (q : jsstr * jsstr) : Prop :=
  q.1 = p.1 /\ wf_str p.1 /\ written p.2 q.2.

Lemma json_members_written own texts : forall fuel acc r,
  Forall2 member_written own texts -> texts <> [] -> NoDup (map fst (acc ++ own)) ->
  (2 * length (join [44%Z] (map member_text texts)) < fuel)%nat ->
  json_members fuel acc (join [44] (map member_text texts) ++ 125 :: r) = Ok (acc ++ own, r).
Proof.
  revert texts. induction own as [|[k v] own IH]; intros texts fuel acc r HF Hne Hnd Hf;
    [by apply Forall2_nil_inv_l in HF as ->|].
  apply Forall2_cons_inv_l in HF as ([k' t] & texts' & (E & Hk & Hv) & HF & ->). cbn in E, Hk, Hv. subst k'.
  destruct fuel as [|fuel]; [lia|].
  assert (assoc_set k v acc = acc ++ [(k, v)]) as Hset.
  { apply assoc_set_fresh. rewrite map_app, NoDup_app in Hnd. intros Hin. destruct Hnd as (_ & Hd & _).
    apply (Hd k); [by apply list_elem_of_In | by left]. }
  set (tail := match texts' with [] => [] | _ => 44 :: join [44] (map member_text texts') end).
  assert (join [44] (map member_text ((k, t) :: texts')) = json_quote k ++ [58] ++ t ++ tail) as Ej.
  { unfold tail, member_text. destruct texts'; cbn [map join fst snd]; rewrite ?(right_id_L [] (++)); [done|].
    by rewrite <- !(assoc_L (++)). }
  rewrite Ej in *. clear Ej. rewrite !length_app in Hf. cbn [length] in Hf.
  replace ((json_quote k ++ [58] ++ t ++ tail) ++ 125 :: r)
    with (34 :: quote_body k ++ [34] ++ 58 :: t ++ tail ++ 125 :: r)
    by (unfold json_quote; rewrite <- !(assoc_L (++)); done).
  cbn [json_members skip_ws]. cbn [json_ws Z.eqb Pos.eqb orb eat or_bad mbind result_bind].
  rewrite (json_string_quoted k _ Hk). cbn [or_bad mbind result_bind fst snd skip_ws].
  cbn [json_ws Z.eqb Pos.eqb orb eat or_bad mbind result_bind].
  assert (delimited (tail ++ 125 :: r)) as Hdel by (unfold tail; destruct texts'; cbn; auto).
  rewrite (wr_reads _ _ Hv fuel) by (done || lia). cbn [mbind result_bind fst snd].
  rewrite (delimited_ws _ Hdel), Hset. unfold tail in *. destruct texts' as [|q texts'].
  - apply Forall2_nil_inv_r in HF as ->. done.
  - cbn [app eat Z.eqb Pos.eqb]. cbn [length] in Hf. rewrite IH; [by rewrite <- (assoc_L (++)) | done | done | | lia].
    by rewrite <- (assoc_L (++)).
Qed.

Lemma member_keys own texts : Forall2 member_written own texts -> map fst own = map fst texts.
Proof. induction 1 as [|p q own texts (E & _) _ IH]; [done|]. cbn. by rewrite E, IH. Qed.

Lemma assoc_texts own texts k q :
  Forall2 member_written own texts -> NoDup (map fst own) -> In (k, q) texts ->
  assoc k (map (fun p => (p.1, JSON_stringify p.2)) own) = Some (Some q).
Proof.
  induction 1 as [|[k0 v] [k1 t] own texts (E & _ & Hv) HF IH]; intros Hnd Hin; [done|]. cbn in E, Hv, Hnd. subst k1.
  apply NoDup_cons in Hnd as [Hk Hnd]. cbn. destruct Hin as [[= <- <-]|Hin].
  - by rewrite bool_decide_eq_true_2, (wr_text _ _ Hv).
  - rewrite bool_decide_eq_false_2; [by apply IH|]. intros <-. apply Hk. rewrite (member_keys _ _ HF).
    apply list_elem_of_In, (in_map fst _ _ Hin).
Qed.

Lemma omap_texts (f : jsstr -> option (option jsstr)) (texts : list (jsstr * jsstr)) :
  (forall k q, In (k, q) texts -> f k = Some (Some q)) ->
  omap (fun k => match f k with Some (Some t) => Some (k, t) | _ => None end) (map fst texts) = texts.
Proof.
  induction texts as [|[k t] texts IH]; [done|]. intros H. cbn. rewrite (H k t) by (by left). f_equal. apply IH.
  intros k' q' Hin. apply H. by right.
Qed.

Lemma written_object own texts :
  Forall2 member_written own texts -> NoDup (map fst own) -> enumerate own = own ->
  written (JPlain own) (braced texts).
Proof.
  intros HF Hnd Hen. split; [by eexists _, _ | | |].
  - apply text_ok_app; [by apply text_ok_printable|]. apply text_ok_app; [|by apply text_ok_printable].
    apply text_ok_join; [by apply text_ok_printable|]. clear Hnd Hen.
    induction HF as [|p q own texts (E & Hk & Hv) _ IH]; constructor; [|done]. rewrite E.
    apply text_ok_app; [by apply text_ok_quote|]. apply text_ok_app; [by apply text_ok_printable | by apply wr_ok in Hv].
  - cbn [JSON_stringify]. rewrite Hen, (member_keys _ _ HF).
    by rewrite (omap_texts (fun k => assoc k (map (fun p => (p.1, JSON_stringify p.2)) own)) texts
                  (fun k q => assoc_texts own texts k q HF Hnd)).
  - intros [|fuel] r Hr Hf; [lia|]. unfold braced in *. fold member_text in *. rewrite !length_app in Hf.
    cbn [length] in Hf. rewrite <- !(assoc_L (++)). cbn [json_value app skip_ws]. cbn [json_ws Z.eqb Pos.eqb orb].
    destruct HF as [|p q own texts Hp HF]; [done|].
    assert (eat 125 (skip_ws (join [44] (map member_text (q :: texts)) ++ 125 :: r)) = None) as ->.
    { cbn [map]. unfold member_text at 1, json_quote. destruct texts; done. }
    rewrite (json_members_written (p :: own) (q :: texts) fuel []) by (try done; (by constructor) || lia). done.
Qed.

Lemma json_data_written v : json_data v -> exists t, written v t.
Proof.
  induction v as [| |b|n|s| | |l IH|own inh IH _] using jsval_nested_ind; cbn [json_data]; try done.
  - intros _. eexists. apply written_literal. cbn. auto.
  - intros _. destruct b; eexists; apply written_literal; cbn; auto.
  - destruct n; try done. intros H. eexists. by apply written_number.
  - intros H. eexists. by apply written_string.
  - intros H. assert (exists ts, Forall2 written l ts) as [ts Hts].
    { induction IH as [|v l Hv _ IHl]; [by exists []|]. destruct H as [Hd H]. destruct (Hv Hd) as [t Ht].
      destruct (IHl H) as [ts Hts]. exists (t :: ts). by constructor. }
    eexists. by apply written_array.
  - intros (-> & Hnd & Hen & H). assert (exists ts, Forall2 member_written own ts) as [ts Hts].
    { clear Hnd Hen. induction IH as [|[k v] own Hv _ IHl]; [by exists []|]. destruct H as (Hk & Hd & H).
      destruct (Hv Hd) as [t Ht]. destruct (IHl H) as [ts Hts]. exists ((k, t) :: ts). by constructor. }
    eexists. by apply written_object.
Qed.

(** Text that [JSON.stringify] writes parses to the value it was written from. *)
Lemma JSON_roundtrip message v :
  json_data v -> exists t, JSON_stringify v = Some t /\ text_ok t /\ JSON_parse message t = Ok v.
Proof.
  intros H. destruct (json_data_written v H) as [t Ht]. exists t. split; [by apply wr_text|].
  split; [by apply wr_ok in Ht|].
  unfold JSON_parse. pose proof (wr_reads _ _ Ht (S (2 * length t)) [] I ltac:(lia)) as E.
  rewrite app_nil_r in E. by rewrite E.
Qed.

(** ** UTF-8 decodes what was encoded *)

(** Or of bits that do not overlap, for a range that is enumerated. *)
Lemma lor_range base n x :
  forallb (fun k => Z.lor base (Z.of_nat k) =? base + Z.of_nat k) (seq 0 n) = true ->
  0 <= x < Z.of_nat n -> Z.lor base x = base + x.
Proof.
  intros H Hx. rewrite forallb_forall in H. specialize (H (Z.to_nat x)). rewrite Z2Nat.id in H by lia.
  apply Z.eqb_eq, H. apply in_seq. lia.
Qed.

Lemma continuation p : Z.lor 0x80 (Z.land p 0x3f) = 0x80 + p mod 64.
Proof.
  change 0x3f with (Z.ones 6). rewrite Z.land_ones by lia. change (2 ^ 6) with 64.
  apply (lor_range 0x80 64); [done|]. apply Z.mod_pos_bound. lia.
Qed.

Definition scalar_value (p : Z) : Prop := 0 <= p < 0xd800 \/ 0xe000 <= p < 0x110000.

(** The bytes of a code point, by division. *)
Lemma utf8_of_code_point_div p :
  0 <= p < 0x110000 ->
  utf8_of_code_point p =
    if p <? 0x80 then [p]
    else if p <? 0x800 then [0xc0 + p / 64; 0x80 + p mod 64]
    else if p <? 0x10000 then [0xe0 + p / 4096; 0x80 + p / 64 mod 64; 0x80 + p mod 64]
    else [0xf0 + p / 262144; 0x80 + p / 4096 mod 64; 0x80 + p / 64 mod 64; 0x80 + p mod 64].
Proof.
  intros Hp. unfold utf8_of_code_point. rewrite !continuation, !Z.shiftr_div_pow2 by lia.
  change (2 ^ 6) with 64. change (2 ^ 12) with 4096. change (2 ^ 18) with 262144.
  destruct (Z.ltb_spec p 0x80); [done|]. destruct (Z.ltb_spec p 0x800).
  - rewrite (lor_range 0xc0 32); [done | done|]. split; [apply Z.div_pos | apply Z.div_lt_upper_bound]; lia.
  - destruct (Z.ltb_spec p 0x10000).
    + rewrite (lor_range 0xe0 16); [done | done|]. split; [apply Z.div_pos | apply Z.div_lt_upper_bound]; lia.
    + rewrite (lor_range 0xf0 8); [done | done|]. split; [apply Z.div_pos | apply Z.div_lt_upper_bound]; lia.
Qed.

(** The comparisons of the decoder, decided by arithmetic. *)
Ltac decide_range :=
  repeat match goal with
  | |- context [?a <=? ?b] => destruct (Z.leb_spec a b); try lia
  | |- context [?a <? ?b] => destruct (Z.ltb_spec a b); try lia
  | |- context [?a =? ?b] => destruct (Z.eqb_spec a b); try lia
  end; cbn [andb orb].

(** One byte of a sequence that is in range. *)
Lemma utf8_run_more n p lo hi x b :
  lo <= x <= hi ->
  utf8_run (Some {| us_needed := S (S n); us_point := p; us_lower := lo; us_upper := hi |}) (x :: b) =
  utf8_run (Some {| us_needed := S n; us_point := p * 64 + (x - 0x80); us_lower := 0x80; us_upper := 0xbf |}) b.
Proof. intros H. cbn [utf8_run us_lower us_upper us_needed us_point]. decide_range. done. Qed.

Lemma utf8_run_last p lo hi x b :
  lo <= x <= hi ->
  utf8_run (Some {| us_needed := 1; us_point := p; us_lower := lo; us_upper := hi |}) (x :: b) =
  units_of_point (p * 64 + (x - 0x80)) ++ utf8_run None b.
Proof. intros H. cbn [utf8_run us_lower us_upper us_needed us_point]. decide_range. done. Qed.

Lemma utf8_run_start x b : utf8_run None (x :: b) = (utf8_start x).1 ++ utf8_run (utf8_start x).2 b.
Proof. cbn [utf8_run]. by destruct (utf8_start x). Qed.

Lemma utf8_run_point p b :
  scalar_value p -> utf8_run None (utf8_of_code_point p ++ b) = units_of_point p ++ utf8_run None b.
Proof.
  intros Hp. rewrite utf8_of_code_point_div by (unfold scalar_value in Hp; lia). unfold scalar_value in Hp.
  pose proof (Z.div_mod p 64 ltac:(lia)) as D1. pose proof (Z.mod_pos_bound p 64 ltac:(lia)) as M1.
  pose proof (Z.div_mod (p / 64) 64 ltac:(lia)) as D2. pose proof (Z.mod_pos_bound (p / 64) 64 ltac:(lia)) as M2.
  pose proof (Z.div_mod (p / 4096) 64 ltac:(lia)) as D3. pose proof (Z.mod_pos_bound (p / 4096) 64 ltac:(lia)) as M3.
  rewrite Z.div_div in D2, D3 by lia. change (64 * 64) with 4096 in D2. change (4096 * 64) with 262144 in D3.
  set (a := p mod 64) in *. set (b1 := p / 64 mod 64) in *. set (c1 := p / 4096 mod 64) in *.
  destruct (Z.ltb_spec p 0x80).
  { cbn [app]. rewrite utf8_run_start. unfold utf8_start, units_of_point. decide_range. done. }
  destruct (Z.ltb_spec p 0x800).
  { cbn [app]. rewrite utf8_run_start. unfold utf8_start. decide_range. cbn [app fst snd].
    rewrite utf8_run_last by lia. do 2 f_equal. lia. }
  destruct (Z.ltb_spec p 0x10000).
  { cbn [app]. rewrite utf8_run_start. unfold utf8_start. decide_range; cbn [app fst snd];
      rewrite utf8_run_more by lia; rewrite utf8_run_last by lia; do 2 f_equal; lia. }
  cbn [app]. rewrite utf8_run_start. unfold utf8_start. decide_range; cbn [app fst snd];
    rewrite !utf8_run_more by lia; rewrite utf8_run_last by lia; do 2 f_equal; lia.
Qed.

Lemma utf8_single c s :
  surrogate c = false -> utf8 (c :: s) = utf8_of_code_point c ++ utf8 s.
Proof.
  unfold surrogate. intros H. unfold utf8.
  assert (code_points (c :: s) = c :: code_points s) as ->.
  { apply orb_false_iff in H as [H _]. destruct s as [|d s]; [done|]. cbn [code_points]. by rewrite H. }
  cbn [map concat]. by rewrite H.
Qed.

Lemma pair_point c d :
  is_high c && is_low d = true ->
  let p := 0x10000 + (c - 0xd800) * 0x400 + (d - 0xdc00) in
  scalar_value p /\ surrogate p = false /\ units_of_point p = [c; d].
Proof.
  unfold is_high, is_low. rewrite !andb_true_iff, !Z.leb_le. intros [Hc Hd]. cbn zeta.
  set (p := 0x10000 + (c - 0xd800) * 0x400 + (d - 0xdc00)). split; [right; lia|]. split.
  - unfold surrogate, is_high, is_low. rewrite orb_false_iff, !andb_false_iff, !Z.leb_gt. lia.
  - unfold units_of_point. destruct (Z.ltb_spec p 0x10000); [lia|].
    replace (p - 0x10000) with ((d - 0xdc00) + (c - 0xd800) * 0x400) by lia.
    rewrite Z.div_add, Z.mod_add, Z.div_small, Z.mod_small by lia. f_equal; [lia|]. f_equal. lia.
Qed.

Lemma utf8_pair c d s :
  is_high c && is_low d = true ->
  utf8 (c :: d :: s) = utf8_of_code_point (0x10000 + (c - 0xd800) * 0x400 + (d - 0xdc00)) ++ utf8 s.
Proof.
  intros H. destruct (pair_point c d H) as (_ & Hs & _). unfold utf8. cbn [code_points]. rewrite H.
  cbn [map concat]. unfold surrogate in Hs. by rewrite Hs.
Qed.

Lemma utf8_roundtrip s : well_formed s -> wf_str s -> utf8_decode (utf8 s) = s.
Proof.
  unfold utf8_decode. intros H. induction H as [|c d s E IH|c s Hc IH] using well_formed_ind; intros Hwf; [done|..].
  - destruct (pair_point c d E) as (Hp & _ & Hu). rewrite (utf8_pair c d s E), utf8_run_point, Hu by done. cbn [app].
    do 2 f_equal. apply IH. apply Forall_cons in Hwf as [_ Hwf]. by apply Forall_cons in Hwf as [_ Hwf].
  - apply Forall_cons in Hwf as [Hcu Hwf]. rewrite utf8_single by done. unfold is_unit in Hcu.
    assert (scalar_value c) as Hs.
    { unfold surrogate, is_high, is_low in Hc. rewrite orb_false_iff, !andb_false_iff, !Z.leb_gt in Hc.
      unfold scalar_value. lia. }
    rewrite utf8_run_point by done. unfold units_of_point. destruct (Z.ltb_spec c 0x10000); [|lia]. cbn [app].
    f_equal. by apply IH.
Qed.
