(* ===== verification/BlobStore.v ===== *)
(** * Payload storage

    src/sdk/node/src/runtime.ts: the blob stores, the pointers under which
    payloads travel, the deadline of an operation, and how payloads are written
    and read. *)

From S2P Require Import Prelude JsString JsValue Protos Codec Json.

(** ** Stores *)

(** [BlobStore]; [close] has no effect on the contents. *)
Class BlobStore (B : Type) : Type := {
  blob_get : B -> jsstr -> result (option bytes) * B;
  blob_set : B -> jsstr -> bytes -> result unit * B
}.

Definition InMemoryBlobStore : Type := gmap jsstr bytes.

#[global] Instance in_memory_blob : BlobStore InMemoryBlobStore := {
  blob_get := fun data key => (Ok (data !! key), data);
  blob_set := fun data key value => (Ok tt, <[key := value]> data)
}.

(** The redis client: [redis_ready] is how the promise of [connect] settles. *)
Class RedisClient (R : Type) : Type := {
  redis_ready : R -> result unit;
  redis_get : R -> jsstr -> result (option jsstr) * R;
  redis_set : R -> jsstr -> jsstr -> result unit * R
}.

Record RedisBlobStore (R : Type) : Type := { client : R }.
Arguments client {R} _.

Section Redis.
Context {R : Type} `{RedisClient R}.

#[global] Instance redis_blob : BlobStore (RedisBlobStore R) := {
  blob_get := fun s key =>
    match redis_ready (client s) with
    | Ok _ =>
        let '(value, c) := redis_get (client s) key in
        (let! v := value in Ok (option_map utf8 v), {| client := c |})
    | Throw e => (Throw e, s)
    | NoFuel => (NoFuel, s)
    end;
  blob_set := fun s key data =>
    match redis_ready (client s) with
    | Ok _ => let '(r, c) := redis_set (client s) key (utf8_decode data) in (r, {| client := c |})
    | Throw e => (Throw e, s)
    | NoFuel => (NoFuel, s)
    end
}.
End Redis.

(** ** Pointers *)

Definition pointerForKey (key : jsstr) : jsstr := js "redis://" ++ key.

Definition keyFromPointer (ptr : jsval) : result jsstr :=
  do! throw_if (negb (truthy ptr)) InvalidInputError (js "empty pointer") ;;
  match ptr with
  | JStr s =>
      do! throw_if (negb (starts_with (js "redis://") s)) InvalidInputError (js "unsupported pointer scheme") ;;
      let key := drop (length (js "redis://")) s in
      do! throw_if (str_empty key) InvalidInputError (js "missing pointer key") ;;
      Ok key
  | _ => throw TypeError (js "ptr.startsWith is not a function")
  end.

(** ** Deadlines *)

(** What happens first: the promise settles, the timer fires, or the
    cancellation is rejected. *)
Inductive race : Set := PromiseSettles | TimerFires | CancellationFires (error : exn).

(** [!ms || ms <= 0] *)
Definition no_deadline (ms : option jsnum) : bool :=
  match ms with None => true | Some n => negb (truthy (JNum n)) || num_ltb n (NInt 0) end.

(** The outcome of [withTimeout], given that of the promise.  Without a
    deadline there is no timer. *)
Definition withTimeout {A} (promise : result A) (ms : option jsnum) (label : jsstr) (first : race) : result A :=
  match first with
  | CancellationFires e => Throw e
  | TimerFires => if no_deadline ms then promise else throw OperationTimeoutError (label ++ js " timed out")
  | PromiseSettles => promise
  end.

(** ** Payloads *)

(** What a handler returns: a [Buffer], or any other value. *)
Inductive job_output : Type := Raw (data : bytes) | Value (v : jsval).

Definition serializeOutput (data : job_output) : result bytes :=
  match data with
  | Raw b => Ok b
  | Value v =>
      do! throw_if (is_undefined v) PlainError (js "output is undefined") ;;
      match JSON_stringify v with
      | Some text => Ok (utf8 text)
      | None => throw TypeError (js "The first argument must be of type string or an instance of Buffer")
      end
  end.

(** [JSON.parse(payload.toString("utf-8"))] *)
Definition parsePayload (message : jsstr -> jsstr) (payload : bytes) : result jsval :=
  JSON_parse message (utf8_decode payload).

(** ** Round trips *)

(** A pointer made for a key leads back to it. *)
Lemma pointer_roundtrip key : key <> [] -> keyFromPointer (JStr (pointerForKey key)) = Ok key.
Proof.
  intros Hk. unfold keyFromPointer, pointerForKey. cbn [truthy]. rewrite starts_with_app, drop_app_length.
  by destruct key.
Qed.

(** The only keys a pointer leads to are those it was made for. *)
Lemma keyFromPointer_iff ptr key :
  keyFromPointer ptr = Ok key <-> ptr = JStr (pointerForKey key) /\ key <> [].
Proof.
  split; [|by intros [-> ?]; apply pointer_roundtrip]. unfold keyFromPointer. intros H.
  apply do_Ok_iff in H as [_ H]. destruct ptr as [| | | |s| | | |]; try discriminate H.
  apply do_Ok_iff in H as [Hs%throw_if_Ok_iff H]. apply negb_false_iff, starts_with_iff in Hs as [r ->].
  rewrite drop_app_length in H. cbn zeta in H. apply do_Ok_iff in H as [Hr [= <-]]. split; [done|]. by destruct r.
Qed.

(** What a store that keeps its values promises to the agent. *)
Class BlobStoreLaws (B : Type) `{BlobStore B} (keeps : bytes -> Prop) : Prop := {
  blob_get_set : forall (s s' : B) key data,
    blob_set s key data = (Ok tt, s') -> keeps data -> (blob_get s' key).1 = Ok (Some data);
  blob_get_other : forall (s s' : B) key key' data,
    blob_set s key data = (Ok tt, s') -> key' <> key -> (blob_get s' key').1 = (blob_get s key').1
}.

#[global] Instance in_memory_blob_laws : BlobStoreLaws InMemoryBlobStore (fun _ => True).
Proof.
  split.
  - intros s s' key data [= <-] _. unfold blob_get, in_memory_blob, InMemoryBlobStore. cbn [fst].
    by rewrite lookup_insert_eq.
  - intros s s' key key' data [= <-] Hne. unfold blob_get, in_memory_blob, InMemoryBlobStore. cbn [fst].
    by rewrite lookup_insert_ne.
Qed.

(** The bytes that are text: what [toString("utf-8")] keeps. *)
Definition utf8_text (data : bytes) : Prop := exists s, text_ok s /\ data = utf8 s.

Section RedisLaws.
Context {R : Type} `{RedisClient R}.

(** The redis server keeps the strings it is given. *)
Hypothesis redis_get_set : forall (c c' : R) key value,
  redis_ready c = Ok tt -> redis_set c key value = (Ok tt, c') ->
  redis_ready c' = Ok tt /\ (redis_get c' key).1 = Ok (Some value) /\
  forall key', key' <> key -> (redis_get c' key').1 = (redis_get c key').1.

Lemma redis_set_inv (s s' : RedisBlobStore R) key data :
  blob_set s key data = (Ok tt, s') ->
  redis_ready (client s) = Ok tt /\ redis_set (client s) key (utf8_decode data) = (Ok tt, client s').
Proof.
  cbn. destruct (redis_ready (client s)) as [[]|?|]; [|done|done].
  destruct (redis_set _ _ _) as [r c] eqn:E. intros [= -> <-]. done.
Qed.

Lemma redis_get_ready (s : RedisBlobStore R) key :
  redis_ready (client s) = Ok tt ->
  (blob_get s key).1 = let! v := (redis_get (client s) key).1 in Ok (option_map utf8 v).
Proof. intros Hr. cbn. rewrite Hr. by destruct (redis_get _ _). Qed.

(** Text is kept; other bytes are not, since they are stored as a string. *)
Lemma redis_blob_laws : BlobStoreLaws (RedisBlobStore R) utf8_text.
Proof.
  split.
  - intros s s' key data [Hr Hs]%redis_set_inv (t & [Ht Hwf] & ->).
    destruct (redis_get_set _ _ _ _ Hr Hs) as (Hr' & Hg & _). rewrite redis_get_ready, Hg by done. cbn.
    by rewrite utf8_roundtrip.
  - intros s s' key key' data [Hr Hs]%redis_set_inv Hne.
    destruct (redis_get_set _ _ _ _ Hr Hs) as (Hr' & _ & Ho). by rewrite !redis_get_ready, Ho.
Qed.
End RedisLaws.

(** A [Buffer] that is not text comes back as other bytes. *)
Example redis_changes_bytes : utf8 (utf8_decode [0xff; 0x00]) = [0xef; 0xbf; 0xbd; 0x00].
Proof. vm_compute. reflexivity. Qed.

(** A serialised value is text and is parsed back. *)
Lemma payload_text message v :
  json_data v ->
  exists data, serializeOutput (Value v) = Ok data /\ utf8_text data /\ parsePayload message data = Ok v.
Proof.
  intros H. destruct (JSON_roundtrip message v H) as (t & Ht & [Hw Hs] & Hp). exists (utf8 t).
  unfold serializeOutput, parsePayload. rewrite Ht, utf8_roundtrip by done.
  split; [by destruct v|]. split; [by exists t | done].
Qed.
