(* ===== verification/Effects.v ===== *)
(** * Tasks

    A small monad for asynchronous methods of one object: a run reads and
    writes the object's state, which other tasks may change while it awaits,
    asks the environment (the clock, timers, randomness) and leaves a trace of
    the calls it makes to the outside.  [traced] is a program logic for the
    trace, [keeps] one for relations between the start and the end of a run. *)

From S2P Require Import Prelude.

(** [tk_tick] counts the questions to the environment, so that each may have
    its own answer. *)
Record task (W E : Type) : Type := Task { tk_state : W; tk_tick : nat; tk_events : list E }.
Arguments Task {W E} _ _ _.
Arguments tk_state {W E} _.
Arguments tk_tick {W E} _.
Arguments tk_events {W E} _.

Section Monad.
Context {W E : Type}.

Definition M (A : Type) : Type := task W E -> result A * task W E.

Definition lift {A} (r : result A) : M A := fun t => (r, t).
Definition ret {A} (a : A) : M A := lift (Ok a).

Definition bindM {A B} (m : M A) (k : A -> M B) : M B := fun t =>
  match m t with
  | (Ok a, t') => k a t'
  | (Throw e, t') => (Throw e, t')
  | (NoFuel, t') => (NoFuel, t')
  end.

(** [try { m } catch (e) { ... }]: the outcome of [m]. *)
Definition attempt {A} (m : M A) : M (exn + A) := fun t =>
  match m t with
  | (Ok a, t') => (Ok (inr a), t')
  | (Throw e, t') => (Ok (inl e), t')
  | (NoFuel, t') => (NoFuel, t')
  end.

(** [try { m } finally { this = f(this) }] *)
Definition finally {A} (m : M A) (f : W -> W) : M A := fun t =>
  let '(r, t') := m t in (r, Task (f (tk_state t')) (tk_tick t') (tk_events t')).

(** The state is read, or read and written, by synchronous code. *)
Definition state : M W := fun t => (Ok (tk_state t), t).
Definition update {A} (f : W -> result A * W) : M A := fun t =>
  let '(r, w) := f (tk_state t) in (r, Task w (tk_tick t) (tk_events t)).

Definition ask {A} (answer : nat -> A) : M A := fun t =>
  (Ok (answer (tk_tick t)), Task (tk_state t) (S (tk_tick t)) (tk_events t)).

Definition emit (e : E) : M unit := fun t =>
  (Ok tt, Task (tk_state t) (tk_tick t) (tk_events t ++ [e])).

(** An [await]: other tasks run. *)
Definition await (others : nat -> W -> W) : M unit := fun t =>
  (Ok tt, Task (others (tk_tick t) (tk_state t)) (S (tk_tick t)) (tk_events t)).
End Monad.

Arguments M W E A : clear implicits.

Notation "'let*' x := m 'in' k" := (bindM m (fun x => k))
  (at level 10, x binder, m at level 99, k at level 200) : cap_scope.
Notation "'do*' m ;; k" := (bindM m (fun _ => k))
  (at level 10, m at level 99, k at level 200) : cap_scope.

Lemma bindM_Ok {W E A B} (a : A) (k : A -> M W E B) : bindM (lift (Ok a)) k = k a.
Proof. reflexivity. Qed.

(** ** Traces *)

Section Traces.
Context {W E : Type} (P : W -> Prop).

(** From a state in [P] the run ends in [P], and its outcome and the events it
    adds satisfy [Q]. *)
Definition traced {A} (m : M W E A) (Q : result A -> list E -> Prop) : Prop := forall t,
  P (tk_state t) ->
  P (tk_state (m t).2) /\ exists evs, tk_events (m t).2 = tk_events t ++ evs /\ Q (m t).1 evs.

Lemma traced_weaken {A} (m : M W E A) (Q Q' : result A -> list E -> Prop) :
  traced m Q -> (forall r evs, Q r evs -> Q' r evs) -> traced m Q'.
Proof. intros H HQ t Ht. destruct (H t Ht) as (? & evs & ? & ?). split; [done|]. exists evs. auto. Qed.

Lemma traced_lift {A} (r : result A) (Q : result A -> list E -> Prop) : Q r [] -> traced (lift r) Q.
Proof. intros HQ t Ht. split; [done|]. exists []. by rewrite app_nil_r. Qed.

Lemma traced_ret {A} (a : A) (Q : result A -> list E -> Prop) : Q (Ok a) [] -> traced (ret a) Q.
Proof. apply traced_lift. Qed.

Lemma traced_bind {A B} (m : M W E A) (k : A -> M W E B) Q (R : result B -> list E -> Prop) :
  traced m Q ->
  (forall a evs, Q (Ok a) evs -> traced (k a) (fun r evs' => R r (evs ++ evs'))) ->
  (forall e evs, Q (Throw e) evs -> R (Throw e) evs) ->
  (forall evs, Q NoFuel evs -> R NoFuel evs) ->
  traced (bindM m k) R.
Proof.
  intros Hm Hk He Hn t Ht. destruct (Hm t Ht) as (Hp & evs & Ev & HQ). unfold bindM.
  destruct (m t) as [[a|e|] t']; cbn [fst snd] in *.
  - destruct (Hk a evs HQ t' Hp) as (Hp' & evs' & Ev' & HR). split; [done|]. exists (evs ++ evs').
    rewrite Ev', Ev. by rewrite (assoc_L (++)).
  - split; [done|]. eauto.
  - split; [done|]. eauto.
Qed.

Lemma traced_bind_Ok {A B} (a : A) (k : A -> M W E B) Q : traced (k a) Q -> traced (bindM (lift (Ok a)) k) Q.
Proof. exact (fun H => H). Qed.

Lemma traced_attempt {A} (m : M W E A) (Q : result (exn + A) -> list E -> Prop) :
  traced m (fun r evs => Q match r with Ok a => Ok (inr a) | Throw e => Ok (inl e) | NoFuel => NoFuel end evs) ->
  traced (attempt m) Q.
Proof. intros H t Ht. specialize (H t Ht). unfold attempt. by destruct (m t) as [[a|e|] t']. Qed.

Lemma traced_finally {A} (m : M W E A) f (Q : result A -> list E -> Prop) :
  (forall w, P w -> P (f w)) -> traced m Q -> traced (finally m f) Q.
Proof.
  intros Hf H t Ht. specialize (H t Ht). unfold finally. destruct (m t) as [r t']. cbn in *. destruct H. split; auto.
Qed.

Lemma traced_state (Q : result W -> list E -> Prop) : (forall w, P w -> Q (Ok w) []) -> traced state Q.
Proof. intros HQ t Ht. split; [done|]. exists []. split; [by rewrite app_nil_r | by apply HQ]. Qed.

Lemma traced_update {A} (f : W -> result A * W) (Q : result A -> list E -> Prop) :
  (forall w, P w -> P (f w).2 /\ Q (f w).1 []) -> traced (update f) Q.
Proof.
  intros HQ t Ht. destruct (HQ _ Ht) as [? ?]. unfold update. destruct (f (tk_state t)) as [r w]. split; [done|].
  exists []. by rewrite app_nil_r.
Qed.

Lemma traced_ask {A} (answer : nat -> A) (Q : result A -> list E -> Prop) :
  (forall a, Q (Ok a) []) -> traced (ask answer) Q.
Proof. intros HQ t Ht. split; [done|]. exists []. split; [by rewrite app_nil_r | by apply HQ]. Qed.

Lemma traced_emit e (Q : result unit -> list E -> Prop) : Q (Ok tt) [e] -> traced (emit e) Q.
Proof. intros HQ t Ht. split; [done|]. by exists [e]. Qed.

Lemma traced_await others (Q : result unit -> list E -> Prop) :
  (forall n w, P w -> P (others n w)) -> Q (Ok tt) [] -> traced (await others) Q.
Proof. intros Ho HQ t Ht. split; [by apply Ho|]. exists []. by rewrite app_nil_r. Qed.
End Traces.

(** ** Relations *)

Section Relations.
Context {W E : Type} (I : task W E -> task W E -> Prop) `{!PreOrder I}.

(** The start and the end of every run are related. *)
Definition keeps {A} (m : M W E A) : Prop := forall t, I t (m t).2.

Lemma keeps_lift {A} (r : result A) : keeps (lift r).
Proof. intros t. cbn. reflexivity. Qed.

Lemma keeps_state : keeps state.
Proof. intros t. cbn. reflexivity. Qed.

Lemma keeps_bind {A B} (m : M W E A) (k : A -> M W E B) : keeps m -> (forall a, keeps (k a)) -> keeps (bindM m k).
Proof.
  intros Hm Hk t. specialize (Hm t). unfold bindM. destruct (m t) as [[a|e|] t']; cbn in *; [|done..].
  etrans; [exact Hm | apply Hk].
Qed.

Lemma keeps_attempt {A} (m : M W E A) : keeps m -> keeps (attempt m).
Proof. intros Hm t. specialize (Hm t). unfold attempt. by destruct (m t) as [[a|e|] t']. Qed.
End Relations.
