(* ===== verification/Runtime.v ===== *)
(** * The agent: one message

    src/sdk/node/src/runtime.ts: [Agent.onMessage] and the methods it calls.  A
    run is a task over the agent's mutable fields; while it awaits, other
    tasks of the agent may change them.  The trace has the calls of the metrics
    hook and of the logger, the accesses to the blob store, the runs of the
    handler and how they ended, the published results, and what other tasks did
    to the number of active jobs. *)

From S2P Require Import Prelude JsString JsValue Errors Protos WireSchema ProductionSigning Validate ProductionReplay ProductionProducer ProductionEvents Codec PacketBoundary WorkerTrustContract RuntimeTrustConfig WorkerTrustLifecycle RuntimeWorkerTrust ProductionAdmission Json BlobStore Effects.

(** ** Data *)

Inductive level : Set := Info | Warn | Error.

Definition log_fields : Type := list (jsstr * jsval).

Inductive event : Type :=
| ELog (l : level) (msg : jsstr) (fields : log_fields)
| EReceived (jobId topic : jsval)
(** The store is asked to read or to write. *)
| EFetched (key : jsstr)
| EStored (key : jsstr) (data : bytes)
(** The start of an attempt, and its end: the value that [output] then has, and
    what was caught. *)
| EAttempt (attempt : Z) (input : jsval)
| EAttempted (attempt : Z) (output : job_output) (caught : option exn)
(** By how much other tasks changed the number of active jobs in an [await]. *)
| EOthers (change : Z)
| ECompleted (jobId : jsval) (elapsedMs : Z) (status : jsstr)
| EFailed (jobId : jsval) (error : jsstr)
(** The object the result is made from, and the bytes on the wire. *)
| EPublished (result : jsval) (data : bytes).

(** [{ ...meta, ...fields }] *)
Definition merge_fields (meta fields : log_fields) : log_fields :=
  fold_left (fun acc p => assoc_set p.1 p.2 acc) fields meta.

Record Context : Type := {
  cx_job : jsval;
  cx_packet : jsval;
  cx_jobId : jsval;
  cx_traceId : jsval;
  (** The metadata that [withContextLogger] adds to each line. *)
  cx_meta : log_fields
}.

Definition isSome {X} (o : option X) : bool := match o with Some _ => true | None => false end.

Section Agent.
(** [U] is the state of user code, [B] of the blob store, [R] of the replay
    store. *)
Context {U B R : Type} `{BlobStore B} `{ReplayStore R} {K : key_api}.

Definition user (A : Type) : Type := U -> result A * U.

(** [next] may be called any number of times. *)
Definition middleware : Type := Context -> user job_output -> user job_output.

Record HandlerSpec : Type := {
  topic : jsstr;
  handler : Context -> jsval -> user job_output;
  inputSchema : option (jsval -> user jsval);
  outputSchema : option (job_output -> user job_output);
  retries : jsnum
}.

(** The fields that change. *)
Record agent : Type := {
  ag_trust : option (RuntimeWorkerTrust K);
  ag_nc : bool;
  ag_busPacketType : bool;
  ag_jobResultType : bool;
  ag_store : option B;
  ag_activeJobCount : Z;
  ag_middlewares : list middleware;
  ag_replay : R;
  ag_user : U
}.

Definition set_trust (x : option (RuntimeWorkerTrust K)) (a : agent) : agent :=
  {| ag_trust := x; ag_nc := ag_nc a; ag_busPacketType := ag_busPacketType a;
     ag_jobResultType := ag_jobResultType a; ag_store := ag_store a; ag_activeJobCount := ag_activeJobCount a;
     ag_middlewares := ag_middlewares a; ag_replay := ag_replay a; ag_user := ag_user a |}.

Definition set_store (x : option B) (a : agent) : agent :=
  {| ag_trust := ag_trust a; ag_nc := ag_nc a; ag_busPacketType := ag_busPacketType a;
     ag_jobResultType := ag_jobResultType a; ag_store := x; ag_activeJobCount := ag_activeJobCount a;
     ag_middlewares := ag_middlewares a; ag_replay := ag_replay a; ag_user := ag_user a |}.

Definition set_active (x : Z) (a : agent) : agent :=
  {| ag_trust := ag_trust a; ag_nc := ag_nc a; ag_busPacketType := ag_busPacketType a;
     ag_jobResultType := ag_jobResultType a; ag_store := ag_store a; ag_activeJobCount := x;
     ag_middlewares := ag_middlewares a; ag_replay := ag_replay a; ag_user := ag_user a |}.

Definition set_replay (x : R) (a : agent) : agent :=
  {| ag_trust := ag_trust a; ag_nc := ag_nc a; ag_busPacketType := ag_busPacketType a;
     ag_jobResultType := ag_jobResultType a; ag_store := ag_store a; ag_activeJobCount := ag_activeJobCount a;
     ag_middlewares := ag_middlewares a; ag_replay := x; ag_user := ag_user a |}.

Definition set_user (x : U) (a : agent) : agent :=
  {| ag_trust := ag_trust a; ag_nc := ag_nc a; ag_busPacketType := ag_busPacketType a;
     ag_jobResultType := ag_jobResultType a; ag_store := ag_store a; ag_activeJobCount := ag_activeJobCount a;
     ag_middlewares := ag_middlewares a; ag_replay := ag_replay a; ag_user := x |}.

(** The fields the constructor sets and nothing changes.  [cf_production] is
    [productionTrust] when [productionEnabled]. *)
Record config : Type := {
  cf_senderId : jsstr;
  cf_publicKeyMap : option (list (jsstr * jsval));
  cf_privateKey : option jsstr;
  cf_ioTimeoutMs : jsnum;
  cf_maxContextBytes : option jsnum;
  cf_maxResultBytes : option jsnum;
  cf_production : option trust_store
}.

(** The protobufjs types: [BusPacket] as each caller uses it, and the two
    [fromObject]. *)
Record bus_types : Type := {
  bt_packet : packet_type;
  bt_codec : codec_type;
  bt_producer : producer_type;
  bt_fromObject : jsval -> result jsval;
  jobResult_fromObject : jsval -> result jsval
}.

(** What the outside answers. *)
Record environment : Type := {
  env_clock : nat -> Z;
  env_timer_first : nat -> bool;
  env_messageId : nat -> bytes;
  env_others : nat -> agent -> agent;
  env_metric : event -> user unit;
  env_publish : bytes -> result unit;
  env_sign : jsstr -> bytes -> result bytes;
  env_crypto : crypto;
  env_syntax_message : jsstr -> jsstr
}.

Context (cf : config) (bt : bus_types) (env : environment).

Definition A (X : Type) : Type := M agent event X.

(** ** Calls to the outside *)

Definition run_user {X} (f : user X) : A X :=
  update (fun a => let '(r, u) := f (ag_user a) in (r, set_user u a)).

(** A metrics hook may throw. *)
Definition metric (e : event) : A unit := do* emit e ;; run_user (env_metric env e).

Definition log (l : level) (msg : string) (fields : log_fields) : A unit := emit (ELog l (js msg) fields).

Definition ctx_log (ctx : Context) (l : level) (msg : string) (fields : log_fields) : A unit :=
  log l msg (merge_fields (cx_meta ctx) fields).

Definition yield : A unit :=
  let* before := state in
  do* await (env_others env) ;;
  let* after := state in
  emit (EOthers (ag_activeJobCount after - ag_activeJobCount before)).

(** [await withTimeout(operation, this.ioTimeoutMs, label)]: the operation runs
    also when the timer wins. *)
Definition with_io_timeout {X} (access : event) (operation : B -> result X * B) (label : string) : A X :=
  let* outcome := update (fun a =>
    match ag_store a with
    | Some s => let '(r, s') := operation s in (Ok r, set_store (Some s') a)
    | None => (throw TypeError (js "Cannot read properties of undefined"), a)
    end) in
  do* emit access ;;
  let* late := ask (env_timer_first env) in
  do* yield ;;
  lift (withTimeout outcome (Some (cf_ioTimeoutMs cf)) (js label) (if late then TimerFires else PromiseSettles)).

Definition exceeds (limit : option jsnum) (data : bytes) : bool :=
  match limit with Some n => truthy (JNum n) && num_ltb n (NInt (zlen data)) | None => false end.

(** ** Results *)

Definition result_object (jobId : jsval) (resultPtr senderId : jsstr) (executionMs : Z)
    (overrides : list (jsstr * jsval)) : jsval :=
  JPlain (merge_fields
    [(js "jobId", jobId); (js "status", JStr (js "JOB_STATUS_SUCCEEDED")); (js "resultPtr", JStr resultPtr);
     (js "workerId", JStr senderId); (js "executionMs", JNum (NInt executionMs))] overrides).

(** The proof key of the worker, as the producer of production packets takes
    it. *)
Definition proof_keys : key_crypto := {|
  key_input := key_like K;
  private_key := key_object K;
  as_key := fun k => match as_key_object K k with Some o => Ok o | None => create_private K k end;
  key_type := ko_type K;
  key_algorithm := fun k => default [] (ko_kind K k);
  key_curve := ko_curve K;
  sign := ko_sign K |}.

(** [this.trust?.outboundSessionToken() ?? ""] *)
Definition session_token : A (option jsstr) :=
  let* now := ask (env_clock env) in
  update (fun a => match ag_trust a with
                   | None => (Ok (Some []), a)
                   | Some st => let '(token, st') := outboundSessionToken now st in
                                (let! v := token in Ok (as_str v), set_trust (Some st') a)
                   end).

(** The bytes of the outgoing packet. *)
Definition encode_result (out : jsval) (authority : option ProductionEventAuthority) : A bytes :=
  match authority with
  | None => lift (encodeOutboundPacket (env_sign env) (bt_codec bt) out (cf_privateKey cf)).1
  | Some _ =>
      let* a := state in
      match (match ag_trust a with Some st => st_config (rw_settings st) | None => None end) with
      | None => lift (throw PlainError (js "production result signing key is unavailable"))
      | Some c =>
          let* messageId := ask (env_messageId env) in
          let* now := ask (env_clock env) in
          lift (sealProductionEvent proof_keys out (bt_producer bt)
                  {| privateKey := (proofPrivateKey c : key_input proof_keys); keyId := as_str (proofKeyId c);
                     seal_audience := Some SUBJECT_RESULT; lifetimeMs := None; seal_nowMs := None |}
                  messageId now)
      end
  end.

(** [if (authority) bindProductionEvent(jrMsg, authority)] *)
Definition bind_result (jr : jsval) (authority : option ProductionEventAuthority) : result jsval :=
  match authority with
  | None => Ok jr
  | Some auth => let '(r, jr') := bindProductionEvent jr auth in do! r ;; Ok jr'
  end.

Definition publishResult (ctx : Context) (req : jsval) (resultPtr : jsstr) (executionMs : Z)
    (overrides : list (jsstr * jsval)) (authority : option ProductionEventAuthority) : A unit :=
  let* a := state in
  if negb (ag_nc a) then ctx_log ctx Error "NATS not initialized" []
  else if negb (ag_busPacketType a) || negb (ag_jobResultType a)
  then ctx_log ctx Error "protobuf types not initialized" []
  else
    do* lift (throw_if (isSome (cf_production cf) && negb (isSome authority)) PlainError
                (js "production result requires admitted request authority")) ;;
    let object := result_object (get req "jobId") resultPtr (cf_senderId cf) executionMs overrides in
    let* jr := lift (let! jr := jobResult_fromObject bt object in bind_result jr authority) in
    let* now := ask (env_clock env) in
    let* out := lift (bt_fromObject bt (JPlain
      [(js "traceId", get (cx_packet ctx) "traceId"); (js "senderId", JStr (cf_senderId cf));
       (js "protocolVersion", JNum (NInt DEFAULT_PROTOCOL_VERSION));
       (js "createdAt", JPlain [(js "seconds", JNum (num_floor (num_div (NInt now) 1000))); (js "nanos", JNum (NInt 0))]);
       (js "jobResult", jr);
       (js "identity", match authority with Some auth => identity auth | None => JUndef end)])) in
    let* token := session_token in
    let '(checked, out) := prepareOutboundPacket out token in
    do* lift checked ;;
    let* data := encode_result out authority in
    do* lift (env_publish env data) ;;
    do* emit (EPublished object data) ;;
    yield.

Definition publishFailure (ctx : Context) (req : jsval) (error : jsstr) (executionMs : Z)
    (authority : option ProductionEventAuthority) : A unit :=
  do* metric (EFailed (get req "jobId") error) ;;
  publishResult ctx req [] executionMs
    [(js "status", JStr (js "JOB_STATUS_FAILED")); (js "errorMessage", JStr error)] authority.

(** ** Admission *)

(** [this.trust?.productionSessionActive] *)
Definition session_active : A bool :=
  let* now := ask (env_clock env) in
  update (fun a => match ag_trust a with
                   | None => (Ok false, a)
                   | Some st => let '(active, st') := productionSessionActive now st in
                                (Ok active, set_trust (Some st') a)
                   end).

Definition rejected (msg : string) (error : jsstr) : A unit := log Warn msg [(js "error", JStr error)].

Fixpoint reject_all (msg : string) (errors : list jsstr) : A unit :=
  match errors with [] => ret tt | e :: rest => do* rejected msg e ;; reject_all msg rest end.

(** Production: the received bytes are verified and admitted. *)
Definition receive_production (trust : trust_store) (data : bytes) (subject : option jsstr) : A (option jsval) :=
  let* active := session_active in
  if negb active then
    do* rejected "production admission rejected packet" (js "authenticated session is not active") ;; ret None
  else
    let* now := ask (env_clock env) in
    let* outcome := update (fun a =>
      let '(r, replay, warnings) :=
        decodeProductionPacket (env_crypto env) (bt_packet bt) trust
          (match ag_trust a with Some st => st_config (rw_settings st) | None => None end)
          describe data subject now (ag_replay a) in
      (let! packet := r in Ok (packet, warnings), set_replay replay a)) in
    do* reject_all "production admission rejected packet" outcome.2 ;;
    do* yield ;;
    ret outcome.1.

(** [this.trust?.verifyInbound(this.busPacketType, packet, this.publicKeyMap)],
    and the packet after it. *)
Definition verify_inbound (packet : jsval) : A (result bool * jsval) :=
  let* now := ask (env_clock env) in
  update (fun a => match ag_trust a with
                   | None => (Ok (Ok false, packet), a)
                   | Some st => let '(r, packet', st') := verifyInbound (env_crypto env) (bt_codec bt) now packet
                                                            (cf_publicKeyMap cf) st in
                                (Ok (r, packet'), set_trust (Some st') a)
                   end).

Definition not_admitted : exn := Exn PlainError (js "worker trust admission rejected packet").

Definition receive_ordinary (data : bytes) : A (option jsval) :=
  match pt_decode (bt_packet bt) data with
  | NoFuel => lift NoFuel
  | Throw e =>
      do* log Error "decode failed" [(js "error", JStr (describe (Exn MalformedPacketError (message_or_text e))))] ;;
      ret None
  | Ok packet =>
      let* outcome := verify_inbound packet in
      match outcome.1 with
      | Ok true => ret (Some outcome.2)
      | Ok false => do* rejected "Agent rejected inbound packet" (describe not_admitted) ;; ret None
      | Throw e => do* rejected "Agent rejected inbound packet" (describe e) ;; ret None
      | NoFuel => lift NoFuel
      end
  end.

(** ** Running the job *)

(** The context payload. *)
Definition fetch_context (req : jsval) : A bytes :=
  let* key := lift (keyFromPointer (get req "contextPtr")) in
  let* payload := with_io_timeout (EFetched key) (fun s => blob_get s key) "context fetch" in
  match payload with
  | None => lift (throw PlainError (js "context not found"))
  | Some data =>
      do* lift (throw_if (exceeds (cf_maxContextBytes cf) data) PlainError (js "context exceeds max size")) ;;
      ret data
  end.

(** The chain of middlewares, outermost first, around the handler. *)
Definition chain (middlewares : list middleware) (ctx : Context) (terminal : user job_output) : user job_output :=
  fold_right (fun mw next => mw ctx next) terminal middlewares.

(** [output = await chain(); output = outputSchema ? parse(output) : output]:
    the value last assigned to [output], and the exception that ended it. *)
Definition call_once (spec : HandlerSpec) (call : user job_output) (output : job_output) : A (job_output * option exn) :=
  let* returned := attempt (run_user call) in
  do* yield ;;
  match returned with
  | inl e => ret (output, Some e)
  | inr out =>
      match outputSchema spec with
      | None => ret (out, None)
      | Some parse =>
          let* parsed := attempt (run_user (parse out)) in
          match parsed with inl e => ret (out, Some e) | inr out' => ret (out', None) end
      end
  end.

Definition attempt_once (spec : HandlerSpec) (call : user job_output) (input : jsval) (attempt_no : Z)
    (output : job_output) : A (job_output * option exn) :=
  do* emit (EAttempt attempt_no input) ;;
  let* once := call_once spec call output in
  do* emit (EAttempted attempt_no once.1 once.2) ;;
  ret once.

(** The retry loop: the output and the error it ends with. *)
Fixpoint run_attempts (fuel : nat) (spec : HandlerSpec) (call : user job_output) (ctx : Context) (input : jsval)
    (attempt_no : Z) (output : job_output) (error : option jsstr) : A (job_output * option jsstr) :=
  match fuel with
  | O => lift NoFuel
  | S fuel =>
      if negb (num_leb (NInt attempt_no) (retries spec)) then ret (output, error)
      else
        let* once := attempt_once spec call input attempt_no output in
        match once with
        | (out, None) => ret (out, None)
        | (out, Some e) =>
            do* ctx_log ctx Warn "handler failed"
                  [(js "attempt", JNum (NInt (attempt_no + 1)));
                   (js "maxAttempts", JNum (num_add (retries spec) (NInt 1))); (js "error", JStr (describe e))] ;;
            run_attempts fuel spec call ctx input (attempt_no + 1) out (Some (message_or_text e))
        end
  end.

(** Storing and publishing the result of a job that succeeded. *)
Definition finish_job (ctx : Context) (req : jsval) (output : job_output) (elapsedMs : Z)
    (authority : option ProductionEventAuthority) : A unit :=
  let* resultPayload := lift (serializeOutput output) in
  do* lift (throw_if (exceeds (cf_maxResultBytes cf) resultPayload) PlainError (js "result exceeds max size")) ;;
  let resultKey := js "res:" ++ to_text (get req "jobId") in
  do* with_io_timeout (EStored resultKey resultPayload) (fun s => blob_set s resultKey resultPayload) "result write" ;;
  do* metric (ECompleted (get req "jobId") elapsedMs (js "SUCCEEDED")) ;;
  publishResult ctx req (pointerForKey resultKey) elapsedMs [] authority.

Definition run_job (fuel : nat) (spec : HandlerSpec) (ctx : Context) (req inputData : jsval)
    (authority : option ProductionEventAuthority) : A unit :=
  let* a := state in
  let call := chain (ag_middlewares a) ctx (handler spec ctx inputData) in
  let* start := ask (env_clock env) in
  let* outcome := run_attempts fuel spec call ctx inputData 0 (Value JUndef) None in
  let* now := ask (env_clock env) in
  let elapsedMs := now - start in
  match outcome.2 with
  | Some ((_ :: _) as error) => publishFailure ctx req error elapsedMs authority
  | _ =>
      let* finished := attempt (finish_job ctx req outcome.1 elapsedMs authority) in
      match finished with
      | inr _ => ret tt
      | inl e => publishFailure ctx req (js "result write failed: " ++ describe e) elapsedMs authority
      end
  end.

Definition context_of (req packet : jsval) : Context := {|
  cx_job := req; cx_packet := packet; cx_jobId := get req "jobId"; cx_traceId := get packet "traceId";
  cx_meta := [(js "jobId", get req "jobId"); (js "traceId", get packet "traceId"); (js "topic", get req "topic")] |}.

Definition handle_job (fuel : nat) (spec : HandlerSpec) (packet req : jsval)
    (authority : option ProductionEventAuthority) : A unit :=
  do* metric (EReceived (get req "jobId") (get req "topic")) ;;
  let ctx := context_of req packet in
  let* fetched := attempt (fetch_context req) in
  match fetched with
  | inl e => publishFailure ctx req (message_or_text e) 0 authority
  | inr payload =>
      let* parsed := attempt (lift (parsePayload (env_syntax_message env) payload)) in
      match parsed with
      | inl e => publishFailure ctx req (js "context decode failed: " ++ describe e) 0 authority
      | inr raw =>
          let* valid := attempt (match inputSchema spec with Some parse => run_user (parse raw) | None => ret raw end) in
          match valid with
          | inl e => publishFailure ctx req (js "input validation failed: " ++ describe e) 0 authority
          | inr inputData => run_job fuel spec ctx req inputData authority
          end
      end
  end.

Definition bump (a : agent) : agent := set_active (ag_activeJobCount a + 1) a.
Definition release (a : agent) : agent := set_active (Z.max 0 (ag_activeJobCount a - 1)) a.

Definition dispatch_packet (fuel : nat) (spec : HandlerSpec) (packet : jsval) : A unit :=
  let req := get packet "jobRequest" in
  if negb (truthy req) || negb (truthy (get req "jobId")) then ret tt
  else
    let* authority := lift (match cf_production cf with
                            | Some _ => let! auth := freezeProductionAuthority req in Ok (Some auth)
                            | None => Ok None
                            end) in
    do* update (fun a => (Ok tt, bump a)) ;;
    finally (handle_job fuel spec packet req authority) release.

Definition receive (data : bytes) (subject : option jsstr) : A (option jsval) :=
  match cf_production cf with
  | Some trust => receive_production trust data subject
  | None => receive_ordinary data
  end.

Definition onMessage (fuel : nat) (data : bytes) (subject : option jsstr) (spec : HandlerSpec) : A unit :=
  let* a := state in
  if negb (isSome (ag_store a)) then log Error "blob store not initialized" []
  else if negb (ag_busPacketType a) then log Error "protobuf types not initialized" []
  else
    let* packet := receive data subject in
    match packet with
    | None => ret tt
    | Some packet => dispatch_packet fuel spec packet
    end.
End Agent.
