(* ===== verification/JobAnswer.v ===== *)
(** * The answer to a job

    What a run of [Agent.onMessage] does to the outside, stated as the shape of
    its trace: the attempts of the handler and how they ended, the write of the
    result and the publication of at most one result. *)

From S2P Require Import Prelude JsString JsValue Errors Protos WireSchema ProductionSigning Validate ProductionReplay ProductionWire ProductionProducer ProductionEvents Codec PacketBoundary WorkerTrustContract WorkerTrustFlow RuntimeTrustConfig WorkerTrustLifecycle RuntimeWorkerTrust ProductionAdmission Json BlobStore Effects Runtime.

(** ** The visible events *)

Definition is_visible (e : event) : bool :=
  match e with EAttempt _ _ | EStored _ _ | EPublished _ _ => true | _ => false end.

Definition visible (evs : list event) : list event := List.filter is_visible evs.

Lemma visible_app a b : visible (a ++ b) = visible a ++ visible b.
Proof. apply List.filter_app. Qed.

(** With the ends of the attempts and the errors that are logged. *)
Definition is_recorded (e : event) : bool :=
  match e with
  | EAttempt _ _ | EAttempted _ _ _ | EStored _ _ | EPublished _ _ | ELog Error _ _ => true
  | _ => false
  end.

Definition recorded (evs : list event) : list event := List.filter is_recorded evs.

Lemma recorded_app a b : recorded (a ++ b) = recorded a ++ recorded b.
Proof. apply List.filter_app. Qed.

(** What other tasks did to the number of active jobs. *)
Definition net (evs : list event) : Z :=
  fold_right (fun e n => match e with EOthers d => d + n | _ => n end) 0 evs.

Lemma net_app a b : net (a ++ b) = net a + net b.
Proof. induction a as [|[] a IH]; cbn [app net fold_right] in *; unfold net in *; lia. Qed.

(** ** The answer *)

Definition result_key (req : jsval) : jsstr := js "res:" ++ to_text (get req "jobId").

(** The fields of a published result. *)
Definition success_of (req : jsval) (senderId : jsstr) (result : jsval) : Prop :=
  get result "jobId" = get req "jobId" /\ get result "status" = JStr (js "JOB_STATUS_SUCCEEDED") /\
  get result "resultPtr" = JStr (pointerForKey (result_key req)) /\ get result "workerId" = JStr senderId.

Definition failure_of (req : jsval) (senderId message : jsstr) (result : jsval) : Prop :=
  get result "jobId" = get req "jobId" /\ get result "status" = JStr (js "JOB_STATUS_FAILED") /\
  get result "resultPtr" = JStr [] /\ get result "workerId" = JStr senderId /\
  get result "errorMessage" = JStr message.

(** How an attempt ended: the value of [output], and what was caught. *)
Definition try : Type := job_output * option exn.

Definition failed (t : try) : Prop := exists e, t.2 = Some e.

(** The text that the loop takes for the error; none if it is empty. *)
Definition failure_text (t : try) : jsstr :=
  match t.2 with Some e => message_or_text e | None => [] end.

(** Nothing is published because the agent is not connected, or its types are
    not loaded. *)
Definition unconnected (evs : list event) : Prop :=
  exists msg fields, In msg ["NATS not initialized"; "protobuf types not initialized"]%string /\
    evs = [ELog Error (js msg) fields].

(** A failure is reported: it is published, or dropped, or the run throws. *)
Inductive reported (senderId : jsstr) (req : jsval) (message : jsstr) : result unit -> list event -> Prop :=
| reported_published result data :
    failure_of req senderId message result -> reported senderId req message (Ok tt) [EPublished result data]
| reported_dropped evs : unconnected evs -> reported senderId req message (Ok tt) evs
| reported_throw e : reported senderId req message (Throw e) [].

(** The write of the serialised output, within the limit. *)
Definition write_of (limit : option jsnum) (req : jsval) (output : job_output) (e : event) : Prop :=
  exists data, serializeOutput output = Ok data /\ exceeds limit data = false /\ e = EStored (result_key req) data.

(** What follows the attempts: no attempt was made, and a failure is reported;
    or the last one failed with a message, which is reported, and nothing is
    written; or it did not, its output is written and then a success published,
    or dropped, or what went wrong is reported. *)
Inductive answer (limit : option jsnum) (senderId : jsstr) (req : jsval) : list try -> result unit -> list event -> Prop :=
| answer_refused message r evs :
    reported senderId req message r evs -> answer limit senderId req [] r evs
| answer_failed tries last r evs :
    failure_text last <> [] -> reported senderId req (failure_text last) r evs ->
    answer limit senderId req (tries ++ [last]) r evs
| answer_success tries last w result data :
    failure_text last = [] -> write_of limit req last.1 w -> success_of req senderId result ->
    answer limit senderId req (tries ++ [last]) (Ok tt) [w; EPublished result data]
| answer_dropped tries last w evs :
    failure_text last = [] -> write_of limit req last.1 w -> unconnected evs ->
    answer limit senderId req (tries ++ [last]) (Ok tt) (w :: evs)
| answer_unwritten tries last ws message r evs :
    failure_text last = [] -> Forall (write_of limit req last.1) ws -> (length ws <= 1)%nat ->
    reported senderId req (js "result write failed: " ++ message) r evs ->
    answer limit senderId req (tries ++ [last]) r (ws ++ evs).

(** The attempts of the loop: each but the last failed, and the last did not, or
    it was the last of the [R + 1] that are allowed. *)
Definition retried (R : Z) (tries : list try) : Prop :=
  exists before last, tries = before ++ [last] /\ Forall failed before /\ Z.of_nat (length before) <= R /\
    (failed last -> Z.of_nat (length before) = R).

(** The events of the attempts, from attempt [k] on, with the same input. *)
Fixpoint attempts (input : jsval) (k : Z) (tries : list try) : list event :=
  match tries with
  | [] => []
  | t :: rest => EAttempt k input :: EAttempted k t.1 t.2 :: attempts input (k + 1) rest
  end.

Inductive job_trace (R : Z) (limit : option jsnum) (senderId : jsstr) (req : jsval) (r : result unit)
    : list event -> Prop :=
| job_trace_intro input tries evs :
    tries = [] \/ retried R tries -> answer limit senderId req tries r evs ->
    job_trace R limit senderId req r (attempts input 0 tries ++ evs).

(** ** Encoding ends *)

Lemma iter_not_NoFuel {X} (f : X -> result unit) l : Forall (fun x => f x <> NoFuel) l -> iter_result f l <> NoFuel.
Proof. induction 1 as [|x l Hx _ IH]; [done|]. cbn. apply bind_not_NoFuel; auto. Qed.

Lemma assertSessionToken_not_NoFuel v : assertSessionToken v <> NoFuel.
Proof. unfold assertSessionToken. destruct v as [| | | |[|c s]| | | |]; try done. apply throw_if_not_NoFuel. Qed.

Lemma validateOutbound_not_NoFuel p : validateOutboundPacket p <> NoFuel.
Proof.
  unfold validateOutboundPacket, validateAttachedToken. apply bind_not_NoFuel.
  - destruct (negb _); [done|]. apply bind_not_NoFuel; [|intros _ _]; apply assertSessionToken_not_NoFuel.
  - intros _ _. apply throw_if_not_NoFuel.
Qed.

Lemma prepareOutbound_not_NoFuel p token : (prepareOutboundPacket p token).1 <> NoFuel.
Proof.
  unfold prepareOutboundPacket, attachSessionToken. destruct token as [[|c s]|]; try apply validateOutbound_not_NoFuel.
  pose proof (assertSessionToken_not_NoFuel (JStr (c :: s))).
  destruct (assertSessionToken _); [apply validateOutbound_not_NoFuel | done | done].
Qed.

Lemma encodeOutbound_not_NoFuel sign_pem ct p key :
  (forall k d, sign_pem k d <> NoFuel) -> (forall v, ct_encode ct v <> NoFuel) ->
  (encodeOutboundPacket sign_pem ct p key).1 <> NoFuel.
Proof.
  intros Hs Hc. unfold encodeOutboundPacket, encodeDeterministic. pose proof (validateOutbound_not_NoFuel p).
  destruct (validateOutboundPacket p); [|done|done]. destruct key as [[|c s]|]; try apply Hc.
  destruct (encodeUnsignedForSignature ct p) as [r p'] eqn:E. injection E as <- _.
  destruct (let! unsigned := _ in _) eqn:Eb; [apply Hc | done|].
  apply bind_NoFuel_iff in Eb as [Eb | (? & _ & Eb)]; [by apply Hc in Eb | by apply Hs in Eb].
Qed.

(** The values below [v]. *)
Definition children (v : jsval) : list jsval :=
  match v with JArr l => l | JObj own _ => map snd own | _ => [] end.

Lemma closedField_not_NoFuel v f :
  (forall t, assertClosedInput v t <> NoFuel) -> Forall (fun x => forall t, assertClosedInput x t <> NoFuel) (children v) ->
  assertClosedField v f <> NoFuel.
Proof.
  intros Hv Hc. unfold assertClosedField. destruct (WireSchema.resolvedMessageType f) as [t|]; [|done].
  destruct (nullish v); [done|]. destruct (f_map f); [|destruct (f_repeated f); [|apply Hv]];
    destruct v as [| | | | | | |l|own inh]; try done; cbn [children] in Hc; apply iter_not_NoFuel.
  - apply Forall_map in Hc. eapply Forall_impl; [exact Hc|]. intros [k x] Hx. apply Hx.
  - eapply Forall_impl; [exact Hc|]. intros x Hx. apply Hx.
Qed.

Lemma closed_not_NoFuel v :
  (forall t, assertClosedInput v t <> NoFuel) /\ Forall (fun x => forall t, assertClosedInput x t <> NoFuel) (children v).
Proof.
  induction v as [| | | | | | z |l IH|own inh IH _] using jsval_nested_ind; cbn [children]; try (split; [done | apply Forall_nil_2]).
  - split; [|apply Forall_nil_2]. intros t. apply iter_not_NoFuel, Forall_forall. intros key _. unfold closed_leaf. no_fuel.
  - split; [done|]. eapply Forall_impl; [exact IH|]. by intros x [Hx _].
  - split.
    + intros t. rewrite assertClosedInput_fields. apply iter_not_NoFuel. eapply Forall_impl; [exact IH|].
      intros [k x] [Hx Hc]. cbn [fst snd] in *. destruct (lookup_name t k) as [f| |]; [|done|done].
      by apply closedField_not_NoFuel.
    + apply Forall_map. eapply Forall_impl; [exact IH|]. by intros x [Hx _].
Qed.

Lemma validatePacket_not_NoFuel p pd now : validatePacket p pd now <> NoFuel.
Proof.
  unfold validatePacket, recordField, validateExpiry, wire_error. no_fuel; apply throw_if_not_NoFuel.
Qed.

Lemma sign_not_NoFuel (KC : key_crypto) p pd key now :
  (forall v, encode pd v <> NoFuel) -> (forall k, as_key KC k <> NoFuel) ->
  signProductionPacket KC p pd key now <> NoFuel.
Proof.
  intros He Hk. unfold signProductionPacket. apply bind_not_NoFuel; [apply closed_not_NoFuel|].
  intros _ _. cbn zeta. apply bind_not_NoFuel; [apply validatePacket_not_NoFuel|]. intros _ _.
  apply bind_not_NoFuel; [apply He|]. intros unsigned _. apply bind_not_NoFuel; [apply throw_if_not_NoFuel|].
  intros _ Hsize%throw_if_Ok_iff. apply Z.leb_gt in Hsize. unfold MAX_PRODUCTION_RAW_BYTES in Hsize.
  apply bind_not_NoFuel; [apply closedNestedWire_ends; apply (Z.lt_trans _ _ _ Hsize); reflexivity|]. intros _ _. apply bind_not_NoFuel.
  - unfold signExactWire, productionPrivateKey, wire_error. no_fuel.
  - intros sig _. apply bind_not_NoFuel; [apply throw_if_not_NoFuel|]. intros _ _.
    apply bind_not_NoFuel; [|done]. apply bind_not_NoFuel; [apply extract_not_NoFuel | done].
Qed.

Lemma seal_not_NoFuel (KC : key_crypto) p pd options messageId now :
  (forall v, encode pd v <> NoFuel) -> (forall k, as_key KC k <> NoFuel) -> seal_nowMs options = None ->
  sealProductionEvent KC p pd options messageId now <> NoFuel.
Proof.
  intros He Hk Hn. unfold sealProductionEvent. rewrite Hn.
  repeat (apply bind_not_NoFuel; [apply throw_if_not_NoFuel || done|]; intros ? _). by apply sign_not_NoFuel.
Qed.

Lemma bind_result_not_NoFuel jr authority : bind_result jr authority <> NoFuel.
Proof.
  unfold bind_result. destruct authority as [auth|]; [|done].
  assert ((bindProductionEvent jr auth).1 <> NoFuel) as Hb.
  { unfold bindProductionEvent, trimmed_text, conflict. destruct (negb _); [done|].
    destruct (text_or_empty _); try done. destruct (_ && _); [done|]. cbn zeta. destruct (_ && _); [done|].
    by destruct (_ && _). }
  destruct (bindProductionEvent jr auth) as [r jr']. by apply bind_not_NoFuel.
Qed.

Lemma freeze_not_NoFuel req : freezeProductionAuthority req <> NoFuel.
Proof. unfold freezeProductionAuthority, trimmed_text, conflict. no_fuel. Qed.

Section Answer.
Context {U B T : Type} `{BlobStore B} `{ReplayStore T} {K : key_api}.
Context (cf : config) (bt : bus_types) (env : environment (U:=U) (B:=B) (R:=T) (K:=K)) (spec : HandlerSpec (U:=U)).

(** User code that returns or throws. *)
Definition ends {X} (f : user (U:=U) X) : Prop := forall u, (f u).1 <> NoFuel.

Definition middleware_ends (mw : middleware (U:=U)) : Prop := forall ctx next, ends next -> ends (mw ctx next).

(** The middlewares of the agent end. *)
Definition sound (a : agent (U:=U) (B:=B) (R:=T) (K:=K)) : Prop := Forall middleware_ends (ag_middlewares a).

(** No call to the outside hangs. *)
Record answers : Prop := {
  an_metric : forall e, ends (env_metric env e);
  an_publish : forall d, env_publish env d <> NoFuel;
  an_sign : forall k d, env_sign env k d <> NoFuel;
  an_encode : forall v, ct_encode (bt_codec bt) v <> NoFuel;
  an_produce : forall v, encode (bt_producer bt) v <> NoFuel;
  an_packet : forall v, bt_fromObject bt v <> NoFuel;
  an_jobResult : forall v, jobResult_fromObject bt v <> NoFuel;
  an_key : forall k, create_private K k <> NoFuel;
  an_get : forall (s : B) key, (blob_get s key).1 <> NoFuel;
  an_set : forall (s : B) key d, (blob_set s key d).1 <> NoFuel;
  an_handler : forall ctx v, ends (handler spec ctx v);
  an_input : forall parse v, inputSchema spec = Some parse -> ends (parse v);
  an_output : forall parse v, outputSchema spec = Some parse -> ends (parse v)
}.

Context (an : answers).

(** An invariant of the agent's fields that the methods here do not touch and
    that other tasks keep. *)
Record kept (P : agent (U:=U) (B:=B) (R:=T) (K:=K) -> Prop) : Prop := {
  kp_trust : forall x a, P a -> P (set_trust x a);
  kp_store : forall x a, P a -> P (set_store x a);
  kp_user : forall x a, P a -> P (set_user x a);
  kp_replay : forall x a, P a -> P (set_replay x a);
  kp_others : forall n a, P a -> P (env_others env n a)
}.

Context (P : agent (U:=U) (B:=B) (R:=T) (K:=K) -> Prop) (Pk : kept P) (Pr : forall a, P a -> sound a).

(** ** Steps that show nothing *)

(** The run ends, without recorded events. *)
Definition silent {X} (r : result X) (evs : list event) : Prop := r <> NoFuel /\ recorded evs = [].

Lemma silent_lift {X} (r : result X) : r <> NoFuel -> traced P (lift r) silent.
Proof. intros Hr. by apply traced_lift. Qed.

Lemma silent_prefix {X} evs (m : A X) :
  recorded evs = [] -> traced P m silent -> traced P m (fun r evs' => silent r (evs ++ evs')).
Proof.
  intros Hv Hm. eapply traced_weaken; [exact Hm|]. intros r evs' [Hr Hv']. split; [done|].
  by rewrite recorded_app, Hv, Hv'.
Qed.

Lemma silent_bind {X Y} (m : A X) (k : X -> A Y) :
  traced P m silent -> (forall x, traced P (k x) silent) -> traced P (bindM m k) silent.
Proof.
  intros Hm Hk. eapply traced_bind; [exact Hm | | by intros e evs [_ ?] | by intros evs []].
  intros x evs [_ Hv]. by apply silent_prefix.
Qed.

(** A silent step, then a run whose recorded events matter. *)
Lemma silent_then {X Y} (m : A X) (k : X -> A Y) (Q : result Y -> list event -> Prop) :
  traced P m silent -> (forall x, traced P (k x) (fun r evs => Q r (recorded evs))) -> (forall e, Q (Throw e) []) ->
  traced P (bindM m k) (fun r evs => Q r (recorded evs)).
Proof.
  intros Hm Hk He. eapply traced_bind; [exact Hm | | | by intros evs []].
  - intros x evs [_ Hv]. eapply traced_weaken; [apply Hk|]. intros r evs'. cbn. by rewrite recorded_app, Hv.
  - intros e evs [_ ->]. apply He.
Qed.

Lemma silent_emit e : is_recorded e = false -> traced P (emit e) silent.
Proof. intros He. apply traced_emit. split; [done|]. cbn. by rewrite He. Qed.

Lemma silent_ask {X} (answer_of : nat -> X) : traced P (ask answer_of) silent.
Proof. by apply traced_ask. Qed.

Lemma silent_state : traced P state silent.
Proof. by apply traced_state. Qed.

Lemma silent_yield : traced P (yield env) silent.
Proof.
  apply silent_bind; [apply silent_state|]. intros before. apply silent_bind; [apply traced_await; [apply Pk | done]|].
  intros _. apply silent_bind; [apply silent_state|]. intros after. by apply silent_emit.
Qed.

Lemma silent_user {X} (f : user X) : ends f -> traced P (run_user f) silent.
Proof.
  intros Hf. apply traced_update. intros a Ha. specialize (Hf (ag_user a)). destruct (f (ag_user a)) as [r u].
  split; [by apply Pk | done].
Qed.

Lemma silent_attempt {X} (m : A X) : traced P m silent -> traced P (attempt m) silent.
Proof. intros Hm. apply traced_attempt. eapply traced_weaken; [exact Hm|]. intros [x|e|] evs [? ?]; done. Qed.

Lemma silent_metric e : is_recorded e = false -> traced P (metric env e) silent.
Proof. intros He. apply silent_bind; [by apply silent_emit|]. intros _. apply silent_user, an. Qed.

Lemma silent_log l msg fields : l <> Error -> traced P (log l msg fields) silent.
Proof. intros Hl. apply silent_emit. by destruct l. Qed.

Lemma withTimeout_not_NoFuel {X} (r : result X) ms label first : r <> NoFuel -> withTimeout r ms label first <> NoFuel.
Proof. intros Hr. unfold withTimeout. destruct first; [done | by destruct (no_deadline ms) | done]. Qed.

(** The access shows, unless there is no store. *)
Lemma io_traced {X} access (operation : B -> result X * B) label :
  (forall s, (operation s).1 <> NoFuel) ->
  traced P (with_io_timeout cf env access operation label)
    (fun r evs => r <> NoFuel /\ (recorded evs = recorded [access] \/ recorded evs = [] /\ is_ok r = false)).
Proof.
  intros Ho. eapply traced_bind with (Q := fun r evs => silent r evs /\ forall x, r = Ok x -> x <> NoFuel).
  - apply traced_update. intros a Ha. destruct (ag_store a) as [s|]; [|done].
    specialize (Ho s). destruct (operation s) as [r s']. split; [by apply Pk|]. split; [done|]. by intros x [= <-].
  - intros outcome evs [[_ Hv] Hr]. specialize (Hr outcome eq_refl).
    eapply traced_bind with (Q := fun r evs => r = Ok tt /\ evs = [access]); [by apply traced_emit | |
      by intros e evs' [? _] | by intros evs' [? _]].
    intros [] evs' [_ ->]. eapply (traced_weaken P _ silent).
    + apply silent_bind; [apply silent_ask|]. intros late. apply silent_bind; [apply silent_yield|]. intros _.
      apply silent_lift. by apply withTimeout_not_NoFuel.
    + intros r evs' [Hnf Hv']. split; [done|]. left. by rewrite !recorded_app, Hv, Hv', app_nil_r.
  - intros e evs [[_ ?] _]. split; [done|]. by right.
  - by intros evs [[? _] _].
Qed.

Lemma silent_io {X} access (operation : B -> result X * B) label :
  is_recorded access = false -> (forall s, (operation s).1 <> NoFuel) ->
  traced P (with_io_timeout cf env access operation label) silent.
Proof.
  intros He Ho. eapply traced_weaken; [by apply io_traced|]. intros r evs [Hr Hv]. split; [done|].
  cbn in Hv. rewrite He in Hv. naive_solver.
Qed.

(** The run returns, without recorded events. *)
Definition smooth {X} (r : result X) (evs : list event) : Prop := is_ok r = true /\ recorded evs = [].

Lemma smooth_attempt {X} (m : A X) : traced P m silent -> traced P (attempt m) smooth.
Proof. intros Hm. apply traced_attempt. eapply traced_weaken; [exact Hm|]. by intros [x|e|] evs [? ?]. Qed.

Lemma smooth_bind {X Y} (m : A X) (k : X -> A Y) :
  traced P m smooth -> (forall x, traced P (k x) smooth) -> traced P (bindM m k) smooth.
Proof.
  intros Hm Hk. eapply traced_bind; [exact Hm | | by intros e evs [? _] | by intros evs [? _]].
  intros x evs [_ Hv]. eapply traced_weaken; [apply Hk|]. intros r evs' [Hr Hv']. split; [done|].
  by rewrite recorded_app, Hv.
Qed.

(** What is left to show after a step that returns without recorded events. *)
Lemma smooth_then {X Y} (m : A X) (k : X -> A Y) (Q : result Y -> list event -> Prop) :
  traced P m smooth -> (forall x, traced P (k x) (fun r evs => Q r (recorded evs))) ->
  traced P (bindM m k) (fun r evs => Q r (recorded evs)).
Proof.
  intros Hm Hk. eapply traced_bind; [exact Hm | | by intros e evs [? _] | by intros evs [? _]].
  intros x evs [_ Hv]. eapply traced_weaken; [apply Hk|]. intros r evs'. cbn. by rewrite recorded_app, Hv.
Qed.

Lemma smooth_yield : traced P (yield env) smooth.
Proof.
  apply smooth_bind; [by apply traced_state|]. intros before. apply smooth_bind; [apply traced_await; [apply Pk | done]|].
  intros _. apply smooth_bind; [by apply traced_state|]. intros after. by apply traced_emit.
Qed.

(** ** Encoding a result *)

Lemma session_token_silent : traced P (session_token env) silent.
Proof.
  apply silent_bind; [apply silent_ask|]. intros now. apply traced_update. intros a Ha.
  destruct (ag_trust a) as [st|]; [|done]. unfold outboundSessionToken.
  destruct (trust_sessionToken now st) as [token st']. destruct (_ && _); (split; [by apply Pk | done]).
Qed.

Lemma encode_result_silent out authority : traced P (encode_result cf bt env out authority) silent.
Proof.
  unfold encode_result. destruct authority as [auth|].
  - apply silent_bind; [apply silent_state|]. intros a.
    destruct (match ag_trust a with Some st => _ | None => _ end) as [c|]; [|by apply silent_lift].
    apply silent_bind; [apply silent_ask|]. intros messageId. apply silent_bind; [apply silent_ask|]. intros now.
    apply silent_lift. apply seal_not_NoFuel; [apply an| |done]. intros k. cbn [as_key proof_keys].
    destruct (as_key_object K k); [done | apply an].
  - apply silent_lift, encodeOutbound_not_NoFuel; apply an.
Qed.

(** A result made from [object] is published if the run returns, or dropped, and
    nothing is if it throws. *)
Definition one_publish (object : jsval) (r : result unit) (evs : list event) : Prop :=
  match r with
  | Ok _ => (exists data, evs = [EPublished object data]) \/ unconnected evs
  | Throw _ => evs = []
  | NoFuel => False
  end.

Lemma publish_traced object data :
  traced P (do* emit (EPublished object data) ;; yield env) (fun r evs => one_publish object r (recorded evs)).
Proof.
  eapply traced_bind with (Q := fun r evs => r = Ok tt /\ evs = [EPublished object data]); [by apply traced_emit | |
    by intros e evs [? _] | by intros evs [? _]].
  intros [] evs [_ ->]. eapply (traced_weaken P _ smooth); [apply smooth_yield|].
  intros [[]|e|] evs [Hr Hv]; [|done..]. left. exists data. by rewrite recorded_app, Hv.
Qed.

Lemma dropped_traced object ctx msg :
  In msg ["NATS not initialized"; "protobuf types not initialized"]%string ->
  traced P (ctx_log ctx Error msg []) (fun r evs => one_publish object r (recorded evs)).
Proof. intros Hm. apply traced_emit. right. eexists msg, _. by split. Qed.

Lemma publishResult_traced ctx req ptr ms overrides authority :
  traced P (publishResult cf bt env ctx req ptr ms overrides authority)
    (fun r evs => one_publish (result_object (get req "jobId") ptr (cf_senderId cf) ms overrides) r (recorded evs)).
Proof.
  apply smooth_then; [by apply traced_state|]. intros a.
  destruct (negb (ag_nc a)); [apply dropped_traced; cbn; tauto|].
  destruct (negb (ag_busPacketType a) || _); [apply dropped_traced; cbn; tauto|].
  apply silent_then; [apply silent_lift, throw_if_not_NoFuel | intros _ | done].
  apply silent_then; [| intros jr | done].
  { apply silent_lift, bind_not_NoFuel; [apply an|]. intros jr _. apply bind_result_not_NoFuel. }
  apply silent_then; [apply silent_ask | intros now | done].
  apply silent_then; [apply silent_lift, an | intros out | done].
  apply silent_then; [apply session_token_silent | intros token | done].
  pose proof (prepareOutbound_not_NoFuel out token) as Hp. destruct (prepareOutboundPacket out token) as [checked out'].
  apply silent_then; [by apply silent_lift | intros _ | done].
  apply silent_then; [apply encode_result_silent | intros data | done].
  apply silent_then; [apply silent_lift, an | intros _ | done]. apply publish_traced.
Qed.

Lemma publishFailure_traced ctx req error ms authority :
  traced P (publishFailure cf bt env ctx req error ms authority)
    (fun r evs => reported (cf_senderId cf) req error r (recorded evs)).
Proof.
  apply silent_then; [by apply silent_metric | | constructor]. intros _.
  eapply traced_weaken; [apply publishResult_traced|]. intros r evs. destruct r as [[]|e|]; [| |done].
  - intros [[data ->]|Hd]; [|by apply reported_dropped]. by apply reported_published.
  - intros ->. constructor.
Qed.

(** ** The attempts *)

Lemma chain_ends a ctx input : P a -> ends (chain (ag_middlewares a) ctx (handler spec ctx input)).
Proof.
  intros Ha. apply Pr in Ha as Hm. unfold sound in Hm. induction Hm as [|mw rest Hmw _ IH]; [apply an|]. cbn. by apply Hmw.
Qed.

Lemma call_once_traced call output : ends call -> traced P (call_once env spec call output) smooth.
Proof.
  intros Hc. unfold call_once.
  apply smooth_bind; [by apply smooth_attempt, silent_user|]. intros returned.
  apply smooth_bind; [apply smooth_yield|]. intros _.
  destruct returned as [e|out]; [by apply traced_ret|].
  destruct (outputSchema spec) as [parse|] eqn:Ho; [|by apply traced_ret].
  apply smooth_bind; [apply smooth_attempt, silent_user; by eapply an_output|]. intros [e|out']; by apply traced_ret.
Qed.

Lemma attempt_once_traced call input k output :
  ends call ->
  traced P (attempt_once env spec call input k output)
    (fun r evs => exists t, r = Ok t /\ recorded evs = attempts input k [t]).
Proof.
  intros Hc. unfold attempt_once.
  eapply traced_bind with (Q := fun r evs => r = Ok tt /\ evs = [EAttempt k input]); [by apply traced_emit | |
    by intros e evs [? _] | by intros evs [? _]].
  intros [] evs [_ ->]. eapply traced_bind; [by apply call_once_traced | | by intros e evs [? _] | by intros evs [? _]].
  intros t evs [_ Hv].
  eapply traced_bind with (Q := fun r evs => r = Ok tt /\ evs = [EAttempted k t.1 t.2]); [by apply traced_emit | |
    by intros e evs' [? _] | by intros evs' [? _]].
  intros [] evs' [_ ->]. apply traced_ret. exists t. split; [done|]. by rewrite !recorded_app, Hv.
Qed.

Context (R : Z) (HR : retries spec = NInt R).

(** What the loop returns after its attempts. *)
Definition looped (tries : list try) (outcome : job_output * option jsstr) : Prop :=
  exists before last, tries = before ++ [last] /\ Forall failed before /\ outcome.1 = last.1 /\
    default [] outcome.2 = failure_text last /\ Z.of_nat (length before) <= R /\ (failed last -> Z.of_nat (length before) = R).

(** The loop ends within its fuel. *)
Lemma run_attempts_traced fuel call ctx input : ends call -> forall k output error before,
  Forall failed before -> length before = k -> Z.of_nat k <= R -> R + 1 < Z.of_nat (k + fuel) ->
  traced P (run_attempts env fuel spec call ctx input (Z.of_nat k) output error)
    (fun r evs => exists outcome tries, r = Ok outcome /\ recorded evs = attempts input (Z.of_nat k) tries /\
       looped (before ++ tries) outcome).
Proof.
  intros Hc. induction fuel as [|fuel IH]; intros k output error before Hb Hl Hk Hf; [lia|]. cbn [run_attempts].
  assert (num_leb (NInt (Z.of_nat k)) (retries spec) = true) as ->.
  { rewrite HR. unfold num_leb, num_ltb, num_eqb. lia. }
  cbn [negb].
  eapply traced_bind; [by apply attempt_once_traced | | by intros e evs (? & ? & _) | by intros evs (? & ? & _)].
  intros [out [e|]] evs (t & [= <-] & Hv).
  - assert (failed (out, Some e)) as Hfail by by exists e.
    eapply (traced_weaken P _ (fun r evs' => exists outcome tries, r = Ok outcome /\ recorded evs' = attempts input (Z.of_nat k + 1) tries /\
              looped (before ++ (out, Some e) :: tries) outcome)).
    2: { intros r evs' (outcome & tries & -> & Hv' & Hlp). exists outcome, ((out, Some e) :: tries). split; [done|].
         split; [|done]. by rewrite recorded_app, Hv, Hv'. }
    apply (smooth_then _ _ (fun r v => exists outcome tries, r = Ok outcome /\ v = attempts input _ tries /\ _)); [by apply traced_emit|].
    intros _. destruct (Z.eq_dec (Z.of_nat k) R) as [E|Hne].
    + (* the attempts are used up *)
      destruct fuel as [|fuel]; [lia|]. cbn [run_attempts].
      assert (num_leb (NInt (Z.of_nat k + 1)) (retries spec) = false) as ->.
      { rewrite HR. unfold num_leb, num_ltb, num_eqb. lia. }
      cbn [negb]. apply traced_ret. eexists _, []. split; [done|]. split; [done|].
      exists before, (out, Some e). split_and!; try done; lia.
    + replace (Z.of_nat k + 1) with (Z.of_nat (S k)) by lia.
      eapply traced_weaken; [apply (IH (S k) out _ (before ++ [(out, Some e)]))|]; try lia.
      * apply Forall_app. split; [done|]. by constructor.
      * rewrite length_app. cbn. lia.
      * intros r evs' (outcome & tries & -> & Hv' & Hlp). exists outcome, tries. split; [done|]. split; [done|].
        by rewrite <- (assoc_L (++)) in Hlp.
  - apply traced_ret. eexists _, [(out, None)]. split; [done|]. rewrite app_nil_r. split; [done|].
    exists before, (out, None). split_and!; try done; [lia|]. by intros [e [=]].
Qed.

(** ** The result *)

Let limit := cf_maxResultBytes cf.
Let sender := cf_senderId cf.

(** The write, then the success or nothing; or at most the write. *)
Definition finished (req : jsval) (output : job_output) (r : result unit) (evs : list event) : Prop :=
  match r with
  | Ok _ => exists w rest, write_of limit req output w /\ evs = w :: rest /\
      ((exists result data, success_of req sender result /\ rest = [EPublished result data]) \/ unconnected rest)
  | Throw _ => Forall (write_of limit req output) evs /\ (length evs <= 1)%nat
  | NoFuel => False
  end.

Lemma serialize_not_NoFuel output : serializeOutput output <> NoFuel.
Proof.
  destruct output as [b|v]; [done|]. cbn. apply bind_not_NoFuel; [apply throw_if_not_NoFuel|]. intros _ _.
  by destruct (JSON_stringify v).
Qed.

Lemma finish_job_traced ctx req output ms authority :
  traced P (finish_job cf bt env ctx req output ms authority) (fun r evs => finished req output r (recorded evs)).
Proof.
  assert (forall e, finished req output (Throw e) []) as Hnil by (intros e; split; [apply Forall_nil_2 | cbn; lia]).
  unfold finish_job. destruct (serializeOutput output) as [payload|e|] eqn:Hs;
    [| by apply traced_lift | by apply serialize_not_NoFuel in Hs].
  apply traced_bind_Ok. destruct (exceeds (cf_maxResultBytes cf) payload) eqn:Hx; [by apply traced_lift|].
  apply traced_bind_Ok. cbn zeta. fold (result_key req).
  assert (write_of limit req output (EStored (result_key req) payload)) as Hw by by exists payload.
  eapply traced_bind; [apply io_traced; intros s; apply an | | | by intros evs [? _]].
  - intros [] evs [_ [Hv|[_ ?]]]; [|done].
    eapply (traced_weaken P _ (fun r evs => one_publish (result_object (get req "jobId") (pointerForKey (result_key req))
              sender ms []) r (recorded evs))).
    + apply silent_then; [by apply silent_metric | intros _; apply publishResult_traced | done].
    + intros r evs'. rewrite recorded_app, Hv. destruct r as [[]|e|]; cbn [finished one_publish]; [|intros -> | done].
      * intros Hp. eexists _, _. split; [exact Hw|]. split; [done|]. destruct Hp as [[data ->]|Hp]; [left | by right].
        eexists _, data. by split; [|reflexivity].
      * split; [by repeat constructor | done].
  - intros e evs [_ [Hv|[Hv _]]]; rewrite Hv; [|apply (Hnil e)]. split; [by repeat constructor | done].
Qed.

(** The trace of a run, from the attempts on. *)
Definition traced_job (req : jsval) (r : result unit) (evs : list event) : Prop := job_trace R limit sender req r evs.

Context (HR0 : 0 <= R).

Lemma failure_traced ctx req error ms authority :
  traced P (publishFailure cf bt env ctx req error ms authority) (fun r evs => traced_job req r (recorded evs)).
Proof.
  eapply traced_weaken; [apply publishFailure_traced|]. intros r evs Hr.
  apply (job_trace_intro R limit sender req r JUndef []); [by left|]. eapply answer_refused. exact Hr.
Qed.

(** A failure is published after what [finished] left. *)
Lemma finish_answers ctx req ms authority before last :
  failure_text last = [] ->
  traced P (let* finished := attempt (finish_job cf bt env ctx req last.1 ms authority) in
            match finished with
            | inr _ => ret tt
            | inl e => publishFailure cf bt env ctx req (js "result write failed: " ++ describe e) ms authority
            end)
    (fun r evs => answer limit sender req (before ++ [last]) r (recorded evs)).
Proof.
  intros Hn. eapply traced_bind with (Q := fun r evs =>
    match r with Ok (inr _) => finished req last.1 (Ok tt) (recorded evs)
               | Ok (inl e) => finished req last.1 (Throw e) (recorded evs) | _ => False end).
  - apply traced_attempt. eapply traced_weaken; [apply finish_job_traced|]. by intros [[]|e|] evs.
  - intros [e|[]] evs HQ.
    + destruct HQ as [Hf Hl]. eapply traced_weaken; [apply publishFailure_traced|]. intros r evs' Ha.
      rewrite recorded_app. eapply answer_unwritten; [done | exact Hf | done | exact Ha].
    + destruct HQ as (w & rest & Hw & Hv & Hrest). apply traced_ret. rewrite app_nil_r, Hv.
      destruct Hrest as [(result & data & Hs & ->)|Hu]; [by apply answer_success | by apply answer_dropped].
  - done.
  - done.
Qed.

Lemma run_job_traced fuel ctx req input authority :
  R + 1 < Z.of_nat fuel ->
  traced P (run_job cf bt env fuel spec ctx req input authority) (fun r evs => traced_job req r (recorded evs)).
Proof.
  intros Hf. unfold run_job.
  eapply traced_bind with (Q := fun r evs => evs = [] /\ exists a, r = Ok a /\ P a).
  { apply traced_state. eauto. }
  2: by intros e evs (_ & a & ? & _). 2: by intros evs (_ & a & ? & _).
  intros a evs (-> & a' & [= <-] & Ha). cbn [app].
  apply (smooth_then _ _ (traced_job req)); [by apply traced_ask|]. intros start.
  eapply traced_bind.
  { apply (run_attempts_traced fuel _ ctx input (chain_ends _ ctx input Ha) 0 (Value JUndef) None []); try done; lia. }
  2: by intros e evs (? & ? & ? & _). 2: by intros evs (? & ? & ? & _).
  intros [output error] evs (outcome & tries & [= <-] & Hv & before & last & Htr & Hb & Ho & Ht & Hlen & Hlast).
  cbn [app fst] in Htr, Ho. subst tries output.
  assert (forall m, traced P m (fun r evs' => answer limit sender req (before ++ [last]) r (recorded evs')) ->
            traced P m (fun r evs' => traced_job req r (recorded (evs ++ evs')))) as Hrest.
  { intros m Hm. eapply traced_weaken; [exact Hm|]. intros r evs' Ha'. rewrite recorded_app, Hv.
    apply job_trace_intro; [|done]. right. by exists before, last. }
  apply Hrest. apply (smooth_then _ _ (answer limit sender req (before ++ [last]))); [by apply traced_ask|].
  intros now. cbn zeta. cbn [fst snd] in *.
  destruct error as [[|c s]|]; cbn [default from_option id] in Ht; [by apply finish_answers | | by apply finish_answers].
  eapply traced_weaken; [apply publishFailure_traced|]. intros r evs' Hr. unfold default in Ht. cbn in Ht. rewrite Ht in Hr.
  apply answer_failed; [by rewrite <- Ht | done].
Qed.

Lemma fetch_context_silent req : traced P (fetch_context cf env req) silent.
Proof.
  apply silent_bind.
  { apply silent_lift. unfold keyFromPointer. apply bind_not_NoFuel; [apply throw_if_not_NoFuel|]. intros _ _.
    destruct (get req "contextPtr"); try done. apply bind_not_NoFuel; [apply throw_if_not_NoFuel|]. intros _ _.
    cbn zeta. apply bind_not_NoFuel; [apply throw_if_not_NoFuel | done]. }
  intros key. apply silent_bind; [apply silent_io; [done | intros s; apply an]|]. intros [data|]; [|by apply silent_lift].
  apply silent_bind; [apply silent_lift, throw_if_not_NoFuel|]. intros _. by apply silent_lift.
Qed.

Lemma handle_job_traced fuel packet req authority :
  R + 1 < Z.of_nat fuel ->
  traced P (handle_job cf bt env fuel spec packet req authority) (fun r evs => traced_job req r (recorded evs)).
Proof.
  intros Hf. assert (forall e, traced_job req (Throw e) []) as Hnil.
  { intros e. apply (job_trace_intro R limit sender req (Throw e) JUndef []); [by left|].
    apply (answer_refused _ _ _ []). constructor. }
  apply silent_then; [by apply silent_metric | intros _ | exact Hnil]. cbn zeta.
  apply (smooth_then _ _ (traced_job req)); [apply smooth_attempt, fetch_context_silent|].
  intros [e|payload]; [apply failure_traced|].
  apply (smooth_then _ _ (traced_job req)).
  { apply smooth_attempt, silent_lift. unfold parsePayload.
    destruct (JSON_parse_ends (env_syntax_message env) (utf8_decode payload)) as [[v ->] | ->]; done. }
  intros [e|raw]; [apply failure_traced|]. apply (smooth_then _ _ (traced_job req)).
  { apply smooth_attempt. destruct (inputSchema spec) as [parse|] eqn:Hi; [|by apply silent_lift].
    apply silent_user. by eapply an_input. }
  intros [e|input]; [apply failure_traced | by apply run_job_traced].
Qed.
End Answer.

(** ** One message *)

Section Message.
Context {U B T : Type} `{BlobStore B} `{ReplayStore T} {K : key_api}.
Context (cf : config) (bt : bus_types) (env : environment (U:=U) (B:=B) (R:=T) (K:=K)) (spec : HandlerSpec (U:=U)).

Abbreviation run := (task (agent (U:=U) (B:=B) (R:=T) (K:=K)) event).
Abbreviation count t := (ag_activeJobCount (tk_state t)).

(** *** The number of active jobs *)

(** A relation that holds across every step that is not the start or the end of
    the job. *)
Record tame (I : run -> run -> Prop) : Prop := {
  tm_order : PreOrder I;
  tm_ask t : I t (Task (tk_state t) (S (tk_tick t)) (tk_events t));
  tm_emit t e : (forall d, e <> EOthers d) -> I t (Task (tk_state t) (tk_tick t) (tk_events t ++ [e]));
  tm_update t a : ag_activeJobCount a = count t -> I t (Task a (tk_tick t) (tk_events t));
  tm_yield : keeps I (yield env)
}.

Section Tame.
Context (I : run -> run -> Prop) (It : tame I).

#[local] Instance tame_order : PreOrder I := tm_order I It.

Lemma keeps_ask {X} (f : nat -> X) : keeps I (ask f).
Proof. intros t. apply It. Qed.

Lemma keeps_emit e : (forall d, e <> EOthers d) -> keeps I (emit e).
Proof. intros He t. by apply It. Qed.

Lemma keeps_update {X} (f : agent (U:=U) (B:=B) (R:=T) (K:=K) -> result X * agent (U:=U) (B:=B) (R:=T) (K:=K)) :
  (forall a, ag_activeJobCount (f a).2 = ag_activeJobCount a) -> keeps I (update f).
Proof. intros Hf t. unfold update. specialize (Hf (tk_state t)). destruct (f _) as [r a]. by apply It. Qed.

Lemma keeps_user {X} (f : user X) : keeps I (run_user f).
Proof. apply keeps_update. intros a. by destruct (f (ag_user a)). Qed.

Ltac keep := repeat first
  [ apply (keeps_lift I) | apply (keeps_state I) | apply keeps_ask | by apply keeps_emit | apply keeps_user | apply (tm_yield I It)
  | apply (keeps_attempt I) | apply (keeps_bind I); [|intros ?] | apply keeps_update; intros ?
  | progress unfold metric, rejected, ctx_log, log, ret ].

Lemma metric_keeps e : (forall d, e <> EOthers d) -> keeps I (metric env e).
Proof. intros He. keep. Qed.

Lemma io_keeps {X} access (operation : B -> result X * B) label :
  (forall d, access <> EOthers d) -> keeps I (with_io_timeout cf env access operation label).
Proof.
  intros Ha. unfold with_io_timeout. keep. destruct (ag_store _); [|done]. by destruct (operation _).
Qed.

Lemma session_token_keeps : keeps I (session_token env).
Proof.
  unfold session_token. keep. destruct (ag_trust _) as [st|]; [|done]. by destruct (outboundSessionToken _ st).
Qed.

Lemma publishResult_keeps ctx req ptr ms overrides authority :
  keeps I (publishResult cf bt env ctx req ptr ms overrides authority).
Proof.
  unfold publishResult. apply (keeps_bind I); [apply (keeps_state I)|]. intros a. destruct (negb _); [by apply keeps_emit|].
  destruct (_ || _); [by apply keeps_emit|]. do 4 (apply (keeps_bind I); [keep|intros ?]).
  apply (keeps_bind I); [apply session_token_keeps|]. intros token. destruct (prepareOutboundPacket _ token).
  apply (keeps_bind I); [keep|]. intros _. apply (keeps_bind I); [|intros data; keep]. unfold encode_result.
  destruct authority; [|keep]. apply (keeps_bind I); [keep|]. intros a'.
  destruct (match ag_trust a' with Some st => _ | None => _ end); keep.
Qed.

Lemma publishFailure_keeps ctx req error ms authority : keeps I (publishFailure cf bt env ctx req error ms authority).
Proof. apply (keeps_bind I); [by apply metric_keeps | intros _; apply publishResult_keeps]. Qed.

Lemma run_attempts_keeps fuel call ctx input : forall k output error,
  keeps I (run_attempts env fuel spec call ctx input k output error).
Proof.
  induction fuel as [|fuel IH]; intros k output error; [keep|]. cbn [run_attempts]. destruct (negb _); [keep|].
  apply (keeps_bind I).
  - unfold attempt_once, call_once. apply (keeps_bind I); [keep|]. intros _. apply (keeps_bind I); [|intros t; keep].
    do 2 (apply (keeps_bind I); [keep|intros ?]). destruct a; [keep|]. destruct (outputSchema spec); [|keep].
    apply (keeps_bind I); [keep|]. intros [|]; keep.
  - intros [out [e|]]; [|keep]. apply (keeps_bind I); [by apply keeps_emit | intros _; apply IH].
Qed.

Lemma handle_job_keeps fuel packet req authority : keeps I (handle_job cf bt env fuel spec packet req authority).
Proof.
  unfold handle_job. apply (keeps_bind I); [by apply metric_keeps|]. intros _. cbn zeta.
  apply (keeps_bind I).
  { apply (keeps_attempt I). unfold fetch_context. apply (keeps_bind I); [keep|]. intros key.
    apply (keeps_bind I); [by apply io_keeps|]. intros [data|]; keep. }
  intros [e|payload]; [apply publishFailure_keeps|]. apply (keeps_bind I); [keep|].
  intros [e|raw]; [apply publishFailure_keeps|]. apply (keeps_bind I); [destruct (inputSchema spec); keep|].
  intros [e|input]; [apply publishFailure_keeps|]. unfold run_job.
  do 2 (apply (keeps_bind I); [keep|intros ?]). apply (keeps_bind I); [apply run_attempts_keeps|]. intros [output error].
  apply (keeps_bind I); [keep|]. intros now. cbn zeta.
  assert (keeps I (let* finished := attempt (finish_job cf bt env (context_of req packet) req output (now - a0) authority) in
    match finished with
    | inl e => publishFailure cf bt env (context_of req packet) req (js "result write failed: " ++ describe e) (now - a0) authority
    | inr _ => ret tt end)) as Hfin.
  { apply (keeps_bind I); [|intros [e|[]]; [apply publishFailure_keeps | keep]]. apply (keeps_attempt I). unfold finish_job.
    do 2 (apply (keeps_bind I); [keep|intros ?]). apply (keeps_bind I); [by apply io_keeps|]. intros _.
    apply (keeps_bind I); [by apply metric_keeps | intros _; apply publishResult_keeps]. }
  destruct error as [[|c s]|]; [exact Hfin | apply publishFailure_keeps | exact Hfin].
Qed.

Lemma reject_all_keeps msg errors : keeps I (reject_all msg errors).
Proof. induction errors as [|e rest IH]; [keep|]. apply (keeps_bind I); [by apply keeps_emit | intros _; exact IH]. Qed.

Lemma receive_keeps data subject : keeps I (receive cf bt env data subject).
Proof.
  unfold receive, receive_production, receive_ordinary, session_active, verify_inbound. destruct (cf_production cf) as [trust|].
  - apply (keeps_bind I).
    { keep. destruct (ag_trust _) as [st|]; [|done]. by destruct (productionSessionActive _ st). }
    intros active. destruct (negb active); [keep|]. apply (keeps_bind I); [keep|]. intros now.
    apply (keeps_bind I); [|intros outcome; apply (keeps_bind I); [apply reject_all_keeps | intros _; keep]].
    keep. by destruct (decodeProductionPacket _ _ _ _ _ _ _ _ _) as [[r replay] warnings].
  - destruct (pt_decode (bt_packet bt) data) as [packet|e|]; [|keep|keep]. apply (keeps_bind I).
    { keep. destruct (ag_trust _) as [st|]; [|done]. by destruct (verifyInbound _ _ _ _ _ _) as [[r packet'] st']. }
    intros [[[]|e|] packet']; cbn [fst snd]; keep.
Qed.
End Tame.

(** The count changes by what other tasks do. *)
Definition level (t t' : run) : Prop := count t' - net (tk_events t') = count t - net (tk_events t).

Lemma level_tame : tame level.
Proof.
  unfold level. split; cbn [tk_state tk_tick tk_events]; try done.
  - split; [done|]. intros t1 t2 t3 H1 H2. congruence.
  - intros t e He. rewrite net_app. destruct e; try (cbn; lia). by destruct (He change).
  - intros t a ->. done.
  - intros t. cbn. rewrite net_app. cbn. lia.
Qed.

(** From some time on the count does not fall below one, if other tasks do not
    take it there. *)
Definition above (n0 : nat) (t t' : run) : Prop :=
  (n0 <= tk_tick t)%nat -> 1 <= count t -> (n0 <= tk_tick t')%nat /\ 1 <= count t'.

Lemma above_tame n0 :
  (forall n a, (n0 <= n)%nat -> 1 <= ag_activeJobCount a -> 1 <= ag_activeJobCount (env_others env n a)) -> tame (above n0).
Proof.
  intros Ho. unfold above. split; cbn [tk_state tk_tick tk_events]; try done.
  - split; [done|]. intros t1 t2 t3 H1 H2 Hn Hc. destruct (H1 Hn Hc). by apply H2.
  - intros t Hn Hc. split; [lia | done].
  - intros t a ->. done.
  - intros t Hn Hc. cbn. split; [lia | by apply Ho].
Qed.

(** Other tasks add only middlewares that end. *)
Definition others_sound : Prop := forall n a, sound a -> sound (env_others env n a).

(** From some time on, other tasks end only jobs that they have started, so that
    a job that is counted stays counted. *)
Definition others_count (n0 : nat) : Prop :=
  forall n a, (n0 <= n)%nat -> 1 <= ag_activeJobCount a -> 1 <= ag_activeJobCount (env_others env n a).

Lemma sound_kept : others_sound -> kept env sound.
Proof. intros Ho. by split. Qed.

Lemma dispatch_traced R fuel packet t :
  answers bt env spec -> others_sound -> others_count (tk_tick t) -> retries spec = NInt R -> 0 <= R -> R + 1 < Z.of_nat fuel ->
  let req := get packet "jobRequest" in
  truthy req = true -> truthy (get req "jobId") = true -> sound (tk_state t) -> 0 <= count t ->
  let r := dispatch_packet cf bt env fuel spec packet t in
  exists evs, tk_events r.2 = tk_events t ++ evs /\ count r.2 = count t + net evs /\
    job_trace R (cf_maxResultBytes cf) (cf_senderId cf) req r.1 (recorded evs).
Proof.
  intros an Hso Hco HR HR0 Hf req Hreq Hid Ht Hc. cbn zeta. unfold dispatch_packet. fold req. rewrite Hreq, Hid. cbn [negb orb].
  unfold bindM at 1, lift at 1.
  destruct (match cf_production cf with Some _ => _ | None => _ end) as [authority|e|] eqn:Ea.
  - unfold bindM, update, lift. cbn [fst snd]. set (t' := Task (bump (tk_state t)) (tk_tick t) (tk_events t)).
    pose proof (handle_job_traced cf bt env spec an _ (sound_kept Hso) (fun a Ha => Ha) R HR HR0 fuel packet req authority Hf t') as Hh.
    pose proof (handle_job_keeps _ level_tame fuel packet req authority t') as Hlev.
    pose proof (handle_job_keeps _ (above_tame _ Hco) fuel packet req authority t') as Hab.
    unfold finally. destruct (handle_job _ _ _ _ _ _ _ _ _) as [r t2].
    destruct Hh as (_ & evs & Hev & Htr); [done|]. unfold level, above in Hlev, Hab. cbn [fst snd tk_state tk_events tk_tick t' bump set_active ag_activeJobCount] in *.
    rewrite Hev, net_app in Hlev. destruct Hab as [_ Hone]; [lia | lia|].
    exists evs. split; [exact Hev|]. split; [|exact Htr]. cbn. lia.
  - exists []. rewrite app_nil_r. split; [done|]. split; [cbn; lia|].
    apply (job_trace_intro R _ _ req (Throw e) JUndef []); [by left|]. apply (answer_refused _ _ _ []). constructor.
  - exfalso. destruct (cf_production cf); [|done]. apply bind_NoFuel_iff in Ea as [Ea | (? & _ & ?)]; [|done].
    by apply freeze_not_NoFuel in Ea.
Qed.

(** *** Admission *)

(** Admission shows nothing. *)
Definition unseen {X} (r : result X) (evs : list event) : Prop := visible evs = [].

Lemma unseen_bind {X Y} (P : agent (U:=U) (B:=B) (R:=T) (K:=K) -> Prop) (m : A X) (k : X -> A Y) :
  traced P m unseen -> (forall x, traced P (k x) unseen) -> traced P (bindM m k) unseen.
Proof.
  intros Hm Hk. eapply traced_bind; [exact Hm | | done | done]. intros x evs Hv.
  eapply traced_weaken; [apply Hk|]. unfold unseen. intros r evs' Hv'. by rewrite visible_app, Hv, Hv'.
Qed.

Lemma reject_all_traced (P : agent (U:=U) (B:=B) (R:=T) (K:=K) -> Prop) msg errors : traced P (reject_all msg errors) unseen.
Proof.
  induction errors as [|e rest IH]; [by apply traced_ret|]. cbn. apply unseen_bind; [by apply traced_emit | done].
Qed.

Lemma yield_traced (P : agent (U:=U) (B:=B) (R:=T) (K:=K) -> Prop) :
  kept env P -> traced P (yield env) (fun r evs => exists d, r = Ok tt /\ evs = [EOthers d]).
Proof.
  intros Pk t Ht. cbn. split; [by apply Pk|]. eexists. split; [reflexivity|]. by eexists.
Qed.

Lemma receive_traced P data subject : kept env P -> traced P (receive cf bt env data subject) unseen.
Proof.
  intros Pk. unfold receive, receive_production, receive_ordinary, session_active, verify_inbound.
  destruct (cf_production cf) as [trust|].
  - apply unseen_bind.
    { apply unseen_bind; [by apply traced_ask|]. intros now. apply traced_update. intros a Ha.
      destruct (ag_trust a) as [st|]; [|done]. destruct (productionSessionActive now st). split; [by apply Pk | done]. }
    intros active. destruct (negb active); [apply unseen_bind; [by apply traced_emit|]; intros _; by apply traced_ret|].
    apply unseen_bind; [by apply traced_ask|]. intros now. apply unseen_bind.
    { apply traced_update. intros a Ha. destruct (decodeProductionPacket _ _ _ _ _ _ _ _ _) as [[r replay] warnings].
      split; [by apply Pk | done]. }
    intros outcome. apply unseen_bind; [apply reject_all_traced|]. intros _.
    apply unseen_bind; [eapply traced_weaken; [by apply yield_traced|]; by intros r evs (d & _ & ->)|]. intros _. by apply traced_ret.
  - destruct (pt_decode (bt_packet bt) data) as [packet|e|];
      [|apply unseen_bind; [by apply traced_emit|]; intros _; by apply traced_ret | by apply traced_lift].
    apply unseen_bind.
    { apply unseen_bind; [by apply traced_ask|]. intros now. apply traced_update. intros a Ha.
      destruct (ag_trust a) as [st|]; [|done]. destruct (verifyInbound _ _ _ _ _ _) as [[r packet'] st'].
      split; [by apply Pk | done]. }
    intros [[[]|e|] packet']; cbn; try (by apply traced_lift); apply unseen_bind; try (by apply traced_emit);
      intros _; by apply traced_ret.
Qed.

(** Nothing shows, if a packet is received. *)
Definition quiet {X} (r : result (option X)) (evs : list event) : Prop := forall p, r = Ok (Some p) -> recorded evs = [].

Lemma quiet_after {X Y} (P : agent (U:=U) (B:=B) (R:=T) (K:=K) -> Prop) (m : A X) (k : X -> A (option Y)) :
  traced P m (fun _ evs => recorded evs = []) -> (forall x, traced P (k x) quiet) -> traced P (bindM m k) quiet.
Proof.
  intros Hm Hk. eapply traced_bind; [exact Hm | | done | done]. intros x evs Hv.
  eapply traced_weaken; [apply Hk|]. intros r evs' Hq p Hr. by rewrite recorded_app, Hv, (Hq p Hr).
Qed.

Lemma received_traced (P : agent (U:=U) (B:=B) (R:=T) (K:=K) -> Prop) data subject :
  kept env P -> traced P (receive cf bt env data subject) quiet.
Proof.
  intros Pk. unfold receive, receive_production, receive_ordinary, session_active, verify_inbound.
  destruct (cf_production cf) as [trust|].
  - apply quiet_after.
    { eapply traced_bind with (Q := fun _ evs => evs = []); [by apply traced_ask | | by intros e evs -> | by intros evs ->].
      intros now evs ->. apply traced_update. intros a Ha.
      destruct (ag_trust a) as [st|]; [|done]. destruct (productionSessionActive now st). split; [by apply Pk | done]. }
    intros active. destruct (negb active); [apply quiet_after; [by apply traced_emit|]; intros _; by apply traced_ret|].
    apply quiet_after; [by apply traced_ask|]. intros now. apply quiet_after.
    { apply traced_update. intros a Ha. destruct (decodeProductionPacket _ _ _ _ _ _ _ _ _) as [[r replay] warnings].
      split; [by apply Pk | done]. }
    intros outcome. apply quiet_after.
    { induction outcome.2 as [|e rest IH]; [by apply traced_ret|].
      eapply traced_bind with (Q := fun _ evs => recorded evs = []); [by apply traced_emit | | done | done].
      intros _ evs Hv. eapply traced_weaken; [exact IH|]. intros r evs' Hv'. by rewrite recorded_app, Hv. }
    intros _. apply quiet_after; [|intros _; by apply traced_ret].
    eapply traced_weaken; [by apply yield_traced|]. by intros r evs (d & _ & ->).
  - destruct (pt_decode (bt_packet bt) data) as [packet|e|]; [| |by apply traced_lift].
    + apply quiet_after.
      { eapply traced_bind with (Q := fun _ evs => evs = []); [by apply traced_ask | | by intros e evs -> | by intros evs ->].
        intros now evs ->. apply traced_update. intros a Ha. destruct (ag_trust a) as [st|]; [|done].
        destruct (verifyInbound _ _ _ _ _ _) as [[r packet'] st']. split; [by apply Pk | done]. }
      intros [[[]|e|] packet']; cbn; try (by apply traced_lift); apply quiet_after; try (by apply traced_emit);
        intros _; by apply traced_ret.
    + eapply traced_bind with (Q := fun _ _ => True); [by apply traced_emit | | done | done]. intros _ evs _. by apply traced_ret.
Qed.

Lemma onMessage_received fuel data subject packet t t1 :
  isSome (ag_store (tk_state t)) = true -> ag_busPacketType (tk_state t) = true ->
  receive cf bt env data subject t = (Ok (Some packet), t1) ->
  onMessage cf bt env fuel data subject spec t = dispatch_packet cf bt env fuel spec packet t1.
Proof. intros Hs Hb Hr. unfold onMessage, bindM, state. rewrite Hs, Hb. cbn [negb]. by rewrite Hr. Qed.

(** A packet that is received has left nothing that shows. *)
Lemma received_recorded P data subject t packet t1 :
  kept env P -> P (tk_state t) -> receive cf bt env data subject t = (Ok (Some packet), t1) ->
  P (tk_state t1) /\ exists evs, tk_events t1 = tk_events t ++ evs /\ recorded evs = [] /\ count t1 = count t + net evs.
Proof.
  intros Pk Ht Hrec. pose proof (receive_keeps _ level_tame data subject t) as Hlev.
  assert (P (tk_state t1) /\ exists evs, tk_events t1 = tk_events t ++ evs /\ recorded evs = []) as (Hp & evs & Hev & Hv).
  { destruct (received_traced P data subject Pk t Ht) as (Hp & evs & Hev & Hv). rewrite Hrec in Hp, Hev, Hv. cbn in Hp, Hev, Hv.
    split; [done|]. exists evs. split; [done|]. by apply (Hv packet). }
  split; [done|]. exists evs. split; [done|]. split; [done|]. rewrite Hrec in Hlev. unfold level in Hlev. cbn in Hlev.
  rewrite Hev, net_app in Hlev. lia.
Qed.

(** C7. Every admitted job is answered at most once, and as its last attempt
    ended.  When the calls to the outside return, [retries] is a whole number
    [R] and other tasks end only jobs they have started, a run of [onMessage]
    that receives a job request makes at most [R + 1] attempts on one input, each
    but the last failed, and the last failed only if it was attempt [R + 1].  If
    no attempt was made or the last one failed with a message, nothing is written
    and a failure is published; otherwise the serialised output of the last
    attempt is written, within the size limit, and then a success published
    that points to it, or a failure if that went wrong.  A result is published
    at most once: not if the run throws or if the agent has lost its connection
    or its types, which is logged.  In the end the number of active jobs has
    changed by what other tasks started and ended. *)
Theorem job_answered_once R fuel data subject packet t t1 :
  answers bt env spec -> others_sound -> others_count (tk_tick t1) ->
  retries spec = NInt R -> 0 <= R -> R + 1 < Z.of_nat fuel ->
  isSome (ag_store (tk_state t)) = true -> ag_busPacketType (tk_state t) = true -> sound (tk_state t) -> 0 <= count t1 ->
  receive cf bt env data subject t = (Ok (Some packet), t1) ->
  truthy (get packet "jobRequest") = true -> truthy (get (get packet "jobRequest") "jobId") = true ->
  let r := onMessage cf bt env fuel data subject spec t in
  exists evs, tk_events r.2 = tk_events t ++ evs /\
    job_trace R (cf_maxResultBytes cf) (cf_senderId cf) (get packet "jobRequest") r.1 (recorded evs) /\
    count r.2 = count t + net evs.
Proof.
  intros an Hso Hco HR HR0 Hf Hs Hb Ht Hc Hrec Hreq Hid. cbn zeta.
  destruct (received_recorded _ data subject t packet t1 (sound_kept Hso) Ht Hrec) as (Ht1 & evs1 & Hev1 & Hv1 & Hc1).
  rewrite (onMessage_received _ _ _ packet _ t1) by done.
  destruct (dispatch_traced R fuel packet t1 an Hso Hco HR HR0 Hf Hreq Hid Ht1 Hc) as (evs & Hev & Hcount & Htr).
  exists (evs1 ++ evs). rewrite Hev, Hev1, (assoc_L (++)). split; [done|].
  rewrite recorded_app, Hv1, net_app. split; [exact Htr | lia].
Qed.

(** ** Nothing runs without admission *)

(** The outcome of [receive] that lets a job run, in terms of the two checks. *)
Lemma receive_inv data subject t packet t1 :
  receive cf bt env data subject t = (Ok (Some packet), t1) ->
  exists st, ag_trust (tk_state t) = Some st /\
  match cf_production cf with
  | Some trust => exists now now' store' warnings, (productionSessionActive now st).1 = true /\
      decodeProductionPacket (env_crypto env) (bt_packet bt) trust (st_config (rw_settings st)) describe data subject
        now' (ag_replay (tk_state t)) = (Ok (Some packet), store', warnings)
  | None => exists now decoded, pt_decode (bt_packet bt) data = Ok decoded /\
      (verifyInbound (env_crypto env) (bt_codec bt) now decoded (cf_publicKeyMap cf) st).1 = (Ok true, packet)
  end.
Proof.
  unfold receive. destruct (cf_production cf) as [trust|].
  - unfold receive_production, session_active, bindM, ask, update, yield, await. cbn [tk_state tk_tick tk_events].
    set (now := env_clock env (tk_tick t)). destruct (ag_trust (tk_state t)) as [st|] eqn:Hst; [|done].
    destruct (productionSessionActive now st) as [active st'] eqn:Ha. cbn [fst snd]. destruct active; [|done].
    cbn [negb tk_state tk_tick tk_events fst snd ag_trust set_trust ag_replay].
    assert (rw_settings st' = rw_settings st) as ->.
    { unfold productionSessionActive in Ha. destruct (_ && _); [|discriminate Ha].
      unfold trust_sessionToken in Ha. destruct (rw_lifecycle st) as [l|]; [|discriminate Ha].
      destruct (sessionToken now l). by injection Ha as _ <-. }
    destruct (decodeProductionPacket _ _ _ _ _ _ _ _ _) as [[r store'] warnings] eqn:Hd.
    destruct r as [p|e|]; [|done|done]. cbn.
    assert (forall tk, exists tk', reject_all (U:=U) (B:=B) (R:=T) (K:=K) "production admission rejected packet" warnings tk
              = (Ok tt, tk')) as Hrej.
    { clear. induction warnings as [|w rest IH]; intros tk; [by eexists|]. cbn. unfold bindM, rejected, log, emit. apply IH. }
    edestruct Hrej as [tk' ->]. intros [= -> _]. exists st. split; [done|]. eexists _, _, _, _. split; [|exact Hd].
    by rewrite Ha.
  - unfold receive_ordinary. destruct (pt_decode (bt_packet bt) data) as [decoded|e|] eqn:Hdec; [|done|done].
    unfold verify_inbound, bindM, ask, update. cbn [tk_state tk_tick tk_events].
    destruct (ag_trust (tk_state t)) as [st|] eqn:Hst; [|done].
    destruct (verifyInbound _ _ _ _ _ _) as [[r packet'] st'] eqn:Hv. cbn [fst snd].
    destruct r as [[]|e|]; [|done|done|done]. intros [= -> _]. exists st. split; [done|]. eexists _, decoded.
    split; [done|]. by rewrite Hv.
Qed.

(** A run that shows anything has received a job request. *)
Lemma visible_received fuel data subject t evs :
  tk_events (onMessage cf bt env fuel data subject spec t).2 = tk_events t ++ evs -> visible evs <> [] ->
  exists packet t1, receive cf bt env data subject t = (Ok (Some packet), t1) /\
    truthy (get packet "jobRequest") = true /\ truthy (get (get packet "jobRequest") "jobId") = true.
Proof.
  assert (forall evs' : list event, tk_events t ++ evs' = tk_events t ++ evs -> visible evs' = [] -> visible evs <> [] -> False) as Hno.
  { intros evs' ->%(inj (app _)) Hv Hne. by rewrite Hv in Hne. }
  unfold onMessage, bindM, state.
  destruct (isSome _); cbn [negb]; [|intros E Hne; destruct (Hno _ E eq_refl Hne)].
  destruct (ag_busPacketType _); cbn [negb]; [|intros E Hne; destruct (Hno _ E eq_refl Hne)].
  destruct (receive_traced (fun _ => True) data subject ltac:(by split) t I) as (_ & evs1 & Hev1 & Hv1).
  destruct (receive cf bt env data subject t) as [[[packet|]|e|] t1]; cbn in Hev1 |- *;
    [|intros E Hne; cbn in E; rewrite Hev1 in E; destruct (Hno _ E Hv1 Hne) ..].
  unfold dispatch_packet. destruct (truthy (get packet "jobRequest")) eqn:Hreq; cbn [negb orb];
    [|intros E Hne; cbn in E; rewrite Hev1 in E; destruct (Hno _ E Hv1 Hne)].
  destruct (truthy (get (get packet "jobRequest") "jobId")) eqn:Hid; cbn [negb orb];
    [|intros E Hne; cbn in E; rewrite Hev1 in E; destruct (Hno _ E Hv1 Hne)].
  intros _ _. by exists packet, t1.
Qed.

(** C8. A handler runs, a result is stored or published only for an admitted
    packet that carries a job request with an id.  Under production admission
    the worker enforces trust and has a live session, and the received bytes
    were admitted: verified for the authority of the agent and its session,
    valid, identity bound, and first in the replay store.  Otherwise the
    decoded packet came from the pinned scheduler, or with worker trust off
    was accepted by the configured key map. *)
Theorem runs_only_admitted options senderId topics mode (st0 st : RuntimeWorkerTrust K) fuel data subject t evs :
  wf_type (pt_schema (bt_packet bt)) ->
  (forall d p, pt_decode (bt_packet bt) d = Ok p -> decoded_message p) ->
  new_trust options senderId topics mode = Ok st0 -> trust_reachable st0 st -> ag_trust (tk_state t) = Some st ->
  tk_events (onMessage cf bt env fuel data subject spec t).2 = tk_events t ++ evs -> visible evs <> [] ->
  exists packet now, truthy (get (get packet "jobRequest") "jobId") = true /\
    match cf_production cf with
    | Some trust => st_mode (rw_settings st0) = ENFORCE /\ live_session st0 st now /\
        exists now' store', admitted (env_crypto env) (bt_packet bt) trust (st_config (rw_settings st0)) data subject
          now' (ag_replay (tk_state t)) packet store'
    | None => pt_decode (bt_packet bt) data = Ok packet /\
        inbound_admitted (env_crypto env) (bt_codec bt) st0 st now packet (cf_publicKeyMap cf)
    end.
Proof.
  intros Hwf Hmsg Hnew Hr Hst Hev Hvis. destruct (visible_received _ _ _ _ _ Hev Hvis) as (packet & t1 & Hrec & _ & Hid).
  apply receive_inv in Hrec as (st' & Hst' & Hrec). assert (st' = st) as -> by congruence.
  destruct (cf_production cf) as [trust|].
  - destruct Hrec as (now & now' & store' & warnings & Hact & Hdec). exists packet, now. split; [done|].
    destruct (production_session _ _ _ _ _ _ _ Hnew Hr Hact) as [Hm Hl]. split; [done|]. split; [done|].
    exists now', store'. destruct (trust_reachable_ok _ _ _ _ _ _ Hnew Hr) as [Hs _ _]. rewrite <- Hs.
    by destruct (decode_sound _ _ Hwf _ _ _ _ _ _ _ _ _ _ Hdec).
  - destruct Hrec as (now & decoded & Hd & Hv). exists packet, now. split; [done|].
    pose proof (Hmsg _ _ Hd) as Hdm.
    assert (packet = decoded) as ->.
    { pose proof (verifyInbound_same (env_crypto env) (bt_codec bt) now decoded (cf_publicKeyMap cf) st Hdm) as Hsame.
      by rewrite Hv in Hsame. }
    split; [done|]. eapply verifyInbound_admission; [done..|]. by rewrite Hv.
Qed.
End Message.

(** ** From one job to the next *)

Section Chaining.
Context {U B T : Type} `{BlobStore B} `{ReplayStore T} {K : key_api}.

(** A result that is written is handed to the store of that moment. *)
Lemma finish_job_writes cf bt (env : environment (U:=U) (B:=B) (R:=T) (K:=K)) ctx req output ms authority t t' s :
  ag_store (tk_state t) = Some s -> finish_job cf bt env ctx req output ms authority t = (Ok tt, t') ->
  exists data, serializeOutput output = Ok data /\ exceeds (cf_maxResultBytes cf) data = false /\
    (blob_set s (result_key req) data).1 = Ok tt.
Proof.
  intros Hs. unfold finish_job. unfold bindM at 1, lift at 1. destruct (serializeOutput output) as [data|e|]; [|done..].
  unfold bindM at 1, lift at 1. destruct (exceeds (cf_maxResultBytes cf) data) eqn:Hx; [done|]. intros Hf.
  exists data. split; [done|]. split; [done|]. revert Hf. unfold throw_if. unfold bindM at 1. fold (result_key req).
  unfold with_io_timeout, bindM, update, emit, ask, yield, await, state, lift. rewrite Hs.
  destruct (blob_set s (result_key req) data) as [r s']. cbn [fst snd tk_state tk_tick tk_events].
  destruct (env_timer_first env _); cbn [withTimeout].
  - destruct (no_deadline _); [|done]. by destruct r as [[]| |].
  - by destruct r as [[]| |].
Qed.

(** C39. The result of one job is the input of the next.  When [finish_job]
    returns for an output that is JSON data (no Buffer, integers that JSON keeps,
    no fractions), the payload was within the result limit and written; a later
    job whose context pointer is the pointer of that result (C7), run by an agent
    whose store still holds what was written and answers before the timer, and
    whose context limit the payload does not exceed, fetches and parses exactly
    that output.  The store may be any that keeps text. *)
Theorem result_feeds_input (keeps : bytes -> Prop) `{!BlobStoreLaws B keeps} cf bt
    (env : environment (U:=U) (B:=B) (R:=T) (K:=K)) ctx req v ms authority t t' s :
  (forall data, utf8_text data -> keeps data) -> json_data v -> ag_store (tk_state t) = Some s ->
  finish_job cf bt env ctx req (Value v) ms authority t = (Ok tt, t') ->
  exists data, serializeOutput (Value v) = Ok data /\ exceeds (cf_maxResultBytes cf) data = false /\
    forall cf' (env' : environment (U:=U) (B:=B) (R:=T) (K:=K)) next u s',
      get next "contextPtr" = JStr (pointerForKey (result_key req)) ->
      ag_store (tk_state u) = Some s' ->
      (blob_get s' (result_key req)).1 = (blob_get (blob_set s (result_key req) data).2 (result_key req)).1 ->
      env_timer_first env' (tk_tick u) = false -> exceeds (cf_maxContextBytes cf') data = false ->
      ((let* payload := fetch_context cf' env' next in lift (parsePayload (env_syntax_message env') payload)) u).1 = Ok v.
Proof.
  intros Hk Hv Hs Hf. destruct (finish_job_writes _ _ _ _ _ _ _ _ _ _ _ Hs Hf) as (data & Hd & Hx & Hw).
  exists data. split; [done|]. split; [done|]. intros cf' env' next u s' Hn Hs' Hg Ht Hx'.
  destruct (payload_text (env_syntax_message env') v Hv) as (data' & Hd' & Htext & Hp).
  assert (data' = data) as -> by congruence.
  destruct (blob_set s (result_key req) data) as [r s1] eqn:Hset. cbn [fst snd] in Hw, Hg. subst r.
  rewrite (blob_get_set _ _ _ _ Hset (Hk _ Htext)) in Hg.
  unfold fetch_context. rewrite Hn, pointer_roundtrip by (unfold result_key; by destruct (to_text _)).
  unfold with_io_timeout, bindM, update, emit, ask, yield, await, state, lift. rewrite Hs'.
  destruct (blob_get s' (result_key req)) as [r s2]. cbn [fst] in Hg. subst r.
  cbn [fst snd tk_state tk_tick tk_events]. rewrite Ht. unfold bindM, emit. cbn [withTimeout]. rewrite Hx'. exact Hp.
Qed.
End Chaining.
