(* ===== verification/AgentLifecycle.v ===== *)
(** * The agent: start, close and reconnect

    src/sdk/node/src/runtime.ts: the part of [Agent] that owns the connection.
    [startInternal], [closeInternal] and the tasks of the status watcher and of
    a failed renewal are asynchronous; each is a program counter, and a step
    runs one of them from one [await] to the next.  Jobs are counted; what they
    do is in Runtime.v. *)

From S2P Require Import Prelude JsString JsValue WorkerTrustContract.

(** ** Data *)

Inductive AgentState : Set := Idle | Starting | Running | Closing | Closed.

#[global] Instance agent_state_eq_dec : EqDecision AgentState.
Proof. solve_decision. Defined.

(** How a promise of [closeResources] or [close] ends: it resolves; it rejects
    because the close of the connection or of the store did; or because the close
    of worker trust did, before the connection and the store were released. *)
Inductive ended : Set := Resolves | Rejects | Abandons.

(** [closeResources]: it awaits the drain of the subscriptions, the messages in
    flight, the close of worker trust, the drain of the connection, its close if
    the drain failed, and the close of the store, after [failed] is known. *)
Inductive cleanup : Set :=
| CDraining (taken : list nat)
| CWaiting
| CTrust
| CConnection
| CHangup
| CStore (failed : bool)
| CDone (how : ended).

(** [startInternal]: it awaits the connection, the protobuf root, the
    authentication, the handshake or, after a failure, [closeResources]. *)
Inductive start_pc : Set :=
| SNone
| SConnecting
| SLoading
| SAuthenticating
| SHandshaking
| SCleaning (c : cleanup)
| SDone
| SFailed (how : ended).

(** [closeInternal]: it awaits the close of worker trust and then the start, if
    the agent is starting, or [closeResources]. *)
Inductive close_pc : Set :=
| KNone
| KTrust
| KAwaitStart
| KCleaning (c : cleanup)
| KDone (how : ended).

(** [reauthenticateAfterReconnect]; [RFailing] is its call of
    [onTrustFailure]. *)
Inductive reconnect_pc : Set :=
| RIdle
| RDraining (taken : list nat)
| RReauth
| RHandshake
| RFailing (taken : list nat).

(** [c_subs] is [this.subscriptions], [c_live] the subscriptions that may still
    deliver; [c_heartbeat] the handle, [c_beating] the loops whose timer runs;
    [c_failing] the subscriptions that calls of [onTrustFailure] by the renewal
    loop drain. *)
Record control : Type := Control {
  c_state : AgentState;
  c_nc : bool;
  c_types : bool;
  c_store : bool;
  c_watch : bool;
  c_interrupted : bool;
  c_cancelled : bool;
  c_heartbeat : option nat;
  c_beating : list nat;
  c_next : nat;
  c_subs : list nat;
  c_live : list nat;
  c_jobs : nat;
  c_admitting : bool;
  c_session : bool;
  c_trustClosed : bool;
  c_start : start_pc;
  c_close : close_pc;
  c_reconnect : reconnect_pc;
  c_failing : list (list nat)
}.

Definition put_state x '(Control _ b c d e f g h i j k l m n o p q r s t) :=
  Control x b c d e f g h i j k l m n o p q r s t.
Definition put_nc x '(Control a _ c d e f g h i j k l m n o p q r s t) :=
  Control a x c d e f g h i j k l m n o p q r s t.
Definition put_types x '(Control a b _ d e f g h i j k l m n o p q r s t) :=
  Control a b x d e f g h i j k l m n o p q r s t.
Definition put_store x '(Control a b c _ e f g h i j k l m n o p q r s t) :=
  Control a b c x e f g h i j k l m n o p q r s t.
Definition put_watch x '(Control a b c d _ f g h i j k l m n o p q r s t) :=
  Control a b c d x f g h i j k l m n o p q r s t.
Definition put_interrupted x '(Control a b c d e _ g h i j k l m n o p q r s t) :=
  Control a b c d e x g h i j k l m n o p q r s t.
Definition put_cancelled x '(Control a b c d e f _ h i j k l m n o p q r s t) :=
  Control a b c d e f x h i j k l m n o p q r s t.
Definition put_heartbeat x '(Control a b c d e f g _ i j k l m n o p q r s t) :=
  Control a b c d e f g x i j k l m n o p q r s t.
Definition put_beating x '(Control a b c d e f g h _ j k l m n o p q r s t) :=
  Control a b c d e f g h x j k l m n o p q r s t.
Definition put_next x '(Control a b c d e f g h i _ k l m n o p q r s t) :=
  Control a b c d e f g h i x k l m n o p q r s t.
Definition put_subs x '(Control a b c d e f g h i j _ l m n o p q r s t) :=
  Control a b c d e f g h i j x l m n o p q r s t.
Definition put_live x '(Control a b c d e f g h i j k _ m n o p q r s t) :=
  Control a b c d e f g h i j k x m n o p q r s t.
Definition put_jobs x '(Control a b c d e f g h i j k l _ n o p q r s t) :=
  Control a b c d e f g h i j k l x n o p q r s t.
Definition put_admitting x '(Control a b c d e f g h i j k l m _ o p q r s t) :=
  Control a b c d e f g h i j k l m x o p q r s t.
Definition put_session x '(Control a b c d e f g h i j k l m n _ p q r s t) :=
  Control a b c d e f g h i j k l m n x p q r s t.
Definition put_trustClosed x '(Control a b c d e f g h i j k l m n o _ q r s t) :=
  Control a b c d e f g h i j k l m n o x q r s t.
Definition put_start x '(Control a b c d e f g h i j k l m n o p _ r s t) :=
  Control a b c d e f g h i j k l m n o p x r s t.
Definition put_close x '(Control a b c d e f g h i j k l m n o p q _ s t) :=
  Control a b c d e f g h i j k l m n o p q x s t.
Definition put_reconnect x '(Control a b c d e f g h i j k l m n o p q r _ t) :=
  Control a b c d e f g h i j k l m n o p q r x t.
Definition put_failing x '(Control a b c d e f g h i j k l m n o p q r s _) :=
  Control a b c d e f g h i j k l m n o p q r s x.

(** A new agent, with or without a store of its own. *)
Definition new_agent (store : bool) : control :=
  Control Idle false false store false false false None [] 0 [] [] 0 false false false SNone KNone RIdle [].

Section Control.
(** The mode of worker trust and the number of registered handlers. *)
Context (mode : WorkerTrustMode) (handlers : nat).

Definition trust_enabled : bool := negb (bool_decide (mode = OFF)).
Definition trust_enforcing : bool := bool_decide (mode = ENFORCE).

(** ** Resources *)

Definition stopHeartbeat (s : control) : control :=
  match c_heartbeat s with
  | Some h => put_heartbeat None (put_beating (filter (fun x => x <> h) (c_beating s)) s)
  | None => s
  end.

Definition startHeartbeat (s : control) : result control :=
  if negb (c_nc s) then throw PlainError (js "NATS not initialized")
  else Ok (put_heartbeat (Some (c_next s)) (put_beating (c_next s :: c_beating s) (put_next (S (c_next s)) s))).

Definition subscribeHandlers (s : control) : control :=
  let ids := seq (c_next s) handlers in
  put_subs (c_subs s ++ ids) (put_live (c_live s ++ ids) (put_next (c_next s + handlers)%nat s)).

(** [drainHandlerSubscriptions] up to its [await], and after it. *)
Definition take_subs (s : control) : list nat * control := (c_subs s, put_subs [] s).
Definition drained (taken : list nat) (s : control) : control :=
  put_live (filter (fun x => x ∉ taken) (c_live s)) s.

(** [RuntimeWorkerTrust.close]: admission stops, the session is dropped. *)
Definition close_trust (s : control) : control :=
  put_admitting false (put_session false (put_trustClosed true s)).

(** [onTrustFailure] up to its [await]. *)
Definition trust_failure (s : control) : list nat * control :=
  take_subs (stopHeartbeat (put_admitting false s)).

Definition requireStartupContinuity (s : control) : result unit :=
  do! throw_if (negb (bool_decide (c_state s = Starting))) PlainError (js "Agent start cancelled by close") ;;
  throw_if (c_interrupted s) PlainError (js "worker trust transport interrupted during startup").

(** ** [closeResources] *)

Definition begin_cleanup (s : control) : cleanup * control :=
  let '(taken, s) := take_subs (stopHeartbeat (put_watch false s)) in (CDraining taken, s).

Definition wait_jobs (s : control) : cleanup * control :=
  if (0 <? c_jobs s)%nat then (CWaiting, s) else (CTrust, close_trust s).

Definition end_cleanup (failed : bool) : cleanup := CDone (if failed then Rejects else Resolves).

(** The [finally] block, up to its [await]. *)
Definition release_resources (failed : bool) (s : control) : cleanup * control :=
  (if c_store s then CStore failed else end_cleanup failed, put_nc false (put_store false s)).

(** The [await] of the cleanup settles, well or not; a subscription that does not
    drain is logged, and the messages in flight do not reject. *)
Definition cleanup_step (ok : bool) (c : cleanup) (s : control) : cleanup * control :=
  match c with
  | CDraining taken => wait_jobs (drained taken s)
  | CWaiting => wait_jobs s
  | CTrust =>
      if negb ok then (CDone Abandons, s)
      else if c_nc s then (CConnection, s) else release_resources false s
  | CConnection => if ok then release_resources false s else (CHangup, s)
  | CHangup => release_resources (negb ok) s
  | CStore failed => (end_cleanup (failed || negb ok), s)
  | CDone how => (CDone how, s)
  end.

(** ** Start *)

(** [configured]: the trust settings and the production authority are valid. *)
Definition start (configured : bool) (s : control) : result unit * control :=
  if (handlers =? 0)%nat then (throw PlainError (js "no handlers registered"), s)
  else if negb (bool_decide (c_state s = Idle)) then (throw PlainError (js "Agent already started or closed"), s)
  else if negb configured then (throw PlainError (js "invalid configuration"), s)
  else (Ok tt, put_start SConnecting (put_state Starting s)).

Definition start_fails (s : control) : control :=
  let '(c, s) := begin_cleanup s in put_start (SCleaning c) s.

(** The [await] of the start settles, well or not. *)
Definition start_step (ok : bool) (s : control) : control :=
  match c_start s with
  | SConnecting => if ok then put_start SLoading (put_store true (put_nc true s)) else start_fails s
  | SLoading =>
      if ok then
        let s := put_types true s in
        match requireStartupContinuity s with
        | Ok _ => put_start SAuthenticating (if trust_enabled then put_watch true s else s)
        | _ => start_fails s
        end
      else start_fails s
  | SAuthenticating =>
      if ok then
        let s := put_admitting true (put_session (negb (c_trustClosed s)) s) in
        match requireStartupContinuity s with
        | Ok _ => put_start SHandshaking (subscribeHandlers s)
        | _ => start_fails s
        end
      else start_fails s
  | SHandshaking =>
      if ok || negb trust_enabled then
        match (do! requireStartupContinuity s ;; startHeartbeat s) with
        | Ok s => put_start SDone (put_state Running s)
        | _ => start_fails s
        end
      else start_fails s
  | SCleaning c =>
      let '(c', s) := cleanup_step ok c s in
      match c' with
      | CDone how => put_start (SFailed how) (put_state Closed s)
      | _ => put_start (SCleaning c') s
      end
  | SNone | SDone | SFailed _ => s
  end.

(** ** Close *)

Definition cancelStartup (s : control) : control :=
  if negb (bool_decide (c_state s = Starting)) || c_cancelled s then s else put_cancelled true s.

Definition close_resources (s : control) : control :=
  let '(c, s) := begin_cleanup (put_state Closing s) in put_close (KCleaning c) s.

(** [close] up to its first [await]; later calls return the same promise. *)
Definition close (s : control) : control :=
  match c_close s with
  | KNone =>
      let s := cancelStartup s in
      if bool_decide (c_state s = Starting) then put_close KTrust (close_trust (put_state Closing s))
      else if bool_decide (c_state s = Closed) then put_close (KDone Resolves) s
      else close_resources s
  | _ => s
  end.

Definition close_step (ok : bool) (s : control) : control :=
  match c_close s with
  | KTrust => put_close KAwaitStart s
  | KAwaitStart =>
      match c_start s with
      | SFailed _ => put_close (KDone Resolves) s
      | SDone => if bool_decide (c_state s = Closed) then put_close (KDone Resolves) s else close_resources s
      | _ => s
      end
  | KCleaning c =>
      let '(c', s) := cleanup_step ok c s in
      match c' with
      | CDone how => put_close (KDone how) (put_state Closed s)
      | _ => put_close (KCleaning c') s
      end
  | KNone | KDone _ => s
  end.

(** ** The status watcher *)

Definition disconnected (s : control) : control :=
  let s := if bool_decide (c_state s = Starting) then put_interrupted true s else s in
  stopHeartbeat (put_admitting false s).

Definition reconnected (s : control) : control :=
  if negb (bool_decide (c_state s = Running)) || negb (c_nc s) || negb trust_enabled then s
  else let '(taken, s) := trust_failure s in put_reconnect (RDraining taken) s.

Definition reconnect_fails (s : control) : control :=
  if trust_enforcing then let '(taken, s) := trust_failure s in put_reconnect (RFailing taken) s
  else put_reconnect RIdle s.

Definition reconnect_step (ok : bool) (s : control) : control :=
  match c_reconnect s with
  | RDraining taken => put_reconnect RReauth (put_session false (put_admitting false (drained taken s)))
  | RReauth =>
      if ok then
        let s := put_admitting true (put_session (negb (c_trustClosed s)) s) in
        if negb (bool_decide (c_state s = Running)) then put_reconnect RIdle s
        else put_reconnect RHandshake (subscribeHandlers s)
      else reconnect_fails s
  | RHandshake =>
      if ok then match startHeartbeat s with Ok s => put_reconnect RIdle s | _ => reconnect_fails s end
      else reconnect_fails s
  | RFailing taken => put_reconnect RIdle (drained taken s)
  | RIdle => s
  end.

(** ** Steps *)

(** [RuntimeWorkerTrust.verifyInbound] for a packet with a good signature. *)
Definition admits (s : control) : bool := c_admitting s && (negb trust_enforcing || c_session s).

(** A message reaches the callback of a live subscription. *)
Definition message (s : control) : control :=
  if c_store s && c_types s && admits s then put_jobs (S (c_jobs s)) s else s.

Inductive step (s : control) : control -> Prop :=
| step_start configured : step s (start configured s).2
| step_start_settles ok : step s (start_step ok s)
| step_close : step s (close s)
| step_close_settles ok : step s (close_step ok s)
| step_disconnect : c_watch s = true -> c_reconnect s = RIdle -> step s (disconnected s)
| step_reconnect : c_watch s = true -> c_reconnect s = RIdle -> step s (reconnected s)
| step_reconnect_settles ok : step s (reconnect_step ok s)
| step_renewal_fails :
    trust_enabled = true -> c_start s = SDone -> c_trustClosed s = false ->
    step s (let '(taken, s) := trust_failure s in put_failing (taken :: c_failing s) s)
| step_failure_settles before taken after :
    c_failing s = before ++ taken :: after -> step s (put_failing (before ++ after) (drained taken s))
(** A session expires, or is renewed. *)
| step_session b : step s (put_session (b && negb (c_trustClosed s)) s)
| step_message id : In id (c_live s) -> step s (message s)
| step_job_ends n : c_jobs s = S n -> step s (put_jobs n s).

Inductive agent_reachable (s0 : control) : control -> Prop :=
| agent_new : agent_reachable s0 s0
| agent_step s s' : agent_reachable s0 s -> step s s' -> agent_reachable s0 s'.
End Control.

(** ** The invariant *)

Definition starting_up (p : start_pc) : bool :=
  match p with SConnecting | SLoading | SAuthenticating | SHandshaking | SCleaning _ => true | _ => false end.

(** The cleanup under way, of the start or of the close. *)
Definition the_cleanup (p : start_pc) (k : close_pc) : option cleanup :=
  match p, k with
  | SCleaning c, _ => Some c
  | _, KCleaning c => Some c
  | _, _ => None
  end.

(** The jobs have been waited for. *)
Definition past (st : AgentState) (p : start_pc) (k : close_pc) : bool :=
  match the_cleanup p k with
  | Some (CDraining _ | CWaiting) => false
  | Some _ => true
  | None => bool_decide (st = Closed)
  end.

(** How the state and the two program counters go together. *)
Definition phase (st : AgentState) (p : start_pc) (k : close_pc) : Prop :=
  match st with
  | Idle => p = SNone /\ k = KNone
  | Starting => starting_up p = true /\ k = KNone
  | Running => p = SDone /\ k = KNone
  | Closing =>
      starting_up p = true /\ (k = KTrust \/ k = KAwaitStart) \/
      (p = SNone \/ p = SDone) /\ exists c, k = KCleaning c
  | Closed =>
      (exists how, p = SFailed how) /\ (forall c, k <> KCleaning c) \/
      (p = SNone \/ p = SDone) /\ exists how, k = KDone how
  end.

(** The cleanup ended before it released the connection and the store. *)
Definition abandoned (p : start_pc) (k : close_pc) : bool :=
  match p, k with SFailed Abandons, _ | _, KDone Abandons => true | _, _ => false end.

Definition connected (s : control) : Prop := c_nc s = true /\ c_store s = true /\ c_types s = true.

Section Invariant.
Context (mode : WorkerTrustMode) (handlers : nat).

Record agent_inv (s : control) : Prop := {
  av_phase : phase (c_state s) (c_start s) (c_close s);
  av_cleanup how : the_cleanup (c_start s) (c_close s) <> Some (CDone how);
  av_loading : c_start s = SLoading -> c_nc s = true /\ c_store s = true;
  av_up : c_start s = SAuthenticating \/ c_start s = SHandshaking \/ c_state s = Running -> connected s;
  av_subs : the_cleanup (c_start s) (c_close s) <> None \/ c_state s = Closed -> c_subs s = [];
  av_busy : past (c_state s) (c_start s) (c_close s) = false -> c_live s <> [] \/ c_jobs s <> 0%nat -> connected s;
  av_past : past (c_state s) (c_start s) (c_close s) = true ->
    c_jobs s = 0%nat /\ c_trustClosed s = true /\ (mode = OFF -> c_live s = []);
  av_gone : (exists failed, the_cleanup (c_start s) (c_close s) = Some (CStore failed)) \/
    c_state s = Closed /\ abandoned (c_start s) (c_close s) = false -> c_nc s = false /\ c_store s = false;
  av_session : c_trustClosed s = true -> c_session s = false;
  av_off : mode = OFF ->
    c_reconnect s = RIdle /\ c_failing s = [] /\ c_watch s = false /\
    forall x, In x (c_live s) ->
      In x (c_subs s) \/ exists taken, the_cleanup (c_start s) (c_close s) = Some (CDraining taken) /\ In x taken
}.

Lemma new_agent_inv store : agent_inv (new_agent store).
Proof. split; cbn; naive_solver. Qed.

Ltac open s := destruct s as [st nc ty so wa inr ca hb be ne su li jo ad se tc sp kp rp fa].

Lemma start_inv configured s : agent_inv s -> agent_inv (start handlers configured s).2.
Proof.
  intros Hi. unfold start. destruct (handlers =? 0)%nat; [done|].
  case_bool_decide as Hst; cbn [negb]; [|done]. destruct configured; [|done]. open s. cbn in *. subst st.
  destruct Hi as [Hp Hc Hl Hu Hs Hb Hpa Hg Hse Ho]. cbn in *. destruct Hp as [-> ->]. split; cbn in *; naive_solver.
Qed.

(** Fields that the invariant does not read. *)
Lemma heartbeat_inv h b n s : agent_inv s -> agent_inv (put_heartbeat h (put_beating b (put_next n s))).
Proof. open s. intros []. by split. Qed.

Lemma stopHeartbeat_inv s : agent_inv s -> agent_inv (stopHeartbeat s).
Proof. open s. unfold stopHeartbeat. cbn. intros H. destruct hb; [|done]. destruct H. by split. Qed.

Lemma startHeartbeat_inv s s' : startHeartbeat s = Ok s' -> agent_inv s -> agent_inv s'.
Proof. unfold startHeartbeat. destruct (negb _); [done|]. intros [= <-]. apply heartbeat_inv. Qed.

Lemma admitting_inv b s : agent_inv s -> agent_inv (put_admitting b s).
Proof. open s. intros []. by split. Qed.

Lemma session_inv b s : agent_inv s -> agent_inv (put_session (b && negb (c_trustClosed s)) s).
Proof. open s. intros []. split; try done. cbn in *. intros ->. by rewrite andb_false_r. Qed.

Lemma drained_inv taken s : agent_inv s -> agent_inv (drained taken s).
Proof.
  open s. intros [Hp Hc Hl Hu Hs Hb Hpa Hg Hse Ho]. split; try done; cbn in *.
  - intros Hnp [Hlive|Hj]; apply Hb; auto. left. by intros ->.
  - intros Hp'. destruct (Hpa Hp') as (? & ? & Hoff). split; [done|]. split; [done|]. intros Hm. by rewrite (Hoff Hm).
  - intros Hm. destruct (Ho Hm) as (? & ? & ? & Hin). split; [done|]. split; [done|]. split; [done|].
    intros x Hx. apply Hin. apply list_elem_of_In, list_elem_of_filter in Hx as [_ Hx]. by apply list_elem_of_In.
Qed.

Lemma job_end_inv n s : c_jobs s = S n -> agent_inv s -> agent_inv (put_jobs n s).
Proof.
  open s. cbn. intros Hj [Hp Hc Hl Hu Hs Hb Hpa Hg Hse Ho]. split; try done; cbn in *.
  - intros Hnp [?|?]; apply Hb; auto; lia.
  - intros Hp'. destruct (Hpa Hp') as (? & _). lia.
Qed.

(** In [past] no message is admitted, unless trust only warns. *)
Lemma message_inv id s : mode <> WARN -> In id (c_live s) -> agent_inv s -> agent_inv (message mode s).
Proof.
  intros Hm Hin Hi. unfold message. destruct (c_store s && c_types s && admits mode s) eqn:E; [|done].
  destruct (past (c_state s) (c_start s) (c_close s)) eqn:Hpast.
  - destruct Hi as [_ _ _ _ _ _ Hpa _ Hse _]. destruct (Hpa Hpast) as (_ & Htc & Hoff). exfalso.
    rewrite !andb_true_iff in E. destruct E as [_ E]. unfold admits in E. rewrite (Hse Htc) in E.
    unfold trust_enforcing in E. destruct mode; [by rewrite Hoff in Hin | done|]. by destruct (c_admitting s).
  - open s. destruct Hi as [Hp Hc Hl Hu Hs Hb Hpa Hg Hse Ho]. split; try done; cbn in *.
    + intros _ _. apply Hb; [done|]. left. by intros ->.
    + intros Hp'. by rewrite Hp' in Hpast.
Qed.

Lemma types_inv s : agent_inv s -> agent_inv (put_types true s).
Proof.
  open s. intros [Hp Hc Hl Hu Hs Hb Hpa Hg Hse Ho]. split; try done; cbn in *.
  - intros H. by destruct (Hu H) as (? & ? & ?).
  - intros H H'. by destruct (Hb H H') as (? & ? & ?).
Qed.

Lemma starting_up_phase st p k :
  phase st p k -> starting_up p = true -> (st = Starting \/ st = Closing) /\ (forall c, k <> KCleaning c).
Proof.
  intros Hp Hup. destruct st; cbn in Hp.
  - destruct Hp as [-> _]. done.
  - destruct Hp as [_ ->]. by split; [left|].
  - destruct Hp as [-> _]. done.
  - destruct Hp as [[_ [-> | ->]] | [[-> | ->] _]]; try done; by split; [right|].
  - destruct Hp as [[[how ->] _] | [[-> | ->] _]]; done.
Qed.

Lemma no_cleanup p k : (forall c, p <> SCleaning c) -> (forall c, k <> KCleaning c) -> the_cleanup p k = None.
Proof. intros Hp Hk. destruct p; try (by destruct (Hp c)); destruct k; try done; by destruct (Hk c). Qed.

Lemma start_fails_inv s :
  starting_up (c_start s) = true -> (forall c, c_start s <> SCleaning c) -> agent_inv s -> agent_inv (start_fails s).
Proof.
  intros Hup Hnc [Hp Hc Hl Hu Hs Hb Hpa Hg Hse Ho]. unfold start_fails, begin_cleanup, take_subs. open s. cbn in *.
  destruct (starting_up_phase _ _ _ Hp Hup) as [Hst Hk]. pose proof (no_cleanup _ _ Hnc Hk) as Hnone.
  assert (past st sp kp = false) as Hpast.
  { unfold past. rewrite Hnone. apply bool_decide_eq_false. by destruct Hst as [-> | ->]. }
  rewrite Hnone, Hpast in *. unfold stopHeartbeat. cbn. destruct hb; cbn.
  all: split; cbn; try done.
  all: try (intros [H|[H|H]]; [done..|]; subst st; by destruct Hst).
  all: try (intros [H|H]; [done|]; subst st; by destruct Hst).
  all: try (intros [[? H]|[H _]]; [done|]; subst st; by destruct Hst).
  all: try (intros _ H; by apply Hb).
  all: try (intros Hm; destruct (Ho Hm) as (? & ? & ? & Hin); repeat (split; [done|]); intros x Hx;
            right; exists su; split; [done|]; by destruct (Hin x Hx) as [?|(? & ? & _)]).
  all: destruct Hst as [-> | ->]; cbn in *; [destruct Hp as [_ ->]; done |].
  all: left; split; [done|]; destruct Hp as [[_ ?]|[[-> | ->] _]]; done.
Qed.

(** Putting the cleanup [c] in place of the one under way, in the start or in
    the close. *)
Inductive cleans (c : cleanup) (s : control) : control -> Prop :=
| cleans_start : starting_up (c_start s) = true -> (exists c0, c_start s = SCleaning c0) -> cleans c s (put_start (SCleaning c) s)
| cleans_close : (c_start s = SNone \/ c_start s = SDone) -> (exists c0, c_close s = KCleaning c0) -> cleans c s (put_close (KCleaning c) s).

(** What the invariant says of a cleanup [c]. *)
Record cleanup_ok (c : cleanup) (s : control) : Prop := {
  cu_done how : c <> CDone how;
  cu_subs : c_subs s = [];
  cu_busy : (exists taken, c = CDraining taken) \/ c = CWaiting -> c_live s <> [] \/ c_jobs s <> 0%nat -> connected s;
  cu_past : c = CTrust \/ c = CConnection \/ c = CHangup \/ (exists failed, c = CStore failed) ->
    c_jobs s = 0%nat /\ c_trustClosed s = true /\ (mode = OFF -> c_live s = []);
  cu_gone failed : c = CStore failed -> c_nc s = false /\ c_store s = false;
  cu_session : c_trustClosed s = true -> c_session s = false;
  cu_off : mode = OFF -> c_reconnect s = RIdle /\ c_failing s = [] /\ c_watch s = false /\
    forall x, In x (c_live s) -> exists taken, c = CDraining taken /\ In x taken
}.

Lemma cleans_inv c s s' :
  phase (c_state s) (c_start s) (c_close s) -> cleans c s s' -> cleanup_ok c s -> agent_inv s'.
Proof.
  intros Hp Hcl [Hd Hs Hb Hpa Hg Hse Ho]. open s. cbn in *. destruct Hcl as [Hup [c0 Hc0]|Hst [c0 Hc0]]; cbn in *; subst.
  - destruct (starting_up_phase _ _ _ Hp eq_refl) as [Hst Hk].
    split; cbn; try done.
    + destruct Hst as [-> | ->]; cbn in *; [naive_solver|]. destruct Hp as [?|[[?|?] _]]; [by left | done | done].
    + naive_solver.
    + intros [?|[?|?]]; [done..|]. subst. by destruct Hst.
    + unfold past. cbn. destruct c; try done; intros _; apply Hb; eauto.
    + unfold past. cbn. destruct c; try done; try (by destruct (Hd how)); intros _; apply Hpa; eauto 6.
    + intros [[failed [= ->]]|[? _]]; [by eapply Hg|]. subst. by destruct Hst.
    + intros Hm. destruct (Ho Hm) as (? & ? & ? & Hin). repeat (split; [done|]). intros x Hx. right.
      destruct (Hin x Hx) as (taken & -> & ?). eauto.
  - assert (st = Closing) as ->.
    { destruct st; cbn in Hp; naive_solver. }
    assert (the_cleanup sp (KCleaning c) = Some c) as Hcu by (by destruct Hst as [-> | ->]).
    split; cbn; unfold past; rewrite ?Hcu; try done.
    + right. split; [done|]. eauto.
    + naive_solver.
    + intros ->. by destruct Hst.
    + intros [->|[->|?]]; by destruct Hst.
    + destruct c; try done; intros _; apply Hb; eauto.
    + destruct c; try done; try (by destruct (Hd how)); intros _; apply Hpa; eauto 6.
    + intros [[failed [= ->]]|[? _]]; [by eapply Hg | done].
    + intros Hm. destruct (Ho Hm) as (? & ? & ? & Hin). repeat (split; [done|]). intros x Hx. right.
      destruct (Hin x Hx) as (taken & -> & ?). eauto.
Qed.

Lemma inv_cleanup c s : agent_inv s -> the_cleanup (c_start s) (c_close s) = Some c -> cleanup_ok c s.
Proof.
  intros [Hp Hc Hl Hu Hs Hb Hpa Hg Hse Ho] E. unfold past in *. rewrite E in *. split; try done.
  - congruence.
  - apply Hs. by left.
  - intros [[taken ->]| ->]; by apply Hb.
  - intros [-> | [-> | [-> | [failed ->]]]]; by apply Hpa.
  - intros failed ->. apply Hg. left. eauto.
  - intros Hm. destruct (Ho Hm) as (? & ? & ? & Hin). repeat (split; [done|]). intros x Hx.
    destruct (Hin x Hx) as [Hx'|(taken & [= ->] & ?)]; [|eauto]. rewrite Hs in Hx' by (by left). done.
Qed.

(** After the cleanup. *)
Record cleaned (how : ended) (s : control) : Prop := {
  cd_subs : c_subs s = [];
  cd_gone : how <> Abandons -> c_nc s = false /\ c_store s = false;
  cd_jobs : c_jobs s = 0%nat;
  cd_trust : c_trustClosed s = true /\ c_session s = false;
  cd_off : mode = OFF -> c_reconnect s = RIdle /\ c_failing s = [] /\ c_watch s = false /\ c_live s = []
}.

Lemma wait_jobs_ok s : cleanup_ok CWaiting s -> let '(c, s') := wait_jobs s in cleanup_ok c s'.
Proof.
  intros [Hd Hs Hb Hpa Hg Hse Ho]. unfold wait_jobs. destruct (Nat.ltb_spec 0 (c_jobs s)) as [?|Hj]; [by split|].
  open s. cbn in *. split; cbn; try done.
  - by intros [[taken ?]|?].
  - intros _. split; [lia|]. split; [done|]. intros Hm. destruct (Ho Hm) as (_ & _ & _ & Hin).
    destruct li as [|x li]; [done|]. destruct (Hin x (or_introl eq_refl)) as (taken & ? & _). done.
  - intros Hm. destruct (Ho Hm) as (? & ? & ? & Hin). repeat (split; [done|]). intros x Hx.
    by destruct (Hin x Hx) as (taken & ? & _).
Qed.

Lemma release_ok failed c s :
  c = CTrust \/ c = CConnection \/ c = CHangup -> cleanup_ok c s ->
  let '(c', s') := release_resources failed s in (exists how, c' = CDone how /\ cleaned how s') \/ cleanup_ok c' s'.
Proof.
  intros Hc [Hd Hs Hb Hpa Hg Hse Ho]. unfold release_resources. destruct Hpa as (Hj & Ht & Hoff); [naive_solver|].
  open s. cbn in *. destruct so; cbn.
  - right. split; cbn; try done.
    + by intros [[taken ?]|?].
    + intros Hm. destruct (Ho Hm) as (? & ? & ? & Hin). repeat (split; [done|]). rewrite Hoff by done. done.
  - left. eexists. split; [done|]. split; cbn; try done; [by auto|]. intros Hm. destruct (Ho Hm) as (? & ? & ? & Hin). auto.
Qed.

Lemma cleanup_step_ok ok c s :
  cleanup_ok c s -> let '(c', s') := cleanup_step ok c s in (exists how, c' = CDone how /\ cleaned how s') \/ cleanup_ok c' s'.
Proof.
  intros Hok. destruct c as [taken| | | | |failed|how]; cbn [cleanup_step].
  - assert (cleanup_ok CWaiting (drained taken s)) as H.
    { destruct Hok as [Hd Hs Hb Hpa Hg Hse Ho]. open s. cbn in *. split; cbn; try done.
      - intros _ [Hl|Hj]; apply Hb; eauto. left. by intros ->.
      - intros [?|[?|[?|[? ?]]]]; done.
      - intros Hm. destruct (Ho Hm) as (? & ? & ? & Hin). repeat (split; [done|]). intros x Hx. exfalso.
        apply list_elem_of_In, list_elem_of_filter in Hx as [Hn Hx]. apply list_elem_of_In in Hx.
        destruct (Hin x Hx) as (taken' & [= <-] & Ht). by apply list_elem_of_In in Ht. }
    apply wait_jobs_ok in H. destruct (wait_jobs _). by right.
  - apply wait_jobs_ok in Hok. destruct (wait_jobs _). by right.
  - destruct ok; cbn [negb].
    2: { left. eexists. split; [done|]. destruct Hok as [Hd Hs Hb Hpa Hg Hse Ho]. destruct Hpa as (Hj & Ht & Hoff); [auto|].
         split; auto; [done|]. intros Hm. destruct (Ho Hm) as (? & ? & ? & _). auto. }
    destruct (c_nc s) eqn:Hn; [|apply (release_ok false CTrust); auto].
    right. destruct Hok as [Hd Hs Hb Hpa Hg Hse Ho]. split; try done.
    + by intros [[taken ?]|?].
    + intros _. apply Hpa. auto.
    + intros Hm. destruct (Ho Hm) as (? & ? & ? & Hin). repeat (split; [done|]). intros x Hx.
      by destruct (Hin x Hx) as (taken & ? & _).
  - destruct ok; [apply (release_ok false CConnection); auto|]. right.
    destruct Hok as [Hd Hs Hb Hpa Hg Hse Ho]. split; try done.
    + by intros [[taken ?]|?].
    + intros _. apply Hpa. auto.
    + intros Hm. destruct (Ho Hm) as (? & ? & ? & Hin). repeat (split; [done|]). intros x Hx.
      by destruct (Hin x Hx) as (taken & ? & _).
  - apply (release_ok _ CHangup); auto.
  - left. eexists. split; [done|]. destruct Hok as [Hd Hs Hb Hpa Hg Hse Ho]. destruct Hpa as (Hj & Ht & Hoff); [by eauto|].
    split; eauto. intros Hm. destruct (Ho Hm) as (? & ? & ? & _). auto.
  - by destruct (cu_done _ _ Hok how).
Qed.

Lemma cleanup_step_pcs ok c s :
  let '(_, s') := cleanup_step ok c s in
  c_state s' = c_state s /\ c_start s' = c_start s /\ c_close s' = c_close s.
Proof.
  open s. destruct c; cbn; unfold wait_jobs, release_resources; cbn; try done; repeat (case_match; simplify_eq/=); done.
Qed.

Lemma subscribe_inv s :
  connected s -> the_cleanup (c_start s) (c_close s) = None -> c_state s <> Closed -> agent_inv s ->
  agent_inv (subscribeHandlers handlers s).
Proof.
  intros Hcon Hn Hst [Hp Hc Hl Hu Hs Hb Hpa Hg Hse Ho]. open s. cbn in *. rewrite Hn in *.
  assert (past st sp kp = false) as Hpast by (unfold past; rewrite Hn; by apply bool_decide_eq_false).
  rewrite Hpast in *. split; cbn; rewrite ?Hn, ?Hpast; try done.
  - intros [?|?]; done.
  - intros Hm. destruct (Ho Hm) as (? & ? & ? & Hin). repeat (split; [done|]). intros x Hx. left.
    apply in_app_iff in Hx as [Hx|Hx]; apply in_app_iff; [|by right]. left. by destruct (Hin x Hx) as [?|(? & ? & _)].
Qed.

Lemma continuity_iff s u : requireStartupContinuity s = Ok u <-> c_state s = Starting /\ c_interrupted s = false.
Proof.
  unfold requireStartupContinuity. rewrite do_Ok_iff, !throw_if_Ok_iff, negb_false_iff, bool_decide_eq_true. done.
Qed.

(** The start is between its awaits, and not cleaning up. *)
Definition opening (p : start_pc) : Prop := starting_up p = true /\ forall c, p <> SCleaning c.

Lemma opening_facts s :
  opening (c_start s) -> agent_inv s ->
  (c_state s = Starting \/ c_state s = Closing) /\ the_cleanup (c_start s) (c_close s) = None /\
  (forall c, c_close s <> KCleaning c) /\ past (c_state s) (c_start s) (c_close s) = false.
Proof.
  intros [Hup Hnc] Hi. destruct (starting_up_phase _ _ _ (av_phase _ Hi) Hup) as [Hst Hk].
  pose proof (no_cleanup _ _ Hnc Hk) as Hn. split; [done|]. split; [done|]. split; [done|].
  unfold past. rewrite Hn. apply bool_decide_eq_false. by destruct Hst as [-> | ->].
Qed.

Lemma nc_inv s : opening (c_start s) -> agent_inv s -> agent_inv (put_store true (put_nc true s)).
Proof.
  intros Ho' Hi. destruct (opening_facts s Ho' Hi) as (Hst & Hn & Hk & Hpast).
  destruct Hi as [Hp Hc Hl Hu Hs Hb Hpa Hg Hse Ho]. open s. cbn in *. rewrite Hn, Hpast in *.
  split; cbn; rewrite ?Hn, ?Hpast; try done.
  - intros H. by destruct (Hu H) as (? & ? & ?).
  - intros _ H. by destruct (Hb eq_refl H) as (? & ? & ?).
  - intros [[? ?]|[? _]]; [done|]. subst. by destruct Hst.
Qed.

Lemma start_pc_inv p s :
  opening (c_start s) -> opening p -> (p = SLoading -> c_nc s = true /\ c_store s = true) ->
  (p = SAuthenticating \/ p = SHandshaking -> connected s) -> agent_inv s -> agent_inv (put_start p s).
Proof.
  intros Ho' [Hup Hnc] Hload Hauth Hi. destruct (opening_facts s Ho' Hi) as (Hst & Hn & Hk & Hpast).
  destruct Hi as [Hp Hc Hl Hu Hs Hb Hpa Hg Hse Ho]. open s. cbn in *. rewrite Hn, Hpast in *.
  pose proof (no_cleanup _ _ Hnc Hk) as Hn'.
  assert (past st p kp = false) as Hpast'.
  { unfold past. rewrite Hn'. apply bool_decide_eq_false. by destruct Hst as [-> | ->]. }
  split; cbn; rewrite ?Hn', ?Hpast'; try done.
  - destruct Hst as [-> | ->]; cbn in *; [naive_solver|]. left. split; [done|].
    destruct Hp as [[_ ?]|[_ [c ->]]]; [done|]. by destruct (Hk c).
  - intros [?|[?|?]]; [apply Hauth; auto.. |]. subst. by destruct Hst.
  - intros [[? ?]|[? _]]; [done|]. subst. by destruct Hst.
Qed.

Lemma watch_inv s : trust_enabled mode = true -> agent_inv s -> agent_inv (put_watch true s).
Proof.
  intros He [Hp Hc Hl Hu Hs Hb Hpa Hg Hse Ho]. open s. split; try done. cbn. intros Hm. exfalso.
  unfold trust_enabled in He. by rewrite (bool_decide_eq_true_2 _ Hm) in He.
Qed.

Lemma start_cleaning_inv c ok s :
  c_start s = SCleaning c -> agent_inv s -> agent_inv (start_step mode handlers ok s).
Proof.
  intros Hsp Hi. unfold start_step. rewrite Hsp.
  pose proof (inv_cleanup c s Hi ltac:(by rewrite Hsp)) as Hok. apply (cleanup_step_ok ok) in Hok.
  pose proof (cleanup_step_pcs ok c s) as Hpcs. destruct (cleanup_step ok c s) as [c' s']. destruct Hpcs as (E1 & E2 & E3).
  pose proof (av_phase _ Hi) as Hp. rewrite <- E1, <- E2, <- E3 in Hp.
  assert (c_start s' = SCleaning c) as Hsp' by congruence.
  assert (cleanup_ok c' s' -> agent_inv (put_start (SCleaning c') s')) as Hgo.
  { intros Hok'. eapply cleans_inv; [exact Hp | | exact Hok']. apply cleans_start; [by rewrite Hsp' | eauto]. }
  destruct Hok as [(how & -> & [Hs Hgone Hj [Ht Hse] Ho])|Hok]; [|pose proof (cu_done _ _ Hok) as Hcd; destruct c'; auto; by destruct (Hcd how)].
  destruct (starting_up_phase _ _ _ Hp ltac:(by rewrite Hsp')) as [_ Hk].
  open s'. cbn in *. assert (the_cleanup (SFailed how) kp = None) as Hnone by (by apply no_cleanup).
  split; cbn; unfold past; rewrite ?Hnone; try done.
  - left. split; [eauto | done].
  - intros how'. change (the_cleanup (SFailed how) kp <> Some (CDone how')). by rewrite Hnone.
  - by intros [?|[?|?]].
  - intros _. split; [done|]. split; [done|]. intros Hm. by destruct (Ho Hm) as (_ & _ & _ & ->).
  - intros [[failed E]|[_ E]]; [|apply Hgone; by intros ->].
    change (the_cleanup (SFailed how) kp = Some (CStore failed)) in E. by rewrite Hnone in E.
  - intros Hm. destruct (Ho Hm) as (? & ? & ? & ->). done.
Qed.

Lemma running_inv s :
  connected s -> c_start s = SHandshaking -> c_state s = Starting -> agent_inv s ->
  agent_inv (put_start SDone (put_state Running s)).
Proof.
  intros Hcon Hsp Hst Hi. destruct (opening_facts s ltac:(by rewrite Hsp) Hi) as (_ & Hn & Hk & Hpast).
  destruct Hi as [Hp Hc Hl Hu Hs Hb Hpa Hg Hse Ho]. open s. cbn in *. subst.
  destruct Hp as [_ ->]. cbn in *. split; cbn; try done.
  - intros [?|?]; done.
  - by intros [[? ?]|[? _]].
Qed.

Lemma start_step_inv ok s : agent_inv s -> agent_inv (start_step mode handlers ok s).
Proof.
  intros Hi. destruct (c_start s) as [| | | | |c| |how] eqn:Hsp; try (unfold start_step; by rewrite Hsp).
  5: by eapply start_cleaning_inv.
  all: assert (opening (c_start s)) as Hop by (by rewrite Hsp); unfold start_step; rewrite Hsp.
  - destruct ok; [|by apply start_fails_inv; [apply Hop..|]].
    apply start_pc_inv; [by open s | done | intros _; by open s | by intros [?|?] | by apply nc_inv].
  - destruct ok; [|by apply start_fails_inv; [apply Hop..|]]. cbn zeta.
    apply types_inv in Hi. destruct (av_loading _ Hi) as [Hn Hso]; [by open s|].
    destruct (requireStartupContinuity _); [|apply start_fails_inv; [open s; apply Hop.. | done]..].
    destruct (trust_enabled mode) eqn:He.
    + apply start_pc_inv; [open s; apply Hop | done | done | intros _; by open s | by apply watch_inv].
    + apply start_pc_inv; [open s; apply Hop | done | done | intros _; by open s | done].
  - destruct ok; [|by apply start_fails_inv; [apply Hop..|]]. cbn zeta.
    assert (agent_inv (put_admitting true (put_session (negb (c_trustClosed s)) s))) as Hi'.
    { apply admitting_inv. rewrite <- (andb_true_l (negb _)). by apply session_inv. }
    destruct (requireStartupContinuity _) as [u|?|] eqn:Hc; [|apply start_fails_inv; [open s; apply Hop.. | done]..].
    apply continuity_iff in Hc as [Hst _].
    assert (connected (put_admitting true (put_session (negb (c_trustClosed s)) s))) as Hcon.
    { apply (av_up _ Hi'). left. by open s. }
    apply start_pc_inv; [open s; apply Hop | done | done | intros _; by open s |].
    apply subscribe_inv; [done | | by rewrite Hst | done].
    by destruct (opening_facts _ (ltac:(open s; apply Hop) : opening (c_start (put_admitting true (put_session (negb (c_trustClosed s)) s)))) Hi') as (_ & ? & _).
  - destruct (ok || negb (trust_enabled mode)); [|by apply start_fails_inv; [apply Hop..|]].
    destruct (do! requireStartupContinuity s ;; startHeartbeat s) as [s'|?|] eqn:Hc;
      [|by apply start_fails_inv; [apply Hop..|]..].
    apply do_Ok_iff in Hc as [[Hst _]%continuity_iff Hh].
    destruct (opening_facts s Hop Hi) as (_ & Hn & Hk & Hpast).
    pose proof (av_up _ Hi ltac:(auto)) as Hcon.
    assert (connected s' /\ c_start s' = c_start s /\ c_close s' = c_close s /\ c_state s' = c_state s) as (Hcon' & E1 & E2 & E3).
    { unfold startHeartbeat in Hh. destruct (negb _); [done|]. injection Hh as <-. by open s. }
    apply (startHeartbeat_inv _ _ Hh) in Hi. apply running_inv; [done | congruence | congruence | done].
Qed.

(** ** Close *)

Lemma put_cancelled_inv b s : agent_inv s -> agent_inv (put_cancelled b s).
Proof. open s. intros []. by split. Qed.

Lemma cancelStartup_inv s : agent_inv s -> agent_inv (cancelStartup s).
Proof. unfold cancelStartup. destruct (_ || _); [done | apply put_cancelled_inv]. Qed.

Lemma close_trust_inv s :
  agent_inv s -> c_state s = Starting -> agent_inv (put_close KTrust (close_trust (put_state Closing s))).
Proof.
  intros [Hp Hc Hl Hu Hs Hb Hpa Hg Hse Ho] Hst. open s. cbn in *. subst st. destruct Hp as [Hup ->]. cbn in *.
  assert (the_cleanup sp KTrust = the_cleanup sp KNone) as E by (by destruct sp).
  assert (past Closing sp KTrust = past Starting sp KNone) as E' by (unfold past; by rewrite E).
  split; cbn; rewrite ?E, ?E'; try done.
  - left. auto.
  - intros [?|[?|?]]; [apply Hu; auto.. | done].
  - intros [?|?]; [apply Hs; auto | done].
  - intros H. destruct (Hpa H) as (? & ? & ?). done.
  - intros [?|[? _]]; [apply Hg; auto | done].
Qed.

Lemma close_resources_inv s :
  agent_inv s -> c_state s = Idle \/ c_state s = Running -> agent_inv (close_resources s).
Proof.
  intros [Hp Hc Hl Hu Hs Hb Hpa Hg Hse Ho] Hst.
  assert ((c_start s = SNone \/ c_start s = SDone) /\ c_close s = KNone) as [Hsp Hkp]
    by (destruct Hst as [Hst|Hst]; rewrite Hst in Hp; cbn in Hp; destruct Hp; auto).
  assert (the_cleanup (c_start s) (c_close s) = None) as Hn by (rewrite Hkp; by destruct Hsp as [-> | ->]).
  assert (past (c_state s) (c_start s) (c_close s) = false) as Hpast.
  { unfold past. rewrite Hn. apply bool_decide_eq_false. by destruct Hst as [-> | ->]. }
  rewrite Hn, Hpast in *. unfold close_resources, begin_cleanup, take_subs, stopHeartbeat. open s. cbn in *.
  assert (forall taken, the_cleanup sp (KCleaning (CDraining taken)) = Some (CDraining taken)) as E
    by (intros; by destruct Hsp as [-> | ->]).
  destruct hb; cbn.
  all: split; cbn; unfold past; rewrite ?E; try done.
  all: try (right; split; [done | eauto]).
  all: try (intros [?|[?|?]]; subst; by destruct Hsp).
  all: try (intros _ H; by apply Hb).
  all: try (intros ->; by destruct Hsp).
  all: try (intros [?|?]; done).
  all: try (by intros [[? ?]|[? _]]).
  all: intros Hm; destruct (Ho Hm) as (? & ? & ? & Hin); repeat (split; [done|]); intros x Hx;
       right; exists su; split; [done|]; by destruct (Hin x Hx) as [?|(? & ? & _)].
Qed.

Lemma close_inv s : agent_inv s -> agent_inv (close s).
Proof.
  intros Hi. unfold close. destruct (c_close s) eqn:Hk; try done. cbn zeta.
  pose proof (cancelStartup_inv _ Hi) as Hi'.
  assert (c_close (cancelStartup s) = KNone) as Hk'.
  { unfold cancelStartup. destruct (_ || _); [done|]. by open s. }
  revert Hi' Hk'. generalize (cancelStartup s). clear s Hi Hk. intros s Hi Hk.
  case_bool_decide as Hst; [by apply close_trust_inv|]. case_bool_decide as Hst'.
  - destruct Hi as [Hp Hc Hl Hu Hs Hb Hpa Hg Hse Ho]. open s. cbn in *. subst.
    destruct Hp as [[[how ->] _]|[_ [? ?]]]; [|done]. split; cbn in *; try done. left. eauto.
  - apply close_resources_inv; [done|]. pose proof (av_phase _ Hi) as Hp. rewrite Hk in Hp.
    destruct (c_state s); auto; try done. cbn in Hp. destruct Hp as [[_ [?|?]]|[_ [? ?]]]; done.
Qed.

Lemma await_phase st p k : phase st p k -> k = KTrust \/ k = KAwaitStart ->
  st = Closing /\ starting_up p = true \/ st = Closed /\ exists how, p = SFailed how.
Proof.
  intros Hp Hk. destruct st; cbn in Hp.
  - destruct Hp as [_ ->]. by destruct Hk.
  - destruct Hp as [_ ->]. by destruct Hk.
  - destruct Hp as [_ ->]. by destruct Hk.
  - destruct Hp as [[? _]|[_ [c ->]]]; [by left|]. by destruct Hk.
  - destruct Hp as [[? _]|[_ [how ->]]]; [by right|]. by destruct Hk.
Qed.

(** Moving between the program counters of [close] that hold no cleanup. *)
Lemma close_pc_inv k s :
  c_close s = KTrust \/ c_close s = KAwaitStart -> (forall c, k <> KCleaning c) ->
  phase (c_state s) (c_start s) k -> abandoned (c_start s) k = abandoned (c_start s) (c_close s) ->
  agent_inv s -> agent_inv (put_close k s).
Proof.
  intros Hks Hk Hph Hab [Hp Hc Hl Hu Hs Hb Hpa Hg Hse Ho]. open s. cbn in *.
  assert (the_cleanup sp k = the_cleanup sp kp) as E.
  { destruct sp; try done; destruct Hks as [-> | ->]; destruct k; try done; by destruct (Hk c). }
  assert (past st sp k = past st sp kp) as E' by (unfold past; by rewrite E).
  split; cbn; rewrite ?E, ?E', ?Hab; done.
Qed.

Lemma close_cleaning_inv ok c s : c_close s = KCleaning c -> agent_inv s -> agent_inv (close_step ok s).
Proof.
  intros Hk Hi. unfold close_step. rewrite Hk. pose proof (av_phase _ Hi) as Hp.
  assert (c_state s = Closing /\ (c_start s = SNone \/ c_start s = SDone)) as [Hst Hsp].
  { rewrite Hk in Hp. destruct (c_state s); cbn in Hp; try (by destruct Hp).
    - destruct Hp as [[_ [?|?]]|[? _]]; done.
    - destruct Hp as [[_ Hn]|[_ [? ?]]]; [by destruct (Hn c) | done]. }
  pose proof (inv_cleanup c s Hi ltac:(rewrite Hk; by destruct Hsp as [-> | ->])) as Hok. apply (cleanup_step_ok ok) in Hok.
  pose proof (cleanup_step_pcs ok c s) as Hpcs. destruct (cleanup_step ok c s) as [c' s']. destruct Hpcs as (E1 & E2 & E3).
  rewrite <- E1, <- E2, <- E3 in Hp. rewrite <- E1 in Hst. rewrite <- E2 in Hsp.
  assert (cleanup_ok c' s' -> agent_inv (put_close (KCleaning c') s')) as Hgo.
  { intros Hok'. eapply cleans_inv; [exact Hp | | exact Hok']. apply cleans_close; [done|]. exists c. congruence. }
  destruct Hok as [(how & -> & [Hs Hgone Hj [Ht Hse] Ho])|Hok]; [|pose proof (cu_done _ _ Hok) as Hcd; destruct c'; auto; by destruct (Hcd how)].
  open s'. cbn in *. assert (the_cleanup sp (KDone how) = None) as Hnone by (by destruct Hsp as [-> | ->]).
  split; cbn; unfold past; rewrite ?Hnone; try done.
  - right. eauto.
  - intros ->. by destruct Hsp.
  - intros [->|[->|?]]; [by destruct Hsp.. | done].
  - intros _. split; [done|]. split; [done|]. intros Hm. by destruct (Ho Hm) as (_ & _ & _ & ->).
  - intros [[? ?]|[_ E]]; [done|]. apply Hgone. intros ->. by destruct Hsp as [-> | ->].
  - intros Hm. destruct (Ho Hm) as (? & ? & ? & ->). done.
Qed.

Lemma close_step_inv ok s : agent_inv s -> agent_inv (close_step ok s).
Proof.
  intros Hi. pose proof (av_phase _ Hi) as Hp. destruct (c_close s) as [| | |c|] eqn:Hk; try (unfold close_step; by rewrite Hk).
  - unfold close_step. rewrite Hk. apply close_pc_inv; [by left | done | | by rewrite Hk | done].
    destruct (await_phase _ _ _ Hp (or_introl eq_refl)) as [[-> Hup]|[-> [how ->]]]; cbn; [left; auto | left; eauto].
  - unfold close_step. rewrite Hk.
    destruct (await_phase _ _ _ Hp (or_intror eq_refl)) as [[Hst Hup]|[Hst Hsp]].
    + by destruct (c_start s).
    + destruct Hsp as [how Hsp]. rewrite Hsp. apply close_pc_inv; [by right | done | | by rewrite Hk, Hsp | done].
      rewrite Hst, Hsp. left. eauto.
  - by eapply close_cleaning_inv.
Qed.

(** ** Reconnect *)

Lemma take_inv s : agent_inv s -> mode <> OFF -> agent_inv (put_subs [] s).
Proof. open s. intros [] Hm. by split. Qed.

Lemma reconnect_pc_inv r s : agent_inv s -> mode <> OFF -> agent_inv (put_reconnect r s).
Proof. open s. intros [] Hm. by split. Qed.

Lemma failing_inv f s : agent_inv s -> mode <> OFF -> agent_inv (put_failing f s).
Proof. open s. intros [] Hm. by split. Qed.

Lemma trust_failure_inv s : agent_inv s -> mode <> OFF -> agent_inv (trust_failure s).2.
Proof. intros Hi Hm. unfold trust_failure, take_subs. cbn. by apply take_inv; [apply stopHeartbeat_inv, admitting_inv|]. Qed.

Lemma reconnect_fails_inv s : agent_inv s -> mode <> OFF -> agent_inv (reconnect_fails mode s).
Proof.
  intros Hi Hm. unfold reconnect_fails. pose proof (trust_failure_inv s Hi Hm) as Hf.
  destruct (trust_failure s) as [taken s']. destruct (trust_enforcing mode); by apply reconnect_pc_inv.
Qed.

Lemma trust_on : trust_enabled mode = true <-> mode <> OFF.
Proof. unfold trust_enabled. by rewrite negb_true_iff, bool_decide_eq_false. Qed.

Lemma reconnect_step_inv ok s : agent_inv s -> agent_inv (reconnect_step mode handlers ok s).
Proof.
  intros Hi. unfold reconnect_step. destruct (c_reconnect s) as [|taken| | |taken] eqn:Hr; [done|..].
  all: assert (mode <> OFF) as Hm by (intros Hm; destruct (av_off _ Hi Hm) as [? _]; congruence).
  - apply reconnect_pc_inv; [|done]. rewrite <- (andb_false_l (negb (c_trustClosed (put_admitting false (drained taken s))))).
    by apply session_inv, admitting_inv, drained_inv.
  - destruct ok; [|by apply reconnect_fails_inv]. cbn zeta.
    assert (agent_inv (put_admitting true (put_session (negb (c_trustClosed s)) s))) as Hi'.
    { apply admitting_inv. rewrite <- (andb_true_l (negb _)). by apply session_inv. }
    revert Hi'. generalize (put_admitting true (put_session (negb (c_trustClosed s)) s)). clear s Hi Hr. intros s Hi.
    case_bool_decide as Hst; cbn [negb]; [|by apply reconnect_pc_inv]. apply reconnect_pc_inv; [|done].
    pose proof (av_phase _ Hi) as Hp. rewrite Hst in Hp. destruct Hp as [Hsp Hkp].
    apply subscribe_inv; [apply (av_up _ Hi); auto | by rewrite Hsp, Hkp | by rewrite Hst | done].
  - destruct ok; [|by apply reconnect_fails_inv]. destruct (startHeartbeat s) as [s'|?|] eqn:Hh;
      [|by apply reconnect_fails_inv..]. apply reconnect_pc_inv; [|done]. by eapply startHeartbeat_inv.
  - apply reconnect_pc_inv; [|done]. by apply drained_inv.
Qed.

Lemma interrupted_inv b s : agent_inv s -> agent_inv (put_interrupted b s).
Proof. open s. intros []. by split. Qed.

Lemma step_inv s s' : mode <> WARN -> agent_inv s -> step mode handlers s s' -> agent_inv s'.
Proof.
  intros Hw Hi. destruct 1 as [configured|ok| |ok|Hwa Hri|Hwa Hri|ok|He Hsp Htc|before taken after Hf|b|id Hin|n Hj].
  - by apply start_inv.
  - by apply start_step_inv.
  - by apply close_inv.
  - by apply close_step_inv.
  - unfold disconnected. apply stopHeartbeat_inv, admitting_inv. case_bool_decide; [by apply interrupted_inv | done].
  - unfold reconnected. destruct (_ || _) eqn:E; [done|]. rewrite !orb_false_iff, !negb_false_iff in E.
    destruct E as [_ He]. apply trust_on in He. pose proof (trust_failure_inv s Hi He) as Hf.
    destruct (trust_failure s). by apply reconnect_pc_inv.
  - by apply reconnect_step_inv.
  - apply trust_on in He. pose proof (trust_failure_inv s Hi He) as Hf. destruct (trust_failure s). by apply failing_inv.
  - assert (mode <> OFF) as Hm.
    { intros Hm. destruct (av_off _ Hi Hm) as (_ & E & _). rewrite E in Hf. by destruct before. }
    by apply failing_inv; [apply drained_inv|].
  - by apply session_inv.
  - by eapply message_inv.
  - by apply job_end_inv.
Qed.

Lemma reachable_inv store s : mode <> WARN -> agent_reachable mode handlers (new_agent store) s -> agent_inv s.
Proof. intros Hw. induction 1 as [|s s' _ IH Hstep]; [apply new_agent_inv | by eapply step_inv]. Qed.

(** C13. With worker trust enforced or off, a job never loses what it needs: in
    every reachable state of the agent, while a job runs the connection, the
    store and the message types are there, whatever start, close, reconnects
    and failed renewals do meanwhile.  A closed agent runs no job, and has
    released its connection and its store unless the close of worker trust
    failed. *)
Theorem jobs_keep_resources store s :
  mode <> WARN -> agent_reachable mode handlers (new_agent store) s ->
  (c_jobs s <> 0%nat -> c_nc s = true /\ c_store s = true /\ c_types s = true) /\
  (c_state s = Closed -> c_jobs s = 0%nat /\
     (abandoned (c_start s) (c_close s) = false -> c_nc s = false /\ c_store s = false)).
Proof.
  intros Hw Hr. apply reachable_inv in Hr; [|done]. destruct Hr as [Hp Hc Hl Hu Hs Hb Hpa Hg Hse Ho]. split.
  - intros Hj. destruct (past (c_state s) (c_start s) (c_close s)) eqn:Hpast; [|by apply Hb; auto].
    by destruct (Hpa eq_refl) as [? _].
  - intros Hst. split; [|intros Hab; apply Hg; by right]. apply Hpa. unfold past.
    rewrite Hst in *. cbn in Hp. assert (the_cleanup (c_start s) (c_close s) = None) as ->; [|by apply bool_decide_eq_true].
    destruct Hp as [[[how ->] Hk]|[[-> | ->] [how ->]]]; [by apply no_cleanup | done | done].
Qed.

(** ** Close completes *)

(** The pending [await] of the start, or else of the close, settles. *)
Definition settle (ok : bool) (s : control) : control :=
  if starting_up (c_start s) then start_step mode handlers ok s else close_step ok s.

Definition settles (oks : list bool) (s : control) : control := fold_left (fun s ok => settle ok s) oks s.

Definition cleanup_rank (c : cleanup) : nat :=
  match c with CDraining _ => 7 | CWaiting => 6 | CTrust => 5 | CConnection => 4 | CHangup => 3 | CStore _ => 2 | CDone _ => 1 end.

(** The awaits that are left. *)
Definition rank (s : control) : nat :=
  match c_start s with
  | SConnecting => 11 | SLoading => 10 | SAuthenticating => 9 | SHandshaking => 8 | SCleaning c => cleanup_rank c
  | SNone | SDone | SFailed _ => 0
  end + match c_close s with KTrust => 2 | KAwaitStart => 1 | KCleaning c => cleanup_rank c | KNone | KDone _ => 0 end.

(** A close is under way and no job runs. *)
Record closing_down (s : control) : Prop := {
  cg_inv : agent_inv s;
  cg_close : c_close s <> KNone;
  cg_jobs : c_jobs s = 0%nat
}.

Lemma cleanup_step_rank ok c s :
  c_jobs s = 0%nat -> (forall how, c <> CDone how) ->
  let '(c', s') := cleanup_step ok c s in (cleanup_rank c' < cleanup_rank c)%nat /\ c_jobs s' = 0%nat.
Proof.
  intros Hj Hc. open s. cbn in *. subst jo.
  destruct c; cbn; unfold wait_jobs, release_resources; cbn; try done; repeat (case_match; simplify_eq/=); try lia.
  by destruct (Hc how).
Qed.

Lemma start_fails_rank s :
  let s' := start_fails s in
  c_start s' = SCleaning (CDraining (c_subs s)) /\ c_close s' = c_close s /\ c_jobs s' = c_jobs s.
Proof. open s. unfold start_fails, begin_cleanup, take_subs, stopHeartbeat. cbn. by destruct hb. Qed.

Lemma not_starting s : c_state s <> Starting -> forall u, requireStartupContinuity s <> Ok u.
Proof. intros Hs u [? _]%continuity_iff. done. Qed.

(** A step of the start while the agent closes. *)
Lemma start_step_rank ok s :
  closing_down s -> starting_up (c_start s) = true ->
  let s' := start_step mode handlers ok s in
  (rank s' < rank s)%nat /\ c_close s' = c_close s /\ c_jobs s' = 0%nat.
Proof.
  intros [Hi Hk Hj] Hup. cbn zeta.
  assert (c_state s <> Starting) as Hst.
  { pose proof (av_phase _ Hi) as Hp. intros E. rewrite E in Hp. by destruct Hp as [_ ?]. }
  assert (forall s0, (c_start s0, c_close s0, c_jobs s0) = (c_start s, c_close s, c_jobs s) ->
            (forall c, c_start s <> SCleaning c) ->
            (rank (start_fails s0) < rank s)%nat /\ c_close (start_fails s0) = c_close s /\ c_jobs (start_fails s0) = 0%nat) as Hfail.
  { intros s0 [= E1 E2 E3] Hnc. destruct (start_fails_rank s0) as (F1 & F2 & F3). unfold rank. rewrite F1, F2, F3, E2, E3.
    split; [|done]. destruct (c_start s); try done; cbn; try lia. by destruct (Hnc c). }
  unfold start_step. destruct (c_start s) as [| | | | |c| |how] eqn:Hsp; try done.
  - destruct ok; [|by apply Hfail; rewrite ?Hsp]. unfold rank. open s. cbn in *. subst sp. cbn. split; [lia | done].
  - destruct ok; [|by apply Hfail; rewrite ?Hsp]. cbn zeta.
    destruct (requireStartupContinuity _) as [u|?|] eqn:Hc; [exfalso; eapply not_starting; [|exact Hc]; by open s|..].
    all: apply Hfail; [by open s; cbn in *; subst | done].
  - destruct ok; [|by apply Hfail; rewrite ?Hsp]. cbn zeta.
    destruct (requireStartupContinuity _) as [u|?|] eqn:Hc; [exfalso; eapply not_starting; [|exact Hc]; by open s|..].
    all: apply Hfail; [by open s; cbn in *; subst | done].
  - destruct (ok || _); [|by apply Hfail; rewrite ?Hsp].
    destruct (do! requireStartupContinuity s ;; startHeartbeat s) as [s'|?|] eqn:Hc.
    + apply do_Ok_iff in Hc as [Hc _]. exfalso. by eapply not_starting.
    + by apply Hfail; rewrite ?Hsp.
    + by apply Hfail; rewrite ?Hsp.
  - assert (forall how, c <> CDone how) as Hcd.
    { intros how ->. apply (av_cleanup _ Hi how). by rewrite Hsp. }
    pose proof (cleanup_step_rank ok c s Hj Hcd) as Hr. pose proof (cleanup_step_pcs ok c s) as Hpcs.
    destruct (cleanup_step ok c s) as [c' s']. destruct Hpcs as (_ & E2 & E3). destruct Hr as [Hr Hj'].
    unfold rank. rewrite Hsp. destruct c'; open s'; cbn in *; subst; split; try done; lia.
Qed.

Lemma close_step_rank ok s :
  closing_down s -> starting_up (c_start s) = false ->
  let s' := close_step ok s in
  ((exists how, c_close s = KDone how) \/ (rank s' < rank s)%nat) /\ c_close s' <> KNone /\ c_jobs s' = 0%nat.
Proof.
  intros [Hi Hk Hj] Hup. cbn zeta. unfold close_step. pose proof (av_phase _ Hi) as Hp.
  destruct (c_close s) as [| | |c|how] eqn:Hkp; try done.
  - open s. cbn in *. subst kp. unfold rank. cbn. split; [right; lia | done].
  - destruct (await_phase _ _ _ Hp (or_intror eq_refl)) as [[_ ?]|[Hst [how Hsp]]]; [congruence|]. rewrite Hsp.
    open s. cbn in *. subst. unfold rank. cbn. split; [right; lia | done].
  - assert (forall how, c <> CDone how) as Hcd.
    { intros how ->. apply (av_cleanup _ Hi how). rewrite Hkp. by destruct (c_start s). }
    pose proof (cleanup_step_rank ok c s Hj Hcd) as Hr. pose proof (cleanup_step_pcs ok c s) as Hpcs.
    destruct (cleanup_step ok c s) as [c' s']. destruct Hpcs as (_ & E2 & E3). destruct Hr as [Hr Hj'].
    unfold rank. rewrite Hkp. destruct c'; open s'; cbn in *; subst; split; try done; right; lia.
  - rewrite Hkp. eauto.
Qed.

Lemma settle_closing ok s :
  closing_down s -> closing_down (settle ok s) /\ ((exists how, c_close s = KDone how) /\ starting_up (c_start s) = false \/ (rank (settle ok s) < rank s)%nat).
Proof.
  intros Hc. pose proof Hc as [Hi Hk Hj]. unfold settle. destruct (starting_up (c_start s)) eqn:Hup.
  - destruct (start_step_rank ok s Hc Hup) as (Hr & E & Hj'). split; [|by right].
    split; [by apply start_step_inv | congruence | done].
  - destruct (close_step_rank ok s Hc Hup) as (Hr & Hk' & Hj'). split; [split; [by apply close_step_inv | done | done]|].
    destruct Hr; auto.
Qed.

Lemma settles_closing oks : forall s,
  closing_down s -> (rank s <= length oks)%nat ->
  (exists how, c_close (settles oks s) = KDone how) /\ starting_up (c_start (settles oks s)) = false /\ agent_inv (settles oks s).
Proof.
  induction oks as [|ok oks IH]; intros s Hc Hr.
  - pose proof Hc as [Hi Hk Hj]. cbn in Hr. unfold rank in Hr. cbn. destruct (c_close s) as [| | |c|how]; cbn in Hr; try lia; try done.
    + destruct c; cbn in Hr; lia.
    + split; [eauto|]. split; [|done]. destruct (c_start s) as [| | | | |c| |]; cbn in *; try lia; try done. destruct c; cbn in Hr; lia.
  - destruct (settle_closing ok s Hc) as [Hc' [[[how Hk] Hup]|Hlt]].
    + cbn. assert (settle ok s = s) as Hs by (unfold settle; rewrite Hup; unfold close_step; by rewrite Hk).
      rewrite Hs. clear Hc' Hs. clear IH Hr. induction oks as [|ok' oks IH]; [cbn; destruct Hc; eauto|].
      cbn. assert (settle ok' s = s) as -> by (unfold settle; rewrite Hup; unfold close_step; by rewrite Hk). exact IH.
    + apply IH; [done|]. cbn in Hr. lia.
Qed.

(** C21. A close completes, with worker trust enforced or off: once [close] was
    called and no job runs, thirteen settled awaits of the start and of the close,
    however they settle, bring the agent to the state closed and settle the
    promise of [close], when no message arrives and no other task runs in
    between. *)
Theorem close_completes store s oks :
  mode <> WARN -> agent_reachable mode handlers (new_agent store) s -> c_close s <> KNone -> c_jobs s = 0%nat ->
  (13 <= length oks)%nat -> (exists how, c_close (settles oks s) = KDone how) /\ c_state (settles oks s) = Closed.
Proof.
  intros Hw Hr Hk Hj Hlen. apply reachable_inv in Hr; [|done].
  destruct (settles_closing oks s) as ([how Hk'] & Hup & Hi); [by split | |].
  - assert (rank s <= 13)%nat; [|lia]. unfold rank. pose proof (av_phase _ Hr) as Hp.
    destruct (starting_up (c_start s)) eqn:Hup.
    + destruct (starting_up_phase _ _ _ Hp Hup) as [_ Hnk].
      destruct (c_start s) as [| | | | |c| |]; try done; destruct (c_close s) as [| | |c'|]; cbn; try lia; try (by destruct (Hnk c'));
        destruct c; cbn; lia.
    + destruct (c_start s); try done; destruct (c_close s) as [| | |c'|]; cbn; try lia; destruct c'; cbn; lia.
  - split; [eauto|]. pose proof (av_phase _ Hi) as Hp. rewrite Hk' in Hp. destruct (c_state (settles oks s)); try done; cbn in Hp.
    + by destruct Hp.
    + by destruct Hp.
    + by destruct Hp.
    + destruct Hp as [[? _]|[_ [? ?]]]; congruence.
Qed.
End Invariant.

(** ** Runs *)

(** An agent that authenticated and runs. *)
Definition started (mode : WorkerTrustMode) : control :=
  Nat.iter 4 (start_step mode 2 true) (start 2 true (new_agent true)).2.

Definition job_during_close : control := close (message ENFORCE (started ENFORCE)).

Lemma started_reachable mode : agent_reachable mode 2 (new_agent true) (started mode).
Proof.
  do 4 (eapply agent_step; [|apply (step_start_settles mode 2 _ true)]).
  eapply agent_step; [constructor|]. apply (step_start mode 2 _ true).
Qed.

Lemma job_during_close_reachable : agent_reachable ENFORCE 2 (new_agent true) job_during_close.
Proof.
  eapply agent_step; [|apply step_close]. eapply agent_step; [apply started_reachable|].
  apply (step_message ENFORCE 2 _ 0). vm_compute. by left.
Qed.

Lemma jobs_keep_resources_witness :
  c_jobs job_during_close = 1%nat /\
  (c_nc job_during_close = true /\ c_store job_during_close = true /\ c_types job_during_close = true).
Proof.
  split; [reflexivity|]. apply (jobs_keep_resources ENFORCE 2 true job_during_close).
  - discriminate.
  - exact job_during_close_reachable.
  - discriminate.
Defined.

Lemma close_completes_witness :
  c_state (settles ENFORCE 2 (repeat true 13) (close (started ENFORCE))) = Closed.
Proof.
  apply (close_completes ENFORCE 2 true (close (started ENFORCE)) (repeat true 13)).
  - discriminate.
  - eapply agent_step; [apply started_reachable | apply step_close].
  - discriminate.
  - reflexivity.
  - vm_compute. repeat constructor.
Defined.

(** The close of worker trust fails: the agent is closed and keeps its
    connection and its store. *)
Example abandoned_close :
  let s := settles ENFORCE 2 [true; false] (close (started ENFORCE)) in
  c_state s = Closed /\ c_close s = KDone Abandons /\ c_nc s = true /\ c_store s = true.
Proof. vm_compute. repeat split. Qed.

(** A close that comes while a reconnect publishes its handshake: the heartbeat
    that the reconnect then starts is never stopped. *)
Definition closed_during_handshake : control :=
  let s := reconnect_step ENFORCE 2 true (reconnect_step ENFORCE 2 true (reconnected ENFORCE (started ENFORCE))) in
  settles ENFORCE 2 (repeat true 13) (reconnect_step ENFORCE 2 true (close s)).

Example heartbeat_survives_close :
  c_state closed_during_handshake = Closed /\ length (c_beating closed_during_handshake) = 1%nat.
Proof. vm_compute. split; reflexivity. Qed.

(** In warn mode a job can lose its connection: a renewal fails and drains the
    subscriptions; meanwhile a reconnect authenticates, and the agent is closed
    before the continuation admits packets again; a message that arrives then
    starts a job the close does not wait for. *)
Definition warn_race : control :=
  let s := started WARN in
  let '(taken, s) := trust_failure s in
  let s := put_failing [taken] s in
  let s := reconnect_step WARN 2 true (reconnected WARN s) in
  let s := close_step true (close s) in
  let s := message WARN (reconnect_step WARN 2 true s) in
  close_step true (close_step true s).

Example job_without_connection :
  c_jobs warn_race = 1%nat /\ c_nc warn_race = false /\ c_live warn_race <> [].
Proof. vm_compute. split; [reflexivity|]. split; [reflexivity | discriminate]. Qed.
