(* ===== verification/Outbound.v ===== *)
(** * Packets a component sends on its own

    src/sdk/node/src/heartbeat.ts, progress.ts, handshake.ts and client.ts: the
    builders of heartbeat, progress, cancel and handshake packets, the helpers
    that publish them, [submitJob], and the heartbeat loop. *)

From S2P Require Import Prelude JsString JsValue Protos WireSchema Validate Codec PacketBoundary WorkerTrustExchange.

(** What is handed to [nc.publish]. *)
Record publication : Type := { pb_subject : jsstr; pb_data : bytes }.

Section Outbound.
(** protobufjs: [BusPacket.fromObject] and the encoder; [JobRequest.fromObject];
    and the signature with a PEM key. *)
Context (fromObject jobRequest_fromObject : jsval -> result jsval) (packetType : codec_type)
        (sign_pem : jsstr -> bytes -> result bytes).

(** The envelope that all builders share. *)
Definition envelope (traceId senderId : jsstr) (now : Z) (key : string) (payload : jsval) : jsval :=
  JPlain [(js "traceId", JStr traceId); (js "senderId", JStr senderId);
          (js "protocolVersion", JNum (NInt DEFAULT_PROTOCOL_VERSION));
          (js "createdAt", JPlain [(js "seconds", JNum (num_floor (num_div (NInt now) 1000))); (js "nanos", JNum (NInt 0))]);
          (js key, payload)].

Definition prepared (packet : result jsval) (sessionToken : jsstr) : result jsval :=
  let! p := packet in
  let '(checked, p') := prepareOutboundPacket p (Some sessionToken) in
  do! checked ;; Ok p'.

(** [{ ...(text ? { [key]: text } : {}) }] *)
Definition optional_text (key : string) (text : jsstr) : list (jsstr * jsval) :=
  if str_empty text then [] else [(js key, JStr text)].

Definition heartbeatPayloadWithProgress (workerId pool : jsstr) (activeJobs maxParallel cpuLoad memoryLoad progressPct : jsnum)
    (lastMemo authToken agentName sessionToken : jsstr) (now : Z) : result jsval :=
  prepared (fromObject (envelope workerId workerId now "heartbeat" (JPlain (
    [(js "workerId", JStr workerId); (js "pool", JStr pool); (js "activeJobs", JNum activeJobs);
     (js "maxParallelJobs", JNum maxParallel); (js "cpuLoad", JNum cpuLoad); (js "memoryLoad", JNum memoryLoad);
     (js "progressPct", JNum progressPct); (js "lastMemo", JStr lastMemo)] ++
    optional_text "authToken" (trim authToken) ++ optional_text "agentName" (sanitizeAgentName agentName)))))
    sessionToken.

Definition heartbeatPayload (workerId pool : jsstr) (activeJobs maxParallel cpuLoad : jsnum)
    (authToken agentName sessionToken : jsstr) (now : Z) : result jsval :=
  heartbeatPayloadWithProgress workerId pool activeJobs maxParallel cpuLoad (NInt 0) (NInt 0) []
    authToken agentName sessionToken now.

Definition heartbeatPayloadWithMemory (workerId pool : jsstr) (activeJobs maxParallel cpuLoad memoryLoad : jsnum)
    (authToken agentName sessionToken : jsstr) (now : Z) : result jsval :=
  heartbeatPayloadWithProgress workerId pool activeJobs maxParallel cpuLoad memoryLoad (NInt 0) []
    authToken agentName sessionToken now.

Definition progressPayload (senderId jobId stepId : jsstr) (percent : jsnum) (message sessionToken : jsstr) (now : Z)
    : result jsval :=
  prepared (fromObject (envelope jobId senderId now "jobProgress" (JPlain
    [(js "jobId", JStr jobId); (js "stepId", JStr stepId); (js "percent", JNum percent); (js "message", JStr message)])))
    sessionToken.

Definition cancelPayload (senderId jobId reason requestedBy sessionToken : jsstr) (now : Z) : result jsval :=
  prepared (fromObject (envelope jobId senderId now "jobCancel" (JPlain
    [(js "jobId", JStr jobId); (js "reason", JStr reason); (js "requestedBy", JStr requestedBy)])))
    sessionToken.

Definition COMPONENT_ROLE_WORKER : Z := 3.

(** [uuid] is the draw of [randomUUID]. *)
Definition handshakePayload (componentId : jsstr) (capabilities : list (jsstr * jsval)) (senderId : jsstr)
    (readyTopics : list jsstr) (agentName sdkVersion sessionToken uuid : jsstr) (now : Z) : result jsval :=
  prepared (fromObject (envelope (requestId uuid) senderId now "handshake" (JPlain (
    [(js "componentId", JStr componentId); (js "role", JNum (NInt COMPONENT_ROLE_WORKER));
     (js "supportedVersions", JArr [JNum (NInt DEFAULT_PROTOCOL_VERSION)]); (js "capabilities", JPlain capabilities);
     (js "readyTopics", JArr (map JStr readyTopics)); (js "sdkVersion", JStr sdkVersion)] ++
    optional_text "agentName" (sanitizeAgentName agentName)))))
    sessionToken.

(** ** Publishing *)

Definition emit_packet (subject : jsstr) (packet : jsval) (privateKey : option jsstr) : result publication :=
  let! data := (encodeOutboundPacket sign_pem packetType packet privateKey).1 in
  Ok {| pb_subject := subject; pb_data := data |}.

Definition emitHeartbeat : jsval -> option jsstr -> result publication := emit_packet SUBJECT_HEARTBEAT.
Definition emitProgress : jsval -> option jsstr -> result publication := emit_packet SUBJECT_PROGRESS.
Definition emitCancel : jsval -> option jsstr -> result publication := emit_packet SUBJECT_CANCEL.
Definition publishHandshake : jsval -> option jsstr -> result publication := emit_packet SUBJECT_HANDSHAKE.

Definition submitJob (jobRequest : jsval) (traceId senderId : jsstr) (privateKey : option jsstr) (sessionToken : jsstr)
    (now : Z) : result publication :=
  let! jr := jobRequest_fromObject jobRequest in
  let! payload := prepared (fromObject (envelope traceId senderId now "jobRequest" jr)) sessionToken in
  emit_packet SUBJECT_SUBMIT payload privateKey.

(** ** What is sent is valid *)

Lemma outbound_valid p : validateOutboundPacket p = Ok tt -> valid_packet p.
Proof.
  intros H. apply do_Ok_iff in H as [_ H%throw_if_Ok_iff]. apply validateBusPacket_nil.
  destruct (validateBusPacket p); [done|]. rewrite zlen_cons in H. pose proof (zlen_nonneg l).
  apply negb_false_iff, Z.eqb_eq in H. lia.
Qed.

Lemma prepared_valid r token p : prepared r token = Ok p -> valid_packet p.
Proof.
  intros H. apply bind_Ok_iff in H as (p0 & _ & H). destruct (prepareOutboundPacket p0 (Some token)) as [checked p'] eqn:E.
  apply do_Ok_iff in H as [-> [= <-]]. unfold prepareOutboundPacket in E.
  destruct (attachSessionToken p0 (Some token)) as [[[]|?|] p1]; injection E as E <-; [|done|done].
  by apply outbound_valid.
Qed.

Lemma emit_valid subject p key d : emit_packet subject p key = Ok d -> pb_subject d = subject /\ valid_packet p.
Proof.
  intros H. apply bind_Ok_iff in H as (data & H & [= <-]). split; [done|]. unfold encodeOutboundPacket in H.
  destruct (validateOutboundPacket p) as [[]|?|] eqn:E; [|done|done]. by apply outbound_valid.
Qed.
End Outbound.

(** ** The heartbeat loop *)

(** A tick awaits its payload and then the publication.  [hl_running] says that
    the interval timer is set. *)
Inductive tick : Set := AwaitPayload | AwaitPublish.

Record heartbeat_loop : Set := {
  hl_stopped : bool;
  hl_running : bool;
  hl_ticks : list tick
}.

Definition heartbeatLoop : heartbeat_loop := {| hl_stopped := false; hl_running := true; hl_ticks := [] |}.

(** [Math.max(1, interval)], with [interval = opts.interval ?? 5000]. *)
Definition heartbeat_interval (interval : option jsnum) : jsnum := num_max (NInt 1) (default (NInt 5000) interval).

(** The timer fires. *)
Definition timer_fires (l : heartbeat_loop) : heartbeat_loop :=
  if negb (hl_running l) || hl_stopped l then l
  else {| hl_stopped := hl_stopped l; hl_running := hl_running l; hl_ticks := AwaitPayload :: hl_ticks l |}.

Definition stop (l : heartbeat_loop) : heartbeat_loop :=
  if hl_stopped l then l else {| hl_stopped := true; hl_running := false; hl_ticks := hl_ticks l |}.

(** The await of a tick settles: the tick that got its payload publishes, one
    that failed or has published ends.  The result counts publications. *)
Definition tick_settles (ok : bool) (before : list tick) (t : tick) (after : list tick) (l : heartbeat_loop)
    : heartbeat_loop * nat :=
  match t with
  | AwaitPayload =>
      if ok then ({| hl_stopped := hl_stopped l; hl_running := hl_running l; hl_ticks := before ++ AwaitPublish :: after |}, 1%nat)
      else ({| hl_stopped := hl_stopped l; hl_running := hl_running l; hl_ticks := before ++ after |}, 0%nat)
  | AwaitPublish => ({| hl_stopped := hl_stopped l; hl_running := hl_running l; hl_ticks := before ++ after |}, 0%nat)
  end.

(** A run of the loop and the number of heartbeats it publishes. *)
Inductive beats : heartbeat_loop -> nat -> heartbeat_loop -> Prop :=
| beats_nil l : beats l 0 l
| beats_timer l n l' : beats (timer_fires l) n l' -> beats l n l'
| beats_stop l n l' : beats (stop l) n l' -> beats l n l'
| beats_tick ok before t after l n l' :
    hl_ticks l = before ++ t :: after -> beats (tick_settles ok before t after l).1 n l' ->
    beats l ((tick_settles ok before t after l).2 + n) l'.

(** The ticks that may still publish. *)
Definition unpublished (l : heartbeat_loop) : nat :=
  length (List.filter (fun t => match t with AwaitPayload => true | AwaitPublish => false end) (hl_ticks l)).

Lemma unpublished_app b t a :
  length (List.filter (fun t => match t with AwaitPayload => true | AwaitPublish => false end) (b ++ t :: a)) =
  ((match t with AwaitPayload => 1 | AwaitPublish => 0 end) +
   length (List.filter (fun t => match t with AwaitPayload => true | AwaitPublish => false end) (b ++ a)))%nat.
Proof. rewrite !List.filter_app, !length_app. cbn. destruct t; cbn; lia. Qed.

(** After [stop], no heartbeat is published but those whose tick had begun. *)
Lemma stopped_beats l n l' : beats l n l' -> hl_stopped l = true -> (n <= unpublished l)%nat.
Proof.
  induction 1 as [l|l n l' _ IH|l n l' _ IH|ok before t after l n l' Ht _ IH]; intros Hs.
  - lia.
  - unfold timer_fires in IH. rewrite Hs, orb_true_r in IH. auto.
  - unfold stop in IH. rewrite Hs in IH. auto.
  - unfold unpublished in *. rewrite Ht, unpublished_app. destruct t, ok; cbn in *;
      specialize (IH Hs); rewrite ?unpublished_app in IH; cbn in IH; lia.
Qed.
