(* ===== verification/Worker.v ===== *)
(** * The low-level worker

    src/sdk/node/src/worker.ts: [startWorker] and the handling of one message.
    The handler may return an object it keeps; the worker writes the missing
    ids into that very object.  So objects live in a heap that handler and
    worker share. *)

From S2P Require Import Prelude JsString JsValue Errors Protos WireSchema ProductionSigning Validate Codec PacketBoundary BlobStore Effects.

Definition heap : Type := list jsval.

(** What a handler returns: an object of the heap, or another value. *)
Inductive value : Type := Ref (address : nat) | Other (v : jsval).

Definition handler_fn : Type := jsval -> heap -> result value * heap.

Record WorkerConfig : Type := {
  wc_handler : handler_fn;
  wc_middlewares : list (handler_fn -> handler_fn);
  wc_publicKeyMap : option (list (jsstr * jsval));
  wc_privateKey : option jsstr;
  wc_sessionToken : option jsstr;
  wc_senderId : jsstr
}.

Inductive worker_event : Type :=
| WSubscriptionError (error : jsstr)
| WProcessingFailed (error : jsstr)
| WRejected (error : jsstr)
| WReceived (jobId topic : jsval)
| WCompleted (jobId : jsstr) (elapsedMs : Z) (status : jsstr)
| WFailed (jobId error : jsstr)
| WPublished (result : jsval) (data : bytes).

(** The protobufjs types, and what the outside answers. *)
Record worker_env : Type := {
  we_decode : bytes -> result jsval;
  we_codec : codec_type;
  we_packet : jsval -> result jsval;
  we_jobResult : jsval -> result jsval;
  we_crypto : crypto;
  we_sign : jsstr -> bytes -> result bytes;
  we_clock : nat -> Z;
  we_others : nat -> heap -> heap;
  we_metric : worker_event -> result unit;
  we_publish : bytes -> result unit
}.

Section Worker.
Context (cfg : WorkerConfig) (env : worker_env).

Definition W (A : Type) : Type := M heap worker_event A.

Definition wmetric (e : worker_event) : W unit := do* emit e ;; lift (we_metric env e).

Definition failureResult (jobId : jsval) (errorMessage : jsstr) : jsval :=
  JPlain [(js "jobId", coalesce jobId (JStr [])); (js "status", JStr (js "JOB_STATUS_FAILED"));
          (js "errorMessage", JStr errorMessage)].

Definition isRecord (v : jsval) : bool :=
  match v with JObj _ _ | JBytes _ | JLong _ => true | _ => false end.

(** A new object. *)
Definition allocate (v : jsval) (h : heap) : nat * heap := (length h, h ++ [v]).

Definition deref (a : nat) (h : heap) : jsval := nth a h JUndef.

(** The object the result is, a new one when the handler failed or returned no
    object. *)
Definition result_address (request : jsval) (returned : result value) (h : heap) : result (nat * heap) :=
  match returned with
  | NoFuel => NoFuel
  | Throw e => Ok (allocate (failureResult (get request "jobId") (message_or_text e)) h)
  | Ok (Ref a) => if isRecord (deref a h) then Ok (a, h)
                  else Ok (allocate (failureResult (get request "jobId") (js "handler returned null")) h)
  | Ok (Other v) => if isRecord v then Ok (allocate v h)
                    else Ok (allocate (failureResult (get request "jobId") (js "handler returned null")) h)
  end.

Definition nonempty_text (v : jsval) : bool := match v with JStr s => negb (str_empty s) | _ => false end.

(** [if (typeof result.k !== "string" || result.k.length === 0) result.k = v] *)
Definition fill (k : string) (v : jsval) (o : jsval) : jsval := if nonempty_text (get o k) then o else set k v o.

Definition wrapped_handler : handler_fn := fold_right (fun mw next => mw next) (wc_handler cfg) (wc_middlewares cfg).

(** The call is awaited; what other tasks do then is [we_others]. *)
Definition executeHandler (request : jsval) : W nat :=
  let* returned := update (fun h => let '(r, h') := wrapped_handler request h in
                                    (match r with NoFuel => NoFuel | _ => Ok r end, h')) in
  do* await (we_others env) ;;
  update (fun h =>
    match result_address request returned h with
    | Ok (a, h') =>
        (Ok a, <[a := fill "workerId" (JStr (wc_senderId cfg))
                        (fill "jobId" (coalesce (get request "jobId") (JStr [])) (deref a h'))]> h')
    | Throw e => (Throw e, h)
    | NoFuel => (NoFuel, h)
    end).

Definition recordResultMetrics (result : jsval) (elapsedMs : Z) : W unit :=
  let jobId := to_text (coalesce (get result "jobId") (JStr [])) in
  if strict_eq (get result "status") (JStr (js "JOB_STATUS_FAILED"))
  then wmetric (WFailed jobId (to_text (coalesce (get result "errorMessage") (JStr []))))
  else wmetric (WCompleted jobId elapsedMs (to_text (coalesce (get result "status") (JStr (js "JOB_STATUS_SUCCEEDED"))))).

Definition publishWorkerResult (packet result : jsval) : W unit :=
  let* resultMessage := lift (we_jobResult env result) in
  let* now := ask (we_clock env) in
  let* outgoing := lift (we_packet env (JPlain
    [(js "traceId", get packet "traceId"); (js "senderId", JStr (wc_senderId cfg));
     (js "protocolVersion", JNum (NInt DEFAULT_PROTOCOL_VERSION));
     (js "createdAt", JPlain [(js "seconds", JNum (num_floor (num_div (NInt now) 1000))); (js "nanos", JNum (NInt 0))]);
     (js "jobResult", resultMessage)])) in
  let '(checked, outgoing) := prepareOutboundPacket outgoing (wc_sessionToken cfg) in
  do* lift checked ;;
  let* data := lift (encodeOutboundPacket (we_sign env) (we_codec env) outgoing (wc_privateKey cfg)).1 in
  do* lift (we_publish env data) ;;
  emit (WPublished result data).

Definition processWorkerMessage (data : bytes) : W unit :=
  let* packet := lift (we_decode env data) in
  let '(verified, packet) := verifyInboundPacket (we_crypto env) (we_codec env) packet (wc_publicKeyMap cfg) in
  match verified with
  | NoFuel => lift NoFuel
  | Throw e => emit (WRejected (describe e))
  | Ok _ =>
      let request := get packet "jobRequest" in
      if negb (truthy request) then ret tt
      else
        do* wmetric (WReceived (coalesce (get request "jobId") (JStr [])) (coalesce (get request "topic") (JStr []))) ;;
        let* startedAt := ask (we_clock env) in
        let* address := executeHandler request in
        do* await (we_others env) ;;
        let* now := ask (we_clock env) in
        let* h := state in
        let result := deref address h in
        do* recordResultMetrics result (now - startedAt) ;;
        publishWorkerResult packet result
  end.

(** The callback that [startWorker] subscribes: an error of the subscription, or
    a message.  It never throws. *)
Definition callback (arrived : exn + bytes) : W unit :=
  match arrived with
  | inl e => emit (WSubscriptionError (describe e))
  | inr data =>
      let* outcome := attempt (processWorkerMessage data) in
      match outcome with
      | inl e => emit (WProcessingFailed (describe e))
      | inr _ => ret tt
      end
  end.
End Worker.

(** The subject and the queue group of the subscription. *)
Definition startWorker (subject : jsval) (queue : jsval) : jsval * jsval := (subject, coalesce queue subject).

(** ** One result for one request *)

Definition results (evs : list worker_event) : list jsval :=
  omap (fun e => match e with WPublished result _ => Some result | _ => None end) evs.

Lemma results_app a b : results (a ++ b) = results a ++ results b.
Proof. apply omap_app. Qed.

Section Answers.
Context (cfg : WorkerConfig) (env : worker_env).

Let anything : heap -> Prop := fun _ => True.

Definition quiet {A} (r : result A) (evs : list worker_event) : Prop := results evs = [].

(** One result if the run returns, none if it does not. *)
Definition one_result (r : result unit) (evs : list worker_event) : Prop :=
  match r with Ok _ => exists v, results evs = [v] | _ => results evs = [] end.

Lemma quiet_bind {A B} (m : W A) (k : A -> W B) :
  traced anything m quiet -> (forall a, traced anything (k a) quiet) -> traced anything (bindM m k) quiet.
Proof.
  intros Hm Hk. eapply traced_bind; [exact Hm | | done | done]. intros a evs Hv. eapply traced_weaken; [apply Hk|].
  unfold quiet. intros r evs' Hv'. by rewrite results_app, Hv, Hv'.
Qed.

Lemma quiet_then {A} (m : W A) (k : A -> W unit) :
  traced anything m quiet -> (forall a, traced anything (k a) one_result) -> traced anything (bindM m k) one_result.
Proof.
  intros Hm Hk. eapply traced_bind; [exact Hm | | done | done]. intros a evs Hv. eapply traced_weaken; [apply Hk|].
  unfold one_result. intros r evs'. by rewrite results_app, Hv.
Qed.

Lemma quiet_lift {A} (r : result A) : traced anything (lift r) quiet.
Proof. by apply traced_lift. Qed.

Lemma quiet_metric e : results [e] = [] -> traced anything (wmetric env e) quiet.
Proof. intros He. apply quiet_bind; [by apply traced_emit | intros _; apply quiet_lift]. Qed.

Lemma executeHandler_quiet request : traced anything (executeHandler cfg env request) quiet.
Proof.
  apply quiet_bind; [by apply traced_update|]. intros returned. apply quiet_bind; [by apply traced_await|]. intros _.
  by apply traced_update.
Qed.

Lemma publishWorkerResult_once packet result : traced anything (publishWorkerResult cfg env packet result) one_result.
Proof.
  apply quiet_then; [apply quiet_lift|]. intros m. apply quiet_then; [by apply traced_ask|]. intros now.
  apply quiet_then; [apply quiet_lift|]. intros out. destruct (prepareOutboundPacket out _) as [checked out'].
  apply quiet_then; [apply quiet_lift|]. intros _. apply quiet_then; [apply quiet_lift|]. intros data.
  apply quiet_then; [apply quiet_lift|]. intros _. apply traced_emit. by exists result.
Qed.

(** C40. A worker answers each verified job request with one result, or throws
    having published none; a packet that does not verify publishes nothing. *)
Theorem worker_answers data t decoded :
  we_decode env data = Ok decoded ->
  let run := processWorkerMessage cfg env data t in
  let checked := verifyInboundPacket (we_crypto env) (we_codec env) decoded (wc_publicKeyMap cfg) in
  exists evs, tk_events run.2 = tk_events t ++ evs /\
    if is_ok checked.1 && truthy (get checked.2 "jobRequest") then one_result run.1 evs else results evs = [].
Proof.
  intros Hd. cbn zeta. unfold processWorkerMessage. rewrite Hd, bindM_Ok.
  destruct (verifyInboundPacket _ _ decoded _) as [[u|e|] packet]; cbn [is_ok andb fst snd].
  - destruct (truthy (get packet "jobRequest")); cbn [negb]; [|exists []; by rewrite app_nil_r].
    match goal with |- context [tk_events (?m t).2] => assert (traced anything m one_result) as Hm end.
    { apply quiet_then; [by apply quiet_metric|]. intros _. apply quiet_then; [by apply traced_ask|]. intros startedAt.
      apply quiet_then; [apply executeHandler_quiet|]. intros address. apply quiet_then; [by apply traced_await|]. intros _.
      apply quiet_then; [by apply traced_ask|]. intros now. apply quiet_then; [by apply traced_state|]. intros h. cbn zeta.
      apply quiet_then; [|intros _; apply publishWorkerResult_once].
      unfold recordResultMetrics. cbn zeta. destruct (strict_eq _ _); by apply quiet_metric. }
    destruct (Hm t I) as (_ & evs & Hev & HQ). by exists evs.
  - by exists [WRejected (describe e)].
  - exists []. by rewrite app_nil_r.
Qed.
End Answers.

(** A message that cannot be handled does not end the subscription. *)
Lemma callback_returns cfg env arrived t e : (callback cfg env arrived t).1 <> Throw e.
Proof.
  destruct arrived as [e'|data]; [done|]. unfold callback, bindM, attempt.
  by destruct (processWorkerMessage cfg env data t) as [[u|e'|] t'].
Qed.

(** ** Whose result it is *)

(** The object keeps an id of its own, else it gets the id of the request. *)
Lemma fill_id k v own inh :
  let o := JObj own inh in get (fill k v o) k = if nonempty_text (get o k) then get o k else v.
Proof.
  cbn zeta. unfold fill. destruct (nonempty_text _); [done|]. by rewrite get_set_eq.
Qed.

Lemma fill_other k v k' o : k <> k' -> get (fill k v o) k' = get o k'.
Proof. intros Hne. unfold fill. destruct (nonempty_text _); [done|]. by apply get_set_ne. Qed.

Lemma fill_object k v own inh : exists own' inh', fill k v (JObj own inh) = JObj own' inh'.
Proof. unfold fill. destruct (nonempty_text _); cbn; eauto. Qed.

(** An object without an id gets the id of its request. *)
Lemma executeHandler_id cfg env request t a own inh h' :
  (forall n h, we_others env n h = h) ->
  wrapped_handler cfg request (tk_state t) = (Ok (Ref a), h') -> (a < length h')%nat -> deref a h' = JObj own inh ->
  nonempty_text (get (JObj own inh) "jobId") = false ->
  exists t', executeHandler cfg env request t = (Ok a, t') /\
    get (deref a (tk_state t')) "jobId" = coalesce (get request "jobId") (JStr []).
Proof.
  intros Ho Hh Ha Hd Hid. eexists. unfold executeHandler, bindM, update, await. rewrite Hh. cbn [tk_state tk_tick].
  rewrite Ho. unfold result_address. rewrite Hd. cbn [isRecord]. split; [reflexivity|]. cbn [tk_state]. rewrite Hd.
  assert (forall v, deref a (<[a := v]> h') = v) as ->.
  { intros v. unfold deref. apply nth_lookup_Some. by apply list_lookup_insert_eq. }
  rewrite fill_other by done. by rewrite fill_id, Hid.
Qed.

(** ** A handler that returns one object for all jobs *)

Definition sample_codec : codec_type := {|
  ct_schema := MsgType "BusPacket" []; toObject := id; ct_encode := fun _ => Ok [] |}.

(** The data is the number of the job. *)
Definition sample_request_packet (data : bytes) : jsval :=
  JPlain [(js "traceId", JStr (js "t")); (js "senderId", JStr (js "client")); (js "protocolVersion", JNum (NInt 1));
          (js "createdAt", JPlain [(js "seconds", JNum (NInt 1700000000))]);
          (js "jobRequest", JPlain [(js "jobId", JStr (js "job-" ++ data)); (js "topic", JStr (js "job.echo"));
                                    (js "contextPtr", JStr (js "redis://ctx"))])].

Definition sample_worker_env : worker_env := {|
  we_decode := fun data => Ok (sample_request_packet data); we_codec := sample_codec;
  we_packet := fun v => Ok v; we_jobResult := fun v => Ok v; we_crypto := toy_crypto;
  we_sign := fun _ d => Ok d; we_clock := fun _ => 0; we_others := fun _ h => h; we_metric := fun _ => Ok tt;
  we_publish := fun _ => Ok tt |}.

Definition worker_with (h : handler_fn) : WorkerConfig := {|
  wc_handler := h; wc_middlewares := []; wc_publicKeyMap := None; wc_privateKey := None;
  wc_sessionToken := None; wc_senderId := js "worker" |}.

Definition succeeded : jsval := JPlain [(js "status", JStr (js "JOB_STATUS_SUCCEEDED"))].

(** The ids of the results for the jobs 1 and 2. *)
Definition two_jobs (h : handler_fn) : list jsval :=
  let cfg := worker_with h in
  let t1 := (processWorkerMessage cfg sample_worker_env [49] (Task [succeeded] 0 [])).2 in
  map (fun r => get r "jobId") (results (tk_events (processWorkerMessage cfg sample_worker_env [50] t1).2)).

Example shared_result_object :
  two_jobs (fun _ h => (Ok (Other succeeded), h)) = [JStr (js "job-1"); JStr (js "job-2")] /\
  two_jobs (fun _ h => (Ok (Ref 0), h)) = [JStr (js "job-1"); JStr (js "job-1")].
Proof. vm_compute. split; reflexivity. Qed.

Lemma worker_answers_witness :
  exists evs, tk_events (processWorkerMessage (worker_with (fun _ h => (Ok (Other succeeded), h))) sample_worker_env [49]
                           (Task [] 0 [])).2 = [] ++ evs /\
    if is_ok (verifyInboundPacket toy_crypto sample_codec (sample_request_packet [49]) None).1 &&
       truthy (get (verifyInboundPacket toy_crypto sample_codec (sample_request_packet [49]) None).2 "jobRequest")
    then one_result (processWorkerMessage (worker_with (fun _ h => (Ok (Other succeeded), h))) sample_worker_env [49]
                       (Task [] 0 [])).1 evs
    else results evs = [].
Proof.
  apply (worker_answers (worker_with (fun _ h => (Ok (Other succeeded), h))) sample_worker_env [49] (Task [] 0 [])
           (sample_request_packet [49])).
  reflexivity.
Defined.
