(* ===== verification/AgentSetup.v ===== *)
(** * Setting an agent up

    src/sdk/node/src/runtime.ts: the constructor of [Agent], [use], [job],
    [validateProductionStartup] and the startup handshake; middleware.ts,
    metrics.ts, logger.ts and bus.ts; and testing.ts, which builds an agent over
    a mock connection. *)

From Stdlib Require Import QArith.
From S2P Require Import Prelude JsString JsValue Errors Protos WireSchema ProductionSigning Validate Codec PacketBoundary WorkerTrustContract RuntimeTrustConfig WorkerTrustLifecycle RuntimeWorkerTrust ProductionAdmission Json BlobStore Effects Runtime Outbound.
#[local] Close Scope Q_scope.

(** ** The constructor *)

Definition DEFAULT_NATS_URL : jsstr := js "nats://127.0.0.1:4222".
Definition DEFAULT_REDIS_URL : jsstr := js "redis://127.0.0.1:6379/0".
Definition DEFAULT_TIMEOUT_MS : Z := 5000.
Definition DEFAULT_MAX_BYTES : Z := 2 * 1024 * 1024.

(** What the constructor sets; the options that are objects are left out. *)
Record agent_fields : Type := {
  af_natsUrl : jsval;
  af_redisUrl : jsval;
  af_senderId : jsval;
  af_defaultRetries : jsnum;
  af_ioTimeoutMs : jsval;
  af_maxContextBytes : option jsnum;
  af_maxResultBytes : option jsnum;
  af_heartbeatInterval : jsval;
  af_pool : jsval;
  af_maxParallel : jsnum;
  af_productionTrust : option trust_store
}.

Definition as_num (v : jsval) : jsnum := match v with JNum n => n | _ => NNaN end.

(** [v === undefined ? DEFAULT_MAX_BYTES : v > 0 ? v : undefined] *)
Definition byte_limit (v : jsval) : option jsnum :=
  if is_undefined v then Some (NInt DEFAULT_MAX_BYTES)
  else if num_ltb (NInt 0) (as_num v) then Some (as_num v) else None.

(** [environment] is [process.env]; [replayStore] says that one is given. *)
Definition new_Agent (environment options : jsval) (productionTrust : option trust_store) (replayStore : bool)
    : result agent_fields :=
  do! throw_if (xorb (isSome productionTrust) replayStore) PlainError
        (js "productionTrust and replayStore must be configured together") ;;
  Ok {| af_natsUrl := coalesce (get options "natsUrl") (coalesce (get environment "NATS_URL") (JStr DEFAULT_NATS_URL));
        af_redisUrl := coalesce (get options "redisUrl") (coalesce (get environment "REDIS_URL") (JStr DEFAULT_REDIS_URL));
        af_senderId := coalesce (get options "senderId") (JStr (js "cap-runtime"));
        af_defaultRetries := num_max (NInt 0) (as_num (coalesce (get options "retries") (JNum (NInt 0))));
        af_ioTimeoutMs := coalesce (get options "ioTimeoutMs") (JNum (NInt DEFAULT_TIMEOUT_MS));
        af_maxContextBytes := byte_limit (get options "maxContextBytes");
        af_maxResultBytes := byte_limit (get options "maxResultBytes");
        af_heartbeatInterval := coalesce (get options "heartbeatInterval") (JNum (NInt 5000));
        af_pool := coalesce (get options "pool") (JStr []);
        af_maxParallel := num_max (NInt 1) (as_num (coalesce (get options "maxParallel") (JNum (NInt 1))));
        af_productionTrust := snapshotProductionTrust productionTrust |}.

Definition productionEnabled (fields : agent_fields) (replayStore : bool) : bool :=
  isSome (af_productionTrust fields) && replayStore.

(** ** Handlers and middlewares *)

Section Register.
Context {U : Type}.

Definition Handler : Type := Context -> jsval -> user (U:=U) job_output.
Definition input_schema : Type := jsval -> user (U:=U) jsval.
Definition output_schema : Type := job_output -> user (U:=U) job_output.

Record JobRegistrationOptions : Type := {
  jo_inputSchema : option input_schema;
  jo_outputSchema : option output_schema;
  jo_retries : option jsnum
}.

Definition no_options : JobRegistrationOptions :=
  {| jo_inputSchema := None; jo_outputSchema := None; jo_retries := None |}.

(** The two ways to call [job]: with a handler, or with a schema. *)
Inductive job_arguments : Type :=
| HandlerFirst (handler : Handler) (options : option JobRegistrationOptions)
| SchemaFirst (schema : option input_schema) (handler : option Handler) (options : JobRegistrationOptions).

Definition handlers : Type := list (jsstr * HandlerSpec (U:=U)).

Definition job (defaultRetries : jsnum) (topic_name : jsstr) (args : job_arguments) (registered : handlers)
    : result handlers :=
  let '(schema, h, options) :=
    match args with
    | HandlerFirst h options => let o := default no_options options in (jo_inputSchema o, Some h, o)
    | SchemaFirst schema h options => (schema, h, options)
    end in
  match h with
  | None => throw PlainError (js "handler is required")
  | Some h =>
      Ok (assoc_set topic_name
            {| topic := topic_name; handler := h; inputSchema := schema; outputSchema := jo_outputSchema options;
               retries := match jo_retries options with None => defaultRetries | Some n => num_max (NInt 0) n end |}
            registered)
  end.

Definition use (mw middlewares : list (middleware (U:=U))) : list (middleware (U:=U)) := middlewares ++ mw.

(** ** middleware.ts *)

(** [Date.now] reads the state of user code, and the logger acts on it. *)
Context (clock : U -> Z) (info : jsstr -> user (U:=U) unit).

Definition log_text (ctx : Context) (elapsed : Z) (outcome : jsstr) : jsstr :=
  js "middleware: job=" ++ to_text (cx_jobId ctx) ++ js " topic=" ++
  to_text (coalesce (get (cx_job ctx) "topic") (JStr (js "?"))) ++
  js " duration=" ++ decimal_text elapsed ++ js "ms " ++ outcome.

(** A logger that throws after the handler has returned is caught with it. *)
Definition loggingMiddleware : middleware (U:=U) := fun ctx next u =>
  let start := clock u in
  let tried :=
    match next u with
    | (Ok result, u1) =>
        let '(logged, u2) := info (log_text ctx (clock u1 - start) (js "ok")) u1 in
        (do! logged ;; Ok result, u2)
    | r => r
    end in
  match tried with
  | (Throw e, u1) =>
      let '(logged, u2) := info (log_text ctx (clock u1 - start) (js "error=" ++ describe e)) u1 in
      (do! logged ;; Throw e, u2)
  | r => r
  end.

(** ** metrics.ts *)

Definition noopMetrics : event -> user (U:=U) unit := fun _ u => (Ok tt, u).

(** With a logger that does not throw, logging leaves what the handler returns
    or throws as it is. *)
Lemma logging_transparent ctx next u :
  (forall line u, (info line u).1 = Ok tt) -> (loggingMiddleware ctx next u).1 = (next u).1.
Proof.
  intros Hi. unfold loggingMiddleware. destruct (next u) as [[r|e|] u1]; [| |done].
  all: match goal with |- context [info ?line ?v] => specialize (Hi line v); destruct (info line v) as [logged u2] end;
    cbn in Hi; by subst.
Qed.

(** Middlewares run in the order of their registration: one that is registered
    later is inside. *)
Lemma use_inside mw outer ctx terminal :
  chain (use [mw] outer) ctx terminal = chain outer ctx (mw ctx terminal).
Proof. unfold chain, use. apply fold_right_app. Qed.

(** [Math.max(0, n)] is not negative, or not a number. *)
Lemma max_zero n : num_ltb (num_max (NInt 0) n) (NInt 0) = false.
Proof.
  destruct n as [z|q|[]|]; try done; unfold num_max; destruct (num_ltb (NInt 0) _) eqn:E; try done; cbn in E |- *.
  - apply Z.ltb_ge. apply Z.ltb_lt in E. lia.
  - apply negb_false_iff, Qle_bool_iff, Qlt_le_weak, Qnot_le_lt. intros H.
    apply Qle_bool_iff in H. by rewrite H in E.
Qed.

(** A registered handler is found under its topic, with a count of retries that
    is not negative. *)
Lemma job_registers d topic_name args registered registered' :
  num_ltb d (NInt 0) = false -> job d topic_name args registered = Ok registered' ->
  exists spec, assoc topic_name registered' = Some spec /\ topic spec = topic_name /\
               num_ltb (retries spec) (NInt 0) = false.
Proof.
  intros Hd. unfold job. destruct (match args with HandlerFirst _ _ => _ | SchemaFirst _ _ _ => _ end) as [[schema h] o].
  destruct h as [h|]; [|done]. intros [= <-]. eexists. split; [apply assoc_set_eq|]. split; [done|].
  cbn. destruct (jo_retries o); [apply max_zero | done].
Qed.
End Register.

(** ** Start-up *)

Section StartUp.
Context {K : key_api}.

Definition validateProductionStartup (fields : agent_fields) (replayStore : bool) (trust : option (RuntimeWorkerTrust K))
    : result unit :=
  match af_productionTrust fields with
  | Some production =>
      if replayStore then
        match trust with
        | Some st =>
            do! throw_if (negb (enforcing st) || negb (isSome (st_config (rw_settings st)))) PlainError
                  (js "CAP-PRODUCTION requires worker trust ENFORCE") ;;
            let! _ := productionTrustForAudience production (st_config (rw_settings st)) (audience production) in
            Ok tt
        | None => throw PlainError (js "CAP-PRODUCTION requires worker trust ENFORCE")
        end
      else Ok tt
  | None => Ok tt
  end.

(** protobufjs, the signature with a PEM key, and the outcome of
    [nc.publish]. *)
Context (fromObject : jsval -> result jsval) (packetType : codec_type) (sign_pem : jsstr -> bytes -> result bytes)
        (publish : publication -> result unit).

Definition advertised (trust : option (RuntimeWorkerTrust K)) (readyTopics : list jsstr) : list (jsstr * jsval) :=
  match trust with
  | Some st =>
      if enabled st then own_entries (coalesce (get (rw_capability st) "capabilities") (JPlain []))
      else enumerate (map (fun topic => (topic, JBool true)) readyTopics)
  | None => enumerate (map (fun topic => (topic, JBool true)) readyTopics)
  end.

(** The handshake of the [try] block: what is published. *)
Definition startup_handshake (topics : list jsstr) (trust : option (RuntimeWorkerTrust K)) (senderId : jsstr)
    (privateKey : option jsstr) (uuid : jsstr) (now : Z) : result publication * option (RuntimeWorkerTrust K) :=
  let readyTopics := sort_keys topics in
  let sdk := match trust with
             | Some st => coalesce (get (rw_capability st) "sdkVersion") (JStr (js "cap-node/v2"))
             | None => JStr (js "cap-node/v2")
             end in
  let '(token, trust') := match trust with
                          | Some st => let '(t, st') := outboundSessionToken now st in (t, Some st')
                          | None => (Ok (JStr []), None)
                          end in
  (let! token := token in
   let! packet := handshakePayload fromObject senderId (advertised trust readyTopics) senderId readyTopics senderId
                    (text_of sdk) (text_of token) uuid now in
   let! p := publishHandshake packetType sign_pem packet privateKey in
   do! publish p ;;
   Ok p, trust').

(** [None]: the handshake failed and only a warning is logged. *)
Definition publishStartupHandshake (nc : bool) (topics : list jsstr) (trust : option (RuntimeWorkerTrust K))
    (senderId : jsstr) (privateKey : option jsstr) (uuid : jsstr) (now : Z)
    : result (option publication) * option (RuntimeWorkerTrust K) :=
  if negb nc then (throw PlainError (js "NATS not initialized"), trust)
  else
    let '(tried, trust') := startup_handshake topics trust senderId privateKey uuid now in
    (match tried with
     | Ok p => Ok (Some p)
     | Throw e => if match trust' with Some st => enabled st | None => false end then Throw e else Ok None
     | NoFuel => NoFuel
     end, trust').

(** An agent that handles production packets starts only under enforced worker
    trust, with its production authority bound to the session's tenant and
    scheduler. *)
Lemma production_startup options environment production fields trust :
  new_Agent environment options (Some production) true = Ok fields ->
  validateProductionStartup fields true trust = Ok tt ->
  exists st config, trust = Some st /\ enforcing st = true /\ st_config (rw_settings st) = Some config /\
    tenant production = tenantId config /\ sender production = expectedSchedulerId config.
Proof.
  intros [_ [= <-]]%do_Ok_iff. unfold validateProductionStartup. cbn.
  destruct trust as [st|]; [|done]. intros [Hg Ht]%do_Ok_iff. apply throw_if_Ok_iff in Hg.
  apply orb_false_iff in Hg as [He%negb_false_iff Hc%negb_false_iff].
  destruct (st_config (rw_settings st)) as [config|] eqn:Hs; [|done]. exists st, config.
  apply bind_Ok_iff in Ht as (t & Ht%productionTrustForAudience_iff & _).
  destruct (bt_config _ _ _ _ Ht config eq_refl) as (_ & _ & _ & Et & Es). done.
Qed.

(** Without worker trust a handshake that fails does not stop the agent. *)
Lemma handshake_optional topics trust senderId privateKey uuid now e :
  match trust with Some st => enabled st | None => false end = false ->
  (publishStartupHandshake true topics trust senderId privateKey uuid now).1 <> Throw e.
Proof.
  unfold publishStartupHandshake, startup_handshake. cbn [negb]. destruct trust as [st|]; intros He.
  - destruct (outboundSessionToken now st) as [token st'] eqn:Ho.
    assert (enabled st' = false) as Hs.
    { unfold outboundSessionToken, trust_sessionToken in Ho. unfold enabled in *.
      repeat case_match; simplify_eq/=; done. }
    cbn [fst]. rewrite Hs. by match goal with |- context [match ?m with Ok _ => _ | _ => _ end] => destruct m end.
  - cbn [fst]. by match goal with |- context [match ?m with Ok _ => _ | _ => _ end] => destruct m end.
Qed.
End StartUp.

(** ** testing.ts *)

(** The keys of [{ ...defaults, ...options }]. *)
Definition spread (defaults : list (jsstr * jsval)) (options : jsval) : jsval :=
  JPlain (merge_fields defaults (own_entries options)).

Section Testing.
(** The callback of a subscription. *)
Context {callback : Type}.

Record MockNatsConnection : Type := {
  published : list publication;
  subscriptions : list (jsstr * callback)
}.

Definition new_bus : MockNatsConnection := {| published := []; subscriptions := [] |}.

Definition mock_publish (subject : jsstr) (data : bytes) (bus : MockNatsConnection) : MockNatsConnection :=
  {| published := published bus ++ [{| pb_subject := subject; pb_data := data |}]; subscriptions := subscriptions bus |}.

Definition mock_subscribe (subject : jsstr) (f : option callback) (bus : MockNatsConnection) : MockNatsConnection :=
  match f with
  | Some f => {| published := published bus; subscriptions := assoc_set subject f (subscriptions bus) |}
  | None => bus
  end.

(** The callback that is called, and the message it is called with. *)
Definition deliver (subject : jsstr) (data : bytes) (bus : MockNatsConnection) : result (callback * publication) :=
  match assoc subject (subscriptions bus) with
  | Some f => Ok (f, {| pb_subject := subject; pb_data := data |})
  | None => throw PlainError (js "no callback subscription found for subject " ++ subject)
  end.

(** [waitForPublish]: [now] is the clock and [count] the length of [published]
    at each turn of the loop. *)
Fixpoint wait_loop (fuel : nat) (now : nat -> Z) (count : nat -> Z) (turn : nat) (start timeoutMs initialCount : Z)
    : result unit :=
  match fuel with
  | O => NoFuel
  | S fuel =>
      if negb (now turn - start <? timeoutMs) then throw PlainError (js "timeout waiting for handler to publish result")
      else if initialCount <? count turn then Ok tt
      else wait_loop fuel now count (S turn) start timeoutMs initialCount
  end.

Definition waitForPublish (fuel : nat) (now count : nat -> Z) (initialCount timeoutMs : Z) : result unit :=
  wait_loop fuel now count 0 (now 0%nat) timeoutMs initialCount.

Lemma deliver_subscribed subject f data bus :
  deliver subject data (mock_subscribe subject (Some f) bus) = Ok (f, {| pb_subject := subject; pb_data := data |}).
Proof. unfold deliver. cbn. by rewrite assoc_set_eq. Qed.

(** Each turn sleeps five milliseconds, so the wait ends, within a fifth of the
    timeout in turns and one more. *)
Lemma waitForPublish_ends now count initialCount timeoutMs :
  (forall n, now n + 5 <= now (S n)) -> 0 <= timeoutMs ->
  waitForPublish (S (Z.to_nat (timeoutMs / 5 + 1))) now count initialCount timeoutMs <> NoFuel.
Proof.
  intros Hn Ht. unfold waitForPublish.
  assert (forall fuel turn, now 0%nat + timeoutMs <= now turn + 5 * Z.of_nat fuel ->
            wait_loop (S fuel) now count turn (now 0%nat) timeoutMs initialCount <> NoFuel) as Hl.
  { induction fuel as [|fuel IH]; intros turn Hf; cbn -[Z.of_nat];
      (destruct (Z.ltb_spec (now turn - now 0%nat) timeoutMs); [|done]); [lia|].
    cbn -[wait_loop]. destruct (initialCount <? count turn); [done|]. apply IH. specialize (Hn turn). lia. }
  apply Hl. pose proof (Z.mod_pos_bound timeoutMs 5). pose proof (Z.div_mod timeoutMs 5). lia.
Qed.
End Testing.

(** The options [createTestAgent] gives to the constructor; the store and the
    connection are objects. *)
Definition test_options (options : jsval) : jsval :=
  spread [(js "senderId", coalesce (get options "senderId") (JStr (js "test-worker")));
          (js "retries", coalesce (get options "retries") (JNum (NInt 0)))] options.

(** The two agents a test can be written with have different senders: the
    options of [testHandler] always have the property [senderId], and the spread
    puts its [undefined] over the default. *)
Example test_senders :
  (let sender o := let! f := new_Agent (JPlain []) (test_options o) None false in Ok (af_senderId f) in
   (sender (JPlain []), sender (JPlain [(js "senderId", JUndef); (js "retries", JUndef)])))
  = (Ok (JStr (js "test-worker")), Ok (JStr (js "cap-runtime"))).
Proof. reflexivity. Qed.

(** The job request that [testHandler] delivers, as the argument of
    [fromObject]. *)
Definition test_packet (jobId topic : jsstr) (now : Z) : jsval :=
  JPlain [(js "traceId", JStr (js "test-trace")); (js "senderId", JStr (js "test-client"));
          (js "protocolVersion", JNum (NInt DEFAULT_PROTOCOL_VERSION));
          (js "createdAt", JPlain [(js "seconds", JNum (num_floor (num_div (NInt now) 1000))); (js "nanos", JNum (NInt 0))]);
          (js "jobRequest", JPlain [(js "jobId", JStr jobId); (js "topic", JStr topic);
                                    (js "contextPtr", JStr (js "redis://ctx:" ++ jobId))])].

(** What [testHandler] returns of the decoded result packet. *)
Definition test_view (resultPacket : jsval) : result jsval :=
  let jr := get resultPacket "jobResult" in
  if negb (truthy jr) then throw PlainError (js "worker did not publish a JobResult")
  else Ok (JPlain [(js "status", get jr "status"); (js "jobId", get jr "jobId");
                   (js "resultPtr", coalesce (get jr "resultPtr") (JStr []));
                   (js "errorMessage", coalesce (get jr "errorMessage") (JStr []));
                   (js "workerId", coalesce (get jr "workerId") (JStr []))]).

(** The delivered request points at the key the input was stored under. *)
Lemma test_packet_context jobId topic now :
  get (get (test_packet jobId topic now) "jobRequest") "contextPtr" = JStr (pointerForKey (js "ctx:" ++ jobId)).
Proof. unfold pointerForKey. by rewrite (assoc_L (++)). Qed.

(** ** bus.ts *)

Definition connectNATS (cfg : jsval) : jsval :=
  JPlain [(js "servers", get cfg "url"); (js "token", get cfg "token"); (js "user", get cfg "user");
          (js "pass", get cfg "pass"); (js "name", coalesce (get cfg "name") (JStr (js "cap-sdk-node")))].

(** ** logger.ts *)

(** The line that [defaultLogger] writes; [ts] is the ISO text of the clock.
    The fields of the caller may replace the level and the message. *)
Definition log_line (level msg : jsstr) (fields : list (jsstr * jsval)) (ts : jsstr) : option jsstr :=
  JSON_stringify (JPlain (assoc_set (js "ts") (JStr ts)
    (merge_fields [(js "level", JStr level); (js "msg", JStr msg)] fields))).
