(* ===== verification/PbRuntime.v ===== *)
(** * The protobufjs runtime

    protobufjs/minimal as src/node/cap_pb.js uses it: the writer and the reader
    of scalars, [$util] and the recursion limits.  The library is a parameter;
    [PbLaws] is what its documentation promises of it. *)

From S2P Require Import Prelude JsString JsValue Protos Varint.

(** The scalar types, by the methods of [Writer] and [Reader]. *)
Inductive scalar : Set :=
| TString | TBytes | TBool | TInt32 | TUint32 | TInt64 | TUint64 | TFloat | TDouble.

#[global] Instance scalar_eq_dec : EqDecision scalar.
Proof. solve_decision. Defined.

(** The wire type of a scalar. *)
Definition wire_type (k : scalar) : Z :=
  match k with
  | TString | TBytes => 2
  | TBool | TInt32 | TUint32 | TInt64 | TUint64 => 0
  | TFloat => 5
  | TDouble => 1
  end.

(** [IConversionOptions], the options of [toObject].  The values of the model
    include no BigInt, so [longs] is [String], [Number] or not set. *)
Inductive longs_option : Set := LongsAsIs | LongsString | LongsNumber.
Inductive bytes_option : Set := BytesAsIs | BytesString | BytesArray.

Record to_options : Set := {
  op_longs : longs_option;
  op_bytes : bytes_option;
  op_enums : bool;  (** [enums === String] *)
  op_defaults : bool;
  op_arrays : bool;
  op_objects : bool;
  op_oneofs : bool;
  op_json : bool
}.

(** [rt_write k v] is what the method appends to the buffer; a read starts at a
    position and returns the position after it. *)
Record pb_runtime : Type := {
  rt_write : scalar -> jsval -> result bytes;
  rt_uint32 : Z -> bytes;
  rt_read : scalar -> bytes -> Z -> result (jsval * Z);
  rt_read_uint32 : bytes -> Z -> result (Z * Z);
  rt_skipType : bytes -> Z -> Z -> Z -> result Z;
  (** The numbers that four or eight bytes hold exactly. *)
  rt_exact : scalar -> jsnum -> bool;
  rt_isString : jsval -> bool;
  rt_isInteger : jsval -> bool;
  rt_isObject : jsval -> bool;
  (** [$util.oneOfSetter(fields)]: assigns the name of a member. *)
  rt_oneOfSetter : list jsstr -> jsval -> list (jsstr * jsval) -> list (jsstr * jsval);
  (** [$util.Long], when long.js is installed: [fromValue(v, unsigned)]. *)
  rt_Long : option (jsval -> bool -> jsval);
  (** [new $util.LongBits(lo, hi).toNumber(unsigned)] *)
  rt_longBits : Z -> Z -> bool -> jsnum;
  (** [$util.Long.prototype.toString.call(v)] *)
  rt_longToString : jsval -> jsstr;
  rt_base64_decode : jsstr -> result bytes;
  rt_base64_encode : jsval -> jsstr;
  (** [$protobuf.util.toJSONOptions] *)
  rt_toJSONOptions : to_options;
  (** [$util.recursionLimit] and [$Reader.recursionLimit]. *)
  rt_recursionLimit : Z;
  rt_readLimit : Z
}.

(** ** Values a reader returns *)

Definition has_long (rt : pb_runtime) : bool := match rt_Long rt with Some _ => true | None => false end.

Definition scalar_ok (rt : pb_runtime) (k : scalar) (v : jsval) : Prop :=
  match k, v with
  | TString, JStr s => text_ok s /\ zlen s < 2 ^ 30
  | TBytes, JBytes b => Forall is_byte b /\ zlen b < 2 ^ 32
  | TBool, JBool _ => True
  | TInt32, JNum (NInt z) => - 2 ^ 31 <= z < 2 ^ 31
  | TUint32, JNum (NInt z) => 0 <= z < 2 ^ 32
  | TInt64, JLong z => has_long rt = true /\ - 2 ^ 63 <= z < 2 ^ 63
  | TUint64, JLong z => has_long rt = true /\ 0 <= z < 2 ^ 64
  | TInt64, JNum (NInt z) => has_long rt = false /\ Z.abs z <= 2 ^ 53
  | TUint64, JNum (NInt z) => has_long rt = false /\ 0 <= z <= 2 ^ 53
  | TFloat, JNum n | TDouble, JNum n => rt_exact rt k n = true
  | _, _ => False
  end.

(** ** What the library promises *)

Class PbLaws (rt : pb_runtime) : Prop := {
  (** A reader reads back what the writer of its type wrote. *)
  write_read k v : scalar_ok rt k v ->
    exists bs, rt_write rt k v = Ok bs /\ bs <> [] /\
      forall pre post, rt_read rt k (pre ++ bs ++ post) (zlen pre) = Ok (v, zlen pre + zlen bs);
  (** A value on the wire has the form of its wire type. *)
  write_shape k v bs : scalar_ok rt k v -> rt_write rt k v = Ok bs ->
    match wire_type k with
    | 0 => exists z, 0 <= z < 2 ^ 64 /\ bs = encodeVarint z
    | 1 => zlen bs = 8
    | 5 => zlen bs = 4
    | _ => exists p, bs = encodeVarint (zlen p) ++ p
    end;
  write_ends k v : rt_write rt k v <> NoFuel;
  uint32_varint z : 0 <= z < 2 ^ 32 -> rt_uint32 rt z = encodeVarint z;
  read_uint32_varint pre z post : 0 <= z < 2 ^ 32 ->
    rt_read_uint32 rt (pre ++ encodeVarint z ++ post) (zlen pre) = Ok (z, zlen pre + zlen (encodeVarint z));
  (** Reads move forward inside the buffer and end. *)
  read_uint32_forward data pos v pos' : rt_read_uint32 rt data pos = Ok (v, pos') ->
    0 <= v < 2 ^ 32 /\ pos < pos' <= zlen data;
  read_uint32_ends data pos : rt_read_uint32 rt data pos <> NoFuel;
  read_forward k data pos v pos' : rt_read rt k data pos = Ok (v, pos') -> pos < pos' <= zlen data;
  read_ends k data pos : rt_read rt k data pos <> NoFuel;
  skipType_forward data pos w d pos' : rt_skipType rt data pos w d = Ok pos' -> pos <= pos' <= zlen data;
  skipType_ends data pos w d : rt_skipType rt data pos w d <> NoFuel;
  isString_spec v : rt_isString rt v = is_string v;
  isInteger_spec v : rt_isInteger rt v = match v with JNum n => is_integer n | _ => false end;
  isObject_spec v : rt_isObject rt v = is_object v;
  (** [Long.fromValue] of a Long and of its text. *)
  Long_value f (u : bool) z : rt_Long rt = Some f -> (if u then 0 <= z < 2 ^ 64 else - 2 ^ 63 <= z < 2 ^ 63) ->
    f (JLong z) u = JLong z /\ f (JStr (rt_longToString rt (JLong z))) u = JLong z;
  base64_roundtrip b : Forall is_byte b -> rt_base64_decode rt (rt_base64_encode rt (JBytes b)) = Ok b;
  base64_ends s : rt_base64_decode rt s <> NoFuel;
  limits_pos : 0 <= rt_recursionLimit rt /\ 0 <= rt_readLimit rt
}.
