(* ===== verification/StaticCode.v ===== *)
(** * The statements of generated message classes

    src/node/cap_pb.js is written by protobufjs from the .proto files.  The
    bodies of its functions are sequences of statements of a few forms, one
    statement per field.  Here are the forms of the constructor, of [encode] and
    of [decode] with their meaning, for any module of such classes; the classes
    of cap_pb.js are in CapPbClasses.v and CapPbCodec.v.  JobMetadata has most of
    the forms, Handshake a packed list and Struct a map of messages.  Writer and
    reader are those of PbRuntime.v. *)

From S2P Require Import Prelude JsString JsValue Varint Codec PbRuntime.

(** ** Forms *)

Section Forms.
(** The classes of the module. *)
Context {class : Type}.

(** Statements of [encode]; [tag] is the number written before the value. *)
Inductive enc_stmt : Type :=
(** [if (message.k != null && hasOwn) writer.uint32(tag).t(message.k);] *)
| Put (k : string) (tag : Z) (t : scalar)
(** [if (.. hasOwn) C.encode(message.k, writer.uint32(tag).fork(), q + 1).ldelim();] *)
| PutMessage (k : string) (tag : Z) (c : class)
(** [if (message.k != null && message.k.length) for (..) writer.uint32(tag).t(message.k[i]);] *)
| PutEach (k : string) (tag : Z) (t : scalar)
| PutEachMessage (k : string) (tag : Z) (c : class)
(** [.. { writer.uint32(tag).fork(); for (..) writer.t(message.k[i]); writer.ldelim(); }] *)
| PutPacked (k : string) (tag : Z) (t : scalar)
(** [for (keys) writer.uint32(tag).fork().uint32(ktag).string(key).uint32(vtag).t(value).ldelim();] *)
| PutMap (k : string) (tag ktag vtag : Z) (t : scalar)
| PutMapMessage (k : string) (tag ktag vtag : Z) (c : class).

(** The cases of the switch of [decode]. *)
Inductive dec_case : Type :=
(** [message.k = reader.t();] *)
| Read (k : string) (t : scalar)
(** [message.k = C.decode(reader, reader.uint32(), undefined, long + 1);] *)
| ReadMessage (k : string) (c : class)
(** [if (!(message.k && message.k.length)) message.k = []; message.k.push(reader.t());] *)
| Push (k : string) (t : scalar)
| PushMessage (k : string) (c : class)
(** [.. if ((tag & 7) === 2) { a loop of pushes } else message.k.push(reader.t());] *)
| PushPacked (k : string) (t : scalar)
(** The loop over the two fields of an entry; [v] is the value without one. *)
| ReadEntry (k : string) (v : jsval) (t : scalar)
| ReadEntryMessage (k : string) (v : jsval) (c : class).

(** A module: the name of each class, what its constructor assigns, its
    prototype (with or without [$util.Long]), the virtual oneofs with their
    members, [encode] and [decode]. *)
Record static_module : Type := {
  sm_name : class -> string;
  sm_init : class -> list (string * jsval);
  sm_prototype : class -> bool -> list (string * jsval);
  sm_oneofs : class -> list (string * list string);
  sm_encode : class -> list enc_stmt;
  sm_decode : class -> list (Z * dec_case)
}.
End Forms.
Arguments enc_stmt : clear implicits.
Arguments dec_case : clear implicits.
Arguments static_module : clear implicits.

Section Meaning.
Context {class : Type} (P : static_module class) (rt : pb_runtime).

(** ** The constructor *)

Definition named (l : list (string * jsval)) : list (jsstr * jsval) := map (fun p => (js p.1, p.2)) l.

(** The prototype; [constructor] stands for the identity of the class. *)
Definition prototype (c : class) : list (jsstr * jsval) :=
  (js "constructor", JStr (js (sm_name P c))) :: named (sm_prototype P c (has_long rt)).

Definition instance_of (c : class) (v : jsval) : bool :=
  match v with
  | JObj _ inh => match assoc (js "constructor") inh with
                  | Some name => strict_eq name (JStr (js (sm_name P c)))
                  | None => false
                  end
  | _ => false
  end.

(** [this[k] = v]: a oneof is an accessor of the prototype. *)
Definition assign (c : class) (own : list (jsstr * jsval)) (p : jsstr * jsval) : list (jsstr * jsval) :=
  match List.find (fun o => bool_decide (js o.1 = p.1)) (sm_oneofs P c) with
  | Some o => rt_oneOfSetter rt (map js o.2) p.2 own
  | None => assoc_set p.1 p.2 own
  end.

(** [new C(properties)], [C.create(properties)] *)
Definition construct (c : class) (properties : jsval) : jsval :=
  JObj (fold_left (fun own p => if nullish p.2 || bool_decide (p.1 = js "__proto__") then own else assign c own p)
          (if truthy properties then enumerate (own_entries properties) else []) (named (sm_init P c)))
       (prototype c).

Definition new (c : class) : jsval := JObj (named (sm_init P c)) (prototype c).

(** ** Encoding *)

(** [message.k != null && Object.hasOwnProperty.call(message, "k")] *)
Definition own_value (message : jsval) (k : string) : option jsval :=
  match assoc (js k) (own_entries message) with
  | Some v => if nullish v then None else Some v
  | None => None
  end.

(** The elements that a loop to [v.length] visits, when there are any. *)
Definition elements (v : jsval) : list jsval :=
  match v with
  | JArr l => l
  | JBytes b => map (fun x => JNum (NInt x)) b
  | JStr s => map (fun c => JStr [c]) s
  | _ => []
  end.

(** [writer.uint32(tag).fork()], the content and [ldelim()] *)
Definition delimited (content : bytes) : bytes := rt_uint32 rt (zlen content) ++ content.

Fixpoint concat_results {A} (f : A -> result bytes) (l : list A) : result bytes :=
  match l with
  | [] => Ok []
  | x :: l' => let! b := f x in let! bs := concat_results f l' in Ok (b ++ bs)
  end.

Section Statements.
(** [C.encode(v, .., q + 1)] *)
Context (sub : class -> jsval -> result bytes).

Definition put_entry (tag ktag vtag : Z) (value : jsval -> result bytes) (p : jsstr * jsval) : result bytes :=
  let! kb := rt_write rt TString (JStr p.1) in
  let! vb := value p.2 in
  Ok (rt_uint32 rt tag ++ delimited (rt_uint32 rt ktag ++ kb ++ rt_uint32 rt vtag ++ vb)).

Definition put_scalar (tag : Z) (t : scalar) (v : jsval) : result bytes :=
  let! b := rt_write rt t v in Ok (rt_uint32 rt tag ++ b).

Definition put_message (tag : Z) (c : class) (v : jsval) : result bytes :=
  let! b := sub c v in Ok (rt_uint32 rt tag ++ delimited b).

Definition run_enc (message : jsval) (s : enc_stmt class) : result bytes :=
  let own k body := match own_value message k with Some v => body v | None => Ok [] end in
  match s with
  | Put k tag t => own k (put_scalar tag t)
  | PutMessage k tag c => own k (put_message tag c)
  | PutEach k tag t => concat_results (put_scalar tag t) (elements (get message k))
  | PutEachMessage k tag c => concat_results (put_message tag c) (elements (get message k))
  | PutPacked k tag t =>
      match elements (get message k) with
      | [] => Ok []
      | l => let! b := concat_results (rt_write rt t) l in Ok (rt_uint32 rt tag ++ delimited b)
      end
  | PutMap k tag ktag vtag t =>
      own k (fun v => concat_results (put_entry tag ktag vtag (rt_write rt t)) (enumerate (own_entries v)))
  | PutMapMessage k tag ktag vtag c =>
      own k (fun v => concat_results
        (put_entry tag ktag vtag (fun m => let! b := sub c m in Ok (delimited b))) (enumerate (own_entries v)))
  end.
End Statements.

Definition is_nil {A} (l : list A) : bool := match l with [] => true | _ => false end.

(** [C.encode(message, writer, q)]: the bytes it appends.  The depth [q] is
    limited, so the fuel that [encode] gives is never used up. *)
Fixpoint encode_at (fuel : nat) (c : class) (message : jsval) (q : Z) : result bytes :=
  match fuel with
  | O => NoFuel
  | S fuel =>
      if rt_recursionLimit rt <? q then throw PlainError (js "max depth exceeded")
      else if nullish message && negb (is_nil (sm_encode P c))
      then throw TypeError (js "Cannot read properties of " ++ to_text message)
      else concat_results (run_enc (fun c v => encode_at fuel c v (q + 1)) message) (sm_encode P c)
  end.

Definition encode (c : class) (message : jsval) : result bytes :=
  encode_at (Z.to_nat (rt_recursionLimit rt + 2)) c message 0.

(** ** Decoding *)

(** [message.k.push(v)], where the constructor has made an array. *)
Definition push (k : string) (v message : jsval) : jsval :=
  set k (match get message k with JArr l => JArr (l ++ [v]) | _ => JArr [v] end) message.

(** [message.k[key] = v]; [makeProp] makes also [__proto__] an own property. *)
Definition set_entry (k : string) (key : jsstr) (v message : jsval) : jsval :=
  set k (match get message k with JObj own inh => JObj (assoc_set key v own) inh | _ => JPlain [(key, v)] end) message.

(** [while (reader.pos < end) message.k.push(reader.t())] *)
Fixpoint read_packed (fuel : nat) (data : bytes) (pos end_ : Z) (k : string) (t : scalar) (message : jsval)
    : result (jsval * Z) :=
  match fuel with
  | O => NoFuel
  | S fuel =>
      if negb (pos <? end_) then Ok (message, pos)
      else let! r := rt_read rt t data pos in read_packed fuel data r.2 end_ k t (push k r.1 message)
  end.

(** The loop over a map entry: key, value and the position after it. *)
Fixpoint read_entry (fuel : nat) (data : bytes) (pos end_ long : Z) (read_value : Z -> result (jsval * Z))
    (key : jsval) (value : jsval) : result (jsval * jsval * Z) :=
  match fuel with
  | O => NoFuel
  | S fuel =>
      if negb (pos <? end_) then Ok (key, value, pos)
      else
        let! t := rt_read_uint32 rt data pos in
        let number := Z.shiftr t.1 3 in
        if number =? 1 then
          let! r := rt_read rt TString data t.2 in read_entry fuel data r.2 end_ long read_value r.1 value
        else if number =? 2 then
          let! r := read_value t.2 in read_entry fuel data r.2 end_ long read_value key r.1
        else
          let! p := rt_skipType rt data t.2 (Z.land t.1 7) long in read_entry fuel data p end_ long read_value key value
  end.

Section Cases.
(** [C.decode(reader, length, undefined, long + 1)] at a position. *)
Context (fuel : nat) (data : bytes) (long : Z) (sub : class -> Z -> Z -> result (jsval * Z)).

(** [C.decode(reader, reader.uint32(), undefined, long + 1)] *)
Definition read_message (c : class) (pos : Z) : result (jsval * Z) :=
  let! length := rt_read_uint32 rt data pos in sub c length.2 (length.2 + length.1).

Definition read_map (k : string) (v : jsval) (read_value : Z -> result (jsval * Z)) (pos : Z) (message : jsval)
    : result (jsval * Z) :=
  let! length := rt_read_uint32 rt data pos in
  let! e := read_entry fuel data length.2 (length.1 + length.2) long read_value (JStr []) v in
  Ok (set_entry k (match e.1.1 with JStr s => s | x => to_text x end) e.1.2 message, e.2).

(** One case of the switch. *)
Definition run_dec (tag pos : Z) (message : jsval) (d : dec_case class) : result (jsval * Z) :=
  match d with
  | Read k t => let! r := rt_read rt t data pos in Ok (set k r.1 message, r.2)
  | ReadMessage k c => let! r := read_message c pos in Ok (set k r.1 message, r.2)
  | Push k t => let! r := rt_read rt t data pos in Ok (push k r.1 message, r.2)
  | PushMessage k c => let! r := read_message c pos in Ok (push k r.1 message, r.2)
  | PushPacked k t =>
      if Z.land tag 7 =? 2 then
        let! length := rt_read_uint32 rt data pos in
        read_packed fuel data length.2 (length.1 + length.2) k t message
      else let! r := rt_read rt t data pos in Ok (push k r.1 message, r.2)
  | ReadEntry k v t => read_map k v (rt_read rt t data) pos message
  | ReadEntryMessage k v c => read_map k v (read_message c) pos message
  end.
End Cases.

Definition find_case (c : class) (number : Z) : option (dec_case class) :=
  snd <$> List.find (fun p => p.1 =? number) (sm_decode P c).

(** The loop of [C.decode(reader, length, error, long)], from a position to
    [end]: the message and the position after it. *)
Fixpoint decode_loop (fuel : nat) (c : class) (data : bytes) (pos end_ : Z) (error : option Z) (long : Z)
    (message : jsval) : result (jsval * Z) :=
  match fuel with
  | O => NoFuel
  | S fuel =>
      if negb (pos <? end_) then Ok (message, pos)
      else
        let! t := rt_read_uint32 rt data pos in
        if bool_decide (error = Some t.1) then Ok (message, t.2)
        else
          let! r := match find_case c (Z.shiftr t.1 3) with
                    | Some d =>
                        run_dec fuel data long (fun c' pos' end' =>
                          if rt_readLimit rt <? long + 1 then throw PlainError (js "maximum nesting depth exceeded")
                          else decode_loop fuel c' data pos' end' None (long + 1) (new c')) t.1 t.2 message d
                    | None => let! p := rt_skipType rt data t.2 (Z.land t.1 7) long in Ok (message, p)
                    end in
          decode_loop fuel c data r.2 end_ error long r.1
  end.

(** [C.decode(data)] and [C.decodeDelimited(data)]; each turn of a loop reads at
    least one byte. *)
Definition decode (c : class) (data : bytes) : result jsval :=
  if rt_readLimit rt <? 0 then throw PlainError (js "maximum nesting depth exceeded")
  else let! r := decode_loop (S (length data)) c data 0 (zlen data) None 0 (new c) in Ok r.1.

Definition decodeDelimited (c : class) (data : bytes) : result jsval :=
  let! length := rt_read_uint32 rt data 0 in
  if rt_readLimit rt <? 0 then throw PlainError (js "maximum nesting depth exceeded")
  else let! r := decode_loop (S (List.length data)) c data length.2 (length.2 + length.1) None 0 (new c) in Ok r.1.

(** [C.encodeDelimited(message)] with a new writer. *)
Definition encodeDelimited (c : class) (message : jsval) : result bytes :=
  let! b := encode c message in Ok (delimited b).

(** [C.getTypeUrl(prefix)] *)
Definition getTypeUrl (c : class) (typeUrlPrefix : option jsstr) : jsstr :=
  default (js "type.googleapis.com") typeUrlPrefix ++ js "/" ++ js (sm_name P c).
End Meaning.
