(* ===== verification/StaticWire.v ===== *)
(** * Generated message classes: the wire

    What [encode] and [decode] of StaticCode.v do to each other.  A document is
    the list of the fields a message has on the wire.  [encode] writes the
    document of the message, [decode] builds a message from a document, and the
    message it builds agrees with the one that was encoded.  The tables of a
    module have to match; [tables_ok] is the check. *)

From S2P Require Import Prelude JsString JsValue Varint Codec PbRuntime StaticCode.

(** ** Documents *)

Inductive content : Type :=
| CScalar (t : scalar) (v : jsval)
| CPacked (t : scalar) (vs : list jsval)
| CSub (doc : list (Z * content)).

Definition document : Type := list (Z * content).

Definition wire_of (x : content) : Z := match x with CScalar t _ => wire_type t | _ => 2 end.
Definition tag_of (p : Z * content) : Z := 8 * p.1 + wire_of p.2.

Section Emit.
Context (rt : pb_runtime).

Definition scalar_bytes (t : scalar) (v : jsval) : bytes :=
  match rt_write rt t v with Ok b => b | _ => [] end.

Definition with_length (b : bytes) : bytes := encodeVarint (zlen b) ++ b.

Fixpoint emit_content (x : content) : bytes :=
  match x with
  | CScalar t v => scalar_bytes t v
  | CPacked t vs => with_length (concat (map (scalar_bytes t) vs))
  | CSub doc => with_length (concat (map (fun p => encodeVarint (8 * p.1 + wire_of p.2) ++ emit_content p.2) doc))
  end.

Definition emit_field (p : Z * content) : bytes := encodeVarint (tag_of p) ++ emit_content p.2.
Definition emit (doc : document) : bytes := concat (map emit_field doc).
End Emit.

Section Module.
Context {class : Type} `{EqDecision class} (P : static_module class) (rt : pb_runtime).

(** ** The document of a message *)

Definition field_doc (doc_of : class -> jsval -> document) (m : jsval) (s : enc_stmt class) : document :=
  let own k (f : jsval -> document) := match own_value m k with Some v => f v | None => [] end in
  let entry tag (x : content) (key : jsstr) := (tag / 8, CSub [(1, CScalar TString (JStr key)); (2, x)]) in
  match s with
  | Put k tag t => own k (fun v => [(tag / 8, CScalar t v)])
  | PutMessage k tag c => own k (fun v => [(tag / 8, CSub (doc_of c v))])
  | PutEach k tag t => map (fun v => (tag / 8, CScalar t v)) (elements (get m k))
  | PutEachMessage k tag c => map (fun v => (tag / 8, CSub (doc_of c v))) (elements (get m k))
  | PutPacked k tag t => match elements (get m k) with [] => [] | l => [(tag / 8, CPacked t l)] end
  | PutMap k tag _ _ t => own k (fun v => map (fun p => entry tag (CScalar t p.2) p.1) (enumerate (own_entries v)))
  | PutMapMessage k tag _ _ c =>
      own k (fun v => map (fun p => entry tag (CSub (doc_of c p.2)) p.1) (enumerate (own_entries v)))
  end.

(** [n] bounds the depth of the message. *)
Fixpoint doc_of (n : nat) (c : class) (m : jsval) : document :=
  match n with
  | O => []
  | S n => concat (map (field_doc (doc_of n) m) (sm_encode P c))
  end.

(** ** The message of a document *)

Definition build_entry (value : content -> jsval) (default_value : jsval) (x : content) : jsstr * jsval :=
  match x with
  | CSub [(_, CScalar _ (JStr key)); (_, y)] => (key, value y)
  | _ => ([], default_value)
  end.

Definition scalar_value (x : content) : jsval := match x with CScalar _ v => v | _ => JUndef end.

Definition build_case (build : class -> content -> jsval) (m : jsval) (x : content) (d : dec_case class) : jsval :=
  match d with
  | Read k _ => set k (scalar_value x) m
  | ReadMessage k c => set k (build c x) m
  | Push k _ => push k (scalar_value x) m
  | PushMessage k c => push k (build c x) m
  | PushPacked k _ => match x with
                      | CPacked _ vs => fold_left (fun m v => push k v m) vs m
                      | _ => push k (scalar_value x) m
                      end
  | ReadEntry k v _ => let '(key, y) := build_entry scalar_value v x in set_entry k key y m
  | ReadEntryMessage k v c => let '(key, y) := build_entry (build c) v x in set_entry k key y m
  end.

Fixpoint build (n : nat) (c : class) (x : content) : jsval :=
  match n, x with
  | S n, CSub doc =>
      fold_left (fun m p => match find_case P c p.1 with
                            | Some d => build_case (build n) m p.2 d
                            | None => m
                            end) doc (new P rt c)
  | _, _ => JUndef
  end.

Definition build_field (n : nat) (c : class) (m : jsval) (p : Z * content) : jsval :=
  match find_case P c p.1 with Some d => build_case (build n) m p.2 d | None => m end.

(** ** Documents a class decodes *)


Definition fits_case (fits : class -> content -> Prop) (x : content) (d : dec_case class) : Prop :=
  match d, x with
  | Read _ t, CScalar t' v | Push _ t, CScalar t' v => t' = t /\ scalar_ok rt t v
  | ReadMessage _ c, CSub _ | PushMessage _ c, CSub _ => fits c x
  | PushPacked _ t, CPacked t' vs => t' = t /\ Forall (scalar_ok rt t) vs
  | ReadEntry _ _ t, CSub doc => exists key v, doc = [(1, CScalar TString (JStr key)); (2, CScalar t v)] /\
      scalar_ok rt TString (JStr key) /\ scalar_ok rt t v
  | ReadEntryMessage _ _ c, CSub doc => exists key doc', doc = [(1, CScalar TString (JStr key)); (2, CSub doc')] /\
      scalar_ok rt TString (JStr key) /\ fits c (CSub doc')
  | _, _ => False
  end.

Fixpoint fits (n : nat) (c : class) (x : content) : Prop :=
  match n, x with
  | S n, CSub doc => Forall (fun p => 0 < p.1 < 2 ^ 29 /\
                       exists d, find_case P c p.1 = Some d /\ fits_case (fits n) p.2 d) doc
  | _, _ => False
  end.
End Module.

(** ** Positions *)

(** Runs the binds whose first computation is known. *)
Ltac run := cbn [mbind result_bind fst snd].

(** [bs] stands in [data] at [pos]. *)
Definition at_pos (data : bytes) (pos : Z) (bs : bytes) : Prop :=
  exists pre post, data = pre ++ bs ++ post /\ pos = zlen pre.

Lemma at_pos_app data pos a b : at_pos data pos (a ++ b) -> at_pos data pos a /\ at_pos data (pos + zlen a) b.
Proof.
  intros (pre & post & -> & ->). split.
  - exists pre, (b ++ post). by rewrite !(assoc_L (++)).
  - exists (pre ++ a), post. rewrite zlen_app. by rewrite !(assoc_L (++)).
Qed.

Lemma at_pos_whole data : at_pos data 0 data.
Proof. exists [], []. by rewrite app_nil_r. Qed.

Lemma tag_number n w : 0 <= w < 8 -> Z.shiftr (8 * n + w) 3 = n.
Proof. intros Hw. rewrite Z.shiftr_div_pow2 by lia. change (2 ^ 3) with 8. rewrite Z.mul_comm, Z.div_add_l by lia. rewrite Z.div_small; lia. Qed.

Lemma tag_wire n w : 0 <= w < 8 -> Z.land (8 * n + w) 7 = w.
Proof.
  intros Hw. change 7 with (Z.ones 3). rewrite Z.land_ones by lia. change (2 ^ 3) with 8.
  rewrite Z.add_comm, Z.mul_comm, Z.mod_add by lia. by apply Z.mod_small.
Qed.

Lemma wire_of_range x : 0 <= wire_of x < 8.
Proof. destruct x as [[]| |]; cbn; lia. Qed.

(** ** Decoding a document *)

Section Decode.
Context {class : Type} `{EqDecision class} (P : static_module class) (rt : pb_runtime) `{!PbLaws rt}.

Lemma read_scalar_at t v data pos :
  scalar_ok rt t v -> at_pos data pos (scalar_bytes rt t v) ->
  rt_read rt t data pos = Ok (v, pos + zlen (scalar_bytes rt t v)).
Proof.
  intros Hok (pre & post & -> & ->). destruct (write_read t v Hok) as (bs & Hw & _ & Hr).
  unfold scalar_bytes. rewrite Hw. apply Hr.
Qed.

Lemma scalar_bytes_pos t v : scalar_ok rt t v -> 1 <= zlen (scalar_bytes rt t v).
Proof.
  intros Hok. destruct (write_read t v Hok) as (bs & Hw & Hne & _). unfold scalar_bytes. rewrite Hw.
  destruct bs; [done|]. rewrite zlen_cons. pose proof (zlen_nonneg bs). lia.
Qed.

Lemma read_varint_at z data pos :
  0 <= z < 2 ^ 32 -> at_pos data pos (encodeVarint z) ->
  rt_read_uint32 rt data pos = Ok (z, pos + zlen (encodeVarint z)).
Proof. intros Hz (pre & post & -> & ->). by apply read_uint32_varint. Qed.

(** [reader.uint32()] before a delimited value. *)
Lemma read_length_at b data pos :
  zlen b < 2 ^ 32 -> at_pos data pos (with_length b) ->
  rt_read_uint32 rt data pos = Ok (zlen b, pos + zlen (encodeVarint (zlen b))) /\
  at_pos data (pos + zlen (encodeVarint (zlen b))) b.
Proof.
  intros Hb H. apply at_pos_app in H as [Ha Hb']. split; [|done]. apply read_varint_at; [|done].
  pose proof (zlen_nonneg b). lia.
Qed.

Lemma zlen_with_length b : zlen (with_length b) = zlen (encodeVarint (zlen b)) + zlen b.
Proof. apply zlen_app. Qed.

Lemma varint_pos z : 0 <= z -> 1 <= zlen (encodeVarint z).
Proof. apply encodeVarint_nonempty. Qed.

Lemma read_packed_at t vs : forall fuel data pos k m,
  Forall (scalar_ok rt t) vs -> at_pos data pos (concat (map (scalar_bytes rt t) vs)) ->
  zlen (concat (map (scalar_bytes rt t) vs)) < Z.of_nat fuel ->
  read_packed rt fuel data pos (pos + zlen (concat (map (scalar_bytes rt t) vs))) k t m =
  Ok (fold_left (fun m v => push k v m) vs m, pos + zlen (concat (map (scalar_bytes rt t) vs))).
Proof.
  induction vs as [|v vs IH]; intros fuel data pos k m Hok Hat Hf.
  - cbn [map concat] in *. rewrite zlen_nil in *. destruct fuel; [lia|]. cbn [read_packed fold_left].
    by rewrite Z.add_0_r, Z.ltb_irrefl.
  - apply Forall_cons in Hok as [Hv Hok]. cbn [map concat] in *. apply at_pos_app in Hat as [Ha Hat].
    rewrite zlen_app in *. pose proof (scalar_bytes_pos _ _ Hv). set (rest := concat _) in *. pose proof (zlen_nonneg rest).
    destruct fuel as [|fuel]; [lia|]. cbn [read_packed fold_left]. destruct (Z.ltb_spec pos (pos + (zlen (scalar_bytes rt t v) + zlen rest))); [|lia].
    cbn [negb]. rewrite (read_scalar_at _ _ _ _ Hv Ha). cbn [snd fst].
    rewrite Z.add_assoc. apply IH; [done | done | lia].
Qed.
(** A tag, as the loops read it. *)
Lemma read_tag_at p data pos :
  0 < p.1 < 2 ^ 29 -> at_pos data pos (emit_field rt p) ->
  rt_read_uint32 rt data pos = Ok (tag_of p, pos + zlen (encodeVarint (tag_of p))) /\
  at_pos data (pos + zlen (encodeVarint (tag_of p))) (emit_content rt p.2) /\
  Z.shiftr (tag_of p) 3 = p.1 /\ Z.land (tag_of p) 7 = wire_of p.2.
Proof.
  intros Hn H. apply at_pos_app in H as [Ha Hb]. pose proof (wire_of_range p.2) as Hw. split; [|split; [done|]].
  - apply read_varint_at; [|done]. unfold tag_of. lia.
  - unfold tag_of. split; [by apply tag_number | by apply tag_wire].
Qed.

Lemma tag_pos p : 0 < p.1 -> 1 <= zlen (encodeVarint (tag_of p)).
Proof. intros. apply varint_pos. unfold tag_of. pose proof (wire_of_range p.2). lia. Qed.

Lemma read_entry_S fuel data pos end_ depth read_value key value :
  read_entry rt (S fuel) data pos end_ depth read_value key value =
  if negb (pos <? end_) then Ok (key, value, pos)
  else
    let! t := rt_read_uint32 rt data pos in
    if Z.shiftr t.1 3 =? 1 then
      let! r := rt_read rt TString data t.2 in read_entry rt fuel data r.2 end_ depth read_value r.1 value
    else if Z.shiftr t.1 3 =? 2 then
      let! r := read_value t.2 in read_entry rt fuel data r.2 end_ depth read_value key r.1
    else
      let! p := rt_skipType rt data t.2 (Z.land t.1 7) depth in read_entry rt fuel data p end_ depth read_value key value.
Proof. done. Qed.

Lemma read_entry_at fuel data pos key y v read_value default_value depth :
  let doc := [(1, CScalar TString (JStr key)); (2, y)] in
  scalar_ok rt TString (JStr key) -> 0 < zlen (emit_content rt y) -> at_pos data pos (emit rt doc) ->
  (forall p, at_pos data p (emit_content rt y) -> read_value p = Ok (v, p + zlen (emit_content rt y))) ->
  (3 <= fuel)%nat ->
  read_entry rt fuel data pos (pos + zlen (emit rt doc)) depth read_value (JStr []) default_value =
  Ok (JStr key, v, pos + zlen (emit rt doc)).
Proof.
  intros doc Hk Hy Hat Hv Hf. unfold doc, emit in *. cbn [map concat] in *. rewrite app_nil_r in *.
  apply at_pos_app in Hat as [H1 H2]. rewrite zlen_app in *.
  set (p1 := (1, CScalar TString (JStr key))) in *. set (p2 := (2, y)) in *.
  destruct (read_tag_at p1 data pos) as (R1 & A1 & N1 & _); [cbn; lia | done |].
  destruct (read_tag_at p2 data (pos + zlen (emit_field rt p1))) as (R2 & A2 & N2 & _); [cbn; lia | done |].
  assert (zlen (emit_field rt p1) = zlen (encodeVarint (tag_of p1)) + zlen (scalar_bytes rt TString (JStr key))) as L1
    by apply zlen_app.
  assert (zlen (emit_field rt p2) = zlen (encodeVarint (tag_of p2)) + zlen (emit_content rt y)) as L2 by apply zlen_app.
  pose proof (tag_pos p1 ltac:(cbn; lia)). pose proof (tag_pos p2 ltac:(cbn; lia)).
  pose proof (scalar_bytes_pos _ _ Hk).
  destruct fuel as [|[|[|fuel]]]; [lia | lia | lia |]. rewrite read_entry_S.
  destruct (Z.ltb_spec pos (pos + (zlen (emit_field rt p1) + zlen (emit_field rt p2)))) as [_|]; [|lia]. cbn [negb].
  rewrite R1. run. rewrite N1. cbn [p1 fst Z.eqb Pos.eqb]. rewrite (read_scalar_at _ _ _ _ Hk A1). run.
  rewrite <- Z.add_assoc, <- L1, read_entry_S.
  destruct (Z.ltb_spec (pos + zlen (emit_field rt p1)) (pos + (zlen (emit_field rt p1) + zlen (emit_field rt p2)))) as [_|]; [|lia].
  cbn [negb]. rewrite R2. run. rewrite N2. cbn [p2 fst Z.eqb Pos.eqb]. rewrite (Hv _ A2). run.
  replace (pos + zlen (emit_field rt p1) + zlen (encodeVarint (tag_of p2)) + zlen (emit_content rt y))
    with (pos + (zlen (emit_field rt p1) + zlen (emit_field rt p2))) by lia.
  by rewrite read_entry_S, Z.ltb_irrefl.
Qed.
Lemma emit_content_sub doc : emit_content rt (CSub doc) = with_length (emit rt doc).
Proof. done. Qed.

Lemma zlen_concat_le (l : list bytes) b : In b l -> zlen b <= zlen (concat l).
Proof.
  induction l as [|a l IH]; cbn; [done|]. rewrite zlen_app. pose proof (zlen_nonneg a). pose proof (zlen_nonneg (concat l)).
  intros [->|Hin]; [lia|]. specialize (IH Hin). lia.
Qed.

(** The sub-decoder of a loop, on the documents it is used on. *)
Definition decodes (n : nat) (data : bytes) (sub : class -> Z -> Z -> result (jsval * Z)) (limit : Z) : Prop :=
  forall c doc pos, fits P rt n c (CSub doc) -> at_pos data pos (emit rt doc) -> zlen (emit rt doc) < limit ->
    sub c pos (pos + zlen (emit rt doc)) = Ok (build P rt n c (CSub doc), pos + zlen (emit rt doc)).

Lemma read_message_at n data sub c doc pos limit :
  decodes n data sub limit -> fits P rt n c (CSub doc) -> at_pos data pos (emit_content rt (CSub doc)) ->
  zlen (emit rt doc) < limit -> limit <= 2 ^ 32 ->
  read_message rt data sub c pos = Ok (build P rt n c (CSub doc), pos + zlen (emit_content rt (CSub doc))).
Proof.
  intros Hsub Hfit Hat Hl Hs. destruct (read_length_at (emit rt doc) data pos) as [Hr Hat']; [lia | done |].
  unfold read_message. rewrite Hr. run. rewrite (Hsub c doc _ Hfit Hat' Hl). rewrite emit_content_sub, zlen_with_length.
  do 2 f_equal. lia.
Qed.

Lemma read_map_at fuel data depth k d read_value pos key y v m limit :
  let doc := [(1, CScalar TString (JStr key)); (2, y)] in
  scalar_ok rt TString (JStr key) -> at_pos data pos (emit_content rt (CSub doc)) ->
  0 < zlen (emit_content rt y) ->
  (forall p, at_pos data p (emit_content rt y) -> read_value p = Ok (v, p + zlen (emit_content rt y))) ->
  zlen (emit rt doc) < limit -> limit <= 2 ^ 32 -> limit <= Z.of_nat fuel ->
  read_map rt fuel data depth k d read_value pos m =
  Ok (set_entry k key v m, pos + zlen (emit_content rt (CSub doc))).
Proof.
  intros doc Hk Hat Hy Hv Hl Hs Hf. destruct (read_length_at (emit rt doc) data pos) as [Hr Hat']; [lia | done |].
  unfold read_map. rewrite Hr. run. rewrite (Z.add_comm (zlen _)).
  assert (3 <= zlen (emit rt doc)).
  { unfold doc, emit. cbn [map concat]. rewrite app_nil_r, zlen_app. unfold emit_field. rewrite !zlen_app.
    pose proof (scalar_bytes_pos _ _ Hk). pose proof (tag_pos (1, CScalar TString (JStr key)) ltac:(cbn; lia)).
    pose proof (tag_pos (2, y) ltac:(cbn; lia)).
    change (emit_content rt (1, CScalar TString (JStr key)).2) with (scalar_bytes rt TString (JStr key)). cbn [snd]. lia. }
  rewrite (read_entry_at fuel data _ key y v read_value d depth) by (done || lia). run.
  rewrite emit_content_sub, zlen_with_length. fold doc. do 2 f_equal. lia.
Qed.

Lemma emit_content_pos n c x : fits P rt n c x -> 0 < zlen (emit_content rt x).
Proof.
  destruct n, x; try done. intros _. rewrite emit_content_sub, zlen_with_length.
  pose proof (varint_pos (zlen (emit rt doc)) (zlen_nonneg _)). pose proof (zlen_nonneg (emit rt doc)). lia.
Qed.

Lemma sub_shorter doc : zlen (emit rt doc) < zlen (emit_content rt (CSub doc)).
Proof.
  rewrite emit_content_sub, zlen_with_length. pose proof (varint_pos (zlen (emit rt doc)) (zlen_nonneg _)). lia.
Qed.

Lemma field_shorter p doc : In p doc -> zlen (emit_content rt p.2) <= zlen (emit rt doc).
Proof.
  intros Hin. unfold emit. transitivity (zlen (emit_field rt p)); [|by apply zlen_concat_le, in_map].
  unfold emit_field. rewrite zlen_app. pose proof (zlen_nonneg (encodeVarint (tag_of p))). lia.
Qed.

Lemma entry_shorter key doc :
  zlen (emit rt doc) < zlen (emit_content rt (CSub [(1, CScalar TString (JStr key)); (2, CSub doc)])).
Proof.
  pose proof (sub_shorter doc). pose proof (sub_shorter [(1, CScalar TString (JStr key)); (2, CSub doc)]).
  pose proof (field_shorter (2, CSub doc) [(1, CScalar TString (JStr key)); (2, CSub doc)] ltac:(cbn; auto)). cbn [snd] in *. lia.
Qed.

Lemma run_dec_at n fuel data depth sub tag pos m d x :
  decodes n data sub (zlen (emit_content rt x)) -> fits_case rt (fits P rt n) x d ->
  at_pos data pos (emit_content rt x) -> zlen (emit_content rt x) <= 2 ^ 32 ->
  zlen (emit_content rt x) <= Z.of_nat fuel -> Z.land tag 7 = wire_of x ->
  run_dec rt fuel data depth sub tag pos m d = Ok (build_case (build P rt n) m x d, pos + zlen (emit_content rt x)).
Proof.
  intros Hsub Hfit Hat Hs Hf Htag. destruct d as [k t|k c|k t|k c|k t|k v t|k v c]; cbn [run_dec build_case fits_case] in *.
  - destruct x as [t' w| |]; [|done|done]. destruct Hfit as [-> Hw]. cbn [emit_content] in *.
    by rewrite (read_scalar_at _ _ _ _ Hw Hat).
  - destruct x as [| |doc]; [done|done|]. rewrite (read_message_at n data sub c doc pos _ Hsub); try done.
    apply sub_shorter.
  - destruct x as [t' w| |]; [|done|done]. destruct Hfit as [-> Hw]. cbn [emit_content] in *.
    by rewrite (read_scalar_at _ _ _ _ Hw Hat).
  - destruct x as [| |doc]; [done|done|]. rewrite (read_message_at n data sub c doc pos _ Hsub); try done.
    apply sub_shorter.
  - destruct x as [|t' vs|]; [done| |done]. destruct Hfit as [-> Hvs]. rewrite Htag. cbn [wire_of Z.eqb Pos.eqb emit_content] in *.
    set (b := concat _) in *. rewrite zlen_with_length in *. pose proof (varint_pos (zlen b) (zlen_nonneg _)).
    destruct (read_length_at b data pos) as [Hr Hat']; [lia | done |]. rewrite Hr. run. rewrite (Z.add_comm (zlen b)).
    rewrite (read_packed_at t vs) by (done || fold b; lia). fold b. do 2 f_equal. lia.
  - destruct x as [| |doc]; [done|done|]. destruct Hfit as (key & w & -> & Hk & Hw). cbn [build_entry scalar_value].
    pose proof (scalar_bytes_pos _ _ Hw).
    apply (read_map_at _ _ _ _ _ _ _ key (CScalar t w) w m (zlen (emit_content rt (CSub [(1, CScalar TString (JStr key)); (2, CScalar t w)]))));
      try done; [cbn [emit_content]; lia | intros p Hp; by apply read_scalar_at | apply sub_shorter].
  - destruct x as [| |doc]; [done|done|]. destruct Hfit as (key & doc' & -> & Hk & Hw). cbn [build_entry].
    set (outer := CSub _) in *. pose proof (emit_content_pos _ _ _ Hw).
    apply (read_map_at _ _ _ _ _ _ _ key (CSub doc') (build P rt n c (CSub doc')) m (zlen (emit_content rt outer))); try done.
    + intros p Hp. apply (read_message_at n data sub c doc' p _ Hsub); try done.
      apply entry_shorter.
    + apply sub_shorter.
Qed.
(** The sub-decoder inside the loop at depth [depth]. *)
Definition nested (fuel : nat) (data : bytes) (depth : Z) (c : class) (pos end_ : Z) : result (jsval * Z) :=
  if rt_readLimit rt <? depth + 1 then throw PlainError (js "maximum nesting depth exceeded")
  else decode_loop P rt fuel c data pos end_ None (depth + 1) (new P rt c).

Lemma decode_loop_S fuel c data pos end_ depth m :
  decode_loop P rt (S fuel) c data pos end_ None depth m =
  if negb (pos <? end_) then Ok (m, pos)
  else
    let! t := rt_read_uint32 rt data pos in
    let! r := match find_case P c (Z.shiftr t.1 3) with
              | Some d => run_dec rt fuel data depth (nested fuel data depth) t.1 t.2 m d
              | None => let! p := rt_skipType rt data t.2 (Z.land t.1 7) depth in Ok (m, p)
              end in
    decode_loop P rt fuel c data r.2 end_ None depth r.1.
Proof. done. Qed.

Lemma emit_cons p doc : emit rt (p :: doc) = emit_field rt p ++ emit rt doc.
Proof. done. Qed.

(** Turns of the loop, one per field. *)
Lemma decode_fields_at n c data depth : forall doc fuel pos m,
  (forall k, (k <= fuel)%nat -> decodes n data (nested k data depth) (Z.min (Z.of_nat k) (2 ^ 32))) ->
  fits P rt (S n) c (CSub doc) -> at_pos data pos (emit rt doc) ->
  zlen (emit rt doc) <= 2 ^ 32 -> zlen (emit rt doc) < Z.of_nat fuel ->
  decode_loop P rt fuel c data pos (pos + zlen (emit rt doc)) None depth m =
  Ok (fold_left (build_field P rt n c) doc m, pos + zlen (emit rt doc)).
Proof.
  induction doc as [|p doc IH]; intros fuel pos m Hsub Hfit Hat Hs Hf.
  - destruct fuel; [pose proof (zlen_nonneg (emit rt [])); lia|]. rewrite decode_loop_S. unfold emit. cbn [map concat]. rewrite zlen_nil, Z.add_0_r.
    by rewrite Z.ltb_irrefl.
  - cbn [fits] in Hfit. apply Forall_cons in Hfit as [(Hnum & d & Hd & Hfd) Hfit].
    rewrite emit_cons in *. apply at_pos_app in Hat as [Hat1 Hat2]. rewrite zlen_app in *.
    destruct (read_tag_at p data pos Hnum Hat1) as (Hr & Hat3 & Hn & Hw).
    assert (zlen (emit_field rt p) = zlen (encodeVarint (tag_of p)) + zlen (emit_content rt p.2)) as Hlen by apply zlen_app.
    pose proof (tag_pos p ltac:(lia)). pose proof (zlen_nonneg (emit rt doc)). pose proof (zlen_nonneg (emit_content rt p.2)).
    destruct fuel as [|fuel]; [lia|]. rewrite decode_loop_S. destruct (Z.ltb_spec pos (pos + (zlen (emit_field rt p) + zlen (emit rt doc)))); [|lia].
    cbn [negb]. rewrite Hr. run. rewrite Hn, Hd.
    rewrite (run_dec_at n fuel data depth _ _ _ m d p.2); [|intros c' doc' pos' F A L; apply (Hsub fuel); [lia|done|done|lia]|done|done|lia|lia|done].
    run. cbn [fold_left]. unfold build_field at 2. rewrite Hd.
    replace (pos + zlen (encodeVarint (tag_of p)) + zlen (emit_content rt p.2)) with (pos + zlen (emit_field rt p)) by lia.
    rewrite Z.add_assoc. apply IH; [|done|done|lia|lia]. intros k Hk. apply Hsub. lia.
Qed.

(** [decode] of the bytes of a document builds its message, as far as the depth
    is allowed. *)
Lemma decode_loop_at n : forall c doc fuel data depth pos,
  fits P rt (S n) c (CSub doc) -> at_pos data pos (emit rt doc) ->
  zlen (emit rt doc) <= 2 ^ 32 -> zlen (emit rt doc) < Z.of_nat fuel -> depth + Z.of_nat n <= rt_readLimit rt ->
  decode_loop P rt fuel c data pos (pos + zlen (emit rt doc)) None depth (new P rt c) =
  Ok (build P rt (S n) c (CSub doc), pos + zlen (emit rt doc)).
Proof.
  induction n as [|n IH]; intros c doc fuel data depth pos Hfit Hat Hs Hf Hd.
  - apply (decode_fields_at 0); try done. intros k Hk c' doc' pos' F. done.
  - apply (decode_fields_at (S n)); try done. intros k Hk c' doc' pos' F A L. unfold nested.
    destruct (Z.ltb_spec (rt_readLimit rt) (depth + 1)); [lia|]. apply IH; [done|done|lia|lia|lia].
Qed.
End Decode.

(** ** Matching tables *)

Section Tables.
Context {class : Type} `{EqDecision class} (P : static_module class).

Definition stmt_key (s : enc_stmt class) : string :=
  match s with
  | Put k _ _ | PutMessage k _ _ | PutEach k _ _ | PutEachMessage k _ _ | PutPacked k _ _
  | PutMap k _ _ _ _ | PutMapMessage k _ _ _ _ => k
  end.

Definition stmt_tag (s : enc_stmt class) : Z :=
  match s with
  | Put _ t _ | PutMessage _ t _ | PutEach _ t _ | PutEachMessage _ t _ | PutPacked _ t _
  | PutMap _ t _ _ _ | PutMapMessage _ t _ _ _ => t
  end.

(** The tag carries the wire type of what follows it. *)
Definition tag_ok (s : enc_stmt class) : bool :=
  let tagged w := stmt_tag s =? 8 * (stmt_tag s / 8) + w in
  (8 <=? stmt_tag s) && (stmt_tag s <? 2 ^ 32) &&
  match s with
  | Put _ _ t | PutEach _ _ t => tagged (wire_type t)
  | PutMessage _ _ _ | PutEachMessage _ _ _ | PutPacked _ _ _ => tagged 2
  | PutMap _ _ ktag vtag t => tagged 2 && (ktag =? 10) && (vtag =? 16 + wire_type t)
  | PutMapMessage _ _ ktag vtag _ => tagged 2 && (ktag =? 10) && (vtag =? 18)
  end.

(** [decode] has the case that reads what the statement writes. *)
Definition case_ok (c : class) (s : enc_stmt class) : bool :=
  match s, find_case P c (stmt_tag s / 8) with
  | Put k _ t, Some (Read k' t') | PutEach k _ t, Some (Push k' t')
  | PutPacked k _ t, Some (PushPacked k' t') | PutMap k _ _ _ t, Some (ReadEntry k' _ t') =>
      String.eqb k k' && bool_decide (t = t')
  | PutMessage k _ d, Some (ReadMessage k' d') | PutEachMessage k _ d, Some (PushMessage k' d')
  | PutMapMessage k _ _ _ d, Some (ReadEntryMessage k' _ d') => String.eqb k k' && bool_decide (d = d')
  | _, _ => false
  end.

(** The constructor gives repeated fields and maps a value, and no other. *)
Definition init_ok (c : class) (s : enc_stmt class) : bool :=
  match s, List.find (fun p => String.eqb p.1 (stmt_key s)) (sm_init P c) with
  | (Put _ _ _ | PutMessage _ _ _), None => true
  | (PutEach _ _ _ | PutEachMessage _ _ _ | PutPacked _ _ _), Some (_, JArr []) => true
  | (PutMap _ _ _ _ _ | PutMapMessage _ _ _ _ _), Some (_, JObj [] []) => true
  | _, _ => false
  end.

Fixpoint distinct (l : list string) : bool :=
  match l with [] => true | x :: l' => negb (existsb (String.eqb x) l') && distinct l' end.

(** [encode] writes every field that instances have. *)
Definition encodes_all (c : class) (long : bool) : bool :=
  forallb (fun p => existsb (String.eqb p.1) (map stmt_key (sm_encode P c))) (sm_prototype P c long).

Definition tables_ok (c : class) : bool :=
  distinct (map stmt_key (sm_encode P c)) && (encodes_all c true && encodes_all c false) &&
  forallb (fun s => tag_ok s && case_ok c s && init_ok c s) (sm_encode P c).

Lemma distinct_NoDup l : distinct l = true -> NoDup l.
Proof.
  induction l as [|x l IH]; cbn; [constructor|]. rewrite andb_true_iff, negb_true_iff. intros [Hx Hl].
  constructor; [|auto]. rewrite list_elem_of_In. intros Hin. apply not_true_iff_false in Hx. apply Hx, existsb_exists.
  exists x. split; [done | apply String.eqb_refl].
Qed.
End Tables.

(** ** Typed messages *)

Section Typed.
Context {class : Type} `{EqDecision class} (P : static_module class) (rt : pb_runtime).

Definition entries_ok (value : jsval -> Prop) (v : jsval) : Prop :=
  NoDup (map fst (own_entries v)) /\ Forall (fun p => scalar_ok rt TString (JStr p.1) /\ value p.2) (own_entries v).

(** A map that is not set is not inherited with entries either. *)
Definition inherits_no (m : jsval) (k : string) : Prop := own_value m k = None -> own_entries (get m k) = [].

Definition typed_field (typed : class -> jsval -> Prop) (m : jsval) (s : enc_stmt class) : Prop :=
  match s with
  | Put k _ t => forall v, own_value m k = Some v -> scalar_ok rt t v
  | PutMessage k _ c => forall v, own_value m k = Some v -> typed c v
  | PutEach k _ t | PutPacked k _ t => Forall (scalar_ok rt t) (elements (get m k))
  | PutEachMessage k _ c => Forall (typed c) (elements (get m k))
  | PutMap k _ _ _ t => (forall v, own_value m k = Some v -> entries_ok (scalar_ok rt t) v) /\ inherits_no m k
  | PutMapMessage k _ _ _ c => (forall v, own_value m k = Some v -> entries_ok (typed c) v) /\ inherits_no m k
  end.

(** A message of class [c], at most [n] deep, whose fields hold values of their
    types. *)
Fixpoint typed (n : nat) (c : class) (m : jsval) : Prop :=
  match n with
  | O => False
  | S n => isPlainObject m = true /\ Forall (typed_field (typed n) m) (sm_encode P c)
  end.
End Typed.

(** ** Encoding writes the document *)

Section Encode.
Context {class : Type} `{EqDecision class} (P : static_module class) (rt : pb_runtime) `{!PbLaws rt}.

Lemma concat_results_ok {A} (f : A -> result bytes) (g : A -> bytes) l :
  Forall (fun x => f x = Ok (g x)) l -> concat_results f l = Ok (concat (map g l)).
Proof. induction 1 as [|x l Hx _ IH]; [done|]. cbn. rewrite Hx. cbn. by rewrite IH. Qed.

Lemma write_ok t v : scalar_ok rt t v -> rt_write rt t v = Ok (scalar_bytes rt t v).
Proof. intros Hv. destruct (write_read t v Hv) as (bs & Hw & _). unfold scalar_bytes. by rewrite Hw. Qed.

Lemma delimited_ok b : zlen b < 2 ^ 32 -> delimited rt b = with_length b.
Proof. intros Hb. unfold delimited, with_length. rewrite uint32_varint; [done|]. pose proof (zlen_nonneg b). lia. Qed.

Lemma tag_bytes tag w x : tag = 8 * (tag / 8) + w -> 8 <= tag < 2 ^ 32 -> wire_of x = w ->
  rt_uint32 rt tag = encodeVarint (tag_of (tag / 8, x)).
Proof. intros Ht Hr Hw. rewrite uint32_varint by lia. f_equal. unfold tag_of. cbn. lia. Qed.

Lemma put_scalar_ok tag t v :
  tag = 8 * (tag / 8) + wire_type t -> 8 <= tag < 2 ^ 32 -> scalar_ok rt t v ->
  put_scalar rt tag t v = Ok (emit_field rt (tag / 8, CScalar t v)).
Proof. intros Ht Hr Hv. unfold put_scalar. rewrite (write_ok _ _ Hv). cbn. by rewrite (tag_bytes tag _ (CScalar t v) Ht Hr). Qed.

Lemma put_message_ok (sub : class -> jsval -> result bytes) tag c v doc :
  tag = 8 * (tag / 8) + 2 -> 8 <= tag < 2 ^ 32 -> sub c v = Ok (emit rt doc) -> zlen (emit rt doc) < 2 ^ 32 ->
  put_message rt sub tag c v = Ok (emit_field rt (tag / 8, CSub doc)).
Proof.
  intros Ht Hr Hsub Hl. unfold put_message. rewrite Hsub. cbn [mbind result_bind].
  by rewrite (tag_bytes tag _ (CSub doc) Ht Hr), delimited_ok.
Qed.

Lemma put_entry_ok tag vtag value p x :
  let doc := [(1, CScalar TString (JStr p.1)); (2, x)] in
  tag = 8 * (tag / 8) + 2 -> 8 <= tag < 2 ^ 32 -> vtag = 16 + wire_of x ->
  scalar_ok rt TString (JStr p.1) -> value p.2 = Ok (emit_content rt x) -> zlen (emit rt doc) < 2 ^ 32 ->
  put_entry rt tag 10 vtag value p = Ok (emit_field rt (tag / 8, CSub doc)).
Proof.
  intros doc Ht Hr Hvt Hk Hv Hl. unfold put_entry. rewrite (write_ok _ _ Hk). cbn [mbind result_bind]. rewrite Hv. cbn [mbind result_bind].
  rewrite (tag_bytes tag _ (CSub doc) Ht Hr) by done. unfold emit_field at 1. cbn [snd]. rewrite emit_content_sub, <- delimited_ok by done.
  do 4 f_equal. unfold doc, emit. cbn [map concat]. rewrite app_nil_r. unfold emit_field. rewrite <- (assoc_L (++)).
  pose proof (wire_of_range x). rewrite !uint32_varint by lia. rewrite Hvt. done.
Qed.
Lemma emit_map {A} (f : A -> Z * content) l : emit rt (map f l) = concat (map (fun x => emit_field rt (f x)) l).
Proof. unfold emit. by rewrite map_map. Qed.

Lemma emit_app a b : emit rt (a ++ b) = emit rt a ++ emit rt b.
Proof. unfold emit. by rewrite map_app, concat_app. Qed.

Lemma emit_singleton p : emit rt [p] = emit_field rt p.
Proof. unfold emit. cbn. apply app_nil_r. Qed.

(** The documents inside a field are shorter than the field. *)
Lemma sub_in p doc doc' : In p doc -> p.2 = CSub doc' -> zlen (emit rt doc') < zlen (emit rt doc).
Proof.
  intros Hin Hp. pose proof (field_shorter rt p doc Hin) as H. rewrite Hp in H. pose proof (sub_shorter rt doc'). lia.
Qed.

Lemma tag_ok_range (s : enc_stmt class) : tag_ok s = true -> 8 <= stmt_tag s < 2 ^ 32.
Proof. unfold tag_ok. rewrite !andb_true_iff, Z.leb_le, Z.ltb_lt. tauto. Qed.

Lemma run_enc_ok n (sub : class -> jsval -> result bytes) m s :
  tag_ok s = true -> typed_field rt (typed P rt n) m s ->
  (forall c v, typed P rt n c v -> zlen (emit rt (doc_of P n c v)) < 2 ^ 32 -> sub c v = Ok (emit rt (doc_of P n c v))) ->
  zlen (emit rt (field_doc (doc_of P n) m s)) <= 2 ^ 32 ->
  run_enc rt sub m s = Ok (emit rt (field_doc (doc_of P n) m s)).
Proof.
  intros Htag Hty Hsub Hl. pose proof (tag_ok_range s Htag) as Hr. unfold tag_ok in Htag.
  destruct s as [k tag t|k tag c|k tag t|k tag c|k tag t|k tag ktag vtag t|k tag ktag vtag c];
    cbn [stmt_tag run_enc field_doc typed_field] in *; rewrite ?andb_true_iff, ?Z.eqb_eq in Htag; destruct Htag as [_ Htag].
  - destruct (own_value m k) as [v|]; [|done]. rewrite emit_singleton. by apply put_scalar_ok; auto.
  - destruct (own_value m k) as [v|]; [|done]. rewrite emit_singleton.
    assert (zlen (emit rt (doc_of P n c v)) < 2 ^ 32).
    { pose proof (sub_in (tag / 8, CSub (doc_of P n c v)) [(tag / 8, CSub (doc_of P n c v))] _ ltac:(cbn; auto) eq_refl). lia. }
    apply put_message_ok; auto.
  - rewrite emit_map. apply concat_results_ok. eapply Forall_impl; [exact Hty|]. intros v Hv. by apply put_scalar_ok.
  - rewrite emit_map. apply concat_results_ok. apply Forall_forall. intros v Hv. rewrite list_elem_of_In in Hv.
    rewrite Forall_forall in Hty. assert (typed P rt n c v) by (apply Hty; by apply list_elem_of_In).
    assert (zlen (emit rt (doc_of P n c v)) < 2 ^ 32).
    { eapply Z.lt_le_trans; [|exact Hl]. eapply (sub_in (tag / 8, CSub (doc_of P n c v))); [|done]. apply in_map_iff. eauto. }
    apply put_message_ok; auto.
  - destruct (elements (get m k)) as [|v vs] eqn:E; [done|]. rewrite emit_singleton in *.
    rewrite (concat_results_ok _ (scalar_bytes rt t)); [|eapply Forall_impl; [exact Hty|]; intros w Hw; by apply write_ok].
    cbn [mbind result_bind]. rewrite (tag_bytes tag _ (CPacked t (v :: vs)) Htag Hr) by done. rewrite delimited_ok; [done|].
    eapply Z.lt_le_trans; [|exact Hl]. unfold emit_field. rewrite zlen_app. cbn [snd emit_content]. rewrite zlen_with_length.
    set (b := concat _). pose proof (varint_pos (zlen b) (zlen_nonneg _)). pose proof (zlen_nonneg (encodeVarint (tag_of (tag / 8, CPacked t (v :: vs))))). lia.
  - destruct (own_value m k) as [v|]; [|done]. destruct Htag as [[Htag ->] ->]. destruct (proj1 Hty v eq_refl) as [_ Hen].
    rewrite emit_map. apply concat_results_ok, Forall_forall. intros p Hp.
    rewrite Forall_forall in Hen. destruct (Hen p) as [Hk Hv]; [by rewrite <- enumerate_perm|].
    apply (put_entry_ok _ _ _ p (CScalar t p.2)); try done; [by apply write_ok|].
    eapply Z.lt_le_trans; [|exact Hl]. refine (sub_in (tag / 8, CSub _) _ _ _ eq_refl). apply in_map_iff. exists p. split; [done|]. by apply list_elem_of_In.
  - destruct (own_value m k) as [v|]; [|done]. destruct Htag as [[Htag ->] ->]. destruct (proj1 Hty v eq_refl) as [_ Hen].
    rewrite emit_map. apply concat_results_ok, Forall_forall. intros p Hp.
    rewrite Forall_forall in Hen. destruct (Hen p) as [Hk Hv]; [by rewrite <- enumerate_perm|].
    set (doc := [(1, CScalar TString (JStr p.1)); (2, CSub (doc_of P n c p.2))]).
    assert (zlen (emit rt doc) < 2 ^ 32).
    { eapply Z.lt_le_trans; [|exact Hl]. eapply (sub_in (tag / 8, CSub doc)); [|done]. apply in_map_iff. exists p. split; [done|].
      by apply list_elem_of_In. }
    assert (zlen (emit rt (doc_of P n c p.2)) < 2 ^ 32).
    { etransitivity; [|eassumption]. eapply (sub_in (2, CSub (doc_of P n c p.2))); [cbn; auto | done]. }
    apply (put_entry_ok _ _ _ p (CSub (doc_of P n c p.2))); try done.
    rewrite Hsub by done. cbn [mbind result_bind]. by rewrite delimited_ok.
Qed.

(** [encode] of a typed message writes its document. *)
Lemma encode_at_ok n : forall fuel c m q,
  (forall c, tables_ok P c = true) -> typed P rt n c m -> (n <= fuel)%nat -> q + Z.of_nat n <= rt_recursionLimit rt + 1 ->
  zlen (emit rt (doc_of P n c m)) < 2 ^ 32 ->
  encode_at P rt fuel c m q = Ok (emit rt (doc_of P n c m)).
Proof.
  induction n as [|n IH]; intros fuel c m q Htab Hty Hf Hq Hl; [done|].
  destruct fuel as [|fuel]; [lia|]. cbn [encode_at]. destruct Hty as [Hobj Hty].
  destruct (Z.ltb_spec (rt_recursionLimit rt) q); [lia|].
  assert (nullish m = false) as -> by (by destruct m). cbn [andb doc_of] in *.
  assert (forall l, Forall (fun s => In s (sm_encode P c)) l -> Forall (typed_field rt (typed P rt n) m) l ->
            zlen (emit rt (concat (map (field_doc (doc_of P n) m) l))) < 2 ^ 32 ->
            concat_results (run_enc rt (fun c v => encode_at P rt fuel c v (q + 1)) m) l =
            Ok (emit rt (concat (map (field_doc (doc_of P n) m) l)))) as Hall.
  { clear Hty Hl. induction l as [|s l IHl]; intros Hin Hty Hl; [done|]. apply Forall_cons in Hin as [Hs Hin].
    apply Forall_cons in Hty as [Hty1 Hty]. cbn [map concat concat_results] in *. rewrite emit_app, zlen_app in *.
    pose proof (zlen_nonneg (emit rt (field_doc (doc_of P n) m s))).
    pose proof (zlen_nonneg (emit rt (concat (map (field_doc (doc_of P n) m) l)))).
    rewrite (run_enc_ok n); [| |done| |lia].
    - cbn [mbind result_bind]. by rewrite IHl by (done || lia).
    - specialize (Htab c). unfold tables_ok in Htab. apply andb_true_iff in Htab as [_ Htab].
      rewrite forallb_forall in Htab. specialize (Htab s Hs). rewrite !andb_true_iff in Htab. tauto.
    - intros c' v Hv Hlv. apply IH; (done || lia). }
  apply Hall; [|done|done]. apply Forall_forall. intros s. by rewrite list_elem_of_In.
Qed.
End Encode.
