(* ===== verification/StaticRoundTrip.v ===== *)
(** * Generated message classes: round trip

    The message that [decode] of StaticCode.v builds from the document of a
    message agrees with it, for any module whose tables match.  So decoding what
    [encode] wrote gives the message back. *)

From S2P Require Import Prelude JsString JsValue Varint Codec PbRuntime StaticCode StaticWire.

(** ** The message that is built *)

Section Agree.
Context {class : Type} `{EqDecision class} (P : static_module class) (rt : pb_runtime).

Definition entries (m : jsval) (k : string) : list (jsstr * jsval) :=
  match own_value m k with Some v => enumerate (own_entries v) | None => [] end.

Definition agrees_field (agrees : class -> jsval -> jsval -> Prop) (m m' : jsval) (s : enc_stmt class) : Prop :=
  match s with
  | Put k _ _ => own_value m' k = own_value m k
  | PutMessage k _ c => match own_value m k, own_value m' k with
                        | Some v, Some v' => agrees c v v'
                        | None, None => True
                        | _, _ => False
                        end
  | PutEach k _ _ | PutPacked k _ _ => get m' k = JArr (elements (get m k))
  | PutEachMessage k _ c => exists l, get m' k = JArr l /\ Forall2 (agrees c) (elements (get m k)) l
  | PutMap k _ _ _ _ => get m' k = JPlain (entries m k)
  | PutMapMessage k _ _ _ c => exists own, get m' k = JPlain own /\
      Forall2 (fun p p' => p'.1 = p.1 /\ agrees c p.2 p'.2) (entries m k) own
  end.

(** An object that a constructor made. *)
Definition is_made (c : class) (m : jsval) : Prop := exists own, m = JObj own (prototype P rt c).

(** The names of the prototype are those of the fields [encode] writes. *)
Definition all_fields (c : class) : Prop :=
  forall k v, (k, v) ∈ sm_prototype P c (has_long rt) -> exists s, s ∈ sm_encode P c /\ stmt_key s = k.

(** [m'] is an instance of the class with the fields of [m], all of them: the
    same values, and messages that agree. *)
Fixpoint agrees (n : nat) (c : class) (m m' : jsval) : Prop :=
  match n with
  | O => False
  | S n => is_made c m' /\ all_fields c /\ Forall (agrees_field (agrees n) m m') (sm_encode P c)
  end.

(** [m'] differs from [m] in the own property [k] only. *)
Definition only (k : string) (m m' : jsval) : Prop :=
  exists own own' inh, m = JObj own inh /\ m' = JObj own' inh /\
    forall k', k' <> js k -> assoc k' own' = assoc k' own.

Lemma only_refl k own inh : only k (JObj own inh) (JObj own inh).
Proof. by exists own, own, inh. Qed.

Lemma only_trans k a b c : only k a b -> only k b c -> only k a c.
Proof.
  intros (o1 & o2 & i & -> & -> & H1) (o2' & o3 & i' & [= <- <-] & -> & H2). exists o1, o3, i.
  split; [done|]. split; [done|]. intros k' Hk. by rewrite H2, H1.
Qed.

Lemma only_set k v own inh : only k (JObj own inh) (set k v (JObj own inh)).
Proof. eexists own, _, inh. split; [done|]. split; [done|]. intros k' Hk. by apply assoc_set_ne. Qed.

Lemma only_get k k' m m' : only k m m' -> k' <> k -> get m' k' = get m k'.
Proof.
  intros (o & o' & i & -> & -> & H) Hne. cbn. rewrite H; [done|]. by intros ?%js_inj.
Qed.

Lemma only_own k k' m m' : only k m m' -> k' <> k -> own_value m' k' = own_value m k'.
Proof.
  intros (o & o' & i & -> & -> & H) Hne. unfold own_value. cbn. rewrite H; [done|]. by intros ?%js_inj.
Qed.

Lemma own_value_set k v own inh : nullish v = false -> own_value (set k v (JObj own inh)) k = Some v.
Proof. intros Hv. unfold own_value. cbn. by rewrite assoc_set_eq, Hv. Qed.

Lemma own_value_some m k v : own_value m k = Some v -> nullish v = false.
Proof. unfold own_value. destruct (assoc _ _) as [x|]; [|done]. by destruct (nullish x) eqn:E; intros [= <-]. Qed.

(** Appending elements, one after the other. *)
Lemma push_all k vs : forall own inh l, get (JObj own inh) k = JArr l ->
  let m' := fold_left (fun m v => push k v m) vs (JObj own inh) in
  only k (JObj own inh) m' /\ get m' k = JArr (l ++ vs).
Proof.
  induction vs as [|v vs IH]; intros own inh l Hg; cbn zeta; cbn [fold_left].
  - rewrite app_nil_r. split; [apply only_refl | done].
  - unfold push at 2 4. rewrite Hg. cbn [set]. destruct (IH (assoc_set (js k) (JArr (l ++ [v])) own) inh (l ++ [v])) as [Ho He].
    { cbn. by rewrite assoc_set_eq. }
    split; [|by rewrite He, <- (assoc_L (++))]. eapply only_trans; [apply only_set | exact Ho].
Qed.

Lemma set_all k ps : forall own inh l, get (JObj own inh) k = JPlain l -> NoDup (map fst (l ++ ps)) ->
  let m' := fold_left (fun m p => set_entry k p.1 p.2 m) ps (JObj own inh) in
  only k (JObj own inh) m' /\ get m' k = JPlain (l ++ ps).
Proof.
  induction ps as [|[key v] ps IH]; intros own inh l Hg Hd; cbn zeta; cbn [fold_left].
  - rewrite app_nil_r. split; [apply only_refl | done].
  - unfold set_entry at 2 4. rewrite Hg. cbn [set fst snd]. rewrite (assoc_set_fresh key v l).
    2: { rewrite map_app in Hd. apply NoDup_app in Hd as (_ & Hd & _). intros Hin. apply list_elem_of_In in Hin.
         apply (Hd _ Hin). cbn. constructor. }
    destruct (IH (assoc_set (js k) (JPlain (l ++ [(key, v)])) own) inh (l ++ [(key, v)])) as [Ho He].
    { cbn. by rewrite assoc_set_eq. }
    { by rewrite <- (assoc_L (++)). }
    split; [|by rewrite He, <- (assoc_L (++))]. eapply only_trans; [apply only_set | exact Ho].
Qed.
Lemma fold_left_maps {A B C} (f : C -> B -> C) (g : C -> A -> C) (h : A -> B) l : forall acc,
  (forall acc x, f acc (h x) = g acc x) -> fold_left f (map h l) acc = fold_left g l acc.
Proof. induction l as [|x l IH]; intros acc H; [done|]. cbn. rewrite H. by apply IH. Qed.

Lemma fold_left_maps_in {A B C} (f : C -> B -> C) (g : C -> A -> C) (h : A -> B) l : forall acc,
  Forall (fun x => forall acc, f acc (h x) = g acc x) l -> fold_left f (map h l) acc = fold_left g l acc.
Proof. induction l as [|x l IH]; intros acc H; [done|]. apply Forall_cons in H as [Hx H]. cbn. rewrite Hx. by apply IH. Qed.

(** The property a statement reads, before its fields have been decoded. *)
Definition initial (s : enc_stmt class) (m : jsval) : Prop :=
  match s with
  | Put k _ _ | PutMessage k _ _ => own_value m k = None
  | PutEach k _ _ | PutEachMessage k _ _ | PutPacked k _ _ => get m k = JArr []
  | PutMap k _ _ _ _ | PutMapMessage k _ _ _ _ => get m k = JPlain []
  end.

(** What [case_ok] tells of the decoder. *)
Lemma case_ok_case c s : case_ok P c s = true ->
  match s with
  | Put k tag t => find_case P c (tag / 8) = Some (Read k t)
  | PutMessage k tag d => find_case P c (tag / 8) = Some (ReadMessage k d)
  | PutEach k tag t => find_case P c (tag / 8) = Some (Push k t)
  | PutEachMessage k tag d => find_case P c (tag / 8) = Some (PushMessage k d)
  | PutPacked k tag t => find_case P c (tag / 8) = Some (PushPacked k t)
  | PutMap k tag _ _ t => exists v, find_case P c (tag / 8) = Some (ReadEntry k v t)
  | PutMapMessage k tag _ _ d => exists v, find_case P c (tag / 8) = Some (ReadEntryMessage k v d)
  end.
Proof.
  unfold case_ok. destruct s; cbn [stmt_tag]; destruct (find_case P c _) as [[]|]; try done;
    rewrite andb_true_iff, String.eqb_eq, bool_decide_eq_true; intros [-> ->]; eauto.
Qed.

Lemma enumerate_NoDup {A} (l : list (jsstr * A)) : NoDup (map fst l) -> NoDup (map fst (enumerate l)).
Proof. by rewrite enumerate_perm. Qed.
Lemma Forall2_map_self {A B} (R : A -> B -> Prop) (f : A -> B) l : Forall (fun x => R x (f x)) l -> Forall2 R l (map f l).
Proof. induction 1; cbn; by constructor. Qed.

Lemma field_built n m c s own inh :
  case_ok P c s = true -> typed_field rt (typed P rt n) m s -> initial s (JObj own inh) ->
  (forall c v, typed P rt n c v -> agrees n c v (build P rt n c (CSub (doc_of P n c v)))) ->
  let m' := fold_left (build_field P rt n c) (field_doc (doc_of P n) m s) (JObj own inh) in
  only (stmt_key s) (JObj own inh) m' /\ agrees_field (agrees n) m m' s.
Proof.
  intros Hc Hty Hi IH m'. apply case_ok_case in Hc. subst m'.
  destruct s as [k tag t|k tag d|k tag t|k tag d|k tag t|k tag ktag vtag t|k tag ktag vtag d];
    cbn [stmt_key agrees_field field_doc typed_field initial] in *.
  - destruct (own_value m k) as [v|] eqn:Ev; cbn [fold_left]; [|split; [apply only_refl | done]].
    unfold build_field. cbn [fst]. rewrite Hc. cbn [build_case snd scalar_value].
    split; [apply only_set | by eapply own_value_set, own_value_some].
  - destruct (own_value m k) as [v|] eqn:Ev; cbn [fold_left]; [|rewrite Hi; split; [apply only_refl | done]].
    unfold build_field. cbn [fst]. rewrite Hc. cbn [build_case snd]. specialize (IH d v (Hty v eq_refl)).
    split; [apply only_set|]. rewrite own_value_set; [done|]. destruct n; [done|]. destruct IH as [[o ->] _]. done.
  - rewrite (fold_left_maps _ (fun m v => push k v m)) by (intros acc x; unfold build_field; cbn [fst]; by rewrite Hc).
    apply (push_all k _ own inh []); done.
  - rewrite (fold_left_maps _ (fun m v => push k (build P rt n d (CSub (doc_of P n d v))) m))
      by (intros acc x; unfold build_field; cbn [fst]; by rewrite Hc).
    rewrite <- (fold_left_maps (fun m v => push k v m) _ (fun v => build P rt n d (CSub (doc_of P n d v)))) by done.
    destruct (push_all k (map (fun v => build P rt n d (CSub (doc_of P n d v))) (elements (get m k))) own inh []) as [Ho Hg]; [done|].
    split; [done|]. eexists. split; [exact Hg|]. apply Forall2_map_self. eapply Forall_impl; [exact Hty|]. intros v. apply IH.
  - destruct (elements (get m k)) as [|v vs]; cbn [fold_left]; [split; [apply only_refl | done]|].
    unfold build_field. cbn [fst]. rewrite Hc. cbn [build_case snd]. apply (push_all k (v :: vs) own inh []); done.
  - destruct Hc as [dv Hc]. unfold entries. destruct (own_value m k) as [v|] eqn:Ev; cbn [fold_left]; [|split; [apply only_refl | done]].
    rewrite (fold_left_maps _ (fun m p => set_entry k p.1 p.2 m)) by (intros acc x; unfold build_field; cbn [fst]; by rewrite Hc).
    apply (set_all k _ own inh []); [done|]. apply enumerate_NoDup, (proj1 Hty v eq_refl).
  - destruct Hc as [dv Hc]. unfold entries. destruct (own_value m k) as [v|] eqn:Ev; cbn [fold_left].
    2: { split; [apply only_refl|]. exists []. split; [done | constructor]. }
    destruct (proj1 Hty v eq_refl) as [Hnd Hen].
    set (f := fun p : jsstr * jsval => (p.1, build P rt n d (CSub (doc_of P n d p.2)))).
    rewrite (fold_left_maps _ (fun m p => set_entry k (f p).1 (f p).2 m))
      by (intros acc x; unfold build_field; cbn [fst]; by rewrite Hc).
    rewrite <- (fold_left_maps (fun m p => set_entry k p.1 p.2 m) _ f) by done.
    destruct (set_all k (map f (enumerate (own_entries v))) own inh []) as [Ho Hg]; [done | |].
    { cbn [app]. rewrite map_map. by apply enumerate_NoDup. }
    split; [done|]. eexists. split; [exact Hg|]. apply Forall2_map_self. rewrite enumerate_perm.
    eapply Forall_impl; [exact Hen|]. intros p [_ Hp]. split; [done|]. by apply IH.
Qed.
(** A statement only looks at its own property. *)
Lemma agrees_field_only k n m m1 m2 s :
  only k m1 m2 -> stmt_key s <> k -> agrees_field (agrees n) m m1 s -> agrees_field (agrees n) m m2 s.
Proof.
  intros Ho Hk. pose proof (only_get k (stmt_key s) _ _ Ho Hk) as Hg. pose proof (only_own k (stmt_key s) _ _ Ho Hk) as Hw.
  destruct s; cbn [agrees_field stmt_key] in *; by rewrite ?Hg, ?Hw.
Qed.

Lemma initial_only k m1 m2 s : only k m1 m2 -> stmt_key s <> k -> initial s m1 -> initial s m2.
Proof.
  intros Ho Hk. pose proof (only_get k (stmt_key s) _ _ Ho Hk) as Hg. pose proof (only_own k (stmt_key s) _ _ Ho Hk) as Hw.
  destruct s; cbn [initial stmt_key] in *; by rewrite ?Hg, ?Hw.
Qed.

Lemma fields_built n m c l : forall own inh,
  NoDup (map stmt_key l) -> Forall (fun s => case_ok P c s = true) l -> Forall (typed_field rt (typed P rt n) m) l ->
  Forall (fun s => initial s (JObj own inh)) l ->
  (forall c v, typed P rt n c v -> agrees n c v (build P rt n c (CSub (doc_of P n c v)))) ->
  exists own', fold_left (build_field P rt n c) (concat (map (field_doc (doc_of P n) m) l)) (JObj own inh) = JObj own' inh /\
    Forall (agrees_field (agrees n) m (JObj own' inh)) l /\
    (forall k, ~ In k (map stmt_key l) -> assoc (js k) own' = assoc (js k) own).
Proof.
  induction l as [|s l IHl]; intros own inh Hnd Hc Hty Hi IH; [by exists own|].
  apply Forall_cons in Hc as [Hc1 Hc]. apply Forall_cons in Hty as [Hty1 Hty]. apply Forall_cons in Hi as [Hi1 Hi].
  cbn [map] in Hnd. apply NoDup_cons in Hnd as [Hn Hnd]. cbn [map concat]. rewrite fold_left_app.
  destruct (field_built n m c s own inh Hc1 Hty1 Hi1 IH) as [Ho Hag].
  pose proof Ho as (o1 & o2 & i & [= <- <-] & Em & Hne). rewrite Em in *.
  destruct (IHl o2 inh Hnd Hc Hty) as (own' & Ef & Hall & Hrest); [|done|].
  { rewrite Forall_forall in Hi |- *. intros s' Hs'. eapply initial_only; [exact Ho | | by apply Hi].
    intros E. apply Hn. rewrite <- E. apply list_elem_of_In, in_map. by apply list_elem_of_In. }
  exists own'. split; [done|]. split.
  - constructor; [|done]. destruct s; cbn [agrees_field stmt_key] in *;
      unfold get, own_value in *; cbn [own_entries] in *; rewrite Hrest; (done || by rewrite <- list_elem_of_In).
  - intros k Hk. rewrite Hrest by (intros ?; apply Hk; by right). apply Hne. intros ->%js_inj. apply Hk. by left.
Qed.

Lemma init_ok_initial c s : init_ok P c s = true -> initial s (new P rt c).
Proof.
  assert (forall k, assoc (js k) (named (sm_init P c)) = snd <$> List.find (fun p => String.eqb p.1 k) (sm_init P c)) as Ha.
  { intros k. unfold named. induction (sm_init P c) as [|[k' v] l IH]; [done|]. cbn.
    destruct (String.eqb_spec k' k) as [->|Hne]; [by rewrite bool_decide_true|].
    rewrite bool_decide_false; [exact IH|]. intros H%js_inj. congruence. }
  unfold init_ok, new. destruct s; cbn [stmt_key initial]; unfold get, own_value; cbn [own_entries]; rewrite Ha;
    destruct (List.find _ _) as [[k' [| | | | | | |[]|[] []]]|]; done.
Qed.

Lemma encodes_all_fields c : tables_ok P c = true -> all_fields c.
Proof.
  unfold tables_ok. rewrite !andb_true_iff. intros [[_ [Ht Hf]] _] k v Hk.
  assert (encodes_all P c (has_long rt) = true) as H by by destruct (has_long rt).
  unfold encodes_all in H. rewrite forallb_forall in H. apply list_elem_of_In, H, existsb_exists in Hk as (k' & Hk' & E).
  apply String.eqb_eq in E. cbn in E. subst k'. apply in_map_iff in Hk' as (s & <- & Hs). exists s. by rewrite list_elem_of_In.
Qed.

Lemma tables_ok_all c : tables_ok P c = true ->
  NoDup (map stmt_key (sm_encode P c)) /\
  Forall (fun s => tag_ok s = true /\ case_ok P c s = true /\ init_ok P c s = true) (sm_encode P c).
Proof.
  unfold tables_ok. rewrite !andb_true_iff, forallb_forall. intros [[Hd _] Hall]. split; [by apply distinct_NoDup|].
  apply Forall_forall. intros s Hs. apply list_elem_of_In, Hall in Hs. rewrite !andb_true_iff in Hs. tauto.
Qed.

Lemma build_agrees n : forall c m,
  (forall c, tables_ok P c = true) -> typed P rt n c m -> agrees n c m (build P rt n c (CSub (doc_of P n c m))).
Proof.
  induction n as [|n IH]; intros c m Htab Hty; [done|]. destruct Hty as [_ Hty].
  destruct (tables_ok_all c (Htab c)) as [Hnd Hall]. cbn [build doc_of agrees].
  destruct (fields_built n m c (sm_encode P c) (named (sm_init P c)) (prototype P rt c)) as (own' & Ef & Hag & _); try done.
  - eapply Forall_impl; [exact Hall|]. by intros s (_ & ? & _).
  - eapply Forall_impl; [exact Hall|]. intros s (_ & _ & Hi). by apply init_ok_initial.
  - intros c' v Hv. by apply IH.
  - change (fold_left _ _ (new P rt c)) with
      (fold_left (build_field P rt n c) (concat (map (field_doc (doc_of P n) m) (sm_encode P c))) (new P rt c)).
    unfold new. rewrite Ef. split; [by eexists|]. split; [by apply encodes_all_fields | done].
Qed.
End Agree.

(** ** Decoding what was encoded *)

Section RoundTrip.
Context {class : Type} `{EqDecision class} (P : static_module class) (rt : pb_runtime) `{!PbLaws rt}.
Context (tables : forall c, tables_ok P c = true).

Lemma case_fits n c s m :
  case_ok P c s = true -> tag_ok s = true -> typed_field rt (typed P rt n) m s ->
  (forall c v, typed P rt n c v -> fits P rt n c (CSub (doc_of P n c v))) ->
  Forall (fun p => 0 < p.1 < 2 ^ 29 /\ exists d, find_case P c p.1 = Some d /\ fits_case rt (fits P rt n) p.2 d)
    (field_doc (doc_of P n) m s).
Proof.
  intros Hc Ht Hty IH. apply case_ok_case in Hc. pose proof (tag_ok_range s Ht) as Hr.
  assert (0 < stmt_tag s / 8 < 2 ^ 29) as Hn by (split; [apply Z.div_str_pos; lia | apply Z.div_lt_upper_bound; lia]).
  destruct s as [k tag t|k tag d|k tag t|k tag d|k tag t|k tag ktag vtag t|k tag ktag vtag d];
    cbn [stmt_tag field_doc typed_field] in *.
  - destruct (own_value m k) as [v|]; [|constructor]. constructor; [|constructor]. split; [done|]. eexists. split; [exact Hc|].
    cbn. auto.
  - destruct (own_value m k) as [v|]; [|constructor]. constructor; [|constructor]. split; [done|]. eexists. split; [exact Hc|].
    cbn. auto.
  - apply Forall_map. eapply Forall_impl; [exact Hty|]. intros v Hv. cbn. split; [done|]. eexists. split; [exact Hc|]. done.
  - apply Forall_map. eapply Forall_impl; [exact Hty|]. intros v Hv. cbn. split; [done|]. eexists. split; [exact Hc|]. cbn. auto.
  - destruct (elements (get m k)) as [|v vs]; [constructor|]. constructor; [|constructor]. split; [done|]. eexists. split; [exact Hc|]. done.
  - destruct Hc as [dv Hc]. destruct (own_value m k) as [v|]; [|constructor]. destruct (proj1 Hty v eq_refl) as [_ Hen].
    apply Forall_map. rewrite enumerate_perm. eapply Forall_impl; [exact Hen|]. intros p [Hk Hp]. cbn. split; [done|].
    eexists. split; [exact Hc|]. cbn. eauto 10.
  - destruct Hc as [dv Hc]. destruct (own_value m k) as [v|]; [|constructor]. destruct (proj1 Hty v eq_refl) as [_ Hen].
    apply Forall_map. rewrite enumerate_perm. eapply Forall_impl; [exact Hen|]. intros p [Hk Hp]. cbn. split; [done|].
    eexists. split; [exact Hc|]. cbn. eauto 10.
Qed.

Lemma doc_fits n : forall c m, typed P rt n c m -> fits P rt n c (CSub (doc_of P n c m)).
Proof.
  induction n as [|n IH]; intros c m Hty; [done|]. destruct Hty as [_ Hty]. cbn [fits doc_of].
  destruct (tables_ok_all P c (tables c)) as [_ Hall]. apply Forall_concat, Forall_map.
  rewrite Forall_forall in Hty, Hall |- *. intros s Hs. destruct (Hall s Hs) as (Ht & Hc & _). apply case_fits; auto.
Qed.

(** The bytes of a typed message decode to a message that agrees with it. *)
Lemma decode_encode n c m :
  typed P rt n c m -> Z.of_nat n <= rt_recursionLimit rt + 1 -> Z.of_nat n <= rt_readLimit rt + 1 ->
  zlen (emit rt (doc_of P n c m)) < 2 ^ 32 ->
  encode P rt c m = Ok (emit rt (doc_of P n c m)) /\
  exists m', decode P rt c (emit rt (doc_of P n c m)) = Ok m' /\ agrees P rt n c m m'.
Proof.
  intros Hty Hl Hrl Hs. split; [apply encode_at_ok; (done || lia)|].
  exists (build P rt n c (CSub (doc_of P n c m))). split; [|by apply (build_agrees P rt)].
  destruct n as [|n]; [done|]. unfold decode. destruct (Z.ltb_spec (rt_readLimit rt) 0); [pose proof (limits_pos); lia|].
  pose proof (decode_loop_at P rt n c (doc_of P (S n) c m) (S (length (emit rt (doc_of P (S n) c m))))
    (emit rt (doc_of P (S n) c m)) 0 0) as Hd. rewrite !Z.add_0_l in Hd. rewrite Hd; [done| | |lia| |lia].
  - by apply doc_fits.
  - apply at_pos_whole.
  - unfold zlen. lia.
Qed.
End RoundTrip.

(** ** Termination *)

Section Ends.
Context {class : Type} (P : static_module class) (rt : pb_runtime) `{!PbLaws rt}.

(** A read from [pos] that ends, inside the buffer. *)
Definition forward {A} (data : bytes) (pos : Z) (r : result (A * Z)) : Prop :=
  r <> NoFuel /\ forall x p, r = Ok (x, p) -> pos <= p <= zlen data.

Lemma forward_ok {A} data pos (x : A) p : pos <= p <= zlen data -> forward data pos (Ok (x, p)).
Proof. intros. split; [done|]. by intros ? ? [= <- <-]. Qed.

Lemma forward_throw {A} data pos c msg : forward (A:=A) data pos (throw c msg).
Proof. by split. Qed.

Lemma forward_bind {A B} data pos pos' (m : result (A * Z)) (k : A * Z -> result (B * Z)) :
  forward data pos' m -> pos <= pos' -> (forall x p, m = Ok (x, p) -> pos' <= p <= zlen data -> forward data p (k (x, p))) ->
  forward data pos (mbind k m).
Proof.
  intros [Hm Hp] Hle Hk. destruct m as [[x p]|e|]; [|by split|done]. specialize (Hp x p eq_refl). cbn.
  destruct (Hk x p eq_refl Hp) as [Hn Hq]. split; [done|]. intros y q Hy. specialize (Hq y q Hy). lia.
Qed.

Lemma forward_read t data pos : forward data pos (rt_read rt t data pos).
Proof. split; [apply read_ends|]. intros x p Hr. apply read_forward in Hr. lia. Qed.

Lemma forward_uint32 data pos : forward data pos (rt_read_uint32 rt data pos).
Proof. split; [apply read_uint32_ends|]. intros x p Hr. apply read_uint32_forward in Hr. lia. Qed.

Lemma read_packed_forward fuel : forall data pos end_ k t m,
  pos <= zlen data < pos + Z.of_nat fuel -> forward data pos (read_packed rt fuel data pos end_ k t m).
Proof.
  induction fuel as [|fuel IH]; intros data pos end_ k t m Hf; [lia|]. cbn. destruct (pos <? end_); cbn; [|apply forward_ok; lia].
  eapply forward_bind; [apply forward_read | lia |]. intros x p Hr Hp. apply read_forward in Hr. apply IH. cbn. lia.
Qed.

Lemma read_entry_forward fuel : forall data pos end_ depth rv key value,
  pos <= zlen data < pos + Z.of_nat fuel -> (forall p, pos < p <= zlen data -> forward data p (rv p)) ->
  forward data pos (read_entry rt fuel data pos end_ depth rv key value).
Proof.
  induction fuel as [|fuel IH]; intros data pos end_ depth rv key value Hf Hv; [lia|]. cbn [read_entry].
  destruct (pos <? end_); cbn [negb]; [|apply forward_ok; lia].
  eapply forward_bind; [apply forward_uint32 | lia |]. intros tag p Hr Hp. apply read_uint32_forward in Hr. cbn [fst snd].
  destruct (_ =? 1).
  { eapply forward_bind; [apply forward_read | lia |]. intros x q Hq Hq'. apply IH; cbn; [lia|]. intros; apply Hv; lia. }
  destruct (_ =? 2).
  { eapply forward_bind; [apply Hv; lia | lia |]. intros x q Hq Hq'. apply IH; cbn; [lia|]. intros; apply Hv; lia. }
  pose proof (skipType_ends data p (Z.land tag 7) depth) as Hn.
  destruct (rt_skipType rt data p (Z.land tag 7) depth) as [q|e|] eqn:Hs; [|by split|done]. cbn.
  apply skipType_forward in Hs.
  destruct (IH data q end_ depth rv key value) as [Hm Hq]; [lia | intros; apply Hv; lia |]. split; [done|].
  intros x r Hx. specialize (Hq x r Hx). lia.
Qed.

Lemma run_dec_forward fuel data depth (sub : class -> Z -> Z -> result (jsval * Z)) tag pos m d :
  pos <= zlen data < pos + Z.of_nat fuel ->
  (forall c p e, pos <= p <= zlen data -> forward data p (sub c p e)) -> forward data pos (run_dec rt fuel data depth sub tag pos m d).
Proof.
  intros Hf Hsub.
  assert (forall p c, pos <= p -> forward data p (read_message rt data sub c p)) as Hmsg.
  { intros p c Hp. eapply forward_bind; [apply forward_uint32 | lia |]. intros l q _ Hq. apply Hsub. cbn. lia. }
  assert (forall k v rv, (forall p, pos < p <= zlen data -> forward data p (rv p)) ->
            forward data pos (read_map rt fuel data depth k v rv pos m)) as Hmap.
  { intros k v rv Hv. eapply forward_bind; [apply forward_uint32 | lia |]. intros l q Hr Hq. apply read_uint32_forward in Hr.
    cbn [fst snd]. eapply forward_bind; [apply read_entry_forward | lia |]; [lia | intros; apply Hv; lia|].
    intros x r _ Hr'. apply forward_ok; cbn; lia. }
  assert (forall k t, forward data pos (let! r := rt_read rt t data pos in Ok (push k r.1 m, r.2))) as Hpush.
  { intros k t. eapply forward_bind; [apply forward_read | lia |]. intros x p _ Hp. apply forward_ok; cbn; lia. }
  destruct d; cbn [run_dec]; try (by apply Hmap; intros; (apply forward_read || apply Hmsg; lia)); try (by apply Hpush).
  - eapply forward_bind; [apply forward_read | lia |]. intros x p _ Hp. apply forward_ok; cbn; lia.
  - eapply forward_bind; [apply Hmsg; lia | lia |]. intros x p _ Hp. apply forward_ok; cbn; lia.
  - eapply forward_bind; [apply Hmsg; lia | lia |]. intros x p _ Hp. apply forward_ok; cbn; lia.
  - destruct (_ =? 2); [|apply Hpush]. eapply forward_bind; [apply forward_uint32 | lia |]. intros l q Hr Hq.
    apply read_uint32_forward in Hr. cbn [fst snd]. apply read_packed_forward. lia.
Qed.

Lemma decode_loop_forward fuel : forall c data pos end_ error depth m,
  pos <= zlen data < pos + Z.of_nat fuel -> forward data pos (decode_loop P rt fuel c data pos end_ error depth m).
Proof.
  induction fuel as [|fuel IH]; intros c data pos end_ error depth m Hf; [lia|]. cbn [decode_loop].
  destruct (pos <? end_); cbn [negb]; [|apply forward_ok; lia].
  eapply forward_bind; [apply forward_uint32 | lia |]. intros tag p Hr Hp. apply read_uint32_forward in Hr. cbn [fst snd].
  destruct (bool_decide _); [apply forward_ok; lia|].
  eapply (forward_bind _ _ p); [|lia|intros x q _ Hq; apply IH; cbn; lia].
  destruct (find_case P c _) as [d|].
  - apply run_dec_forward; [lia|]. intros c' p' e' Hp'. destruct (_ <? _); [apply forward_throw | apply IH; lia].
  - pose proof (skipType_ends data p (Z.land tag 7) depth) as Hn.
    destruct (rt_skipType rt data p (Z.land tag 7) depth) as [q|e|] eqn:Hs; [|by split|done].
    apply skipType_forward in Hs. by apply forward_ok.
Qed.

(** [decode] returns or throws on every buffer. *)
Lemma decode_ends c data : decode P rt c data <> NoFuel.
Proof.
  unfold decode. destruct (_ <? 0); [done|].
  destruct (decode_loop_forward (S (length data)) c data 0 (zlen data) None 0 (new P rt c)) as [Hn _]; [unfold zlen; lia|].
  by destruct (decode_loop P rt _ _ _ _ _ _ _ _) as [[]| |].
Qed.

Lemma concat_results_ends {A} (f : A -> result bytes) l : (forall x, f x <> NoFuel) -> concat_results f l <> NoFuel.
Proof. intros Hf. induction l as [|x l IH]; [done|]. cbn. specialize (Hf x). destruct (f x); try done. cbn. by destruct (concat_results f l). Qed.

Lemma run_enc_ends (sub : class -> jsval -> result bytes) m s : (forall c v, sub c v <> NoFuel) -> run_enc rt sub m s <> NoFuel.
Proof.
  intros Hsub. pose proof write_ends as Hw.
  assert (forall tag t v, put_scalar rt tag t v <> NoFuel) as Hp.
  { intros tag t v. unfold put_scalar. specialize (Hw t v). by destruct (rt_write rt t v). }
  assert (forall tag c v, put_message rt sub tag c v <> NoFuel) as Hm.
  { intros tag c v. unfold put_message. specialize (Hsub c v). by destruct (sub c v). }
  assert (forall tag kt vt value p, (forall v, value v <> NoFuel) -> put_entry rt tag kt vt value p <> NoFuel) as He.
  { intros tag kt vt value p Hv. unfold put_entry. specialize (Hw TString (JStr p.1)). specialize (Hv p.2).
    destruct (rt_write rt TString (JStr p.1)); try done. cbn. by destruct (value p.2). }
  destruct s; cbn [run_enc]; try (destruct (own_value m k); [|done]); try (by apply concat_results_ends); try done.
  - destruct (elements _) as [|v vs]; [done|]. pose proof (concat_results_ends (rt_write rt t) (v :: vs) (Hw t)).
    by destruct (concat_results _ _).
  - apply concat_results_ends. intros p. apply He, Hw.
  - apply concat_results_ends. intros p. apply He. intros v. specialize (Hsub c v). by destruct (sub c v).
Qed.

Lemma encode_at_ends fuel : forall c m q, rt_recursionLimit rt + 1 < q + Z.of_nat fuel -> q <= rt_recursionLimit rt + 1 ->
  encode_at P rt fuel c m q <> NoFuel.
Proof.
  induction fuel as [|fuel IH]; intros c m q Hf Hq; [lia|]. cbn [encode_at].
  destruct (Z.ltb_spec (rt_recursionLimit rt) q); [done|]. destruct (_ && _); [done|].
  apply concat_results_ends. intros s. apply run_enc_ends. intros c' v. apply IH; lia.
Qed.

(** [encode] returns or throws on every value: the depth is limited. *)
Lemma encode_ends c m : encode P rt c m <> NoFuel.
Proof. pose proof limits_pos. apply encode_at_ends; lia. Qed.
End Ends.

(** ** Delimited messages *)

Section Delimited.
Context {class : Type} `{EqDecision class} (P : static_module class) (rt : pb_runtime) `{!PbLaws rt}.
Context (tables : forall c, tables_ok P c = true).

(** A message written with its length is read back, whatever follows it. *)
Lemma decodeDelimited_encodeDelimited n c m rest :
  typed P rt n c m -> Z.of_nat n <= rt_recursionLimit rt + 1 -> Z.of_nat n <= rt_readLimit rt + 1 ->
  zlen (emit rt (doc_of P n c m)) < 2 ^ 32 ->
  exists bs m', encodeDelimited P rt c m = Ok bs /\ decodeDelimited P rt c (bs ++ rest) = Ok m' /\ agrees P rt n c m m'.
Proof.
  intros Hty Hl Hrl Hs. destruct (decode_encode P rt tables n c m Hty Hl Hrl Hs) as [He _].
  set (doc := doc_of P n c m) in *. unfold encodeDelimited. rewrite He. cbn [mbind result_bind].
  pose proof (zlen_nonneg (emit rt doc)) as H0. unfold delimited. rewrite uint32_varint by lia.
  eexists _, (build P rt n c (CSub doc)). split; [done|]. split; [|by apply (build_agrees P rt)].
  unfold decodeDelimited. rewrite <- (app_assoc _ _ rest).
  pose proof (read_uint32_varint (rt:=rt) [] (zlen (emit rt doc)) (emit rt doc ++ rest) ltac:(lia)) as Hr. cbn [app] in Hr.
  change (zlen []) with 0 in Hr. rewrite Hr. cbn [mbind result_bind fst snd]. rewrite Z.add_0_l.
  destruct (Z.ltb_spec (rt_readLimit rt) 0); [pose proof (limits_pos); lia|]. destruct n as [|n]; [done|].
  rewrite (decode_loop_at P rt n); [done| | |lia| |lia].
  - by apply doc_fits.
  - by exists (encodeVarint (zlen (emit rt doc))), rest.
  - unfold zlen. rewrite !length_app. lia.
Qed.
End Delimited.
