(* ===== verification/StaticObjects.v ===== *)
(** * Generated message classes: plain objects

    The forms of the statements of [verify], [fromObject] and [toObject] of
    src/node/cap_pb.js, with their meaning.  [verify] returns the reason why a
    message is not valid; [fromObject] converts a plain object to a message and
    [toObject] converts back.  JobRequest has most of the forms, BusPacket a oneof
    and bytes, Timestamp a 64-bit integer. *)

From S2P Require Import Prelude JsString JsValue Codec PbRuntime StaticCode.

(** ** Forms *)

Section Forms.
Context {class : Type}.

(** What [verify] asks of a value. *)
Inductive check : Type :=
| IsString | IsInteger | IsLong | IsNumber | IsBoolean | IsBuffer
| IsEnum (values : list Z)
| IsMessage (c : class).

Inductive verify_stmt : Type :=
| Check (k : string) (t : check)
| CheckEach (k : string) (t : check)
| CheckEntries (k : string) (t : check)
(** [{ if (properties.o === 1) return ..; properties.o = 1; .. }]; the first
    member of a oneof has no test. *)
| CheckMember (o : string) (tested : bool) (k : string) (t : check).

(** How [fromObject] converts a value. *)
Inductive conversion : Type :=
| ToText | ToInt32 | ToBoolean | ToNumber | ToBytes
| ToLong (unsigned : bool)
| ToEnum (values : list (string * Z))
| ToMessage (c : class).

Inductive convert_stmt : Type :=
| Convert (k : string) (t : conversion)
| ConvertEach (k : string) (t : conversion)
| ConvertEntries (k : string) (t : conversion).

(** How [toObject] converts a value. *)
Inductive shown : Type :=
| AsIs | AsNumber | AsBytes
| AsLong (unsigned : bool)
| AsEnum (values : list (string * Z))
| AsObject (c : class).

Inductive show_stmt : Type :=
| Show (k : string) (t : shown)
| ShowEach (k : string) (t : shown)
| ShowEntries (k : string) (t : shown)
(** .. with [if (options.oneofs) object.o = "k";] *)
| ShowMember (o k : string) (t : shown).

(** What [options.defaults] gives a field. *)
Inductive default_value : Type :=
| DefaultValue (v : jsval)
| DefaultEnum (name : string) (n : Z)
| DefaultLong
| DefaultBytes.

Record to_object : Type := {
  to_arrays : list string;
  to_objects : list string;
  to_defaults : list (string * default_value);
  to_shows : list show_stmt
}.

Record static_objects : Type := {
  so_verify : class -> list verify_stmt;
  so_fromObject : class -> list convert_stmt;
  so_toObject : class -> to_object
}.
End Forms.
Arguments check : clear implicits.
Arguments verify_stmt : clear implicits.
Arguments conversion : clear implicits.
Arguments convert_stmt : clear implicits.
Arguments shown : clear implicits.
Arguments show_stmt : clear implicits.
Arguments to_object : clear implicits.
Arguments static_objects : clear implicits.

(** ** The language *)

(** [v.k] for any value. *)
Definition member (v : jsval) (k : string) : jsval :=
  match v with
  | JObj _ _ => get v k
  | _ => default JUndef (assoc (js k) (own_entries v))
  end.

(** [v.length] *)
Definition length_of (v : jsval) : jsval :=
  match v with
  | JArr l => JNum (NInt (zlen l))
  | JBytes b => JNum (NInt (zlen b))
  | JStr s => JNum (NInt (zlen s))
  | _ => member v "length"
  end.

(** The integer part of a number, 0 without one. *)
Definition integer_part (n : jsnum) : Z :=
  match n with
  | NInt z => z
  | NFrac q => Z.quot (QArith_base.Qnum q) (Z.pos (QArith_base.Qden q))
  | _ => 0
  end.

(** [v | 0] and [v >>> 0] *)
Definition to_int32 (v : jsval) : Z := low32 (integer_part (to_number v)).
Definition to_uint32 (v : jsval) : Z := integer_part (to_number v) mod 2 ^ 32.

(** [parseInt(s, 10)] *)
Definition parseInt10 (s : jsstr) : jsnum :=
  let '(neg, t) := match trim_start s with
                   | 45 :: t => (true, t)
                   | 43 :: t => (false, t)
                   | t => (false, t)
                   end in
  match (span_digits t).1 with
  | [] => NNaN
  | ds => number_of_Z (if neg : bool then - decimal_value ds else decimal_value ds)
  end.

(** [Enum[v]] of an object that maps names to numbers and numbers to names. *)
Definition enum_get (values : list (string * Z)) (v : jsval) : jsval :=
  match List.find (fun p => bool_decide (js p.1 = to_text v)) values with
  | Some p => JNum (NInt p.2)
  | None =>
      match List.find (fun p => bool_decide (decimal_text p.2 = to_text v)) values with
      | Some p => JStr (js p.1)
      | None => JUndef
      end
  end.

Fixpoint map_results {A B} (f : A -> result B) (l : list A) : result (list B) :=
  match l with
  | [] => Ok []
  | x :: l' => let! y := f x in let! ys := map_results f l' in Ok (y :: ys)
  end.

Fixpoint fold_results {A B} (f : A -> B -> result A) (acc : A) (l : list B) : result A :=
  match l with
  | [] => Ok acc
  | x :: l' => let! acc := f acc x in fold_results f acc l'
  end.

Section Meaning.
Context {class : Type} (P : static_module class) (D : static_objects class) (rt : pb_runtime).

(** ** verify *)

(** The texts of the checks, in the order of [check]. *)
Definition expected (t : check class) : string :=
  match t with
  | IsString => "string"
  | IsInteger => "integer"
  | IsLong => "integer|Long"
  | IsNumber => "number"
  | IsBoolean => "boolean"
  | IsBuffer => "buffer"
  | IsEnum _ => "enum value"
  | IsMessage _ => "object"
  end.

Definition reason (k : string) (what : string) : jsstr := js k ++ js ": " ++ js what ++ js " expected".

(** The conditions of the checks. *)
Definition check_holds (t : check class) (v : jsval) : bool :=
  match t with
  | IsString => rt_isString rt v
  | IsInteger => rt_isInteger rt v
  | IsLong => rt_isInteger rt v || truthy v && rt_isInteger rt (member v "low") && rt_isInteger rt (member v "high")
  | IsNumber => match v with JNum _ => true | _ => false end
  | IsBoolean => match v with JBool _ => true | _ => false end
  | IsBuffer => truthy v && match length_of v with JNum _ => true | _ => false end || rt_isString rt v
  | IsEnum values => existsb (fun n => strict_eq v (JNum (NInt n))) values
  | IsMessage _ => true
  end.

Section Verify.
(** [C.verify(v, long + 1)] *)
Context (sub : class -> jsval -> result (option jsstr)).

Definition check_value (k suffix : string) (t : check class) (v : jsval) : result (option jsstr) :=
  match t with
  | IsMessage c => let! e := sub c v in Ok ((fun e => js k ++ js "." ++ e) <$> e)
  | _ => Ok (if check_holds t v then None else Some (reason k (expected t ++ suffix)))
  end.

(** The first reason in a list. *)
Fixpoint check_all (k suffix : string) (t : check class) (vs : list jsval) : result (option jsstr) :=
  match vs with
  | [] => Ok None
  | v :: vs =>
      let! e := check_value k suffix t v in
      match e with Some e => Ok (Some e) | None => check_all k suffix t vs end
  end.

(** One statement: a reason to return, or the oneofs in [properties]. *)
Definition run_verify (message : jsval) (properties : list string) (s : verify_stmt class)
    : result (option jsstr * list string) :=
  let own k body := match own_value message k with Some v => body v | None => Ok (None, properties) end in
  let keep (r : result (option jsstr)) := let! e := r in Ok (e, properties) in
  match s with
  | Check k t => own k (fun v => keep (check_value k "" t v))
  | CheckEach k t =>
      own k (fun v => match v with
                      | JArr l => keep (check_all k "[]" t l)
                      | _ => Ok (Some (reason k "array"), properties)
                      end)
  | CheckEntries k t =>
      own k (fun v => if rt_isObject rt v then keep (check_all k "{k:string}" t (map snd (enumerate (own_entries v))))
                      else Ok (Some (reason k "object"), properties))
  | CheckMember o tested k t =>
      own k (fun v =>
        if tested && existsb (String.eqb o) properties then Ok (Some (js o ++ js ": multiple values"), properties)
        else let! e := check_value k "" t v in Ok (e, o :: properties))
  end.

Fixpoint run_verifies (message : jsval) (properties : list string) (l : list (verify_stmt class))
    : result (option jsstr) :=
  match l with
  | [] => Ok None
  | s :: l =>
      let! r := run_verify message properties s in
      match r.1 with Some e => Ok (Some e) | None => run_verifies message r.2 l end
  end.
End Verify.

(** [C.verify(message, long)]; [null] is [None]. *)
Fixpoint verify_at (fuel : nat) (c : class) (message : jsval) (long : Z) : result (option jsstr) :=
  match fuel with
  | O => NoFuel
  | S fuel =>
      if negb (is_object message) then Ok (Some (js "object expected"))
      else if rt_recursionLimit rt <? long then Ok (Some (js "maximum nesting depth exceeded"))
      else run_verifies (fun c v => verify_at fuel c v (long + 1)) message [] (so_verify D c)
  end.

Definition verify (c : class) (message : jsval) : result (option jsstr) :=
  verify_at (Z.to_nat (rt_recursionLimit rt + 2)) c message 0.

(** ** fromObject *)

(** [new $util.LongBits(v.low >>> 0, v.high >>> 0).toNumber(unsigned)] *)
Definition long_number (unsigned : bool) (v : jsval) : jsval :=
  JNum (rt_longBits rt (to_uint32 (member v "low")) (to_uint32 (member v "high")) unsigned).

Section FromObject.
(** [C.fromObject(v, long + 1)] *)
Context (sub : class -> jsval -> result jsval).

(** The value that is assigned, if one is. *)
Definition convert (c : class) (k : string) (t : conversion class) (v : jsval) : result (option jsval) :=
  match t with
  | ToText => Ok (Some (JStr (to_text v)))
  | ToInt32 => Ok (Some (JNum (NInt (to_int32 v))))
  | ToBoolean => Ok (Some (JBool (truthy v)))
  | ToNumber => Ok (Some (JNum (to_number v)))
  | ToBytes =>
      match v with
      | JStr s => let! b := rt_base64_decode rt s in Ok (Some (JBytes b))
      | _ => Ok (if num_leb (NInt 0) (to_number (length_of v)) then Some v else None)
      end
  | ToLong unsigned =>
      Ok (match rt_Long rt with
          | Some fromValue => Some (fromValue v unsigned)
          | None =>
              match v with
              | JStr s => Some (JNum (parseInt10 s))
              | JNum _ => Some v
              | _ => if is_object v then Some (long_number unsigned v) else None
              end
          end)
  | ToEnum values =>
      Ok (match List.find (fun p => strict_eq v (JStr (js p.1)) || strict_eq v (JNum (NInt p.2))) values with
          | Some p => Some (JNum (NInt p.2))
          | None => match v with JNum _ => Some v | _ => None end
          end)
  | ToMessage d =>
      if rt_isObject rt v then let! m := sub d v in Ok (Some m)
      else throw TypeError (js "." ++ js (sm_name P c) ++ js "." ++ js k ++ js ": object expected")
  end.

Definition convert_each (c : class) (k : string) (t : conversion class) (v : jsval) : result jsval :=
  let! x := convert c k t v in Ok (default JUndef x).

Definition run_convert (c : class) (object message : jsval) (s : convert_stmt class) : result jsval :=
  let fail k what := throw TypeError (js "." ++ js (sm_name P c) ++ js "." ++ js k ++ js ": " ++ js what ++ js " expected") in
  match s with
  | Convert k t =>
      let v := get object k in
      if nullish v then Ok message
      else let! x := convert c k t v in Ok (match x with Some x => set k x message | None => message end)
  | ConvertEach k t =>
      let v := get object k in
      if negb (truthy v) then Ok message
      else match v with
           | JArr l => let! xs := map_results (convert_each c k t) l in Ok (set k (JArr xs) message)
           | _ => fail k "array"
           end
  | ConvertEntries k t =>
      let v := get object k in
      if negb (truthy v) then Ok message
      else if rt_isObject rt v then
        let! xs := map_results (fun p => let! x := convert_each c k t p.2 in Ok (p.1, x)) (enumerate (own_entries v)) in
        Ok (set k (JPlain xs) message)
      else fail k "object"
  end.
End FromObject.

(** [C.fromObject(object, long)]; without fields there is nothing to check. *)
Fixpoint fromObject_at (fuel : nat) (c : class) (object : jsval) (long : Z) : result jsval :=
  match fuel with
  | O => NoFuel
  | S fuel =>
      if instance_of P c object then Ok object
      else if is_nil (so_fromObject D c) then Ok (new P rt c)
      else if negb (rt_isObject rt object) then throw TypeError (js "." ++ js (sm_name P c) ++ js ": object expected")
      else if rt_recursionLimit rt <? long then throw PlainError (js "maximum nesting depth exceeded")
      else fold_results (run_convert (fun c v => fromObject_at fuel c v (long + 1)) c object) (new P rt c) (so_fromObject D c)
  end.

Definition fromObject (c : class) (object : jsval) : result jsval :=
  fromObject_at (Z.to_nat (rt_recursionLimit rt + 2)) c object 0.

(** ** toObject *)

Section ToObject.
(** [C.toObject(v, options, q + 1)] *)
Context (options : to_options) (sub : class -> jsval -> result jsval).

Definition show (t : shown class) (v : jsval) : result jsval :=
  match t with
  | AsIs => Ok v
  | AsNumber => Ok (if op_json options && negb (is_finite (to_number v)) then JStr (to_text v) else v)
  | AsBytes =>
      Ok (match op_bytes options with
          | BytesString => JStr (rt_base64_encode rt v)
          | BytesArray => JArr (elements v)
          | BytesAsIs => v
          end)
  | AsLong unsigned =>
      Ok (match v, op_longs options with
          | JNum n, LongsString => JStr (number_to_text n)
          | JNum _, _ => v
          | _, LongsString => JStr (rt_longToString rt v)
          | _, LongsNumber => long_number unsigned v
          | _, LongsAsIs => v
          end)
  | AsEnum values =>
      Ok (if op_enums options then match enum_get values v with JUndef => v | x => x end else v)
  | AsObject c => sub c v
  end.

Definition run_show (message object : jsval) (s : show_stmt class) : result jsval :=
  let own k t oneof :=
    match own_value message k with
    | Some v => let! x := show t v in Ok (oneof (set k x object))
    | None => Ok object
    end in
  match s with
  | Show k t => own k t id
  | ShowMember o k t => own k t (fun object => if op_oneofs options then set o (JStr (js k)) object else object)
  | ShowEach k t =>
      match elements (get message k) with
      | [] => Ok object
      | l => let! xs := map_results (show t) l in Ok (set k (JArr xs) object)
      end
  | ShowEntries k t =>
      match enumerate (own_entries (get message k)) with
      | [] => Ok object
      | l => let! xs := map_results (fun p => let! x := show t p.2 in Ok (p.1, x)) l in Ok (set k (JPlain xs) object)
      end
  end.

Definition default_of (d : default_value) : jsval :=
  match d with
  | DefaultValue v => v
  | DefaultEnum name n => if op_enums options then JStr (js name) else JNum (NInt n)
  | DefaultLong =>
      match op_longs options with
      | LongsString => JStr (js "0")
      | LongsNumber => JNum (NInt 0)
      | LongsAsIs => if has_long rt then JLong 0 else JNum (NInt 0)
      end
  | DefaultBytes =>
      match op_bytes options with
      | BytesString => JStr []
      | BytesArray => JArr []
      | BytesAsIs => JBytes []
      end
  end.

(** [object] before the fields of the message. *)
Definition initial_object (t : to_object class) : jsval :=
  let put v := fold_left (fun object k => set k v object) in
  let object := JPlain [] in
  let object := if op_arrays options || op_defaults options then put (JArr []) (to_arrays t) object else object in
  let object := if op_objects options || op_defaults options then put (JPlain []) (to_objects t) object else object in
  if op_defaults options then fold_left (fun object p => set p.1 (default_of p.2) object) (to_defaults t) object
  else object.
End ToObject.

(** [C.toObject(message, options, q)] *)
Fixpoint toObject_at (fuel : nat) (c : class) (message : jsval) (options : to_options) (q : Z) : result jsval :=
  match fuel with
  | O => NoFuel
  | S fuel =>
      if is_nil (to_shows (so_toObject D c)) then Ok (JPlain [])
      else if rt_recursionLimit rt <? q then throw PlainError (js "max depth exceeded")
      else if nullish message then throw TypeError (js "Cannot read properties of " ++ to_text message)
      else fold_results (run_show options (fun c v => toObject_at fuel c v options (q + 1)) message)
             (initial_object options (so_toObject D c)) (to_shows (so_toObject D c))
  end.

Definition toObject (c : class) (message : jsval) (options : to_options) : result jsval :=
  toObject_at (Z.to_nat (rt_recursionLimit rt + 2)) c message options 0.

(** [message.toJSON()] *)
Definition toJSON (c : class) (message : jsval) : result jsval := toObject c message (rt_toJSONOptions rt).
End Meaning.
