(* ===== verification/StaticVerify.v ===== *)
(** * Generated message classes: what [verify] accepts

    [verify] of StaticObjects.v runs through the fields and keeps the oneofs it
    has met.  It returns [null] exactly for the valid messages: every own field
    has its type, nested messages are valid and within the depth limit, and at
    most one member of a oneof is set. *)

From S2P Require Import Prelude JsString JsValue Codec PbRuntime StaticCode StaticObjects StaticRoundTrip.

Section Valid.
Context {class : Type} (D : static_objects class) (rt : pb_runtime).

Definition valid_value (valid : class -> jsval -> Prop) (t : check class) (v : jsval) : Prop :=
  match t with IsMessage c => valid c v | _ => check_holds rt t v = true end.

Definition valid_field (valid : class -> jsval -> Prop) (m : jsval) (s : verify_stmt class) : Prop :=
  match s with
  | Check k t | CheckMember _ _ k t => forall v, own_value m k = Some v -> valid_value valid t v
  | CheckEach k t => forall v, own_value m k = Some v -> exists l, v = JArr l /\ Forall (valid_value valid t) l
  | CheckEntries k t => forall v, own_value m k = Some v ->
      rt_isObject rt v = true /\ Forall (fun p => valid_value valid t p.2) (own_entries v)
  end.

(** The members of a oneof that a message has. *)
Definition set_member (m : jsval) (o : string) (s : verify_stmt class) : bool :=
  match s with
  | CheckMember o' _ k _ => String.eqb o o' && match own_value m k with Some _ => true | None => false end
  | _ => false
  end.

Definition members (m : jsval) (o : string) (l : list (verify_stmt class)) : nat :=
  length (List.filter (set_member m o) l).

Fixpoint valid (n : nat) (c : class) (m : jsval) : Prop :=
  match n with
  | O => False
  | S n => is_object m = true /\ Forall (valid_field (valid n) m) (so_verify D c) /\
           forall o, (members m o (so_verify D c) <= 1)%nat
  end.

(** Only the first member of a oneof is not tested. *)
Fixpoint tests_ok (seen : list string) (l : list (verify_stmt class)) : bool :=
  match l with
  | [] => true
  | CheckMember o tested _ _ :: l => (tested || negb (existsb (String.eqb o) seen)) && tests_ok (o :: seen) l
  | _ :: l => tests_ok seen l
  end.

Lemma existsb_eqb o l : existsb (String.eqb o) l = true <-> In o l.
Proof.
  rewrite existsb_exists. split; [intros (x & Hx & E%String.eqb_eq); by subst|]. intros H. exists o.
  split; [done | apply String.eqb_refl].
Qed.

Section Statements.
Context (sub : class -> jsval -> result (option jsstr)) (ok : class -> jsval -> Prop).
Hypothesis sub_spec : forall c v, sub c v = Ok None <-> ok c v.

Lemma check_value_spec k suffix t v : check_value rt sub k suffix t v = Ok None <-> valid_value ok t v.
Proof.
  destruct t; cbn [check_value valid_value]; try (destruct (check_holds rt _ v); split; (done || by intros [=])).
  rewrite <- sub_spec. destruct (sub c v) as [[e|]| |]; cbn [mbind result_bind fmap option_fmap option_map]; split; (done || by intros [=]).
Qed.

Lemma check_all_spec k suffix t vs : check_all rt sub k suffix t vs = Ok None <-> Forall (valid_value ok t) vs.
Proof.
  induction vs as [|v vs IH]; [split; [constructor | done]|]. cbn [check_all]. rewrite Forall_cons, <- IH, <- (check_value_spec k suffix).
  destruct (check_value rt sub k suffix t v) as [[e|]| |]; cbn [mbind result_bind]; split; (done || (by intros [=]) || (by intros [[=] ?]) || tauto).
Qed.

(** The oneofs that a statement adds to [properties]. *)
Definition met (m : jsval) (s : verify_stmt class) : list string :=
  match s with
  | CheckMember o _ k _ => match own_value m k with Some _ => [o] | None => [] end
  | _ => []
  end.

Lemma keep_spec (r : result (option jsstr)) (props props' : list string) (Q : Prop) :
  (r = Ok None <-> Q) -> (let! e := r in Ok (e, props)) = Ok (None, props') <-> Q /\ props' = props.
Proof.
  intros <-. destruct r as [[e|]| |]; cbn [mbind result_bind]; split; (intros H; by simplify_eq) || (intros [H1 H2]; by simplify_eq).
Qed.

Lemma run_verify_spec m props s props' :
  run_verify rt sub m props s = Ok (None, props') <->
  valid_field ok m s /\ props' = met m s ++ props /\
  match s with CheckMember o true k _ => own_value m k <> None -> ~ In o props | _ => True end.
Proof.
  assert (forall (A : jsval -> Prop) v, (forall v', Some v = Some v' -> A v') <-> A v) as Hsome.
  { intros A v. split; [auto | by intros H v' [= <-]]. }
  destruct s as [k t|k t|k t|o tested k t]; cbn [run_verify valid_field met app].
  - destruct (own_value m k) as [v|]; [|naive_solver]. rewrite Hsome, (keep_spec _ _ _ _ (check_value_spec k "" t v)). tauto.
  - destruct (own_value m k) as [v|]; [|naive_solver]. rewrite Hsome.
    destruct v; try (split; [by intros [=] | by intros ((? & [=] & _) & _)]).
    rewrite (keep_spec _ _ _ _ (check_all_spec k "[]" t l)). naive_solver.
  - destruct (own_value m k) as [v|]; [|naive_solver]. rewrite Hsome.
    destruct (rt_isObject rt v); [|split; [by intros [=] | by intros (([=] & _) & _)]].
    rewrite (keep_spec _ _ _ _ (check_all_spec k "{k:string}" t _)), Forall_map, enumerate_perm. tauto.
  - destruct (own_value m k) as [v|]; [|destruct tested; naive_solver]. rewrite Hsome.
    destruct (tested && existsb (String.eqb o) props) eqn:E.
    + apply andb_true_iff in E as [-> E]. apply existsb_eqb in E. split; [by intros [=]|]. intros (_ & _ & Hn).
      exfalso. by apply Hn.
    + assert (match tested return Prop with true => Some v <> None -> ~ In o props | false => True end) as Ht.
      { destruct tested; [|done]. intros _ Hin%existsb_eqb. cbn in E. congruence. }
      rewrite (keep_spec _ _ _ _ (check_value_spec k "" t v)). destruct tested; tauto.
Qed.

Lemma members_cons m o s l : members m o (s :: l) = ((if set_member m o s then 1 else 0) + members m o l)%nat.
Proof. unfold members. cbn [List.filter]. by destruct (set_member m o s). Qed.

(** One statement and the members that may still be set. *)
Lemma members_step m s l props seen :
  tests_ok seen (s :: l) = true -> (forall o, In o props -> In o seen) ->
  (match s with CheckMember o true k _ => own_value m k <> None -> ~ In o props | _ => True end /\
   forall o, (members m o l <= if existsb (String.eqb o) (met m s ++ props) then 0 else 1)%nat) <->
  forall o, (members m o (s :: l) <= if existsb (String.eqb o) props then 0 else 1)%nat.
Proof.
  intros Ht Hp.
  destruct s as [k t|k t|k t|o tested k t]; cbn [met app].
  1-3: by setoid_rewrite members_cons; cbn; naive_solver.
  setoid_rewrite members_cons. cbn [set_member]. destruct (own_value m k) as [v|]; cbn [app].
  2: { setoid_rewrite andb_false_r. split; [by intros [_ H] | intros H; split; [by destruct tested | exact H]]. }
  assert (In o props -> tested = true) as Hto.
  { intros Hin. cbn in Ht. apply andb_true_iff in Ht as [Ht _]. destruct tested; [done|]. cbn in Ht.
    apply negb_true_iff, not_true_iff_false in Ht. exfalso. apply Ht, existsb_eqb, Hp, Hin. }
  split.
  - intros [Hn H] o'. specialize (H o'). cbn [existsb] in H. rewrite andb_true_r. destruct (String.eqb_spec o' o) as [Eo|Eo]; [subst o'|exact H].
    cbn [orb] in H. destruct (existsb (String.eqb o) props) eqn:E; [|lia]. apply existsb_eqb in E. rewrite (Hto E) in Hn.
    exfalso. by apply Hn.
  - intros H. split.
    + destruct tested; [|done]. intros _ Hin. specialize (H o). rewrite String.eqb_refl in H.
      apply existsb_eqb in Hin. rewrite Hin in H. cbn in H. lia.
    + intros o'. specialize (H o'). cbn [existsb]. rewrite andb_true_r in H. destruct (String.eqb_spec o' o) as [Eo|Eo]; [subst o'|exact H].
      cbn [orb]. destruct (existsb _ _); lia.
Qed.

Lemma run_verifies_spec m l : forall seen props,
  tests_ok seen l = true -> (forall o, In o props -> In o seen) ->
  run_verifies rt sub m props l = Ok None <->
  Forall (valid_field ok m) l /\
  forall o, (members m o l <= if existsb (String.eqb o) props then 0 else 1)%nat.
Proof.
  induction l as [|s l IH]; intros seen props Ht Hp.
  { cbn. split; [|done]. intros _. split; [constructor|]. intros o. unfold members. cbn. destruct (existsb _ _); lia. }
  cbn [run_verifies]. pose proof (run_verify_spec m props s (met m s ++ props)) as Hs.
  set (seen' := match s with CheckMember o _ _ _ => o :: seen | _ => seen end).
  assert (tests_ok seen' l = true) as Hl by (destruct s; cbn in Ht; try done; by apply andb_true_iff in Ht as [_ Ht]).
  assert (forall o, In o (met m s ++ props) -> In o seen') as Hp'.
  { intros o Ho. subst seen'. destruct s; cbn [met app] in Ho |- *; auto. destruct (own_value m k); cbn in *; naive_solver. }
  specialize (IH seen' (met m s ++ props) Hl Hp'). rewrite Forall_cons.
  pose proof (members_step m s l props seen Ht Hp) as He.
  rewrite <- He. destruct (run_verify rt sub m props s) as [[[e|] props']| |] eqn:E; cbn [mbind result_bind fst snd].
  - split; [by intros [=]|]. intros ((Hv & _) & Ht' & _). assert (Ok (Some e, props') = Ok (None, met m s ++ props)) by naive_solver. congruence.
  - pose proof (proj1 (run_verify_spec m props s props') E) as (Hv & -> & Ht'). rewrite IH. naive_solver.
  - naive_solver.
  - naive_solver.
Qed.
End Statements.
End Valid.

Section Verify.
Context {class : Type} (D : static_objects class) (rt : pb_runtime) `{!PbLaws rt}.
Context (tests : forall c, tests_ok [] (so_verify D c) = true).

Lemma verify_at_spec fuel : forall c m long,
  rt_recursionLimit rt + 2 - long <= Z.of_nat fuel -> 0 <= long <= rt_recursionLimit rt + 1 ->
  verify_at D rt fuel c m long = Ok None <-> valid D rt (Z.to_nat (rt_recursionLimit rt + 1 - long)) c m.
Proof.
  induction fuel as [|fuel IH]; intros c m long Hf Hl; [lia|]. cbn [verify_at].
  destruct (is_object m) eqn:Eo; cbn [negb].
  2: { split; [by intros [=]|]. destruct (Z.to_nat _); cbn; [done|]. intros [? _]. congruence. }
  destruct (Z.ltb_spec (rt_recursionLimit rt) long).
  { split; [by intros [=]|]. by replace (Z.to_nat (rt_recursionLimit rt + 1 - long)) with O by lia. }
  replace (Z.to_nat (rt_recursionLimit rt + 1 - long)) with (S (Z.to_nat (rt_recursionLimit rt + 1 - (long + 1)))) by lia.
  cbn [valid]. rewrite (run_verifies_spec rt _ (valid D rt (Z.to_nat (rt_recursionLimit rt + 1 - (long + 1)))) ) with (seen := []); try done.
  - cbn. naive_solver.
  - intros c' v. apply IH; lia.
Qed.

(** [verify] accepts exactly the valid messages. *)
Lemma verify_spec c m :
  verify D rt c m = Ok None <-> valid D rt (Z.to_nat (rt_recursionLimit rt + 1)) c m.
Proof. unfold verify. pose proof (limits_pos (rt:=rt)). rewrite verify_at_spec by lia. by rewrite Z.sub_0_r. Qed.
End Verify.
