(* ===== verification/StaticObjectTrip.v ===== *)
(** * Generated message classes: messages and plain objects

    [fromObject] of StaticObjects.v undoes [toObject]: the plain object of a
    typed message converts back to a message that agrees with it, also with the
    options of [toJSON], for any module whose tables match ([objects_ok]). *)

From stdpp Require Import sorting.
From S2P Require Import Prelude JsString JsValue Codec Json PbRuntime StaticCode StaticObjects StaticWire StaticRoundTrip.

(** ** Numbers and texts *)

Lemma decimal_text_inj a b : decimal_text a = decimal_text b -> a = b.
Proof.
  intros H. destruct (proj2 (parse_text_iff (decimal_text a) a)) as [_ <-]; [by left|]. rewrite H.
  apply (parse_text_iff (decimal_text b) b). by left.
Qed.

Lemma number_of_Z_exact z : Z.abs z <= 2 ^ 53 -> number_of_Z z = NInt z.
Proof.
  intros Hz. unfold number_of_Z. rewrite to_double_exact by done.
  destruct (Z.leb_spec (2 ^ 1024) (Z.abs z)); [|done]. assert (2 ^ 53 < 2 ^ 1024) by (apply Z.pow_lt_mono_r; lia). lia.
Qed.

(** [parseInt(String(z), 10)] *)
Lemma parseInt10_decimal z : Z.abs z <= 2 ^ 53 -> parseInt10 (decimal_text z) = NInt z.
Proof.
  intros Hz. destruct (decimal_text_digits z) as (neg & ds & -> & Hds & Hv).
  destruct (digits_of_pattern ds Hds) as [Hd Hne]. unfold parseInt10.
  pose proof (span_digits_app ds [] Hd I) as E. rewrite app_nil_r in E.
  assert (match trim_start (if neg then 45 :: ds else ds) with
          | 45 :: t => (true, t) | 43 :: t => (false, t) | t => (false, t) end = (neg, ds)) as ->.
  { destruct neg; [done|]. destruct Hds as [-> | Hp]; [done|]. destruct ds as [|c ds]; [done|].
    apply leading_digit in Hp. cbn in Hp. repeat destruct Hp as [<-|Hp]; done. }
  rewrite E. cbn [fst]. destruct ds as [|d ds]; [done|]. rewrite Hv. by apply number_of_Z_exact.
Qed.

Lemma number_to_text_int z : Z.abs z <= 2 ^ 53 -> number_to_text (NInt z) = decimal_text z.
Proof. intros Hz. unfold number_to_text. by destruct (Z.leb_spec (Z.abs z) (2 ^ 53)); [|lia]. Qed.

(** ** The order of properties *)

Lemma index_value_inj a b : is_index a = true -> is_index b = true -> decimal_value a = decimal_value b -> a = b.
Proof.
  assert (forall k, is_index k = true -> k = [48] \/ (pattern (between 49 57) is_digit k = true /\ 0 < decimal_value k)) as Hc.
  { intros k. unfold is_index. rewrite andb_true_iff, orb_true_iff, bool_decide_eq_true. intros [[?|Hk] _]; [by left|right].
    assert (pattern (between 49 57) is_digit k = true) as Hp by (by destruct k). split; [done | by apply decimal_value_pos]. }
  intros Ha Hb E. apply Hc in Ha as [->|[Ha Ha0]]; apply Hc in Hb as [->|[Hb Hb0]]; try done.
  - rewrite <- E in Hb0. by vm_compute in Hb0.
  - rewrite E in Ha0. by vm_compute in Ha0.
  - pose proof (digits_fuel (decimal_value a) ltac:(lia)) as Hf.
    rewrite <- (decimal_digits_of_value _ a Ha Hf), E. apply decimal_digits_of_value; [done|]. by rewrite <- E.
Qed.

#[local] Instance index_le_total {A} : Total (@index_le A).
Proof. intros a b. unfold index_le. lia. Qed.
#[local] Instance index_le_trans {A} : Transitive (@index_le A).
Proof. intros a b c. unfold index_le. lia. Qed.

Lemma StronglySorted_fst {A B} (l : list (jsstr * A)) (l' : list (jsstr * B)) :
  map fst l = map fst l' -> StronglySorted index_le l -> StronglySorted index_le l'.
Proof.
  revert l'. induction l as [|p l IH]; intros [|p' l'] E Hs; try done; [constructor|]. injection E as E1 E2.
  apply StronglySorted_inv in Hs as [Hs Hp]. constructor; [by apply (IH l')|].
  rewrite Forall_forall in Hp. apply Forall_forall. intros [k v'] Hin. assert (k ∈ map fst l) as Hk.
  { rewrite E2. apply list_elem_of_fmap. by exists (k, v'). }
  apply list_elem_of_fmap in Hk as ([? v] & -> & Hv). specialize (Hp _ Hv). unfold index_le in *. cbn in *. by rewrite <- E1.
Qed.

Lemma Forall_fst {A B} (Q : jsstr -> Prop) (l : list (jsstr * A)) (l' : list (jsstr * B)) :
  map fst l = map fst l' -> Forall (fun p => Q p.1) l -> Forall (fun p => Q p.1) l'.
Proof. intros E H. apply (Forall_map fst Q). rewrite <- E. by apply Forall_map. Qed.

(** Entries in the order of an object are enumerated in it. *)
Lemma enumerate_ordered {A B} (l : list (jsstr * A)) (l' : list (jsstr * B)) :
  NoDup (map fst l) -> map fst l' = map fst (enumerate l) -> enumerate l' = l'.
Proof.
  intros Hnd E. assert (NoDup (map fst l')) as Hnd' by (rewrite E; by apply enumerate_NoDup).
  unfold enumerate in E. rewrite map_app in E. apply map_eq_app in E as (a & b & -> & Ea & Eb).
  set (idx := List.filter (fun p => is_index p.1) l) in *.
  assert (Forall (fun p => is_index p.1 = true) a) as Ha.
  { apply (Forall_fst (fun k => is_index k = true) (merge_sort index_le idx)); [by symmetry|]. rewrite merge_sort_Permutation.
    apply Forall_forall. intros p Hp. apply list_elem_of_In, filter_In in Hp. tauto. }
  assert (Forall (fun p => is_index p.1 = false) b) as Hb.
  { apply (Forall_fst (fun k => is_index k = false) (List.filter (fun p => negb (is_index p.1)) l)); [by symmetry|].
    apply Forall_forall. intros p Hp. apply list_elem_of_In, filter_In in Hp as [_ Hp]. by apply negb_true_iff. }
  assert (Forall (fun p => negb (is_index p.1) = true) b) as Hb' by (eapply Forall_impl; [exact Hb|]; cbn; intros ? ->; done).
  assert (Forall (fun p => negb (is_index p.1) = false) a) as Ha' by (eapply Forall_impl; [exact Ha|]; cbn; intros ? ->; done).
  unfold enumerate. rewrite !List.filter_app, (filter_all _ a), (filter_none _ b), (filter_none _ a), (filter_all _ b), app_nil_r by done.
  f_equal. apply (StronglySorted_unique_strong index_le).
  - intros p q Hp Hq H1 H2. rewrite merge_sort_Permutation in Hp. rewrite Forall_forall in Ha.
    apply (key_determines fst a); try done; [rewrite map_app in Hnd'; by apply NoDup_app in Hnd' as (? & _)|].
    apply index_value_inj; auto. unfold index_le in *. lia.
  - apply StronglySorted_merge_sort; apply _.
  - eapply StronglySorted_fst; [symmetry; exact Ea | apply StronglySorted_merge_sort; apply _].
  - apply merge_sort_Permutation.
Qed.

(** ** Tables *)

Section Tables.
Context {class : Type} `{EqDecision class} (P : static_module class) (D : static_objects class).

Definition name_ok (name : string) : bool :=
  match js name with c :: _ => negb (is_digit c || (c =? 45)) | [] => false end.

(** The names of an enum differ and are not numbers. *)
Definition enum_ok (values : list (string * Z)) : bool :=
  distinct (map fst values) && forallb (fun p => name_ok p.1) values.

Definition scalar_shown (t : scalar) (sh : shown class) (cv : conversion class) : bool :=
  match t, sh, cv with
  | TString, AsIs, ToText | TBool, AsIs, ToBoolean | TInt32, AsIs, ToInt32 | TBytes, AsBytes, ToBytes => true
  | TFloat, AsNumber, ToNumber | TDouble, AsNumber, ToNumber => true
  | TInt64, AsLong false, ToLong false | TUint64, AsLong true, ToLong true => true
  | TInt32, AsEnum values, ToEnum values' => bool_decide (values = values') && enum_ok values
  | _, _, _ => false
  end.

Definition message_shown (c : class) (sh : shown class) (cv : conversion class) : bool :=
  match sh, cv with
  | AsObject c', ToMessage c'' => bool_decide (c = c') && bool_decide (c = c'')
  | _, _ => false
  end.

(** The statement of [toObject] and the one of [fromObject] that belong to a
    statement of [encode]. *)
Definition field_shown (s : enc_stmt class) (sh : show_stmt class) (cv : convert_stmt class) : bool :=
  let same k k' k'' := String.eqb k k' && String.eqb k k'' in
  match s, sh, cv with
  | Put k _ t, (Show k' sh | ShowMember _ k' sh), Convert k'' cv => same k k' k'' && scalar_shown t sh cv
  | PutMessage k _ c, (Show k' sh | ShowMember _ k' sh), Convert k'' cv => same k k' k'' && message_shown c sh cv
  | (PutEach k _ t | PutPacked k _ t), ShowEach k' sh, ConvertEach k'' cv => same k k' k'' && scalar_shown t sh cv
  | PutEachMessage k _ c, ShowEach k' sh, ConvertEach k'' cv => same k k' k'' && message_shown c sh cv
  | PutMap k _ _ _ t, ShowEntries k' sh, ConvertEntries k'' cv => same k k' k'' && scalar_shown t sh cv
  | PutMapMessage k _ _ _ c, ShowEntries k' sh, ConvertEntries k'' cv => same k k' k'' && message_shown c sh cv
  | _, _, _ => false
  end.

Definition show_key (s : show_stmt class) : string :=
  match s with Show k _ | ShowEach k _ | ShowEntries k _ | ShowMember _ k _ => k end.

Definition convert_key (s : convert_stmt class) : string :=
  match s with Convert k _ | ConvertEach k _ | ConvertEntries k _ => k end.

Lemma field_shown_keys s sh cv : field_shown s sh cv = true -> stmt_key s = show_key sh /\ stmt_key s = convert_key cv.
Proof.
  destruct s, sh, cv; try done; cbn [field_shown]; rewrite !andb_true_iff, !String.eqb_eq; cbn; tauto.
Qed.

(** The name of the oneof, which [options.oneofs] sets. *)
Definition show_oneof (s : show_stmt class) : list string :=
  match s with ShowMember o _ _ => [o] | _ => [] end.

Definition is_each (s : show_stmt class) : bool := match s with ShowEach _ _ => true | _ => false end.
Definition is_entries (s : show_stmt class) : bool := match s with ShowEntries _ _ => true | _ => false end.

Definition keyed (kind : show_stmt class -> bool) (l : list (show_stmt class)) (k : string) : bool :=
  existsb (fun s => String.eqb (show_key s) k && kind s) l.

Definition objects_ok (c : class) : bool :=
  let encs := sm_encode P c in
  let shows := to_shows (so_toObject D c) in
  let converts := so_fromObject D c in
  distinct (map show_key shows) && distinct (map convert_key converts) &&
  forallb (fun s => existsb (fun sh => existsb (field_shown s sh) converts) shows) encs &&
  forallb (fun sh => existsb (fun s => String.eqb (stmt_key s) (show_key sh)) encs) shows &&
  forallb (fun cv => existsb (fun s => String.eqb (stmt_key s) (convert_key cv)) encs) converts &&
  forallb (fun sh => forallb (fun o => negb (existsb (String.eqb o) (map show_key shows))) (show_oneof sh)) shows &&
  forallb (keyed is_each shows) (to_arrays (so_toObject D c)) &&
  forallb (keyed is_entries shows) (to_objects (so_toObject D c)).
End Tables.

(** ** Values *)

Section Values.
Context {class : Type} `{EqDecision class} (P : static_module class) (rt : pb_runtime) `{!PbLaws rt}.
Context (options : to_options).

(** The options that lose nothing: numbers do not hold all Longs, arrays are
    not buffers, and defaults are not told from values. *)
Definition options_ok : Prop :=
  (op_longs options = LongsNumber -> has_long rt = false) /\ op_bytes options <> BytesArray /\
  op_defaults options = false.

Context (Hopt : options_ok).

Lemma find_name values p :
  distinct (map fst values) = true -> In p values ->
  List.find (fun p' => strict_eq (JStr (js p.1)) (JStr (js p'.1)) || strict_eq (JStr (js p.1)) (JNum (NInt p'.2))) values = Some p.
Proof.
  induction values as [|q values IH]; [done|]. intros Hd Hin. cbn in Hd. apply andb_true_iff in Hd as [Hq Hd].
  cbn [List.find]. cbn [strict_eq]. rewrite orb_false_r. destruct Hin as [-> | Hin]; [by rewrite bool_decide_true|].
  rewrite bool_decide_false; [by apply IH|]. intros E%js_inj. apply negb_true_iff, not_true_iff_false in Hq. apply Hq.
  apply existsb_exists. exists p.1. split; [by apply in_map | by rewrite E; apply String.eqb_refl].
Qed.

Lemma decimal_not_name z name : name_ok name = true -> js name <> decimal_text z.
Proof.
  unfold name_ok. intros Hn E. rewrite E in Hn. destruct (decimal_text_digits z) as (neg & ds & Ez & Hds & _).
  rewrite Ez in Hn. destruct neg; [done|]. destruct (digits_of_pattern ds Hds) as [Hd Hne]. destruct ds as [|d ds]; [done|].
  cbn in Hd, Hn. apply andb_true_iff in Hd as [Hd _]. by rewrite Hd in Hn.
Qed.

Lemma enum_back values z c k (sub sub' : class -> jsval -> result jsval) :
  enum_ok values = true -> Z.abs z <= 2 ^ 53 ->
  exists x, show rt options sub (AsEnum values) (JNum (NInt z)) = Ok x /\ nullish x = false /\
    convert P rt sub' c k (ToEnum values) x = Ok (Some (JNum (NInt z))).
Proof.
  intros He Hz. unfold enum_ok in He. apply andb_true_iff in He as [Hd Hn]. rewrite forallb_forall in Hn.
  assert (convert P rt sub' c k (ToEnum values) (JNum (NInt z)) = Ok (Some (JNum (NInt z)))) as Hnum.
  { cbn [convert]. destruct (List.find _ values) as [p|] eqn:E; [|done]. apply find_some in E as [_ E].
    cbn in E. apply Z.eqb_eq in E. by subst. }
  cbn [show]. destruct (op_enums options); [|eauto]. unfold enum_get. cbn [to_text]. rewrite number_to_text_int by done.
  destruct (List.find (fun p => bool_decide (js p.1 = _)) values) as [p|] eqn:E1.
  { apply find_some in E1 as [Hin E1]. apply bool_decide_eq_true in E1. by apply decimal_not_name in E1; [|apply Hn]. }
  destruct (List.find (fun p => bool_decide (decimal_text p.2 = _)) values) as [p|] eqn:E2; [|eauto].
  apply find_some in E2 as [Hin E2]. apply bool_decide_eq_true, decimal_text_inj in E2. eexists. split; [done|]. split; [done|].
  cbn [convert]. rewrite find_name by done. by rewrite E2.
Qed.

Lemma nonfinite_text n : is_finite n = false -> string_to_number (number_to_text n) = n.
Proof. destruct n as [| |[]|]; [done|done|..]; intros _; vm_compute; reflexivity. Qed.

Lemma num_leb_nonneg z : 0 <= z -> num_leb (NInt 0) (NInt z) = true.
Proof. intros Hz. unfold num_leb. cbn [num_ltb num_eqb]. rewrite orb_true_iff, Z.ltb_lt, Z.eqb_eq. lia. Qed.

Lemma low32_small z : - 2 ^ 31 <= z < 2 ^ 31 -> low32 z = z.
Proof.
  intros Hz. unfold low32. cbn zeta. destruct (Z.leb_spec 0 z).
  - rewrite Z.mod_small by lia. destruct (Z.ltb_spec z (2 ^ 31)); lia.
  - replace (z mod 2 ^ 32) with (z + 2 ^ 32) by (apply (Z.mod_unique _ _ (-1)); lia).
    destruct (Z.ltb_spec (z + 2 ^ 32) (2 ^ 31)); lia.
Qed.

Lemma long_back (u : bool) v c k (sub sub' : class -> jsval -> result jsval) :
  scalar_ok rt (if u then TUint64 else TInt64) v ->
  exists x, show rt options sub (AsLong u) v = Ok x /\ nullish x = false /\
    convert P rt sub' c k (ToLong u) x = Ok (Some v).
Proof.
  intros Hv. destruct Hopt as (Ho & _ & _).
  assert ((exists z n, v = JNum (NInt z) /\ n = z /\ has_long rt = false /\ Z.abs z <= 2 ^ 53) \/
          (exists z, v = JLong z /\ has_long rt = true /\ (if u then 0 <= z < 2 ^ 64 else - 2 ^ 63 <= z < 2 ^ 63)))
    as [(z & ? & -> & _ & Hl & Hz)|(z & -> & Hl & Hz)].
  { destruct u, v as [| | |[z| | |]| | |z| |]; cbn in Hv; try done; destruct Hv as [Hl Hv];
      (right; by exists z) || (left; exists z, z; repeat split; [done | lia]). }
  - unfold has_long in Hl. destruct (rt_Long rt) as [f|] eqn:Ef; [done|]. cbn [show convert]. rewrite Ef.
    destruct (op_longs options); eauto. eexists. split; [done|]. split; [done|].
    by rewrite number_to_text_int, parseInt10_decimal by done.
  - pose proof Hl as Hl'. unfold has_long in Hl'. destruct (rt_Long rt) as [f|] eqn:Ef; [|done]. cbn [show convert].
    rewrite Ef. destruct (Long_value f u z Ef Hz) as [H1 H2].
    destruct (op_longs options); [| |by rewrite Ho in Hl]; eexists; (split; [done|]); (split; [done|]); congruence.
Qed.

(** A value that is shown converts back. *)
Lemma scalar_back t v sh cv c k (sub sub' : class -> jsval -> result jsval) :
  scalar_ok rt t v -> scalar_shown t sh cv = true ->
  exists x, show rt options sub sh v = Ok x /\ nullish x = false /\ convert P rt sub' c k cv x = Ok (Some v).
Proof.
  intros Hv Hc. destruct t, sh as [| | |[]| |], cv as [| | | | |[]| |]; try discriminate Hc;
    try (apply long_back; exact Hv); destruct v as [| | |n| | | | |]; try done.
  - by eexists.
  - destruct Hopt as (_ & Hb & _). cbn [show]. destruct (op_bytes options); [| |done]; eexists; (split; [done|]); (split; [done|]).
    + cbn [convert length_of to_number]. by rewrite num_leb_nonneg by apply zlen_nonneg.
    + cbn [convert]. by rewrite base64_roundtrip by apply Hv.
  - by eexists.
  - destruct n as [z| | |]; try done. eexists. split; [done|]. split; [done|]. cbn [convert]. unfold to_int32. cbn.
    by rewrite low32_small.
  - destruct n as [z| | |]; try done. unfold scalar_shown in Hc. apply andb_true_iff in Hc as [Hc He].
    apply bool_decide_eq_true in Hc as <-. apply enum_back; [done|]. cbn in Hv. lia.
  - cbn [show to_number]. destruct (op_json options && negb (is_finite n)) eqn:E; [|by eexists]. eexists. split; [done|]. split; [done|].
    cbn [convert to_number to_text]. rewrite nonfinite_text; [done|]. apply andb_true_iff in E as [_ E]. by apply negb_true_iff.
  - cbn [show to_number]. destruct (op_json options && negb (is_finite n)) eqn:E; [|by eexists]. eexists. split; [done|]. split; [done|].
    cbn [convert to_number to_text]. rewrite nonfinite_text; [done|]. apply andb_true_iff in E as [_ E]. by apply negb_true_iff.
Qed.
End Values.

(** ** Fields *)

Section Fields.
Context {class : Type} `{EqDecision class} (P : static_module class) (rt : pb_runtime) `{!PbLaws rt}.
Context (options : to_options) (sub sub' : class -> jsval -> result jsval) (c : class).

Lemma get_plain own own' k : assoc (js k) own = assoc (js k) own' -> get (JPlain own) k = get (JPlain own') k.
Proof. intros E. unfold get. by rewrite E. Qed.

Lemma get_plain_set own own' k v : assoc (js k) own = assoc (js k) (assoc_set (js k) v own') -> get (JPlain own) k = v.
Proof. intros E. unfold get. by rewrite E, assoc_set_eq. Qed.

(** Converting the property [k] of an object takes a message in which [start]
    holds to one in which [post] holds. *)
Definition converts (k : string) (cv : convert_stmt class) (start post : jsval -> Prop) (own : list (jsstr * jsval)) : Prop :=
  forall own' mo mi, assoc (js k) own' = assoc (js k) own -> start (JObj mo mi) ->
  exists mo', run_convert P rt sub' c (JPlain own') (JObj mo mi) cv = Ok (JObj mo' mi) /\
    only k (JObj mo mi) (JObj mo' mi) /\ post (JObj mo' mi).

Definition changes (ks : list string) (own own' : list (jsstr * jsval)) : Prop :=
  forall k, ~ In k ks -> assoc (js k) own' = assoc (js k) own.

Lemma changes_set k v own : changes [k] own (assoc_set (js k) v own).
Proof. intros k' Hk. apply assoc_set_ne. intros ->%js_inj. apply Hk. by left. Qed.

Lemma map_results_exists {A B} (f : A -> result B) (Q : A -> B -> Prop) l :
  Forall (fun x => exists y, f x = Ok y /\ Q x y) l -> exists ys, map_results f l = Ok ys /\ Forall2 Q l ys.
Proof.
  induction 1 as [|x l (y & Hf & Hy) _ (ys & Hm & Hys)]; [by exists []|]. exists (y :: ys).
  cbn [map_results]. rewrite Hf. cbn [mbind result_bind]. rewrite Hm. split; [done | by constructor].
Qed.

Lemma map_results_Forall2 {A B C} (f : B -> result C) (Q : A -> B -> Prop) (R : A -> C -> Prop) l xs :
  Forall2 Q l xs -> (forall a x, Q a x -> exists y, f x = Ok y /\ R a y) ->
  exists ys, map_results f xs = Ok ys /\ Forall2 R l ys.
Proof.
  induction 1 as [|a x l xs Hq _ IH]; intros Hf; [by exists []|]. destruct (Hf a x Hq) as (y & Hy & Hr).
  destruct (IH Hf) as (ys & Hm & Hys). exists (y :: ys). cbn [map_results]. rewrite Hy. cbn [mbind result_bind].
  rewrite Hm. split; [done | by constructor].
Qed.

Section Element.
Context (k : string) (sh : shown class) (cv : conversion class) (ok : jsval -> Prop) (R : jsval -> jsval -> Prop).
(** A value is shown as [x], and [x] converts to a value related to it. *)
Definition back (v x : jsval) : Prop :=
  nullish x = false /\ exists v', convert P rt sub' c k cv x = Ok (Some v') /\ nullish v' = false /\ R v v'.
Hypothesis Hback : forall v, ok v -> exists x, show rt options sub sh v = Ok x /\ back v x.

Lemma single_back m own :
  (forall v, own_value m k = Some v -> ok v) -> assoc (js k) own = None ->
  exists own',
    match own_value m k with
    | Some v => let! x := show rt options sub sh v in Ok (set k x (JPlain own))
    | None => Ok (JPlain own)
    end = Ok (JPlain own') /\ changes [k] own own' /\
    converts k (Convert k cv) (fun m' => own_value m' k = None)
      (fun m' => match own_value m k, own_value m' k with
                 | Some v, Some v' => R v v' | None, None => True | _, _ => False
                 end) own'.
Proof.
  intros Hty Hown. destruct (own_value m k) as [v|] eqn:Ev.
  - destruct (Hback v (Hty v eq_refl)) as (x & Hs & Hx & v' & Hc & Hv' & HR). rewrite Hs. eexists. split; [done|].
    split; [apply changes_set|]. intros own' mo mi E Hst. cbn [run_convert]. rewrite (get_plain_set _ _ _ _ E).
    rewrite Hx, Hc. eexists. split; [done|]. split; [apply only_set|].
    change (JObj (assoc_set (js k) v' mo) mi) with (set k v' (JObj mo mi)). by rewrite own_value_set.
  - exists own. split; [done|]. split; [done|]. intros own' mo mi E Hst. cbn [run_convert]. rewrite (get_plain _ _ _ E).
    unfold get. rewrite Hown. exists mo. split; [done|]. split; [apply only_refl|]. by rewrite Hst.
Qed.

Lemma each_back m own :
  Forall ok (elements (get m k)) -> assoc (js k) own = None \/ assoc (js k) own = Some (JArr []) ->
  exists own',
    match elements (get m k) with
    | [] => Ok (JPlain own)
    | l => let! xs := map_results (show rt options sub sh) l in Ok (set k (JArr xs) (JPlain own))
    end = Ok (JPlain own') /\ changes [k] own own' /\
    converts k (ConvertEach k cv) (fun m' => get m' k = JArr [])
      (fun m' => exists l, get m' k = JArr l /\ Forall2 R (elements (get m k)) l) own'.
Proof.
  intros Hty Hown.
  destruct (elements (get m k)) as [|v vs] eqn:El.
  - exists own. split; [done|]. split; [done|]. intros own' mo mi E Hst. cbn [run_convert]. rewrite (get_plain _ _ _ E).
    unfold get at 1 2 3. destruct Hown as [-> | ->]; cbn.
    + exists mo. split; [done|]. split; [apply only_refl|]. by exists [].
    + eexists. split; [done|]. split; [apply only_set|]. exists [].
      split; [apply get_set_eq | done].
  - destruct (map_results_exists (show rt options sub sh) back (v :: vs)) as (xs & Hm & Hxs).
    { eapply Forall_impl; [exact Hty | exact Hback]. }
    rewrite Hm. eexists. split; [done|]. split; [apply changes_set|]. intros own' mo mi E Hst. cbn [run_convert].
    rewrite (get_plain_set _ _ _ _ E). cbn [truthy negb].
    destruct (map_results_Forall2 (convert_each P rt sub' c k cv) _ R _ _ Hxs) as (ys & Hy & Hr).
    { intros a x (_ & v' & Hc & _ & HR). exists v'. unfold convert_each. by rewrite Hc. }
    rewrite Hy. eexists. split; [done|]. split; [apply only_set|]. exists ys.
    split; [apply get_set_eq | done].
Qed.

Lemma entries_get m : isPlainObject m = true -> inherits_no m k -> enumerate (own_entries (get m k)) = entries m k.
Proof.
  unfold entries. intros Hm Hin. destruct (own_value m k) as [v|] eqn:Ev; [|by rewrite (Hin Ev)].
  f_equal. f_equal. destruct m as [| | | | | | | |own inh]; try done. revert Ev. unfold own_value, get. cbn [own_entries].
  destruct (assoc (js k) own) as [w|]; [|done]. destruct (nullish w); [done|]. by intros [= ->].
Qed.

Lemma entries_back m own :
  isPlainObject m = true -> inherits_no m k ->
  (forall v, own_value m k = Some v -> NoDup (map fst (own_entries v)) /\ Forall (fun p => ok p.2) (own_entries v)) ->
  assoc (js k) own = None \/ assoc (js k) own = Some (JPlain []) ->
  exists own',
    match enumerate (own_entries (get m k)) with
    | [] => Ok (JPlain own)
    | l => let! xs := map_results (fun p => let! x := show rt options sub sh p.2 in Ok (p.1, x)) l in
           Ok (set k (JPlain xs) (JPlain own))
    end = Ok (JPlain own') /\ changes [k] own own' /\
    converts k (ConvertEntries k cv) (fun m' => get m' k = JPlain [])
      (fun m' => exists own, get m' k = JPlain own /\ Forall2 (fun p p' => p'.1 = p.1 /\ R p.2 p'.2) (entries m k) own) own'.
Proof.
  intros Hm Hin Hty Hown. rewrite (entries_get m Hm Hin).
  assert (Forall (fun p => ok p.2) (entries m k) /\
          forall xs : list (jsstr * jsval), map fst xs = map fst (entries m k) -> enumerate xs = xs) as [Hok Hord].
  { unfold entries. destruct (own_value m k) as [v|]; [|split; [constructor|]; by intros [|]].
    destruct (Hty v eq_refl) as [Hnd Hv]. split; [by rewrite enumerate_perm|]. intros xs. by apply enumerate_ordered. }
  destruct (entries m k) as [|p ps] eqn:El.
  - exists own. split; [done|]. split; [done|]. intros own' mo mi E Hst. cbn [run_convert]. rewrite (get_plain _ _ _ E).
    unfold get at 1 2 3. destruct Hown as [-> | ->]; cbn [default truthy negb].
    + exists mo. split; [done|]. split; [apply only_refl|]. by exists [].
    + rewrite isObject_spec. eexists. split; [done|]. split; [apply only_set|]. exists [].
      split; [apply get_set_eq | done].
  - destruct (map_results_exists (fun p => let! x := show rt options sub sh p.2 in Ok (p.1, x))
      (fun p p' => p'.1 = p.1 /\ back p.2 p'.2) (p :: ps)) as (xs & Hx & Hxs).
    { eapply Forall_impl; [exact Hok|]. intros q Hq. destruct (Hback _ Hq) as (x & Hs & Hb). exists (q.1, x). by rewrite Hs. }
    rewrite Hx. eexists. split; [done|]. split; [apply changes_set|]. intros own' mo mi E Hst. cbn [run_convert].
    rewrite (get_plain_set _ _ _ _ E). cbn [truthy negb]. rewrite isObject_spec. cbn [is_object own_entries].
    rewrite Hord by (clear -Hxs; induction Hxs as [|? ? ? ? [Hk _] _ IH]; [done|]; cbn [map]; by rewrite Hk, IH).
    destruct (map_results_Forall2 (fun p => let! x := convert_each P rt sub' c k cv p.2 in Ok (p.1, x)) _
      (fun p p' => p'.1 = p.1 /\ R p.2 p'.2) _ _ Hxs) as (ys & Hy & Hr).
    { intros a x (Hk & _ & v' & Hc & _ & HR). exists (x.1, v'). unfold convert_each. by rewrite Hc. }
    rewrite Hy. eexists. split; [done|]. split; [apply only_set|]. exists ys. split; [apply get_set_eq | done].
Qed.
End Element.

Lemma converts_mono k cv start (post post' : jsval -> Prop) own :
  (forall m', post m' -> post' m') -> converts k cv start post own -> converts k cv start post' own.
Proof. intros H Hc own' mo mi E Hs. destruct (Hc own' mo mi E Hs) as (mo' & ? & ? & ?). eauto. Qed.

Lemma converts_changes k ks cv start post own own' :
  ~ In k ks -> changes ks own own' -> converts k cv start post own -> converts k cv start post own'.
Proof. intros Hk Hch Hc own'' mo mi E. apply Hc. by rewrite E, Hch. Qed.

Lemma Forall2_eq {A} (l l' : list A) : Forall2 eq l l' -> l' = l.
Proof. induction 1; congruence. Qed.

Lemma Forall2_pairs {A} (l l' : list (jsstr * A)) : Forall2 (fun p p' => p'.1 = p.1 /\ p.2 = p'.2) l l' -> l' = l.
Proof. induction 1 as [|[] [] ? ? [H1 H2]]; cbn in *; congruence. Qed.

(** What [toObject] finds in the object at the field's statement. *)
Definition unset (sh : show_stmt class) (own : list (jsstr * jsval)) : Prop :=
  assoc (js (show_key sh)) own = None \/
  match sh with
  | ShowEach k _ => assoc (js k) own = Some (JArr [])
  | ShowEntries k _ => assoc (js k) own = Some (JPlain [])
  | _ => False
  end.

Context (n : nat) (Hopt : options_ok rt options).
Hypothesis Hsub : forall d v, typed P rt n d v ->
  exists o v', sub d v = Ok (JPlain o) /\ sub' d (JPlain o) = Ok v' /\ agrees P rt n d v v'.

Lemma scalar_shows k t sh cv v : scalar_shown t sh cv = true -> scalar_ok rt t v ->
  exists x, show rt options sub sh v = Ok x /\ back k cv eq v x.
Proof.
  intros Hc Hv. destruct (scalar_back P rt options Hopt t v sh cv c k sub sub' Hv Hc) as (x & Hs & Hx & Hcv).
  exists x. split; [done|]. split; [done|]. exists v. split; [done|]. split; [by destruct t, v | done].
Qed.

Lemma message_shows k d sh cv v : message_shown d sh cv = true -> typed P rt n d v ->
  exists x, show rt options sub sh v = Ok x /\ back k cv (agrees P rt n d) v x.
Proof.
  intros Hc Hv. destruct sh as [| | | | |d1], cv as [| | | | | | |d2]; try done. unfold message_shown in Hc.
  apply andb_true_iff in Hc as [->%bool_decide_eq_true_1 <-%bool_decide_eq_true_1].
  destruct (Hsub _ _ Hv) as (o & v' & Hs & Hs' & Ha). exists (JPlain o). split; [done|]. split; [done|]. exists v'.
  cbn [convert]. rewrite isObject_spec. cbn [is_object]. rewrite Hs'. split; [done|]. split; [|done].
  destruct n as [|n']; [done|]. destruct Ha as [[own ->] _]. done.
Qed.

(** The member of a oneof also has its name set. *)
Lemma run_show_member m own o k sh own' :
  run_show rt options sub m (JPlain own) (Show k sh) = Ok (JPlain own') -> changes [k] own own' -> o <> k ->
  exists own'', run_show rt options sub m (JPlain own) (ShowMember o k sh) = Ok (JPlain own'') /\
    changes [k; o] own own'' /\ assoc (js k) own'' = assoc (js k) own'.
Proof.
  cbn [run_show]. intros Hr Hch Ho. destruct (own_value m k) as [v|].
  - destruct (show rt options sub sh v) as [x| |]; [|done..]. cbn [mbind result_bind] in *.
    assert (set k x (JPlain own) = JPlain own') as -> by (unfold id in Hr; congruence).
    destruct (op_oneofs options).
    + eexists. split; [done|]. split; [|by rewrite assoc_set_ne by (by intros ?%js_inj)].
      intros k' Hk'. rewrite assoc_set_ne by (intros ->%js_inj; apply Hk'; cbn; tauto). apply Hch. intros [->|[]].
      apply Hk'. by left.
    + exists own'. split; [done|]. split; [|done]. intros k' Hk'. apply Hch. intros [->|[]]. apply Hk'. by left.
  - exists own'. split; [done|]. split; [|done]. intros k' Hk'. apply Hch. intros [->|[]]. apply Hk'. by left.
Qed.

Lemma put_back k t sh cv m own :
  scalar_shown t sh cv = true -> (forall v, own_value m k = Some v -> scalar_ok rt t v) -> assoc (js k) own = None ->
  exists own', run_show rt options sub m (JPlain own) (Show k sh) = Ok (JPlain own') /\ changes [k] own own' /\
    converts k (Convert k cv) (fun m' => own_value m' k = None) (fun m' => own_value m' k = own_value m k) own'.
Proof.
  intros Hc Hv Hn. destruct (single_back k sh cv _ eq (fun v => scalar_shows k t sh cv v Hc) m own Hv Hn)
    as (own' & Hr & Hch & Hcv). exists own'. split; [done|]. split; [done|]. eapply converts_mono; [|exact Hcv].
  intros m'. cbn. by destruct (own_value m k), (own_value m' k); intros; subst.
Qed.

Lemma put_message_back k d sh cv m own :
  message_shown d sh cv = true -> (forall v, own_value m k = Some v -> typed P rt n d v) -> assoc (js k) own = None ->
  exists own', run_show rt options sub m (JPlain own) (Show k sh) = Ok (JPlain own') /\ changes [k] own own' /\
    converts k (Convert k cv) (fun m' => own_value m' k = None)
      (fun m' => agrees_field (agrees P rt n) m m' (PutMessage k 0 d)) own'.
Proof. intros Hc Hv Hn. by apply (single_back k sh cv _ _ (fun v => message_shows k d sh cv v Hc) m own Hv Hn). Qed.

Lemma member_back o k sh cv start post m own :
  o <> k ->
  (exists own', run_show rt options sub m (JPlain own) (Show k sh) = Ok (JPlain own') /\ changes [k] own own' /\
     converts k cv start post own') ->
  exists own', run_show rt options sub m (JPlain own) (ShowMember o k sh) = Ok (JPlain own') /\ changes [k; o] own own' /\
     converts k cv start post own'.
Proof.
  intros Ho (own' & Hr & Hch & Hc). destruct (run_show_member m own o k sh own' Hr Hch Ho) as (own2 & Hr2 & Hch2 & E).
  exists own2. split; [done|]. split; [done|]. intros own3 mo mi E3. apply Hc. congruence.
Qed.

Lemma field_back s sh cv m own :
  field_shown s sh cv = true -> isPlainObject m = true -> typed_field rt (typed P rt n) m s -> unset sh own ->
  ~ In (show_key sh) (show_oneof sh) ->
  exists own', run_show rt options sub m (JPlain own) sh = Ok (JPlain own') /\
    changes (show_key sh :: show_oneof sh) own own' /\
    converts (stmt_key s) cv (initial s) (fun m' => agrees_field (agrees P rt n) m m' s) own'.
Proof.
  intros Hf Hm Hty Hu Ho. unfold field_shown in Hf.
  destruct s as [k tag t|k tag d|k tag t|k tag d|k tag t|k tag kt vt t|k tag kt vt d], sh as [k' sh|k' sh|k' sh|o k' sh], cv as [k'' cv|k'' cv|k'' cv];
    try discriminate Hf; rewrite !andb_true_iff, !String.eqb_eq in Hf; destruct Hf as [[<- <-] Hf];
    cbn [unset show_key show_oneof stmt_key initial typed_field] in *.
  - destruct Hu as [Hu|[]]. by apply (put_back k t).
  - destruct Hu as [Hu|[]]. apply member_back; [naive_solver|]. by apply (put_back k t).
  - destruct Hu as [Hu|[]]. by apply (put_message_back k d).
  - destruct Hu as [Hu|[]]. apply member_back; [naive_solver|]. by apply (put_message_back k d).
  - destruct (each_back k sh cv _ eq (fun v => scalar_shows k t sh cv v Hf) m own Hty Hu) as (own' & Hr & Hch & Hcv).
    exists own'. split; [done|]. split; [done|]. eapply converts_mono; [|exact Hcv]. cbn. by intros m' (l & -> & ->%Forall2_eq).
  - by apply (each_back k sh cv _ _ (fun v => message_shows k d sh cv v Hf) m own Hty Hu).
  - destruct (each_back k sh cv _ eq (fun v => scalar_shows k t sh cv v Hf) m own Hty Hu) as (own' & Hr & Hch & Hcv).
    exists own'. split; [done|]. split; [done|]. eapply converts_mono; [|exact Hcv]. cbn. by intros m' (l & -> & ->%Forall2_eq).
  - destruct Hty as [Hty Hin]. destruct (entries_back k sh cv _ eq (fun v => scalar_shows k t sh cv v Hf) m own Hm Hin) as (own' & Hr & Hch & Hcv); [|done|].
    { intros v Hv. destruct (Hty v Hv) as [? He]. split; [done|]. eapply Forall_impl; [exact He|]. by intros p [_ ?]. }
    exists own'. split; [done|]. split; [done|]. eapply converts_mono; [|exact Hcv]. cbn. by intros m' (l & -> & ->%Forall2_pairs).
  - destruct Hty as [Hty Hin]. apply (entries_back k sh cv _ _ (fun v => message_shows k d sh cv v Hf) m own Hm Hin); [|done].
    intros v Hv. destruct (Hty v Hv) as [? He]. split; [done|]. eapply Forall_impl; [exact He|]. by intros p [_ ?].
Qed.

(** ** All fields *)

Context (m : jsval) (encs : list (enc_stmt class)) (cvs : list (convert_stmt class)).

Lemma shows_fold l : forall own,
  isPlainObject m = true -> NoDup (map show_key l) ->
  (forall sh sh', sh ∈ l -> sh' ∈ l -> ~ In (show_key sh) (show_oneof sh')) ->
  Forall (fun sh => exists s cv, s ∈ encs /\ cv ∈ cvs /\ field_shown s sh cv = true /\ typed_field rt (typed P rt n) m s /\ unset sh own) l ->
  exists own', fold_results (run_show rt options sub m) (JPlain own) l = Ok (JPlain own') /\
    (forall k, k ∉ map show_key l -> (forall sh, sh ∈ l -> ~ In k (show_oneof sh)) -> assoc (js k) own' = assoc (js k) own) /\
    Forall (fun sh => exists s cv, s ∈ encs /\ cv ∈ cvs /\ field_shown s sh cv = true /\
      converts (stmt_key s) cv (initial s) (fun m' => agrees_field (agrees P rt n) m m' s) own') l.
Proof.
  induction l as [|sh l IH]; intros own Hm Hnd Hone Hall; [by exists own|].
  apply Forall_cons in Hall as [(s & cv & Hs & Hcs & Hf & Hty & Hu) Hall]. cbn [map] in Hnd. apply NoDup_cons in Hnd as [Hk Hnd].
  destruct (field_back s sh cv m own Hf Hm Hty Hu) as (own1 & Hr & Hch & Hcv); [apply Hone; constructor|].
  assert (forall sh', sh' ∈ l -> assoc (js (show_key sh')) own1 = assoc (js (show_key sh')) own) as Hsame.
  { intros sh' Hin. apply Hch. intros [E|Ho]; [|apply (Hone sh' sh); [by right | by left | done]].
    apply Hk. rewrite E. by apply list_elem_of_fmap_2. }
  destruct (IH own1 Hm Hnd) as (own2 & Hf2 & Hrest & Hpost).
  - intros sh1 sh2 H1 H2. apply Hone; by right.
  - rewrite Forall_forall in Hall |- *. intros sh' Hin. destruct (Hall sh' Hin) as (s' & cv' & Hs' & Hcs' & Hf' & Hty' & Hu').
    exists s', cv'. split; [done|]. split; [done|]. split; [done|]. split; [done|]. pose proof (Hsame sh' Hin) as Hsm.
    unfold unset in *. destruct sh'; cbn [show_key] in *; by rewrite Hsm.
  - exists own2. cbn [fold_results]. rewrite Hr. cbn [mbind result_bind]. split; [done|]. split.
    + intros k Hk' Ho. cbn [map] in Hk'. apply not_elem_of_cons in Hk' as [Hne Hk']. rewrite Hrest; [|done|].
      * apply Hch. intros [E|Ho']; [by subst|]. apply (Ho sh); [by left | done].
      * intros sh' Hin. apply Ho. by right.
    + constructor; [|done]. exists s, cv. split; [done|]. split; [done|]. split; [done|].
      assert (stmt_key s = show_key sh) as Ek by (by apply field_shown_keys in Hf as [? _]).
      intros own3 mo mi E. apply Hcv. rewrite E, Ek. apply Hrest; [done|].
      intros sh' Hin. apply Hone; [by left | by right].
Qed.

Lemma converts_fold own l : forall mo mi,
  NoDup (map convert_key l) ->
  Forall (fun cv => exists s, s ∈ encs /\ stmt_key s = convert_key cv /\ initial s (JObj mo mi) /\
    converts (stmt_key s) cv (initial s) (fun m' => agrees_field (agrees P rt n) m m' s) own) l ->
  exists mo', fold_results (run_convert P rt sub' c (JPlain own)) (JObj mo mi) l = Ok (JObj mo' mi) /\
    (forall k, k ∉ map convert_key l -> assoc (js k) mo' = assoc (js k) mo) /\
    Forall (fun cv => exists s, s ∈ encs /\ stmt_key s = convert_key cv /\ agrees_field (agrees P rt n) m (JObj mo' mi) s) l.
Proof.
  induction l as [|cv l IH]; intros mo mi Hnd Hall; [by exists mo|].
  apply Forall_cons in Hall as [(s & Hs & Hk & Hi & Hcv) Hall]. cbn [map] in Hnd. apply NoDup_cons in Hnd as [Hnk Hnd].
  destruct (Hcv own mo mi eq_refl Hi) as (mo1 & Hr & Honly & Hag).
  destruct (IH mo1 mi Hnd) as (mo2 & Hf & Hrest & Hpost).
  - rewrite Forall_forall in Hall |- *. intros cv' Hin. destruct (Hall cv' Hin) as (s' & Hs' & Hk' & Hi' & Hc').
    exists s'. split; [done|]. split; [done|]. split; [|done]. eapply initial_only; [exact Honly| |done].
    intros E. apply Hnk. rewrite <- Hk, <- E, Hk'. by apply list_elem_of_fmap_2.
  - exists mo2. cbn [fold_results]. rewrite Hr. cbn [mbind result_bind]. split; [done|]. split.
    + intros k Hk'. cbn [map] in Hk'. apply not_elem_of_cons in Hk' as [Hne Hk']. rewrite Hrest by done.
      destruct Honly as (? & ? & ? & [= <- <-] & [= <-] & Ho). apply Ho. intros E%js_inj. congruence.
    + constructor; [|done]. exists s. split; [done|]. split; [done|]. pose proof (Hrest _ Hnk) as Hsame.
      rewrite <- Hk in Hsame.
      destruct s; cbn [agrees_field stmt_key] in *; unfold get, own_value in *; cbn [own_entries] in *; by rewrite Hsame.
Qed.
End Fields.

(** ** Round trip *)

Section RoundTrip.
Context {class : Type} `{EqDecision class} (P : static_module class) (D : static_objects class) (rt : pb_runtime) `{!PbLaws rt}.
Context (tables : forall c, tables_ok P c = true) (objects : forall c, objects_ok P D c = true).
Context (options : to_options) (Hopt : options_ok rt options).

Lemma fold_set ks v : forall own, exists own',
  fold_left (fun object k => set k v object) ks (JPlain own) = JPlain own' /\
  forall k, assoc (js k) own' = if existsb (String.eqb k) ks then Some v else assoc (js k) own.
Proof.
  induction ks as [|k ks IH]; intros own; [by exists own|]. cbn [fold_left set existsb].
  destruct (IH (assoc_set (js k) v own)) as (own' & Hf & Ha). exists own'. split; [done|]. intros k'. rewrite Ha.
  destruct (String.eqb_spec k' k) as [->|Hne]; cbn [orb].
  - rewrite assoc_set_eq. by destruct (existsb _ _).
  - rewrite assoc_set_ne; [done|]. by intros ?%js_inj.
Qed.

(** What [objects_ok] tells. *)
Lemma objects_ok_all c :
  let shows := to_shows (so_toObject D c) in
  let converts := so_fromObject D c in
  NoDup (map show_key shows) /\ NoDup (map convert_key converts) /\
  (forall s, s ∈ sm_encode P c -> exists sh cv, sh ∈ shows /\ cv ∈ converts /\ field_shown s sh cv = true) /\
  (forall sh, sh ∈ shows -> exists s, s ∈ sm_encode P c /\ stmt_key s = show_key sh) /\
  (forall cv, cv ∈ converts -> exists s, s ∈ sm_encode P c /\ stmt_key s = convert_key cv) /\
  (forall sh sh', sh ∈ shows -> sh' ∈ shows -> ~ In (show_key sh) (show_oneof sh')) /\
  (forall k, k ∈ to_arrays (so_toObject D c) -> exists sh, sh ∈ shows /\ show_key sh = k /\ is_each sh = true) /\
  (forall k, k ∈ to_objects (so_toObject D c) -> exists sh, sh ∈ shows /\ show_key sh = k /\ is_entries sh = true).
Proof.
  intros shows cvs. pose proof (objects c) as Ho. unfold objects_ok in Ho. fold shows cvs in Ho.
  rewrite !andb_true_iff, !forallb_forall in Ho. destruct Ho as [[[[[[[H1 H2] H3] H4] H5] H6] H7] H8].
  split; [by apply distinct_NoDup|]. split; [by apply distinct_NoDup|]. setoid_rewrite list_elem_of_In. split_and!.
  - intros s Hs. specialize (H3 s Hs). apply existsb_exists in H3 as (sh & Hsh & (cv & Hcv & Hf)%existsb_exists). eauto.
  - intros sh Hsh. specialize (H4 sh Hsh). apply existsb_exists in H4 as (s & Hs & E%String.eqb_eq). eauto.
  - intros cv Hcv. specialize (H5 cv Hcv). apply existsb_exists in H5 as (s & Hs & E%String.eqb_eq). eauto.
  - intros sh sh' Hsh Hsh' Hin. specialize (H6 sh' Hsh'). rewrite forallb_forall in H6. specialize (H6 _ Hin).
    apply negb_true_iff, not_true_iff_false in H6. apply H6, existsb_exists. exists (show_key sh).
    split; [by apply in_map | apply String.eqb_refl].
  - intros k Hk. specialize (H7 k Hk). apply existsb_exists in H7 as (sh & Hsh & [E%String.eqb_eq Hi]%andb_true_iff). eauto.
  - intros k Hk. specialize (H8 k Hk). apply existsb_exists in H8 as (sh & Hsh & [E%String.eqb_eq Hi]%andb_true_iff). eauto.
Qed.

Lemma elem_existsb k (l : list string) : existsb (String.eqb k) l = true -> k ∈ l.
Proof. intros (x & Hx & ->%String.eqb_eq)%existsb_exists. by apply list_elem_of_In. Qed.

(** Before the fields, the object has at most empty arrays and maps. *)
Lemma initial_object_unset c : exists own, initial_object rt options (so_toObject D c) = JPlain own /\
  forall sh, sh ∈ to_shows (so_toObject D c) -> unset sh own.
Proof.
  destruct (objects_ok_all c) as (Hnd & _ & _ & _ & _ & _ & Harr & Hobj). destruct Hopt as (_ & _ & Hd).
  unfold initial_object. rewrite Hd, !orb_false_r.
  destruct (fold_set (to_arrays (so_toObject D c)) (JArr []) []) as (own1 & E1 & H1).
  set (o1 := if op_arrays options then own1 else []).
  assert ((if op_arrays options then fold_left (fun object k => set k (JArr []) object) (to_arrays (so_toObject D c)) (JPlain [])
           else JPlain []) = JPlain o1) as -> by (unfold o1; by destruct (op_arrays options)).
  destruct (fold_set (to_objects (so_toObject D c)) (JPlain []) o1) as (own2 & E2 & H2).
  exists (if op_objects options then own2 else o1). split; [by destruct (op_objects options)|].
  intros sh Hsh. unfold unset.
  assert (assoc (js (show_key sh)) o1 = None \/ assoc (js (show_key sh)) o1 = Some (JArr []) /\ is_each sh = true) as Ho1.
  { unfold o1. destruct (op_arrays options); [|by left]. rewrite H1. destruct (existsb _ _) eqn:E; [|by left]. right. split; [done|].
    apply elem_existsb, Harr in E as (sh' & Hsh' & Hk & Hi). by rewrite <- (key_determines show_key _ _ _ Hnd Hsh' Hsh Hk). }
  assert (assoc (js (show_key sh)) (if op_objects options then own2 else o1) = assoc (js (show_key sh)) o1 \/
          assoc (js (show_key sh)) (if op_objects options then own2 else o1) = Some (JPlain []) /\ is_entries sh = true) as Ho2.
  { destruct (op_objects options); [|by left]. rewrite H2. destruct (existsb _ _) eqn:E; [|by left]. right. split; [done|].
    apply elem_existsb, Hobj in E as (sh' & Hsh' & Hk & Hi). by rewrite <- (key_determines show_key _ _ _ Hnd Hsh' Hsh Hk). }
  destruct Ho2 as [E | [E Hi]]; [rewrite E; destruct Ho1 as [? | [E1' Hi]]; [by left|]|]; right; destruct sh; try done.
  cbn [show_key] in *. congruence.
Qed.

(** The statements that belong to a statement of [encode] are unique. *)
Lemma field_shown_unique c s sh cv :
  sh ∈ to_shows (so_toObject D c) -> cv ∈ so_fromObject D c -> field_shown s sh cv = true ->
  (forall sh', sh' ∈ to_shows (so_toObject D c) -> stmt_key s = show_key sh' -> sh' = sh) /\
  (forall cv', cv' ∈ so_fromObject D c -> stmt_key s = convert_key cv' -> cv' = cv).
Proof.
  intros Hs Hc Hf. destruct (objects_ok_all c) as (Hnd & Hndc & _). destruct (field_shown_keys _ _ _ Hf) as [K1 K2].
  split; intros x Hx K; [apply (key_determines show_key _ _ _ Hnd) | apply (key_determines convert_key _ _ _ Hndc)]; try done; congruence.
Qed.

Section Level.
Context (n : nat) (sub sub' : class -> jsval -> result jsval) (c : class) (m : jsval).
Hypothesis Hsub : forall d v, typed P rt n d v ->
  exists o v', sub d v = Ok (JPlain o) /\ sub' d (JPlain o) = Ok v' /\ agrees P rt n d v v'.
Hypothesis (Hm : isPlainObject m = true) (Hty : Forall (typed_field rt (typed P rt n) m) (sm_encode P c)).

(** The object that [toObject] builds has what each conversion needs. *)
Lemma fields_shown : exists own,
  fold_results (run_show rt options sub m) (initial_object rt options (so_toObject D c)) (to_shows (so_toObject D c)) = Ok (JPlain own) /\
  forall s cv, s ∈ sm_encode P c -> cv ∈ so_fromObject D c -> stmt_key s = convert_key cv ->
    converts P rt sub' c (stmt_key s) cv (initial s) (fun m' => agrees_field (agrees P rt n) m m' s) own.
Proof.
  destruct (objects_ok_all c) as (Hnd & _ & Hse & Hsh & _ & Hone & _). destruct (tables_ok_all P c (tables c)) as [Hndk _].
  destruct (initial_object_unset c) as (own0 & Ei & Hun). rewrite Ei. rewrite Forall_forall in Hty.
  destruct (shows_fold P rt options sub sub' c n Hopt Hsub m (sm_encode P c) (so_fromObject D c) _ own0 Hm Hnd Hone) as (own & Hf & _ & Hpost).
  { apply Forall_forall. intros sh Hin. destruct (Hsh sh Hin) as (s & Hs & K). destruct (Hse s Hs) as (sh1 & cv & H1 & H2 & H3).
    destruct (field_shown_unique c s sh1 cv H1 H2 H3) as [Hu _]. rewrite <- (Hu sh Hin K) in H3. exists s, cv. auto 6. }
  exists own. split; [done|]. intros s cv Hs Hcv K. rewrite Forall_forall in Hpost.
  destruct (Hse s Hs) as (sh & cv1 & H1 & H2 & H3). destruct (Hpost sh H1) as (s2 & cv2 & Hs2 & Hcs & Hf2 & Hc).
  destruct (field_shown_keys _ _ _ H3) as [K1 _]. destruct (field_shown_keys _ _ _ Hf2) as [K2 _].
  assert (s2 = s) as -> by (apply (key_determines stmt_key _ _ _ Hndk); congruence).
  destruct (field_shown_unique c s sh cv2 H1 Hcs Hf2) as [_ Hu]. by rewrite (Hu cv Hcv K).
Qed.

(** [fromObject] of that object. *)
Lemma fields_converted own :
  (forall s cv, s ∈ sm_encode P c -> cv ∈ so_fromObject D c -> stmt_key s = convert_key cv ->
    converts P rt sub' c (stmt_key s) cv (initial s) (fun m' => agrees_field (agrees P rt n) m m' s) own) ->
  exists m', fold_results (run_convert P rt sub' c (JPlain own)) (new P rt c) (so_fromObject D c) = Ok m' /\
    agrees P rt (S n) c m m'.
Proof.
  intros Hown. destruct (objects_ok_all c) as (_ & Hndc & Hse & _ & Hcv & _). destruct (tables_ok_all P c (tables c)) as [Hndk Hall].
  rewrite Forall_forall in Hall.
  destruct (converts_fold P rt sub' c n m (sm_encode P c) own (so_fromObject D c) (named (sm_init P c)) (prototype P rt c) Hndc)
    as (mo & Hf & _ & Hpost).
  { apply Forall_forall. intros cv Hin. destruct (Hcv cv Hin) as (s & Hs & K). exists s. split; [done|]. split; [done|].
    split; [|by apply Hown]. apply (init_ok_initial P rt c s), (Hall s Hs). }
  exists (JObj mo (prototype P rt c)). split; [exact Hf|]. split; [by eexists|]. split; [by apply encodes_all_fields|].
  apply Forall_forall. intros s Hs. destruct (Hse s Hs) as (sh & cv & _ & Hc & Hfs).
  destruct (field_shown_keys _ _ _ Hfs) as [_ K]. rewrite Forall_forall in Hpost. destruct (Hpost cv Hc) as (s' & Hs' & K' & Ha).
  by rewrite (key_determines stmt_key _ s s' Hndk Hs Hs') by congruence.
Qed.
End Level.

(** The plain object of a typed message converts back. *)
Lemma from_to_at n : forall fuel fuel' c m q q',
  typed P rt n c m -> (n <= fuel)%nat -> (n <= fuel')%nat ->
  q + Z.of_nat n <= rt_recursionLimit rt + 1 -> q' + Z.of_nat n <= rt_recursionLimit rt + 1 ->
  exists o m', toObject_at D rt fuel c m options q = Ok (JPlain o) /\
    fromObject_at P D rt fuel' c (JPlain o) q' = Ok m' /\ agrees P rt n c m m'.
Proof.
  induction n as [|n IH]; intros fuel fuel' c m q q' Hty Hf Hf' Hq Hq'; [done|].
  destruct fuel as [|fuel]; [lia|]. destruct fuel' as [|fuel']; [lia|]. destruct Hty as [Hm Hty].
  pose (sub := fun d v => toObject_at D rt fuel d v options (q + 1)).
  pose (sub' := fun d v => fromObject_at P D rt fuel' d v (q' + 1)).
  assert (forall d v, typed P rt n d v -> exists o v', sub d v = Ok (JPlain o) /\ sub' d (JPlain o) = Ok v' /\ agrees P rt n d v v') as Hsub.
  { intros d v Hv. apply IH; (done || lia). }
  destruct (fields_shown n sub sub' c m Hsub Hm Hty) as (own & Hs & Hown).
  destruct (fields_converted n sub' c m own Hown) as (m' & Hc & Ha).
  destruct (objects_ok_all c) as (_ & _ & Hse & Hsh & Hcv & _). cbn [toObject_at fromObject_at].
  destruct (Z.ltb_spec (rt_recursionLimit rt) q); [lia|]. destruct (Z.ltb_spec (rt_recursionLimit rt) q'); [lia|].
  assert (nullish m = false) as -> by (by destruct m). cbn [instance_of assoc].
  destruct (so_fromObject D c) as [|cv cvs] eqn:Ec.
  - assert (to_shows (so_toObject D c) = []) as Es.
    { destruct (to_shows (so_toObject D c)) as [|sh l]; [done|]. destruct (Hsh sh) as (s & Hs' & _); [by left|].
      destruct (Hse s Hs') as (? & ? & _ & Hnil & _). by apply not_elem_of_nil in Hnil. }
    rewrite Es. cbn [is_nil]. exists [], m'. by injection Hc as ->.
  - destruct (to_shows (so_toObject D c)) as [|sh l] eqn:Es.
    { destruct (Hcv cv) as (s & Hs' & _); [by left|]. destruct (Hse s Hs') as (? & ? & Hnil & _). by apply not_elem_of_nil in Hnil. }
    cbn [is_nil]. exists own, m'. by rewrite isObject_spec.
Qed.

Lemma fromObject_toObject n c m :
  typed P rt n c m -> Z.of_nat n <= rt_recursionLimit rt + 1 ->
  exists o m', toObject D rt c m options = Ok (JPlain o) /\ fromObject P D rt c (JPlain o) = Ok m' /\ agrees P rt n c m m'.
Proof. intros Hty Hn. apply from_to_at; (done || lia). Qed.
End RoundTrip.
