(* ===== verification/StaticSafety.v ===== *)
(** * Generated message classes: valid messages can be encoded

    [encode] does not check its argument.  When [verify] of StaticObjects.v
    returns [null], [encode] returns bytes or fails as the writer fails on a
    scalar of the message that [verify] lets pass, for any module whose tables
    match ([covered_ok]). *)

From S2P Require Import Prelude JsString JsValue Codec PbRuntime StaticCode StaticObjects StaticRoundTrip StaticVerify.

Section Covered.
Context {class : Type} `{EqDecision class} (P : static_module class) (D : static_objects class).

(** The check that belongs to the writer of a scalar type. *)
Definition scalar_checked (t : scalar) (ck : check class) : bool :=
  match t, ck with
  | TString, IsString | TBytes, IsBuffer | TBool, IsBoolean => true
  | (TInt32 | TUint32), (IsInteger | IsEnum _) | (TInt64 | TUint64), IsLong | (TFloat | TDouble), IsNumber => true
  | _, _ => false
  end.

Definition message_checked (c : class) (ck : check class) : bool :=
  match ck with IsMessage c' => bool_decide (c = c') | _ => false end.

Definition covers (s : enc_stmt class) (v : verify_stmt class) : bool :=
  match s, v with
  | Put k _ t, (Check k' ck | CheckMember _ _ k' ck) => String.eqb k k' && scalar_checked t ck
  | PutMessage k _ c, (Check k' ck | CheckMember _ _ k' ck) => String.eqb k k' && message_checked c ck
  | (PutEach k _ t | PutPacked k _ t), CheckEach k' ck => String.eqb k k' && scalar_checked t ck
  | PutEachMessage k _ c, CheckEach k' ck => String.eqb k k' && message_checked c ck
  | PutMap k _ _ _ t, CheckEntries k' ck => String.eqb k k' && scalar_checked t ck
  | PutMapMessage k _ _ _ c, CheckEntries k' ck => String.eqb k k' && message_checked c ck
  | _, _ => false
  end.

(** The keys whose property is read without a test that it is own. *)
Definition inherited_keys (c : class) : list string :=
  omap (fun s => match s with PutEach k _ _ | PutEachMessage k _ _ | PutPacked k _ _ => Some k | _ => None end) (sm_encode P c).

Definition blank_prototype (c : class) : bool :=
  forallb (fun long => forallb (fun p => is_nil (elements p.2)) (sm_prototype P c long)) [true; false].

Definition covered_ok (c : class) : bool :=
  forallb (fun s => existsb (covers s) (so_verify D c)) (sm_encode P c) &&
  negb (existsb (String.eqb "constructor") (inherited_keys c)) && blank_prototype c.
End Covered.

Section Safety.
Context {class : Type} `{EqDecision class} (P : static_module class) (D : static_objects class) (rt : pb_runtime) `{!PbLaws rt}.
Context (covered : forall c, covered_ok P D c = true) (tests : forall c, tests_ok [] (so_verify D c) = true).

(** What is found in a value: a property or a key, at any depth. *)
Inductive within (v : jsval) : jsval -> Prop :=
| within_self : within v v
| within_own m p : p ∈ own_entries m -> within v p.2 -> within v m
| within_key m p : p ∈ own_entries m -> within v (JStr p.1) -> within v m.

(** The writer throws [e] for a scalar of [m] that passes the check of its
    type. *)
Definition writer_refuses (m : jsval) (e : exn) : Prop :=
  exists t (ck : check class) v, within v m /\ scalar_checked t ck = true /\ check_holds rt ck v = true /\
    rt_write rt t v = Throw e.

(** Bytes, or the writer's own exception. *)
Definition written (m : jsval) (r : result bytes) : Prop :=
  (exists b, r = Ok b) \/ exists e, r = Throw e /\ writer_refuses m e.

Lemma within_trans u v m : within u v -> within v m -> within u m.
Proof. intros Hu. induction 1 as [|m p Hp _ IH|m p Hp _ IH]; [done | by eapply within_own | by eapply within_key]. Qed.

Lemma written_in v m r : written v r -> within v m -> written m r.
Proof.
  intros [Hb|(e & He & t & ck & w & Hw & H)] Hv; [by left | right]. exists e. split; [done|]. exists t, ck, w.
  split; [by eapply within_trans | done].
Qed.

Lemma written_bind m r (k : bytes -> result bytes) :
  written m r -> (forall b, r = Ok b -> written m (k b)) -> written m (r ≫= k).
Proof. intros [[b ->]|(e & -> & He)] Hk; [by apply Hk|]. right. by exists e. Qed.

Lemma written_Ok m b : written m (Ok b).
Proof. left. by eexists. Qed.

(** The objects in a value are literals or instances of the module. *)
Fixpoint made (v : jsval) : Prop :=
  match v with
  | JObj own inh => (inh = [] \/ exists c, inh = prototype P rt c) /\ fold_right (fun p Q => made p.2 /\ Q) True own
  | JArr l => fold_right (fun x Q => made x /\ Q) True l
  | _ => True
  end.

Lemma made_array l v : made (JArr l) -> v ∈ l -> made v.
Proof. cbn. induction 2; naive_solver. Qed.

Lemma elem_of_indexed l : forall i p, p ∈ indexed i l -> p.2 ∈ l.
Proof.
  induction l as [|x l IH]; intros i p Hp; cbn in Hp; [by apply not_elem_of_nil in Hp|].
  apply elem_of_cons in Hp as [-> | Hp]; [by left | right; by eapply IH].
Qed.

Lemma made_own v p : made v -> p ∈ own_entries v -> made p.2.
Proof.
  destruct v as [| | | |s|b|z|l|own inh]; cbn [own_entries]; intros Hm Hp; try (by apply not_elem_of_nil in Hp).
  - apply elem_of_indexed, list_elem_of_fmap in Hp as (? & -> & _). done.
  - apply elem_of_indexed, list_elem_of_fmap in Hp as (? & -> & _). done.
  - repeat (apply elem_of_cons in Hp as [-> | Hp]; [done|]). by apply not_elem_of_nil in Hp.
  - apply elem_of_indexed in Hp. by eapply made_array.
  - destruct Hm as [_ Hm]. induction Hp; naive_solver.
Qed.

Lemma made_value m k v : made m -> own_value m k = Some v -> made v.
Proof.
  unfold own_value. intros Hm. destruct (assoc (js k) (own_entries m)) as [w|] eqn:E; [|done].
  destruct (nullish w); [done|]. intros [= ->]. apply assoc_In, list_elem_of_In in E. by apply (made_own m (js k, v)).
Qed.

(** What a loop over [message.k] visits is own. *)
Lemma loop_own c m k : made m -> k ∈ inherited_keys P c ->
  elements (get m k) = [] \/ own_value m k = Some (get m k).
Proof.
  intros Hm Hk. destruct m as [| | | |s|b|z|l|own inh]; try by left. unfold get, own_value. cbn [own_entries].
  destruct (assoc (js k) own) as [v|]; [destruct v; (by left) || (by right)|]. left.
  destruct Hm as [[-> | [d ->]] _]; [done|]. pose proof (covered c) as Hc. pose proof (covered d) as Hd. unfold covered_ok in *.
  rewrite !andb_true_iff in *. destruct Hc as [[_ Hc] _], Hd as [_ Hd]. unfold prototype. cbn [assoc].
  case_bool_decide as E.
  { apply js_inj in E. subst k. apply negb_true_iff, not_true_iff_false in Hc. exfalso. apply Hc, existsb_eqb, list_elem_of_In, Hk. }
  destruct (assoc (js k) (named _)) as [v|] eqn:Ea; [|done]. apply assoc_In in Ea. unfold named in Ea. apply in_map_iff in Ea as ([k' w] & [= _ <-] & Hin).
  unfold blank_prototype in Hd. rewrite forallb_forall in Hd. specialize (Hd (has_long rt) ltac:(destruct (has_long rt); cbn; tauto)).
  rewrite forallb_forall in Hd. specialize (Hd _ Hin). cbn in Hd. cbn. by destruct (elements w).
Qed.

Lemma within_value m k v : own_value m k = Some v -> within v m.
Proof.
  unfold own_value. destruct (assoc (js k) (own_entries m)) as [w|] eqn:E; [|done].
  destruct (nullish w); [done|]. intros [= ->]. apply assoc_In, list_elem_of_In in E.
  eapply (within_own v m (js k, v)); [done | constructor].
Qed.

Lemma within_element l v : v ∈ l -> within v (JArr l).
Proof.
  intros Hv. assert (forall i, exists p, p ∈ indexed i l /\ p.2 = v) as H.
  { induction Hv as [v l|v w l _ IH]; intros i; cbn [indexed]; [eexists; split; [by left | done]|].
    destruct (IH (i + 1)) as (p & Hp & <-). exists p. split; [by right | done]. }
  destruct (H 0) as (p & Hp & <-). eapply within_own; [done | constructor].
Qed.

Lemma concat_results_written {A} m (f : A -> result bytes) l :
  (forall x, x ∈ l -> written m (f x)) -> written m (concat_results f l).
Proof.
  induction l as [|x l IH]; intros H; [apply written_Ok|]. cbn [concat_results].
  apply written_bind; [apply H; by left|]. intros b _. apply written_bind; [apply IH; intros y Hy; apply H; by right|].
  intros c _. apply written_Ok.
Qed.

Section Statement.
Context (n : nat) (sub : class -> jsval -> result bytes).
Hypothesis Hsub : forall c v, valid D rt n c v -> made v -> written v (sub c v).

Lemma write_checked t (ck : check class) v : scalar_checked t ck = true -> check_holds rt ck v = true -> written v (rt_write rt t v).
Proof.
  intros Hc Hv. destruct (rt_write rt t v) as [b|e|] eqn:E; [apply written_Ok | | by destruct (write_ends (rt:=rt) t v)].
  right. exists e. split; [done|]. exists t, ck, v. split; [constructor | done].
Qed.

Lemma write_valid t ck v : scalar_checked t ck = true -> valid_value rt (valid D rt n) ck v -> written v (rt_write rt t v).
Proof. intros Hc Hv. apply (write_checked t ck); [done|]. by destruct t, ck. Qed.

Lemma sub_valid c ck v : message_checked c ck = true -> valid_value rt (valid D rt n) ck v -> made v -> written v (sub c v).
Proof. intros Hc Hv. destruct ck; try done. apply bool_decide_eq_true in Hc as <-. by apply Hsub. Qed.

Lemma put_scalar_valid tag t ck v :
  scalar_checked t ck = true -> valid_value rt (valid D rt n) ck v -> written v (put_scalar rt tag t v).
Proof. intros Hc Hv. apply written_bind; [by eapply write_valid | intros; apply written_Ok]. Qed.

Lemma put_message_valid tag c ck v :
  message_checked c ck = true -> valid_value rt (valid D rt n) ck v -> made v -> written v (put_message rt sub tag c v).
Proof. intros Hc Hv Hm. apply written_bind; [by eapply sub_valid | intros; apply written_Ok]. Qed.

Lemma put_entry_valid m tag ktag vtag (value : jsval -> result bytes) p :
  p ∈ own_entries m -> written p.2 (value p.2) -> written m (put_entry rt tag ktag vtag value p).
Proof.
  intros Hp Hv. apply written_bind.
  - apply (written_in (JStr p.1)); [|by eapply within_key; [|constructor]]. apply (write_checked TString IsString); [done | by cbn; rewrite isString_spec].
  - intros kb _. apply written_bind; [|intros; apply written_Ok]. eapply written_in; [done|]. eapply within_own; [done | constructor].
Qed.

Lemma run_enc_valid c m s v :
  covers s v = true -> s ∈ sm_encode P c -> valid_field rt (valid D rt n) m v -> made m -> written m (run_enc rt sub m s).
Proof.
  intros Hc Hs Hv Hm.
  assert (forall k ck, k ∈ inherited_keys P c -> valid_field rt (valid D rt n) m (CheckEach k ck) ->
            forall x, x ∈ elements (get m k) -> valid_value rt (valid D rt n) ck x /\ made x /\ within x m) as Hloop.
  { intros k ck Hk Hf x Hx. destruct (loop_own c m k Hm Hk) as [E|E]; [rewrite E in Hx; by apply not_elem_of_nil in Hx|].
    destruct (Hf _ E) as (l & El & Hl). rewrite El in Hx, E. cbn [elements] in Hx. rewrite Forall_forall in Hl.
    split; [by apply Hl|]. split; [by eapply made_array; [eapply made_value|]|].
    eapply within_trans; [|by eapply within_value]. by apply within_element. }
  assert (forall k ck, valid_field rt (valid D rt n) m (CheckEntries k ck) -> forall w, own_value m k = Some w ->
            forall p, p ∈ enumerate (own_entries w) -> valid_value rt (valid D rt n) ck p.2 /\ made p.2 /\ p ∈ own_entries w) as Hentries.
  { intros k ck Hf w Hw p Hp. rewrite enumerate_perm in Hp. destruct (Hf w Hw) as [_ Hl]. rewrite Forall_forall in Hl.
    split; [by apply Hl|]. split; [by eapply made_own; [eapply made_value|] | done]. }
  assert (forall k, In k (match s with PutEach k _ _ | PutEachMessage k _ _ | PutPacked k _ _ => [k] | _ => [] end) -> k ∈ inherited_keys P c) as Hin.
  { intros k Hk. unfold inherited_keys. apply list_elem_of_omap. exists s. split; [done|]. destruct s; cbn in *; naive_solver. }
  destruct s, v; try done; cbn [covers] in Hc; apply andb_true_iff in Hc as [<-%String.eqb_eq Hc]; cbn [run_enc valid_field] in *.
  - destruct (own_value m k) as [w|] eqn:E; [|apply written_Ok]. eapply written_in; [|by eapply within_value]. eapply put_scalar_valid; eauto.
  - destruct (own_value m k) as [w|] eqn:E; [|apply written_Ok]. eapply written_in; [|by eapply within_value]. eapply put_scalar_valid; eauto.
  - destruct (own_value m k) as [w|] eqn:E; [|apply written_Ok]. eapply written_in; [|by eapply within_value].
    eapply put_message_valid; eauto using made_value.
  - destruct (own_value m k) as [w|] eqn:E; [|apply written_Ok]. eapply written_in; [|by eapply within_value].
    eapply put_message_valid; eauto using made_value.
  - apply concat_results_written. intros x Hx. destruct (Hloop k t0) with x as (? & ? & ?); auto; [apply Hin; by left|].
    eapply written_in; [by eapply put_scalar_valid | done].
  - apply concat_results_written. intros x Hx. destruct (Hloop k t) with x as (? & ? & ?); auto; [apply Hin; by left|].
    eapply written_in; [by eapply put_message_valid | done].
  - destruct (elements (get m k)) as [|x xs] eqn:E; [apply written_Ok|]. apply written_bind; [|intros; apply written_Ok].
    apply concat_results_written. intros y Hy. destruct (Hloop k t0) with y as (? & ? & ?); auto; [apply Hin; by left | by rewrite E|].
    eapply written_in; [by eapply write_valid | done].
  - pose proof (Hentries k t0 Hv) as He. destruct (own_value m k) as [w|] eqn:E; [|apply written_Ok].
    eapply written_in; [|by eapply within_value]. apply concat_results_written.
    intros p Hp. destruct (He w eq_refl p Hp) as (Hvp & _ & Hpo). apply put_entry_valid; [done|]. by eapply write_valid.
  - pose proof (Hentries k t Hv) as He. destruct (own_value m k) as [w|] eqn:E; [|apply written_Ok].
    eapply written_in; [|by eapply within_value]. apply concat_results_written.
    intros p Hp. destruct (He w eq_refl p Hp) as (Hvp & Hmp & Hpo). apply put_entry_valid; [done|].
    apply written_bind; [by eapply sub_valid | intros; apply written_Ok].
Qed.
End Statement.

Lemma encode_at_valid fuel : forall c m q,
  rt_recursionLimit rt + 2 - q <= Z.of_nat fuel -> 0 <= q <= rt_recursionLimit rt + 1 ->
  valid D rt (Z.to_nat (rt_recursionLimit rt + 1 - q)) c m -> made m -> written m (encode_at P rt fuel c m q).
Proof.
  induction fuel as [|fuel IH]; intros c m q Hf Hq Hv Hm; [lia|]. cbn [encode_at].
  destruct (Z.ltb_spec (rt_recursionLimit rt) q).
  { exfalso. by replace (Z.to_nat (rt_recursionLimit rt + 1 - q)) with O in Hv by lia. }
  replace (Z.to_nat (rt_recursionLimit rt + 1 - q)) with (S (Z.to_nat (rt_recursionLimit rt + 1 - (q + 1)))) in Hv by lia.
  destruct Hv as (Ho & Hv & _). assert (nullish m = false) as -> by (by destruct m). cbn [andb].
  apply concat_results_written. intros s Hs. pose proof (covered c) as Hc. unfold covered_ok in Hc. rewrite !andb_true_iff in Hc.
  destruct Hc as [[Hc _] _]. rewrite forallb_forall in Hc. apply list_elem_of_In in Hs as Hs'.
  destruct (proj1 (existsb_exists _ _) (Hc s Hs')) as (v & Hin & Hcov). apply list_elem_of_In in Hin.
  rewrite Forall_forall in Hv. eapply run_enc_valid; eauto. intros c' w Hw Hmw. apply IH; (done || lia).
Qed.

(** A message that [verify] accepts is encoded, unless the writer refuses one
    of its scalars. *)
Lemma verify_encode c m : verify D rt c m = Ok None -> made m -> written m (encode P rt c m).
Proof.
  intros Hv Hm. apply (verify_spec D rt tests) in Hv. pose proof (limits_pos (rt:=rt)).
  apply encode_at_valid; [lia | lia | by rewrite Z.sub_0_r | done].
Qed.
End Safety.
