(* ===== verification/StaticEnds.v ===== *)
(** * Generated message classes: [verify], [fromObject] and [toObject] end

    The three functions of StaticObjects.v return or throw on every value: each
    counts its depth and stops at [$util.recursionLimit]. *)

From S2P Require Import Prelude JsString JsValue Codec PbRuntime StaticCode StaticObjects.

Section Results.
Lemma map_results_ends {A B} (f : A -> result B) l : (forall x, f x <> NoFuel) -> map_results f l <> NoFuel.
Proof.
  intros Hf. induction l as [|x l IH]; [done|]. cbn [map_results]. apply bind_not_NoFuel; [done|]. intros y _.
  by apply bind_not_NoFuel.
Qed.

Lemma fold_results_ends {A B} (f : A -> B -> result A) l : forall acc,
  (forall acc x, f acc x <> NoFuel) -> fold_results f acc l <> NoFuel.
Proof.
  induction l as [|x l IH]; intros acc Hf; [done|]. cbn [fold_results]. apply bind_not_NoFuel; [done|]. intros y _. by apply IH.
Qed.
End Results.

Section Ends.
Context {class : Type} (P : static_module class) (D : static_objects class) (rt : pb_runtime) `{!PbLaws rt}.

Section Verify.
Context (sub : class -> jsval -> result (option jsstr)) (Hsub : forall c v, sub c v <> NoFuel).

Lemma check_value_ends k suffix t v : check_value rt sub k suffix t v <> NoFuel.
Proof. destruct t; try done. by apply bind_not_NoFuel. Qed.

Lemma check_all_ends k suffix t vs : check_all rt sub k suffix t vs <> NoFuel.
Proof.
  induction vs as [|v vs IH]; [done|]. cbn [check_all]. apply bind_not_NoFuel; [apply check_value_ends|]. by intros [e|] _.
Qed.

Lemma run_verifies_ends m l : forall props, run_verifies rt sub m props l <> NoFuel.
Proof.
  induction l as [|s l IH]; intros props; [done|]. cbn [run_verifies]. apply bind_not_NoFuel; [|intros [[e|] ?] _; [done | apply IH]].
  destruct s; cbn [run_verify]; destruct (own_value m k) as [v|]; try done.
  - apply bind_not_NoFuel; [apply check_value_ends | done].
  - destruct v; try done. apply bind_not_NoFuel; [apply check_all_ends | done].
  - destruct (rt_isObject rt v); [|done]. apply bind_not_NoFuel; [apply check_all_ends | done].
  - destruct (_ && _); [done|]. apply bind_not_NoFuel; [apply check_value_ends | done].
Qed.
End Verify.

Lemma verify_at_ends fuel : forall c m long,
  rt_recursionLimit rt + 1 < long + Z.of_nat fuel -> long <= rt_recursionLimit rt + 1 -> verify_at D rt fuel c m long <> NoFuel.
Proof.
  induction fuel as [|fuel IH]; intros c m long Hf Hl; [lia|]. cbn [verify_at]. destruct (negb _); [done|].
  destruct (Z.ltb_spec (rt_recursionLimit rt) long); [done|]. apply run_verifies_ends. intros c' v. apply IH; lia.
Qed.

Lemma verify_ends c m : verify D rt c m <> NoFuel.
Proof. pose proof (limits_pos (rt:=rt)). apply verify_at_ends; lia. Qed.

Section FromObject.
Context (sub : class -> jsval -> result jsval) (Hsub : forall c v, sub c v <> NoFuel).

Lemma convert_ends c k t v : convert P rt sub c k t v <> NoFuel.
Proof.
  destruct t; try done; cbn [convert].
  - destruct v; try done. apply bind_not_NoFuel; [apply base64_ends | done].
  - destruct (rt_isObject rt v); [|done]. by apply bind_not_NoFuel.
Qed.

Lemma convert_each_ends c k t v : convert_each P rt sub c k t v <> NoFuel.
Proof. apply bind_not_NoFuel; [apply convert_ends | done]. Qed.

Lemma run_convert_ends c object m s : run_convert P rt sub c object m s <> NoFuel.
Proof.
  destruct s; cbn [run_convert].
  - destruct (nullish _); [done|]. apply bind_not_NoFuel; [apply convert_ends | done].
  - destruct (negb _); [done|]. destruct (get object k); try done. apply bind_not_NoFuel; [|done].
    apply map_results_ends, convert_each_ends.
  - destruct (negb _); [done|]. destruct (rt_isObject _ _); [|done]. apply bind_not_NoFuel; [|done].
    apply map_results_ends. intros p. apply bind_not_NoFuel; [apply convert_each_ends | done].
Qed.
End FromObject.

Lemma fromObject_at_ends fuel : forall c o long,
  rt_recursionLimit rt + 1 < long + Z.of_nat fuel -> long <= rt_recursionLimit rt + 1 ->
  fromObject_at P D rt fuel c o long <> NoFuel.
Proof.
  induction fuel as [|fuel IH]; intros c o long Hf Hl; [lia|]. cbn [fromObject_at]. destruct (instance_of _ _ _); [done|].
  destruct (is_nil _); [done|]. destruct (negb _); [done|]. destruct (Z.ltb_spec (rt_recursionLimit rt) long); [done|].
  apply fold_results_ends. intros acc s. apply run_convert_ends. intros c' v. apply IH; lia.
Qed.

Lemma fromObject_ends c o : fromObject P D rt c o <> NoFuel.
Proof. pose proof (limits_pos (rt:=rt)). apply fromObject_at_ends; lia. Qed.

Section ToObject.
Context (options : to_options) (sub : class -> jsval -> result jsval) (Hsub : forall c v, sub c v <> NoFuel).

Lemma show_ends t v : show rt options sub t v <> NoFuel.
Proof. destruct t; try done. apply Hsub. Qed.

Lemma run_show_ends m object s : run_show rt options sub m object s <> NoFuel.
Proof.
  destruct s; cbn [run_show].
  - destruct (own_value m k); [|done]. apply bind_not_NoFuel; [apply show_ends | done].
  - destruct (elements _) as [|v vs]; [done|]. apply bind_not_NoFuel; [apply map_results_ends, show_ends | done].
  - destruct (enumerate _) as [|v vs]; [done|]. apply bind_not_NoFuel; [|done]. apply map_results_ends. intros p.
    apply bind_not_NoFuel; [apply show_ends | done].
  - destruct (own_value m k); [|done]. apply bind_not_NoFuel; [apply show_ends | done].
Qed.
End ToObject.

Lemma toObject_at_ends fuel : forall c m options q,
  rt_recursionLimit rt + 1 < q + Z.of_nat fuel -> q <= rt_recursionLimit rt + 1 -> toObject_at D rt fuel c m options q <> NoFuel.
Proof.
  induction fuel as [|fuel IH]; intros c m options q Hf Hl; [lia|]. cbn [toObject_at]. destruct (is_nil _); [done|].
  destruct (Z.ltb_spec (rt_recursionLimit rt) q); [done|]. destruct (nullish m); [done|].
  apply fold_results_ends. intros acc s. apply run_show_ends. intros c' v. apply IH; lia.
Qed.

Lemma toObject_ends c m options : toObject D rt c m options <> NoFuel.
Proof. pose proof (limits_pos (rt:=rt)). apply toObject_at_ends; lia. Qed.
End Ends.
