(* ===== verification/ProtoFile.v ===== *)
(** * Message declarations of .proto files

    The declarations of src/proto/cordum/agent/v1/*.proto as data, and what
    they fix: the statement of [encode] that belongs to a field, the oneofs, and
    the reflection types of protobufjs that production-wire-schema.ts walks. *)

From Stdlib Require Import Ascii.
From stdpp Require Import sorting.
From S2P Require Import Prelude JsString JsValue WireSchema PbRuntime StaticCode.

Section Declarations.
Context {class : Type}.

Inductive field_type : Type :=
| Scalar (name : string)
| EnumType (values : list (string * Z))
| MessageType (c : class).

Inductive field_label : Set := Singular | Repeated | Mapped.

(** [label type name = number;], in a oneof or not; the keys of maps are
    strings. *)
Record proto_field : Type := PField {
  pf_number : Z;
  pf_name : string;
  pf_type : field_type;
  pf_label : field_label;
  pf_oneof : option string
}.
End Declarations.
Arguments field_type : clear implicits.
Arguments proto_field : clear implicits.

#[global] Instance field_label_eq_dec : EqDecision field_label.
Proof. solve_decision. Defined.

(** The JSON name of a field: a letter after an underscore becomes a capital. *)
Definition capital (c : ascii) : ascii :=
  let n := N_of_ascii c in if (97 <=? n)%N && (n <=? 122)%N then ascii_of_N (n - 32) else c.

Fixpoint json_name (s : string) : string :=
  match s with
  | String c s' =>
      if (c =? "_")%char then match s' with String d s'' => String (capital d) (json_name s'') | EmptyString => s end
      else String c (json_name s')
  | EmptyString => EmptyString
  end.

(** The writer method of a scalar type. *)
Definition scalar_of (name : string) : option scalar :=
  snd <$> List.find (fun p => String.eqb p.1 name)
    [("string", TString); ("bytes", TBytes); ("bool", TBool); ("int32", TInt32); ("uint32", TUint32);
     ("int64", TInt64); ("uint64", TUint64); ("float", TFloat); ("double", TDouble)]%string.

Section Generated.
Context {class : Type}.

Definition writer_of (t : field_type class) : option scalar :=
  match t with Scalar name => scalar_of name | EnumType _ => Some TInt32 | MessageType _ => None end.

(** Repeated scalars other than strings and buffers are packed. *)
Definition packable (t : scalar) : bool := negb (wire_type t =? 2).

(** The statement of [encode] for a field. *)
Definition enc_for (f : proto_field class) : option (enc_stmt class) :=
  let k := json_name (pf_name f) in
  let tag w := 8 * pf_number f + w in
  match pf_type f with
  | MessageType c =>
      Some (match pf_label f with
            | Singular => PutMessage k (tag 2) c
            | Repeated => PutEachMessage k (tag 2) c
            | Mapped => PutMapMessage k (tag 2) 10 18 c
            end)
  | t =>
      match writer_of t with
      | None => None
      | Some w =>
          Some (match pf_label f with
                | Singular => Put k (tag (wire_type w)) w
                | Repeated => if packable w then PutPacked k (tag 2) w else PutEach k (tag (wire_type w)) w
                | Mapped => PutMap k (tag 2) 10 (16 + wire_type w) w
                end)
      end
  end.

Definition number_le (f g : proto_field class) : Prop := pf_number f <= pf_number g.

#[global] Instance number_le_dec : RelDecision number_le.
Proof. intros f g. unfold number_le. apply _. Defined.

(** The oneofs in the order of their first members. *)
Fixpoint oneof_groups (fs : list (proto_field class)) : list (string * list string) :=
  match fs with
  | [] => []
  | f :: fs =>
      match pf_oneof f with
      | None => oneof_groups fs
      | Some o =>
          let rest := oneof_groups fs in
          let mine := List.filter (fun g => String.eqb g.1 (json_name o)) rest in
          (json_name o, json_name (pf_name f) :: concat (map snd mine)) ::
          List.filter (fun g => negb (String.eqb g.1 (json_name o))) rest
      end
  end.

(** ** Reflection *)

Section Schema.
Context (name : class -> string) (proto : class -> list (proto_field class)).

(** [Type] of protobufjs, [n] levels deep. *)
Definition reflect (schema : class -> msg_type) (f : proto_field class) : WireSchema.field :=
  Field (pf_number f) (json_name (pf_name f))
    (match pf_type f with Scalar t => t | EnumType _ => "enum" | MessageType c => name c end)
    (match pf_label f with Repeated => true | _ => false end)
    (match pf_label f with Mapped => true | _ => false end) "string"
    (match pf_label f, writer_of (pf_type f) with Repeated, Some w => packable w | _, _ => false end)
    (json_name <$> pf_oneof f)
    (match pf_type f with Scalar _ => Unresolved | EnumType _ => ResolvedEnum | MessageType c => ResolvedMessage (schema c) end).

Fixpoint schema_of (n : nat) (c : class) : msg_type :=
  match n with
  | O => MsgType (name c) []
  | S n => MsgType (name c) (map (reflect (schema_of n)) (proto c))
  end.
End Schema.
End Generated.
