(* ===== verification/ProtoClosed.v ===== *)
(** * Encoded messages are closed

    What [encode] of a generated class writes for a valid message passes the
    walk of production-wire-schema.ts (WireSchema.v) over the reflection type of
    its .proto declaration: every field is known, has its wire type, and occurs
    once where it may. *)

From S2P Require Import Prelude JsString JsValue Varint Codec WireSchema PbRuntime StaticCode StaticWire StaticRoundTrip ProtoFile.

(** ** Lists *)

Lemma omap_concat_map {A B C} (g : B -> option C) (F : A -> list B) l :
  omap g (concat (map F l)) = concat (map (fun x => omap g (F x)) l).
Proof. induction l as [|x l IH]; [done|]. cbn [map concat]. by rewrite omap_app, IH. Qed.

Lemma filter_concat_map {A B} (g : B -> bool) (F : A -> list B) l :
  List.filter g (concat (map F l)) = concat (map (fun x => List.filter g (F x)) l).
Proof. induction l as [|x l IH]; [done|]. cbn [map concat]. by rewrite List.filter_app, IH. Qed.

Lemma filter_map_fst {A B} (h : A -> bool) (l : list (A * B)) : map fst (List.filter (fun p => h p.1) l) = List.filter h (map fst l).
Proof. induction l as [|p l IH]; [done|]. cbn. destruct (h p.1); cbn; by rewrite IH. Qed.

Lemma omap_map_fst {A B C} (h : A -> option C) (l : list (A * B)) : omap (fun p => h p.1) l = omap h (map fst l).
Proof. induction l as [|p l IH]; [done|]. cbn. by rewrite <- IH. Qed.

Lemma Forall_choose {A B} (R : A -> B -> Prop) l : Forall (fun x => exists y, R x y) l -> exists ys, Forall2 R l ys.
Proof. induction 1 as [|x l [y Hy] _ [ys IH]]; [by exists [] | exists (y :: ys); by constructor]. Qed.

Lemma two_members {A} (f : A -> bool) l x y : x ∈ l -> y ∈ l -> f x = true -> f y = true -> (length (List.filter f l) <= 1)%nat -> x = y.
Proof.
  intros Hx Hy Fx Fy Hl. assert (forall z, z ∈ l -> f z = true -> z ∈ List.filter f l) as Hin.
  { intros z Hz Fz. apply list_elem_of_In, filter_In. split; [by apply list_elem_of_In | done]. }
  specialize (Hin x Hx Fx) as H1. specialize (Hin y Hy Fy) as H2. destruct (List.filter f l) as [|a [|b r]]; cbn in Hl; [|..|lia].
  - by apply not_elem_of_nil in H1.
  - apply list_elem_of_singleton in H1, H2. congruence.
Qed.

(** ** Declarations *)

Section Declared.
Context {class : Type} `{EqDecision class}.

#[global] Instance enc_stmt_eq_dec : EqDecision (enc_stmt class).
Proof. solve_decision. Defined.

Lemma scalar_of_wire name w : scalar_of name = Some w -> scalarWireType name = Ok (wire_type w).
Proof.
  unfold scalar_of. intros H. destruct (List.find _ _) as [[n w']|] eqn:E; [|done]. apply find_some in E as [Hin Hn].
  apply String.eqb_eq in Hn. cbn in Hn. subst n. injection H as ->. cbn in Hin.
  repeat destruct Hin as [[= <- <-]|Hin]; done.
Qed.

Section Module.
Context (P : static_module class) (proto : class -> list (proto_field class)).

(** The tables of a class are those of its declaration. *)
Definition proto_ok (c : class) : bool :=
  forallb (fun s => existsb (fun f => bool_decide (enc_for f = Some s)) (proto c)) (sm_encode P c) &&
  bool_decide (NoDup (map pf_number (proto c))) && bool_decide (NoDup (map fst (sm_oneofs P c))) &&
  forallb (fun f => (0 <? pf_number f) && (pf_number f <? 2 ^ 29)) (proto c) &&
  forallb (fun f => match pf_oneof f with
                    | None => true
                    | Some o => negb (String.eqb (json_name o) "") &&
                        bool_decide (pf_label f = Singular) &&
                        existsb (fun g => String.eqb (json_name o) g.1 && existsb (String.eqb (json_name (pf_name f))) g.2) (sm_oneofs P c)
                    end) (proto c).
End Module.
End Declared.

(** ** Values on the wire *)

Section Wire.
Context (rt : pb_runtime) `{!PbLaws rt}.

Lemma scalar_wire t v : scalar_ok rt t v ->
  exists w, wv_ok w /\ wv_type w = wire_type t /\ wv_encode w = scalar_bytes rt t v.
Proof.
  intros Hv. destruct (write_read t v Hv) as (bs & Hw & _). unfold scalar_bytes. rewrite Hw. pose proof (write_shape t v bs Hv Hw) as Hs.
  assert (wire_type t = 0 \/ wire_type t = 1 \/ wire_type t = 2 \/ wire_type t = 5) as [E | [E | [E | E]]]
    by (destruct t; cbn; lia); rewrite E in *.
  - destruct Hs as (z & Hz & ->). exists (VVarint z). split; [|done]. assert (2 ^ 64 < 2 ^ 70) by (apply Z.pow_lt_mono_r; lia). cbn. lia.
  - by exists (VFixed64 bs).
  - destruct Hs as [p ->]. by exists (VBytes p).
  - by exists (VFixed32 bs).
Qed.
End Wire.

Section Closed.
Context {class : Type} `{EqDecision class} (P : static_module class) (rt : pb_runtime) `{!PbLaws rt}.
Context (name : class -> string) (proto : class -> list (proto_field class)).
Context (tables : forall c, tables_ok P c = true) (declared : forall c, proto_ok P proto c = true).
#[local] Abbreviation schema := (schema_of name proto).

Lemma proto_ok_all c :
  (forall s, s ∈ sm_encode P c -> exists f, f ∈ proto c /\ enc_for f = Some s) /\
  NoDup (map pf_number (proto c)) /\ NoDup (map fst (sm_oneofs P c)) /\ (forall f, f ∈ proto c -> 0 < pf_number f < 2 ^ 29) /\
  (forall f o, f ∈ proto c -> pf_oneof f = Some o ->
     json_name o <> ""%string /\ pf_label f = Singular /\
     exists ks, (json_name o, ks) ∈ sm_oneofs P c /\ json_name (pf_name f) ∈ ks).
Proof.
  pose proof (declared c) as Hd. unfold proto_ok in Hd. rewrite !andb_true_iff, !forallb_forall, !bool_decide_eq_true in Hd.
  destruct Hd as [[[[H1 H2] H5] H3] H4]. setoid_rewrite list_elem_of_In. split; [|split; [done|split; [done|split]]].
  - intros s Hs. apply H1, existsb_exists in Hs as (f & Hf & E). apply bool_decide_eq_true in E. eauto.
  - intros f Hf. apply H3 in Hf. rewrite andb_true_iff, !Z.ltb_lt in Hf. done.
  - intros f o Hf Ho. apply H4 in Hf. rewrite Ho, !andb_true_iff, bool_decide_eq_true in Hf. destruct Hf as [[Hn Hl] Hv].
    split; [|split; [done|]].
    + intros E. by rewrite E in Hn.
    + apply existsb_exists in Hv as ([o' ks] & Hv & E). rewrite andb_true_iff, String.eqb_eq in E. destruct E as [E Hk]. cbn in E, Hk. subst o'.
      apply existsb_exists in Hk as (k & Hk & ->%String.eqb_eq). eauto.
Qed.

Lemma enc_for_number (f : proto_field class) s : enc_for f = Some s -> stmt_tag s / 8 = pf_number f /\ stmt_key s = json_name (pf_name f).
Proof.
  assert (forall w, 0 <= w < 8 -> (8 * pf_number f + w) / 8 = pf_number f) as Hdiv.
  { intros w Hw. rewrite Z.mul_comm, Z.div_add_l by lia. rewrite Z.div_small by lia. lia. }
  assert (forall t, 0 <= wire_type t < 8) as Hw by (by intros []).
  unfold enc_for. destruct (pf_type f) as [nm|vs|c]; cbn [writer_of]; [destruct (scalar_of nm); [|done]| |];
    destruct (pf_label f); try destruct (packable _); intros [= <-]; cbn [stmt_tag stmt_key]; (split; [|done]); apply Hdiv; try lia; apply Hw.
Qed.

Lemma fieldsById_declared N c f : f ∈ proto c -> fieldsById (schema (S N) c) (pf_number f) = Some (reflect name (schema N) f).
Proof.
  intros Hf. destruct (proto_ok_all c) as (_ & Hnd & _). unfold fieldsById. cbn [schema_of mt_fields].
  induction (proto c) as [|g l IH]; [by apply not_elem_of_nil in Hf|]. cbn [map] in Hnd |- *. apply NoDup_cons in Hnd as [Hg Hnd].
  cbn [List.find reflect f_id]. apply elem_of_cons in Hf as [-> | Hf]; [by rewrite Z.eqb_refl|].
  destruct (Z.eqb_spec (pf_number g) (pf_number f)) as [E|_]; [|by apply IH]. exfalso. apply Hg. rewrite E. by apply list_elem_of_fmap_2.
Qed.

Lemma schema_wf N : forall c, wf_type (schema N c).
Proof.
  induction N as [|N IH]; intros c; constructor; try constructor.
  - apply Forall_map, Forall_forall. intros f Hf. cbn. by apply (proto_ok_all c).
  - apply Forall_map, Forall_forall. intros f Hf t. unfold resolvedMessageType. cbn.
    destruct (pf_type f); try done. intros [= <-]. apply IH.
Qed.

(** ** Messages inside a message *)

Definition sub_messages (m : jsval) (s : enc_stmt class) : list (class * jsval) :=
  match s with
  | PutMessage k _ c => match own_value m k with Some v => [(c, v)] | None => [] end
  | PutEachMessage k _ c => map (pair c) (elements (get m k))
  | PutMapMessage k _ _ _ c =>
      match own_value m k with Some v => map (fun p => (c, p.2)) (own_entries v) | None => [] end
  | _ => []
  end.

Definition is_set (m : jsval) (k : string) : bool := match own_value m k with Some _ => true | None => false end.

(** At most one member of each oneof is set, at every depth. *)
Fixpoint exclusive (n : nat) (c : class) (m : jsval) : Prop :=
  match n with
  | O => True
  | S n => Forall (fun o => (length (List.filter (is_set m) o.2) <= 1)%nat) (sm_oneofs P c) /\
           Forall (fun s => Forall (fun p => exclusive n p.1 p.2) (sub_messages m s)) (sm_encode P c)
  end.

(** ** Fields *)

Section Level.
Context (n N : nat) (c : class) (m : jsval).
Hypothesis Hsub : forall d v, typed P rt n d v -> exclusive n d v -> closed (schema N d) true (emit rt (doc_of P n d v)).

Definition closes (p : Z * content) (w : wire_value) : Prop :=
  closed_field (schema (S N) c) (p.1, w) /\ wf_encode (p.1, w) = emit_field rt p.

Lemma closes_intro f number x w :
  f ∈ proto c -> number = pf_number f -> wire_allowed (reflect name (schema N) f) (wv_type w) -> wv_ok w ->
  closed_value (reflect name (schema N) f) w -> wv_type w = wire_of x -> wv_encode w = emit_content rt x -> closes (number, x) w.
Proof.
  intros Hf -> Ha Hok Hv Ht He. split; [|unfold wf_encode, emit_field, tag_of; cbn [fst snd]; rewrite Ht, He; by rewrite (Z.mul_comm 8)].
  econstructor; [by apply fieldsById_declared | done | done | done].
Qed.

Lemma scalar_base f w : (forall d, pf_type f <> MessageType d) -> writer_of (pf_type f) = Some w ->
  resolvedMessageType (reflect name (schema N) f) = None /\
  mapValueWireType (reflect name (schema N) f) = Ok (wire_type w) /\
  (pf_label f <> Mapped -> wire_allowed (reflect name (schema N) f) (wire_type w)) /\
  (pf_label f = Repeated -> packable w = true -> wire_allowed (reflect name (schema N) f) 2).
Proof.
  intros Hm Hw. unfold wire_allowed, allowedWireTypes, mapValueWireType, resolvedMessageType, is_resolved. cbn.
  destruct (pf_type f) as [nm|vs|d]; [|injection Hw as <-|by destruct (Hm d)]; cbn [writer_of] in *.
  - rewrite (scalar_of_wire _ _ Hw), Hw. cbn [mbind result_bind]. split; [done|]. split; [done|].
    destruct (pf_label f); cbn [orb andb]; split; try done; intros _; try (eexists; split; [done | by left]).
    + destruct (packable w && _); eexists; (split; [done | by left]).
    + intros Hpk. destruct w; try discriminate Hpk; eexists; (split; [reflexivity | by right; left]).
  - split; [done|]. split; [done|]. destruct (pf_label f); cbn; split; try done; intros _; try (eexists; split; [done | cbn; tauto]).
Qed.

Lemma scalar_closes f w v :
  f ∈ proto c -> (forall d, pf_type f <> MessageType d) -> writer_of (pf_type f) = Some w -> pf_label f <> Mapped ->
  scalar_ok rt w v -> exists x, closes (pf_number f, CScalar w v) x.
Proof.
  intros Hf Hm Hw Hl Hv. destruct (scalar_base f w Hm Hw) as (Hr & _ & Ha & _). destruct (scalar_wire rt w v Hv) as (x & Hok & Ht & He).
  exists x. eapply (closes_intro f); try done; [by rewrite Ht; auto|]. destruct x as [z|b|b|b]; try by constructor.
  apply closed_opaque; [|done]. cbn. by destruct (pf_label f).
Qed.

Lemma packed_closes f w vs :
  f ∈ proto c -> (forall d, pf_type f <> MessageType d) -> writer_of (pf_type f) = Some w -> pf_label f = Repeated ->
  packable w = true -> exists x, closes (pf_number f, CPacked w vs) x.
Proof.
  intros Hf Hm Hw Hl Hp. destruct (scalar_base f w Hm Hw) as (Hr & _ & _ & Ha). exists (VBytes (concat (map (scalar_bytes rt w) vs))).
  eapply (closes_intro f); try done; [by apply Ha|]. apply closed_opaque; [|done]. cbn. by rewrite Hl.
Qed.

Lemma message_closes f d v :
  f ∈ proto c -> pf_type f = MessageType d -> pf_label f <> Mapped -> typed P rt n d v -> exclusive n d v ->
  exists x, closes (pf_number f, CSub (doc_of P n d v)) x.
Proof.
  intros Hf Ht Hl Hty Hex. exists (VBytes (emit rt (doc_of P n d v))). eapply (closes_intro f); try done.
  - exists [2]. unfold allowedWireTypes, resolvedMessageType. cbn. rewrite Ht. rewrite orb_true_r. split; [done | by left].
  - apply (closed_nested _ (schema N d)); [cbn; by destruct (pf_label f) | unfold resolvedMessageType; cbn; by rewrite Ht | by apply Hsub].
Qed.

(** An entry of a map: its key and its value. *)
Lemma entry_closes f key x w :
  f ∈ proto c -> pf_label f = Mapped -> scalar_ok rt TString (JStr key) ->
  mapValueWireType (reflect name (schema N) f) = Ok (wv_type w) -> wv_ok w -> wv_type w = wire_of x -> wv_encode w = emit_content rt x ->
  (forall p t, w = VBytes p -> resolvedMessageType (reflect name (schema N) f) = Some t -> closed t true p) ->
  exists y, closes (pf_number f, CSub [(1, CScalar TString (JStr key)); (2, x)]) y.
Proof.
  intros Hf Hl Hk Hmv Hok Hwt He Hc. destruct (scalar_wire rt TString _ Hk) as (kw & Hkok & Hkt & Hke).
  set (doc := [(1, CScalar TString (JStr key)); (2, x)]). exists (VBytes (emit rt doc)). eapply (closes_intro f); try done.
  - exists [2]. unfold allowedWireTypes. cbn. rewrite Hl. split; [done | by left].
  - apply closed_map; [cbn; by rewrite Hl|].
    assert (emit rt doc = encode_wfields [(1, kw); (2, w)]) as ->.
    { unfold emit, encode_wfields, wf_encode, emit_field, tag_of. cbn [map concat fst snd doc]. rewrite Hkt, Hwt, Hke, He. done. }
    constructor; [|apply (bool_decide_eq_true_1 (NoDup [1; 2])); done].
    constructor; [|constructor; [|constructor]]; [apply closed_key | apply closed_entry_value]; try done. by rewrite Hkt.
Qed.

Lemma field_closes s :
  s ∈ sm_encode P c -> typed_field rt (typed P rt n) m s -> Forall (fun p => exclusive n p.1 p.2) (sub_messages m s) ->
  Forall (fun p => exists w, closes p w) (field_doc (doc_of P n) m s).
Proof.
  intros Hs Hty Hex. destruct (proto_ok_all c) as (Hdec & _). destruct (Hdec s Hs) as (f & Hf & He).
  destruct (enc_for_number f s He) as [Hn _]. unfold enc_for in He.
  assert ((exists d, pf_type f = MessageType d) \/
          (forall d, pf_type f <> MessageType d) /\ exists w, writer_of (pf_type f) = Some w) as [[d Hd] | [Hnm [w Hw]]].
  { destruct (pf_type f) as [nm|vs|d]; [|right; split; [done | by eexists]|left; by eexists]. right. split; [done|].
    cbn [writer_of] in *. destruct (scalar_of nm); [by eexists | done]. }
  - rewrite Hd in He. destruct (pf_label f) eqn:El; injection He as <-; cbn [field_doc typed_field sub_messages stmt_tag] in *; rewrite Hn.
    + destruct (own_value m _) as [v|]; constructor; [|constructor]. apply Forall_cons in Hex as [Hex _]. cbn in Hex. apply (message_closes f); auto. by rewrite El.
    + apply Forall_map. rewrite Forall_map in Hex. rewrite Forall_forall in *. intros v Hv. apply (message_closes f); auto; [by rewrite El|]. by apply (Hex v Hv).
    + destruct Hty as [Hty _]. destruct (own_value m _) as [v|]; [|constructor]. destruct (Hty v eq_refl) as [_ Hen].
      apply Forall_map. rewrite enumerate_perm. rewrite Forall_map in Hex. rewrite Forall_forall in *. intros p Hp. destruct (Hen p Hp) as [Hk Hv].
      apply (entry_closes f p.1 (CSub (doc_of P n d p.2)) (VBytes (emit rt (doc_of P n d p.2)))); try done.
      * unfold mapValueWireType, resolvedMessageType. cbn. by rewrite Hd.
      * unfold resolvedMessageType. cbn. rewrite Hd. intros ? ? [= <-] [= <-]. apply Hsub; [done | by apply (Hex p Hp)].
  - assert (enc_for f = Some s) as He' by exact He. clear He.
    assert (Some s = Some (match pf_label f with
                           | Singular => Put (json_name (pf_name f)) (8 * pf_number f + wire_type w) w
                           | Repeated => if packable w then PutPacked (json_name (pf_name f)) (8 * pf_number f + 2) w
                                         else PutEach (json_name (pf_name f)) (8 * pf_number f + wire_type w) w
                           | Mapped => PutMap (json_name (pf_name f)) (8 * pf_number f + 2) 10 (16 + wire_type w) w
                           end)) as E.
    { rewrite <- He'. unfold enc_for. destruct (pf_type f) as [| |d]; [by rewrite Hw| by rewrite Hw|by destruct (Hnm d)]. }
    destruct (scalar_base f w Hnm Hw) as (Hr & Hmv & _).
    destruct (pf_label f) eqn:El; [|destruct (packable w) eqn:Ep|]; injection E as ->; cbn [field_doc typed_field stmt_tag] in *; rewrite Hn.
    + destruct (own_value m _) as [v|]; constructor; [|constructor]. apply (scalar_closes f); auto. by rewrite El.
    + destruct (elements _); constructor; [|constructor]. by apply (packed_closes f).
    + apply Forall_map. eapply Forall_impl; [exact Hty|]. intros v Hv. apply (scalar_closes f); auto. by rewrite El.
    + destruct Hty as [Hty _]. destruct (own_value m _) as [v|]; [|constructor]. destruct (Hty v eq_refl) as [_ Hen].
      apply Forall_map. rewrite enumerate_perm. eapply Forall_impl; [exact Hen|]. intros p [Hk Hv].
      destruct (scalar_wire rt w p.2 Hv) as (x & Hok & Hxt & Hxe).
      apply (entry_closes f p.1 (CScalar w p.2) x); try done; [by rewrite Hxt|]. intros ? ? _. by rewrite Hr.
Qed.

(** ** Fields occur once *)

Definition numbers (s : enc_stmt class) : list Z := map fst (field_doc (doc_of P n) m s).

Lemma numbers_tag s x : x ∈ numbers s -> x = stmt_tag s / 8.
Proof.
  unfold numbers. intros (p & -> & Hp)%list_elem_of_fmap. revert Hp.
  destruct s; cbn [field_doc stmt_tag].
  1,2: destruct (own_value m k); [by intros ->%list_elem_of_singleton | intros H; by apply not_elem_of_nil in H].
  1,2: by intros (v & -> & _)%list_elem_of_fmap.
  1: destruct (elements (get m k)); [intros H; by apply not_elem_of_nil in H | by intros ->%list_elem_of_singleton].
  all: destruct (own_value m k); [by intros (v & -> & _)%list_elem_of_fmap | intros H; by apply not_elem_of_nil in H].
Qed.

Lemma numbers_singular f s : enc_for f = Some s -> pf_label f = Singular ->
  numbers s = [] \/ numbers s = [pf_number f] /\ is_set m (stmt_key s) = true.
Proof.
  intros He Hl. destruct (enc_for_number f s He) as [Hn _]. unfold enc_for in He. rewrite Hl in He. unfold numbers, is_set.
  destruct (pf_type f) as [nm|vs|d]; cbn [writer_of] in He; [destruct (scalar_of nm); [|done]| |]; injection He as <-;
    cbn [field_doc stmt_tag stmt_key] in *; rewrite Hn; destruct (own_value m _); auto.
Qed.

Lemma number_determines x y z : x ∈ sm_encode P c -> y ∈ sm_encode P c -> z ∈ numbers x -> z ∈ numbers y -> x = y.
Proof.
  intros Hx Hy Zx%numbers_tag Zy%numbers_tag. destruct (proto_ok_all c) as (Hdec & Hnd & _).
  destruct (Hdec x Hx) as (f & Hf & Ef), (Hdec y Hy) as (g & Hg & Eg).
  destruct (enc_for_number f x Ef) as [Nf _], (enc_for_number g y Eg) as [Ng _].
  assert (f = g) as <-; [|congruence]. apply (key_determines pf_number _ _ _ Hnd); congruence.
Qed.

(** The field of a number, when a statement has written it. *)
Lemma number_field s z : s ∈ sm_encode P c -> z ∈ numbers s ->
  exists f, f ∈ proto c /\ enc_for f = Some s /\ z = pf_number f /\ fieldsById (schema (S N) c) z = Some (reflect name (schema N) f).
Proof.
  intros Hs Hz%numbers_tag. destruct (proto_ok_all c) as (Hdec & _). destruct (Hdec s Hs) as (f & Hf & He). exists f.
  destruct (enc_for_number f s He) as [Hn _]. split; [done|]. split; [done|]. rewrite Hz, Hn. split; [done|]. by apply fieldsById_declared.
Qed.

Definition sing (z : Z) : bool :=
  match fieldsById (schema (S N) c) z with Some d => negb (f_repeated d) && negb (f_map d) | None => false end.
Definition group (z : Z) : option string := fieldsById (schema (S N) c) z ≫= oneof_name.

Lemma singular_once s : s ∈ sm_encode P c -> NoDup (List.filter sing (numbers s)).
Proof.
  intros Hs. destruct (numbers s) as [|z l] eqn:E; [constructor|].
  destruct (number_field s z Hs) as (f & Hf & He & -> & Hd); [rewrite E; by left|].
  assert (pf_label f <> Singular -> Forall (fun x => sing x = false) (numbers s)) as Hnone.
  { intros Hl. apply Forall_forall. intros x Hx%numbers_tag. destruct (enc_for_number f s He) as [Hn _].
    unfold sing. rewrite Hx, Hn, Hd. cbn. by destruct (pf_label f). }
  rewrite <- E. destruct (pf_label f) eqn:El; [|rewrite filter_none by auto; constructor..].
  destruct (numbers_singular f s He El) as [-> | [-> _]]; [constructor|]. cbn. destruct (sing _); repeat constructor. set_solver.
Qed.

Lemma group_once s : s ∈ sm_encode P c -> NoDup (omap group (numbers s)) /\
  forall o, o ∈ omap group (numbers s) -> is_set m (stmt_key s) = true /\ exists ks, (o, ks) ∈ sm_oneofs P c /\ stmt_key s ∈ ks.
Proof.
  intros Hs. destruct (proto_ok_all c) as (_ & _ & _ & _ & Hone). destruct (numbers s) as [|z l] eqn:E.
  { cbn. split; [constructor|]. intros o H. by apply not_elem_of_nil in H. }
  destruct (number_field s z Hs) as (f & Hf & He & -> & Hd); [rewrite E; by left|]. destruct (enc_for_number f s He) as [Hn Hk].
  assert (forall x, x ∈ numbers s -> group x = match pf_oneof f with Some o => Some (json_name o) | None => None end) as Hg.
  { intros x Hx%numbers_tag. unfold group. rewrite Hx, Hn, Hd. cbn. unfold oneof_name. cbn. destruct (pf_oneof f) as [o|] eqn:Eo; [|done]. cbn.
    destruct (Hone f o Hf Eo) as (Hne & _). by destruct (String.eqb_spec (json_name o) ""). }
  rewrite <- E. destruct (pf_oneof f) as [o|] eqn:Eo.
  - destruct (Hone f o Hf Eo) as (_ & Hl & ks & Hks & Hin). destruct (numbers_singular f s He Hl) as [En | [En Hset]]; [by rewrite En in E|].
    rewrite En. change (omap group [pf_number f]) with (match group (pf_number f) with Some y => [y] | None => [] end).
    rewrite Hg by (rewrite En; by left). split; [repeat constructor; set_solver|].
    intros o' ->%list_elem_of_singleton. split; [done|]. exists ks. by rewrite Hk.
  - assert (omap group (numbers s) = []) as ->; [|split; [constructor|]; intros o H; by apply not_elem_of_nil in H].
    clear -Hg. induction (numbers s) as [|x l IH]; [done|].
    change (omap group (x :: l)) with (match group x with Some y => y :: omap group l | None => omap group l end).
    rewrite Hg by (by left). apply IH. intros y Hy. apply Hg. by right.
Qed.

Lemma doc_once fs :
  Forall (fun o => (length (List.filter (is_set m) o.2) <= 1)%nat) (sm_oneofs P c) ->
  map fst fs = map fst (doc_of P (S n) c m) -> once (schema (S N) c) fs.
Proof.
  intros Hex E. destruct (tables_ok_all P c (tables c)) as [Hndk _]. pose proof (NoDup_fmap_1 stmt_key _ Hndk) as Hnd.
  destruct (proto_ok_all c) as (Hdec & _ & Hno & _ & Hone).
  assert (map fst fs = concat (map numbers (sm_encode P c))) as Enum.
  { rewrite E. cbn [doc_of]. rewrite concat_map, map_map. done. }
  assert (map fst (List.filter (singular (schema (S N) c)) fs) = List.filter sing (map fst fs)) as Es.
  { apply (filter_map_fst sing). }
  assert (omap (oneof_of (schema (S N) c)) fs = omap group (map fst fs)) as Eo.
  { apply (omap_map_fst group). }
  unfold once. rewrite Es, Eo, Enum, filter_concat_map, omap_concat_map. split; apply NoDup_concat_map; try done.
  - apply singular_once.
  - intros x y z Hx Hy [Zx _]%elem_of_filter_list [Zy _]%elem_of_filter_list. by apply (number_determines x y z).
  - intros s Hs. by apply group_once.
  - intros x y o Hx Hy Ox Oy. destruct (group_once x Hx) as [_ Gx], (group_once y Hy) as [_ Gy].
    destruct (Gx o Ox) as (Sx & ks & Hks & Kx), (Gy o Oy) as (Sy & ks' & Hks' & Ky).
    assert (ks' = ks) as -> by (pose proof (key_determines fst _ _ _ Hno Hks Hks' eq_refl) as [= ->]; done).
    rewrite Forall_forall in Hex. specialize (Hex _ Hks). pose proof (two_members _ _ _ _ Kx Ky Sx Sy Hex) as Ek.
    by apply (key_determines stmt_key _ _ _ Hndk).
Qed.
End Level.

(** ** Messages *)

Lemma doc_closed n : forall N c m, (n <= N)%nat -> typed P rt n c m -> exclusive n c m -> closed (schema N c) true (emit rt (doc_of P n c m)).
Proof.
  induction n as [|n IH]; intros N c m HN Hty Hex; [done|]. destruct N as [|N]; [lia|]. destruct Hty as [_ Hty], Hex as [Ho Hex].
  assert (forall d v, typed P rt n d v -> exclusive n d v -> closed (schema N d) true (emit rt (doc_of P n d v))) as Hsub.
  { intros d v Hd Hv. apply IH; (done || lia). }
  assert (Forall (fun p => exists w, closes N c p w) (doc_of P (S n) c m)) as Hall.
  { cbn [doc_of]. apply Forall_concat, Forall_map. rewrite Forall_forall in Hty, Hex |- *. intros s Hs.
    by apply (field_closes n N c m); auto. }
  apply Forall_choose in Hall as [ws Hws].
  set (doc := doc_of P (S n) c m) in *. set (fs := zip_with (fun p w => (p.1, w)) doc ws).
  assert (emit rt doc = encode_wfields fs /\ Forall (closed_field (schema (S N) c)) fs /\ map fst fs = map fst doc) as (-> & Hcl & Hf).
  { subst fs. clearbody doc. induction Hws as [|p w doc' ws' [Hc He] _ (IH1 & IH2 & IH3)]; [done|]. cbn [zip_with].
    unfold emit, encode_wfields in *. cbn [map concat]. rewrite IH1, He. split; [done|]. split; [by constructor|]. cbn. by rewrite IH3. }
  constructor; [done|]. intros _. by apply (doc_once n N c m).
Qed.
Lemma closed_top t raw : closed t true raw -> closed t false raw.
Proof. intros Hc. inversion Hc as [t' nested fs Hf Ho]; subst. by constructor. Qed.

(** What [encode] writes passes the walk. *)
Lemma encode_closed n N c m :
  typed P rt n c m -> exclusive n c m -> (n <= N)%nat -> Z.of_nat n <= rt_recursionLimit rt + 1 ->
  zlen (emit rt (doc_of P n c m)) < 2 ^ 32 ->
  exists bs, encode P rt c m = Ok bs /\ assertClosedNestedWire bs (schema N c) = Ok tt.
Proof.
  intros Hty Hex HN Hl Hs. exists (emit rt (doc_of P n c m)). split; [apply encode_at_ok; (done || lia)|].
  apply assertClosedNestedWire_closed; [apply schema_wf | lia |]. by apply closed_top, doc_closed.
Qed.
End Closed.
