(* ===== verification/ProtoGenerate.v ===== *)
(** * The code that declarations ask for

    What pbjs writes for a message of a .proto file: the constructor, the
    prototype and the statements of [decode], [verify], [fromObject] and
    [toObject]; [encode] is in ProtoFile.v.  CapPb.v compares them with
    src/node/cap_pb.js. *)

From S2P Require Import Prelude JsString JsValue PbRuntime StaticCode StaticObjects ProtoFile.

Section Generate.
Context {class : Type}.
Implicit Types (f : proto_field class) (fs : list (proto_field class)) (ty : field_type class).

Definition key_of f : string := json_name (pf_name f).

(** The value of a scalar that is not set; [long] is as in CapPbClasses.v. *)
Definition zero_of (long : bool) (w : scalar) : jsval :=
  match w with
  | TString => JStr []
  | TBytes => JBytes []
  | TBool => JBool false
  | TInt64 | TUint64 => if long then JLong 0 else JNum (NInt 0)
  | TInt32 | TUint32 | TFloat | TDouble => JNum (NInt 0)
  end.

(** ** The class *)

Definition init_for f : option (string * jsval) :=
  match pf_label f with
  | Singular => None
  | Repeated => Some (key_of f, JArr [])
  | Mapped => Some (key_of f, JPlain [])
  end.

(** A member of a oneof has no default. *)
Definition prototype_value (long : bool) f : jsval :=
  match pf_label f, pf_oneof f, writer_of (pf_type f) with
  | Repeated, _, _ => JArr []
  | Mapped, _, _ => JPlain []
  | Singular, None, Some w => zero_of long w
  | Singular, _, _ => JNull
  end.

Definition prototype_for (long : bool) fs : list (string * jsval) :=
  map (fun f => (key_of f, prototype_value long f)) fs.

(** ** decode *)

Definition dec_for f : option (Z * dec_case class) :=
  pair (pf_number f) <$>
  match pf_type f with
  | MessageType c =>
      Some (match pf_label f with
            | Singular => ReadMessage (key_of f) c
            | Repeated => PushMessage (key_of f) c
            | Mapped => ReadEntryMessage (key_of f) JNull c
            end)
  | t =>
      (fun w => match pf_label f with
                | Singular => Read (key_of f) w
                | Repeated => if packable w then PushPacked (key_of f) w else Push (key_of f) w
                | Mapped => ReadEntry (key_of f) (zero_of true w) w
                end) <$> writer_of t
  end.

(** ** verify *)

Definition check_for ty : option (check class) :=
  match ty with
  | MessageType c => Some (IsMessage c)
  | EnumType values => Some (IsEnum (map snd values))
  | Scalar name =>
      (fun w => match w with
                | TString => IsString
                | TBytes => IsBuffer
                | TBool => IsBoolean
                | TInt32 | TUint32 => IsInteger
                | TInt64 | TUint64 => IsLong
                | TFloat | TDouble => IsNumber
                end) <$> scalar_of name
  end.

(** The first member of a oneof is not tested. *)
Definition verify_for (seen : list string) f (t : check class) : verify_stmt class :=
  match pf_label f, pf_oneof f with
  | Singular, None => Check (key_of f) t
  | Singular, Some o => CheckMember (json_name o) (existsb (String.eqb (json_name o)) seen) (key_of f) t
  | Repeated, _ => CheckEach (key_of f) t
  | Mapped, _ => CheckEntries (key_of f) t
  end.

Fixpoint checks_for (seen : list string) fs : option (list (verify_stmt class)) :=
  match fs with
  | [] => Some []
  | f :: fs =>
      match check_for (pf_type f), checks_for (option_list (json_name <$> pf_oneof f) ++ seen) fs with
      | Some t, Some l => Some (verify_for seen f t :: l)
      | _, _ => None
      end
  end.

(** ** fromObject *)

Definition conversion_for ty : option (conversion class) :=
  match ty with
  | MessageType c => Some (ToMessage c)
  | EnumType values => Some (ToEnum values)
  | Scalar name =>
      match scalar_of name with
      | Some TString => Some ToText
      | Some TBytes => Some ToBytes
      | Some TBool => Some ToBoolean
      | Some TInt32 => Some ToInt32
      | Some TInt64 => Some (ToLong false)
      | Some TUint64 => Some (ToLong true)
      | Some TFloat | Some TDouble => Some ToNumber
      | _ => None
      end
  end.

Definition convert_for f : option (convert_stmt class) :=
  (fun t => match pf_label f with
            | Singular => Convert (key_of f) t
            | Repeated => ConvertEach (key_of f) t
            | Mapped => ConvertEntries (key_of f) t
            end) <$> conversion_for (pf_type f).

(** ** toObject *)

Definition shown_for ty : option (shown class) :=
  match ty with
  | MessageType c => Some (AsObject c)
  | EnumType values => Some (AsEnum values)
  | Scalar name =>
      (fun w => match w with
                | TBytes => AsBytes
                | TInt64 => AsLong false
                | TUint64 => AsLong true
                | TFloat | TDouble => AsNumber
                | _ => AsIs
                end) <$> scalar_of name
  end.

Definition show_for f : option (show_stmt class) :=
  (fun t => match pf_label f, pf_oneof f with
            | Singular, None => Show (key_of f) t
            | Singular, Some o => ShowMember (json_name o) (key_of f) t
            | Repeated, _ => ShowEach (key_of f) t
            | Mapped, _ => ShowEntries (key_of f) t
            end) <$> shown_for (pf_type f).

Definition default_for f : option (string * default_value) :=
  match pf_label f, pf_oneof f with
  | Singular, None =>
      pair (key_of f) <$>
      match pf_type f with
      | MessageType _ => Some (DefaultValue JNull)
      | EnumType values => (fun p => DefaultEnum p.1 p.2) <$> head values
      | Scalar name =>
          (fun w => match w with
                    | TBytes => DefaultBytes
                    | TInt64 | TUint64 => DefaultLong
                    | _ => DefaultValue (zero_of true w)
                    end) <$> scalar_of name
      end
  | _, _ => None
  end.

(** The names of the fields with a label. *)
Definition labelled (l : field_label) fs : list string :=
  map key_of (List.filter (fun f => bool_decide (pf_label f = l)) fs).

(** The fields are in the order of their numbers. *)
Definition to_object_for ordered : option (to_object class) :=
  (fun shows => {|
     to_arrays := labelled Repeated ordered;
     to_objects := labelled Mapped ordered;
     to_defaults := omap default_for ordered;
     to_shows := shows
   |}) <$> mapM show_for ordered.
End Generate.
