(* ===== verification/ProtoValid.v ===== *)
(** * What [verify] accepts, by the declarations

    A message passes the tests of a .proto declaration when each field that is
    set passes the test of its declared type, at every depth, and no oneof has
    two members set.  The tests are those of the generated code and are weaker
    than the types: integers have no range, and anything with a numeric length
    passes for bytes.  [verify] accepts exactly these messages when its checks
    are those the declarations ask for. *)

From S2P Require Import Prelude JsString JsValue PbRuntime StaticCode StaticObjects StaticVerify ProtoFile ProtoGenerate.

Section Valid.
Context {class : Type}.

(** ** Values of a type *)

Definition integral (v : jsval) : Prop := exists n, v = JNum n /\ is_integer n = true.

(** The value passes the test of a scalar type; the range of an integer is not
    tested. *)
Definition scalar_holds (w : scalar) (v : jsval) : Prop :=
  match w with
  | TString => exists s, v = JStr s
  | TBytes => (truthy v = true /\ exists n, length_of v = JNum n) \/ exists s, v = JStr s
  | TBool => exists b, v = JBool b
  | TInt32 | TUint32 => integral v
  | TInt64 | TUint64 => integral v \/ truthy v = true /\ integral (member v "low") /\ integral (member v "high")
  | TFloat | TDouble => exists n, v = JNum n
  end.

Definition type_holds (valid : class -> jsval -> Prop) (ty : field_type class) (v : jsval) : Prop :=
  match ty with
  | Scalar name => exists w, scalar_of name = Some w /\ scalar_holds w v
  | EnumType values => exists p, p ∈ values /\ strict_eq v (JNum (NInt p.2)) = true
  | MessageType d => valid d v
  end.

(** ** Fields *)

Definition field_holds (valid : class -> jsval -> Prop) (m : jsval) (f : proto_field class) : Prop :=
  forall v, own_value m (key_of f) = Some v ->
  match pf_label f with
  | Singular => type_holds valid (pf_type f) v
  | Repeated => exists l, v = JArr l /\ Forall (type_holds valid (pf_type f)) l
  | Mapped => is_object v = true /\ Forall (fun p => type_holds valid (pf_type f) p.2) (own_entries v)
  end.

(** A member of the oneof that the message has. *)
Definition member_set (m : jsval) (o : string) (f : proto_field class) : bool :=
  match pf_label f, pf_oneof f with
  | Singular, Some o' => String.eqb o (json_name o') && match own_value m (key_of f) with Some _ => true | None => false end
  | _, _ => false
  end.

Section Messages.
Context (proto : class -> list (proto_field class)).

(** Nested to depth [n] at most. *)
Fixpoint declared (n : nat) (c : class) (m : jsval) : Prop :=
  match n with
  | O => False
  | S n => is_object m = true /\ Forall (field_holds (declared n) m) (proto c) /\
           forall o, (length (List.filter (member_set m o) (proto c)) <= 1)%nat
  end.
End Messages.

(** ** The checks *)

Context (rt : pb_runtime) `{!PbLaws rt}.

Lemma isInteger_integral v : rt_isInteger rt v = true <-> integral v.
Proof.
  rewrite isInteger_spec. unfold integral. destruct v; split; try done; try (by intros (? & [=] & _)).
  - eauto.
  - by intros (? & [= <-] & ?).
Qed.

Lemma isString_string v : rt_isString rt v = true <-> exists s, v = JStr s.
Proof. rewrite isString_spec. destruct v; split; try done; try (by intros [? [=]]). eauto. Qed.

Lemma check_for_holds valid ty ck v :
  check_for ty = Some ck -> valid_value rt valid ck v <-> type_holds valid ty v.
Proof.
  assert (forall x, match x with JNum _ => true | _ => false end = true <-> exists n, x = JNum n) as Hnum.
  { intros x. destruct x; split; try done; try (by intros [? [=]]). eauto. }
  assert (match v with JBool _ => true | _ => false end = true <-> exists b, v = JBool b) as Hbool.
  { destruct v; split; try done; try (by intros [? [=]]). eauto. }
  destruct ty as [name|values|d]; cbn [check_for type_holds].
  - destruct (scalar_of name) as [w|]; [|done]. intros [= <-].
    assert ((exists w', Some w = Some w' /\ scalar_holds w' v) <-> scalar_holds w v) as -> by naive_solver.
    destruct w; cbn [valid_value check_holds scalar_holds];
      rewrite ?orb_true_iff, ?andb_true_iff, ?isInteger_integral, ?isString_string, ?Hnum, ?Hbool; tauto.
  - intros [= <-]. cbn [valid_value check_holds]. rewrite existsb_exists. split.
    + intros (n & Hn & E). apply in_map_iff in Hn as (p & <- & Hp). exists p. by rewrite list_elem_of_In.
    + intros (p & Hp & E). exists p.2. split; [|done]. apply in_map. by apply list_elem_of_In.
  - by intros [= <-].
Qed.

Lemma verify_for_holds valid m seen f ck :
  check_for (pf_type f) = Some ck ->
  (valid_field rt valid m (verify_for seen f ck) <-> field_holds valid m f) /\
  forall o, set_member m o (verify_for seen f ck) = member_set m o f.
Proof.
  intros Hck. pose proof (fun v => check_for_holds valid (pf_type f) ck v Hck) as Hv. unfold verify_for, field_holds, member_set.
  destruct (pf_label f); [destruct (pf_oneof f)| |]; cbn [valid_field set_member]; (split; [|done]).
  - by setoid_rewrite Hv.
  - by setoid_rewrite Hv.
  - by setoid_rewrite (Forall_iff _ _ _ Hv).
  - setoid_rewrite isObject_spec. by setoid_rewrite (Forall_iff _ _ _ (fun p : jsstr * jsval => Hv p.2)).
Qed.

Lemma checks_for_holds valid m fs : forall seen l,
  checks_for seen fs = Some l ->
  (Forall (valid_field rt valid m) l <-> Forall (field_holds valid m) fs) /\
  forall o, members m o l = length (List.filter (member_set m o) fs).
Proof.
  induction fs as [|f fs IH]; intros seen l; cbn [checks_for].
  - intros [= <-]. split; [|done]. by split; constructor.
  - destruct (check_for (pf_type f)) as [ck|] eqn:Ec; [|done]. destruct (checks_for _ fs) as [l'|] eqn:El; [|done].
    intros [= <-]. destruct (IH _ _ El) as [H1 H2]. destruct (verify_for_holds valid m seen f ck Ec) as [H3 H4].
    split; [by rewrite !Forall_cons, H1, H3|]. intros o. rewrite members_cons, H2, H4. cbn [List.filter].
    by destruct (member_set m o f).
Qed.

(** ** verify *)

Context (D : static_objects class) (proto : class -> list (proto_field class)).
Hypothesis checks : forall c, checks_for [] (proto c) = Some (so_verify D c).

Lemma valid_declared n : forall c m, valid D rt n c m <-> declared proto n c m.
Proof.
  induction n as [|n IH]; intros c m; [done|]. cbn [valid declared].
  destruct (checks_for_holds (valid D rt n) m (proto c) [] _ (checks c)) as [H1 H2]. rewrite H1. setoid_rewrite H2.
  assert (Forall (field_holds (valid D rt n) m) (proto c) <-> Forall (field_holds (declared proto n) m) (proto c)) as ->; [|done].
  assert (forall ty v, type_holds (valid D rt n) ty v <-> type_holds (declared proto n) ty v) as Ht
    by (intros [| |d] v; cbn; [done | done | apply IH]).
  apply Forall_iff. intros f. unfold field_holds. destruct (pf_label f).
  - by setoid_rewrite Ht.
  - by setoid_rewrite (Forall_iff _ _ _ (Ht (pf_type f))).
  - by setoid_rewrite (Forall_iff _ _ _ (fun p : jsstr * jsval => Ht (pf_type f) p.2)).
Qed.

Lemma verify_declared c m :
  (forall c, tests_ok [] (so_verify D c) = true) ->
  verify D rt c m = Ok None <-> declared proto (Z.to_nat (rt_recursionLimit rt + 1)) c m.
Proof. intros Ht. rewrite (verify_spec D rt Ht). apply valid_declared. Qed.
End Valid.
