(* ===== verification/CapPbClasses.v ===== *)
(** * The classes of cap_pb.js

    src/node/cap_pb.js: the message classes and the enums, with what their
    constructors assign, their prototypes and their virtual oneofs.  [long] says
    whether [$util.Long] is installed. *)

From S2P Require Import Prelude JsString JsValue.
#[local] Open Scope string_scope.

Inductive cap_class : Set :=
| BusPacketT | SignatureMetadataT | IdentityBindingT | DispatchIdentityT | ResourceRefT | ContextHintsT
| BudgetT | JobMetadataT | CompensationT | JobRequestT | JobResultT | JobProgressT | JobCancelT | HeartbeatT
| SystemAlertT | HandshakeT | WorkerHandshakeChallengeRequestT | WorkerHandshakeChallengeT
| WorkerHandshakeAuthenticateT | WorkerHandshakeResultT | RuleScopeT | AuditMetadataT | RuleT | TraceStepT
| DecisionT | BundleMetadataT | BundleVersionT | BundleT | JobEvaluationContextT | EdgeEvaluationContextT
| PolicyEvaluateRequestT | PolicyEvaluateResponseT | PolicyCheckRequestT | BudgetConstraintsT | SandboxProfileT
| ToolchainConstraintsT | DiffConstraintsT | PolicyConstraintsT | PolicyRemediationT | PolicyCheckResponseT
| ListSnapshotsRequestT | ListSnapshotsResponseT | TimestampT | StructT | ValueT | ListValueT.

#[global] Instance cap_class_eq_dec : EqDecision cap_class.
Proof. solve_decision. Defined.

Definition all_classes : list cap_class :=
  [BusPacketT; SignatureMetadataT; IdentityBindingT; DispatchIdentityT; ResourceRefT; ContextHintsT; BudgetT;
   JobMetadataT; CompensationT; JobRequestT; JobResultT; JobProgressT; JobCancelT; HeartbeatT; SystemAlertT;
   HandshakeT; WorkerHandshakeChallengeRequestT; WorkerHandshakeChallengeT; WorkerHandshakeAuthenticateT;
   WorkerHandshakeResultT; RuleScopeT; AuditMetadataT; RuleT; TraceStepT; DecisionT; BundleMetadataT;
   BundleVersionT; BundleT; JobEvaluationContextT; EdgeEvaluationContextT; PolicyEvaluateRequestT;
   PolicyEvaluateResponseT; PolicyCheckRequestT; BudgetConstraintsT; SandboxProfileT; ToolchainConstraintsT;
   DiffConstraintsT; PolicyConstraintsT; PolicyRemediationT; PolicyCheckResponseT; ListSnapshotsRequestT;
   ListSnapshotsResponseT; TimestampT; StructT; ValueT; ListValueT].

Lemma all_classes_complete c : In c all_classes.
Proof. destruct c; cbn; tauto. Qed.

(** ** Enums *)

Definition JobPriority : list (string * Z) :=
  [("JOB_PRIORITY_UNSPECIFIED", 0); ("JOB_PRIORITY_INTERACTIVE", 1); ("JOB_PRIORITY_BATCH", 2);
   ("JOB_PRIORITY_CRITICAL", 3)].

Definition JobStatus : list (string * Z) :=
  [("JOB_STATUS_UNSPECIFIED", 0); ("JOB_STATUS_PENDING", 1); ("JOB_STATUS_SCHEDULED", 2);
   ("JOB_STATUS_DISPATCHED", 3); ("JOB_STATUS_RUNNING", 4); ("JOB_STATUS_SUCCEEDED", 5);
   ("JOB_STATUS_FAILED", 6); ("JOB_STATUS_CANCELLED", 7); ("JOB_STATUS_DENIED", 8); ("JOB_STATUS_TIMEOUT", 9);
   ("JOB_STATUS_FAILED_RETRYABLE", 10); ("JOB_STATUS_FAILED_FATAL", 11)].

Definition ActorType : list (string * Z) :=
  [("ACTOR_TYPE_UNSPECIFIED", 0); ("ACTOR_TYPE_HUMAN", 1); ("ACTOR_TYPE_SERVICE", 2)].

Definition ErrorCode : list (string * Z) :=
  [("ERROR_CODE_UNSPECIFIED", 0); ("ERROR_CODE_PROTOCOL_VERSION_MISMATCH", 100);
   ("ERROR_CODE_PROTOCOL_MALFORMED_PACKET", 101); ("ERROR_CODE_PROTOCOL_UNKNOWN_PAYLOAD", 102);
   ("ERROR_CODE_PROTOCOL_SIGNATURE_INVALID", 103); ("ERROR_CODE_PROTOCOL_SIGNATURE_MISSING", 104);
   ("ERROR_CODE_JOB_TIMEOUT", 200); ("ERROR_CODE_JOB_RESOURCE_EXHAUSTED", 201);
   ("ERROR_CODE_JOB_PERMISSION_DENIED", 202); ("ERROR_CODE_JOB_INVALID_INPUT", 203);
   ("ERROR_CODE_JOB_NOT_FOUND", 204); ("ERROR_CODE_JOB_DUPLICATE", 205);
   ("ERROR_CODE_JOB_WORKER_UNAVAILABLE", 206); ("ERROR_CODE_SAFETY_DENIED", 300);
   ("ERROR_CODE_SAFETY_POLICY_VIOLATION", 301); ("ERROR_CODE_SAFETY_RISK_TAG_BLOCKED", 302);
   ("ERROR_CODE_TRANSPORT_PUBLISH_FAILED", 400); ("ERROR_CODE_TRANSPORT_SUBSCRIBE_FAILED", 401);
   ("ERROR_CODE_TRANSPORT_CONNECTION_LOST", 402)].

Definition AlertSeverity : list (string * Z) :=
  [("ALERT_SEVERITY_UNSPECIFIED", 0); ("ALERT_SEVERITY_INFO", 1); ("ALERT_SEVERITY_WARNING", 2);
   ("ALERT_SEVERITY_ERROR", 3); ("ALERT_SEVERITY_CRITICAL", 4)].

Definition ComponentRole : list (string * Z) :=
  [("COMPONENT_ROLE_UNSPECIFIED", 0); ("COMPONENT_ROLE_GATEWAY", 1); ("COMPONENT_ROLE_SCHEDULER", 2);
   ("COMPONENT_ROLE_WORKER", 3); ("COMPONENT_ROLE_ORCHESTRATOR", 4); ("COMPONENT_ROLE_CONTROLLER", 5)].

Definition WorkerHandshakePurpose : list (string * Z) :=
  [("WORKER_HANDSHAKE_PURPOSE_UNSPECIFIED", 0); ("WORKER_HANDSHAKE_PURPOSE_ISSUE", 1);
   ("WORKER_HANDSHAKE_PURPOSE_RENEW", 2)].

Definition WorkerHandshakeProofAlgorithm : list (string * Z) :=
  [("WORKER_HANDSHAKE_PROOF_ALGORITHM_UNSPECIFIED", 0);
   ("WORKER_HANDSHAKE_PROOF_ALGORITHM_ECDSA_P256_SHA256", 1)].

Definition WorkerHandshakeRejectionReason : list (string * Z) :=
  [("WORKER_HANDSHAKE_REJECTION_REASON_UNSPECIFIED", 0);
   ("WORKER_HANDSHAKE_REJECTION_REASON_INVALID_REQUEST", 1);
   ("WORKER_HANDSHAKE_REJECTION_REASON_AUTHENTICATION_FAILED", 2);
   ("WORKER_HANDSHAKE_REJECTION_REASON_REPLAY_DETECTED", 3);
   ("WORKER_HANDSHAKE_REJECTION_REASON_CLOCK_SKEW", 4);
   ("WORKER_HANDSHAKE_REJECTION_REASON_CHALLENGE_EXPIRED", 5);
   ("WORKER_HANDSHAKE_REJECTION_REASON_SESSION_REQUIRED", 6);
   ("WORKER_HANDSHAKE_REJECTION_REASON_SESSION_INVALID", 7);
   ("WORKER_HANDSHAKE_REJECTION_REASON_UNSUPPORTED_VERSION", 8);
   ("WORKER_HANDSHAKE_REJECTION_REASON_INTERNAL_ERROR", 9)].

Definition RuleType : list (string * Z) :=
  [("RULE_TYPE_UNSPECIFIED", 0); ("RULE_TYPE_INPUT", 1); ("RULE_TYPE_OUTPUT", 2); ("RULE_TYPE_VELOCITY", 3);
   ("RULE_TYPE_EDGE", 4)].

Definition RuleStatus : list (string * Z) :=
  [("RULE_STATUS_UNSPECIFIED", 0); ("RULE_STATUS_DRAFT", 1); ("RULE_STATUS_PUBLISHED", 2);
   ("RULE_STATUS_DEPRECATED", 3)].

Definition DecisionSource : list (string * Z) :=
  [("DECISION_SOURCE_UNSPECIFIED", 0); ("DECISION_SOURCE_JOB", 1); ("DECISION_SOURCE_EDGE", 2)].

Definition RuleScopeKind : list (string * Z) :=
  [("RULE_SCOPE_KIND_UNSPECIFIED", 0); ("RULE_SCOPE_KIND_GLOBAL", 1); ("RULE_SCOPE_KIND_TENANT", 2);
   ("RULE_SCOPE_KIND_WORKFLOW", 3); ("RULE_SCOPE_KIND_EDGE_FLEET", 4); ("RULE_SCOPE_KIND_EDGE_USER", 5)].

Definition EdgeMode : list (string * Z) :=
  [("EDGE_MODE_UNSPECIFIED", 0); ("EDGE_MODE_OBSERVE", 1); ("EDGE_MODE_ENFORCE", 2);
   ("EDGE_MODE_ENTERPRISE_STRICT", 3)].

Definition DecisionType : list (string * Z) :=
  [("DECISION_TYPE_UNSPECIFIED", 0); ("DECISION_TYPE_ALLOW", 1); ("DECISION_TYPE_DENY", 2);
   ("DECISION_TYPE_REQUIRE_HUMAN", 3); ("DECISION_TYPE_THROTTLE", 4);
   ("DECISION_TYPE_ALLOW_WITH_CONSTRAINTS", 5); ("DECISION_TYPE_QUARANTINE", 6); ("DECISION_TYPE_REDACT", 7)].

Definition NullValue : list (string * Z) :=
  [("NULL_VALUE", 0)].

(** ** Classes *)

(** The name, what the constructor assigns, the prototype and the oneofs. *)
Record message_class : Type := {
  mc_name : string;
  mc_init : list (string * jsval);
  mc_prototype : bool -> list (string * jsval);
  mc_oneofs : list (string * list string)
}.

Definition BusPacket_class : message_class := {|
  mc_name := "cordum.agent.v1.BusPacket";
  mc_init := [];
  mc_prototype := fun _ =>
    [("traceId", JStr []); ("senderId", JStr []); ("createdAt", JNull); ("protocolVersion", JNum (NInt 0));
     ("signatureMetadata", JNull); ("identity", JNull); ("jobRequest", JNull); ("jobResult", JNull);
     ("heartbeat", JNull); ("alert", JNull); ("jobProgress", JNull); ("jobCancel", JNull);
     ("handshake", JNull); ("workerHandshakeChallengeRequest", JNull); ("workerHandshakeChallenge", JNull);
     ("workerHandshakeAuthenticate", JNull); ("workerHandshakeResult", JNull); ("signature", JBytes []);
     ("authToken", JStr [])];
  mc_oneofs :=
    [("payload",
      ["jobRequest"; "jobResult"; "heartbeat"; "alert"; "jobProgress"; "jobCancel"; "handshake";
       "workerHandshakeChallengeRequest"; "workerHandshakeChallenge"; "workerHandshakeAuthenticate";
       "workerHandshakeResult"])]
|}.

Definition SignatureMetadata_class : message_class := {|
  mc_name := "cordum.agent.v1.SignatureMetadata";
  mc_init := [];
  mc_prototype := fun _ =>
    [("profileVersion", JStr []); ("algorithm", JStr []); ("messageId", JBytes []); ("audience", JStr []);
     ("expiresAt", JNull); ("keyId", JStr [])];
  mc_oneofs := []
|}.

Definition IdentityBinding_class : message_class := {|
  mc_name := "cordum.agent.v1.IdentityBinding";
  mc_init := [];
  mc_prototype := fun _ =>
    [("tenantId", JStr []); ("principalId", JStr []); ("actorId", JStr []); ("delegationId", JStr [])];
  mc_oneofs := []
|}.

Definition DispatchIdentity_class : message_class := {|
  mc_name := "cordum.agent.v1.DispatchIdentity";
  mc_init := [];
  mc_prototype := fun long =>
    [("dispatchId", JStr []); ("attempt", if long then JLong 0 else JNum (NInt 0));
     ("assignedWorkerId", JStr [])];
  mc_oneofs := []
|}.

Definition ResourceRef_class : message_class := {|
  mc_name := "cordum.agent.v1.ResourceRef";
  mc_init := [];
  mc_prototype := fun long =>
    [("resolverId", JStr []); ("uri", JStr []); ("sha256", JBytes []); ("mediaType", JStr []);
     ("sizeBytes", if long then JLong 0 else JNum (NInt 0)); ("expiresAt", JNull); ("purpose", JStr [])];
  mc_oneofs := []
|}.

Definition ContextHints_class : message_class := {|
  mc_name := "cordum.agent.v1.ContextHints";
  mc_init :=
    [("tags", JArr [])];
  mc_prototype := fun _ =>
    [("maxInputTokens", JNum (NInt 0)); ("allowSummarization", JBool false); ("allowRetrieval", JBool false);
     ("tags", JArr [])];
  mc_oneofs := []
|}.

Definition Budget_class : message_class := {|
  mc_name := "cordum.agent.v1.Budget";
  mc_init := [];
  mc_prototype := fun long =>
    [("maxInputTokens", if long then JLong 0 else JNum (NInt 0));
     ("maxOutputTokens", if long then JLong 0 else JNum (NInt 0));
     ("maxTotalTokens", if long then JLong 0 else JNum (NInt 0));
     ("deadlineMs", if long then JLong 0 else JNum (NInt 0))];
  mc_oneofs := []
|}.

Definition JobMetadata_class : message_class := {|
  mc_name := "cordum.agent.v1.JobMetadata";
  mc_init :=
    [("riskTags", JArr []); ("requires", JArr []); ("labels", JPlain [])];
  mc_prototype := fun _ =>
    [("tenantId", JStr []); ("actorId", JStr []); ("actorType", JNum (NInt 0)); ("idempotencyKey", JStr []);
     ("capability", JStr []); ("riskTags", JArr []); ("requires", JArr []); ("packId", JStr []);
     ("labels", JPlain [])];
  mc_oneofs := []
|}.

Definition Compensation_class : message_class := {|
  mc_name := "cordum.agent.v1.Compensation";
  mc_init :=
    [("env", JPlain []); ("labels", JPlain [])];
  mc_prototype := fun _ =>
    [("topic", JStr []); ("contextPtr", JStr []); ("priority", JNum (NInt 0)); ("adapterId", JStr []);
     ("env", JPlain []); ("memoryId", JStr []); ("contextHints", JNull); ("budget", JNull);
     ("tenantId", JStr []); ("principalId", JStr []); ("labels", JPlain []); ("meta", JNull);
     ("identity", JNull); ("dispatch", JNull); ("contextRef", JNull)];
  mc_oneofs := []
|}.

Definition JobRequest_class : message_class := {|
  mc_name := "cordum.agent.v1.JobRequest";
  mc_init :=
    [("env", JPlain []); ("labels", JPlain [])];
  mc_prototype := fun _ =>
    [("jobId", JStr []); ("topic", JStr []); ("priority", JNum (NInt 0)); ("contextPtr", JStr []);
     ("adapterId", JStr []); ("env", JPlain []); ("parentJobId", JStr []); ("workflowId", JStr []);
     ("stepIndex", JNum (NInt 0)); ("memoryId", JStr []); ("contextHints", JNull); ("budget", JNull);
     ("tenantId", JStr []); ("principalId", JStr []); ("labels", JPlain []); ("meta", JNull);
     ("compensation", JNull); ("identity", JNull); ("dispatch", JNull); ("contextRef", JNull)];
  mc_oneofs := []
|}.

Definition JobResult_class : message_class := {|
  mc_name := "cordum.agent.v1.JobResult";
  mc_init :=
    [("artifactPtrs", JArr []); ("artifactRefs", JArr [])];
  mc_prototype := fun long =>
    [("jobId", JStr []); ("status", JNum (NInt 0)); ("resultPtr", JStr []); ("workerId", JStr []);
     ("executionMs", if long then JLong 0 else JNum (NInt 0)); ("errorCode", JStr []);
     ("errorMessage", JStr []); ("artifactPtrs", JArr []); ("errorCodeEnum", JNum (NInt 0));
     ("dispatch", JNull); ("identity", JNull); ("resultRef", JNull); ("artifactRefs", JArr [])];
  mc_oneofs := []
|}.

Definition JobProgress_class : message_class := {|
  mc_name := "cordum.agent.v1.JobProgress";
  mc_init :=
    [("artifactPtrs", JArr []); ("artifactRefs", JArr [])];
  mc_prototype := fun _ =>
    [("jobId", JStr []); ("stepId", JStr []); ("percent", JNum (NInt 0)); ("message", JStr []);
     ("resultPtr", JStr []); ("artifactPtrs", JArr []); ("status", JNum (NInt 0)); ("dispatch", JNull);
     ("identity", JNull); ("resultRef", JNull); ("artifactRefs", JArr [])];
  mc_oneofs := []
|}.

Definition JobCancel_class : message_class := {|
  mc_name := "cordum.agent.v1.JobCancel";
  mc_init := [];
  mc_prototype := fun _ =>
    [("jobId", JStr []); ("reason", JStr []); ("requestedBy", JStr []); ("dispatch", JNull);
     ("identity", JNull)];
  mc_oneofs := []
|}.

Definition Heartbeat_class : message_class := {|
  mc_name := "cordum.agent.v1.Heartbeat";
  mc_init :=
    [("capabilities", JArr []); ("labels", JPlain [])];
  mc_prototype := fun _ =>
    [("workerId", JStr []); ("region", JStr []); ("type", JStr []); ("cpuLoad", JNum (NInt 0));
     ("gpuUtilization", JNum (NInt 0)); ("activeJobs", JNum (NInt 0)); ("capabilities", JArr []);
     ("pool", JStr []); ("maxParallelJobs", JNum (NInt 0)); ("labels", JPlain []);
     ("memoryLoad", JNum (NInt 0)); ("progressPct", JNum (NInt 0)); ("lastMemo", JStr []);
     ("authToken", JStr []); ("agentName", JStr [])];
  mc_oneofs := []
|}.

Definition SystemAlert_class : message_class := {|
  mc_name := "cordum.agent.v1.SystemAlert";
  mc_init :=
    [("details", JPlain [])];
  mc_prototype := fun _ =>
    [("level", JStr []); ("message", JStr []); ("component", JStr []); ("code", JStr []);
     ("severity", JNum (NInt 0)); ("errorCodeEnum", JNum (NInt 0)); ("sourceComponent", JStr []);
     ("details", JPlain []); ("traceId", JStr [])];
  mc_oneofs := []
|}.

Definition Handshake_class : message_class := {|
  mc_name := "cordum.agent.v1.Handshake";
  mc_init :=
    [("supportedVersions", JArr []); ("capabilities", JPlain []); ("readyTopics", JArr [])];
  mc_prototype := fun _ =>
    [("componentId", JStr []); ("role", JNum (NInt 0)); ("supportedVersions", JArr []);
     ("capabilities", JPlain []); ("sdkVersion", JStr []); ("readyTopics", JArr []); ("agentName", JStr [])];
  mc_oneofs := []
|}.

Definition WorkerHandshakeChallengeRequest_class : message_class := {|
  mc_name := "cordum.agent.v1.WorkerHandshakeChallengeRequest";
  mc_init := [];
  mc_prototype := fun _ =>
    [("requestId", JStr []); ("traceId", JStr []); ("workerId", JStr []); ("proofKeyId", JStr []);
     ("proofAlgorithm", JNum (NInt 0)); ("audience", JStr []); ("purpose", JNum (NInt 0));
     ("clientNonce", JBytes []); ("protocolVersion", JNum (NInt 0)); ("sdkVersion", JStr [])];
  mc_oneofs := []
|}.

Definition WorkerHandshakeChallenge_class : message_class := {|
  mc_name := "cordum.agent.v1.WorkerHandshakeChallenge";
  mc_init := [];
  mc_prototype := fun _ =>
    [("requestId", JStr []); ("challengeId", JStr []); ("traceId", JStr []); ("workerId", JStr []);
     ("agentId", JStr []); ("tenantId", JStr []); ("proofKeyId", JStr []); ("proofAlgorithm", JNum (NInt 0));
     ("serverKeyId", JStr []); ("audience", JStr []); ("purpose", JNum (NInt 0)); ("clientNonce", JBytes []);
     ("serverNonce", JBytes []); ("protocolVersion", JNum (NInt 0)); ("sdkVersion", JStr []);
     ("issuedAt", JNull); ("expiresAt", JNull)];
  mc_oneofs := []
|}.

Definition WorkerHandshakeAuthenticate_class : message_class := {|
  mc_name := "cordum.agent.v1.WorkerHandshakeAuthenticate";
  mc_init := [];
  mc_prototype := fun _ =>
    [("challenge", JNull); ("capabilityHandshake", JNull)];
  mc_oneofs := []
|}.

Definition WorkerHandshakeResult_class : message_class := {|
  mc_name := "cordum.agent.v1.WorkerHandshakeResult";
  mc_init := [];
  mc_prototype := fun _ =>
    [("challenge", JNull); ("accepted", JBool false); ("rejectionReason", JNum (NInt 0));
     ("tokenExpiresAt", JNull); ("issuedAt", JNull)];
  mc_oneofs := []
|}.

Definition RuleScope_class : message_class := {|
  mc_name := "cordum.agent.v1.RuleScope";
  mc_init := [];
  mc_prototype := fun _ =>
    [("kind", JNum (NInt 0)); ("value", JStr [])];
  mc_oneofs := []
|}.

Definition AuditMetadata_class : message_class := {|
  mc_name := "cordum.agent.v1.AuditMetadata";
  mc_init := [];
  mc_prototype := fun _ =>
    [("createdAt", JNull); ("createdBy", JStr []); ("updatedAt", JNull); ("updatedBy", JStr [])];
  mc_oneofs := []
|}.

Definition Rule_class : message_class := {|
  mc_name := "cordum.agent.v1.Rule";
  mc_init := [];
  mc_prototype := fun _ =>
    [("id", JStr []); ("name", JStr []); ("type", JNum (NInt 0)); ("scope", JNull); ("status", JNum (NInt 0));
     ("version", JStr []); ("audit", JNull); ("match", JNull); ("decide", JNull); ("description", JStr [])];
  mc_oneofs := []
|}.

Definition TraceStep_class : message_class := {|
  mc_name := "cordum.agent.v1.TraceStep";
  mc_init := [];
  mc_prototype := fun _ =>
    [("ruleId", JStr []); ("bundleId", JStr []); ("decisionType", JNum (NInt 0)); ("reason", JStr []);
     ("timestamp", JNull); ("constraints", JNull)];
  mc_oneofs := []
|}.

Definition Decision_class : message_class := {|
  mc_name := "cordum.agent.v1.Decision";
  mc_init :=
    [("trace", JArr [])];
  mc_prototype := fun _ =>
    [("source", JNum (NInt 0)); ("ruleId", JStr []); ("bundleId", JStr []); ("bundleVersion", JStr []);
     ("type", JNum (NInt 0)); ("trace", JArr []); ("inputRef", JStr []); ("outputRef", JStr []);
     ("auditHash", JStr []); ("timestamp", JNull)];
  mc_oneofs := []
|}.

Definition BundleMetadata_class : message_class := {|
  mc_name := "cordum.agent.v1.BundleMetadata";
  mc_init := [];
  mc_prototype := fun _ =>
    [("edgeMode", JNum (NInt 0))];
  mc_oneofs := []
|}.

Definition BundleVersion_class : message_class := {|
  mc_name := "cordum.agent.v1.BundleVersion";
  mc_init :=
    [("ruleSnapshot", JArr [])];
  mc_prototype := fun _ =>
    [("version", JStr []); ("ruleSnapshot", JArr []); ("deployedAt", JNull); ("auditHash", JStr [])];
  mc_oneofs := []
|}.

Definition Bundle_class : message_class := {|
  mc_name := "cordum.agent.v1.Bundle";
  mc_init :=
    [("ruleIds", JArr []); ("versions", JArr [])];
  mc_prototype := fun _ =>
    [("id", JStr []); ("name", JStr []); ("ruleIds", JArr []); ("scopeBinding", JNull); ("versions", JArr []);
     ("metadata", JNull)];
  mc_oneofs := []
|}.

Definition JobEvaluationContext_class : message_class := {|
  mc_name := "cordum.agent.v1.JobEvaluationContext";
  mc_init :=
    [("labels", JPlain []); ("riskTags", JArr [])];
  mc_prototype := fun long =>
    [("tenantId", JStr []); ("jobId", JStr []); ("workflowId", JStr []); ("topic", JStr []);
     ("principalId", JStr []); ("labels", JPlain []); ("memoryId", JStr []); ("capability", JStr []);
     ("riskTags", JArr []); ("inputContent", JBytes []); ("inputContentType", JStr []);
     ("inputSizeBytes", if long then JLong 0 else JNum (NInt 0))];
  mc_oneofs := []
|}.

Definition EdgeEvaluationContext_class : message_class := {|
  mc_name := "cordum.agent.v1.EdgeEvaluationContext";
  mc_init :=
    [("labels", JPlain []); ("riskTags", JArr [])];
  mc_prototype := fun _ =>
    [("tenantId", JStr []); ("principalId", JStr []); ("sessionId", JStr []); ("executionId", JStr []);
     ("agentProduct", JStr []); ("toolName", JStr []); ("toolInputRedacted", JNull); ("inputHash", JStr []);
     ("toolInputHash", JStr []); ("labels", JPlain []); ("riskTags", JArr [])];
  mc_oneofs := []
|}.

Definition PolicyEvaluateRequest_class : message_class := {|
  mc_name := "cordum.agent.v1.PolicyEvaluateRequest";
  mc_init := [];
  mc_prototype := fun _ =>
    [("rule", JNull); ("bundleId", JStr []); ("scope", JNull); ("jobContext", JNull); ("edgeContext", JNull)];
  mc_oneofs := []
|}.

Definition PolicyEvaluateResponse_class : message_class := {|
  mc_name := "cordum.agent.v1.PolicyEvaluateResponse";
  mc_init := [];
  mc_prototype := fun _ =>
    [("decision", JNull)];
  mc_oneofs := []
|}.

Definition PolicyCheckRequest_class : message_class := {|
  mc_name := "cordum.agent.v1.PolicyCheckRequest";
  mc_init :=
    [("labels", JPlain [])];
  mc_prototype := fun long =>
    [("jobId", JStr []); ("topic", JStr []); ("tenant", JStr []); ("priority", JNum (NInt 0));
     ("estimatedCost", JNum (NInt 0)); ("budget", JNull); ("principalId", JStr []); ("labels", JPlain []);
     ("memoryId", JStr []); ("effectiveConfig", JBytes []); ("meta", JNull); ("identity", JNull);
     ("inputRef", JNull); ("inputContent", JBytes []); ("inputContentType", JStr []);
     ("inputSizeBytes", if long then JLong 0 else JNum (NInt 0))];
  mc_oneofs := []
|}.

Definition BudgetConstraints_class : message_class := {|
  mc_name := "cordum.agent.v1.BudgetConstraints";
  mc_init := [];
  mc_prototype := fun long =>
    [("maxRuntimeMs", if long then JLong 0 else JNum (NInt 0)); ("maxRetries", JNum (NInt 0));
     ("maxArtifactBytes", if long then JLong 0 else JNum (NInt 0)); ("maxConcurrentJobs", JNum (NInt 0))];
  mc_oneofs := []
|}.

Definition SandboxProfile_class : message_class := {|
  mc_name := "cordum.agent.v1.SandboxProfile";
  mc_init :=
    [("networkAllowlist", JArr []); ("fsReadOnly", JArr []); ("fsReadWrite", JArr [])];
  mc_prototype := fun _ =>
    [("isolated", JBool false); ("networkAllowlist", JArr []); ("fsReadOnly", JArr []);
     ("fsReadWrite", JArr [])];
  mc_oneofs := []
|}.

Definition ToolchainConstraints_class : message_class := {|
  mc_name := "cordum.agent.v1.ToolchainConstraints";
  mc_init :=
    [("allowedTools", JArr []); ("allowedCommands", JArr [])];
  mc_prototype := fun _ =>
    [("allowedTools", JArr []); ("allowedCommands", JArr [])];
  mc_oneofs := []
|}.

Definition DiffConstraints_class : message_class := {|
  mc_name := "cordum.agent.v1.DiffConstraints";
  mc_init :=
    [("denyPathGlobs", JArr [])];
  mc_prototype := fun _ =>
    [("maxFiles", JNum (NInt 0)); ("maxLines", JNum (NInt 0)); ("denyPathGlobs", JArr [])];
  mc_oneofs := []
|}.

Definition PolicyConstraints_class : message_class := {|
  mc_name := "cordum.agent.v1.PolicyConstraints";
  mc_init := [];
  mc_prototype := fun _ =>
    [("budgets", JNull); ("sandbox", JNull); ("toolchain", JNull); ("diff", JNull);
     ("redactionLevel", JStr [])];
  mc_oneofs := []
|}.

Definition PolicyRemediation_class : message_class := {|
  mc_name := "cordum.agent.v1.PolicyRemediation";
  mc_init :=
    [("addLabels", JPlain []); ("removeLabels", JArr [])];
  mc_prototype := fun _ =>
    [("id", JStr []); ("title", JStr []); ("summary", JStr []); ("replacementTopic", JStr []);
     ("replacementCapability", JStr []); ("addLabels", JPlain []); ("removeLabels", JArr [])];
  mc_oneofs := []
|}.

Definition PolicyCheckResponse_class : message_class := {|
  mc_name := "cordum.agent.v1.PolicyCheckResponse";
  mc_init :=
    [("remediations", JArr [])];
  mc_prototype := fun _ =>
    [("decision", JNum (NInt 0)); ("reason", JStr []); ("redactedContextPtr", JStr []);
     ("policySnapshot", JStr []); ("ruleId", JStr []); ("constraints", JNull);
     ("approvalRequired", JBool false); ("approvalRef", JStr []); ("remediations", JArr []);
     ("redactedContextRef", JNull); ("identity", JNull)];
  mc_oneofs := []
|}.

Definition ListSnapshotsRequest_class : message_class := {|
  mc_name := "cordum.agent.v1.ListSnapshotsRequest";
  mc_init := [];
  mc_prototype := fun _ => [];
  mc_oneofs := []
|}.

Definition ListSnapshotsResponse_class : message_class := {|
  mc_name := "cordum.agent.v1.ListSnapshotsResponse";
  mc_init :=
    [("snapshots", JArr [])];
  mc_prototype := fun _ =>
    [("snapshots", JArr [])];
  mc_oneofs := []
|}.

Definition Timestamp_class : message_class := {|
  mc_name := "google.protobuf.Timestamp";
  mc_init := [];
  mc_prototype := fun long =>
    [("seconds", if long then JLong 0 else JNum (NInt 0)); ("nanos", JNum (NInt 0))];
  mc_oneofs := []
|}.

Definition Struct_class : message_class := {|
  mc_name := "google.protobuf.Struct";
  mc_init :=
    [("fields", JPlain [])];
  mc_prototype := fun _ =>
    [("fields", JPlain [])];
  mc_oneofs := []
|}.

Definition Value_class : message_class := {|
  mc_name := "google.protobuf.Value";
  mc_init := [];
  mc_prototype := fun _ =>
    [("nullValue", JNull); ("numberValue", JNull); ("stringValue", JNull); ("boolValue", JNull);
     ("structValue", JNull); ("listValue", JNull)];
  mc_oneofs :=
    [("kind",
      ["nullValue"; "numberValue"; "stringValue"; "boolValue"; "structValue"; "listValue"])]
|}.

Definition ListValue_class : message_class := {|
  mc_name := "google.protobuf.ListValue";
  mc_init :=
    [("values", JArr [])];
  mc_prototype := fun _ =>
    [("values", JArr [])];
  mc_oneofs := []
|}.

Definition class_of (c : cap_class) : message_class :=
  match c with
  | BusPacketT => BusPacket_class
  | SignatureMetadataT => SignatureMetadata_class
  | IdentityBindingT => IdentityBinding_class
  | DispatchIdentityT => DispatchIdentity_class
  | ResourceRefT => ResourceRef_class
  | ContextHintsT => ContextHints_class
  | BudgetT => Budget_class
  | JobMetadataT => JobMetadata_class
  | CompensationT => Compensation_class
  | JobRequestT => JobRequest_class
  | JobResultT => JobResult_class
  | JobProgressT => JobProgress_class
  | JobCancelT => JobCancel_class
  | HeartbeatT => Heartbeat_class
  | SystemAlertT => SystemAlert_class
  | HandshakeT => Handshake_class
  | WorkerHandshakeChallengeRequestT => WorkerHandshakeChallengeRequest_class
  | WorkerHandshakeChallengeT => WorkerHandshakeChallenge_class
  | WorkerHandshakeAuthenticateT => WorkerHandshakeAuthenticate_class
  | WorkerHandshakeResultT => WorkerHandshakeResult_class
  | RuleScopeT => RuleScope_class
  | AuditMetadataT => AuditMetadata_class
  | RuleT => Rule_class
  | TraceStepT => TraceStep_class
  | DecisionT => Decision_class
  | BundleMetadataT => BundleMetadata_class
  | BundleVersionT => BundleVersion_class
  | BundleT => Bundle_class
  | JobEvaluationContextT => JobEvaluationContext_class
  | EdgeEvaluationContextT => EdgeEvaluationContext_class
  | PolicyEvaluateRequestT => PolicyEvaluateRequest_class
  | PolicyEvaluateResponseT => PolicyEvaluateResponse_class
  | PolicyCheckRequestT => PolicyCheckRequest_class
  | BudgetConstraintsT => BudgetConstraints_class
  | SandboxProfileT => SandboxProfile_class
  | ToolchainConstraintsT => ToolchainConstraints_class
  | DiffConstraintsT => DiffConstraints_class
  | PolicyConstraintsT => PolicyConstraints_class
  | PolicyRemediationT => PolicyRemediation_class
  | PolicyCheckResponseT => PolicyCheckResponse_class
  | ListSnapshotsRequestT => ListSnapshotsRequest_class
  | ListSnapshotsResponseT => ListSnapshotsResponse_class
  | TimestampT => Timestamp_class
  | StructT => Struct_class
  | ValueT => Value_class
  | ListValueT => ListValue_class
  end.

Definition cap_name (c : cap_class) : string := mc_name (class_of c).
