(* ===== verification/CapPbCodec.v ===== *)
(** * [encode] and [decode] of cap_pb.js

    src/node/cap_pb.js: the statements of [encode] and the cases of [decode] of
    each class, in the forms of StaticCode.v. *)

From S2P Require Import Prelude JsString JsValue PbRuntime StaticCode CapPbClasses.
#[local] Open Scope string_scope.

Record message_codec : Type := {
  mc_encode : list (enc_stmt cap_class);
  mc_decode : list (Z * dec_case cap_class)
}.

Definition BusPacket_codec : message_codec := {|
  mc_encode :=
    [Put "traceId" 10 TString; Put "senderId" 18 TString; PutMessage "createdAt" 26 TimestampT;
     Put "protocolVersion" 32 TInt32; PutMessage "signatureMetadata" 42 SignatureMetadataT;
     PutMessage "identity" 50 IdentityBindingT; PutMessage "jobRequest" 82 JobRequestT;
     PutMessage "jobResult" 90 JobResultT; PutMessage "heartbeat" 98 HeartbeatT;
     PutMessage "alert" 106 SystemAlertT; Put "signature" 114 TBytes;
     PutMessage "jobProgress" 122 JobProgressT; PutMessage "jobCancel" 130 JobCancelT;
     PutMessage "handshake" 138 HandshakeT; Put "authToken" 146 TString;
     PutMessage "workerHandshakeChallengeRequest" 154 WorkerHandshakeChallengeRequestT;
     PutMessage "workerHandshakeChallenge" 162 WorkerHandshakeChallengeT;
     PutMessage "workerHandshakeAuthenticate" 170 WorkerHandshakeAuthenticateT;
     PutMessage "workerHandshakeResult" 178 WorkerHandshakeResultT];
  mc_decode :=
    [(1, Read "traceId" TString); (2, Read "senderId" TString); (3, ReadMessage "createdAt" TimestampT);
     (4, Read "protocolVersion" TInt32); (5, ReadMessage "signatureMetadata" SignatureMetadataT);
     (6, ReadMessage "identity" IdentityBindingT); (10, ReadMessage "jobRequest" JobRequestT);
     (11, ReadMessage "jobResult" JobResultT); (12, ReadMessage "heartbeat" HeartbeatT);
     (13, ReadMessage "alert" SystemAlertT); (15, ReadMessage "jobProgress" JobProgressT);
     (16, ReadMessage "jobCancel" JobCancelT); (17, ReadMessage "handshake" HandshakeT);
     (19, ReadMessage "workerHandshakeChallengeRequest" WorkerHandshakeChallengeRequestT);
     (20, ReadMessage "workerHandshakeChallenge" WorkerHandshakeChallengeT);
     (21, ReadMessage "workerHandshakeAuthenticate" WorkerHandshakeAuthenticateT);
     (22, ReadMessage "workerHandshakeResult" WorkerHandshakeResultT); (14, Read "signature" TBytes);
     (18, Read "authToken" TString)]
|}.

Definition SignatureMetadata_codec : message_codec := {|
  mc_encode :=
    [Put "profileVersion" 10 TString; Put "algorithm" 18 TString; Put "messageId" 26 TBytes;
     Put "audience" 34 TString; PutMessage "expiresAt" 42 TimestampT; Put "keyId" 50 TString];
  mc_decode :=
    [(1, Read "profileVersion" TString); (2, Read "algorithm" TString); (3, Read "messageId" TBytes);
     (4, Read "audience" TString); (5, ReadMessage "expiresAt" TimestampT); (6, Read "keyId" TString)]
|}.

Definition IdentityBinding_codec : message_codec := {|
  mc_encode :=
    [Put "tenantId" 10 TString; Put "principalId" 18 TString; Put "actorId" 26 TString;
     Put "delegationId" 34 TString];
  mc_decode :=
    [(1, Read "tenantId" TString); (2, Read "principalId" TString); (3, Read "actorId" TString);
     (4, Read "delegationId" TString)]
|}.

Definition DispatchIdentity_codec : message_codec := {|
  mc_encode :=
    [Put "dispatchId" 10 TString; Put "attempt" 16 TUint64; Put "assignedWorkerId" 26 TString];
  mc_decode :=
    [(1, Read "dispatchId" TString); (2, Read "attempt" TUint64); (3, Read "assignedWorkerId" TString)]
|}.

Definition ResourceRef_codec : message_codec := {|
  mc_encode :=
    [Put "resolverId" 10 TString; Put "uri" 18 TString; Put "sha256" 26 TBytes; Put "mediaType" 34 TString;
     Put "sizeBytes" 40 TUint64; PutMessage "expiresAt" 50 TimestampT; Put "purpose" 58 TString];
  mc_decode :=
    [(1, Read "resolverId" TString); (2, Read "uri" TString); (3, Read "sha256" TBytes);
     (4, Read "mediaType" TString); (5, Read "sizeBytes" TUint64); (6, ReadMessage "expiresAt" TimestampT);
     (7, Read "purpose" TString)]
|}.

Definition ContextHints_codec : message_codec := {|
  mc_encode :=
    [Put "maxInputTokens" 8 TInt32; Put "allowSummarization" 16 TBool; Put "allowRetrieval" 24 TBool;
     PutEach "tags" 34 TString];
  mc_decode :=
    [(1, Read "maxInputTokens" TInt32); (2, Read "allowSummarization" TBool); (3, Read "allowRetrieval" TBool);
     (4, Push "tags" TString)]
|}.

Definition Budget_codec : message_codec := {|
  mc_encode :=
    [Put "maxInputTokens" 8 TInt64; Put "maxOutputTokens" 16 TInt64; Put "maxTotalTokens" 24 TInt64;
     Put "deadlineMs" 32 TInt64];
  mc_decode :=
    [(1, Read "maxInputTokens" TInt64); (2, Read "maxOutputTokens" TInt64); (3, Read "maxTotalTokens" TInt64);
     (4, Read "deadlineMs" TInt64)]
|}.

Definition JobMetadata_codec : message_codec := {|
  mc_encode :=
    [Put "tenantId" 10 TString; Put "actorId" 18 TString; Put "actorType" 24 TInt32;
     Put "idempotencyKey" 34 TString; Put "capability" 42 TString; PutEach "riskTags" 50 TString;
     PutEach "requires" 58 TString; Put "packId" 66 TString; PutMap "labels" 74 10 18 TString];
  mc_decode :=
    [(1, Read "tenantId" TString); (2, Read "actorId" TString); (3, Read "actorType" TInt32);
     (4, Read "idempotencyKey" TString); (5, Read "capability" TString); (6, Push "riskTags" TString);
     (7, Push "requires" TString); (8, Read "packId" TString); (9, ReadEntry "labels" (JStr []) TString)]
|}.

Definition Compensation_codec : message_codec := {|
  mc_encode :=
    [Put "topic" 10 TString; Put "contextPtr" 18 TString; Put "priority" 24 TInt32; Put "adapterId" 34 TString;
     PutMap "env" 42 10 18 TString; Put "memoryId" 50 TString; PutMessage "contextHints" 58 ContextHintsT;
     PutMessage "budget" 66 BudgetT; Put "tenantId" 74 TString; Put "principalId" 82 TString;
     PutMap "labels" 90 10 18 TString; PutMessage "meta" 98 JobMetadataT;
     PutMessage "identity" 106 IdentityBindingT; PutMessage "dispatch" 114 DispatchIdentityT;
     PutMessage "contextRef" 122 ResourceRefT];
  mc_decode :=
    [(1, Read "topic" TString); (2, Read "contextPtr" TString); (3, Read "priority" TInt32);
     (4, Read "adapterId" TString); (5, ReadEntry "env" (JStr []) TString); (6, Read "memoryId" TString);
     (7, ReadMessage "contextHints" ContextHintsT); (8, ReadMessage "budget" BudgetT);
     (9, Read "tenantId" TString); (10, Read "principalId" TString);
     (11, ReadEntry "labels" (JStr []) TString); (12, ReadMessage "meta" JobMetadataT);
     (13, ReadMessage "identity" IdentityBindingT); (14, ReadMessage "dispatch" DispatchIdentityT);
     (15, ReadMessage "contextRef" ResourceRefT)]
|}.

Definition JobRequest_codec : message_codec := {|
  mc_encode :=
    [Put "jobId" 10 TString; Put "topic" 18 TString; Put "priority" 24 TInt32; Put "contextPtr" 34 TString;
     Put "adapterId" 42 TString; PutMap "env" 50 10 18 TString; Put "parentJobId" 58 TString;
     Put "workflowId" 66 TString; Put "stepIndex" 72 TInt32; Put "memoryId" 82 TString;
     PutMessage "contextHints" 90 ContextHintsT; PutMessage "budget" 98 BudgetT; Put "tenantId" 106 TString;
     Put "principalId" 114 TString; PutMap "labels" 122 10 18 TString; PutMessage "meta" 130 JobMetadataT;
     PutMessage "compensation" 138 CompensationT; PutMessage "identity" 146 IdentityBindingT;
     PutMessage "dispatch" 154 DispatchIdentityT; PutMessage "contextRef" 162 ResourceRefT];
  mc_decode :=
    [(1, Read "jobId" TString); (2, Read "topic" TString); (3, Read "priority" TInt32);
     (4, Read "contextPtr" TString); (5, Read "adapterId" TString); (6, ReadEntry "env" (JStr []) TString);
     (7, Read "parentJobId" TString); (8, Read "workflowId" TString); (9, Read "stepIndex" TInt32);
     (10, Read "memoryId" TString); (11, ReadMessage "contextHints" ContextHintsT);
     (12, ReadMessage "budget" BudgetT); (13, Read "tenantId" TString); (14, Read "principalId" TString);
     (15, ReadEntry "labels" (JStr []) TString); (16, ReadMessage "meta" JobMetadataT);
     (17, ReadMessage "compensation" CompensationT); (18, ReadMessage "identity" IdentityBindingT);
     (19, ReadMessage "dispatch" DispatchIdentityT); (20, ReadMessage "contextRef" ResourceRefT)]
|}.

Definition JobResult_codec : message_codec := {|
  mc_encode :=
    [Put "jobId" 10 TString; Put "status" 16 TInt32; Put "resultPtr" 26 TString; Put "workerId" 34 TString;
     Put "executionMs" 40 TInt64; Put "errorCode" 50 TString; Put "errorMessage" 58 TString;
     PutEach "artifactPtrs" 66 TString; Put "errorCodeEnum" 72 TInt32;
     PutMessage "dispatch" 82 DispatchIdentityT; PutMessage "identity" 90 IdentityBindingT;
     PutMessage "resultRef" 98 ResourceRefT; PutEachMessage "artifactRefs" 106 ResourceRefT];
  mc_decode :=
    [(1, Read "jobId" TString); (2, Read "status" TInt32); (3, Read "resultPtr" TString);
     (4, Read "workerId" TString); (5, Read "executionMs" TInt64); (6, Read "errorCode" TString);
     (7, Read "errorMessage" TString); (8, Push "artifactPtrs" TString); (9, Read "errorCodeEnum" TInt32);
     (10, ReadMessage "dispatch" DispatchIdentityT); (11, ReadMessage "identity" IdentityBindingT);
     (12, ReadMessage "resultRef" ResourceRefT); (13, PushMessage "artifactRefs" ResourceRefT)]
|}.

Definition JobProgress_codec : message_codec := {|
  mc_encode :=
    [Put "jobId" 10 TString; Put "stepId" 18 TString; Put "percent" 24 TInt32; Put "message" 34 TString;
     Put "resultPtr" 42 TString; PutEach "artifactPtrs" 50 TString; Put "status" 56 TInt32;
     PutMessage "dispatch" 66 DispatchIdentityT; PutMessage "identity" 74 IdentityBindingT;
     PutMessage "resultRef" 82 ResourceRefT; PutEachMessage "artifactRefs" 90 ResourceRefT];
  mc_decode :=
    [(1, Read "jobId" TString); (2, Read "stepId" TString); (3, Read "percent" TInt32);
     (4, Read "message" TString); (5, Read "resultPtr" TString); (6, Push "artifactPtrs" TString);
     (7, Read "status" TInt32); (8, ReadMessage "dispatch" DispatchIdentityT);
     (9, ReadMessage "identity" IdentityBindingT); (10, ReadMessage "resultRef" ResourceRefT);
     (11, PushMessage "artifactRefs" ResourceRefT)]
|}.

Definition JobCancel_codec : message_codec := {|
  mc_encode :=
    [Put "jobId" 10 TString; Put "reason" 18 TString; Put "requestedBy" 26 TString;
     PutMessage "dispatch" 34 DispatchIdentityT; PutMessage "identity" 42 IdentityBindingT];
  mc_decode :=
    [(1, Read "jobId" TString); (2, Read "reason" TString); (3, Read "requestedBy" TString);
     (4, ReadMessage "dispatch" DispatchIdentityT); (5, ReadMessage "identity" IdentityBindingT)]
|}.

Definition Heartbeat_codec : message_codec := {|
  mc_encode :=
    [Put "workerId" 10 TString; Put "region" 18 TString; Put "type" 26 TString; Put "cpuLoad" 37 TFloat;
     Put "gpuUtilization" 45 TFloat; Put "activeJobs" 48 TInt32; PutEach "capabilities" 58 TString;
     Put "pool" 90 TString; Put "maxParallelJobs" 96 TInt32; PutMap "labels" 106 10 18 TString;
     Put "memoryLoad" 117 TFloat; Put "progressPct" 120 TInt32; Put "lastMemo" 130 TString;
     Put "authToken" 146 TString; Put "agentName" 154 TString];
  mc_decode :=
    [(1, Read "workerId" TString); (2, Read "region" TString); (3, Read "type" TString);
     (4, Read "cpuLoad" TFloat); (5, Read "gpuUtilization" TFloat); (6, Read "activeJobs" TInt32);
     (7, Push "capabilities" TString); (11, Read "pool" TString); (12, Read "maxParallelJobs" TInt32);
     (13, ReadEntry "labels" (JStr []) TString); (14, Read "memoryLoad" TFloat);
     (15, Read "progressPct" TInt32); (16, Read "lastMemo" TString); (18, Read "authToken" TString);
     (19, Read "agentName" TString)]
|}.

Definition SystemAlert_codec : message_codec := {|
  mc_encode :=
    [Put "level" 10 TString; Put "message" 18 TString; Put "component" 26 TString; Put "code" 34 TString;
     Put "severity" 40 TInt32; Put "errorCodeEnum" 48 TInt32; Put "sourceComponent" 58 TString;
     PutMap "details" 66 10 18 TString; Put "traceId" 74 TString];
  mc_decode :=
    [(1, Read "level" TString); (2, Read "message" TString); (3, Read "component" TString);
     (4, Read "code" TString); (5, Read "severity" TInt32); (6, Read "errorCodeEnum" TInt32);
     (7, Read "sourceComponent" TString); (8, ReadEntry "details" (JStr []) TString);
     (9, Read "traceId" TString)]
|}.

Definition Handshake_codec : message_codec := {|
  mc_encode :=
    [Put "componentId" 10 TString; Put "role" 16 TInt32; PutPacked "supportedVersions" 26 TInt32;
     PutMap "capabilities" 34 10 16 TBool; Put "sdkVersion" 42 TString; PutEach "readyTopics" 50 TString;
     Put "agentName" 58 TString];
  mc_decode :=
    [(1, Read "componentId" TString); (2, Read "role" TInt32); (3, PushPacked "supportedVersions" TInt32);
     (4, ReadEntry "capabilities" (JBool false) TBool); (5, Read "sdkVersion" TString);
     (6, Push "readyTopics" TString); (7, Read "agentName" TString)]
|}.

Definition WorkerHandshakeChallengeRequest_codec : message_codec := {|
  mc_encode :=
    [Put "requestId" 10 TString; Put "traceId" 18 TString; Put "workerId" 26 TString;
     Put "proofKeyId" 34 TString; Put "proofAlgorithm" 40 TInt32; Put "audience" 50 TString;
     Put "purpose" 56 TInt32; Put "clientNonce" 66 TBytes; Put "protocolVersion" 72 TInt32;
     Put "sdkVersion" 82 TString];
  mc_decode :=
    [(1, Read "requestId" TString); (2, Read "traceId" TString); (3, Read "workerId" TString);
     (4, Read "proofKeyId" TString); (5, Read "proofAlgorithm" TInt32); (6, Read "audience" TString);
     (7, Read "purpose" TInt32); (8, Read "clientNonce" TBytes); (9, Read "protocolVersion" TInt32);
     (10, Read "sdkVersion" TString)]
|}.

Definition WorkerHandshakeChallenge_codec : message_codec := {|
  mc_encode :=
    [Put "requestId" 10 TString; Put "challengeId" 18 TString; Put "traceId" 26 TString;
     Put "workerId" 34 TString; Put "agentId" 42 TString; Put "tenantId" 50 TString;
     Put "proofKeyId" 58 TString; Put "proofAlgorithm" 64 TInt32; Put "serverKeyId" 74 TString;
     Put "audience" 82 TString; Put "purpose" 88 TInt32; Put "clientNonce" 98 TBytes;
     Put "serverNonce" 106 TBytes; Put "protocolVersion" 112 TInt32; Put "sdkVersion" 122 TString;
     PutMessage "issuedAt" 130 TimestampT; PutMessage "expiresAt" 138 TimestampT];
  mc_decode :=
    [(1, Read "requestId" TString); (2, Read "challengeId" TString); (3, Read "traceId" TString);
     (4, Read "workerId" TString); (5, Read "agentId" TString); (6, Read "tenantId" TString);
     (7, Read "proofKeyId" TString); (8, Read "proofAlgorithm" TInt32); (9, Read "serverKeyId" TString);
     (10, Read "audience" TString); (11, Read "purpose" TInt32); (12, Read "clientNonce" TBytes);
     (13, Read "serverNonce" TBytes); (14, Read "protocolVersion" TInt32); (15, Read "sdkVersion" TString);
     (16, ReadMessage "issuedAt" TimestampT); (17, ReadMessage "expiresAt" TimestampT)]
|}.

Definition WorkerHandshakeAuthenticate_codec : message_codec := {|
  mc_encode :=
    [PutMessage "challenge" 10 WorkerHandshakeChallengeT; PutMessage "capabilityHandshake" 18 HandshakeT];
  mc_decode :=
    [(1, ReadMessage "challenge" WorkerHandshakeChallengeT); (2, ReadMessage "capabilityHandshake" HandshakeT)]
|}.

Definition WorkerHandshakeResult_codec : message_codec := {|
  mc_encode :=
    [PutMessage "challenge" 10 WorkerHandshakeChallengeT; Put "accepted" 16 TBool;
     Put "rejectionReason" 24 TInt32; PutMessage "tokenExpiresAt" 34 TimestampT;
     PutMessage "issuedAt" 42 TimestampT];
  mc_decode :=
    [(1, ReadMessage "challenge" WorkerHandshakeChallengeT); (2, Read "accepted" TBool);
     (3, Read "rejectionReason" TInt32); (4, ReadMessage "tokenExpiresAt" TimestampT);
     (5, ReadMessage "issuedAt" TimestampT)]
|}.

Definition RuleScope_codec : message_codec := {|
  mc_encode :=
    [Put "kind" 8 TInt32; Put "value" 18 TString];
  mc_decode :=
    [(1, Read "kind" TInt32); (2, Read "value" TString)]
|}.

Definition AuditMetadata_codec : message_codec := {|
  mc_encode :=
    [PutMessage "createdAt" 10 TimestampT; Put "createdBy" 18 TString; PutMessage "updatedAt" 26 TimestampT;
     Put "updatedBy" 34 TString];
  mc_decode :=
    [(1, ReadMessage "createdAt" TimestampT); (2, Read "createdBy" TString);
     (3, ReadMessage "updatedAt" TimestampT); (4, Read "updatedBy" TString)]
|}.

Definition Rule_codec : message_codec := {|
  mc_encode :=
    [Put "id" 10 TString; Put "name" 18 TString; Put "type" 24 TInt32; PutMessage "scope" 34 RuleScopeT;
     Put "status" 40 TInt32; Put "version" 50 TString; PutMessage "audit" 58 AuditMetadataT;
     PutMessage "match" 66 StructT; PutMessage "decide" 74 StructT; Put "description" 82 TString];
  mc_decode :=
    [(1, Read "id" TString); (2, Read "name" TString); (3, Read "type" TInt32);
     (4, ReadMessage "scope" RuleScopeT); (5, Read "status" TInt32); (6, Read "version" TString);
     (7, ReadMessage "audit" AuditMetadataT); (8, ReadMessage "match" StructT);
     (9, ReadMessage "decide" StructT); (10, Read "description" TString)]
|}.

Definition TraceStep_codec : message_codec := {|
  mc_encode :=
    [Put "ruleId" 10 TString; Put "bundleId" 18 TString; Put "decisionType" 24 TInt32; Put "reason" 34 TString;
     PutMessage "timestamp" 42 TimestampT; PutMessage "constraints" 50 StructT];
  mc_decode :=
    [(1, Read "ruleId" TString); (2, Read "bundleId" TString); (3, Read "decisionType" TInt32);
     (4, Read "reason" TString); (5, ReadMessage "timestamp" TimestampT);
     (6, ReadMessage "constraints" StructT)]
|}.

Definition Decision_codec : message_codec := {|
  mc_encode :=
    [Put "source" 8 TInt32; Put "ruleId" 18 TString; Put "bundleId" 26 TString; Put "bundleVersion" 34 TString;
     Put "type" 40 TInt32; PutEachMessage "trace" 50 TraceStepT; Put "inputRef" 58 TString;
     Put "outputRef" 66 TString; Put "auditHash" 74 TString; PutMessage "timestamp" 82 TimestampT];
  mc_decode :=
    [(1, Read "source" TInt32); (2, Read "ruleId" TString); (3, Read "bundleId" TString);
     (4, Read "bundleVersion" TString); (5, Read "type" TInt32); (6, PushMessage "trace" TraceStepT);
     (7, Read "inputRef" TString); (8, Read "outputRef" TString); (9, Read "auditHash" TString);
     (10, ReadMessage "timestamp" TimestampT)]
|}.

Definition BundleMetadata_codec : message_codec := {|
  mc_encode :=
    [Put "edgeMode" 8 TInt32];
  mc_decode :=
    [(1, Read "edgeMode" TInt32)]
|}.

Definition BundleVersion_codec : message_codec := {|
  mc_encode :=
    [Put "version" 10 TString; PutEachMessage "ruleSnapshot" 18 RuleT; PutMessage "deployedAt" 26 TimestampT;
     Put "auditHash" 34 TString];
  mc_decode :=
    [(1, Read "version" TString); (2, PushMessage "ruleSnapshot" RuleT);
     (3, ReadMessage "deployedAt" TimestampT); (4, Read "auditHash" TString)]
|}.

Definition Bundle_codec : message_codec := {|
  mc_encode :=
    [Put "id" 10 TString; Put "name" 18 TString; PutEach "ruleIds" 26 TString;
     PutMessage "scopeBinding" 34 RuleScopeT; PutEachMessage "versions" 42 BundleVersionT;
     PutMessage "metadata" 50 BundleMetadataT];
  mc_decode :=
    [(1, Read "id" TString); (2, Read "name" TString); (3, Push "ruleIds" TString);
     (4, ReadMessage "scopeBinding" RuleScopeT); (5, PushMessage "versions" BundleVersionT);
     (6, ReadMessage "metadata" BundleMetadataT)]
|}.

Definition JobEvaluationContext_codec : message_codec := {|
  mc_encode :=
    [Put "tenantId" 10 TString; Put "jobId" 18 TString; Put "workflowId" 26 TString; Put "topic" 34 TString;
     Put "principalId" 42 TString; PutMap "labels" 50 10 18 TString; Put "memoryId" 58 TString;
     Put "capability" 66 TString; PutEach "riskTags" 74 TString; Put "inputContent" 162 TBytes;
     Put "inputContentType" 170 TString; Put "inputSizeBytes" 176 TInt64];
  mc_decode :=
    [(1, Read "tenantId" TString); (2, Read "jobId" TString); (3, Read "workflowId" TString);
     (4, Read "topic" TString); (5, Read "principalId" TString); (6, ReadEntry "labels" (JStr []) TString);
     (7, Read "memoryId" TString); (8, Read "capability" TString); (9, Push "riskTags" TString);
     (20, Read "inputContent" TBytes); (21, Read "inputContentType" TString);
     (22, Read "inputSizeBytes" TInt64)]
|}.

Definition EdgeEvaluationContext_codec : message_codec := {|
  mc_encode :=
    [Put "tenantId" 10 TString; Put "principalId" 18 TString; Put "sessionId" 26 TString;
     Put "executionId" 34 TString; Put "agentProduct" 42 TString; Put "toolName" 50 TString;
     PutMessage "toolInputRedacted" 58 StructT; Put "inputHash" 66 TString; Put "toolInputHash" 74 TString;
     PutMap "labels" 82 10 18 TString; PutEach "riskTags" 90 TString];
  mc_decode :=
    [(1, Read "tenantId" TString); (2, Read "principalId" TString); (3, Read "sessionId" TString);
     (4, Read "executionId" TString); (5, Read "agentProduct" TString); (6, Read "toolName" TString);
     (7, ReadMessage "toolInputRedacted" StructT); (8, Read "inputHash" TString);
     (9, Read "toolInputHash" TString); (10, ReadEntry "labels" (JStr []) TString);
     (11, Push "riskTags" TString)]
|}.

Definition PolicyEvaluateRequest_codec : message_codec := {|
  mc_encode :=
    [PutMessage "rule" 10 RuleT; Put "bundleId" 18 TString; PutMessage "scope" 26 RuleScopeT;
     PutMessage "jobContext" 82 JobEvaluationContextT; PutMessage "edgeContext" 90 EdgeEvaluationContextT];
  mc_decode :=
    [(1, ReadMessage "rule" RuleT); (2, Read "bundleId" TString); (3, ReadMessage "scope" RuleScopeT);
     (10, ReadMessage "jobContext" JobEvaluationContextT);
     (11, ReadMessage "edgeContext" EdgeEvaluationContextT)]
|}.

Definition PolicyEvaluateResponse_codec : message_codec := {|
  mc_encode :=
    [PutMessage "decision" 10 DecisionT];
  mc_decode :=
    [(1, ReadMessage "decision" DecisionT)]
|}.

Definition PolicyCheckRequest_codec : message_codec := {|
  mc_encode :=
    [Put "jobId" 10 TString; Put "topic" 18 TString; Put "tenant" 26 TString; Put "priority" 32 TInt32;
     Put "estimatedCost" 41 TDouble; PutMessage "budget" 50 BudgetT; Put "principalId" 58 TString;
     PutMap "labels" 66 10 18 TString; Put "memoryId" 74 TString; Put "effectiveConfig" 82 TBytes;
     PutMessage "meta" 90 JobMetadataT; PutMessage "identity" 98 IdentityBindingT;
     PutMessage "inputRef" 106 ResourceRefT; Put "inputContent" 162 TBytes; Put "inputContentType" 170 TString;
     Put "inputSizeBytes" 176 TInt64];
  mc_decode :=
    [(1, Read "jobId" TString); (2, Read "topic" TString); (3, Read "tenant" TString);
     (4, Read "priority" TInt32); (5, Read "estimatedCost" TDouble); (6, ReadMessage "budget" BudgetT);
     (7, Read "principalId" TString); (8, ReadEntry "labels" (JStr []) TString); (9, Read "memoryId" TString);
     (10, Read "effectiveConfig" TBytes); (11, ReadMessage "meta" JobMetadataT);
     (12, ReadMessage "identity" IdentityBindingT); (13, ReadMessage "inputRef" ResourceRefT);
     (20, Read "inputContent" TBytes); (21, Read "inputContentType" TString);
     (22, Read "inputSizeBytes" TInt64)]
|}.

Definition BudgetConstraints_codec : message_codec := {|
  mc_encode :=
    [Put "maxRuntimeMs" 8 TInt64; Put "maxRetries" 16 TInt32; Put "maxArtifactBytes" 24 TInt64;
     Put "maxConcurrentJobs" 32 TInt32];
  mc_decode :=
    [(1, Read "maxRuntimeMs" TInt64); (2, Read "maxRetries" TInt32); (3, Read "maxArtifactBytes" TInt64);
     (4, Read "maxConcurrentJobs" TInt32)]
|}.

Definition SandboxProfile_codec : message_codec := {|
  mc_encode :=
    [Put "isolated" 8 TBool; PutEach "networkAllowlist" 18 TString; PutEach "fsReadOnly" 26 TString;
     PutEach "fsReadWrite" 34 TString];
  mc_decode :=
    [(1, Read "isolated" TBool); (2, Push "networkAllowlist" TString); (3, Push "fsReadOnly" TString);
     (4, Push "fsReadWrite" TString)]
|}.

Definition ToolchainConstraints_codec : message_codec := {|
  mc_encode :=
    [PutEach "allowedTools" 10 TString; PutEach "allowedCommands" 18 TString];
  mc_decode :=
    [(1, Push "allowedTools" TString); (2, Push "allowedCommands" TString)]
|}.

Definition DiffConstraints_codec : message_codec := {|
  mc_encode :=
    [Put "maxFiles" 8 TInt32; Put "maxLines" 16 TInt32; PutEach "denyPathGlobs" 26 TString];
  mc_decode :=
    [(1, Read "maxFiles" TInt32); (2, Read "maxLines" TInt32); (3, Push "denyPathGlobs" TString)]
|}.

Definition PolicyConstraints_codec : message_codec := {|
  mc_encode :=
    [PutMessage "budgets" 10 BudgetConstraintsT; PutMessage "sandbox" 18 SandboxProfileT;
     PutMessage "toolchain" 26 ToolchainConstraintsT; PutMessage "diff" 34 DiffConstraintsT;
     Put "redactionLevel" 42 TString];
  mc_decode :=
    [(1, ReadMessage "budgets" BudgetConstraintsT); (2, ReadMessage "sandbox" SandboxProfileT);
     (3, ReadMessage "toolchain" ToolchainConstraintsT); (4, ReadMessage "diff" DiffConstraintsT);
     (5, Read "redactionLevel" TString)]
|}.

Definition PolicyRemediation_codec : message_codec := {|
  mc_encode :=
    [Put "id" 10 TString; Put "title" 18 TString; Put "summary" 26 TString; Put "replacementTopic" 34 TString;
     Put "replacementCapability" 42 TString; PutMap "addLabels" 50 10 18 TString;
     PutEach "removeLabels" 58 TString];
  mc_decode :=
    [(1, Read "id" TString); (2, Read "title" TString); (3, Read "summary" TString);
     (4, Read "replacementTopic" TString); (5, Read "replacementCapability" TString);
     (6, ReadEntry "addLabels" (JStr []) TString); (7, Push "removeLabels" TString)]
|}.

Definition PolicyCheckResponse_codec : message_codec := {|
  mc_encode :=
    [Put "decision" 8 TInt32; Put "reason" 18 TString; Put "redactedContextPtr" 26 TString;
     Put "policySnapshot" 34 TString; Put "ruleId" 42 TString; PutMessage "constraints" 50 PolicyConstraintsT;
     Put "approvalRequired" 56 TBool; Put "approvalRef" 66 TString;
     PutEachMessage "remediations" 74 PolicyRemediationT; PutMessage "redactedContextRef" 82 ResourceRefT;
     PutMessage "identity" 90 IdentityBindingT];
  mc_decode :=
    [(1, Read "decision" TInt32); (2, Read "reason" TString); (3, Read "redactedContextPtr" TString);
     (4, Read "policySnapshot" TString); (5, Read "ruleId" TString);
     (6, ReadMessage "constraints" PolicyConstraintsT); (7, Read "approvalRequired" TBool);
     (8, Read "approvalRef" TString); (9, PushMessage "remediations" PolicyRemediationT);
     (10, ReadMessage "redactedContextRef" ResourceRefT); (11, ReadMessage "identity" IdentityBindingT)]
|}.

Definition ListSnapshotsRequest_codec : message_codec := {|
  mc_encode := [];
  mc_decode := []
|}.

Definition ListSnapshotsResponse_codec : message_codec := {|
  mc_encode :=
    [PutEach "snapshots" 10 TString];
  mc_decode :=
    [(1, Push "snapshots" TString)]
|}.

Definition Timestamp_codec : message_codec := {|
  mc_encode :=
    [Put "seconds" 8 TInt64; Put "nanos" 16 TInt32];
  mc_decode :=
    [(1, Read "seconds" TInt64); (2, Read "nanos" TInt32)]
|}.

Definition Struct_codec : message_codec := {|
  mc_encode :=
    [PutMapMessage "fields" 10 10 18 ValueT];
  mc_decode :=
    [(1, ReadEntryMessage "fields" JNull ValueT)]
|}.

Definition Value_codec : message_codec := {|
  mc_encode :=
    [Put "nullValue" 8 TInt32; Put "numberValue" 17 TDouble; Put "stringValue" 26 TString;
     Put "boolValue" 32 TBool; PutMessage "structValue" 42 StructT; PutMessage "listValue" 50 ListValueT];
  mc_decode :=
    [(1, Read "nullValue" TInt32); (2, Read "numberValue" TDouble); (3, Read "stringValue" TString);
     (4, Read "boolValue" TBool); (5, ReadMessage "structValue" StructT);
     (6, ReadMessage "listValue" ListValueT)]
|}.

Definition ListValue_codec : message_codec := {|
  mc_encode :=
    [PutEachMessage "values" 10 ValueT];
  mc_decode :=
    [(1, PushMessage "values" ValueT)]
|}.

(** ** The module *)

Definition codec_of (c : cap_class) : message_codec :=
  match c with
  | BusPacketT => BusPacket_codec
  | SignatureMetadataT => SignatureMetadata_codec
  | IdentityBindingT => IdentityBinding_codec
  | DispatchIdentityT => DispatchIdentity_codec
  | ResourceRefT => ResourceRef_codec
  | ContextHintsT => ContextHints_codec
  | BudgetT => Budget_codec
  | JobMetadataT => JobMetadata_codec
  | CompensationT => Compensation_codec
  | JobRequestT => JobRequest_codec
  | JobResultT => JobResult_codec
  | JobProgressT => JobProgress_codec
  | JobCancelT => JobCancel_codec
  | HeartbeatT => Heartbeat_codec
  | SystemAlertT => SystemAlert_codec
  | HandshakeT => Handshake_codec
  | WorkerHandshakeChallengeRequestT => WorkerHandshakeChallengeRequest_codec
  | WorkerHandshakeChallengeT => WorkerHandshakeChallenge_codec
  | WorkerHandshakeAuthenticateT => WorkerHandshakeAuthenticate_codec
  | WorkerHandshakeResultT => WorkerHandshakeResult_codec
  | RuleScopeT => RuleScope_codec
  | AuditMetadataT => AuditMetadata_codec
  | RuleT => Rule_codec
  | TraceStepT => TraceStep_codec
  | DecisionT => Decision_codec
  | BundleMetadataT => BundleMetadata_codec
  | BundleVersionT => BundleVersion_codec
  | BundleT => Bundle_codec
  | JobEvaluationContextT => JobEvaluationContext_codec
  | EdgeEvaluationContextT => EdgeEvaluationContext_codec
  | PolicyEvaluateRequestT => PolicyEvaluateRequest_codec
  | PolicyEvaluateResponseT => PolicyEvaluateResponse_codec
  | PolicyCheckRequestT => PolicyCheckRequest_codec
  | BudgetConstraintsT => BudgetConstraints_codec
  | SandboxProfileT => SandboxProfile_codec
  | ToolchainConstraintsT => ToolchainConstraints_codec
  | DiffConstraintsT => DiffConstraints_codec
  | PolicyConstraintsT => PolicyConstraints_codec
  | PolicyRemediationT => PolicyRemediation_codec
  | PolicyCheckResponseT => PolicyCheckResponse_codec
  | ListSnapshotsRequestT => ListSnapshotsRequest_codec
  | ListSnapshotsResponseT => ListSnapshotsResponse_codec
  | TimestampT => Timestamp_codec
  | StructT => Struct_codec
  | ValueT => Value_codec
  | ListValueT => ListValue_codec
  end.

Definition cap_pb : static_module cap_class := {|
  sm_name := cap_name;
  sm_init c := mc_init (class_of c);
  sm_prototype c := mc_prototype (class_of c);
  sm_oneofs c := mc_oneofs (class_of c);
  sm_encode c := mc_encode (codec_of c);
  sm_decode c := mc_decode (codec_of c)
|}.
