(* ===== verification/CapPbObjects.v ===== *)
(** * [verify], [fromObject] and [toObject] of cap_pb.js

    src/node/cap_pb.js: the statements of the three functions of each class, in
    the forms of StaticObjects.v. *)

From S2P Require Import Prelude JsString JsValue PbRuntime StaticCode StaticObjects CapPbClasses.
#[local] Open Scope string_scope.

Record message_objects : Type := {
  mo_verify : list (verify_stmt cap_class);
  mo_fromObject : list (convert_stmt cap_class);
  mo_toObject : to_object cap_class
}.

Definition BusPacket_objects : message_objects := {|
  mo_verify :=
    [Check "traceId" IsString; Check "senderId" IsString; Check "createdAt" (IsMessage TimestampT);
     Check "protocolVersion" IsInteger; Check "signatureMetadata" (IsMessage SignatureMetadataT);
     Check "identity" (IsMessage IdentityBindingT);
     CheckMember "payload" false "jobRequest" (IsMessage JobRequestT);
     CheckMember "payload" true "jobResult" (IsMessage JobResultT);
     CheckMember "payload" true "heartbeat" (IsMessage HeartbeatT);
     CheckMember "payload" true "alert" (IsMessage SystemAlertT);
     CheckMember "payload" true "jobProgress" (IsMessage JobProgressT);
     CheckMember "payload" true "jobCancel" (IsMessage JobCancelT);
     CheckMember "payload" true "handshake" (IsMessage HandshakeT);
     CheckMember "payload" true "workerHandshakeChallengeRequest" (IsMessage WorkerHandshakeChallengeRequestT);
     CheckMember "payload" true "workerHandshakeChallenge" (IsMessage WorkerHandshakeChallengeT);
     CheckMember "payload" true "workerHandshakeAuthenticate" (IsMessage WorkerHandshakeAuthenticateT);
     CheckMember "payload" true "workerHandshakeResult" (IsMessage WorkerHandshakeResultT);
     Check "signature" IsBuffer; Check "authToken" IsString];
  mo_fromObject :=
    [Convert "traceId" ToText; Convert "senderId" ToText; Convert "createdAt" (ToMessage TimestampT);
     Convert "protocolVersion" ToInt32; Convert "signatureMetadata" (ToMessage SignatureMetadataT);
     Convert "identity" (ToMessage IdentityBindingT); Convert "jobRequest" (ToMessage JobRequestT);
     Convert "jobResult" (ToMessage JobResultT); Convert "heartbeat" (ToMessage HeartbeatT);
     Convert "alert" (ToMessage SystemAlertT); Convert "jobProgress" (ToMessage JobProgressT);
     Convert "jobCancel" (ToMessage JobCancelT); Convert "handshake" (ToMessage HandshakeT);
     Convert "workerHandshakeChallengeRequest" (ToMessage WorkerHandshakeChallengeRequestT);
     Convert "workerHandshakeChallenge" (ToMessage WorkerHandshakeChallengeT);
     Convert "workerHandshakeAuthenticate" (ToMessage WorkerHandshakeAuthenticateT);
     Convert "workerHandshakeResult" (ToMessage WorkerHandshakeResultT); Convert "signature" ToBytes;
     Convert "authToken" ToText];
  mo_toObject := {|
    to_arrays := [];
    to_objects := [];
    to_defaults :=
      [("traceId", DefaultValue (JStr [])); ("senderId", DefaultValue (JStr []));
       ("createdAt", DefaultValue JNull); ("protocolVersion", DefaultValue (JNum (NInt 0)));
       ("signatureMetadata", DefaultValue JNull); ("identity", DefaultValue JNull);
       ("signature", DefaultBytes); ("authToken", DefaultValue (JStr []))];
    to_shows :=
      [Show "traceId" AsIs; Show "senderId" AsIs; Show "createdAt" (AsObject TimestampT);
       Show "protocolVersion" AsIs; Show "signatureMetadata" (AsObject SignatureMetadataT);
       Show "identity" (AsObject IdentityBindingT); ShowMember "payload" "jobRequest" (AsObject JobRequestT);
       ShowMember "payload" "jobResult" (AsObject JobResultT);
       ShowMember "payload" "heartbeat" (AsObject HeartbeatT);
       ShowMember "payload" "alert" (AsObject SystemAlertT); Show "signature" AsBytes;
       ShowMember "payload" "jobProgress" (AsObject JobProgressT);
       ShowMember "payload" "jobCancel" (AsObject JobCancelT);
       ShowMember "payload" "handshake" (AsObject HandshakeT); Show "authToken" AsIs;
       ShowMember "payload" "workerHandshakeChallengeRequest" (AsObject WorkerHandshakeChallengeRequestT);
       ShowMember "payload" "workerHandshakeChallenge" (AsObject WorkerHandshakeChallengeT);
       ShowMember "payload" "workerHandshakeAuthenticate" (AsObject WorkerHandshakeAuthenticateT);
       ShowMember "payload" "workerHandshakeResult" (AsObject WorkerHandshakeResultT)]
  |}
|}.

Definition SignatureMetadata_objects : message_objects := {|
  mo_verify :=
    [Check "profileVersion" IsString; Check "algorithm" IsString; Check "messageId" IsBuffer;
     Check "audience" IsString; Check "expiresAt" (IsMessage TimestampT); Check "keyId" IsString];
  mo_fromObject :=
    [Convert "profileVersion" ToText; Convert "algorithm" ToText; Convert "messageId" ToBytes;
     Convert "audience" ToText; Convert "expiresAt" (ToMessage TimestampT); Convert "keyId" ToText];
  mo_toObject := {|
    to_arrays := [];
    to_objects := [];
    to_defaults :=
      [("profileVersion", DefaultValue (JStr [])); ("algorithm", DefaultValue (JStr []));
       ("messageId", DefaultBytes); ("audience", DefaultValue (JStr [])); ("expiresAt", DefaultValue JNull);
       ("keyId", DefaultValue (JStr []))];
    to_shows :=
      [Show "profileVersion" AsIs; Show "algorithm" AsIs; Show "messageId" AsBytes; Show "audience" AsIs;
       Show "expiresAt" (AsObject TimestampT); Show "keyId" AsIs]
  |}
|}.

Definition IdentityBinding_objects : message_objects := {|
  mo_verify :=
    [Check "tenantId" IsString; Check "principalId" IsString; Check "actorId" IsString;
     Check "delegationId" IsString];
  mo_fromObject :=
    [Convert "tenantId" ToText; Convert "principalId" ToText; Convert "actorId" ToText;
     Convert "delegationId" ToText];
  mo_toObject := {|
    to_arrays := [];
    to_objects := [];
    to_defaults :=
      [("tenantId", DefaultValue (JStr [])); ("principalId", DefaultValue (JStr []));
       ("actorId", DefaultValue (JStr [])); ("delegationId", DefaultValue (JStr []))];
    to_shows :=
      [Show "tenantId" AsIs; Show "principalId" AsIs; Show "actorId" AsIs; Show "delegationId" AsIs]
  |}
|}.

Definition DispatchIdentity_objects : message_objects := {|
  mo_verify :=
    [Check "dispatchId" IsString; Check "attempt" IsLong; Check "assignedWorkerId" IsString];
  mo_fromObject :=
    [Convert "dispatchId" ToText; Convert "attempt" (ToLong true); Convert "assignedWorkerId" ToText];
  mo_toObject := {|
    to_arrays := [];
    to_objects := [];
    to_defaults :=
      [("dispatchId", DefaultValue (JStr [])); ("attempt", DefaultLong);
       ("assignedWorkerId", DefaultValue (JStr []))];
    to_shows :=
      [Show "dispatchId" AsIs; Show "attempt" (AsLong true); Show "assignedWorkerId" AsIs]
  |}
|}.

Definition ResourceRef_objects : message_objects := {|
  mo_verify :=
    [Check "resolverId" IsString; Check "uri" IsString; Check "sha256" IsBuffer; Check "mediaType" IsString;
     Check "sizeBytes" IsLong; Check "expiresAt" (IsMessage TimestampT); Check "purpose" IsString];
  mo_fromObject :=
    [Convert "resolverId" ToText; Convert "uri" ToText; Convert "sha256" ToBytes; Convert "mediaType" ToText;
     Convert "sizeBytes" (ToLong true); Convert "expiresAt" (ToMessage TimestampT); Convert "purpose" ToText];
  mo_toObject := {|
    to_arrays := [];
    to_objects := [];
    to_defaults :=
      [("resolverId", DefaultValue (JStr [])); ("uri", DefaultValue (JStr [])); ("sha256", DefaultBytes);
       ("mediaType", DefaultValue (JStr [])); ("sizeBytes", DefaultLong); ("expiresAt", DefaultValue JNull);
       ("purpose", DefaultValue (JStr []))];
    to_shows :=
      [Show "resolverId" AsIs; Show "uri" AsIs; Show "sha256" AsBytes; Show "mediaType" AsIs;
       Show "sizeBytes" (AsLong true); Show "expiresAt" (AsObject TimestampT); Show "purpose" AsIs]
  |}
|}.

Definition ContextHints_objects : message_objects := {|
  mo_verify :=
    [Check "maxInputTokens" IsInteger; Check "allowSummarization" IsBoolean; Check "allowRetrieval" IsBoolean;
     CheckEach "tags" IsString];
  mo_fromObject :=
    [Convert "maxInputTokens" ToInt32; Convert "allowSummarization" ToBoolean;
     Convert "allowRetrieval" ToBoolean; ConvertEach "tags" ToText];
  mo_toObject := {|
    to_arrays := ["tags"];
    to_objects := [];
    to_defaults :=
      [("maxInputTokens", DefaultValue (JNum (NInt 0))); ("allowSummarization", DefaultValue (JBool false));
       ("allowRetrieval", DefaultValue (JBool false))];
    to_shows :=
      [Show "maxInputTokens" AsIs; Show "allowSummarization" AsIs; Show "allowRetrieval" AsIs;
       ShowEach "tags" AsIs]
  |}
|}.

Definition Budget_objects : message_objects := {|
  mo_verify :=
    [Check "maxInputTokens" IsLong; Check "maxOutputTokens" IsLong; Check "maxTotalTokens" IsLong;
     Check "deadlineMs" IsLong];
  mo_fromObject :=
    [Convert "maxInputTokens" (ToLong false); Convert "maxOutputTokens" (ToLong false);
     Convert "maxTotalTokens" (ToLong false); Convert "deadlineMs" (ToLong false)];
  mo_toObject := {|
    to_arrays := [];
    to_objects := [];
    to_defaults :=
      [("maxInputTokens", DefaultLong); ("maxOutputTokens", DefaultLong); ("maxTotalTokens", DefaultLong);
       ("deadlineMs", DefaultLong)];
    to_shows :=
      [Show "maxInputTokens" (AsLong false); Show "maxOutputTokens" (AsLong false);
       Show "maxTotalTokens" (AsLong false); Show "deadlineMs" (AsLong false)]
  |}
|}.

Definition JobMetadata_objects : message_objects := {|
  mo_verify :=
    [Check "tenantId" IsString; Check "actorId" IsString; Check "actorType" (IsEnum [0; 1; 2]);
     Check "idempotencyKey" IsString; Check "capability" IsString; CheckEach "riskTags" IsString;
     CheckEach "requires" IsString; Check "packId" IsString; CheckEntries "labels" IsString];
  mo_fromObject :=
    [Convert "tenantId" ToText; Convert "actorId" ToText;
     Convert "actorType" (ToEnum [("ACTOR_TYPE_UNSPECIFIED", 0); ("ACTOR_TYPE_HUMAN", 1); ("ACTOR_TYPE_SERVICE", 2)]);
     Convert "idempotencyKey" ToText; Convert "capability" ToText; ConvertEach "riskTags" ToText;
     ConvertEach "requires" ToText; Convert "packId" ToText; ConvertEntries "labels" ToText];
  mo_toObject := {|
    to_arrays := ["riskTags"; "requires"];
    to_objects := ["labels"];
    to_defaults :=
      [("tenantId", DefaultValue (JStr [])); ("actorId", DefaultValue (JStr []));
       ("actorType", DefaultEnum "ACTOR_TYPE_UNSPECIFIED" 0); ("idempotencyKey", DefaultValue (JStr []));
       ("capability", DefaultValue (JStr [])); ("packId", DefaultValue (JStr []))];
    to_shows :=
      [Show "tenantId" AsIs; Show "actorId" AsIs; Show "actorType" (AsEnum ActorType);
       Show "idempotencyKey" AsIs; Show "capability" AsIs; ShowEach "riskTags" AsIs; ShowEach "requires" AsIs;
       Show "packId" AsIs; ShowEntries "labels" AsIs]
  |}
|}.

Definition Compensation_objects : message_objects := {|
  mo_verify :=
    [Check "topic" IsString; Check "contextPtr" IsString; Check "priority" (IsEnum [0; 1; 2; 3]);
     Check "adapterId" IsString; CheckEntries "env" IsString; Check "memoryId" IsString;
     Check "contextHints" (IsMessage ContextHintsT); Check "budget" (IsMessage BudgetT);
     Check "tenantId" IsString; Check "principalId" IsString; CheckEntries "labels" IsString;
     Check "meta" (IsMessage JobMetadataT); Check "identity" (IsMessage IdentityBindingT);
     Check "dispatch" (IsMessage DispatchIdentityT); Check "contextRef" (IsMessage ResourceRefT)];
  mo_fromObject :=
    [Convert "topic" ToText; Convert "contextPtr" ToText;
     Convert "priority" (ToEnum [("JOB_PRIORITY_UNSPECIFIED", 0); ("JOB_PRIORITY_INTERACTIVE", 1); ("JOB_PRIORITY_BATCH", 2); ("JOB_PRIORITY_CRITICAL", 3)]);
     Convert "adapterId" ToText; ConvertEntries "env" ToText; Convert "memoryId" ToText;
     Convert "contextHints" (ToMessage ContextHintsT); Convert "budget" (ToMessage BudgetT);
     Convert "tenantId" ToText; Convert "principalId" ToText; ConvertEntries "labels" ToText;
     Convert "meta" (ToMessage JobMetadataT); Convert "identity" (ToMessage IdentityBindingT);
     Convert "dispatch" (ToMessage DispatchIdentityT); Convert "contextRef" (ToMessage ResourceRefT)];
  mo_toObject := {|
    to_arrays := [];
    to_objects := ["env"; "labels"];
    to_defaults :=
      [("topic", DefaultValue (JStr [])); ("contextPtr", DefaultValue (JStr []));
       ("priority", DefaultEnum "JOB_PRIORITY_UNSPECIFIED" 0); ("adapterId", DefaultValue (JStr []));
       ("memoryId", DefaultValue (JStr [])); ("contextHints", DefaultValue JNull);
       ("budget", DefaultValue JNull); ("tenantId", DefaultValue (JStr []));
       ("principalId", DefaultValue (JStr [])); ("meta", DefaultValue JNull); ("identity", DefaultValue JNull);
       ("dispatch", DefaultValue JNull); ("contextRef", DefaultValue JNull)];
    to_shows :=
      [Show "topic" AsIs; Show "contextPtr" AsIs; Show "priority" (AsEnum JobPriority); Show "adapterId" AsIs;
       ShowEntries "env" AsIs; Show "memoryId" AsIs; Show "contextHints" (AsObject ContextHintsT);
       Show "budget" (AsObject BudgetT); Show "tenantId" AsIs; Show "principalId" AsIs;
       ShowEntries "labels" AsIs; Show "meta" (AsObject JobMetadataT);
       Show "identity" (AsObject IdentityBindingT); Show "dispatch" (AsObject DispatchIdentityT);
       Show "contextRef" (AsObject ResourceRefT)]
  |}
|}.

Definition JobRequest_objects : message_objects := {|
  mo_verify :=
    [Check "jobId" IsString; Check "topic" IsString; Check "priority" (IsEnum [0; 1; 2; 3]);
     Check "contextPtr" IsString; Check "adapterId" IsString; CheckEntries "env" IsString;
     Check "parentJobId" IsString; Check "workflowId" IsString; Check "stepIndex" IsInteger;
     Check "memoryId" IsString; Check "contextHints" (IsMessage ContextHintsT);
     Check "budget" (IsMessage BudgetT); Check "tenantId" IsString; Check "principalId" IsString;
     CheckEntries "labels" IsString; Check "meta" (IsMessage JobMetadataT);
     Check "compensation" (IsMessage CompensationT); Check "identity" (IsMessage IdentityBindingT);
     Check "dispatch" (IsMessage DispatchIdentityT); Check "contextRef" (IsMessage ResourceRefT)];
  mo_fromObject :=
    [Convert "jobId" ToText; Convert "topic" ToText;
     Convert "priority" (ToEnum [("JOB_PRIORITY_UNSPECIFIED", 0); ("JOB_PRIORITY_INTERACTIVE", 1); ("JOB_PRIORITY_BATCH", 2); ("JOB_PRIORITY_CRITICAL", 3)]);
     Convert "contextPtr" ToText; Convert "adapterId" ToText; ConvertEntries "env" ToText;
     Convert "parentJobId" ToText; Convert "workflowId" ToText; Convert "stepIndex" ToInt32;
     Convert "memoryId" ToText; Convert "contextHints" (ToMessage ContextHintsT);
     Convert "budget" (ToMessage BudgetT); Convert "tenantId" ToText; Convert "principalId" ToText;
     ConvertEntries "labels" ToText; Convert "meta" (ToMessage JobMetadataT);
     Convert "compensation" (ToMessage CompensationT); Convert "identity" (ToMessage IdentityBindingT);
     Convert "dispatch" (ToMessage DispatchIdentityT); Convert "contextRef" (ToMessage ResourceRefT)];
  mo_toObject := {|
    to_arrays := [];
    to_objects := ["env"; "labels"];
    to_defaults :=
      [("jobId", DefaultValue (JStr [])); ("topic", DefaultValue (JStr []));
       ("priority", DefaultEnum "JOB_PRIORITY_UNSPECIFIED" 0); ("contextPtr", DefaultValue (JStr []));
       ("adapterId", DefaultValue (JStr [])); ("parentJobId", DefaultValue (JStr []));
       ("workflowId", DefaultValue (JStr [])); ("stepIndex", DefaultValue (JNum (NInt 0)));
       ("memoryId", DefaultValue (JStr [])); ("contextHints", DefaultValue JNull);
       ("budget", DefaultValue JNull); ("tenantId", DefaultValue (JStr []));
       ("principalId", DefaultValue (JStr [])); ("meta", DefaultValue JNull);
       ("compensation", DefaultValue JNull); ("identity", DefaultValue JNull);
       ("dispatch", DefaultValue JNull); ("contextRef", DefaultValue JNull)];
    to_shows :=
      [Show "jobId" AsIs; Show "topic" AsIs; Show "priority" (AsEnum JobPriority); Show "contextPtr" AsIs;
       Show "adapterId" AsIs; ShowEntries "env" AsIs; Show "parentJobId" AsIs; Show "workflowId" AsIs;
       Show "stepIndex" AsIs; Show "memoryId" AsIs; Show "contextHints" (AsObject ContextHintsT);
       Show "budget" (AsObject BudgetT); Show "tenantId" AsIs; Show "principalId" AsIs;
       ShowEntries "labels" AsIs; Show "meta" (AsObject JobMetadataT);
       Show "compensation" (AsObject CompensationT); Show "identity" (AsObject IdentityBindingT);
       Show "dispatch" (AsObject DispatchIdentityT); Show "contextRef" (AsObject ResourceRefT)]
  |}
|}.

Definition JobResult_objects : message_objects := {|
  mo_verify :=
    [Check "jobId" IsString; Check "status" (IsEnum [0; 1; 2; 3; 4; 5; 6; 7; 8; 9; 10; 11]);
     Check "resultPtr" IsString; Check "workerId" IsString; Check "executionMs" IsLong;
     Check "errorCode" IsString; Check "errorMessage" IsString; CheckEach "artifactPtrs" IsString;
     Check "errorCodeEnum" (IsEnum [0; 100; 101; 102; 103; 104; 200; 201; 202; 203; 204; 205; 206; 300; 301; 302; 400; 401; 402]);
     Check "dispatch" (IsMessage DispatchIdentityT); Check "identity" (IsMessage IdentityBindingT);
     Check "resultRef" (IsMessage ResourceRefT); CheckEach "artifactRefs" (IsMessage ResourceRefT)];
  mo_fromObject :=
    [Convert "jobId" ToText;
     Convert "status" (ToEnum [("JOB_STATUS_UNSPECIFIED", 0); ("JOB_STATUS_PENDING", 1); ("JOB_STATUS_SCHEDULED", 2); ("JOB_STATUS_DISPATCHED", 3); ("JOB_STATUS_RUNNING", 4); ("JOB_STATUS_SUCCEEDED", 5); ("JOB_STATUS_FAILED", 6); ("JOB_STATUS_CANCELLED", 7); ("JOB_STATUS_DENIED", 8); ("JOB_STATUS_TIMEOUT", 9); ("JOB_STATUS_FAILED_RETRYABLE", 10); ("JOB_STATUS_FAILED_FATAL", 11)]);
     Convert "resultPtr" ToText; Convert "workerId" ToText; Convert "executionMs" (ToLong false);
     Convert "errorCode" ToText; Convert "errorMessage" ToText; ConvertEach "artifactPtrs" ToText;
     Convert "errorCodeEnum" (ToEnum [("ERROR_CODE_UNSPECIFIED", 0); ("ERROR_CODE_PROTOCOL_VERSION_MISMATCH", 100); ("ERROR_CODE_PROTOCOL_MALFORMED_PACKET", 101); ("ERROR_CODE_PROTOCOL_UNKNOWN_PAYLOAD", 102); ("ERROR_CODE_PROTOCOL_SIGNATURE_INVALID", 103); ("ERROR_CODE_PROTOCOL_SIGNATURE_MISSING", 104); ("ERROR_CODE_JOB_TIMEOUT", 200); ("ERROR_CODE_JOB_RESOURCE_EXHAUSTED", 201); ("ERROR_CODE_JOB_PERMISSION_DENIED", 202); ("ERROR_CODE_JOB_INVALID_INPUT", 203); ("ERROR_CODE_JOB_NOT_FOUND", 204); ("ERROR_CODE_JOB_DUPLICATE", 205); ("ERROR_CODE_JOB_WORKER_UNAVAILABLE", 206); ("ERROR_CODE_SAFETY_DENIED", 300); ("ERROR_CODE_SAFETY_POLICY_VIOLATION", 301); ("ERROR_CODE_SAFETY_RISK_TAG_BLOCKED", 302); ("ERROR_CODE_TRANSPORT_PUBLISH_FAILED", 400); ("ERROR_CODE_TRANSPORT_SUBSCRIBE_FAILED", 401); ("ERROR_CODE_TRANSPORT_CONNECTION_LOST", 402)]);
     Convert "dispatch" (ToMessage DispatchIdentityT); Convert "identity" (ToMessage IdentityBindingT);
     Convert "resultRef" (ToMessage ResourceRefT); ConvertEach "artifactRefs" (ToMessage ResourceRefT)];
  mo_toObject := {|
    to_arrays := ["artifactPtrs"; "artifactRefs"];
    to_objects := [];
    to_defaults :=
      [("jobId", DefaultValue (JStr [])); ("status", DefaultEnum "JOB_STATUS_UNSPECIFIED" 0);
       ("resultPtr", DefaultValue (JStr [])); ("workerId", DefaultValue (JStr []));
       ("executionMs", DefaultLong); ("errorCode", DefaultValue (JStr []));
       ("errorMessage", DefaultValue (JStr [])); ("errorCodeEnum", DefaultEnum "ERROR_CODE_UNSPECIFIED" 0);
       ("dispatch", DefaultValue JNull); ("identity", DefaultValue JNull); ("resultRef", DefaultValue JNull)];
    to_shows :=
      [Show "jobId" AsIs; Show "status" (AsEnum JobStatus); Show "resultPtr" AsIs; Show "workerId" AsIs;
       Show "executionMs" (AsLong false); Show "errorCode" AsIs; Show "errorMessage" AsIs;
       ShowEach "artifactPtrs" AsIs; Show "errorCodeEnum" (AsEnum ErrorCode);
       Show "dispatch" (AsObject DispatchIdentityT); Show "identity" (AsObject IdentityBindingT);
       Show "resultRef" (AsObject ResourceRefT); ShowEach "artifactRefs" (AsObject ResourceRefT)]
  |}
|}.

Definition JobProgress_objects : message_objects := {|
  mo_verify :=
    [Check "jobId" IsString; Check "stepId" IsString; Check "percent" IsInteger; Check "message" IsString;
     Check "resultPtr" IsString; CheckEach "artifactPtrs" IsString;
     Check "status" (IsEnum [0; 1; 2; 3; 4; 5; 6; 7; 8; 9; 10; 11]);
     Check "dispatch" (IsMessage DispatchIdentityT); Check "identity" (IsMessage IdentityBindingT);
     Check "resultRef" (IsMessage ResourceRefT); CheckEach "artifactRefs" (IsMessage ResourceRefT)];
  mo_fromObject :=
    [Convert "jobId" ToText; Convert "stepId" ToText; Convert "percent" ToInt32; Convert "message" ToText;
     Convert "resultPtr" ToText; ConvertEach "artifactPtrs" ToText;
     Convert "status" (ToEnum [("JOB_STATUS_UNSPECIFIED", 0); ("JOB_STATUS_PENDING", 1); ("JOB_STATUS_SCHEDULED", 2); ("JOB_STATUS_DISPATCHED", 3); ("JOB_STATUS_RUNNING", 4); ("JOB_STATUS_SUCCEEDED", 5); ("JOB_STATUS_FAILED", 6); ("JOB_STATUS_CANCELLED", 7); ("JOB_STATUS_DENIED", 8); ("JOB_STATUS_TIMEOUT", 9); ("JOB_STATUS_FAILED_RETRYABLE", 10); ("JOB_STATUS_FAILED_FATAL", 11)]);
     Convert "dispatch" (ToMessage DispatchIdentityT); Convert "identity" (ToMessage IdentityBindingT);
     Convert "resultRef" (ToMessage ResourceRefT); ConvertEach "artifactRefs" (ToMessage ResourceRefT)];
  mo_toObject := {|
    to_arrays := ["artifactPtrs"; "artifactRefs"];
    to_objects := [];
    to_defaults :=
      [("jobId", DefaultValue (JStr [])); ("stepId", DefaultValue (JStr []));
       ("percent", DefaultValue (JNum (NInt 0))); ("message", DefaultValue (JStr []));
       ("resultPtr", DefaultValue (JStr [])); ("status", DefaultEnum "JOB_STATUS_UNSPECIFIED" 0);
       ("dispatch", DefaultValue JNull); ("identity", DefaultValue JNull); ("resultRef", DefaultValue JNull)];
    to_shows :=
      [Show "jobId" AsIs; Show "stepId" AsIs; Show "percent" AsIs; Show "message" AsIs; Show "resultPtr" AsIs;
       ShowEach "artifactPtrs" AsIs; Show "status" (AsEnum JobStatus);
       Show "dispatch" (AsObject DispatchIdentityT); Show "identity" (AsObject IdentityBindingT);
       Show "resultRef" (AsObject ResourceRefT); ShowEach "artifactRefs" (AsObject ResourceRefT)]
  |}
|}.

Definition JobCancel_objects : message_objects := {|
  mo_verify :=
    [Check "jobId" IsString; Check "reason" IsString; Check "requestedBy" IsString;
     Check "dispatch" (IsMessage DispatchIdentityT); Check "identity" (IsMessage IdentityBindingT)];
  mo_fromObject :=
    [Convert "jobId" ToText; Convert "reason" ToText; Convert "requestedBy" ToText;
     Convert "dispatch" (ToMessage DispatchIdentityT); Convert "identity" (ToMessage IdentityBindingT)];
  mo_toObject := {|
    to_arrays := [];
    to_objects := [];
    to_defaults :=
      [("jobId", DefaultValue (JStr [])); ("reason", DefaultValue (JStr []));
       ("requestedBy", DefaultValue (JStr [])); ("dispatch", DefaultValue JNull);
       ("identity", DefaultValue JNull)];
    to_shows :=
      [Show "jobId" AsIs; Show "reason" AsIs; Show "requestedBy" AsIs;
       Show "dispatch" (AsObject DispatchIdentityT); Show "identity" (AsObject IdentityBindingT)]
  |}
|}.

Definition Heartbeat_objects : message_objects := {|
  mo_verify :=
    [Check "workerId" IsString; Check "region" IsString; Check "type" IsString; Check "cpuLoad" IsNumber;
     Check "gpuUtilization" IsNumber; Check "activeJobs" IsInteger; CheckEach "capabilities" IsString;
     Check "pool" IsString; Check "maxParallelJobs" IsInteger; CheckEntries "labels" IsString;
     Check "memoryLoad" IsNumber; Check "progressPct" IsInteger; Check "lastMemo" IsString;
     Check "authToken" IsString; Check "agentName" IsString];
  mo_fromObject :=
    [Convert "workerId" ToText; Convert "region" ToText; Convert "type" ToText; Convert "cpuLoad" ToNumber;
     Convert "gpuUtilization" ToNumber; Convert "activeJobs" ToInt32; ConvertEach "capabilities" ToText;
     Convert "pool" ToText; Convert "maxParallelJobs" ToInt32; ConvertEntries "labels" ToText;
     Convert "memoryLoad" ToNumber; Convert "progressPct" ToInt32; Convert "lastMemo" ToText;
     Convert "authToken" ToText; Convert "agentName" ToText];
  mo_toObject := {|
    to_arrays := ["capabilities"];
    to_objects := ["labels"];
    to_defaults :=
      [("workerId", DefaultValue (JStr [])); ("region", DefaultValue (JStr []));
       ("type", DefaultValue (JStr [])); ("cpuLoad", DefaultValue (JNum (NInt 0)));
       ("gpuUtilization", DefaultValue (JNum (NInt 0))); ("activeJobs", DefaultValue (JNum (NInt 0)));
       ("pool", DefaultValue (JStr [])); ("maxParallelJobs", DefaultValue (JNum (NInt 0)));
       ("memoryLoad", DefaultValue (JNum (NInt 0))); ("progressPct", DefaultValue (JNum (NInt 0)));
       ("lastMemo", DefaultValue (JStr [])); ("authToken", DefaultValue (JStr []));
       ("agentName", DefaultValue (JStr []))];
    to_shows :=
      [Show "workerId" AsIs; Show "region" AsIs; Show "type" AsIs; Show "cpuLoad" AsNumber;
       Show "gpuUtilization" AsNumber; Show "activeJobs" AsIs; ShowEach "capabilities" AsIs; Show "pool" AsIs;
       Show "maxParallelJobs" AsIs; ShowEntries "labels" AsIs; Show "memoryLoad" AsNumber;
       Show "progressPct" AsIs; Show "lastMemo" AsIs; Show "authToken" AsIs; Show "agentName" AsIs]
  |}
|}.

Definition SystemAlert_objects : message_objects := {|
  mo_verify :=
    [Check "level" IsString; Check "message" IsString; Check "component" IsString; Check "code" IsString;
     Check "severity" (IsEnum [0; 1; 2; 3; 4]);
     Check "errorCodeEnum" (IsEnum [0; 100; 101; 102; 103; 104; 200; 201; 202; 203; 204; 205; 206; 300; 301; 302; 400; 401; 402]);
     Check "sourceComponent" IsString; CheckEntries "details" IsString; Check "traceId" IsString];
  mo_fromObject :=
    [Convert "level" ToText; Convert "message" ToText; Convert "component" ToText; Convert "code" ToText;
     Convert "severity" (ToEnum [("ALERT_SEVERITY_UNSPECIFIED", 0); ("ALERT_SEVERITY_INFO", 1); ("ALERT_SEVERITY_WARNING", 2); ("ALERT_SEVERITY_ERROR", 3); ("ALERT_SEVERITY_CRITICAL", 4)]);
     Convert "errorCodeEnum" (ToEnum [("ERROR_CODE_UNSPECIFIED", 0); ("ERROR_CODE_PROTOCOL_VERSION_MISMATCH", 100); ("ERROR_CODE_PROTOCOL_MALFORMED_PACKET", 101); ("ERROR_CODE_PROTOCOL_UNKNOWN_PAYLOAD", 102); ("ERROR_CODE_PROTOCOL_SIGNATURE_INVALID", 103); ("ERROR_CODE_PROTOCOL_SIGNATURE_MISSING", 104); ("ERROR_CODE_JOB_TIMEOUT", 200); ("ERROR_CODE_JOB_RESOURCE_EXHAUSTED", 201); ("ERROR_CODE_JOB_PERMISSION_DENIED", 202); ("ERROR_CODE_JOB_INVALID_INPUT", 203); ("ERROR_CODE_JOB_NOT_FOUND", 204); ("ERROR_CODE_JOB_DUPLICATE", 205); ("ERROR_CODE_JOB_WORKER_UNAVAILABLE", 206); ("ERROR_CODE_SAFETY_DENIED", 300); ("ERROR_CODE_SAFETY_POLICY_VIOLATION", 301); ("ERROR_CODE_SAFETY_RISK_TAG_BLOCKED", 302); ("ERROR_CODE_TRANSPORT_PUBLISH_FAILED", 400); ("ERROR_CODE_TRANSPORT_SUBSCRIBE_FAILED", 401); ("ERROR_CODE_TRANSPORT_CONNECTION_LOST", 402)]);
     Convert "sourceComponent" ToText; ConvertEntries "details" ToText; Convert "traceId" ToText];
  mo_toObject := {|
    to_arrays := [];
    to_objects := ["details"];
    to_defaults :=
      [("level", DefaultValue (JStr [])); ("message", DefaultValue (JStr []));
       ("component", DefaultValue (JStr [])); ("code", DefaultValue (JStr []));
       ("severity", DefaultEnum "ALERT_SEVERITY_UNSPECIFIED" 0);
       ("errorCodeEnum", DefaultEnum "ERROR_CODE_UNSPECIFIED" 0); ("sourceComponent", DefaultValue (JStr []));
       ("traceId", DefaultValue (JStr []))];
    to_shows :=
      [Show "level" AsIs; Show "message" AsIs; Show "component" AsIs; Show "code" AsIs;
       Show "severity" (AsEnum AlertSeverity); Show "errorCodeEnum" (AsEnum ErrorCode);
       Show "sourceComponent" AsIs; ShowEntries "details" AsIs; Show "traceId" AsIs]
  |}
|}.

Definition Handshake_objects : message_objects := {|
  mo_verify :=
    [Check "componentId" IsString; Check "role" (IsEnum [0; 1; 2; 3; 4; 5]);
     CheckEach "supportedVersions" IsInteger; CheckEntries "capabilities" IsBoolean;
     Check "sdkVersion" IsString; CheckEach "readyTopics" IsString; Check "agentName" IsString];
  mo_fromObject :=
    [Convert "componentId" ToText;
     Convert "role" (ToEnum [("COMPONENT_ROLE_UNSPECIFIED", 0); ("COMPONENT_ROLE_GATEWAY", 1); ("COMPONENT_ROLE_SCHEDULER", 2); ("COMPONENT_ROLE_WORKER", 3); ("COMPONENT_ROLE_ORCHESTRATOR", 4); ("COMPONENT_ROLE_CONTROLLER", 5)]);
     ConvertEach "supportedVersions" ToInt32; ConvertEntries "capabilities" ToBoolean;
     Convert "sdkVersion" ToText; ConvertEach "readyTopics" ToText; Convert "agentName" ToText];
  mo_toObject := {|
    to_arrays := ["supportedVersions"; "readyTopics"];
    to_objects := ["capabilities"];
    to_defaults :=
      [("componentId", DefaultValue (JStr [])); ("role", DefaultEnum "COMPONENT_ROLE_UNSPECIFIED" 0);
       ("sdkVersion", DefaultValue (JStr [])); ("agentName", DefaultValue (JStr []))];
    to_shows :=
      [Show "componentId" AsIs; Show "role" (AsEnum ComponentRole); ShowEach "supportedVersions" AsIs;
       ShowEntries "capabilities" AsIs; Show "sdkVersion" AsIs; ShowEach "readyTopics" AsIs;
       Show "agentName" AsIs]
  |}
|}.

Definition WorkerHandshakeChallengeRequest_objects : message_objects := {|
  mo_verify :=
    [Check "requestId" IsString; Check "traceId" IsString; Check "workerId" IsString;
     Check "proofKeyId" IsString; Check "proofAlgorithm" (IsEnum [0; 1]); Check "audience" IsString;
     Check "purpose" (IsEnum [0; 1; 2]); Check "clientNonce" IsBuffer; Check "protocolVersion" IsInteger;
     Check "sdkVersion" IsString];
  mo_fromObject :=
    [Convert "requestId" ToText; Convert "traceId" ToText; Convert "workerId" ToText;
     Convert "proofKeyId" ToText;
     Convert "proofAlgorithm" (ToEnum [("WORKER_HANDSHAKE_PROOF_ALGORITHM_UNSPECIFIED", 0); ("WORKER_HANDSHAKE_PROOF_ALGORITHM_ECDSA_P256_SHA256", 1)]);
     Convert "audience" ToText;
     Convert "purpose" (ToEnum [("WORKER_HANDSHAKE_PURPOSE_UNSPECIFIED", 0); ("WORKER_HANDSHAKE_PURPOSE_ISSUE", 1); ("WORKER_HANDSHAKE_PURPOSE_RENEW", 2)]);
     Convert "clientNonce" ToBytes; Convert "protocolVersion" ToInt32; Convert "sdkVersion" ToText];
  mo_toObject := {|
    to_arrays := [];
    to_objects := [];
    to_defaults :=
      [("requestId", DefaultValue (JStr [])); ("traceId", DefaultValue (JStr []));
       ("workerId", DefaultValue (JStr [])); ("proofKeyId", DefaultValue (JStr []));
       ("proofAlgorithm", DefaultEnum "WORKER_HANDSHAKE_PROOF_ALGORITHM_UNSPECIFIED" 0);
       ("audience", DefaultValue (JStr [])); ("purpose", DefaultEnum "WORKER_HANDSHAKE_PURPOSE_UNSPECIFIED" 0);
       ("clientNonce", DefaultBytes); ("protocolVersion", DefaultValue (JNum (NInt 0)));
       ("sdkVersion", DefaultValue (JStr []))];
    to_shows :=
      [Show "requestId" AsIs; Show "traceId" AsIs; Show "workerId" AsIs; Show "proofKeyId" AsIs;
       Show "proofAlgorithm" (AsEnum WorkerHandshakeProofAlgorithm); Show "audience" AsIs;
       Show "purpose" (AsEnum WorkerHandshakePurpose); Show "clientNonce" AsBytes; Show "protocolVersion" AsIs;
       Show "sdkVersion" AsIs]
  |}
|}.

Definition WorkerHandshakeChallenge_objects : message_objects := {|
  mo_verify :=
    [Check "requestId" IsString; Check "challengeId" IsString; Check "traceId" IsString;
     Check "workerId" IsString; Check "agentId" IsString; Check "tenantId" IsString;
     Check "proofKeyId" IsString; Check "proofAlgorithm" (IsEnum [0; 1]); Check "serverKeyId" IsString;
     Check "audience" IsString; Check "purpose" (IsEnum [0; 1; 2]); Check "clientNonce" IsBuffer;
     Check "serverNonce" IsBuffer; Check "protocolVersion" IsInteger; Check "sdkVersion" IsString;
     Check "issuedAt" (IsMessage TimestampT); Check "expiresAt" (IsMessage TimestampT)];
  mo_fromObject :=
    [Convert "requestId" ToText; Convert "challengeId" ToText; Convert "traceId" ToText;
     Convert "workerId" ToText; Convert "agentId" ToText; Convert "tenantId" ToText;
     Convert "proofKeyId" ToText;
     Convert "proofAlgorithm" (ToEnum [("WORKER_HANDSHAKE_PROOF_ALGORITHM_UNSPECIFIED", 0); ("WORKER_HANDSHAKE_PROOF_ALGORITHM_ECDSA_P256_SHA256", 1)]);
     Convert "serverKeyId" ToText; Convert "audience" ToText;
     Convert "purpose" (ToEnum [("WORKER_HANDSHAKE_PURPOSE_UNSPECIFIED", 0); ("WORKER_HANDSHAKE_PURPOSE_ISSUE", 1); ("WORKER_HANDSHAKE_PURPOSE_RENEW", 2)]);
     Convert "clientNonce" ToBytes; Convert "serverNonce" ToBytes; Convert "protocolVersion" ToInt32;
     Convert "sdkVersion" ToText; Convert "issuedAt" (ToMessage TimestampT);
     Convert "expiresAt" (ToMessage TimestampT)];
  mo_toObject := {|
    to_arrays := [];
    to_objects := [];
    to_defaults :=
      [("requestId", DefaultValue (JStr [])); ("challengeId", DefaultValue (JStr []));
       ("traceId", DefaultValue (JStr [])); ("workerId", DefaultValue (JStr []));
       ("agentId", DefaultValue (JStr [])); ("tenantId", DefaultValue (JStr []));
       ("proofKeyId", DefaultValue (JStr []));
       ("proofAlgorithm", DefaultEnum "WORKER_HANDSHAKE_PROOF_ALGORITHM_UNSPECIFIED" 0);
       ("serverKeyId", DefaultValue (JStr [])); ("audience", DefaultValue (JStr []));
       ("purpose", DefaultEnum "WORKER_HANDSHAKE_PURPOSE_UNSPECIFIED" 0); ("clientNonce", DefaultBytes);
       ("serverNonce", DefaultBytes); ("protocolVersion", DefaultValue (JNum (NInt 0)));
       ("sdkVersion", DefaultValue (JStr [])); ("issuedAt", DefaultValue JNull);
       ("expiresAt", DefaultValue JNull)];
    to_shows :=
      [Show "requestId" AsIs; Show "challengeId" AsIs; Show "traceId" AsIs; Show "workerId" AsIs;
       Show "agentId" AsIs; Show "tenantId" AsIs; Show "proofKeyId" AsIs;
       Show "proofAlgorithm" (AsEnum WorkerHandshakeProofAlgorithm); Show "serverKeyId" AsIs;
       Show "audience" AsIs; Show "purpose" (AsEnum WorkerHandshakePurpose); Show "clientNonce" AsBytes;
       Show "serverNonce" AsBytes; Show "protocolVersion" AsIs; Show "sdkVersion" AsIs;
       Show "issuedAt" (AsObject TimestampT); Show "expiresAt" (AsObject TimestampT)]
  |}
|}.

Definition WorkerHandshakeAuthenticate_objects : message_objects := {|
  mo_verify :=
    [Check "challenge" (IsMessage WorkerHandshakeChallengeT);
     Check "capabilityHandshake" (IsMessage HandshakeT)];
  mo_fromObject :=
    [Convert "challenge" (ToMessage WorkerHandshakeChallengeT);
     Convert "capabilityHandshake" (ToMessage HandshakeT)];
  mo_toObject := {|
    to_arrays := [];
    to_objects := [];
    to_defaults :=
      [("challenge", DefaultValue JNull); ("capabilityHandshake", DefaultValue JNull)];
    to_shows :=
      [Show "challenge" (AsObject WorkerHandshakeChallengeT); Show "capabilityHandshake" (AsObject HandshakeT)]
  |}
|}.

Definition WorkerHandshakeResult_objects : message_objects := {|
  mo_verify :=
    [Check "challenge" (IsMessage WorkerHandshakeChallengeT); Check "accepted" IsBoolean;
     Check "rejectionReason" (IsEnum [0; 1; 2; 3; 4; 5; 6; 7; 8; 9]);
     Check "tokenExpiresAt" (IsMessage TimestampT); Check "issuedAt" (IsMessage TimestampT)];
  mo_fromObject :=
    [Convert "challenge" (ToMessage WorkerHandshakeChallengeT); Convert "accepted" ToBoolean;
     Convert "rejectionReason" (ToEnum [("WORKER_HANDSHAKE_REJECTION_REASON_UNSPECIFIED", 0); ("WORKER_HANDSHAKE_REJECTION_REASON_INVALID_REQUEST", 1); ("WORKER_HANDSHAKE_REJECTION_REASON_AUTHENTICATION_FAILED", 2); ("WORKER_HANDSHAKE_REJECTION_REASON_REPLAY_DETECTED", 3); ("WORKER_HANDSHAKE_REJECTION_REASON_CLOCK_SKEW", 4); ("WORKER_HANDSHAKE_REJECTION_REASON_CHALLENGE_EXPIRED", 5); ("WORKER_HANDSHAKE_REJECTION_REASON_SESSION_REQUIRED", 6); ("WORKER_HANDSHAKE_REJECTION_REASON_SESSION_INVALID", 7); ("WORKER_HANDSHAKE_REJECTION_REASON_UNSUPPORTED_VERSION", 8); ("WORKER_HANDSHAKE_REJECTION_REASON_INTERNAL_ERROR", 9)]);
     Convert "tokenExpiresAt" (ToMessage TimestampT); Convert "issuedAt" (ToMessage TimestampT)];
  mo_toObject := {|
    to_arrays := [];
    to_objects := [];
    to_defaults :=
      [("challenge", DefaultValue JNull); ("accepted", DefaultValue (JBool false));
       ("rejectionReason", DefaultEnum "WORKER_HANDSHAKE_REJECTION_REASON_UNSPECIFIED" 0);
       ("tokenExpiresAt", DefaultValue JNull); ("issuedAt", DefaultValue JNull)];
    to_shows :=
      [Show "challenge" (AsObject WorkerHandshakeChallengeT); Show "accepted" AsIs;
       Show "rejectionReason" (AsEnum WorkerHandshakeRejectionReason);
       Show "tokenExpiresAt" (AsObject TimestampT); Show "issuedAt" (AsObject TimestampT)]
  |}
|}.

Definition RuleScope_objects : message_objects := {|
  mo_verify :=
    [Check "kind" (IsEnum [0; 1; 2; 3; 4; 5]); Check "value" IsString];
  mo_fromObject :=
    [Convert "kind" (ToEnum [("RULE_SCOPE_KIND_UNSPECIFIED", 0); ("RULE_SCOPE_KIND_GLOBAL", 1); ("RULE_SCOPE_KIND_TENANT", 2); ("RULE_SCOPE_KIND_WORKFLOW", 3); ("RULE_SCOPE_KIND_EDGE_FLEET", 4); ("RULE_SCOPE_KIND_EDGE_USER", 5)]);
     Convert "value" ToText];
  mo_toObject := {|
    to_arrays := [];
    to_objects := [];
    to_defaults :=
      [("kind", DefaultEnum "RULE_SCOPE_KIND_UNSPECIFIED" 0); ("value", DefaultValue (JStr []))];
    to_shows :=
      [Show "kind" (AsEnum RuleScopeKind); Show "value" AsIs]
  |}
|}.

Definition AuditMetadata_objects : message_objects := {|
  mo_verify :=
    [Check "createdAt" (IsMessage TimestampT); Check "createdBy" IsString;
     Check "updatedAt" (IsMessage TimestampT); Check "updatedBy" IsString];
  mo_fromObject :=
    [Convert "createdAt" (ToMessage TimestampT); Convert "createdBy" ToText;
     Convert "updatedAt" (ToMessage TimestampT); Convert "updatedBy" ToText];
  mo_toObject := {|
    to_arrays := [];
    to_objects := [];
    to_defaults :=
      [("createdAt", DefaultValue JNull); ("createdBy", DefaultValue (JStr []));
       ("updatedAt", DefaultValue JNull); ("updatedBy", DefaultValue (JStr []))];
    to_shows :=
      [Show "createdAt" (AsObject TimestampT); Show "createdBy" AsIs; Show "updatedAt" (AsObject TimestampT);
       Show "updatedBy" AsIs]
  |}
|}.

Definition Rule_objects : message_objects := {|
  mo_verify :=
    [Check "id" IsString; Check "name" IsString; Check "type" (IsEnum [0; 1; 2; 3; 4]);
     Check "scope" (IsMessage RuleScopeT); Check "status" (IsEnum [0; 1; 2; 3]); Check "version" IsString;
     Check "audit" (IsMessage AuditMetadataT); Check "match" (IsMessage StructT);
     Check "decide" (IsMessage StructT); Check "description" IsString];
  mo_fromObject :=
    [Convert "id" ToText; Convert "name" ToText;
     Convert "type" (ToEnum [("RULE_TYPE_UNSPECIFIED", 0); ("RULE_TYPE_INPUT", 1); ("RULE_TYPE_OUTPUT", 2); ("RULE_TYPE_VELOCITY", 3); ("RULE_TYPE_EDGE", 4)]);
     Convert "scope" (ToMessage RuleScopeT);
     Convert "status" (ToEnum [("RULE_STATUS_UNSPECIFIED", 0); ("RULE_STATUS_DRAFT", 1); ("RULE_STATUS_PUBLISHED", 2); ("RULE_STATUS_DEPRECATED", 3)]);
     Convert "version" ToText; Convert "audit" (ToMessage AuditMetadataT); Convert "match" (ToMessage StructT);
     Convert "decide" (ToMessage StructT); Convert "description" ToText];
  mo_toObject := {|
    to_arrays := [];
    to_objects := [];
    to_defaults :=
      [("id", DefaultValue (JStr [])); ("name", DefaultValue (JStr []));
       ("type", DefaultEnum "RULE_TYPE_UNSPECIFIED" 0); ("scope", DefaultValue JNull);
       ("status", DefaultEnum "RULE_STATUS_UNSPECIFIED" 0); ("version", DefaultValue (JStr []));
       ("audit", DefaultValue JNull); ("match", DefaultValue JNull); ("decide", DefaultValue JNull);
       ("description", DefaultValue (JStr []))];
    to_shows :=
      [Show "id" AsIs; Show "name" AsIs; Show "type" (AsEnum RuleType); Show "scope" (AsObject RuleScopeT);
       Show "status" (AsEnum RuleStatus); Show "version" AsIs; Show "audit" (AsObject AuditMetadataT);
       Show "match" (AsObject StructT); Show "decide" (AsObject StructT); Show "description" AsIs]
  |}
|}.

Definition TraceStep_objects : message_objects := {|
  mo_verify :=
    [Check "ruleId" IsString; Check "bundleId" IsString;
     Check "decisionType" (IsEnum [0; 1; 2; 3; 4; 5; 6; 7]); Check "reason" IsString;
     Check "timestamp" (IsMessage TimestampT); Check "constraints" (IsMessage StructT)];
  mo_fromObject :=
    [Convert "ruleId" ToText; Convert "bundleId" ToText;
     Convert "decisionType" (ToEnum [("DECISION_TYPE_UNSPECIFIED", 0); ("DECISION_TYPE_ALLOW", 1); ("DECISION_TYPE_DENY", 2); ("DECISION_TYPE_REQUIRE_HUMAN", 3); ("DECISION_TYPE_THROTTLE", 4); ("DECISION_TYPE_ALLOW_WITH_CONSTRAINTS", 5); ("DECISION_TYPE_QUARANTINE", 6); ("DECISION_TYPE_REDACT", 7)]);
     Convert "reason" ToText; Convert "timestamp" (ToMessage TimestampT);
     Convert "constraints" (ToMessage StructT)];
  mo_toObject := {|
    to_arrays := [];
    to_objects := [];
    to_defaults :=
      [("ruleId", DefaultValue (JStr [])); ("bundleId", DefaultValue (JStr []));
       ("decisionType", DefaultEnum "DECISION_TYPE_UNSPECIFIED" 0); ("reason", DefaultValue (JStr []));
       ("timestamp", DefaultValue JNull); ("constraints", DefaultValue JNull)];
    to_shows :=
      [Show "ruleId" AsIs; Show "bundleId" AsIs; Show "decisionType" (AsEnum DecisionType); Show "reason" AsIs;
       Show "timestamp" (AsObject TimestampT); Show "constraints" (AsObject StructT)]
  |}
|}.

Definition Decision_objects : message_objects := {|
  mo_verify :=
    [Check "source" (IsEnum [0; 1; 2]); Check "ruleId" IsString; Check "bundleId" IsString;
     Check "bundleVersion" IsString; Check "type" (IsEnum [0; 1; 2; 3; 4; 5; 6; 7]);
     CheckEach "trace" (IsMessage TraceStepT); Check "inputRef" IsString; Check "outputRef" IsString;
     Check "auditHash" IsString; Check "timestamp" (IsMessage TimestampT)];
  mo_fromObject :=
    [Convert "source" (ToEnum [("DECISION_SOURCE_UNSPECIFIED", 0); ("DECISION_SOURCE_JOB", 1); ("DECISION_SOURCE_EDGE", 2)]);
     Convert "ruleId" ToText; Convert "bundleId" ToText; Convert "bundleVersion" ToText;
     Convert "type" (ToEnum [("DECISION_TYPE_UNSPECIFIED", 0); ("DECISION_TYPE_ALLOW", 1); ("DECISION_TYPE_DENY", 2); ("DECISION_TYPE_REQUIRE_HUMAN", 3); ("DECISION_TYPE_THROTTLE", 4); ("DECISION_TYPE_ALLOW_WITH_CONSTRAINTS", 5); ("DECISION_TYPE_QUARANTINE", 6); ("DECISION_TYPE_REDACT", 7)]);
     ConvertEach "trace" (ToMessage TraceStepT); Convert "inputRef" ToText; Convert "outputRef" ToText;
     Convert "auditHash" ToText; Convert "timestamp" (ToMessage TimestampT)];
  mo_toObject := {|
    to_arrays := ["trace"];
    to_objects := [];
    to_defaults :=
      [("source", DefaultEnum "DECISION_SOURCE_UNSPECIFIED" 0); ("ruleId", DefaultValue (JStr []));
       ("bundleId", DefaultValue (JStr [])); ("bundleVersion", DefaultValue (JStr []));
       ("type", DefaultEnum "DECISION_TYPE_UNSPECIFIED" 0); ("inputRef", DefaultValue (JStr []));
       ("outputRef", DefaultValue (JStr [])); ("auditHash", DefaultValue (JStr []));
       ("timestamp", DefaultValue JNull)];
    to_shows :=
      [Show "source" (AsEnum DecisionSource); Show "ruleId" AsIs; Show "bundleId" AsIs;
       Show "bundleVersion" AsIs; Show "type" (AsEnum DecisionType); ShowEach "trace" (AsObject TraceStepT);
       Show "inputRef" AsIs; Show "outputRef" AsIs; Show "auditHash" AsIs;
       Show "timestamp" (AsObject TimestampT)]
  |}
|}.

Definition BundleMetadata_objects : message_objects := {|
  mo_verify :=
    [Check "edgeMode" (IsEnum [0; 1; 2; 3])];
  mo_fromObject :=
    [Convert "edgeMode" (ToEnum [("EDGE_MODE_UNSPECIFIED", 0); ("EDGE_MODE_OBSERVE", 1); ("EDGE_MODE_ENFORCE", 2); ("EDGE_MODE_ENTERPRISE_STRICT", 3)])];
  mo_toObject := {|
    to_arrays := [];
    to_objects := [];
    to_defaults :=
      [("edgeMode", DefaultEnum "EDGE_MODE_UNSPECIFIED" 0)];
    to_shows :=
      [Show "edgeMode" (AsEnum EdgeMode)]
  |}
|}.

Definition BundleVersion_objects : message_objects := {|
  mo_verify :=
    [Check "version" IsString; CheckEach "ruleSnapshot" (IsMessage RuleT);
     Check "deployedAt" (IsMessage TimestampT); Check "auditHash" IsString];
  mo_fromObject :=
    [Convert "version" ToText; ConvertEach "ruleSnapshot" (ToMessage RuleT);
     Convert "deployedAt" (ToMessage TimestampT); Convert "auditHash" ToText];
  mo_toObject := {|
    to_arrays := ["ruleSnapshot"];
    to_objects := [];
    to_defaults :=
      [("version", DefaultValue (JStr [])); ("deployedAt", DefaultValue JNull);
       ("auditHash", DefaultValue (JStr []))];
    to_shows :=
      [Show "version" AsIs; ShowEach "ruleSnapshot" (AsObject RuleT); Show "deployedAt" (AsObject TimestampT);
       Show "auditHash" AsIs]
  |}
|}.

Definition Bundle_objects : message_objects := {|
  mo_verify :=
    [Check "id" IsString; Check "name" IsString; CheckEach "ruleIds" IsString;
     Check "scopeBinding" (IsMessage RuleScopeT); CheckEach "versions" (IsMessage BundleVersionT);
     Check "metadata" (IsMessage BundleMetadataT)];
  mo_fromObject :=
    [Convert "id" ToText; Convert "name" ToText; ConvertEach "ruleIds" ToText;
     Convert "scopeBinding" (ToMessage RuleScopeT); ConvertEach "versions" (ToMessage BundleVersionT);
     Convert "metadata" (ToMessage BundleMetadataT)];
  mo_toObject := {|
    to_arrays := ["ruleIds"; "versions"];
    to_objects := [];
    to_defaults :=
      [("id", DefaultValue (JStr [])); ("name", DefaultValue (JStr [])); ("scopeBinding", DefaultValue JNull);
       ("metadata", DefaultValue JNull)];
    to_shows :=
      [Show "id" AsIs; Show "name" AsIs; ShowEach "ruleIds" AsIs; Show "scopeBinding" (AsObject RuleScopeT);
       ShowEach "versions" (AsObject BundleVersionT); Show "metadata" (AsObject BundleMetadataT)]
  |}
|}.

Definition JobEvaluationContext_objects : message_objects := {|
  mo_verify :=
    [Check "tenantId" IsString; Check "jobId" IsString; Check "workflowId" IsString; Check "topic" IsString;
     Check "principalId" IsString; CheckEntries "labels" IsString; Check "memoryId" IsString;
     Check "capability" IsString; CheckEach "riskTags" IsString; Check "inputContent" IsBuffer;
     Check "inputContentType" IsString; Check "inputSizeBytes" IsLong];
  mo_fromObject :=
    [Convert "tenantId" ToText; Convert "jobId" ToText; Convert "workflowId" ToText; Convert "topic" ToText;
     Convert "principalId" ToText; ConvertEntries "labels" ToText; Convert "memoryId" ToText;
     Convert "capability" ToText; ConvertEach "riskTags" ToText; Convert "inputContent" ToBytes;
     Convert "inputContentType" ToText; Convert "inputSizeBytes" (ToLong false)];
  mo_toObject := {|
    to_arrays := ["riskTags"];
    to_objects := ["labels"];
    to_defaults :=
      [("tenantId", DefaultValue (JStr [])); ("jobId", DefaultValue (JStr []));
       ("workflowId", DefaultValue (JStr [])); ("topic", DefaultValue (JStr []));
       ("principalId", DefaultValue (JStr [])); ("memoryId", DefaultValue (JStr []));
       ("capability", DefaultValue (JStr [])); ("inputContent", DefaultBytes);
       ("inputContentType", DefaultValue (JStr [])); ("inputSizeBytes", DefaultLong)];
    to_shows :=
      [Show "tenantId" AsIs; Show "jobId" AsIs; Show "workflowId" AsIs; Show "topic" AsIs;
       Show "principalId" AsIs; ShowEntries "labels" AsIs; Show "memoryId" AsIs; Show "capability" AsIs;
       ShowEach "riskTags" AsIs; Show "inputContent" AsBytes; Show "inputContentType" AsIs;
       Show "inputSizeBytes" (AsLong false)]
  |}
|}.

Definition EdgeEvaluationContext_objects : message_objects := {|
  mo_verify :=
    [Check "tenantId" IsString; Check "principalId" IsString; Check "sessionId" IsString;
     Check "executionId" IsString; Check "agentProduct" IsString; Check "toolName" IsString;
     Check "toolInputRedacted" (IsMessage StructT); Check "inputHash" IsString; Check "toolInputHash" IsString;
     CheckEntries "labels" IsString; CheckEach "riskTags" IsString];
  mo_fromObject :=
    [Convert "tenantId" ToText; Convert "principalId" ToText; Convert "sessionId" ToText;
     Convert "executionId" ToText; Convert "agentProduct" ToText; Convert "toolName" ToText;
     Convert "toolInputRedacted" (ToMessage StructT); Convert "inputHash" ToText;
     Convert "toolInputHash" ToText; ConvertEntries "labels" ToText; ConvertEach "riskTags" ToText];
  mo_toObject := {|
    to_arrays := ["riskTags"];
    to_objects := ["labels"];
    to_defaults :=
      [("tenantId", DefaultValue (JStr [])); ("principalId", DefaultValue (JStr []));
       ("sessionId", DefaultValue (JStr [])); ("executionId", DefaultValue (JStr []));
       ("agentProduct", DefaultValue (JStr [])); ("toolName", DefaultValue (JStr []));
       ("toolInputRedacted", DefaultValue JNull); ("inputHash", DefaultValue (JStr []));
       ("toolInputHash", DefaultValue (JStr []))];
    to_shows :=
      [Show "tenantId" AsIs; Show "principalId" AsIs; Show "sessionId" AsIs; Show "executionId" AsIs;
       Show "agentProduct" AsIs; Show "toolName" AsIs; Show "toolInputRedacted" (AsObject StructT);
       Show "inputHash" AsIs; Show "toolInputHash" AsIs; ShowEntries "labels" AsIs; ShowEach "riskTags" AsIs]
  |}
|}.

Definition PolicyEvaluateRequest_objects : message_objects := {|
  mo_verify :=
    [Check "rule" (IsMessage RuleT); Check "bundleId" IsString; Check "scope" (IsMessage RuleScopeT);
     Check "jobContext" (IsMessage JobEvaluationContextT);
     Check "edgeContext" (IsMessage EdgeEvaluationContextT)];
  mo_fromObject :=
    [Convert "rule" (ToMessage RuleT); Convert "bundleId" ToText; Convert "scope" (ToMessage RuleScopeT);
     Convert "jobContext" (ToMessage JobEvaluationContextT);
     Convert "edgeContext" (ToMessage EdgeEvaluationContextT)];
  mo_toObject := {|
    to_arrays := [];
    to_objects := [];
    to_defaults :=
      [("rule", DefaultValue JNull); ("bundleId", DefaultValue (JStr [])); ("scope", DefaultValue JNull);
       ("jobContext", DefaultValue JNull); ("edgeContext", DefaultValue JNull)];
    to_shows :=
      [Show "rule" (AsObject RuleT); Show "bundleId" AsIs; Show "scope" (AsObject RuleScopeT);
       Show "jobContext" (AsObject JobEvaluationContextT);
       Show "edgeContext" (AsObject EdgeEvaluationContextT)]
  |}
|}.

Definition PolicyEvaluateResponse_objects : message_objects := {|
  mo_verify :=
    [Check "decision" (IsMessage DecisionT)];
  mo_fromObject :=
    [Convert "decision" (ToMessage DecisionT)];
  mo_toObject := {|
    to_arrays := [];
    to_objects := [];
    to_defaults :=
      [("decision", DefaultValue JNull)];
    to_shows :=
      [Show "decision" (AsObject DecisionT)]
  |}
|}.

Definition PolicyCheckRequest_objects : message_objects := {|
  mo_verify :=
    [Check "jobId" IsString; Check "topic" IsString; Check "tenant" IsString;
     Check "priority" (IsEnum [0; 1; 2; 3]); Check "estimatedCost" IsNumber;
     Check "budget" (IsMessage BudgetT); Check "principalId" IsString; CheckEntries "labels" IsString;
     Check "memoryId" IsString; Check "effectiveConfig" IsBuffer; Check "meta" (IsMessage JobMetadataT);
     Check "identity" (IsMessage IdentityBindingT); Check "inputRef" (IsMessage ResourceRefT);
     Check "inputContent" IsBuffer; Check "inputContentType" IsString; Check "inputSizeBytes" IsLong];
  mo_fromObject :=
    [Convert "jobId" ToText; Convert "topic" ToText; Convert "tenant" ToText;
     Convert "priority" (ToEnum [("JOB_PRIORITY_UNSPECIFIED", 0); ("JOB_PRIORITY_INTERACTIVE", 1); ("JOB_PRIORITY_BATCH", 2); ("JOB_PRIORITY_CRITICAL", 3)]);
     Convert "estimatedCost" ToNumber; Convert "budget" (ToMessage BudgetT); Convert "principalId" ToText;
     ConvertEntries "labels" ToText; Convert "memoryId" ToText; Convert "effectiveConfig" ToBytes;
     Convert "meta" (ToMessage JobMetadataT); Convert "identity" (ToMessage IdentityBindingT);
     Convert "inputRef" (ToMessage ResourceRefT); Convert "inputContent" ToBytes;
     Convert "inputContentType" ToText; Convert "inputSizeBytes" (ToLong false)];
  mo_toObject := {|
    to_arrays := [];
    to_objects := ["labels"];
    to_defaults :=
      [("jobId", DefaultValue (JStr [])); ("topic", DefaultValue (JStr []));
       ("tenant", DefaultValue (JStr [])); ("priority", DefaultEnum "JOB_PRIORITY_UNSPECIFIED" 0);
       ("estimatedCost", DefaultValue (JNum (NInt 0))); ("budget", DefaultValue JNull);
       ("principalId", DefaultValue (JStr [])); ("memoryId", DefaultValue (JStr []));
       ("effectiveConfig", DefaultBytes); ("meta", DefaultValue JNull); ("identity", DefaultValue JNull);
       ("inputRef", DefaultValue JNull); ("inputContent", DefaultBytes);
       ("inputContentType", DefaultValue (JStr [])); ("inputSizeBytes", DefaultLong)];
    to_shows :=
      [Show "jobId" AsIs; Show "topic" AsIs; Show "tenant" AsIs; Show "priority" (AsEnum JobPriority);
       Show "estimatedCost" AsNumber; Show "budget" (AsObject BudgetT); Show "principalId" AsIs;
       ShowEntries "labels" AsIs; Show "memoryId" AsIs; Show "effectiveConfig" AsBytes;
       Show "meta" (AsObject JobMetadataT); Show "identity" (AsObject IdentityBindingT);
       Show "inputRef" (AsObject ResourceRefT); Show "inputContent" AsBytes; Show "inputContentType" AsIs;
       Show "inputSizeBytes" (AsLong false)]
  |}
|}.

Definition BudgetConstraints_objects : message_objects := {|
  mo_verify :=
    [Check "maxRuntimeMs" IsLong; Check "maxRetries" IsInteger; Check "maxArtifactBytes" IsLong;
     Check "maxConcurrentJobs" IsInteger];
  mo_fromObject :=
    [Convert "maxRuntimeMs" (ToLong false); Convert "maxRetries" ToInt32;
     Convert "maxArtifactBytes" (ToLong false); Convert "maxConcurrentJobs" ToInt32];
  mo_toObject := {|
    to_arrays := [];
    to_objects := [];
    to_defaults :=
      [("maxRuntimeMs", DefaultLong); ("maxRetries", DefaultValue (JNum (NInt 0)));
       ("maxArtifactBytes", DefaultLong); ("maxConcurrentJobs", DefaultValue (JNum (NInt 0)))];
    to_shows :=
      [Show "maxRuntimeMs" (AsLong false); Show "maxRetries" AsIs; Show "maxArtifactBytes" (AsLong false);
       Show "maxConcurrentJobs" AsIs]
  |}
|}.

Definition SandboxProfile_objects : message_objects := {|
  mo_verify :=
    [Check "isolated" IsBoolean; CheckEach "networkAllowlist" IsString; CheckEach "fsReadOnly" IsString;
     CheckEach "fsReadWrite" IsString];
  mo_fromObject :=
    [Convert "isolated" ToBoolean; ConvertEach "networkAllowlist" ToText; ConvertEach "fsReadOnly" ToText;
     ConvertEach "fsReadWrite" ToText];
  mo_toObject := {|
    to_arrays := ["networkAllowlist"; "fsReadOnly"; "fsReadWrite"];
    to_objects := [];
    to_defaults :=
      [("isolated", DefaultValue (JBool false))];
    to_shows :=
      [Show "isolated" AsIs; ShowEach "networkAllowlist" AsIs; ShowEach "fsReadOnly" AsIs;
       ShowEach "fsReadWrite" AsIs]
  |}
|}.

Definition ToolchainConstraints_objects : message_objects := {|
  mo_verify :=
    [CheckEach "allowedTools" IsString; CheckEach "allowedCommands" IsString];
  mo_fromObject :=
    [ConvertEach "allowedTools" ToText; ConvertEach "allowedCommands" ToText];
  mo_toObject := {|
    to_arrays := ["allowedTools"; "allowedCommands"];
    to_objects := [];
    to_defaults := [];
    to_shows :=
      [ShowEach "allowedTools" AsIs; ShowEach "allowedCommands" AsIs]
  |}
|}.

Definition DiffConstraints_objects : message_objects := {|
  mo_verify :=
    [Check "maxFiles" IsInteger; Check "maxLines" IsInteger; CheckEach "denyPathGlobs" IsString];
  mo_fromObject :=
    [Convert "maxFiles" ToInt32; Convert "maxLines" ToInt32; ConvertEach "denyPathGlobs" ToText];
  mo_toObject := {|
    to_arrays := ["denyPathGlobs"];
    to_objects := [];
    to_defaults :=
      [("maxFiles", DefaultValue (JNum (NInt 0))); ("maxLines", DefaultValue (JNum (NInt 0)))];
    to_shows :=
      [Show "maxFiles" AsIs; Show "maxLines" AsIs; ShowEach "denyPathGlobs" AsIs]
  |}
|}.

Definition PolicyConstraints_objects : message_objects := {|
  mo_verify :=
    [Check "budgets" (IsMessage BudgetConstraintsT); Check "sandbox" (IsMessage SandboxProfileT);
     Check "toolchain" (IsMessage ToolchainConstraintsT); Check "diff" (IsMessage DiffConstraintsT);
     Check "redactionLevel" IsString];
  mo_fromObject :=
    [Convert "budgets" (ToMessage BudgetConstraintsT); Convert "sandbox" (ToMessage SandboxProfileT);
     Convert "toolchain" (ToMessage ToolchainConstraintsT); Convert "diff" (ToMessage DiffConstraintsT);
     Convert "redactionLevel" ToText];
  mo_toObject := {|
    to_arrays := [];
    to_objects := [];
    to_defaults :=
      [("budgets", DefaultValue JNull); ("sandbox", DefaultValue JNull); ("toolchain", DefaultValue JNull);
       ("diff", DefaultValue JNull); ("redactionLevel", DefaultValue (JStr []))];
    to_shows :=
      [Show "budgets" (AsObject BudgetConstraintsT); Show "sandbox" (AsObject SandboxProfileT);
       Show "toolchain" (AsObject ToolchainConstraintsT); Show "diff" (AsObject DiffConstraintsT);
       Show "redactionLevel" AsIs]
  |}
|}.

Definition PolicyRemediation_objects : message_objects := {|
  mo_verify :=
    [Check "id" IsString; Check "title" IsString; Check "summary" IsString; Check "replacementTopic" IsString;
     Check "replacementCapability" IsString; CheckEntries "addLabels" IsString;
     CheckEach "removeLabels" IsString];
  mo_fromObject :=
    [Convert "id" ToText; Convert "title" ToText; Convert "summary" ToText; Convert "replacementTopic" ToText;
     Convert "replacementCapability" ToText; ConvertEntries "addLabels" ToText;
     ConvertEach "removeLabels" ToText];
  mo_toObject := {|
    to_arrays := ["removeLabels"];
    to_objects := ["addLabels"];
    to_defaults :=
      [("id", DefaultValue (JStr [])); ("title", DefaultValue (JStr [])); ("summary", DefaultValue (JStr []));
       ("replacementTopic", DefaultValue (JStr [])); ("replacementCapability", DefaultValue (JStr []))];
    to_shows :=
      [Show "id" AsIs; Show "title" AsIs; Show "summary" AsIs; Show "replacementTopic" AsIs;
       Show "replacementCapability" AsIs; ShowEntries "addLabels" AsIs; ShowEach "removeLabels" AsIs]
  |}
|}.

Definition PolicyCheckResponse_objects : message_objects := {|
  mo_verify :=
    [Check "decision" (IsEnum [0; 1; 2; 3; 4; 5; 6; 7]); Check "reason" IsString;
     Check "redactedContextPtr" IsString; Check "policySnapshot" IsString; Check "ruleId" IsString;
     Check "constraints" (IsMessage PolicyConstraintsT); Check "approvalRequired" IsBoolean;
     Check "approvalRef" IsString; CheckEach "remediations" (IsMessage PolicyRemediationT);
     Check "redactedContextRef" (IsMessage ResourceRefT); Check "identity" (IsMessage IdentityBindingT)];
  mo_fromObject :=
    [Convert "decision" (ToEnum [("DECISION_TYPE_UNSPECIFIED", 0); ("DECISION_TYPE_ALLOW", 1); ("DECISION_TYPE_DENY", 2); ("DECISION_TYPE_REQUIRE_HUMAN", 3); ("DECISION_TYPE_THROTTLE", 4); ("DECISION_TYPE_ALLOW_WITH_CONSTRAINTS", 5); ("DECISION_TYPE_QUARANTINE", 6); ("DECISION_TYPE_REDACT", 7)]);
     Convert "reason" ToText; Convert "redactedContextPtr" ToText; Convert "policySnapshot" ToText;
     Convert "ruleId" ToText; Convert "constraints" (ToMessage PolicyConstraintsT);
     Convert "approvalRequired" ToBoolean; Convert "approvalRef" ToText;
     ConvertEach "remediations" (ToMessage PolicyRemediationT);
     Convert "redactedContextRef" (ToMessage ResourceRefT); Convert "identity" (ToMessage IdentityBindingT)];
  mo_toObject := {|
    to_arrays := ["remediations"];
    to_objects := [];
    to_defaults :=
      [("decision", DefaultEnum "DECISION_TYPE_UNSPECIFIED" 0); ("reason", DefaultValue (JStr []));
       ("redactedContextPtr", DefaultValue (JStr [])); ("policySnapshot", DefaultValue (JStr []));
       ("ruleId", DefaultValue (JStr [])); ("constraints", DefaultValue JNull);
       ("approvalRequired", DefaultValue (JBool false)); ("approvalRef", DefaultValue (JStr []));
       ("redactedContextRef", DefaultValue JNull); ("identity", DefaultValue JNull)];
    to_shows :=
      [Show "decision" (AsEnum DecisionType); Show "reason" AsIs; Show "redactedContextPtr" AsIs;
       Show "policySnapshot" AsIs; Show "ruleId" AsIs; Show "constraints" (AsObject PolicyConstraintsT);
       Show "approvalRequired" AsIs; Show "approvalRef" AsIs;
       ShowEach "remediations" (AsObject PolicyRemediationT);
       Show "redactedContextRef" (AsObject ResourceRefT); Show "identity" (AsObject IdentityBindingT)]
  |}
|}.

Definition ListSnapshotsRequest_objects : message_objects := {|
  mo_verify := [];
  mo_fromObject := [];
  mo_toObject := {|
    to_arrays := [];
    to_objects := [];
    to_defaults := [];
    to_shows := []
  |}
|}.

Definition ListSnapshotsResponse_objects : message_objects := {|
  mo_verify :=
    [CheckEach "snapshots" IsString];
  mo_fromObject :=
    [ConvertEach "snapshots" ToText];
  mo_toObject := {|
    to_arrays := ["snapshots"];
    to_objects := [];
    to_defaults := [];
    to_shows :=
      [ShowEach "snapshots" AsIs]
  |}
|}.

Definition Timestamp_objects : message_objects := {|
  mo_verify :=
    [Check "seconds" IsLong; Check "nanos" IsInteger];
  mo_fromObject :=
    [Convert "seconds" (ToLong false); Convert "nanos" ToInt32];
  mo_toObject := {|
    to_arrays := [];
    to_objects := [];
    to_defaults :=
      [("seconds", DefaultLong); ("nanos", DefaultValue (JNum (NInt 0)))];
    to_shows :=
      [Show "seconds" (AsLong false); Show "nanos" AsIs]
  |}
|}.

Definition Struct_objects : message_objects := {|
  mo_verify :=
    [CheckEntries "fields" (IsMessage ValueT)];
  mo_fromObject :=
    [ConvertEntries "fields" (ToMessage ValueT)];
  mo_toObject := {|
    to_arrays := [];
    to_objects := ["fields"];
    to_defaults := [];
    to_shows :=
      [ShowEntries "fields" (AsObject ValueT)]
  |}
|}.

Definition Value_objects : message_objects := {|
  mo_verify :=
    [CheckMember "kind" false "nullValue" (IsEnum [0]); CheckMember "kind" true "numberValue" IsNumber;
     CheckMember "kind" true "stringValue" IsString; CheckMember "kind" true "boolValue" IsBoolean;
     CheckMember "kind" true "structValue" (IsMessage StructT);
     CheckMember "kind" true "listValue" (IsMessage ListValueT)];
  mo_fromObject :=
    [Convert "nullValue" (ToEnum [("NULL_VALUE", 0)]); Convert "numberValue" ToNumber;
     Convert "stringValue" ToText; Convert "boolValue" ToBoolean; Convert "structValue" (ToMessage StructT);
     Convert "listValue" (ToMessage ListValueT)];
  mo_toObject := {|
    to_arrays := [];
    to_objects := [];
    to_defaults := [];
    to_shows :=
      [ShowMember "kind" "nullValue" (AsEnum NullValue); ShowMember "kind" "numberValue" AsNumber;
       ShowMember "kind" "stringValue" AsIs; ShowMember "kind" "boolValue" AsIs;
       ShowMember "kind" "structValue" (AsObject StructT); ShowMember "kind" "listValue" (AsObject ListValueT)]
  |}
|}.

Definition ListValue_objects : message_objects := {|
  mo_verify :=
    [CheckEach "values" (IsMessage ValueT)];
  mo_fromObject :=
    [ConvertEach "values" (ToMessage ValueT)];
  mo_toObject := {|
    to_arrays := ["values"];
    to_objects := [];
    to_defaults := [];
    to_shows :=
      [ShowEach "values" (AsObject ValueT)]
  |}
|}.

(** ** The module *)

Definition objects_of (c : cap_class) : message_objects :=
  match c with
  | BusPacketT => BusPacket_objects
  | SignatureMetadataT => SignatureMetadata_objects
  | IdentityBindingT => IdentityBinding_objects
  | DispatchIdentityT => DispatchIdentity_objects
  | ResourceRefT => ResourceRef_objects
  | ContextHintsT => ContextHints_objects
  | BudgetT => Budget_objects
  | JobMetadataT => JobMetadata_objects
  | CompensationT => Compensation_objects
  | JobRequestT => JobRequest_objects
  | JobResultT => JobResult_objects
  | JobProgressT => JobProgress_objects
  | JobCancelT => JobCancel_objects
  | HeartbeatT => Heartbeat_objects
  | SystemAlertT => SystemAlert_objects
  | HandshakeT => Handshake_objects
  | WorkerHandshakeChallengeRequestT => WorkerHandshakeChallengeRequest_objects
  | WorkerHandshakeChallengeT => WorkerHandshakeChallenge_objects
  | WorkerHandshakeAuthenticateT => WorkerHandshakeAuthenticate_objects
  | WorkerHandshakeResultT => WorkerHandshakeResult_objects
  | RuleScopeT => RuleScope_objects
  | AuditMetadataT => AuditMetadata_objects
  | RuleT => Rule_objects
  | TraceStepT => TraceStep_objects
  | DecisionT => Decision_objects
  | BundleMetadataT => BundleMetadata_objects
  | BundleVersionT => BundleVersion_objects
  | BundleT => Bundle_objects
  | JobEvaluationContextT => JobEvaluationContext_objects
  | EdgeEvaluationContextT => EdgeEvaluationContext_objects
  | PolicyEvaluateRequestT => PolicyEvaluateRequest_objects
  | PolicyEvaluateResponseT => PolicyEvaluateResponse_objects
  | PolicyCheckRequestT => PolicyCheckRequest_objects
  | BudgetConstraintsT => BudgetConstraints_objects
  | SandboxProfileT => SandboxProfile_objects
  | ToolchainConstraintsT => ToolchainConstraints_objects
  | DiffConstraintsT => DiffConstraints_objects
  | PolicyConstraintsT => PolicyConstraints_objects
  | PolicyRemediationT => PolicyRemediation_objects
  | PolicyCheckResponseT => PolicyCheckResponse_objects
  | ListSnapshotsRequestT => ListSnapshotsRequest_objects
  | ListSnapshotsResponseT => ListSnapshotsResponse_objects
  | TimestampT => Timestamp_objects
  | StructT => Struct_objects
  | ValueT => Value_objects
  | ListValueT => ListValue_objects
  end.

Definition cap_objects : static_objects cap_class := {|
  so_verify c := mo_verify (objects_of c);
  so_fromObject c := mo_fromObject (objects_of c);
  so_toObject c := mo_toObject (objects_of c)
|}.
