(* ===== verification/CapProto.v ===== *)
(** * The .proto files

    The messages and enums of src/proto/cordum/agent/v1/*.proto, in the forms of
    ProtoFile.v; the well-known types of google.protobuf are those that
    src/node/cap_pb.js has. *)

From S2P Require Import Prelude JsString JsValue PbRuntime StaticCode ProtoFile CapPbClasses.
#[local] Open Scope string_scope.

(** ** Enums *)

Definition JobPriority_proto : list (string * Z) :=
  [("JOB_PRIORITY_UNSPECIFIED", 0); ("JOB_PRIORITY_INTERACTIVE", 1); ("JOB_PRIORITY_BATCH", 2);
   ("JOB_PRIORITY_CRITICAL", 3)].

Definition JobStatus_proto : list (string * Z) :=
  [("JOB_STATUS_UNSPECIFIED", 0); ("JOB_STATUS_PENDING", 1); ("JOB_STATUS_SCHEDULED", 2);
   ("JOB_STATUS_DISPATCHED", 3); ("JOB_STATUS_RUNNING", 4); ("JOB_STATUS_SUCCEEDED", 5);
   ("JOB_STATUS_FAILED", 6); ("JOB_STATUS_CANCELLED", 7); ("JOB_STATUS_DENIED", 8); ("JOB_STATUS_TIMEOUT", 9);
   ("JOB_STATUS_FAILED_RETRYABLE", 10); ("JOB_STATUS_FAILED_FATAL", 11)].

Definition ActorType_proto : list (string * Z) :=
  [("ACTOR_TYPE_UNSPECIFIED", 0); ("ACTOR_TYPE_HUMAN", 1); ("ACTOR_TYPE_SERVICE", 2)].

Definition ErrorCode_proto : list (string * Z) :=
  [("ERROR_CODE_UNSPECIFIED", 0); ("ERROR_CODE_PROTOCOL_VERSION_MISMATCH", 100);
   ("ERROR_CODE_PROTOCOL_MALFORMED_PACKET", 101); ("ERROR_CODE_PROTOCOL_UNKNOWN_PAYLOAD", 102);
   ("ERROR_CODE_PROTOCOL_SIGNATURE_INVALID", 103); ("ERROR_CODE_PROTOCOL_SIGNATURE_MISSING", 104);
   ("ERROR_CODE_JOB_TIMEOUT", 200); ("ERROR_CODE_JOB_RESOURCE_EXHAUSTED", 201);
   ("ERROR_CODE_JOB_PERMISSION_DENIED", 202); ("ERROR_CODE_JOB_INVALID_INPUT", 203);
   ("ERROR_CODE_JOB_NOT_FOUND", 204); ("ERROR_CODE_JOB_DUPLICATE", 205);
   ("ERROR_CODE_JOB_WORKER_UNAVAILABLE", 206); ("ERROR_CODE_SAFETY_DENIED", 300);
   ("ERROR_CODE_SAFETY_POLICY_VIOLATION", 301); ("ERROR_CODE_SAFETY_RISK_TAG_BLOCKED", 302);
   ("ERROR_CODE_TRANSPORT_PUBLISH_FAILED", 400); ("ERROR_CODE_TRANSPORT_SUBSCRIBE_FAILED", 401);
   ("ERROR_CODE_TRANSPORT_CONNECTION_LOST", 402)].

Definition AlertSeverity_proto : list (string * Z) :=
  [("ALERT_SEVERITY_UNSPECIFIED", 0); ("ALERT_SEVERITY_INFO", 1); ("ALERT_SEVERITY_WARNING", 2);
   ("ALERT_SEVERITY_ERROR", 3); ("ALERT_SEVERITY_CRITICAL", 4)].

Definition ComponentRole_proto : list (string * Z) :=
  [("COMPONENT_ROLE_UNSPECIFIED", 0); ("COMPONENT_ROLE_GATEWAY", 1); ("COMPONENT_ROLE_SCHEDULER", 2);
   ("COMPONENT_ROLE_WORKER", 3); ("COMPONENT_ROLE_ORCHESTRATOR", 4); ("COMPONENT_ROLE_CONTROLLER", 5)].

Definition WorkerHandshakePurpose_proto : list (string * Z) :=
  [("WORKER_HANDSHAKE_PURPOSE_UNSPECIFIED", 0); ("WORKER_HANDSHAKE_PURPOSE_ISSUE", 1);
   ("WORKER_HANDSHAKE_PURPOSE_RENEW", 2)].

Definition WorkerHandshakeProofAlgorithm_proto : list (string * Z) :=
  [("WORKER_HANDSHAKE_PROOF_ALGORITHM_UNSPECIFIED", 0);
   ("WORKER_HANDSHAKE_PROOF_ALGORITHM_ECDSA_P256_SHA256", 1)].

Definition WorkerHandshakeRejectionReason_proto : list (string * Z) :=
  [("WORKER_HANDSHAKE_REJECTION_REASON_UNSPECIFIED", 0);
   ("WORKER_HANDSHAKE_REJECTION_REASON_INVALID_REQUEST", 1);
   ("WORKER_HANDSHAKE_REJECTION_REASON_AUTHENTICATION_FAILED", 2);
   ("WORKER_HANDSHAKE_REJECTION_REASON_REPLAY_DETECTED", 3);
   ("WORKER_HANDSHAKE_REJECTION_REASON_CLOCK_SKEW", 4);
   ("WORKER_HANDSHAKE_REJECTION_REASON_CHALLENGE_EXPIRED", 5);
   ("WORKER_HANDSHAKE_REJECTION_REASON_SESSION_REQUIRED", 6);
   ("WORKER_HANDSHAKE_REJECTION_REASON_SESSION_INVALID", 7);
   ("WORKER_HANDSHAKE_REJECTION_REASON_UNSUPPORTED_VERSION", 8);
   ("WORKER_HANDSHAKE_REJECTION_REASON_INTERNAL_ERROR", 9)].

Definition RuleType_proto : list (string * Z) :=
  [("RULE_TYPE_UNSPECIFIED", 0); ("RULE_TYPE_INPUT", 1); ("RULE_TYPE_OUTPUT", 2); ("RULE_TYPE_VELOCITY", 3);
   ("RULE_TYPE_EDGE", 4)].

Definition RuleStatus_proto : list (string * Z) :=
  [("RULE_STATUS_UNSPECIFIED", 0); ("RULE_STATUS_DRAFT", 1); ("RULE_STATUS_PUBLISHED", 2);
   ("RULE_STATUS_DEPRECATED", 3)].

Definition DecisionSource_proto : list (string * Z) :=
  [("DECISION_SOURCE_UNSPECIFIED", 0); ("DECISION_SOURCE_JOB", 1); ("DECISION_SOURCE_EDGE", 2)].

Definition RuleScopeKind_proto : list (string * Z) :=
  [("RULE_SCOPE_KIND_UNSPECIFIED", 0); ("RULE_SCOPE_KIND_GLOBAL", 1); ("RULE_SCOPE_KIND_TENANT", 2);
   ("RULE_SCOPE_KIND_WORKFLOW", 3); ("RULE_SCOPE_KIND_EDGE_FLEET", 4); ("RULE_SCOPE_KIND_EDGE_USER", 5)].

Definition EdgeMode_proto : list (string * Z) :=
  [("EDGE_MODE_UNSPECIFIED", 0); ("EDGE_MODE_OBSERVE", 1); ("EDGE_MODE_ENFORCE", 2);
   ("EDGE_MODE_ENTERPRISE_STRICT", 3)].

Definition DecisionType_proto : list (string * Z) :=
  [("DECISION_TYPE_UNSPECIFIED", 0); ("DECISION_TYPE_ALLOW", 1); ("DECISION_TYPE_DENY", 2);
   ("DECISION_TYPE_REQUIRE_HUMAN", 3); ("DECISION_TYPE_THROTTLE", 4);
   ("DECISION_TYPE_ALLOW_WITH_CONSTRAINTS", 5); ("DECISION_TYPE_QUARANTINE", 6); ("DECISION_TYPE_REDACT", 7)].

(** ** Messages *)

(** The message types of a file with their fields. *)
Definition proto_file : Type := list (cap_class * list (proto_field cap_class)).

Definition alert_proto : proto_file :=
  [(SystemAlertT,
     [PField 1 "level" (Scalar "string") Singular None; PField 2 "message" (Scalar "string") Singular None;
      PField 3 "component" (Scalar "string") Singular None; PField 4 "code" (Scalar "string") Singular None;
      PField 5 "severity" (EnumType AlertSeverity_proto) Singular None;
      PField 6 "error_code_enum" (EnumType ErrorCode_proto) Singular None;
      PField 7 "source_component" (Scalar "string") Singular None;
      PField 8 "details" (Scalar "string") Mapped None; PField 9 "trace_id" (Scalar "string") Singular None])].

Definition buspacket_proto : proto_file :=
  [(BusPacketT,
     [PField 1 "trace_id" (Scalar "string") Singular None;
      PField 2 "sender_id" (Scalar "string") Singular None;
      PField 3 "created_at" (MessageType TimestampT) Singular None;
      PField 4 "protocol_version" (Scalar "int32") Singular None;
      PField 5 "signature_metadata" (MessageType SignatureMetadataT) Singular None;
      PField 6 "identity" (MessageType IdentityBindingT) Singular None;
      PField 10 "job_request" (MessageType JobRequestT) Singular (Some "payload");
      PField 11 "job_result" (MessageType JobResultT) Singular (Some "payload");
      PField 12 "heartbeat" (MessageType HeartbeatT) Singular (Some "payload");
      PField 13 "alert" (MessageType SystemAlertT) Singular (Some "payload");
      PField 15 "job_progress" (MessageType JobProgressT) Singular (Some "payload");
      PField 16 "job_cancel" (MessageType JobCancelT) Singular (Some "payload");
      PField 17 "handshake" (MessageType HandshakeT) Singular (Some "payload");
      PField 19 "worker_handshake_challenge_request" (MessageType WorkerHandshakeChallengeRequestT) Singular (Some "payload");
      PField 20 "worker_handshake_challenge" (MessageType WorkerHandshakeChallengeT) Singular (Some "payload");
      PField 21 "worker_handshake_authenticate" (MessageType WorkerHandshakeAuthenticateT) Singular (Some "payload");
      PField 22 "worker_handshake_result" (MessageType WorkerHandshakeResultT) Singular (Some "payload");
      PField 14 "signature" (Scalar "bytes") Singular None;
      PField 18 "auth_token" (Scalar "string") Singular None]);
   (SignatureMetadataT,
     [PField 1 "profile_version" (Scalar "string") Singular None;
      PField 2 "algorithm" (Scalar "string") Singular None;
      PField 3 "message_id" (Scalar "bytes") Singular None;
      PField 4 "audience" (Scalar "string") Singular None;
      PField 5 "expires_at" (MessageType TimestampT) Singular None;
      PField 6 "key_id" (Scalar "string") Singular None])].

Definition handshake_proto : proto_file :=
  [(HandshakeT,
     [PField 1 "component_id" (Scalar "string") Singular None;
      PField 2 "role" (EnumType ComponentRole_proto) Singular None;
      PField 3 "supported_versions" (Scalar "int32") Repeated None;
      PField 4 "capabilities" (Scalar "bool") Mapped None;
      PField 5 "sdk_version" (Scalar "string") Singular None;
      PField 6 "ready_topics" (Scalar "string") Repeated None;
      PField 7 "agent_name" (Scalar "string") Singular None]);
   (WorkerHandshakeChallengeRequestT,
     [PField 1 "request_id" (Scalar "string") Singular None;
      PField 2 "trace_id" (Scalar "string") Singular None;
      PField 3 "worker_id" (Scalar "string") Singular None;
      PField 4 "proof_key_id" (Scalar "string") Singular None;
      PField 5 "proof_algorithm" (EnumType WorkerHandshakeProofAlgorithm_proto) Singular None;
      PField 6 "audience" (Scalar "string") Singular None;
      PField 7 "purpose" (EnumType WorkerHandshakePurpose_proto) Singular None;
      PField 8 "client_nonce" (Scalar "bytes") Singular None;
      PField 9 "protocol_version" (Scalar "int32") Singular None;
      PField 10 "sdk_version" (Scalar "string") Singular None]);
   (WorkerHandshakeChallengeT,
     [PField 1 "request_id" (Scalar "string") Singular None;
      PField 2 "challenge_id" (Scalar "string") Singular None;
      PField 3 "trace_id" (Scalar "string") Singular None;
      PField 4 "worker_id" (Scalar "string") Singular None;
      PField 5 "agent_id" (Scalar "string") Singular None;
      PField 6 "tenant_id" (Scalar "string") Singular None;
      PField 7 "proof_key_id" (Scalar "string") Singular None;
      PField 8 "proof_algorithm" (EnumType WorkerHandshakeProofAlgorithm_proto) Singular None;
      PField 9 "server_key_id" (Scalar "string") Singular None;
      PField 10 "audience" (Scalar "string") Singular None;
      PField 11 "purpose" (EnumType WorkerHandshakePurpose_proto) Singular None;
      PField 12 "client_nonce" (Scalar "bytes") Singular None;
      PField 13 "server_nonce" (Scalar "bytes") Singular None;
      PField 14 "protocol_version" (Scalar "int32") Singular None;
      PField 15 "sdk_version" (Scalar "string") Singular None;
      PField 16 "issued_at" (MessageType TimestampT) Singular None;
      PField 17 "expires_at" (MessageType TimestampT) Singular None]);
   (WorkerHandshakeAuthenticateT,
     [PField 1 "challenge" (MessageType WorkerHandshakeChallengeT) Singular None;
      PField 2 "capability_handshake" (MessageType HandshakeT) Singular None]);
   (WorkerHandshakeResultT,
     [PField 1 "challenge" (MessageType WorkerHandshakeChallengeT) Singular None;
      PField 2 "accepted" (Scalar "bool") Singular None;
      PField 3 "rejection_reason" (EnumType WorkerHandshakeRejectionReason_proto) Singular None;
      PField 4 "token_expires_at" (MessageType TimestampT) Singular None;
      PField 5 "issued_at" (MessageType TimestampT) Singular None])].

Definition heartbeat_proto : proto_file :=
  [(HeartbeatT,
     [PField 1 "worker_id" (Scalar "string") Singular None; PField 2 "region" (Scalar "string") Singular None;
      PField 3 "type" (Scalar "string") Singular None; PField 4 "cpu_load" (Scalar "float") Singular None;
      PField 5 "gpu_utilization" (Scalar "float") Singular None;
      PField 6 "active_jobs" (Scalar "int32") Singular None;
      PField 7 "capabilities" (Scalar "string") Repeated None;
      PField 11 "pool" (Scalar "string") Singular None;
      PField 12 "max_parallel_jobs" (Scalar "int32") Singular None;
      PField 13 "labels" (Scalar "string") Mapped None; PField 14 "memory_load" (Scalar "float") Singular None;
      PField 15 "progress_pct" (Scalar "int32") Singular None;
      PField 16 "last_memo" (Scalar "string") Singular None;
      PField 18 "auth_token" (Scalar "string") Singular None;
      PField 19 "agent_name" (Scalar "string") Singular None])].

Definition job_proto : proto_file :=
  [(IdentityBindingT,
     [PField 1 "tenant_id" (Scalar "string") Singular None;
      PField 2 "principal_id" (Scalar "string") Singular None;
      PField 3 "actor_id" (Scalar "string") Singular None;
      PField 4 "delegation_id" (Scalar "string") Singular None]);
   (DispatchIdentityT,
     [PField 1 "dispatch_id" (Scalar "string") Singular None;
      PField 2 "attempt" (Scalar "uint64") Singular None;
      PField 3 "assigned_worker_id" (Scalar "string") Singular None]);
   (ResourceRefT,
     [PField 1 "resolver_id" (Scalar "string") Singular None; PField 2 "uri" (Scalar "string") Singular None;
      PField 3 "sha256" (Scalar "bytes") Singular None; PField 4 "media_type" (Scalar "string") Singular None;
      PField 5 "size_bytes" (Scalar "uint64") Singular None;
      PField 6 "expires_at" (MessageType TimestampT) Singular None;
      PField 7 "purpose" (Scalar "string") Singular None]);
   (ContextHintsT,
     [PField 1 "max_input_tokens" (Scalar "int32") Singular None;
      PField 2 "allow_summarization" (Scalar "bool") Singular None;
      PField 3 "allow_retrieval" (Scalar "bool") Singular None;
      PField 4 "tags" (Scalar "string") Repeated None]);
   (BudgetT,
     [PField 1 "max_input_tokens" (Scalar "int64") Singular None;
      PField 2 "max_output_tokens" (Scalar "int64") Singular None;
      PField 3 "max_total_tokens" (Scalar "int64") Singular None;
      PField 4 "deadline_ms" (Scalar "int64") Singular None]);
   (JobMetadataT,
     [PField 1 "tenant_id" (Scalar "string") Singular None;
      PField 2 "actor_id" (Scalar "string") Singular None;
      PField 3 "actor_type" (EnumType ActorType_proto) Singular None;
      PField 4 "idempotency_key" (Scalar "string") Singular None;
      PField 5 "capability" (Scalar "string") Singular None;
      PField 6 "risk_tags" (Scalar "string") Repeated None;
      PField 7 "requires" (Scalar "string") Repeated None; PField 8 "pack_id" (Scalar "string") Singular None;
      PField 9 "labels" (Scalar "string") Mapped None]);
   (CompensationT,
     [PField 1 "topic" (Scalar "string") Singular None; PField 2 "context_ptr" (Scalar "string") Singular None;
      PField 3 "priority" (EnumType JobPriority_proto) Singular None;
      PField 4 "adapter_id" (Scalar "string") Singular None; PField 5 "env" (Scalar "string") Mapped None;
      PField 6 "memory_id" (Scalar "string") Singular None;
      PField 7 "context_hints" (MessageType ContextHintsT) Singular None;
      PField 8 "budget" (MessageType BudgetT) Singular None;
      PField 9 "tenant_id" (Scalar "string") Singular None;
      PField 10 "principal_id" (Scalar "string") Singular None;
      PField 11 "labels" (Scalar "string") Mapped None;
      PField 12 "meta" (MessageType JobMetadataT) Singular None;
      PField 13 "identity" (MessageType IdentityBindingT) Singular None;
      PField 14 "dispatch" (MessageType DispatchIdentityT) Singular None;
      PField 15 "context_ref" (MessageType ResourceRefT) Singular None]);
   (JobRequestT,
     [PField 1 "job_id" (Scalar "string") Singular None; PField 2 "topic" (Scalar "string") Singular None;
      PField 3 "priority" (EnumType JobPriority_proto) Singular None;
      PField 4 "context_ptr" (Scalar "string") Singular None;
      PField 5 "adapter_id" (Scalar "string") Singular None; PField 6 "env" (Scalar "string") Mapped None;
      PField 7 "parent_job_id" (Scalar "string") Singular None;
      PField 8 "workflow_id" (Scalar "string") Singular None;
      PField 9 "step_index" (Scalar "int32") Singular None;
      PField 10 "memory_id" (Scalar "string") Singular None;
      PField 11 "context_hints" (MessageType ContextHintsT) Singular None;
      PField 12 "budget" (MessageType BudgetT) Singular None;
      PField 13 "tenant_id" (Scalar "string") Singular None;
      PField 14 "principal_id" (Scalar "string") Singular None;
      PField 15 "labels" (Scalar "string") Mapped None;
      PField 16 "meta" (MessageType JobMetadataT) Singular None;
      PField 17 "compensation" (MessageType CompensationT) Singular None;
      PField 18 "identity" (MessageType IdentityBindingT) Singular None;
      PField 19 "dispatch" (MessageType DispatchIdentityT) Singular None;
      PField 20 "context_ref" (MessageType ResourceRefT) Singular None]);
   (JobResultT,
     [PField 1 "job_id" (Scalar "string") Singular None;
      PField 2 "status" (EnumType JobStatus_proto) Singular None;
      PField 3 "result_ptr" (Scalar "string") Singular None;
      PField 4 "worker_id" (Scalar "string") Singular None;
      PField 5 "execution_ms" (Scalar "int64") Singular None;
      PField 6 "error_code" (Scalar "string") Singular None;
      PField 7 "error_message" (Scalar "string") Singular None;
      PField 8 "artifact_ptrs" (Scalar "string") Repeated None;
      PField 9 "error_code_enum" (EnumType ErrorCode_proto) Singular None;
      PField 10 "dispatch" (MessageType DispatchIdentityT) Singular None;
      PField 11 "identity" (MessageType IdentityBindingT) Singular None;
      PField 12 "result_ref" (MessageType ResourceRefT) Singular None;
      PField 13 "artifact_refs" (MessageType ResourceRefT) Repeated None]);
   (JobProgressT,
     [PField 1 "job_id" (Scalar "string") Singular None; PField 2 "step_id" (Scalar "string") Singular None;
      PField 3 "percent" (Scalar "int32") Singular None; PField 4 "message" (Scalar "string") Singular None;
      PField 5 "result_ptr" (Scalar "string") Singular None;
      PField 6 "artifact_ptrs" (Scalar "string") Repeated None;
      PField 7 "status" (EnumType JobStatus_proto) Singular None;
      PField 8 "dispatch" (MessageType DispatchIdentityT) Singular None;
      PField 9 "identity" (MessageType IdentityBindingT) Singular None;
      PField 10 "result_ref" (MessageType ResourceRefT) Singular None;
      PField 11 "artifact_refs" (MessageType ResourceRefT) Repeated None]);
   (JobCancelT,
     [PField 1 "job_id" (Scalar "string") Singular None; PField 2 "reason" (Scalar "string") Singular None;
      PField 3 "requested_by" (Scalar "string") Singular None;
      PField 4 "dispatch" (MessageType DispatchIdentityT) Singular None;
      PField 5 "identity" (MessageType IdentityBindingT) Singular None])].

Definition policy_proto : proto_file :=
  [(RuleScopeT,
     [PField 1 "kind" (EnumType RuleScopeKind_proto) Singular None;
      PField 2 "value" (Scalar "string") Singular None]);
   (AuditMetadataT,
     [PField 1 "created_at" (MessageType TimestampT) Singular None;
      PField 2 "created_by" (Scalar "string") Singular None;
      PField 3 "updated_at" (MessageType TimestampT) Singular None;
      PField 4 "updated_by" (Scalar "string") Singular None]);
   (RuleT,
     [PField 1 "id" (Scalar "string") Singular None; PField 2 "name" (Scalar "string") Singular None;
      PField 3 "type" (EnumType RuleType_proto) Singular None;
      PField 4 "scope" (MessageType RuleScopeT) Singular None;
      PField 5 "status" (EnumType RuleStatus_proto) Singular None;
      PField 6 "version" (Scalar "string") Singular None;
      PField 7 "audit" (MessageType AuditMetadataT) Singular None;
      PField 8 "match" (MessageType StructT) Singular None;
      PField 9 "decide" (MessageType StructT) Singular None;
      PField 10 "description" (Scalar "string") Singular None]);
   (TraceStepT,
     [PField 1 "rule_id" (Scalar "string") Singular None; PField 2 "bundle_id" (Scalar "string") Singular None;
      PField 3 "decision_type" (EnumType DecisionType_proto) Singular None;
      PField 4 "reason" (Scalar "string") Singular None;
      PField 5 "timestamp" (MessageType TimestampT) Singular None;
      PField 6 "constraints" (MessageType StructT) Singular None]);
   (DecisionT,
     [PField 1 "source" (EnumType DecisionSource_proto) Singular None;
      PField 2 "rule_id" (Scalar "string") Singular None; PField 3 "bundle_id" (Scalar "string") Singular None;
      PField 4 "bundle_version" (Scalar "string") Singular None;
      PField 5 "type" (EnumType DecisionType_proto) Singular None;
      PField 6 "trace" (MessageType TraceStepT) Repeated None;
      PField 7 "input_ref" (Scalar "string") Singular None;
      PField 8 "output_ref" (Scalar "string") Singular None;
      PField 9 "audit_hash" (Scalar "string") Singular None;
      PField 10 "timestamp" (MessageType TimestampT) Singular None]);
   (BundleMetadataT,
     [PField 1 "edge_mode" (EnumType EdgeMode_proto) Singular None]);
   (BundleVersionT,
     [PField 1 "version" (Scalar "string") Singular None;
      PField 2 "rule_snapshot" (MessageType RuleT) Repeated None;
      PField 3 "deployed_at" (MessageType TimestampT) Singular None;
      PField 4 "audit_hash" (Scalar "string") Singular None]);
   (BundleT,
     [PField 1 "id" (Scalar "string") Singular None; PField 2 "name" (Scalar "string") Singular None;
      PField 3 "rule_ids" (Scalar "string") Repeated None;
      PField 4 "scope_binding" (MessageType RuleScopeT) Singular None;
      PField 5 "versions" (MessageType BundleVersionT) Repeated None;
      PField 6 "metadata" (MessageType BundleMetadataT) Singular None]);
   (JobEvaluationContextT,
     [PField 1 "tenant_id" (Scalar "string") Singular None; PField 2 "job_id" (Scalar "string") Singular None;
      PField 3 "workflow_id" (Scalar "string") Singular None; PField 4 "topic" (Scalar "string") Singular None;
      PField 5 "principal_id" (Scalar "string") Singular None; PField 6 "labels" (Scalar "string") Mapped None;
      PField 7 "memory_id" (Scalar "string") Singular None;
      PField 8 "capability" (Scalar "string") Singular None;
      PField 9 "risk_tags" (Scalar "string") Repeated None;
      PField 20 "input_content" (Scalar "bytes") Singular None;
      PField 21 "input_content_type" (Scalar "string") Singular None;
      PField 22 "input_size_bytes" (Scalar "int64") Singular None]);
   (EdgeEvaluationContextT,
     [PField 1 "tenant_id" (Scalar "string") Singular None;
      PField 2 "principal_id" (Scalar "string") Singular None;
      PField 3 "session_id" (Scalar "string") Singular None;
      PField 4 "execution_id" (Scalar "string") Singular None;
      PField 5 "agent_product" (Scalar "string") Singular None;
      PField 6 "tool_name" (Scalar "string") Singular None;
      PField 7 "tool_input_redacted" (MessageType StructT) Singular None;
      PField 8 "input_hash" (Scalar "string") Singular None;
      PField 9 "tool_input_hash" (Scalar "string") Singular None;
      PField 10 "labels" (Scalar "string") Mapped None; PField 11 "risk_tags" (Scalar "string") Repeated None]);
   (PolicyEvaluateRequestT,
     [PField 1 "rule" (MessageType RuleT) Singular None; PField 2 "bundle_id" (Scalar "string") Singular None;
      PField 3 "scope" (MessageType RuleScopeT) Singular None;
      PField 10 "job_context" (MessageType JobEvaluationContextT) Singular None;
      PField 11 "edge_context" (MessageType EdgeEvaluationContextT) Singular None]);
   (PolicyEvaluateResponseT,
     [PField 1 "decision" (MessageType DecisionT) Singular None])].

Definition safety_proto : proto_file :=
  [(PolicyCheckRequestT,
     [PField 1 "job_id" (Scalar "string") Singular None; PField 2 "topic" (Scalar "string") Singular None;
      PField 3 "tenant" (Scalar "string") Singular None;
      PField 4 "priority" (EnumType JobPriority_proto) Singular None;
      PField 5 "estimated_cost" (Scalar "double") Singular None;
      PField 6 "budget" (MessageType BudgetT) Singular None;
      PField 7 "principal_id" (Scalar "string") Singular None; PField 8 "labels" (Scalar "string") Mapped None;
      PField 9 "memory_id" (Scalar "string") Singular None;
      PField 10 "effective_config" (Scalar "bytes") Singular None;
      PField 11 "meta" (MessageType JobMetadataT) Singular None;
      PField 12 "identity" (MessageType IdentityBindingT) Singular None;
      PField 13 "input_ref" (MessageType ResourceRefT) Singular None;
      PField 20 "input_content" (Scalar "bytes") Singular None;
      PField 21 "input_content_type" (Scalar "string") Singular None;
      PField 22 "input_size_bytes" (Scalar "int64") Singular None]);
   (BudgetConstraintsT,
     [PField 1 "max_runtime_ms" (Scalar "int64") Singular None;
      PField 2 "max_retries" (Scalar "int32") Singular None;
      PField 3 "max_artifact_bytes" (Scalar "int64") Singular None;
      PField 4 "max_concurrent_jobs" (Scalar "int32") Singular None]);
   (SandboxProfileT,
     [PField 1 "isolated" (Scalar "bool") Singular None;
      PField 2 "network_allowlist" (Scalar "string") Repeated None;
      PField 3 "fs_read_only" (Scalar "string") Repeated None;
      PField 4 "fs_read_write" (Scalar "string") Repeated None]);
   (ToolchainConstraintsT,
     [PField 1 "allowed_tools" (Scalar "string") Repeated None;
      PField 2 "allowed_commands" (Scalar "string") Repeated None]);
   (DiffConstraintsT,
     [PField 1 "max_files" (Scalar "int32") Singular None; PField 2 "max_lines" (Scalar "int32") Singular None;
      PField 3 "deny_path_globs" (Scalar "string") Repeated None]);
   (PolicyConstraintsT,
     [PField 1 "budgets" (MessageType BudgetConstraintsT) Singular None;
      PField 2 "sandbox" (MessageType SandboxProfileT) Singular None;
      PField 3 "toolchain" (MessageType ToolchainConstraintsT) Singular None;
      PField 4 "diff" (MessageType DiffConstraintsT) Singular None;
      PField 5 "redaction_level" (Scalar "string") Singular None]);
   (PolicyRemediationT,
     [PField 1 "id" (Scalar "string") Singular None; PField 2 "title" (Scalar "string") Singular None;
      PField 3 "summary" (Scalar "string") Singular None;
      PField 4 "replacement_topic" (Scalar "string") Singular None;
      PField 5 "replacement_capability" (Scalar "string") Singular None;
      PField 6 "add_labels" (Scalar "string") Mapped None;
      PField 7 "remove_labels" (Scalar "string") Repeated None]);
   (PolicyCheckResponseT,
     [PField 1 "decision" (EnumType DecisionType_proto) Singular None;
      PField 2 "reason" (Scalar "string") Singular None;
      PField 3 "redacted_context_ptr" (Scalar "string") Singular None;
      PField 4 "policy_snapshot" (Scalar "string") Singular None;
      PField 5 "rule_id" (Scalar "string") Singular None;
      PField 6 "constraints" (MessageType PolicyConstraintsT) Singular None;
      PField 7 "approval_required" (Scalar "bool") Singular None;
      PField 8 "approval_ref" (Scalar "string") Singular None;
      PField 9 "remediations" (MessageType PolicyRemediationT) Repeated None;
      PField 10 "redacted_context_ref" (MessageType ResourceRefT) Singular None;
      PField 11 "identity" (MessageType IdentityBindingT) Singular None]);
   (ListSnapshotsRequestT, []);
   (ListSnapshotsResponseT,
     [PField 1 "snapshots" (Scalar "string") Repeated None])].

(** The well-known types, which the .proto files import and do not declare: their
    fields as cap_pb.js has them. *)
Definition google_proto : proto_file :=
  [(TimestampT,
     [PField 1 "seconds" (Scalar "int64") Singular None; PField 2 "nanos" (Scalar "int32") Singular None]);
   (StructT,
     [PField 1 "fields" (MessageType ValueT) Mapped None]);
   (ValueT,
     [PField 1 "null_value" (EnumType NullValue) Singular (Some "kind");
      PField 2 "number_value" (Scalar "double") Singular (Some "kind");
      PField 3 "string_value" (Scalar "string") Singular (Some "kind");
      PField 4 "bool_value" (Scalar "bool") Singular (Some "kind");
      PField 5 "struct_value" (MessageType StructT) Singular (Some "kind");
      PField 6 "list_value" (MessageType ListValueT) Singular (Some "kind")]);
   (ListValueT,
     [PField 1 "values" (MessageType ValueT) Repeated None])].

Definition proto_files : proto_file := concat [alert_proto; buspacket_proto; handshake_proto; heartbeat_proto; job_proto; policy_proto; safety_proto; google_proto].

Definition cap_proto (c : cap_class) : list (proto_field cap_class) :=
  match List.find (fun p => bool_decide (p.1 = c)) proto_files with Some p => p.2 | None => [] end.

(** The enums of the files, beside those of cap_pb.js. *)
Definition cap_enums : list (list (string * Z) * list (string * Z)) :=
  [(JobPriority_proto, JobPriority); (JobStatus_proto, JobStatus); (ActorType_proto, ActorType);
   (ErrorCode_proto, ErrorCode); (AlertSeverity_proto, AlertSeverity); (ComponentRole_proto, ComponentRole);
   (WorkerHandshakePurpose_proto, WorkerHandshakePurpose);
   (WorkerHandshakeProofAlgorithm_proto, WorkerHandshakeProofAlgorithm);
   (WorkerHandshakeRejectionReason_proto, WorkerHandshakeRejectionReason); (RuleType_proto, RuleType);
   (RuleStatus_proto, RuleStatus); (DecisionSource_proto, DecisionSource);
   (RuleScopeKind_proto, RuleScopeKind); (EdgeMode_proto, EdgeMode); (DecisionType_proto, DecisionType)].

Definition proto_enums : list (string * list (string * Z)) :=
  [("JobPriority", JobPriority_proto); ("JobStatus", JobStatus_proto); ("ActorType", ActorType_proto);
   ("ErrorCode", ErrorCode_proto); ("AlertSeverity", AlertSeverity_proto);
   ("ComponentRole", ComponentRole_proto); ("WorkerHandshakePurpose", WorkerHandshakePurpose_proto);
   ("WorkerHandshakeProofAlgorithm", WorkerHandshakeProofAlgorithm_proto);
   ("WorkerHandshakeRejectionReason", WorkerHandshakeRejectionReason_proto); ("RuleType", RuleType_proto);
   ("RuleStatus", RuleStatus_proto); ("DecisionSource", DecisionSource_proto);
   ("RuleScopeKind", RuleScopeKind_proto); ("EdgeMode", EdgeMode_proto); ("DecisionType", DecisionType_proto)].
