(* ===== verification/CapPb.v ===== *)
(** * cap_pb.js

    The theorems about src/node/cap_pb.js, the tables of which are in
    CapPbClasses.v, CapPbCodec.v and CapPbObjects.v: the tables match, so the
    theorems of the Static files hold for every class. *)

From stdpp Require Import sorting.
From S2P Require Import Prelude JsString JsValue PbRuntime StaticCode StaticWire StaticRoundTrip StaticObjects StaticVerify StaticObjectTrip StaticSafety StaticEnds ProtoFile ProtoGenerate ProtoValid CapPbClasses CapPbCodec CapPbObjects CapProto.

(** ** The tables *)

Lemma for_all_classes (f : cap_class -> bool) : forallb f all_classes = true -> forall c, f c = true.
Proof. rewrite forallb_forall. intros H c. apply H, all_classes_complete. Qed.

Lemma cap_tables c : tables_ok cap_pb c = true.
Proof. revert c. apply for_all_classes. vm_compute. reflexivity. Qed.

Lemma cap_object_tables c : objects_ok cap_pb cap_objects c = true.
Proof. revert c. apply for_all_classes. vm_compute. reflexivity. Qed.

Lemma cap_tests c : tests_ok [] (so_verify cap_objects c) = true.
Proof. revert c. apply for_all_classes. vm_compute. reflexivity. Qed.

Lemma cap_covered c : covered_ok cap_pb cap_objects c = true.
Proof. revert c. apply for_all_classes. vm_compute. reflexivity. Qed.

Lemma cap_checks c : checks_for [] (cap_proto c) = Some (so_verify cap_objects c).
Proof. destruct c; vm_compute; reflexivity. Qed.

(** ** The classes *)

Section Classes.
Context (rt : pb_runtime) `{!PbLaws rt}.

(** C3.  What [encode] of a class of cap_pb.js writes for a message whose fields
    hold values of their types is read back by [decode]: the result is an
    instance of the class that agrees with the message in every field, also
    inside nested messages, lists and maps.  The same holds of
    [encodeDelimited] and [decodeDelimited], whatever follows the message. *)
Theorem cap_roundtrip n c m rest :
  typed cap_pb rt n c m -> Z.of_nat n <= rt_recursionLimit rt + 1 -> Z.of_nat n <= rt_readLimit rt + 1 ->
  zlen (emit rt (doc_of cap_pb n c m)) < 2 ^ 32 ->
  (exists bs m', encode cap_pb rt c m = Ok bs /\ decode cap_pb rt c bs = Ok m' /\ agrees cap_pb rt n c m m') /\
  (exists bs m', encodeDelimited cap_pb rt c m = Ok bs /\ decodeDelimited cap_pb rt c (bs ++ rest) = Ok m' /\
     agrees cap_pb rt n c m m').
Proof.
  intros Hty Hl Hrl Hs. split; [|by apply (decodeDelimited_encodeDelimited cap_pb rt cap_tables)].
  destruct (decode_encode cap_pb rt cap_tables n c m Hty Hl Hrl Hs) as (He & m' & Hd & Ha). eauto.
Qed.

(** C19.  [toObject] of a message whose fields hold values of their types and that
    is not deeper than the limit, with options that do not ask for default
    values, for bytes as arrays or, where Long is loaded, for longs as numbers,
    gives a plain object, and [fromObject] makes of it an instance of the class
    that agrees with the message. *)
Theorem cap_objects_roundtrip options n c m :
  options_ok rt options -> typed cap_pb rt n c m -> Z.of_nat n <= rt_recursionLimit rt + 1 ->
  exists o m', toObject cap_objects rt c m options = Ok (JPlain o) /\
    fromObject cap_pb cap_objects rt c (JPlain o) = Ok m' /\ agrees cap_pb rt n c m m'.
Proof. intros. by apply (fromObject_toObject cap_pb cap_objects rt cap_tables cap_object_tables). Qed.

(** C29.  [verify] returns [null] exactly for the objects that pass the tests
    that the .proto declaration asks for: every own field that is not null or
    undefined passes the test of its declared type (an integer of any size for a
    32-bit type, an integer or anything with integer [low] and [high] for a
    64-bit type, a string or anything with a numeric [length] for [bytes], a
    declared number for an enum), lists and maps do in every element, nested
    messages do and are not deeper than the limit, and at most one member of each
    oneof is set. *)
Theorem cap_verify_iff c m :
  verify cap_objects rt c m = Ok None <-> declared cap_proto (Z.to_nat (rt_recursionLimit rt + 1)) c m.
Proof. apply (verify_declared rt cap_objects cap_proto cap_checks c m cap_tests). Qed.

(** C16.  [verify] covers what [encode] relies on: when [verify] accepts a
    message whose objects are literals or instances of the module, [encode]
    either returns bytes or throws the exception that the library's writer
    throws for one scalar found in the message, which passed the check of its
    type; nothing else can go wrong. *)
Theorem cap_verified_encodes c m :
  verify cap_objects rt c m = Ok None -> made cap_pb rt m ->
  (exists bs, encode cap_pb rt c m = Ok bs) \/
  exists e t (ck : check cap_class) v, encode cap_pb rt c m = Throw e /\ within v m /\
    scalar_checked t ck = true /\ check_holds rt ck v = true /\ rt_write rt t v = Throw e.
Proof.
  intros Hv Hm. destruct (verify_encode cap_pb cap_objects rt cap_covered cap_tests c m Hv Hm) as [H|(e & He & t & ck & v & H)];
    [by left | right]. by exists e, t, ck, v.
Qed.

(** C30.  The functions of every class return or throw on every input: [decode]
    reads at least one byte in each turn of its loops, the others stop at the
    recursion limit. *)
Theorem cap_ends c (data : bytes) (m : jsval) (options : to_options) :
  decode cap_pb rt c data <> NoFuel /\ encode cap_pb rt c m <> NoFuel /\ verify cap_objects rt c m <> NoFuel /\
  fromObject cap_pb cap_objects rt c m <> NoFuel /\ toObject cap_objects rt c m options <> NoFuel.
Proof.
  split; [by apply decode_ends|]. split; [by apply encode_ends|]. split; [by apply verify_ends|].
  split; [by apply fromObject_ends | by apply toObject_ends].
Qed.
End Classes.

(** ** The declarations *)

(** C9.  cap_pb.js is the code that the .proto files ask for: for each class the
    constructor, the prototype, the oneofs and the statements of [encode],
    [decode], [verify], [fromObject] and [toObject] are those of its fields, in
    the order of the declaration or of the field numbers, and the enum objects
    have the declared values.  The declarations of the google.protobuf classes
    are not among the .proto files of the repository and are taken from cap_pb.js
    itself. *)
Theorem cap_matches_proto c :
  let fields := cap_proto c in
  let ordered := merge_sort number_le fields in
  sm_init cap_pb c = omap init_for fields /\
  (forall long, sm_prototype cap_pb c long = prototype_for long fields) /\
  sm_oneofs cap_pb c = oneof_groups fields /\
  mapM enc_for ordered = Some (sm_encode cap_pb c) /\
  mapM dec_for fields = Some (sm_decode cap_pb c) /\
  checks_for [] fields = Some (so_verify cap_objects c) /\
  mapM convert_for fields = Some (so_fromObject cap_objects c) /\
  to_object_for ordered = Some (so_toObject cap_objects c) /\
  Forall (fun p => p.1 = p.2) cap_enums.
Proof.
  cbv zeta. split; [destruct c; vm_compute; reflexivity|]. split; [intros []; destruct c; vm_compute; reflexivity|].
  do 5 (split; [destruct c; vm_compute; reflexivity|]). split; [destruct c; vm_compute; reflexivity|].
  vm_compute. repeat (constructor; [reflexivity|]). constructor.
Qed.
