(* ===== verification/CapSigning.v ===== *)
(** * The generated codec and the production profile

    cap_pb.js as the codec of the SDK: what its BusPacket class encodes passes
    the closed wire of the production profile, and a packet signed over its
    encoding verifies over its decoding.  The laws that the SDK's theorems ask
    of a codec hold of the generated one. *)

From S2P Require Import Prelude JsString JsValue Codec WireSchema ProductionSigning ProductionProducer PbRuntime StaticCode StaticWire StaticRoundTrip StaticObjects StaticSafety ProtoFile ProtoClosed CapPbClasses CapPbCodec CapPbObjects CapProto CapPb.

(** ** Declarations *)

Lemma cap_declared c : proto_ok cap_pb cap_proto c = true.
Proof. revert c. apply for_all_classes. vm_compute. reflexivity. Qed.

(** The reflection type of a class; the types below BusPacket are at most six
    levels deep. *)
Definition cap_schema (n : nat) (c : cap_class) : msg_type := schema_of cap_name cap_proto n c.

Section Codec.
Context (rt : pb_runtime).

Definition cap_verify_type (m : jsval) : option jsstr :=
  match StaticObjects.verify cap_objects rt BusPacketT m with Ok e => e | _ => None end.

Definition cap_producer (n : nat) : producer_type := {|
  pd_schema := cap_schema n BusPacketT;
  create := construct cap_pb rt BusPacketT;
  verify_type := cap_verify_type;
  ProductionProducer.encode := StaticCode.encode cap_pb rt BusPacketT
|}.

Definition cap_packet_type (n : nat) : packet_type := {|
  pt_schema := cap_schema n BusPacketT;
  pt_decode := decode cap_pb rt BusPacketT
|}.
End Codec.

(** ** Defaults *)

Section Defaults.
Context (rt : pb_runtime).

(** The values that the prototypes give a name. *)
Definition prototypes (k : string) (test : jsval -> bool) : bool :=
  negb (String.eqb k "constructor") &&
  forallb (fun c => forallb (fun long => forallb (fun p => negb (String.eqb p.1 k) || test p.2) (sm_prototype cap_pb c long)) [true; false]) all_classes.

(** An object literal or an instance. *)
Definition rooted (m : jsval) : Prop :=
  exists own inh, m = JObj own inh /\ (inh = [] \/ exists c, inh = prototype cap_pb rt c).

Lemma made_rooted m : made cap_pb rt m -> isPlainObject m = true -> rooted m.
Proof. destruct m as [| | | | | | | |own inh]; try done. intros [Hi _] _. by exists own, inh. Qed.

Lemma unset_default m k test :
  prototypes k test = true -> test JUndef = true -> test JNull = true -> rooted m -> own_value m k = None -> test (get m k) = true.
Proof.
  intros Hp Hu Hn (own & inh & -> & Hi). unfold own_value, get. cbn [own_entries].
  destruct (assoc (js k) own) as [v|]; [by destruct v|]. intros _. destruct Hi as [-> | [d ->]]; [done|].
  unfold prototypes in Hp. apply andb_true_iff in Hp as [Hk Hp]. unfold prototype. cbn [assoc].
  case_bool_decide as E; [apply js_inj in E; by subst k|]. rewrite forallb_forall in Hp. specialize (Hp d (all_classes_complete d)).
  rewrite forallb_forall in Hp. specialize (Hp (has_long rt) ltac:(destruct (has_long rt); cbn; tauto)). rewrite forallb_forall in Hp.
  destruct (assoc (js k) (named _)) as [v|] eqn:Ea; [|done]. apply assoc_In in Ea. unfold named in Ea.
  apply in_map_iff in Ea as ([k' w] & [= Ek <-] & Hin). apply js_inj in Ek as ->. specialize (Hp _ Hin). cbn in Hp |- *.
  by rewrite String.eqb_refl in Hp.
Qed.

Lemma get_own m k v : isPlainObject m = true -> own_value m k = Some v -> get m k = v.
Proof.
  destruct m as [| | | | | | | |own inh]; try done. intros _. unfold own_value, get. cbn [own_entries].
  destruct (assoc (js k) own) as [w|]; [|done]. destruct (nullish w); [done|]. by intros [= ->].
Qed.

(** A value that no prototype gives is own. *)
Lemma own_unless m k test :
  prototypes k test = true -> test JUndef = true -> test JNull = true -> rooted m ->
  test (get m k) = false -> own_value m k = Some (get m k).
Proof.
  intros Hp Hu Hn Hm Ht. destruct (own_value m k) as [v|] eqn:E; [by rewrite (get_own m k v); [|destruct Hm as (? & ? & -> & _)|]|].
  by rewrite (unset_default m k test) in Ht.
Qed.
End Defaults.

(** ** The message that is decoded reads the same *)

Section Reads.
Context (rt : pb_runtime).

Lemma agrees_object n c m d : agrees cap_pb rt n c m d -> isPlainObject d = true.
Proof. destruct n; [done|]. by intros [[own ->] _]. Qed.

Lemma agrees_put n c m d k tag t :
  agrees cap_pb rt n c m d -> In (Put k tag t) (sm_encode cap_pb c) -> own_value d k = own_value m k.
Proof. destruct n; [done|]. intros (_ & _ & Ha) Hs. rewrite Forall_forall in Ha. apply (Ha (Put k tag t)). by apply list_elem_of_In. Qed.

(** A scalar field that no prototype has is read back. *)
Lemma reads_scalar n c m d k tag t test :
  agrees cap_pb rt n c m d -> In (Put k tag t) (sm_encode cap_pb c) -> rooted rt m ->
  prototypes k test = true -> test JUndef = true -> test JNull = true -> test (get m k) = false -> get d k = get m k.
Proof.
  intros Ha Hs Hm Hp Hu Hn Ht. apply get_own; [by eapply agrees_object|]. rewrite (agrees_put n c m d k tag t Ha Hs).
  by apply (own_unless rt m k test).
Qed.

(** A message field that is set is read back, with the message inside. *)
Lemma reads_message n c m d k tag c' v :
  typed cap_pb rt n c m -> agrees cap_pb rt n c m d -> In (PutMessage k tag c') (sm_encode cap_pb c) -> own_value m k = Some v ->
  exists n', typed cap_pb rt n' c' v /\ agrees cap_pb rt n' c' v (get d k) /\ isPlainObject v = true.
Proof.
  destruct n as [|n]; [done|]. intros [_ Hty] Ha Hs Hv. pose proof (agrees_object _ _ _ _ Ha) as Hd. destruct Ha as (_ & _ & Ha).
  rewrite Forall_forall in Hty, Ha. apply list_elem_of_In in Hs. specialize (Hty _ Hs v Hv). specialize (Ha _ Hs). cbn in Ha. rewrite Hv in Ha.
  destruct (own_value d k) as [v'|] eqn:Ev; [|done]. exists n. rewrite (get_own d k v' Hd Ev). split; [done|]. split; [done|].
  destruct n; [done|]. by destruct Hty.
Qed.

Definition is_blank (v : jsval) : bool :=
  match v with JUndef | JNull | JStr [] | JBytes [] => true | _ => false end.

Definition is_zero (v : jsval) : bool := match wire_number v with NInt 0 => true | _ => false end.

Lemma reads_number n m d k :
  agrees cap_pb rt n TimestampT m d -> rooted rt m -> In k ["seconds"; "nanos"]%string ->
  wire_number (get d k) = wire_number (get m k).
Proof.
  intros Ha Hm Hk. assert (own_value d k = own_value m k) as E.
  { destruct Hk as [<- | [<- | []]]; eapply (agrees_put n TimestampT); try done; [by left | by right; left]. }
  assert (rooted rt d) as Hd by (destruct n; [done|]; destruct Ha as [[own ->] _]; eexists _, _; eauto).
  destruct (own_value m k) as [v|] eqn:Ev.
  - rewrite (get_own d k v), (get_own m k v); try done; [by destruct Hm as (? & ? & -> & _) | by destruct Hd as (? & ? & -> & _)].
  - assert (prototypes k is_zero = true) as Hp by (destruct Hk as [<- | [<- | []]]; vm_compute; reflexivity).
    pose proof (unset_default rt d k is_zero Hp eq_refl eq_refl Hd E) as Zd. pose proof (unset_default rt m k is_zero Hp eq_refl eq_refl Hm Ev) as Zm.
    unfold is_zero in *. destruct (wire_number (get d k)) as [[]| | |]; try done. by destruct (wire_number (get m k)) as [[]| | |].
Qed.

(** The parts that verification reads are read back. *)
Lemma cap_reads_same n m d aud keyId mid :
  typed cap_pb rt n BusPacketT m -> made cap_pb rt m -> agrees cap_pb rt n BusPacketT m d ->
  metadata_shape (get m "signatureMetadata") aud keyId mid ->
  (exists s, get m "senderId" = JStr s /\ s <> []) -> (exists s, get (get m "identity") "tenantId" = JStr s /\ s <> []) ->
  reads_same m d.
Proof.
  intros Hty Hm Ha Hms (snd & Hsnd & Hsn) (ten & Hten & Htn).
  assert (rooted rt m) as Hr by (apply made_rooted; [done|]; destruct n; [done|]; by destruct Hty).
  assert (forall k v, prototypes k nullish = true -> get (get m k) v <> JUndef -> own_value m k = Some (get m k)) as Hset.
  { intros k v Hp Hv. apply (own_unless rt m k nullish); try done. by destruct (get m k). }
  pose proof Hms as [_ Hprof Halg [Hmid Hlen] [Haud Hau] [Hkid Hkn] Hexp].
  assert (own_value m "signatureMetadata" = Some (get m "signatureMetadata")) as Hmd.
  { apply (Hset _ "profileVersion"); [vm_compute; reflexivity | by rewrite Hprof]. }
  assert (own_value m "identity" = Some (get m "identity")) as Hid.
  { apply (Hset _ "tenantId"); [vm_compute; reflexivity | by rewrite Hten]. }
  destruct (reads_message n _ m d _ 42 SignatureMetadataT _ Hty Ha ltac:(vm_compute; tauto) Hmd) as (n1 & Hty1 & Ha1 & Ho1).
  destruct (reads_message n _ m d _ 50 IdentityBindingT _ Hty Ha ltac:(vm_compute; tauto) Hid) as (n2 & Hty2 & Ha2 & Ho2).
  set (md := get m "signatureMetadata") in *. set (idn := get m "identity") in *.
  assert (rooted rt md) as Hr1 by (apply made_rooted; [by eapply made_value | done]).
  assert (rooted rt idn) as Hr2 by (apply made_rooted; [by eapply made_value | done]).
  assert (own_value md "expiresAt" = Some (get md "expiresAt")) as Hex.
  { apply (own_unless rt md "expiresAt" nullish); [vm_compute; reflexivity | done | done | done |]. by destruct (get md "expiresAt"). }
  destruct (reads_message n1 _ md _ _ 42 TimestampT _ Hty1 Ha1 ltac:(vm_compute; tauto) Hex) as (n3 & Hty3 & Ha3 & Ho3).
  assert (rooted rt (get md "expiresAt")) as Hr3 by (apply made_rooted; [eapply made_value; [eapply made_value; [exact Hm | exact Hmd] | exact Hex] | done]).
  assert (forall k tag t, In (Put k tag t) (sm_encode cap_pb SignatureMetadataT) -> prototypes k is_blank = true ->
            is_blank (get md k) = false -> get (get d "signatureMetadata") k = get md k) as Hscalar.
  { intros k tag t Hs Hp Hb. by apply (reads_scalar n1 SignatureMetadataT md _ k tag t is_blank). }
  split.
  - apply agrees_object in Ha. by destruct d.
  - apply agrees_object in Ha1. by destruct (get d "signatureMetadata").
  - intros k Hk. destruct mid as [|b mid]; [done|]. cbn in Hk.
    repeat destruct Hk as [<- | Hk]; try done; (eapply Hscalar; [vm_compute; tauto | vm_compute; reflexivity |]);
      rewrite ?Hprof, ?Halg, ?Hmid, ?Haud, ?Hkid; (done || (destruct aud; [congruence | done]) || (destruct keyId; [congruence | done])).
  - apply agrees_object in Ha3. by destruct (get (get d "signatureMetadata") "expiresAt").
  - intros k Hk. by apply (reads_number n3 (get md "expiresAt")).
  - apply (reads_scalar n BusPacketT m d _ 18 TString is_blank); [done | vm_compute; tauto | done | vm_compute; reflexivity | done | done |].
    rewrite Hsnd. by destruct snd.
  - intros _. split; [apply agrees_object in Ha2; by destruct (get d "identity")|].
    apply (reads_scalar n2 IdentityBindingT idn _ _ 10 TString is_blank); [done | vm_compute; tauto | done | vm_compute; reflexivity | done | done |].
    rewrite Hten. by destruct ten.
Qed.
End Reads.

(** ** Claims *)

Section Claims.
Context (rt : pb_runtime) `{!PbLaws rt}.

(** C17.  A message with values of their types, in which no two members of a
    oneof are set, that is not deeper than the limits and encoded to less than
    2^32 bytes, is encoded to bytes that the closed-wire walk of the
    production profile accepts for the declaration of its type: the generated
    encoder writes no unknown, mistyped or repeated field. *)
Theorem cap_encodes_closed n N c m :
  typed cap_pb rt n c m -> exclusive cap_pb n c m -> (n <= N)%nat -> Z.of_nat n <= rt_recursionLimit rt + 1 ->
  zlen (emit rt (doc_of cap_pb n c m)) < 2 ^ 32 ->
  exists bs, StaticCode.encode cap_pb rt c m = Ok bs /\ assertClosedNestedWire bs (cap_schema N c) = Ok tt.
Proof. apply (encode_closed cap_pb rt cap_name cap_proto cap_tables cap_declared). Qed.

(** C2.  With cap_pb.js as the codec, a packet that [signProductionPacket] signs
    is accepted by [verifyProductionPacket] under an authority that names its
    audience, tenant, sender and key and whose window contains its expiry, and
    the packet returned agrees with the one signed in every field, also inside
    nested messages, lists and maps.  The packet is made of object literals and
    instances, its fields hold values of their types, it is not deeper than the
    limits of the runtime allow and it is encoded to less than 2^32 bytes.  Of the
    codec nothing is assumed but the laws of the protobufjs runtime. *)
Theorem cap_sign_verify (C : crypto) (K : key_crypto) n N packet input key pub trust signedAt verifiedAt raw :
  let m := signed_message (cap_producer rt N) packet in
  typed cap_pb rt n BusPacketT m -> made cap_pb rt m ->
  Z.of_nat n <= rt_recursionLimit rt + 1 -> Z.of_nat n <= rt_readLimit rt + 1 ->
  zlen (emit rt (doc_of cap_pb n BusPacketT m)) < 2 ^ 32 ->
  (forall data, ProductionSigning.verify C pub data (sign K key data) = true) -> as_key K input = Ok key ->
  signProductionPacket K packet (cap_producer rt N) input signedAt = Ok raw ->
  matching_authority C m trust pub verifiedAt ->
  exists d, verifyProductionPacket C raw (cap_packet_type rt N) trust verifiedAt = Ok d /\
    agrees cap_pb rt n BusPacketT m d.
Proof.
  intros m Hty Hm Hl Hrl Hs Hsv Hkey Hsign Hma.
  destruct (decode_encode cap_pb rt cap_tables n BusPacketT m Hty Hl Hrl Hs) as (He & d & Hd & Ha).
  assert (forall u, ProductionProducer.encode (cap_producer rt N) m = Ok u -> u = emit rt (doc_of cap_pb n BusPacketT m)) as Hu.
  { intros u Henc. change (StaticCode.encode cap_pb rt BusPacketT m = Ok u) in Henc. congruence. }
  destruct (sign_verify_roundtrip C K (cap_producer rt N) (cap_packet_type rt N) eq_refl
    (schema_wf cap_pb cap_name cap_proto cap_declared N BusPacketT) packet input key pub trust signedAt verifiedAt raw)
    as (u & d' & Hv & _ & Henc & Hd'); try done.
  2: { exists d'. split; [done|]. apply Hu in Henc as ->. cbn [pt_decode cap_packet_type] in Hd'. congruence. }
  intros u Hchk Henc%Hu _. subst u. exists d. split; [done|]. apply validatePacket_facts in Hchk as ((aud & keyId & mid & Hms) & _).
  destruct Hma as [_ (ten & (_ & Htn & _) & _ & Hten) (snd & (_ & Hsn & _) & Hsnd) _ _].
  by apply (cap_reads_same rt n m d aud keyId mid); eauto.
Qed.
End Claims.
