(* ===== verification/JspbCode.v ===== *)
(** * Message classes of google-protobuf

    src/node/cordum/agent/v1/*_pb.js are written by the JavaScript generator of
    protoc.  A class keeps its fields in a [jspb.Message]; the file gives it
    accessors, [serializeBinaryToWriter], [deserializeBinaryFromReader] and
    [toObject], which are sequences of statements of a few forms, one per field.
    Here are the forms and their meaning.  google-protobuf itself is a parameter,
    [jspb]; the classes are in JspbTables.v. *)

From S2P Require Import Prelude JsString JsValue PbRuntime StaticCode.

(** ** The library *)

(** The methods [readX] and [writeX] by their scalar types. *)
Inductive jscalar : Set := JScalar (t : scalar) | JEnum.

#[global] Instance jscalar_eq_dec : EqDecision jscalar.
Proof. solve_decision. Defined.

(** The methods [setProto3XField]. *)
Inductive proto3 : Set := P3String | P3Int | P3Enum | P3Boolean | P3Float | P3Bytes.

#[global] Instance proto3_eq_dec : EqDecision proto3.
Proof. solve_decision. Defined.

(** What a message object holds for a field number. *)
Inductive slot (message : Type) : Type :=
| Unset
| Value (v : jsval)
| Values (l : list jsval)
| Message (m : message)
| Messages (l : list message)
| Entries (l : list (jsstr * jsval)).
Arguments Unset {_}.
Arguments Value {_}.
Arguments Values {_}.
Arguments Message {_}.
Arguments Messages {_}.
Arguments Entries {_}.

(** [jspb.Message], [jspb.Map], [jspb.BinaryWriter] and [jspb.BinaryReader], and
    the classes of google.protobuf that come with the library.  The entries of a
    map are in the order in which the map lists them.  A write gives the bytes
    it appends; a read starts at a position and gives the position after it. *)
Record jspb (class : Type) : Type := {
  jmsg : Type;
  jb_slot : jmsg -> Z -> slot jmsg;
  (** [initialize(this, undefined, 0, -1, repeatedFields, oneofGroups)] *)
  jb_initialize : list Z -> list (list Z) -> jmsg;
  jb_getFieldWithDefault : jmsg -> Z -> jsval -> jsval;
  jb_getBooleanFieldWithDefault : jmsg -> Z -> jsval -> jsval;
  jb_getFloatingPointFieldWithDefault : jmsg -> Z -> jsval -> jsval;
  (** [getField(msg, n) != null] *)
  jb_hasField : jmsg -> Z -> bool;
  jb_getRepeatedField : jmsg -> Z -> list jsval;
  jb_getWrapperField : jmsg -> Z -> option jmsg;
  jb_getRepeatedWrapperField : jmsg -> Z -> list jmsg;
  jb_getMapField : jmsg -> Z -> list (jsstr * jsval);
  jb_bytesAsU8 : jsval -> jsval;
  jb_bytesAsB64 : jsval -> jsval;
  jb_computeOneofCase : jmsg -> list Z -> Z;
  jb_setProto3Field : proto3 -> jmsg -> Z -> jsval -> jmsg;
  (** [setField] of a list. *)
  jb_setField : jmsg -> Z -> list jsval -> jmsg;
  jb_setWrapperField : jmsg -> Z -> option jmsg -> jmsg;
  jb_setOneofWrapperField : jmsg -> Z -> list Z -> option jmsg -> jmsg;
  jb_setRepeatedWrapperField : jmsg -> Z -> list jmsg -> jmsg;
  jb_addToRepeatedField : jmsg -> Z -> jsval -> jmsg;
  jb_addToRepeatedWrapperField : jmsg -> Z -> jmsg -> jmsg;
  (** [set] and [clear] of the map of a field. *)
  jb_mapSet : jmsg -> Z -> jsstr -> jsval -> jmsg;
  jb_mapClear : jmsg -> Z -> jmsg;
  (** [writeX(n, v)], [writePackedX(n, vs)] *)
  jb_write : jscalar -> Z -> jsval -> result bytes;
  jb_writePacked : jscalar -> Z -> list jsval -> result bytes;
  (** [writeMessage(n, m, f)], where [f] writes the content. *)
  jb_writeMessage : Z -> bytes -> bytes;
  (** [map.serializeBinary(n, writer, writeKey, writeValue)] *)
  jb_writeMap : jscalar -> jscalar -> Z -> list (jsstr * jsval) -> result bytes;
  (** [nextField] before [end]: field number, wire type and position. *)
  jb_nextField : bytes -> Z -> Z -> result (option (Z * Z * Z));
  jb_read : jscalar -> bytes -> Z -> result (jsval * Z);
  jb_readPacked : jscalar -> bytes -> Z -> result (list jsval * Z);
  (** [readMessage]: where the content starts and ends. *)
  jb_readMessage : bytes -> Z -> result (Z * Z);
  (** [Map.deserializeBinary] of one entry, with the default key and value. *)
  jb_readEntry : jscalar -> jscalar -> jsval -> jsval -> bytes -> Z -> Z -> result (jsstr * jsval);
  jb_skipField : bytes -> Z -> Z -> Z -> result Z;
  (** The classes of google.protobuf. *)
  jb_new : class -> jmsg;
  jb_serialize : class -> jmsg -> result bytes;
  jb_deserialize : class -> jmsg -> bytes -> Z -> Z -> result jmsg;
  jb_toObject : class -> jmsg -> result jsval;
  (** The messages that they serialize, and [jspb.Message.equals]. *)
  jb_valid : class -> jmsg -> Prop;
  jb_equals : jmsg -> jmsg -> bool;
  (** The numbers that four or eight bytes hold exactly. *)
  jb_exact : scalar -> jsnum -> bool
}.
Arguments jmsg {_}.
Arguments jb_slot {_}.
Arguments jb_initialize {_}.
Arguments jb_getFieldWithDefault {_}.
Arguments jb_getBooleanFieldWithDefault {_}.
Arguments jb_getFloatingPointFieldWithDefault {_}.
Arguments jb_hasField {_}.
Arguments jb_getRepeatedField {_}.
Arguments jb_getWrapperField {_}.
Arguments jb_getRepeatedWrapperField {_}.
Arguments jb_getMapField {_}.
Arguments jb_bytesAsU8 {_}.
Arguments jb_bytesAsB64 {_}.
Arguments jb_computeOneofCase {_}.
Arguments jb_setProto3Field {_}.
Arguments jb_setField {_}.
Arguments jb_setWrapperField {_}.
Arguments jb_setOneofWrapperField {_}.
Arguments jb_setRepeatedWrapperField {_}.
Arguments jb_addToRepeatedField {_}.
Arguments jb_addToRepeatedWrapperField {_}.
Arguments jb_mapSet {_}.
Arguments jb_mapClear {_}.
Arguments jb_write {_}.
Arguments jb_writePacked {_}.
Arguments jb_writeMessage {_}.
Arguments jb_writeMap {_}.
Arguments jb_nextField {_}.
Arguments jb_read {_}.
Arguments jb_readPacked {_}.
Arguments jb_readMessage {_}.
Arguments jb_readEntry {_}.
Arguments jb_skipField {_}.
Arguments jb_new {_}.
Arguments jb_serialize {_}.
Arguments jb_deserialize {_}.
Arguments jb_toObject {_}.
Arguments jb_valid {_}.
Arguments jb_equals {_}.
Arguments jb_exact {_}.

(** ** Forms *)

Section Forms.
Context {class : Type}.

(** The accessors of a class, by what they do to a field number. *)
Inductive accessor : Type :=
| GetField (n : Z) (d : jsval)
| GetBooleanField (n : Z) (d : jsval)
| GetFloatField (n : Z) (d : jsval)
| GetRepeatedField (n : Z)
| GetWrapperField (c : class) (n : Z)
| GetRepeatedWrapperField (c : class) (n : Z)
| GetMapField (n : Z)
(** [bytesAsU8(this.getX())], [bytesAsB64(this.getX())] *)
| BytesAsU8 (getter : string)
| BytesAsB64 (getter : string)
| HasField (n : Z)
| SetProto3Field (k : proto3) (n : Z)
| SetField (n : Z)
| SetWrapperField (n : Z)
| SetOneofWrapperField (n : Z) (group : nat)
| SetRepeatedWrapperField (n : Z)
| AddToRepeatedField (n : Z)
| AddToRepeatedWrapperField (n : Z) (c : class)
(** [this.setX(undefined)], [this.setX([])], [this.getX().clear()] *)
| ClearField (setter : string)
| ClearList (setter : string)
| ClearMap (getter : string).

(** [f.length > 0], [f !== 0], [f !== 0.0] and [f] *)
Inductive write_test : Set := NonEmpty | NonZero | NonZeroFloat | Truthy.

(** Statements of [serializeBinaryToWriter]: [f = message.getX(); if (..) ..] *)
Inductive write_stmt : Type :=
| Write (getter : string) (test : write_test) (k : jscalar) (n : Z)
| WriteRepeated (getter : string) (k : jscalar) (n : Z)
| WritePacked (getter : string) (k : jscalar) (n : Z)
| WriteMessage (getter : string) (n : Z) (c : class)
| WriteRepeatedMessage (getter : string) (n : Z) (c : class)
| WriteMap (getter : string) (n : Z) (key value : jscalar).

(** The cases of [deserializeBinaryFromReader]. *)
Inductive read_case : Type :=
| ReadSet (k : jscalar) (setter : string)
| ReadAdd (k : jscalar) (adder : string)
| ReadPackedAdd (k : jscalar) (adder : string)
| ReadMessageSet (c : class) (setter : string)
| ReadMessageAdd (c : class) (adder : string)
| ReadMap (getter : string) (key value : jscalar) (key_default value_default : jsval).

(** The properties of [toObject]. *)
Inductive object_field : Type :=
| ShowField (n : Z) (d : jsval)
| ShowBooleanField (n : Z) (d : jsval)
| ShowFloatField (n : Z) (d : jsval)
| ShowRepeatedField (n : Z)
| ShowGetter (getter : string)
| ShowMessage (getter : string) (c : class)
| ShowMessages (getter : string) (c : class)
| ShowMap (getter : string).

(** [toObject], [deserializeBinaryFromReader] and [serializeBinaryToWriter] *)
Record jspb_methods : Type := {
  jc_toObject : list (string * object_field);
  jc_deserialize : list (Z * read_case);
  jc_serialize : list write_stmt
}.

Record jspb_class : Type := {
  jc_repeatedFields : list Z;
  jc_oneofGroups : list (list Z);
  jc_methods : jspb_methods;
  jc_accessors : list (string * accessor)
}.
End Forms.
Arguments accessor : clear implicits.
Arguments write_stmt : clear implicits.
Arguments read_case : clear implicits.
Arguments object_field : clear implicits.
Arguments jspb_methods : clear implicits.
Arguments jspb_class : clear implicits.

(** ** Meaning *)

Section Meaning.
(** The classes of the files; the others are those of the library. *)
Context {class : Type} (lib : jspb class) (J : class -> option (jspb_class class)).
Notation msg := (jmsg lib).

(** What an accessor returns or takes. *)
Inductive jvalue : Type :=
| VScalar (v : jsval)
| VList (l : list jsval)
| VMessage (m : option msg)
| VMessages (l : list msg)
| VMap (l : list (jsstr * jsval))
| VBool (b : bool).

(** [new C] *)
Definition new_message (c : class) : msg :=
  match J c with
  | Some C => jb_initialize lib (jc_repeatedFields C) (jc_oneofGroups C)
  | None => jb_new lib c
  end.

Section Class.
Context (C : jspb_class class).

Definition method (name : string) : option (accessor class) :=
  snd <$> List.find (fun p => String.eqb p.1 name) (jc_accessors C).

(** [m.name()] *)
Definition simple_get (a : accessor class) (m : msg) : option jvalue :=
  match a with
  | GetField n d => Some (VScalar (jb_getFieldWithDefault lib m n d))
  | GetBooleanField n d => Some (VScalar (jb_getBooleanFieldWithDefault lib m n d))
  | GetFloatField n d => Some (VScalar (jb_getFloatingPointFieldWithDefault lib m n d))
  | GetRepeatedField n => Some (VList (jb_getRepeatedField lib m n))
  | GetWrapperField _ n => Some (VMessage (jb_getWrapperField lib m n))
  | GetRepeatedWrapperField _ n => Some (VMessages (jb_getRepeatedWrapperField lib m n))
  | GetMapField n => Some (VMap (jb_getMapField lib m n))
  | HasField n => Some (VBool (jb_hasField lib m n))
  | _ => None
  end.

Definition call_get (name : string) (m : msg) : option jvalue :=
  let as_bytes convert getter :=
    match method getter ≫= fun a => simple_get a m with
    | Some (VScalar v) => Some (VScalar (convert v))
    | _ => None
    end in
  match method name with
  | Some (BytesAsU8 getter) => as_bytes (jb_bytesAsU8 lib) getter
  | Some (BytesAsB64 getter) => as_bytes (jb_bytesAsB64 lib) getter
  | Some a => simple_get a m
  | None => None
  end.

(** [m.name(v)] *)
Definition simple_set (a : accessor class) (m : msg) (v : jvalue) : option msg :=
  match a, v with
  | SetProto3Field k n, VScalar v => Some (jb_setProto3Field lib k m n v)
  | SetField n, VList l => Some (jb_setField lib m n l)
  | SetWrapperField n, VMessage x => Some (jb_setWrapperField lib m n x)
  | SetOneofWrapperField n g, VMessage x => Some (jb_setOneofWrapperField lib m n (nth g (jc_oneofGroups C) []) x)
  | SetRepeatedWrapperField n, VMessages l => Some (jb_setRepeatedWrapperField lib m n l)
  | AddToRepeatedField n, VScalar v => Some (jb_addToRepeatedField lib m n v)
  | AddToRepeatedWrapperField n _, VMessage (Some x) => Some (jb_addToRepeatedWrapperField lib m n x)
  | _, _ => None
  end.

Definition call_set (name : string) (m : msg) (v : jvalue) : option msg := method name ≫= fun a => simple_set a m v.

(** [m.clearX()] *)
Definition call_clear (name : string) (m : msg) : option msg :=
  match method name with
  | Some (ClearField setter) => call_set setter m (VMessage None)
  | Some (ClearList setter) =>
      match call_set setter m (VList []) with Some m' => Some m' | None => call_set setter m (VMessages []) end
  | Some (ClearMap getter) => match method getter with Some (GetMapField n) => Some (jb_mapClear lib m n) | _ => None end
  | _ => None
  end.

(** [m.getXCase()] *)
Definition oneof_case (g : nat) (m : msg) : Z := jb_computeOneofCase lib m (nth g (jc_oneofGroups C) []).

(** A method that is not there. *)
Definition not_a_function {A} (name : string) : result A := throw TypeError (js name ++ js " is not a function").

(** ** Serialization *)

Definition passes (test : write_test) (v : jsval) : bool :=
  match test with
  | NonEmpty => match v with JStr s => negb (is_nil s) | JBytes b => negb (is_nil b) | _ => false end
  | NonZero | NonZeroFloat => negb (strict_eq v (JNum (NInt 0)))
  | Truthy => truthy v
  end.

Section Write.
(** [C.serializeBinaryToWriter] of a nested message. *)
Context (sub : class -> msg -> result bytes).

Definition write_message (n : Z) (c : class) (m : msg) : result bytes :=
  let! b := sub c m in Ok (jb_writeMessage lib n b).

Definition run_write (m : msg) (s : write_stmt class) : result bytes :=
  match s with
  | Write getter test k n =>
      match call_get getter m with
      | Some (VScalar v) => if passes test v then jb_write lib k n v else Ok []
      | _ => not_a_function getter
      end
  | WriteRepeated getter k n =>
      match call_get getter m with
      | Some (VList l) => concat_results (jb_write lib k n) l
      | _ => not_a_function getter
      end
  | WritePacked getter k n =>
      match call_get getter m with
      | Some (VList l) => if is_nil l then Ok [] else jb_writePacked lib k n l
      | _ => not_a_function getter
      end
  | WriteMessage getter n c =>
      match call_get getter m with
      | Some (VMessage (Some x)) => write_message n c x
      | Some (VMessage None) => Ok []
      | _ => not_a_function getter
      end
  | WriteRepeatedMessage getter n c =>
      match call_get getter m with
      | Some (VMessages l) => concat_results (write_message n c) l
      | _ => not_a_function getter
      end
  | WriteMap getter n key value =>
      match call_get getter m with
      | Some (VMap l) => if is_nil l then Ok [] else jb_writeMap lib key value n l
      | _ => not_a_function getter
      end
  end.
End Write.

(** ** Deserialization *)

Section Read.
(** [C.deserializeBinaryFromReader(new C, reader)] between two positions. *)
Context (data : bytes) (sub : class -> Z -> Z -> result msg).

Definition set_or_throw (name : string) (m : msg) (v : jvalue) : result msg :=
  match call_set name m v with Some m' => Ok m' | None => not_a_function name end.

Fixpoint add_each (adder : string) (m : msg) (l : list jsval) : result msg :=
  match l with
  | [] => Ok m
  | v :: l => let! m' := set_or_throw adder m (VScalar v) in add_each adder m' l
  end.

Definition read_nested (c : class) (pos : Z) : result (msg * Z) :=
  let! frame := jb_readMessage lib data pos in
  let! x := sub c frame.1 frame.2 in
  Ok (x, frame.2).

(** One case: the message and the position after the field. *)
Definition run_read (wire pos : Z) (m : msg) (d : read_case class) : result (msg * Z) :=
  match d with
  | ReadSet k setter | ReadAdd k setter =>
      let! r := jb_read lib k data pos in
      let! m' := set_or_throw setter m (VScalar r.1) in
      Ok (m', r.2)
  | ReadPackedAdd k adder =>
      let! r := if wire =? 2 then jb_readPacked lib k data pos
                else let! r := jb_read lib k data pos in Ok ([r.1], r.2) in
      let! m' := add_each adder m r.1 in
      Ok (m', r.2)
  | ReadMessageSet c setter | ReadMessageAdd c setter =>
      let! r := read_nested c pos in
      let! m' := set_or_throw setter m (VMessage (Some r.1)) in
      Ok (m', r.2)
  | ReadMap getter key value kd vd =>
      match method getter with
      | Some (GetMapField n) =>
          let! frame := jb_readMessage lib data pos in
          let! e := jb_readEntry lib key value kd vd data frame.1 frame.2 in
          Ok (jb_mapSet lib m n e.1 e.2, frame.2)
      | _ => not_a_function getter
      end
  end.
End Read.

(** ** toObject *)

Section Show.
Context (sub : class -> msg -> result jsval).

Fixpoint show_all (c : class) (l : list msg) : result (list jsval) :=
  match l with
  | [] => Ok []
  | x :: l => let! v := sub c x in let! vs := show_all c l in Ok (v :: vs)
  end.

Definition run_object (m : msg) (o : object_field class) : result jsval :=
  match o with
  | ShowField n d => Ok (jb_getFieldWithDefault lib m n d)
  | ShowBooleanField n d => Ok (jb_getBooleanFieldWithDefault lib m n d)
  | ShowFloatField n d => Ok (jb_getFloatingPointFieldWithDefault lib m n d)
  | ShowRepeatedField n => Ok (JArr (jb_getRepeatedField lib m n))
  | ShowGetter getter =>
      match call_get getter m with Some (VScalar v) => Ok v | _ => not_a_function getter end
  | ShowMessage getter c =>
      match call_get getter m with
      | Some (VMessage (Some x)) => sub c x
      | Some (VMessage None) => Ok JUndef
      | _ => not_a_function getter
      end
  | ShowMessages getter c =>
      match call_get getter m with
      | Some (VMessages l) => let! vs := show_all c l in Ok (JArr vs)
      | _ => not_a_function getter
      end
  | ShowMap getter =>
      match call_get getter m with
      | Some (VMap l) => Ok (JArr (map (fun p => JArr [JStr p.1; p.2]) l))
      | _ => not_a_function getter
      end
  end.

Fixpoint run_objects (m : msg) (l : list (string * object_field class)) : result (list (jsstr * jsval)) :=
  match l with
  | [] => Ok []
  | (k, o) :: l => let! v := run_object m o in let! own := run_objects m l in Ok ((js k, v) :: own)
  end.
End Show.
End Class.

(** [C.serializeBinaryToWriter(message, writer)]; the fuel bounds the depth of
    the message. *)
Fixpoint serialize (fuel : nat) (c : class) (m : msg) : result bytes :=
  match fuel, J c with
  | O, _ => NoFuel
  | S fuel, Some C => concat_results (run_write C (serialize fuel) m) (jc_serialize (jc_methods C))
  | S _, None => jb_serialize lib c m
  end.

(** The loop of [C.deserializeBinaryFromReader(msg, reader)]. *)
Fixpoint deserialize_loop (fuel : nat) (c : class) (data : bytes) (pos end_ : Z) (m : msg) : result msg :=
  match fuel, J c with
  | O, _ => NoFuel
  | S fuel, None => jb_deserialize lib c m data pos end_
  | S fuel, Some C =>
      let! f := jb_nextField lib data pos end_ in
      match f with
      | None => Ok m
      | Some (number, wire, p) =>
          if wire =? 4 then Ok m
          else
            let! r := match List.find (fun q => q.1 =? number) (jc_deserialize (jc_methods C)) with
                      | Some (_, d) =>
                          run_read C data (fun c' pos' end' => deserialize_loop fuel c' data pos' end' (new_message c'))
                            wire p m d
                      | None => let! p' := jb_skipField lib data p number wire in Ok (m, p')
                      end in
            deserialize_loop fuel c data r.2 end_ r.1
      end
  end.

(** [C.deserializeBinary(bytes)]; a field has at least one byte, so that there
    are no more of them than bytes. *)
Definition deserializeBinary (c : class) (data : bytes) : result msg :=
  deserialize_loop (S (length data)) c data 0 (zlen data) (new_message c).

(** [C.toObject(false, message)] *)
Fixpoint to_plain (fuel : nat) (c : class) (m : msg) : result jsval :=
  match fuel, J c with
  | O, _ => NoFuel
  | S fuel, Some C => let! own := run_objects C (to_plain fuel) m (jc_toObject (jc_methods C)) in Ok (JPlain own)
  | S _, None => jb_toObject lib c m
  end.
End Meaning.
