(* ===== verification/JspbLaws.v ===== *)
(** * What google-protobuf promises

    The laws of the parameter [jspb] of JspbCode.v: a message object holds one
    value per field number, which the getters read and the setters change, and
    the reader reads back what the writer wrote. *)

From S2P Require Import Prelude JsString JsValue Protos PbRuntime StaticWire JspbCode.

(** The values that a field of a scalar type may hold. *)
Definition jscalar_ok {class} (lib : jspb class) (k : jscalar) (v : jsval) : Prop :=
  match k, v with
  | JScalar TString, JStr s => text_ok s /\ zlen s < 2 ^ 30
  | JScalar TBytes, JBytes b => Forall is_byte b /\ zlen b < 2 ^ 32
  | JScalar TBool, JBool _ => True
  | (JScalar TInt32 | JEnum), JNum (NInt z) => - 2 ^ 31 <= z < 2 ^ 31
  | JScalar TUint32, JNum (NInt z) => 0 <= z < 2 ^ 32
  | JScalar TInt64, JNum (NInt z) => Z.abs z <= 2 ^ 53
  | JScalar TUint64, JNum (NInt z) => 0 <= z <= 2 ^ 53
  | JScalar TFloat, JNum x => jb_exact lib TFloat x = true
  | JScalar TDouble, JNum x => jb_exact lib TDouble x = true
  | _, _ => False
  end.

(** An entry of a map; the library keeps the entries in the properties of an
    object, where [__proto__] is not a key. *)
Definition entry_ok {class} (lib : jspb class) (value : jscalar) (e : jsstr * jsval) : Prop :=
  e.1 <> js "__proto__" /\ jscalar_ok lib (JScalar TString) (JStr e.1) /\ jscalar_ok lib value e.2.

(** The value for which [setProto3XField] clears the field. *)
Definition proto3_default (k : proto3) : jsval :=
  match k with
  | P3String | P3Bytes => JStr []
  | P3Boolean => JBool false
  | _ => JNum (NInt 0)
  end.

(** The bytes of a field at a position: [nextField] finds the number and a wire
    type, and leaves the reader at a position. *)
Definition next_at {class} (lib : jspb class) (bs : bytes) (n : Z) (found : bytes -> Z -> Z -> Z -> Prop) : Prop :=
  forall data pos end_, at_pos data pos bs -> pos + zlen bs <= end_ ->
    exists wire p, jb_nextField lib data pos end_ = Ok (Some (n, wire, p)) /\ wire <> 4 /\ found data pos wire p.

(** Oneofs of messages. *)
Class JspbOneofLaws {class} (lib : jspb class) : Prop := {
  getWrapper_message m n x : jb_slot lib m n = Message x -> jb_getWrapperField lib m n = Some x /\ jb_hasField lib m n = true;
  (** The other members of the oneof are cleared. *)
  setOneof_slot m n g x n' : jb_slot lib (jb_setOneofWrapperField lib m n g (Some x)) n' =
    if n' =? n then Message x else if zmem n' g then Unset else jb_slot lib m n';
  (** The member that is set. *)
  computeOneofCase_set m g n : zmem n g = true -> jb_slot lib m n <> Unset ->
    (forall n', zmem n' g = true -> n' <> n -> jb_slot lib m n' = Unset) -> jb_computeOneofCase lib m g = n
}.

Class JspbLaws {class} (lib : jspb class) : Prop := {
  jspb_oneofs :: JspbOneofLaws lib;
  (** Message objects. *)
  slot_initialize r g n : jb_slot lib (jb_initialize lib r g) n = Unset;
  getField_unset m n d : jb_slot lib m n = Unset -> jb_getFieldWithDefault lib m n d = d;
  getField_value m n d v : jb_slot lib m n = Value v -> jb_getFieldWithDefault lib m n d = v;
  getBoolean_unset m n d : jb_slot lib m n = Unset -> jb_getBooleanFieldWithDefault lib m n d = d;
  getBoolean_value m n d b : jb_slot lib m n = Value (JBool b) -> jb_getBooleanFieldWithDefault lib m n d = JBool b;
  getFloat_unset m n d : jb_slot lib m n = Unset -> jb_getFloatingPointFieldWithDefault lib m n d = d;
  getFloat_value m n d x : jb_slot lib m n = Value (JNum x) -> jb_getFloatingPointFieldWithDefault lib m n d = JNum x;
  getRepeated_unset m n : jb_slot lib m n = Unset -> jb_getRepeatedField lib m n = [];
  getRepeated_values m n l : jb_slot lib m n = Values l -> jb_getRepeatedField lib m n = l;
  getWrapper_unset m n : jb_slot lib m n = Unset -> jb_getWrapperField lib m n = None /\ jb_hasField lib m n = false;
  getWrappers_unset m n : jb_slot lib m n = Unset -> jb_getRepeatedWrapperField lib m n = [];
  getWrappers_messages m n l : jb_slot lib m n = Messages l -> jb_getRepeatedWrapperField lib m n = l;
  getMap_unset m n : jb_slot lib m n = Unset -> jb_getMapField lib m n = [];
  getMap_entries m n l : jb_slot lib m n = Entries l -> jb_getMapField lib m n = l;
  bytesAsU8_bytes b : jb_bytesAsU8 lib (JBytes b) = JBytes b;
  bytesAsU8_empty : jb_bytesAsU8 lib (JStr []) = JBytes [];
  setProto3_slot k m n v n' : nullish v = false -> jb_slot lib (jb_setProto3Field lib k m n v) n' =
    if n' =? n then if strict_eq v (proto3_default k) then Unset else Value v else jb_slot lib m n';
  addRepeated_slot m n v n' : jb_slot lib (jb_addToRepeatedField lib m n v) n' =
    if n' =? n then Values (jb_getRepeatedField lib m n ++ [v]) else jb_slot lib m n';
  setWrapper_slot m n x n' : jb_slot lib (jb_setWrapperField lib m n (Some x)) n' =
    if n' =? n then Message x else jb_slot lib m n';
  addWrapper_slot m n x n' : jb_slot lib (jb_addToRepeatedWrapperField lib m n x) n' =
    if n' =? n then Messages (jb_getRepeatedWrapperField lib m n ++ [x]) else jb_slot lib m n';
  mapSet_slot m n k v n' : n' <> n -> jb_slot lib (jb_mapSet lib m n k v) n' = jb_slot lib m n';
  mapSet_entries m n k v : k <> js "__proto__" -> exists l, jb_slot lib (jb_mapSet lib m n k v) n = Entries l /\
    Permutation l (assoc_set k v (jb_getMapField lib m n));
  (** Writer and reader. *)
  write_scalar k n v : 0 < n < 2 ^ 29 -> jscalar_ok lib k v ->
    exists bs, jb_write lib k n v = Ok bs /\ bs <> [] /\
      next_at lib bs n (fun data pos _ p => jb_read lib k data p = Ok (v, pos + zlen bs));
  (** An empty list is not written. *)
  write_packed k n l : 0 < n < 2 ^ 29 -> l <> [] -> Forall (jscalar_ok lib k) l ->
    exists bs, jb_writePacked lib k n l = Ok bs /\ bs <> [] /\
      (zlen bs < 2 ^ 32 -> next_at lib bs n (fun data pos wire p => wire = 2 /\ jb_readPacked lib k data p = Ok (l, pos + zlen bs)));
  write_message_length n b : 0 < n < 2 ^ 29 -> zlen b + 2 <= zlen (jb_writeMessage lib n b);
  write_message_read n b : 0 < n < 2 ^ 29 -> zlen b < 2 ^ 32 ->
    next_at lib (jb_writeMessage lib n b) n (fun data pos _ p => exists start,
      jb_readMessage lib data p = Ok (start, pos + zlen (jb_writeMessage lib n b)) /\
      start + zlen b = pos + zlen (jb_writeMessage lib n b) /\ at_pos data start b);
  (** A map is written as one message per entry, in the order in which its
      entries are listed. *)
  write_map value m n l : 0 < n < 2 ^ 29 -> jb_getMapField lib m n = l -> Forall (entry_ok lib value) l ->
    exists content, jb_writeMap lib (JScalar TString) value n l = Ok (concat (map (fun e => jb_writeMessage lib n (content e)) l)) /\
      forall e kd vd data start, e ∈ l -> at_pos data start (content e) ->
        jb_readEntry lib (JScalar TString) value kd vd data start (start + zlen (content e)) = Ok e;
  nextField_end data pos : jb_nextField lib data pos pos = Ok None;
  (** The classes of google.protobuf. *)
  library_roundtrip c m : jb_valid lib c m ->
    exists bs, jb_serialize lib c m = Ok bs /\
      forall data pos, at_pos data pos bs ->
        exists m', jb_deserialize lib c (jb_new lib c) data pos (pos + zlen bs) = Ok m' /\ jb_equals lib m m' = true
}.
