(* ===== verification/JspbGenerate.v ===== *)
(** * The google-protobuf code that declarations ask for

    What the JavaScript generator of protoc writes for a message of a .proto
    file: the accessors and the statements of the methods.  JspbPb.v compares
    them with src/node/cordum/agent/v1/*_pb.js. *)

From S2P Require Import Prelude JsString JsValue PbRuntime StaticCode ProtoFile JspbCode.

Section Generate.
Context {class : Type}.
Implicit Types (f : proto_field class) (fs : list (proto_field class)).

(** ** Names *)

(** [trace_id] becomes [traceId] as a property and [TraceId] in accessors. *)
Definition camel f : string :=
  match json_name (pf_name f) with String c s => String (capital c) s | EmptyString => EmptyString end.

Definition suffix f : string :=
  match pf_label f with Singular => "" | Repeated => "List" | Mapped => "Map" end.

Definition prefixed (verb : string) f : string := (verb ++ camel f ++ suffix f)%string.
Definition getter f : string := prefixed "get" f.
Definition setter f : string := prefixed "set" f.
Definition adder f : string := ("add" ++ camel f)%string.

(** ** Scalars *)

Definition jscalar_of f : option jscalar :=
  match pf_type f with
  | Scalar name => JScalar <$> scalar_of name
  | EnumType _ => Some JEnum
  | MessageType _ => None
  end.

Definition blank_value (k : jscalar) : jsval :=
  match k with
  | JScalar (TString | TBytes) => JStr []
  | JScalar TBool => JBool false
  | _ => JNum (NInt 0)
  end.

Definition proto3_of (k : jscalar) : proto3 :=
  match k with
  | JScalar TString => P3String
  | JScalar TBytes => P3Bytes
  | JScalar TBool => P3Boolean
  | JScalar (TFloat | TDouble) => P3Float
  | JScalar _ => P3Int
  | JEnum => P3Enum
  end.

Definition get_scalar (k : jscalar) (n : Z) : accessor class :=
  match k with
  | JScalar TBool => GetBooleanField n (blank_value k)
  | JScalar (TFloat | TDouble) => GetFloatField n (blank_value k)
  | _ => GetField n (blank_value k)
  end.

Definition test_of (k : jscalar) : write_test :=
  match k with
  | JScalar (TString | TBytes) => NonEmpty
  | JScalar TBool => Truthy
  | JScalar (TFloat | TDouble) | JEnum => NonZeroFloat
  | JScalar _ => NonZero
  end.

(** ** Accessors *)

(** [group] is the index of the oneof of the field. *)
Definition accessors_for (group : nat) f : option (list (string * accessor class)) :=
  let n := pf_number f in
  match pf_label f, pf_type f with
  | Singular, MessageType c =>
      Some [(getter f, GetWrapperField c n);
            (setter f, match pf_oneof f with None => SetWrapperField n | Some _ => SetOneofWrapperField n group end);
            (prefixed "clear" f, ClearField (setter f)); (prefixed "has" f, HasField n)]
  | Singular, _ =>
      (fun k =>
        (getter f, get_scalar k n) ::
        match k with
        | JScalar TBytes => [((getter f ++ "_asB64")%string, BytesAsB64 (getter f)); ((getter f ++ "_asU8")%string, BytesAsU8 (getter f))]
        | _ => []
        end ++ [(setter f, SetProto3Field (proto3_of k) n)]) <$> jscalar_of f
  | Repeated, MessageType c =>
      Some [(getter f, GetRepeatedWrapperField c n); (setter f, SetRepeatedWrapperField n);
            (adder f, AddToRepeatedWrapperField n c); (prefixed "clear" f, ClearList (setter f))]
  | Repeated, _ =>
      Some [(getter f, GetRepeatedField n); (setter f, SetField n); (adder f, AddToRepeatedField n);
            (prefixed "clear" f, ClearList (setter f))]
  | Mapped, _ => Some [(getter f, GetMapField n); (prefixed "clear" f, ClearMap (getter f))]
  end.

(** ** Methods *)

Definition write_for f : option (write_stmt class) :=
  let n := pf_number f in
  match pf_label f, pf_type f with
  | Singular, MessageType c => Some (WriteMessage (getter f) n c)
  | Singular, _ =>
      (fun k => Write (match k with JScalar TBytes => (getter f ++ "_asU8")%string | _ => getter f end) (test_of k) k n)
        <$> jscalar_of f
  | Repeated, MessageType c => Some (WriteRepeatedMessage (getter f) n c)
  | Repeated, _ =>
      (fun k => match k with
                | JScalar (TString | TBytes) => WriteRepeated (getter f) k n
                | _ => WritePacked (getter f) k n
                end) <$> jscalar_of f
  | Mapped, _ => (fun k => WriteMap (getter f) n (JScalar TString) k) <$> jscalar_of f
  end.

Definition read_for f : option (Z * read_case class) :=
  pair (pf_number f) <$>
  match pf_label f, pf_type f with
  | Singular, MessageType c => Some (ReadMessageSet c (setter f))
  | Singular, _ => (fun k => ReadSet k (setter f)) <$> jscalar_of f
  | Repeated, MessageType c => Some (ReadMessageAdd c (adder f))
  | Repeated, _ =>
      (fun k => match k with
                | JScalar (TString | TBytes) => ReadAdd k (adder f)
                | _ => ReadPackedAdd k (adder f)
                end) <$> jscalar_of f
  | Mapped, _ => (fun k => ReadMap (getter f) (JScalar TString) k (JStr []) (blank_value k)) <$> jscalar_of f
  end.

Definition object_for f : option (string * object_field class) :=
  pair (json_name (pf_name f) ++ suffix f)%string <$>
  match pf_label f, pf_type f with
  | Singular, MessageType c => Some (ShowMessage (getter f) c)
  | Singular, _ =>
      (fun k => match k with
                | JScalar TBool => ShowBooleanField (pf_number f) (blank_value k)
                | JScalar (TFloat | TDouble) => ShowFloatField (pf_number f) (blank_value k)
                | JScalar TBytes => ShowGetter (getter f ++ "_asB64")
                | _ => ShowField (pf_number f) (blank_value k)
                end) <$> jscalar_of f
  | Repeated, MessageType c => Some (ShowMessages (getter f) c)
  | Repeated, _ => Some (ShowRepeatedField (pf_number f))
  | Mapped, _ => Some (ShowMap (getter f))
  end.

(** ** Classes *)

Definition repeated_numbers fs : list Z :=
  omap (fun f => match pf_label f with Repeated => Some (pf_number f) | _ => None end) fs.

(** The members of the oneof; the messages here have one at most. *)
Definition oneof_numbers fs : list (list Z) :=
  match omap (fun f => match pf_oneof f with Some _ => Some (pf_number f) | None => None end) fs with
  | [] => []
  | l => [l]
  end.

(** The enum of the cases of a oneof. *)
Fixpoint upper (s : string) : string :=
  match s with String c s => String (capital c) (upper s) | EmptyString => EmptyString end.

Definition case_enum (oneof : string) fs : list (string * Z) :=
  ((upper oneof ++ "_NOT_SET")%string, 0) ::
  omap (fun f => match pf_oneof f with
                 | Some o => if String.eqb o oneof then Some (upper (pf_name f), pf_number f) else None
                 | None => None
                 end) fs.

Definition jspb_for fs : option (jspb_class class) :=
  match mapM object_for fs, mapM read_for fs, mapM write_for fs, mapM (accessors_for 0) fs with
  | Some objects, Some reads, Some writes, Some accessors =>
      Some {|
        jc_repeatedFields := repeated_numbers fs;
        jc_oneofGroups := oneof_numbers fs;
        jc_methods := {| jc_toObject := objects; jc_deserialize := reads; jc_serialize := writes |};
        jc_accessors := concat accessors
      |}
  | _, _, _, _ => None
  end.
End Generate.
