(* ===== verification/JspbTables.v ===== *)
(** * Tables of alert_pb.js, buspacket_pb.js, handshake_pb.js, heartbeat_pb.js, job_pb.js

    The message classes of src/node/cordum/agent/v1/*_pb.js in the
    forms of JspbCode.v: for each class its methods, its accessors and what its
    constructor gives to [jspb.Message.initialize]. *)

From S2P Require Import Prelude JsString JsValue PbRuntime StaticCode CapPbClasses JspbCode.
#[local] Open Scope string_scope.

(** ** alert_pb.js *)

Definition SystemAlert_methods : jspb_methods cap_class := {|
  jc_toObject :=
    [("level", ShowField 1 (JStr [])); ("message", ShowField 2 (JStr []));
     ("component", ShowField 3 (JStr [])); ("code", ShowField 4 (JStr []));
     ("severity", ShowField 5 (JNum (NInt 0))); ("errorCodeEnum", ShowField 6 (JNum (NInt 0)));
     ("sourceComponent", ShowField 7 (JStr [])); ("detailsMap", ShowMap "getDetailsMap");
     ("traceId", ShowField 9 (JStr []))];
  jc_deserialize :=
    [(1, ReadSet (JScalar TString) "setLevel"); (2, ReadSet (JScalar TString) "setMessage");
     (3, ReadSet (JScalar TString) "setComponent"); (4, ReadSet (JScalar TString) "setCode");
     (5, ReadSet JEnum "setSeverity"); (6, ReadSet JEnum "setErrorCodeEnum");
     (7, ReadSet (JScalar TString) "setSourceComponent");
     (8, ReadMap "getDetailsMap" (JScalar TString) (JScalar TString) (JStr []) (JStr []));
     (9, ReadSet (JScalar TString) "setTraceId")];
  jc_serialize :=
    [Write "getLevel" NonEmpty (JScalar TString) 1; Write "getMessage" NonEmpty (JScalar TString) 2;
     Write "getComponent" NonEmpty (JScalar TString) 3; Write "getCode" NonEmpty (JScalar TString) 4;
     Write "getSeverity" NonZeroFloat JEnum 5; Write "getErrorCodeEnum" NonZeroFloat JEnum 6;
     Write "getSourceComponent" NonEmpty (JScalar TString) 7;
     WriteMap "getDetailsMap" 8 (JScalar TString) (JScalar TString);
     Write "getTraceId" NonEmpty (JScalar TString) 9]
|}.

Definition SystemAlert_accessors : list (string * accessor cap_class) :=
  [("getLevel", GetField 1 (JStr [])); ("setLevel", SetProto3Field P3String 1);
   ("getMessage", GetField 2 (JStr [])); ("setMessage", SetProto3Field P3String 2);
   ("getComponent", GetField 3 (JStr [])); ("setComponent", SetProto3Field P3String 3);
   ("getCode", GetField 4 (JStr [])); ("setCode", SetProto3Field P3String 4);
   ("getSeverity", GetField 5 (JNum (NInt 0))); ("setSeverity", SetProto3Field P3Enum 5);
   ("getErrorCodeEnum", GetField 6 (JNum (NInt 0))); ("setErrorCodeEnum", SetProto3Field P3Enum 6);
   ("getSourceComponent", GetField 7 (JStr [])); ("setSourceComponent", SetProto3Field P3String 7);
   ("getDetailsMap", GetMapField 8); ("clearDetailsMap", ClearMap "getDetailsMap");
   ("getTraceId", GetField 9 (JStr [])); ("setTraceId", SetProto3Field P3String 9)].

Definition SystemAlert_jspb : jspb_class cap_class := {|
  jc_repeatedFields := [];
  jc_oneofGroups := [];
  jc_methods := SystemAlert_methods;
  jc_accessors := SystemAlert_accessors
|}.

(** ** buspacket_pb.js *)

Definition BusPacket_methods : jspb_methods cap_class := {|
  jc_toObject :=
    [("traceId", ShowField 1 (JStr [])); ("senderId", ShowField 2 (JStr []));
     ("createdAt", ShowMessage "getCreatedAt" TimestampT); ("protocolVersion", ShowField 4 (JNum (NInt 0)));
     ("signatureMetadata", ShowMessage "getSignatureMetadata" SignatureMetadataT);
     ("identity", ShowMessage "getIdentity" IdentityBindingT);
     ("jobRequest", ShowMessage "getJobRequest" JobRequestT);
     ("jobResult", ShowMessage "getJobResult" JobResultT);
     ("heartbeat", ShowMessage "getHeartbeat" HeartbeatT); ("alert", ShowMessage "getAlert" SystemAlertT);
     ("jobProgress", ShowMessage "getJobProgress" JobProgressT);
     ("jobCancel", ShowMessage "getJobCancel" JobCancelT);
     ("handshake", ShowMessage "getHandshake" HandshakeT);
     ("workerHandshakeChallengeRequest", ShowMessage "getWorkerHandshakeChallengeRequest" WorkerHandshakeChallengeRequestT);
     ("workerHandshakeChallenge", ShowMessage "getWorkerHandshakeChallenge" WorkerHandshakeChallengeT);
     ("workerHandshakeAuthenticate", ShowMessage "getWorkerHandshakeAuthenticate" WorkerHandshakeAuthenticateT);
     ("workerHandshakeResult", ShowMessage "getWorkerHandshakeResult" WorkerHandshakeResultT);
     ("signature", ShowGetter "getSignature_asB64"); ("authToken", ShowField 18 (JStr []))];
  jc_deserialize :=
    [(1, ReadSet (JScalar TString) "setTraceId"); (2, ReadSet (JScalar TString) "setSenderId");
     (3, ReadMessageSet TimestampT "setCreatedAt"); (4, ReadSet (JScalar TInt32) "setProtocolVersion");
     (5, ReadMessageSet SignatureMetadataT "setSignatureMetadata");
     (6, ReadMessageSet IdentityBindingT "setIdentity"); (10, ReadMessageSet JobRequestT "setJobRequest");
     (11, ReadMessageSet JobResultT "setJobResult"); (12, ReadMessageSet HeartbeatT "setHeartbeat");
     (13, ReadMessageSet SystemAlertT "setAlert"); (15, ReadMessageSet JobProgressT "setJobProgress");
     (16, ReadMessageSet JobCancelT "setJobCancel"); (17, ReadMessageSet HandshakeT "setHandshake");
     (19, ReadMessageSet WorkerHandshakeChallengeRequestT "setWorkerHandshakeChallengeRequest");
     (20, ReadMessageSet WorkerHandshakeChallengeT "setWorkerHandshakeChallenge");
     (21, ReadMessageSet WorkerHandshakeAuthenticateT "setWorkerHandshakeAuthenticate");
     (22, ReadMessageSet WorkerHandshakeResultT "setWorkerHandshakeResult");
     (14, ReadSet (JScalar TBytes) "setSignature"); (18, ReadSet (JScalar TString) "setAuthToken")];
  jc_serialize :=
    [Write "getTraceId" NonEmpty (JScalar TString) 1; Write "getSenderId" NonEmpty (JScalar TString) 2;
     WriteMessage "getCreatedAt" 3 TimestampT; Write "getProtocolVersion" NonZero (JScalar TInt32) 4;
     WriteMessage "getSignatureMetadata" 5 SignatureMetadataT; WriteMessage "getIdentity" 6 IdentityBindingT;
     WriteMessage "getJobRequest" 10 JobRequestT; WriteMessage "getJobResult" 11 JobResultT;
     WriteMessage "getHeartbeat" 12 HeartbeatT; WriteMessage "getAlert" 13 SystemAlertT;
     WriteMessage "getJobProgress" 15 JobProgressT; WriteMessage "getJobCancel" 16 JobCancelT;
     WriteMessage "getHandshake" 17 HandshakeT;
     WriteMessage "getWorkerHandshakeChallengeRequest" 19 WorkerHandshakeChallengeRequestT;
     WriteMessage "getWorkerHandshakeChallenge" 20 WorkerHandshakeChallengeT;
     WriteMessage "getWorkerHandshakeAuthenticate" 21 WorkerHandshakeAuthenticateT;
     WriteMessage "getWorkerHandshakeResult" 22 WorkerHandshakeResultT;
     Write "getSignature_asU8" NonEmpty (JScalar TBytes) 14;
     Write "getAuthToken" NonEmpty (JScalar TString) 18]
|}.

Definition BusPacket_accessors : list (string * accessor cap_class) :=
  [("getTraceId", GetField 1 (JStr [])); ("setTraceId", SetProto3Field P3String 1);
   ("getSenderId", GetField 2 (JStr [])); ("setSenderId", SetProto3Field P3String 2);
   ("getCreatedAt", GetWrapperField TimestampT 3); ("setCreatedAt", SetWrapperField 3);
   ("clearCreatedAt", ClearField "setCreatedAt"); ("hasCreatedAt", HasField 3);
   ("getProtocolVersion", GetField 4 (JNum (NInt 0))); ("setProtocolVersion", SetProto3Field P3Int 4);
   ("getSignatureMetadata", GetWrapperField SignatureMetadataT 5); ("setSignatureMetadata", SetWrapperField 5);
   ("clearSignatureMetadata", ClearField "setSignatureMetadata"); ("hasSignatureMetadata", HasField 5);
   ("getIdentity", GetWrapperField IdentityBindingT 6); ("setIdentity", SetWrapperField 6);
   ("clearIdentity", ClearField "setIdentity"); ("hasIdentity", HasField 6);
   ("getJobRequest", GetWrapperField JobRequestT 10); ("setJobRequest", SetOneofWrapperField 10 0%nat);
   ("clearJobRequest", ClearField "setJobRequest"); ("hasJobRequest", HasField 10);
   ("getJobResult", GetWrapperField JobResultT 11); ("setJobResult", SetOneofWrapperField 11 0%nat);
   ("clearJobResult", ClearField "setJobResult"); ("hasJobResult", HasField 11);
   ("getHeartbeat", GetWrapperField HeartbeatT 12); ("setHeartbeat", SetOneofWrapperField 12 0%nat);
   ("clearHeartbeat", ClearField "setHeartbeat"); ("hasHeartbeat", HasField 12);
   ("getAlert", GetWrapperField SystemAlertT 13); ("setAlert", SetOneofWrapperField 13 0%nat);
   ("clearAlert", ClearField "setAlert"); ("hasAlert", HasField 13);
   ("getJobProgress", GetWrapperField JobProgressT 15); ("setJobProgress", SetOneofWrapperField 15 0%nat);
   ("clearJobProgress", ClearField "setJobProgress"); ("hasJobProgress", HasField 15);
   ("getJobCancel", GetWrapperField JobCancelT 16); ("setJobCancel", SetOneofWrapperField 16 0%nat);
   ("clearJobCancel", ClearField "setJobCancel"); ("hasJobCancel", HasField 16);
   ("getHandshake", GetWrapperField HandshakeT 17); ("setHandshake", SetOneofWrapperField 17 0%nat);
   ("clearHandshake", ClearField "setHandshake"); ("hasHandshake", HasField 17);
   ("getWorkerHandshakeChallengeRequest", GetWrapperField WorkerHandshakeChallengeRequestT 19);
   ("setWorkerHandshakeChallengeRequest", SetOneofWrapperField 19 0%nat);
   ("clearWorkerHandshakeChallengeRequest", ClearField "setWorkerHandshakeChallengeRequest");
   ("hasWorkerHandshakeChallengeRequest", HasField 19);
   ("getWorkerHandshakeChallenge", GetWrapperField WorkerHandshakeChallengeT 20);
   ("setWorkerHandshakeChallenge", SetOneofWrapperField 20 0%nat);
   ("clearWorkerHandshakeChallenge", ClearField "setWorkerHandshakeChallenge");
   ("hasWorkerHandshakeChallenge", HasField 20);
   ("getWorkerHandshakeAuthenticate", GetWrapperField WorkerHandshakeAuthenticateT 21);
   ("setWorkerHandshakeAuthenticate", SetOneofWrapperField 21 0%nat);
   ("clearWorkerHandshakeAuthenticate", ClearField "setWorkerHandshakeAuthenticate");
   ("hasWorkerHandshakeAuthenticate", HasField 21);
   ("getWorkerHandshakeResult", GetWrapperField WorkerHandshakeResultT 22);
   ("setWorkerHandshakeResult", SetOneofWrapperField 22 0%nat);
   ("clearWorkerHandshakeResult", ClearField "setWorkerHandshakeResult");
   ("hasWorkerHandshakeResult", HasField 22); ("getSignature", GetField 14 (JStr []));
   ("getSignature_asB64", BytesAsB64 "getSignature"); ("getSignature_asU8", BytesAsU8 "getSignature");
   ("setSignature", SetProto3Field P3Bytes 14); ("getAuthToken", GetField 18 (JStr []));
   ("setAuthToken", SetProto3Field P3String 18)].

(** [PayloadCase] *)
Definition BusPacket_PayloadCase : list (string * Z) :=
  [("PAYLOAD_NOT_SET", 0); ("JOB_REQUEST", 10); ("JOB_RESULT", 11); ("HEARTBEAT", 12); ("ALERT", 13);
   ("JOB_PROGRESS", 15); ("JOB_CANCEL", 16); ("HANDSHAKE", 17); ("WORKER_HANDSHAKE_CHALLENGE_REQUEST", 19);
   ("WORKER_HANDSHAKE_CHALLENGE", 20); ("WORKER_HANDSHAKE_AUTHENTICATE", 21); ("WORKER_HANDSHAKE_RESULT", 22)].

Definition BusPacket_jspb : jspb_class cap_class := {|
  jc_repeatedFields := [];
  jc_oneofGroups := [[10; 11; 12; 13; 15; 16; 17; 19; 20; 21; 22]];
  jc_methods := BusPacket_methods;
  jc_accessors := BusPacket_accessors
|}.

Definition SignatureMetadata_methods : jspb_methods cap_class := {|
  jc_toObject :=
    [("profileVersion", ShowField 1 (JStr [])); ("algorithm", ShowField 2 (JStr []));
     ("messageId", ShowGetter "getMessageId_asB64"); ("audience", ShowField 4 (JStr []));
     ("expiresAt", ShowMessage "getExpiresAt" TimestampT); ("keyId", ShowField 6 (JStr []))];
  jc_deserialize :=
    [(1, ReadSet (JScalar TString) "setProfileVersion"); (2, ReadSet (JScalar TString) "setAlgorithm");
     (3, ReadSet (JScalar TBytes) "setMessageId"); (4, ReadSet (JScalar TString) "setAudience");
     (5, ReadMessageSet TimestampT "setExpiresAt"); (6, ReadSet (JScalar TString) "setKeyId")];
  jc_serialize :=
    [Write "getProfileVersion" NonEmpty (JScalar TString) 1; Write "getAlgorithm" NonEmpty (JScalar TString) 2;
     Write "getMessageId_asU8" NonEmpty (JScalar TBytes) 3; Write "getAudience" NonEmpty (JScalar TString) 4;
     WriteMessage "getExpiresAt" 5 TimestampT; Write "getKeyId" NonEmpty (JScalar TString) 6]
|}.

Definition SignatureMetadata_accessors : list (string * accessor cap_class) :=
  [("getProfileVersion", GetField 1 (JStr [])); ("setProfileVersion", SetProto3Field P3String 1);
   ("getAlgorithm", GetField 2 (JStr [])); ("setAlgorithm", SetProto3Field P3String 2);
   ("getMessageId", GetField 3 (JStr [])); ("getMessageId_asB64", BytesAsB64 "getMessageId");
   ("getMessageId_asU8", BytesAsU8 "getMessageId"); ("setMessageId", SetProto3Field P3Bytes 3);
   ("getAudience", GetField 4 (JStr [])); ("setAudience", SetProto3Field P3String 4);
   ("getExpiresAt", GetWrapperField TimestampT 5); ("setExpiresAt", SetWrapperField 5);
   ("clearExpiresAt", ClearField "setExpiresAt"); ("hasExpiresAt", HasField 5);
   ("getKeyId", GetField 6 (JStr [])); ("setKeyId", SetProto3Field P3String 6)].

Definition SignatureMetadata_jspb : jspb_class cap_class := {|
  jc_repeatedFields := [];
  jc_oneofGroups := [];
  jc_methods := SignatureMetadata_methods;
  jc_accessors := SignatureMetadata_accessors
|}.

(** ** handshake_pb.js *)

Definition Handshake_methods : jspb_methods cap_class := {|
  jc_toObject :=
    [("componentId", ShowField 1 (JStr [])); ("role", ShowField 2 (JNum (NInt 0)));
     ("supportedVersionsList", ShowRepeatedField 3); ("capabilitiesMap", ShowMap "getCapabilitiesMap");
     ("sdkVersion", ShowField 5 (JStr [])); ("readyTopicsList", ShowRepeatedField 6);
     ("agentName", ShowField 7 (JStr []))];
  jc_deserialize :=
    [(1, ReadSet (JScalar TString) "setComponentId"); (2, ReadSet JEnum "setRole");
     (3, ReadPackedAdd (JScalar TInt32) "addSupportedVersions");
     (4, ReadMap "getCapabilitiesMap" (JScalar TString) (JScalar TBool) (JStr []) (JBool false));
     (5, ReadSet (JScalar TString) "setSdkVersion"); (6, ReadAdd (JScalar TString) "addReadyTopics");
     (7, ReadSet (JScalar TString) "setAgentName")];
  jc_serialize :=
    [Write "getComponentId" NonEmpty (JScalar TString) 1; Write "getRole" NonZeroFloat JEnum 2;
     WritePacked "getSupportedVersionsList" (JScalar TInt32) 3;
     WriteMap "getCapabilitiesMap" 4 (JScalar TString) (JScalar TBool);
     Write "getSdkVersion" NonEmpty (JScalar TString) 5;
     WriteRepeated "getReadyTopicsList" (JScalar TString) 6; Write "getAgentName" NonEmpty (JScalar TString) 7]
|}.

Definition Handshake_accessors : list (string * accessor cap_class) :=
  [("getComponentId", GetField 1 (JStr [])); ("setComponentId", SetProto3Field P3String 1);
   ("getRole", GetField 2 (JNum (NInt 0))); ("setRole", SetProto3Field P3Enum 2);
   ("getSupportedVersionsList", GetRepeatedField 3); ("setSupportedVersionsList", SetField 3);
   ("addSupportedVersions", AddToRepeatedField 3);
   ("clearSupportedVersionsList", ClearList "setSupportedVersionsList"); ("getCapabilitiesMap", GetMapField 4);
   ("clearCapabilitiesMap", ClearMap "getCapabilitiesMap"); ("getSdkVersion", GetField 5 (JStr []));
   ("setSdkVersion", SetProto3Field P3String 5); ("getReadyTopicsList", GetRepeatedField 6);
   ("setReadyTopicsList", SetField 6); ("addReadyTopics", AddToRepeatedField 6);
   ("clearReadyTopicsList", ClearList "setReadyTopicsList"); ("getAgentName", GetField 7 (JStr []));
   ("setAgentName", SetProto3Field P3String 7)].

Definition Handshake_jspb : jspb_class cap_class := {|
  jc_repeatedFields := [3; 6];
  jc_oneofGroups := [];
  jc_methods := Handshake_methods;
  jc_accessors := Handshake_accessors
|}.

Definition WorkerHandshakeChallengeRequest_methods : jspb_methods cap_class := {|
  jc_toObject :=
    [("requestId", ShowField 1 (JStr [])); ("traceId", ShowField 2 (JStr []));
     ("workerId", ShowField 3 (JStr [])); ("proofKeyId", ShowField 4 (JStr []));
     ("proofAlgorithm", ShowField 5 (JNum (NInt 0))); ("audience", ShowField 6 (JStr []));
     ("purpose", ShowField 7 (JNum (NInt 0))); ("clientNonce", ShowGetter "getClientNonce_asB64");
     ("protocolVersion", ShowField 9 (JNum (NInt 0))); ("sdkVersion", ShowField 10 (JStr []))];
  jc_deserialize :=
    [(1, ReadSet (JScalar TString) "setRequestId"); (2, ReadSet (JScalar TString) "setTraceId");
     (3, ReadSet (JScalar TString) "setWorkerId"); (4, ReadSet (JScalar TString) "setProofKeyId");
     (5, ReadSet JEnum "setProofAlgorithm"); (6, ReadSet (JScalar TString) "setAudience");
     (7, ReadSet JEnum "setPurpose"); (8, ReadSet (JScalar TBytes) "setClientNonce");
     (9, ReadSet (JScalar TInt32) "setProtocolVersion"); (10, ReadSet (JScalar TString) "setSdkVersion")];
  jc_serialize :=
    [Write "getRequestId" NonEmpty (JScalar TString) 1; Write "getTraceId" NonEmpty (JScalar TString) 2;
     Write "getWorkerId" NonEmpty (JScalar TString) 3; Write "getProofKeyId" NonEmpty (JScalar TString) 4;
     Write "getProofAlgorithm" NonZeroFloat JEnum 5; Write "getAudience" NonEmpty (JScalar TString) 6;
     Write "getPurpose" NonZeroFloat JEnum 7; Write "getClientNonce_asU8" NonEmpty (JScalar TBytes) 8;
     Write "getProtocolVersion" NonZero (JScalar TInt32) 9;
     Write "getSdkVersion" NonEmpty (JScalar TString) 10]
|}.

Definition WorkerHandshakeChallengeRequest_accessors : list (string * accessor cap_class) :=
  [("getRequestId", GetField 1 (JStr [])); ("setRequestId", SetProto3Field P3String 1);
   ("getTraceId", GetField 2 (JStr [])); ("setTraceId", SetProto3Field P3String 2);
   ("getWorkerId", GetField 3 (JStr [])); ("setWorkerId", SetProto3Field P3String 3);
   ("getProofKeyId", GetField 4 (JStr [])); ("setProofKeyId", SetProto3Field P3String 4);
   ("getProofAlgorithm", GetField 5 (JNum (NInt 0))); ("setProofAlgorithm", SetProto3Field P3Enum 5);
   ("getAudience", GetField 6 (JStr [])); ("setAudience", SetProto3Field P3String 6);
   ("getPurpose", GetField 7 (JNum (NInt 0))); ("setPurpose", SetProto3Field P3Enum 7);
   ("getClientNonce", GetField 8 (JStr [])); ("getClientNonce_asB64", BytesAsB64 "getClientNonce");
   ("getClientNonce_asU8", BytesAsU8 "getClientNonce"); ("setClientNonce", SetProto3Field P3Bytes 8);
   ("getProtocolVersion", GetField 9 (JNum (NInt 0))); ("setProtocolVersion", SetProto3Field P3Int 9);
   ("getSdkVersion", GetField 10 (JStr [])); ("setSdkVersion", SetProto3Field P3String 10)].

Definition WorkerHandshakeChallengeRequest_jspb : jspb_class cap_class := {|
  jc_repeatedFields := [];
  jc_oneofGroups := [];
  jc_methods := WorkerHandshakeChallengeRequest_methods;
  jc_accessors := WorkerHandshakeChallengeRequest_accessors
|}.

Definition WorkerHandshakeChallenge_methods : jspb_methods cap_class := {|
  jc_toObject :=
    [("requestId", ShowField 1 (JStr [])); ("challengeId", ShowField 2 (JStr []));
     ("traceId", ShowField 3 (JStr [])); ("workerId", ShowField 4 (JStr []));
     ("agentId", ShowField 5 (JStr [])); ("tenantId", ShowField 6 (JStr []));
     ("proofKeyId", ShowField 7 (JStr [])); ("proofAlgorithm", ShowField 8 (JNum (NInt 0)));
     ("serverKeyId", ShowField 9 (JStr [])); ("audience", ShowField 10 (JStr []));
     ("purpose", ShowField 11 (JNum (NInt 0))); ("clientNonce", ShowGetter "getClientNonce_asB64");
     ("serverNonce", ShowGetter "getServerNonce_asB64"); ("protocolVersion", ShowField 14 (JNum (NInt 0)));
     ("sdkVersion", ShowField 15 (JStr [])); ("issuedAt", ShowMessage "getIssuedAt" TimestampT);
     ("expiresAt", ShowMessage "getExpiresAt" TimestampT)];
  jc_deserialize :=
    [(1, ReadSet (JScalar TString) "setRequestId"); (2, ReadSet (JScalar TString) "setChallengeId");
     (3, ReadSet (JScalar TString) "setTraceId"); (4, ReadSet (JScalar TString) "setWorkerId");
     (5, ReadSet (JScalar TString) "setAgentId"); (6, ReadSet (JScalar TString) "setTenantId");
     (7, ReadSet (JScalar TString) "setProofKeyId"); (8, ReadSet JEnum "setProofAlgorithm");
     (9, ReadSet (JScalar TString) "setServerKeyId"); (10, ReadSet (JScalar TString) "setAudience");
     (11, ReadSet JEnum "setPurpose"); (12, ReadSet (JScalar TBytes) "setClientNonce");
     (13, ReadSet (JScalar TBytes) "setServerNonce"); (14, ReadSet (JScalar TInt32) "setProtocolVersion");
     (15, ReadSet (JScalar TString) "setSdkVersion"); (16, ReadMessageSet TimestampT "setIssuedAt");
     (17, ReadMessageSet TimestampT "setExpiresAt")];
  jc_serialize :=
    [Write "getRequestId" NonEmpty (JScalar TString) 1; Write "getChallengeId" NonEmpty (JScalar TString) 2;
     Write "getTraceId" NonEmpty (JScalar TString) 3; Write "getWorkerId" NonEmpty (JScalar TString) 4;
     Write "getAgentId" NonEmpty (JScalar TString) 5; Write "getTenantId" NonEmpty (JScalar TString) 6;
     Write "getProofKeyId" NonEmpty (JScalar TString) 7; Write "getProofAlgorithm" NonZeroFloat JEnum 8;
     Write "getServerKeyId" NonEmpty (JScalar TString) 9; Write "getAudience" NonEmpty (JScalar TString) 10;
     Write "getPurpose" NonZeroFloat JEnum 11; Write "getClientNonce_asU8" NonEmpty (JScalar TBytes) 12;
     Write "getServerNonce_asU8" NonEmpty (JScalar TBytes) 13;
     Write "getProtocolVersion" NonZero (JScalar TInt32) 14;
     Write "getSdkVersion" NonEmpty (JScalar TString) 15; WriteMessage "getIssuedAt" 16 TimestampT;
     WriteMessage "getExpiresAt" 17 TimestampT]
|}.

Definition WorkerHandshakeChallenge_accessors : list (string * accessor cap_class) :=
  [("getRequestId", GetField 1 (JStr [])); ("setRequestId", SetProto3Field P3String 1);
   ("getChallengeId", GetField 2 (JStr [])); ("setChallengeId", SetProto3Field P3String 2);
   ("getTraceId", GetField 3 (JStr [])); ("setTraceId", SetProto3Field P3String 3);
   ("getWorkerId", GetField 4 (JStr [])); ("setWorkerId", SetProto3Field P3String 4);
   ("getAgentId", GetField 5 (JStr [])); ("setAgentId", SetProto3Field P3String 5);
   ("getTenantId", GetField 6 (JStr [])); ("setTenantId", SetProto3Field P3String 6);
   ("getProofKeyId", GetField 7 (JStr [])); ("setProofKeyId", SetProto3Field P3String 7);
   ("getProofAlgorithm", GetField 8 (JNum (NInt 0))); ("setProofAlgorithm", SetProto3Field P3Enum 8);
   ("getServerKeyId", GetField 9 (JStr [])); ("setServerKeyId", SetProto3Field P3String 9);
   ("getAudience", GetField 10 (JStr [])); ("setAudience", SetProto3Field P3String 10);
   ("getPurpose", GetField 11 (JNum (NInt 0))); ("setPurpose", SetProto3Field P3Enum 11);
   ("getClientNonce", GetField 12 (JStr [])); ("getClientNonce_asB64", BytesAsB64 "getClientNonce");
   ("getClientNonce_asU8", BytesAsU8 "getClientNonce"); ("setClientNonce", SetProto3Field P3Bytes 12);
   ("getServerNonce", GetField 13 (JStr [])); ("getServerNonce_asB64", BytesAsB64 "getServerNonce");
   ("getServerNonce_asU8", BytesAsU8 "getServerNonce"); ("setServerNonce", SetProto3Field P3Bytes 13);
   ("getProtocolVersion", GetField 14 (JNum (NInt 0))); ("setProtocolVersion", SetProto3Field P3Int 14);
   ("getSdkVersion", GetField 15 (JStr [])); ("setSdkVersion", SetProto3Field P3String 15);
   ("getIssuedAt", GetWrapperField TimestampT 16); ("setIssuedAt", SetWrapperField 16);
   ("clearIssuedAt", ClearField "setIssuedAt"); ("hasIssuedAt", HasField 16);
   ("getExpiresAt", GetWrapperField TimestampT 17); ("setExpiresAt", SetWrapperField 17);
   ("clearExpiresAt", ClearField "setExpiresAt"); ("hasExpiresAt", HasField 17)].

Definition WorkerHandshakeChallenge_jspb : jspb_class cap_class := {|
  jc_repeatedFields := [];
  jc_oneofGroups := [];
  jc_methods := WorkerHandshakeChallenge_methods;
  jc_accessors := WorkerHandshakeChallenge_accessors
|}.

Definition WorkerHandshakeAuthenticate_methods : jspb_methods cap_class := {|
  jc_toObject :=
    [("challenge", ShowMessage "getChallenge" WorkerHandshakeChallengeT);
     ("capabilityHandshake", ShowMessage "getCapabilityHandshake" HandshakeT)];
  jc_deserialize :=
    [(1, ReadMessageSet WorkerHandshakeChallengeT "setChallenge");
     (2, ReadMessageSet HandshakeT "setCapabilityHandshake")];
  jc_serialize :=
    [WriteMessage "getChallenge" 1 WorkerHandshakeChallengeT;
     WriteMessage "getCapabilityHandshake" 2 HandshakeT]
|}.

Definition WorkerHandshakeAuthenticate_accessors : list (string * accessor cap_class) :=
  [("getChallenge", GetWrapperField WorkerHandshakeChallengeT 1); ("setChallenge", SetWrapperField 1);
   ("clearChallenge", ClearField "setChallenge"); ("hasChallenge", HasField 1);
   ("getCapabilityHandshake", GetWrapperField HandshakeT 2); ("setCapabilityHandshake", SetWrapperField 2);
   ("clearCapabilityHandshake", ClearField "setCapabilityHandshake"); ("hasCapabilityHandshake", HasField 2)].

Definition WorkerHandshakeAuthenticate_jspb : jspb_class cap_class := {|
  jc_repeatedFields := [];
  jc_oneofGroups := [];
  jc_methods := WorkerHandshakeAuthenticate_methods;
  jc_accessors := WorkerHandshakeAuthenticate_accessors
|}.

Definition WorkerHandshakeResult_methods : jspb_methods cap_class := {|
  jc_toObject :=
    [("challenge", ShowMessage "getChallenge" WorkerHandshakeChallengeT);
     ("accepted", ShowBooleanField 2 (JBool false)); ("rejectionReason", ShowField 3 (JNum (NInt 0)));
     ("tokenExpiresAt", ShowMessage "getTokenExpiresAt" TimestampT);
     ("issuedAt", ShowMessage "getIssuedAt" TimestampT)];
  jc_deserialize :=
    [(1, ReadMessageSet WorkerHandshakeChallengeT "setChallenge"); (2, ReadSet (JScalar TBool) "setAccepted");
     (3, ReadSet JEnum "setRejectionReason"); (4, ReadMessageSet TimestampT "setTokenExpiresAt");
     (5, ReadMessageSet TimestampT "setIssuedAt")];
  jc_serialize :=
    [WriteMessage "getChallenge" 1 WorkerHandshakeChallengeT; Write "getAccepted" Truthy (JScalar TBool) 2;
     Write "getRejectionReason" NonZeroFloat JEnum 3; WriteMessage "getTokenExpiresAt" 4 TimestampT;
     WriteMessage "getIssuedAt" 5 TimestampT]
|}.

Definition WorkerHandshakeResult_accessors : list (string * accessor cap_class) :=
  [("getChallenge", GetWrapperField WorkerHandshakeChallengeT 1); ("setChallenge", SetWrapperField 1);
   ("clearChallenge", ClearField "setChallenge"); ("hasChallenge", HasField 1);
   ("getAccepted", GetBooleanField 2 (JBool false)); ("setAccepted", SetProto3Field P3Boolean 2);
   ("getRejectionReason", GetField 3 (JNum (NInt 0))); ("setRejectionReason", SetProto3Field P3Enum 3);
   ("getTokenExpiresAt", GetWrapperField TimestampT 4); ("setTokenExpiresAt", SetWrapperField 4);
   ("clearTokenExpiresAt", ClearField "setTokenExpiresAt"); ("hasTokenExpiresAt", HasField 4);
   ("getIssuedAt", GetWrapperField TimestampT 5); ("setIssuedAt", SetWrapperField 5);
   ("clearIssuedAt", ClearField "setIssuedAt"); ("hasIssuedAt", HasField 5)].

Definition WorkerHandshakeResult_jspb : jspb_class cap_class := {|
  jc_repeatedFields := [];
  jc_oneofGroups := [];
  jc_methods := WorkerHandshakeResult_methods;
  jc_accessors := WorkerHandshakeResult_accessors
|}.

(** ** heartbeat_pb.js *)

Definition Heartbeat_methods : jspb_methods cap_class := {|
  jc_toObject :=
    [("workerId", ShowField 1 (JStr [])); ("region", ShowField 2 (JStr [])); ("type", ShowField 3 (JStr []));
     ("cpuLoad", ShowFloatField 4 (JNum (NInt 0))); ("gpuUtilization", ShowFloatField 5 (JNum (NInt 0)));
     ("activeJobs", ShowField 6 (JNum (NInt 0))); ("capabilitiesList", ShowRepeatedField 7);
     ("pool", ShowField 11 (JStr [])); ("maxParallelJobs", ShowField 12 (JNum (NInt 0)));
     ("labelsMap", ShowMap "getLabelsMap"); ("memoryLoad", ShowFloatField 14 (JNum (NInt 0)));
     ("progressPct", ShowField 15 (JNum (NInt 0))); ("lastMemo", ShowField 16 (JStr []));
     ("authToken", ShowField 18 (JStr [])); ("agentName", ShowField 19 (JStr []))];
  jc_deserialize :=
    [(1, ReadSet (JScalar TString) "setWorkerId"); (2, ReadSet (JScalar TString) "setRegion");
     (3, ReadSet (JScalar TString) "setType"); (4, ReadSet (JScalar TFloat) "setCpuLoad");
     (5, ReadSet (JScalar TFloat) "setGpuUtilization"); (6, ReadSet (JScalar TInt32) "setActiveJobs");
     (7, ReadAdd (JScalar TString) "addCapabilities"); (11, ReadSet (JScalar TString) "setPool");
     (12, ReadSet (JScalar TInt32) "setMaxParallelJobs");
     (13, ReadMap "getLabelsMap" (JScalar TString) (JScalar TString) (JStr []) (JStr []));
     (14, ReadSet (JScalar TFloat) "setMemoryLoad"); (15, ReadSet (JScalar TInt32) "setProgressPct");
     (16, ReadSet (JScalar TString) "setLastMemo"); (18, ReadSet (JScalar TString) "setAuthToken");
     (19, ReadSet (JScalar TString) "setAgentName")];
  jc_serialize :=
    [Write "getWorkerId" NonEmpty (JScalar TString) 1; Write "getRegion" NonEmpty (JScalar TString) 2;
     Write "getType" NonEmpty (JScalar TString) 3; Write "getCpuLoad" NonZeroFloat (JScalar TFloat) 4;
     Write "getGpuUtilization" NonZeroFloat (JScalar TFloat) 5;
     Write "getActiveJobs" NonZero (JScalar TInt32) 6; WriteRepeated "getCapabilitiesList" (JScalar TString) 7;
     Write "getPool" NonEmpty (JScalar TString) 11; Write "getMaxParallelJobs" NonZero (JScalar TInt32) 12;
     WriteMap "getLabelsMap" 13 (JScalar TString) (JScalar TString);
     Write "getMemoryLoad" NonZeroFloat (JScalar TFloat) 14;
     Write "getProgressPct" NonZero (JScalar TInt32) 15; Write "getLastMemo" NonEmpty (JScalar TString) 16;
     Write "getAuthToken" NonEmpty (JScalar TString) 18; Write "getAgentName" NonEmpty (JScalar TString) 19]
|}.

Definition Heartbeat_accessors : list (string * accessor cap_class) :=
  [("getWorkerId", GetField 1 (JStr [])); ("setWorkerId", SetProto3Field P3String 1);
   ("getRegion", GetField 2 (JStr [])); ("setRegion", SetProto3Field P3String 2);
   ("getType", GetField 3 (JStr [])); ("setType", SetProto3Field P3String 3);
   ("getCpuLoad", GetFloatField 4 (JNum (NInt 0))); ("setCpuLoad", SetProto3Field P3Float 4);
   ("getGpuUtilization", GetFloatField 5 (JNum (NInt 0))); ("setGpuUtilization", SetProto3Field P3Float 5);
   ("getActiveJobs", GetField 6 (JNum (NInt 0))); ("setActiveJobs", SetProto3Field P3Int 6);
   ("getCapabilitiesList", GetRepeatedField 7); ("setCapabilitiesList", SetField 7);
   ("addCapabilities", AddToRepeatedField 7); ("clearCapabilitiesList", ClearList "setCapabilitiesList");
   ("getPool", GetField 11 (JStr [])); ("setPool", SetProto3Field P3String 11);
   ("getMaxParallelJobs", GetField 12 (JNum (NInt 0))); ("setMaxParallelJobs", SetProto3Field P3Int 12);
   ("getLabelsMap", GetMapField 13); ("clearLabelsMap", ClearMap "getLabelsMap");
   ("getMemoryLoad", GetFloatField 14 (JNum (NInt 0))); ("setMemoryLoad", SetProto3Field P3Float 14);
   ("getProgressPct", GetField 15 (JNum (NInt 0))); ("setProgressPct", SetProto3Field P3Int 15);
   ("getLastMemo", GetField 16 (JStr [])); ("setLastMemo", SetProto3Field P3String 16);
   ("getAuthToken", GetField 18 (JStr [])); ("setAuthToken", SetProto3Field P3String 18);
   ("getAgentName", GetField 19 (JStr [])); ("setAgentName", SetProto3Field P3String 19)].

Definition Heartbeat_jspb : jspb_class cap_class := {|
  jc_repeatedFields := [7];
  jc_oneofGroups := [];
  jc_methods := Heartbeat_methods;
  jc_accessors := Heartbeat_accessors
|}.

(** ** job_pb.js *)

Definition IdentityBinding_methods : jspb_methods cap_class := {|
  jc_toObject :=
    [("tenantId", ShowField 1 (JStr [])); ("principalId", ShowField 2 (JStr []));
     ("actorId", ShowField 3 (JStr [])); ("delegationId", ShowField 4 (JStr []))];
  jc_deserialize :=
    [(1, ReadSet (JScalar TString) "setTenantId"); (2, ReadSet (JScalar TString) "setPrincipalId");
     (3, ReadSet (JScalar TString) "setActorId"); (4, ReadSet (JScalar TString) "setDelegationId")];
  jc_serialize :=
    [Write "getTenantId" NonEmpty (JScalar TString) 1; Write "getPrincipalId" NonEmpty (JScalar TString) 2;
     Write "getActorId" NonEmpty (JScalar TString) 3; Write "getDelegationId" NonEmpty (JScalar TString) 4]
|}.

Definition IdentityBinding_accessors : list (string * accessor cap_class) :=
  [("getTenantId", GetField 1 (JStr [])); ("setTenantId", SetProto3Field P3String 1);
   ("getPrincipalId", GetField 2 (JStr [])); ("setPrincipalId", SetProto3Field P3String 2);
   ("getActorId", GetField 3 (JStr [])); ("setActorId", SetProto3Field P3String 3);
   ("getDelegationId", GetField 4 (JStr [])); ("setDelegationId", SetProto3Field P3String 4)].

Definition IdentityBinding_jspb : jspb_class cap_class := {|
  jc_repeatedFields := [];
  jc_oneofGroups := [];
  jc_methods := IdentityBinding_methods;
  jc_accessors := IdentityBinding_accessors
|}.

Definition DispatchIdentity_methods : jspb_methods cap_class := {|
  jc_toObject :=
    [("dispatchId", ShowField 1 (JStr [])); ("attempt", ShowField 2 (JNum (NInt 0)));
     ("assignedWorkerId", ShowField 3 (JStr []))];
  jc_deserialize :=
    [(1, ReadSet (JScalar TString) "setDispatchId"); (2, ReadSet (JScalar TUint64) "setAttempt");
     (3, ReadSet (JScalar TString) "setAssignedWorkerId")];
  jc_serialize :=
    [Write "getDispatchId" NonEmpty (JScalar TString) 1; Write "getAttempt" NonZero (JScalar TUint64) 2;
     Write "getAssignedWorkerId" NonEmpty (JScalar TString) 3]
|}.

Definition DispatchIdentity_accessors : list (string * accessor cap_class) :=
  [("getDispatchId", GetField 1 (JStr [])); ("setDispatchId", SetProto3Field P3String 1);
   ("getAttempt", GetField 2 (JNum (NInt 0))); ("setAttempt", SetProto3Field P3Int 2);
   ("getAssignedWorkerId", GetField 3 (JStr [])); ("setAssignedWorkerId", SetProto3Field P3String 3)].

Definition DispatchIdentity_jspb : jspb_class cap_class := {|
  jc_repeatedFields := [];
  jc_oneofGroups := [];
  jc_methods := DispatchIdentity_methods;
  jc_accessors := DispatchIdentity_accessors
|}.

Definition ResourceRef_methods : jspb_methods cap_class := {|
  jc_toObject :=
    [("resolverId", ShowField 1 (JStr [])); ("uri", ShowField 2 (JStr []));
     ("sha256", ShowGetter "getSha256_asB64"); ("mediaType", ShowField 4 (JStr []));
     ("sizeBytes", ShowField 5 (JNum (NInt 0))); ("expiresAt", ShowMessage "getExpiresAt" TimestampT);
     ("purpose", ShowField 7 (JStr []))];
  jc_deserialize :=
    [(1, ReadSet (JScalar TString) "setResolverId"); (2, ReadSet (JScalar TString) "setUri");
     (3, ReadSet (JScalar TBytes) "setSha256"); (4, ReadSet (JScalar TString) "setMediaType");
     (5, ReadSet (JScalar TUint64) "setSizeBytes"); (6, ReadMessageSet TimestampT "setExpiresAt");
     (7, ReadSet (JScalar TString) "setPurpose")];
  jc_serialize :=
    [Write "getResolverId" NonEmpty (JScalar TString) 1; Write "getUri" NonEmpty (JScalar TString) 2;
     Write "getSha256_asU8" NonEmpty (JScalar TBytes) 3; Write "getMediaType" NonEmpty (JScalar TString) 4;
     Write "getSizeBytes" NonZero (JScalar TUint64) 5; WriteMessage "getExpiresAt" 6 TimestampT;
     Write "getPurpose" NonEmpty (JScalar TString) 7]
|}.

Definition ResourceRef_accessors : list (string * accessor cap_class) :=
  [("getResolverId", GetField 1 (JStr [])); ("setResolverId", SetProto3Field P3String 1);
   ("getUri", GetField 2 (JStr [])); ("setUri", SetProto3Field P3String 2);
   ("getSha256", GetField 3 (JStr [])); ("getSha256_asB64", BytesAsB64 "getSha256");
   ("getSha256_asU8", BytesAsU8 "getSha256"); ("setSha256", SetProto3Field P3Bytes 3);
   ("getMediaType", GetField 4 (JStr [])); ("setMediaType", SetProto3Field P3String 4);
   ("getSizeBytes", GetField 5 (JNum (NInt 0))); ("setSizeBytes", SetProto3Field P3Int 5);
   ("getExpiresAt", GetWrapperField TimestampT 6); ("setExpiresAt", SetWrapperField 6);
   ("clearExpiresAt", ClearField "setExpiresAt"); ("hasExpiresAt", HasField 6);
   ("getPurpose", GetField 7 (JStr [])); ("setPurpose", SetProto3Field P3String 7)].

Definition ResourceRef_jspb : jspb_class cap_class := {|
  jc_repeatedFields := [];
  jc_oneofGroups := [];
  jc_methods := ResourceRef_methods;
  jc_accessors := ResourceRef_accessors
|}.

Definition ContextHints_methods : jspb_methods cap_class := {|
  jc_toObject :=
    [("maxInputTokens", ShowField 1 (JNum (NInt 0))); ("allowSummarization", ShowBooleanField 2 (JBool false));
     ("allowRetrieval", ShowBooleanField 3 (JBool false)); ("tagsList", ShowRepeatedField 4)];
  jc_deserialize :=
    [(1, ReadSet (JScalar TInt32) "setMaxInputTokens"); (2, ReadSet (JScalar TBool) "setAllowSummarization");
     (3, ReadSet (JScalar TBool) "setAllowRetrieval"); (4, ReadAdd (JScalar TString) "addTags")];
  jc_serialize :=
    [Write "getMaxInputTokens" NonZero (JScalar TInt32) 1;
     Write "getAllowSummarization" Truthy (JScalar TBool) 2;
     Write "getAllowRetrieval" Truthy (JScalar TBool) 3; WriteRepeated "getTagsList" (JScalar TString) 4]
|}.

Definition ContextHints_accessors : list (string * accessor cap_class) :=
  [("getMaxInputTokens", GetField 1 (JNum (NInt 0))); ("setMaxInputTokens", SetProto3Field P3Int 1);
   ("getAllowSummarization", GetBooleanField 2 (JBool false));
   ("setAllowSummarization", SetProto3Field P3Boolean 2);
   ("getAllowRetrieval", GetBooleanField 3 (JBool false)); ("setAllowRetrieval", SetProto3Field P3Boolean 3);
   ("getTagsList", GetRepeatedField 4); ("setTagsList", SetField 4); ("addTags", AddToRepeatedField 4);
   ("clearTagsList", ClearList "setTagsList")].

Definition ContextHints_jspb : jspb_class cap_class := {|
  jc_repeatedFields := [4];
  jc_oneofGroups := [];
  jc_methods := ContextHints_methods;
  jc_accessors := ContextHints_accessors
|}.

Definition Budget_methods : jspb_methods cap_class := {|
  jc_toObject :=
    [("maxInputTokens", ShowField 1 (JNum (NInt 0))); ("maxOutputTokens", ShowField 2 (JNum (NInt 0)));
     ("maxTotalTokens", ShowField 3 (JNum (NInt 0))); ("deadlineMs", ShowField 4 (JNum (NInt 0)))];
  jc_deserialize :=
    [(1, ReadSet (JScalar TInt64) "setMaxInputTokens"); (2, ReadSet (JScalar TInt64) "setMaxOutputTokens");
     (3, ReadSet (JScalar TInt64) "setMaxTotalTokens"); (4, ReadSet (JScalar TInt64) "setDeadlineMs")];
  jc_serialize :=
    [Write "getMaxInputTokens" NonZero (JScalar TInt64) 1;
     Write "getMaxOutputTokens" NonZero (JScalar TInt64) 2;
     Write "getMaxTotalTokens" NonZero (JScalar TInt64) 3; Write "getDeadlineMs" NonZero (JScalar TInt64) 4]
|}.

Definition Budget_accessors : list (string * accessor cap_class) :=
  [("getMaxInputTokens", GetField 1 (JNum (NInt 0))); ("setMaxInputTokens", SetProto3Field P3Int 1);
   ("getMaxOutputTokens", GetField 2 (JNum (NInt 0))); ("setMaxOutputTokens", SetProto3Field P3Int 2);
   ("getMaxTotalTokens", GetField 3 (JNum (NInt 0))); ("setMaxTotalTokens", SetProto3Field P3Int 3);
   ("getDeadlineMs", GetField 4 (JNum (NInt 0))); ("setDeadlineMs", SetProto3Field P3Int 4)].

Definition Budget_jspb : jspb_class cap_class := {|
  jc_repeatedFields := [];
  jc_oneofGroups := [];
  jc_methods := Budget_methods;
  jc_accessors := Budget_accessors
|}.

Definition JobMetadata_methods : jspb_methods cap_class := {|
  jc_toObject :=
    [("tenantId", ShowField 1 (JStr [])); ("actorId", ShowField 2 (JStr []));
     ("actorType", ShowField 3 (JNum (NInt 0))); ("idempotencyKey", ShowField 4 (JStr []));
     ("capability", ShowField 5 (JStr [])); ("riskTagsList", ShowRepeatedField 6);
     ("requiresList", ShowRepeatedField 7); ("packId", ShowField 8 (JStr []));
     ("labelsMap", ShowMap "getLabelsMap")];
  jc_deserialize :=
    [(1, ReadSet (JScalar TString) "setTenantId"); (2, ReadSet (JScalar TString) "setActorId");
     (3, ReadSet JEnum "setActorType"); (4, ReadSet (JScalar TString) "setIdempotencyKey");
     (5, ReadSet (JScalar TString) "setCapability"); (6, ReadAdd (JScalar TString) "addRiskTags");
     (7, ReadAdd (JScalar TString) "addRequires"); (8, ReadSet (JScalar TString) "setPackId");
     (9, ReadMap "getLabelsMap" (JScalar TString) (JScalar TString) (JStr []) (JStr []))];
  jc_serialize :=
    [Write "getTenantId" NonEmpty (JScalar TString) 1; Write "getActorId" NonEmpty (JScalar TString) 2;
     Write "getActorType" NonZeroFloat JEnum 3; Write "getIdempotencyKey" NonEmpty (JScalar TString) 4;
     Write "getCapability" NonEmpty (JScalar TString) 5; WriteRepeated "getRiskTagsList" (JScalar TString) 6;
     WriteRepeated "getRequiresList" (JScalar TString) 7; Write "getPackId" NonEmpty (JScalar TString) 8;
     WriteMap "getLabelsMap" 9 (JScalar TString) (JScalar TString)]
|}.

Definition JobMetadata_accessors : list (string * accessor cap_class) :=
  [("getTenantId", GetField 1 (JStr [])); ("setTenantId", SetProto3Field P3String 1);
   ("getActorId", GetField 2 (JStr [])); ("setActorId", SetProto3Field P3String 2);
   ("getActorType", GetField 3 (JNum (NInt 0))); ("setActorType", SetProto3Field P3Enum 3);
   ("getIdempotencyKey", GetField 4 (JStr [])); ("setIdempotencyKey", SetProto3Field P3String 4);
   ("getCapability", GetField 5 (JStr [])); ("setCapability", SetProto3Field P3String 5);
   ("getRiskTagsList", GetRepeatedField 6); ("setRiskTagsList", SetField 6);
   ("addRiskTags", AddToRepeatedField 6); ("clearRiskTagsList", ClearList "setRiskTagsList");
   ("getRequiresList", GetRepeatedField 7); ("setRequiresList", SetField 7);
   ("addRequires", AddToRepeatedField 7); ("clearRequiresList", ClearList "setRequiresList");
   ("getPackId", GetField 8 (JStr [])); ("setPackId", SetProto3Field P3String 8);
   ("getLabelsMap", GetMapField 9); ("clearLabelsMap", ClearMap "getLabelsMap")].

Definition JobMetadata_jspb : jspb_class cap_class := {|
  jc_repeatedFields := [6; 7];
  jc_oneofGroups := [];
  jc_methods := JobMetadata_methods;
  jc_accessors := JobMetadata_accessors
|}.

Definition Compensation_methods : jspb_methods cap_class := {|
  jc_toObject :=
    [("topic", ShowField 1 (JStr [])); ("contextPtr", ShowField 2 (JStr []));
     ("priority", ShowField 3 (JNum (NInt 0))); ("adapterId", ShowField 4 (JStr []));
     ("envMap", ShowMap "getEnvMap"); ("memoryId", ShowField 6 (JStr []));
     ("contextHints", ShowMessage "getContextHints" ContextHintsT);
     ("budget", ShowMessage "getBudget" BudgetT); ("tenantId", ShowField 9 (JStr []));
     ("principalId", ShowField 10 (JStr [])); ("labelsMap", ShowMap "getLabelsMap");
     ("meta", ShowMessage "getMeta" JobMetadataT); ("identity", ShowMessage "getIdentity" IdentityBindingT);
     ("dispatch", ShowMessage "getDispatch" DispatchIdentityT);
     ("contextRef", ShowMessage "getContextRef" ResourceRefT)];
  jc_deserialize :=
    [(1, ReadSet (JScalar TString) "setTopic"); (2, ReadSet (JScalar TString) "setContextPtr");
     (3, ReadSet JEnum "setPriority"); (4, ReadSet (JScalar TString) "setAdapterId");
     (5, ReadMap "getEnvMap" (JScalar TString) (JScalar TString) (JStr []) (JStr []));
     (6, ReadSet (JScalar TString) "setMemoryId"); (7, ReadMessageSet ContextHintsT "setContextHints");
     (8, ReadMessageSet BudgetT "setBudget"); (9, ReadSet (JScalar TString) "setTenantId");
     (10, ReadSet (JScalar TString) "setPrincipalId");
     (11, ReadMap "getLabelsMap" (JScalar TString) (JScalar TString) (JStr []) (JStr []));
     (12, ReadMessageSet JobMetadataT "setMeta"); (13, ReadMessageSet IdentityBindingT "setIdentity");
     (14, ReadMessageSet DispatchIdentityT "setDispatch"); (15, ReadMessageSet ResourceRefT "setContextRef")];
  jc_serialize :=
    [Write "getTopic" NonEmpty (JScalar TString) 1; Write "getContextPtr" NonEmpty (JScalar TString) 2;
     Write "getPriority" NonZeroFloat JEnum 3; Write "getAdapterId" NonEmpty (JScalar TString) 4;
     WriteMap "getEnvMap" 5 (JScalar TString) (JScalar TString);
     Write "getMemoryId" NonEmpty (JScalar TString) 6; WriteMessage "getContextHints" 7 ContextHintsT;
     WriteMessage "getBudget" 8 BudgetT; Write "getTenantId" NonEmpty (JScalar TString) 9;
     Write "getPrincipalId" NonEmpty (JScalar TString) 10;
     WriteMap "getLabelsMap" 11 (JScalar TString) (JScalar TString); WriteMessage "getMeta" 12 JobMetadataT;
     WriteMessage "getIdentity" 13 IdentityBindingT; WriteMessage "getDispatch" 14 DispatchIdentityT;
     WriteMessage "getContextRef" 15 ResourceRefT]
|}.

Definition Compensation_accessors : list (string * accessor cap_class) :=
  [("getTopic", GetField 1 (JStr [])); ("setTopic", SetProto3Field P3String 1);
   ("getContextPtr", GetField 2 (JStr [])); ("setContextPtr", SetProto3Field P3String 2);
   ("getPriority", GetField 3 (JNum (NInt 0))); ("setPriority", SetProto3Field P3Enum 3);
   ("getAdapterId", GetField 4 (JStr [])); ("setAdapterId", SetProto3Field P3String 4);
   ("getEnvMap", GetMapField 5); ("clearEnvMap", ClearMap "getEnvMap"); ("getMemoryId", GetField 6 (JStr []));
   ("setMemoryId", SetProto3Field P3String 6); ("getContextHints", GetWrapperField ContextHintsT 7);
   ("setContextHints", SetWrapperField 7); ("clearContextHints", ClearField "setContextHints");
   ("hasContextHints", HasField 7); ("getBudget", GetWrapperField BudgetT 8); ("setBudget", SetWrapperField 8);
   ("clearBudget", ClearField "setBudget"); ("hasBudget", HasField 8); ("getTenantId", GetField 9 (JStr []));
   ("setTenantId", SetProto3Field P3String 9); ("getPrincipalId", GetField 10 (JStr []));
   ("setPrincipalId", SetProto3Field P3String 10); ("getLabelsMap", GetMapField 11);
   ("clearLabelsMap", ClearMap "getLabelsMap"); ("getMeta", GetWrapperField JobMetadataT 12);
   ("setMeta", SetWrapperField 12); ("clearMeta", ClearField "setMeta"); ("hasMeta", HasField 12);
   ("getIdentity", GetWrapperField IdentityBindingT 13); ("setIdentity", SetWrapperField 13);
   ("clearIdentity", ClearField "setIdentity"); ("hasIdentity", HasField 13);
   ("getDispatch", GetWrapperField DispatchIdentityT 14); ("setDispatch", SetWrapperField 14);
   ("clearDispatch", ClearField "setDispatch"); ("hasDispatch", HasField 14);
   ("getContextRef", GetWrapperField ResourceRefT 15); ("setContextRef", SetWrapperField 15);
   ("clearContextRef", ClearField "setContextRef"); ("hasContextRef", HasField 15)].

Definition Compensation_jspb : jspb_class cap_class := {|
  jc_repeatedFields := [];
  jc_oneofGroups := [];
  jc_methods := Compensation_methods;
  jc_accessors := Compensation_accessors
|}.

Definition JobRequest_methods : jspb_methods cap_class := {|
  jc_toObject :=
    [("jobId", ShowField 1 (JStr [])); ("topic", ShowField 2 (JStr []));
     ("priority", ShowField 3 (JNum (NInt 0))); ("contextPtr", ShowField 4 (JStr []));
     ("adapterId", ShowField 5 (JStr [])); ("envMap", ShowMap "getEnvMap");
     ("parentJobId", ShowField 7 (JStr [])); ("workflowId", ShowField 8 (JStr []));
     ("stepIndex", ShowField 9 (JNum (NInt 0))); ("memoryId", ShowField 10 (JStr []));
     ("contextHints", ShowMessage "getContextHints" ContextHintsT);
     ("budget", ShowMessage "getBudget" BudgetT); ("tenantId", ShowField 13 (JStr []));
     ("principalId", ShowField 14 (JStr [])); ("labelsMap", ShowMap "getLabelsMap");
     ("meta", ShowMessage "getMeta" JobMetadataT);
     ("compensation", ShowMessage "getCompensation" CompensationT);
     ("identity", ShowMessage "getIdentity" IdentityBindingT);
     ("dispatch", ShowMessage "getDispatch" DispatchIdentityT);
     ("contextRef", ShowMessage "getContextRef" ResourceRefT)];
  jc_deserialize :=
    [(1, ReadSet (JScalar TString) "setJobId"); (2, ReadSet (JScalar TString) "setTopic");
     (3, ReadSet JEnum "setPriority"); (4, ReadSet (JScalar TString) "setContextPtr");
     (5, ReadSet (JScalar TString) "setAdapterId");
     (6, ReadMap "getEnvMap" (JScalar TString) (JScalar TString) (JStr []) (JStr []));
     (7, ReadSet (JScalar TString) "setParentJobId"); (8, ReadSet (JScalar TString) "setWorkflowId");
     (9, ReadSet (JScalar TInt32) "setStepIndex"); (10, ReadSet (JScalar TString) "setMemoryId");
     (11, ReadMessageSet ContextHintsT "setContextHints"); (12, ReadMessageSet BudgetT "setBudget");
     (13, ReadSet (JScalar TString) "setTenantId"); (14, ReadSet (JScalar TString) "setPrincipalId");
     (15, ReadMap "getLabelsMap" (JScalar TString) (JScalar TString) (JStr []) (JStr []));
     (16, ReadMessageSet JobMetadataT "setMeta"); (17, ReadMessageSet CompensationT "setCompensation");
     (18, ReadMessageSet IdentityBindingT "setIdentity"); (19, ReadMessageSet DispatchIdentityT "setDispatch");
     (20, ReadMessageSet ResourceRefT "setContextRef")];
  jc_serialize :=
    [Write "getJobId" NonEmpty (JScalar TString) 1; Write "getTopic" NonEmpty (JScalar TString) 2;
     Write "getPriority" NonZeroFloat JEnum 3; Write "getContextPtr" NonEmpty (JScalar TString) 4;
     Write "getAdapterId" NonEmpty (JScalar TString) 5;
     WriteMap "getEnvMap" 6 (JScalar TString) (JScalar TString);
     Write "getParentJobId" NonEmpty (JScalar TString) 7; Write "getWorkflowId" NonEmpty (JScalar TString) 8;
     Write "getStepIndex" NonZero (JScalar TInt32) 9; Write "getMemoryId" NonEmpty (JScalar TString) 10;
     WriteMessage "getContextHints" 11 ContextHintsT; WriteMessage "getBudget" 12 BudgetT;
     Write "getTenantId" NonEmpty (JScalar TString) 13; Write "getPrincipalId" NonEmpty (JScalar TString) 14;
     WriteMap "getLabelsMap" 15 (JScalar TString) (JScalar TString); WriteMessage "getMeta" 16 JobMetadataT;
     WriteMessage "getCompensation" 17 CompensationT; WriteMessage "getIdentity" 18 IdentityBindingT;
     WriteMessage "getDispatch" 19 DispatchIdentityT; WriteMessage "getContextRef" 20 ResourceRefT]
|}.

Definition JobRequest_accessors : list (string * accessor cap_class) :=
  [("getJobId", GetField 1 (JStr [])); ("setJobId", SetProto3Field P3String 1);
   ("getTopic", GetField 2 (JStr [])); ("setTopic", SetProto3Field P3String 2);
   ("getPriority", GetField 3 (JNum (NInt 0))); ("setPriority", SetProto3Field P3Enum 3);
   ("getContextPtr", GetField 4 (JStr [])); ("setContextPtr", SetProto3Field P3String 4);
   ("getAdapterId", GetField 5 (JStr [])); ("setAdapterId", SetProto3Field P3String 5);
   ("getEnvMap", GetMapField 6); ("clearEnvMap", ClearMap "getEnvMap");
   ("getParentJobId", GetField 7 (JStr [])); ("setParentJobId", SetProto3Field P3String 7);
   ("getWorkflowId", GetField 8 (JStr [])); ("setWorkflowId", SetProto3Field P3String 8);
   ("getStepIndex", GetField 9 (JNum (NInt 0))); ("setStepIndex", SetProto3Field P3Int 9);
   ("getMemoryId", GetField 10 (JStr [])); ("setMemoryId", SetProto3Field P3String 10);
   ("getContextHints", GetWrapperField ContextHintsT 11); ("setContextHints", SetWrapperField 11);
   ("clearContextHints", ClearField "setContextHints"); ("hasContextHints", HasField 11);
   ("getBudget", GetWrapperField BudgetT 12); ("setBudget", SetWrapperField 12);
   ("clearBudget", ClearField "setBudget"); ("hasBudget", HasField 12); ("getTenantId", GetField 13 (JStr []));
   ("setTenantId", SetProto3Field P3String 13); ("getPrincipalId", GetField 14 (JStr []));
   ("setPrincipalId", SetProto3Field P3String 14); ("getLabelsMap", GetMapField 15);
   ("clearLabelsMap", ClearMap "getLabelsMap"); ("getMeta", GetWrapperField JobMetadataT 16);
   ("setMeta", SetWrapperField 16); ("clearMeta", ClearField "setMeta"); ("hasMeta", HasField 16);
   ("getCompensation", GetWrapperField CompensationT 17); ("setCompensation", SetWrapperField 17);
   ("clearCompensation", ClearField "setCompensation"); ("hasCompensation", HasField 17);
   ("getIdentity", GetWrapperField IdentityBindingT 18); ("setIdentity", SetWrapperField 18);
   ("clearIdentity", ClearField "setIdentity"); ("hasIdentity", HasField 18);
   ("getDispatch", GetWrapperField DispatchIdentityT 19); ("setDispatch", SetWrapperField 19);
   ("clearDispatch", ClearField "setDispatch"); ("hasDispatch", HasField 19);
   ("getContextRef", GetWrapperField ResourceRefT 20); ("setContextRef", SetWrapperField 20);
   ("clearContextRef", ClearField "setContextRef"); ("hasContextRef", HasField 20)].

Definition JobRequest_jspb : jspb_class cap_class := {|
  jc_repeatedFields := [];
  jc_oneofGroups := [];
  jc_methods := JobRequest_methods;
  jc_accessors := JobRequest_accessors
|}.

Definition JobResult_methods : jspb_methods cap_class := {|
  jc_toObject :=
    [("jobId", ShowField 1 (JStr [])); ("status", ShowField 2 (JNum (NInt 0)));
     ("resultPtr", ShowField 3 (JStr [])); ("workerId", ShowField 4 (JStr []));
     ("executionMs", ShowField 5 (JNum (NInt 0))); ("errorCode", ShowField 6 (JStr []));
     ("errorMessage", ShowField 7 (JStr [])); ("artifactPtrsList", ShowRepeatedField 8);
     ("errorCodeEnum", ShowField 9 (JNum (NInt 0))); ("dispatch", ShowMessage "getDispatch" DispatchIdentityT);
     ("identity", ShowMessage "getIdentity" IdentityBindingT);
     ("resultRef", ShowMessage "getResultRef" ResourceRefT);
     ("artifactRefsList", ShowMessages "getArtifactRefsList" ResourceRefT)];
  jc_deserialize :=
    [(1, ReadSet (JScalar TString) "setJobId"); (2, ReadSet JEnum "setStatus");
     (3, ReadSet (JScalar TString) "setResultPtr"); (4, ReadSet (JScalar TString) "setWorkerId");
     (5, ReadSet (JScalar TInt64) "setExecutionMs"); (6, ReadSet (JScalar TString) "setErrorCode");
     (7, ReadSet (JScalar TString) "setErrorMessage"); (8, ReadAdd (JScalar TString) "addArtifactPtrs");
     (9, ReadSet JEnum "setErrorCodeEnum"); (10, ReadMessageSet DispatchIdentityT "setDispatch");
     (11, ReadMessageSet IdentityBindingT "setIdentity"); (12, ReadMessageSet ResourceRefT "setResultRef");
     (13, ReadMessageAdd ResourceRefT "addArtifactRefs")];
  jc_serialize :=
    [Write "getJobId" NonEmpty (JScalar TString) 1; Write "getStatus" NonZeroFloat JEnum 2;
     Write "getResultPtr" NonEmpty (JScalar TString) 3; Write "getWorkerId" NonEmpty (JScalar TString) 4;
     Write "getExecutionMs" NonZero (JScalar TInt64) 5; Write "getErrorCode" NonEmpty (JScalar TString) 6;
     Write "getErrorMessage" NonEmpty (JScalar TString) 7;
     WriteRepeated "getArtifactPtrsList" (JScalar TString) 8; Write "getErrorCodeEnum" NonZeroFloat JEnum 9;
     WriteMessage "getDispatch" 10 DispatchIdentityT; WriteMessage "getIdentity" 11 IdentityBindingT;
     WriteMessage "getResultRef" 12 ResourceRefT; WriteRepeatedMessage "getArtifactRefsList" 13 ResourceRefT]
|}.

Definition JobResult_accessors : list (string * accessor cap_class) :=
  [("getJobId", GetField 1 (JStr [])); ("setJobId", SetProto3Field P3String 1);
   ("getStatus", GetField 2 (JNum (NInt 0))); ("setStatus", SetProto3Field P3Enum 2);
   ("getResultPtr", GetField 3 (JStr [])); ("setResultPtr", SetProto3Field P3String 3);
   ("getWorkerId", GetField 4 (JStr [])); ("setWorkerId", SetProto3Field P3String 4);
   ("getExecutionMs", GetField 5 (JNum (NInt 0))); ("setExecutionMs", SetProto3Field P3Int 5);
   ("getErrorCode", GetField 6 (JStr [])); ("setErrorCode", SetProto3Field P3String 6);
   ("getErrorMessage", GetField 7 (JStr [])); ("setErrorMessage", SetProto3Field P3String 7);
   ("getArtifactPtrsList", GetRepeatedField 8); ("setArtifactPtrsList", SetField 8);
   ("addArtifactPtrs", AddToRepeatedField 8); ("clearArtifactPtrsList", ClearList "setArtifactPtrsList");
   ("getErrorCodeEnum", GetField 9 (JNum (NInt 0))); ("setErrorCodeEnum", SetProto3Field P3Enum 9);
   ("getDispatch", GetWrapperField DispatchIdentityT 10); ("setDispatch", SetWrapperField 10);
   ("clearDispatch", ClearField "setDispatch"); ("hasDispatch", HasField 10);
   ("getIdentity", GetWrapperField IdentityBindingT 11); ("setIdentity", SetWrapperField 11);
   ("clearIdentity", ClearField "setIdentity"); ("hasIdentity", HasField 11);
   ("getResultRef", GetWrapperField ResourceRefT 12); ("setResultRef", SetWrapperField 12);
   ("clearResultRef", ClearField "setResultRef"); ("hasResultRef", HasField 12);
   ("getArtifactRefsList", GetRepeatedWrapperField ResourceRefT 13);
   ("setArtifactRefsList", SetRepeatedWrapperField 13);
   ("addArtifactRefs", AddToRepeatedWrapperField 13 ResourceRefT);
   ("clearArtifactRefsList", ClearList "setArtifactRefsList")].

Definition JobResult_jspb : jspb_class cap_class := {|
  jc_repeatedFields := [8; 13];
  jc_oneofGroups := [];
  jc_methods := JobResult_methods;
  jc_accessors := JobResult_accessors
|}.

Definition JobProgress_methods : jspb_methods cap_class := {|
  jc_toObject :=
    [("jobId", ShowField 1 (JStr [])); ("stepId", ShowField 2 (JStr []));
     ("percent", ShowField 3 (JNum (NInt 0))); ("message", ShowField 4 (JStr []));
     ("resultPtr", ShowField 5 (JStr [])); ("artifactPtrsList", ShowRepeatedField 6);
     ("status", ShowField 7 (JNum (NInt 0))); ("dispatch", ShowMessage "getDispatch" DispatchIdentityT);
     ("identity", ShowMessage "getIdentity" IdentityBindingT);
     ("resultRef", ShowMessage "getResultRef" ResourceRefT);
     ("artifactRefsList", ShowMessages "getArtifactRefsList" ResourceRefT)];
  jc_deserialize :=
    [(1, ReadSet (JScalar TString) "setJobId"); (2, ReadSet (JScalar TString) "setStepId");
     (3, ReadSet (JScalar TInt32) "setPercent"); (4, ReadSet (JScalar TString) "setMessage");
     (5, ReadSet (JScalar TString) "setResultPtr"); (6, ReadAdd (JScalar TString) "addArtifactPtrs");
     (7, ReadSet JEnum "setStatus"); (8, ReadMessageSet DispatchIdentityT "setDispatch");
     (9, ReadMessageSet IdentityBindingT "setIdentity"); (10, ReadMessageSet ResourceRefT "setResultRef");
     (11, ReadMessageAdd ResourceRefT "addArtifactRefs")];
  jc_serialize :=
    [Write "getJobId" NonEmpty (JScalar TString) 1; Write "getStepId" NonEmpty (JScalar TString) 2;
     Write "getPercent" NonZero (JScalar TInt32) 3; Write "getMessage" NonEmpty (JScalar TString) 4;
     Write "getResultPtr" NonEmpty (JScalar TString) 5;
     WriteRepeated "getArtifactPtrsList" (JScalar TString) 6; Write "getStatus" NonZeroFloat JEnum 7;
     WriteMessage "getDispatch" 8 DispatchIdentityT; WriteMessage "getIdentity" 9 IdentityBindingT;
     WriteMessage "getResultRef" 10 ResourceRefT; WriteRepeatedMessage "getArtifactRefsList" 11 ResourceRefT]
|}.

Definition JobProgress_accessors : list (string * accessor cap_class) :=
  [("getJobId", GetField 1 (JStr [])); ("setJobId", SetProto3Field P3String 1);
   ("getStepId", GetField 2 (JStr [])); ("setStepId", SetProto3Field P3String 2);
   ("getPercent", GetField 3 (JNum (NInt 0))); ("setPercent", SetProto3Field P3Int 3);
   ("getMessage", GetField 4 (JStr [])); ("setMessage", SetProto3Field P3String 4);
   ("getResultPtr", GetField 5 (JStr [])); ("setResultPtr", SetProto3Field P3String 5);
   ("getArtifactPtrsList", GetRepeatedField 6); ("setArtifactPtrsList", SetField 6);
   ("addArtifactPtrs", AddToRepeatedField 6); ("clearArtifactPtrsList", ClearList "setArtifactPtrsList");
   ("getStatus", GetField 7 (JNum (NInt 0))); ("setStatus", SetProto3Field P3Enum 7);
   ("getDispatch", GetWrapperField DispatchIdentityT 8); ("setDispatch", SetWrapperField 8);
   ("clearDispatch", ClearField "setDispatch"); ("hasDispatch", HasField 8);
   ("getIdentity", GetWrapperField IdentityBindingT 9); ("setIdentity", SetWrapperField 9);
   ("clearIdentity", ClearField "setIdentity"); ("hasIdentity", HasField 9);
   ("getResultRef", GetWrapperField ResourceRefT 10); ("setResultRef", SetWrapperField 10);
   ("clearResultRef", ClearField "setResultRef"); ("hasResultRef", HasField 10);
   ("getArtifactRefsList", GetRepeatedWrapperField ResourceRefT 11);
   ("setArtifactRefsList", SetRepeatedWrapperField 11);
   ("addArtifactRefs", AddToRepeatedWrapperField 11 ResourceRefT);
   ("clearArtifactRefsList", ClearList "setArtifactRefsList")].

Definition JobProgress_jspb : jspb_class cap_class := {|
  jc_repeatedFields := [6; 11];
  jc_oneofGroups := [];
  jc_methods := JobProgress_methods;
  jc_accessors := JobProgress_accessors
|}.

Definition JobCancel_methods : jspb_methods cap_class := {|
  jc_toObject :=
    [("jobId", ShowField 1 (JStr [])); ("reason", ShowField 2 (JStr []));
     ("requestedBy", ShowField 3 (JStr [])); ("dispatch", ShowMessage "getDispatch" DispatchIdentityT);
     ("identity", ShowMessage "getIdentity" IdentityBindingT)];
  jc_deserialize :=
    [(1, ReadSet (JScalar TString) "setJobId"); (2, ReadSet (JScalar TString) "setReason");
     (3, ReadSet (JScalar TString) "setRequestedBy"); (4, ReadMessageSet DispatchIdentityT "setDispatch");
     (5, ReadMessageSet IdentityBindingT "setIdentity")];
  jc_serialize :=
    [Write "getJobId" NonEmpty (JScalar TString) 1; Write "getReason" NonEmpty (JScalar TString) 2;
     Write "getRequestedBy" NonEmpty (JScalar TString) 3; WriteMessage "getDispatch" 4 DispatchIdentityT;
     WriteMessage "getIdentity" 5 IdentityBindingT]
|}.

Definition JobCancel_accessors : list (string * accessor cap_class) :=
  [("getJobId", GetField 1 (JStr [])); ("setJobId", SetProto3Field P3String 1);
   ("getReason", GetField 2 (JStr [])); ("setReason", SetProto3Field P3String 2);
   ("getRequestedBy", GetField 3 (JStr [])); ("setRequestedBy", SetProto3Field P3String 3);
   ("getDispatch", GetWrapperField DispatchIdentityT 4); ("setDispatch", SetWrapperField 4);
   ("clearDispatch", ClearField "setDispatch"); ("hasDispatch", HasField 4);
   ("getIdentity", GetWrapperField IdentityBindingT 5); ("setIdentity", SetWrapperField 5);
   ("clearIdentity", ClearField "setIdentity"); ("hasIdentity", HasField 5)].

Definition JobCancel_jspb : jspb_class cap_class := {|
  jc_repeatedFields := [];
  jc_oneofGroups := [];
  jc_methods := JobCancel_methods;
  jc_accessors := JobCancel_accessors
|}.
