(* ===== verification/JspbPolicyTables.v ===== *)
(** * Tables of policy_pb.js, safety_pb.js

    The message classes of src/node/cordum/agent/v1/*_pb.js in the
    forms of JspbCode JspbTables.v: for each class its methods, its accessors and what its
    constructor gives to [jspb.Message.initialize]. *)

From S2P Require Import Prelude JsString JsValue PbRuntime StaticCode CapPbClasses JspbCode JspbTables.
#[local] Open Scope string_scope.

(** ** policy_pb.js *)

Definition RuleScope_methods : jspb_methods cap_class := {|
  jc_toObject :=
    [("kind", ShowField 1 (JNum (NInt 0))); ("value", ShowField 2 (JStr []))];
  jc_deserialize :=
    [(1, ReadSet JEnum "setKind"); (2, ReadSet (JScalar TString) "setValue")];
  jc_serialize :=
    [Write "getKind" NonZeroFloat JEnum 1; Write "getValue" NonEmpty (JScalar TString) 2]
|}.

Definition RuleScope_accessors : list (string * accessor cap_class) :=
  [("getKind", GetField 1 (JNum (NInt 0))); ("setKind", SetProto3Field P3Enum 1);
   ("getValue", GetField 2 (JStr [])); ("setValue", SetProto3Field P3String 2)].

Definition RuleScope_jspb : jspb_class cap_class := {|
  jc_repeatedFields := [];
  jc_oneofGroups := [];
  jc_methods := RuleScope_methods;
  jc_accessors := RuleScope_accessors
|}.

Definition AuditMetadata_methods : jspb_methods cap_class := {|
  jc_toObject :=
    [("createdAt", ShowMessage "getCreatedAt" TimestampT); ("createdBy", ShowField 2 (JStr []));
     ("updatedAt", ShowMessage "getUpdatedAt" TimestampT); ("updatedBy", ShowField 4 (JStr []))];
  jc_deserialize :=
    [(1, ReadMessageSet TimestampT "setCreatedAt"); (2, ReadSet (JScalar TString) "setCreatedBy");
     (3, ReadMessageSet TimestampT "setUpdatedAt"); (4, ReadSet (JScalar TString) "setUpdatedBy")];
  jc_serialize :=
    [WriteMessage "getCreatedAt" 1 TimestampT; Write "getCreatedBy" NonEmpty (JScalar TString) 2;
     WriteMessage "getUpdatedAt" 3 TimestampT; Write "getUpdatedBy" NonEmpty (JScalar TString) 4]
|}.

Definition AuditMetadata_accessors : list (string * accessor cap_class) :=
  [("getCreatedAt", GetWrapperField TimestampT 1); ("setCreatedAt", SetWrapperField 1);
   ("clearCreatedAt", ClearField "setCreatedAt"); ("hasCreatedAt", HasField 1);
   ("getCreatedBy", GetField 2 (JStr [])); ("setCreatedBy", SetProto3Field P3String 2);
   ("getUpdatedAt", GetWrapperField TimestampT 3); ("setUpdatedAt", SetWrapperField 3);
   ("clearUpdatedAt", ClearField "setUpdatedAt"); ("hasUpdatedAt", HasField 3);
   ("getUpdatedBy", GetField 4 (JStr [])); ("setUpdatedBy", SetProto3Field P3String 4)].

Definition AuditMetadata_jspb : jspb_class cap_class := {|
  jc_repeatedFields := [];
  jc_oneofGroups := [];
  jc_methods := AuditMetadata_methods;
  jc_accessors := AuditMetadata_accessors
|}.

Definition Rule_methods : jspb_methods cap_class := {|
  jc_toObject :=
    [("id", ShowField 1 (JStr [])); ("name", ShowField 2 (JStr [])); ("type", ShowField 3 (JNum (NInt 0)));
     ("scope", ShowMessage "getScope" RuleScopeT); ("status", ShowField 5 (JNum (NInt 0)));
     ("version", ShowField 6 (JStr [])); ("audit", ShowMessage "getAudit" AuditMetadataT);
     ("match", ShowMessage "getMatch" StructT); ("decide", ShowMessage "getDecide" StructT);
     ("description", ShowField 10 (JStr []))];
  jc_deserialize :=
    [(1, ReadSet (JScalar TString) "setId"); (2, ReadSet (JScalar TString) "setName");
     (3, ReadSet JEnum "setType"); (4, ReadMessageSet RuleScopeT "setScope"); (5, ReadSet JEnum "setStatus");
     (6, ReadSet (JScalar TString) "setVersion"); (7, ReadMessageSet AuditMetadataT "setAudit");
     (8, ReadMessageSet StructT "setMatch"); (9, ReadMessageSet StructT "setDecide");
     (10, ReadSet (JScalar TString) "setDescription")];
  jc_serialize :=
    [Write "getId" NonEmpty (JScalar TString) 1; Write "getName" NonEmpty (JScalar TString) 2;
     Write "getType" NonZeroFloat JEnum 3; WriteMessage "getScope" 4 RuleScopeT;
     Write "getStatus" NonZeroFloat JEnum 5; Write "getVersion" NonEmpty (JScalar TString) 6;
     WriteMessage "getAudit" 7 AuditMetadataT; WriteMessage "getMatch" 8 StructT;
     WriteMessage "getDecide" 9 StructT; Write "getDescription" NonEmpty (JScalar TString) 10]
|}.

Definition Rule_accessors : list (string * accessor cap_class) :=
  [("getId", GetField 1 (JStr [])); ("setId", SetProto3Field P3String 1); ("getName", GetField 2 (JStr []));
   ("setName", SetProto3Field P3String 2); ("getType", GetField 3 (JNum (NInt 0)));
   ("setType", SetProto3Field P3Enum 3); ("getScope", GetWrapperField RuleScopeT 4);
   ("setScope", SetWrapperField 4); ("clearScope", ClearField "setScope"); ("hasScope", HasField 4);
   ("getStatus", GetField 5 (JNum (NInt 0))); ("setStatus", SetProto3Field P3Enum 5);
   ("getVersion", GetField 6 (JStr [])); ("setVersion", SetProto3Field P3String 6);
   ("getAudit", GetWrapperField AuditMetadataT 7); ("setAudit", SetWrapperField 7);
   ("clearAudit", ClearField "setAudit"); ("hasAudit", HasField 7); ("getMatch", GetWrapperField StructT 8);
   ("setMatch", SetWrapperField 8); ("clearMatch", ClearField "setMatch"); ("hasMatch", HasField 8);
   ("getDecide", GetWrapperField StructT 9); ("setDecide", SetWrapperField 9);
   ("clearDecide", ClearField "setDecide"); ("hasDecide", HasField 9);
   ("getDescription", GetField 10 (JStr [])); ("setDescription", SetProto3Field P3String 10)].

Definition Rule_jspb : jspb_class cap_class := {|
  jc_repeatedFields := [];
  jc_oneofGroups := [];
  jc_methods := Rule_methods;
  jc_accessors := Rule_accessors
|}.

Definition TraceStep_methods : jspb_methods cap_class := {|
  jc_toObject :=
    [("ruleId", ShowField 1 (JStr [])); ("bundleId", ShowField 2 (JStr []));
     ("decisionType", ShowField 3 (JNum (NInt 0))); ("reason", ShowField 4 (JStr []));
     ("timestamp", ShowMessage "getTimestamp" TimestampT);
     ("constraints", ShowMessage "getConstraints" StructT)];
  jc_deserialize :=
    [(1, ReadSet (JScalar TString) "setRuleId"); (2, ReadSet (JScalar TString) "setBundleId");
     (3, ReadSet JEnum "setDecisionType"); (4, ReadSet (JScalar TString) "setReason");
     (5, ReadMessageSet TimestampT "setTimestamp"); (6, ReadMessageSet StructT "setConstraints")];
  jc_serialize :=
    [Write "getRuleId" NonEmpty (JScalar TString) 1; Write "getBundleId" NonEmpty (JScalar TString) 2;
     Write "getDecisionType" NonZeroFloat JEnum 3; Write "getReason" NonEmpty (JScalar TString) 4;
     WriteMessage "getTimestamp" 5 TimestampT; WriteMessage "getConstraints" 6 StructT]
|}.

Definition TraceStep_accessors : list (string * accessor cap_class) :=
  [("getRuleId", GetField 1 (JStr [])); ("setRuleId", SetProto3Field P3String 1);
   ("getBundleId", GetField 2 (JStr [])); ("setBundleId", SetProto3Field P3String 2);
   ("getDecisionType", GetField 3 (JNum (NInt 0))); ("setDecisionType", SetProto3Field P3Enum 3);
   ("getReason", GetField 4 (JStr [])); ("setReason", SetProto3Field P3String 4);
   ("getTimestamp", GetWrapperField TimestampT 5); ("setTimestamp", SetWrapperField 5);
   ("clearTimestamp", ClearField "setTimestamp"); ("hasTimestamp", HasField 5);
   ("getConstraints", GetWrapperField StructT 6); ("setConstraints", SetWrapperField 6);
   ("clearConstraints", ClearField "setConstraints"); ("hasConstraints", HasField 6)].

Definition TraceStep_jspb : jspb_class cap_class := {|
  jc_repeatedFields := [];
  jc_oneofGroups := [];
  jc_methods := TraceStep_methods;
  jc_accessors := TraceStep_accessors
|}.

Definition Decision_methods : jspb_methods cap_class := {|
  jc_toObject :=
    [("source", ShowField 1 (JNum (NInt 0))); ("ruleId", ShowField 2 (JStr []));
     ("bundleId", ShowField 3 (JStr [])); ("bundleVersion", ShowField 4 (JStr []));
     ("type", ShowField 5 (JNum (NInt 0))); ("traceList", ShowMessages "getTraceList" TraceStepT);
     ("inputRef", ShowField 7 (JStr [])); ("outputRef", ShowField 8 (JStr []));
     ("auditHash", ShowField 9 (JStr [])); ("timestamp", ShowMessage "getTimestamp" TimestampT)];
  jc_deserialize :=
    [(1, ReadSet JEnum "setSource"); (2, ReadSet (JScalar TString) "setRuleId");
     (3, ReadSet (JScalar TString) "setBundleId"); (4, ReadSet (JScalar TString) "setBundleVersion");
     (5, ReadSet JEnum "setType"); (6, ReadMessageAdd TraceStepT "addTrace");
     (7, ReadSet (JScalar TString) "setInputRef"); (8, ReadSet (JScalar TString) "setOutputRef");
     (9, ReadSet (JScalar TString) "setAuditHash"); (10, ReadMessageSet TimestampT "setTimestamp")];
  jc_serialize :=
    [Write "getSource" NonZeroFloat JEnum 1; Write "getRuleId" NonEmpty (JScalar TString) 2;
     Write "getBundleId" NonEmpty (JScalar TString) 3; Write "getBundleVersion" NonEmpty (JScalar TString) 4;
     Write "getType" NonZeroFloat JEnum 5; WriteRepeatedMessage "getTraceList" 6 TraceStepT;
     Write "getInputRef" NonEmpty (JScalar TString) 7; Write "getOutputRef" NonEmpty (JScalar TString) 8;
     Write "getAuditHash" NonEmpty (JScalar TString) 9; WriteMessage "getTimestamp" 10 TimestampT]
|}.

Definition Decision_accessors : list (string * accessor cap_class) :=
  [("getSource", GetField 1 (JNum (NInt 0))); ("setSource", SetProto3Field P3Enum 1);
   ("getRuleId", GetField 2 (JStr [])); ("setRuleId", SetProto3Field P3String 2);
   ("getBundleId", GetField 3 (JStr [])); ("setBundleId", SetProto3Field P3String 3);
   ("getBundleVersion", GetField 4 (JStr [])); ("setBundleVersion", SetProto3Field P3String 4);
   ("getType", GetField 5 (JNum (NInt 0))); ("setType", SetProto3Field P3Enum 5);
   ("getTraceList", GetRepeatedWrapperField TraceStepT 6); ("setTraceList", SetRepeatedWrapperField 6);
   ("addTrace", AddToRepeatedWrapperField 6 TraceStepT); ("clearTraceList", ClearList "setTraceList");
   ("getInputRef", GetField 7 (JStr [])); ("setInputRef", SetProto3Field P3String 7);
   ("getOutputRef", GetField 8 (JStr [])); ("setOutputRef", SetProto3Field P3String 8);
   ("getAuditHash", GetField 9 (JStr [])); ("setAuditHash", SetProto3Field P3String 9);
   ("getTimestamp", GetWrapperField TimestampT 10); ("setTimestamp", SetWrapperField 10);
   ("clearTimestamp", ClearField "setTimestamp"); ("hasTimestamp", HasField 10)].

Definition Decision_jspb : jspb_class cap_class := {|
  jc_repeatedFields := [6];
  jc_oneofGroups := [];
  jc_methods := Decision_methods;
  jc_accessors := Decision_accessors
|}.

Definition BundleMetadata_methods : jspb_methods cap_class := {|
  jc_toObject :=
    [("edgeMode", ShowField 1 (JNum (NInt 0)))];
  jc_deserialize :=
    [(1, ReadSet JEnum "setEdgeMode")];
  jc_serialize :=
    [Write "getEdgeMode" NonZeroFloat JEnum 1]
|}.

Definition BundleMetadata_accessors : list (string * accessor cap_class) :=
  [("getEdgeMode", GetField 1 (JNum (NInt 0))); ("setEdgeMode", SetProto3Field P3Enum 1)].

Definition BundleMetadata_jspb : jspb_class cap_class := {|
  jc_repeatedFields := [];
  jc_oneofGroups := [];
  jc_methods := BundleMetadata_methods;
  jc_accessors := BundleMetadata_accessors
|}.

Definition BundleVersion_methods : jspb_methods cap_class := {|
  jc_toObject :=
    [("version", ShowField 1 (JStr [])); ("ruleSnapshotList", ShowMessages "getRuleSnapshotList" RuleT);
     ("deployedAt", ShowMessage "getDeployedAt" TimestampT); ("auditHash", ShowField 4 (JStr []))];
  jc_deserialize :=
    [(1, ReadSet (JScalar TString) "setVersion"); (2, ReadMessageAdd RuleT "addRuleSnapshot");
     (3, ReadMessageSet TimestampT "setDeployedAt"); (4, ReadSet (JScalar TString) "setAuditHash")];
  jc_serialize :=
    [Write "getVersion" NonEmpty (JScalar TString) 1; WriteRepeatedMessage "getRuleSnapshotList" 2 RuleT;
     WriteMessage "getDeployedAt" 3 TimestampT; Write "getAuditHash" NonEmpty (JScalar TString) 4]
|}.

Definition BundleVersion_accessors : list (string * accessor cap_class) :=
  [("getVersion", GetField 1 (JStr [])); ("setVersion", SetProto3Field P3String 1);
   ("getRuleSnapshotList", GetRepeatedWrapperField RuleT 2);
   ("setRuleSnapshotList", SetRepeatedWrapperField 2); ("addRuleSnapshot", AddToRepeatedWrapperField 2 RuleT);
   ("clearRuleSnapshotList", ClearList "setRuleSnapshotList"); ("getDeployedAt", GetWrapperField TimestampT 3);
   ("setDeployedAt", SetWrapperField 3); ("clearDeployedAt", ClearField "setDeployedAt");
   ("hasDeployedAt", HasField 3); ("getAuditHash", GetField 4 (JStr []));
   ("setAuditHash", SetProto3Field P3String 4)].

Definition BundleVersion_jspb : jspb_class cap_class := {|
  jc_repeatedFields := [2];
  jc_oneofGroups := [];
  jc_methods := BundleVersion_methods;
  jc_accessors := BundleVersion_accessors
|}.

Definition Bundle_methods : jspb_methods cap_class := {|
  jc_toObject :=
    [("id", ShowField 1 (JStr [])); ("name", ShowField 2 (JStr [])); ("ruleIdsList", ShowRepeatedField 3);
     ("scopeBinding", ShowMessage "getScopeBinding" RuleScopeT);
     ("versionsList", ShowMessages "getVersionsList" BundleVersionT);
     ("metadata", ShowMessage "getMetadata" BundleMetadataT)];
  jc_deserialize :=
    [(1, ReadSet (JScalar TString) "setId"); (2, ReadSet (JScalar TString) "setName");
     (3, ReadAdd (JScalar TString) "addRuleIds"); (4, ReadMessageSet RuleScopeT "setScopeBinding");
     (5, ReadMessageAdd BundleVersionT "addVersions"); (6, ReadMessageSet BundleMetadataT "setMetadata")];
  jc_serialize :=
    [Write "getId" NonEmpty (JScalar TString) 1; Write "getName" NonEmpty (JScalar TString) 2;
     WriteRepeated "getRuleIdsList" (JScalar TString) 3; WriteMessage "getScopeBinding" 4 RuleScopeT;
     WriteRepeatedMessage "getVersionsList" 5 BundleVersionT; WriteMessage "getMetadata" 6 BundleMetadataT]
|}.

Definition Bundle_accessors : list (string * accessor cap_class) :=
  [("getId", GetField 1 (JStr [])); ("setId", SetProto3Field P3String 1); ("getName", GetField 2 (JStr []));
   ("setName", SetProto3Field P3String 2); ("getRuleIdsList", GetRepeatedField 3);
   ("setRuleIdsList", SetField 3); ("addRuleIds", AddToRepeatedField 3);
   ("clearRuleIdsList", ClearList "setRuleIdsList"); ("getScopeBinding", GetWrapperField RuleScopeT 4);
   ("setScopeBinding", SetWrapperField 4); ("clearScopeBinding", ClearField "setScopeBinding");
   ("hasScopeBinding", HasField 4); ("getVersionsList", GetRepeatedWrapperField BundleVersionT 5);
   ("setVersionsList", SetRepeatedWrapperField 5); ("addVersions", AddToRepeatedWrapperField 5 BundleVersionT);
   ("clearVersionsList", ClearList "setVersionsList"); ("getMetadata", GetWrapperField BundleMetadataT 6);
   ("setMetadata", SetWrapperField 6); ("clearMetadata", ClearField "setMetadata");
   ("hasMetadata", HasField 6)].

Definition Bundle_jspb : jspb_class cap_class := {|
  jc_repeatedFields := [3; 5];
  jc_oneofGroups := [];
  jc_methods := Bundle_methods;
  jc_accessors := Bundle_accessors
|}.

Definition JobEvaluationContext_methods : jspb_methods cap_class := {|
  jc_toObject :=
    [("tenantId", ShowField 1 (JStr [])); ("jobId", ShowField 2 (JStr []));
     ("workflowId", ShowField 3 (JStr [])); ("topic", ShowField 4 (JStr []));
     ("principalId", ShowField 5 (JStr [])); ("labelsMap", ShowMap "getLabelsMap");
     ("memoryId", ShowField 7 (JStr [])); ("capability", ShowField 8 (JStr []));
     ("riskTagsList", ShowRepeatedField 9); ("inputContent", ShowGetter "getInputContent_asB64");
     ("inputContentType", ShowField 21 (JStr [])); ("inputSizeBytes", ShowField 22 (JNum (NInt 0)))];
  jc_deserialize :=
    [(1, ReadSet (JScalar TString) "setTenantId"); (2, ReadSet (JScalar TString) "setJobId");
     (3, ReadSet (JScalar TString) "setWorkflowId"); (4, ReadSet (JScalar TString) "setTopic");
     (5, ReadSet (JScalar TString) "setPrincipalId");
     (6, ReadMap "getLabelsMap" (JScalar TString) (JScalar TString) (JStr []) (JStr []));
     (7, ReadSet (JScalar TString) "setMemoryId"); (8, ReadSet (JScalar TString) "setCapability");
     (9, ReadAdd (JScalar TString) "addRiskTags"); (20, ReadSet (JScalar TBytes) "setInputContent");
     (21, ReadSet (JScalar TString) "setInputContentType"); (22, ReadSet (JScalar TInt64) "setInputSizeBytes")];
  jc_serialize :=
    [Write "getTenantId" NonEmpty (JScalar TString) 1; Write "getJobId" NonEmpty (JScalar TString) 2;
     Write "getWorkflowId" NonEmpty (JScalar TString) 3; Write "getTopic" NonEmpty (JScalar TString) 4;
     Write "getPrincipalId" NonEmpty (JScalar TString) 5;
     WriteMap "getLabelsMap" 6 (JScalar TString) (JScalar TString);
     Write "getMemoryId" NonEmpty (JScalar TString) 7; Write "getCapability" NonEmpty (JScalar TString) 8;
     WriteRepeated "getRiskTagsList" (JScalar TString) 9;
     Write "getInputContent_asU8" NonEmpty (JScalar TBytes) 20;
     Write "getInputContentType" NonEmpty (JScalar TString) 21;
     Write "getInputSizeBytes" NonZero (JScalar TInt64) 22]
|}.

Definition JobEvaluationContext_accessors : list (string * accessor cap_class) :=
  [("getTenantId", GetField 1 (JStr [])); ("setTenantId", SetProto3Field P3String 1);
   ("getJobId", GetField 2 (JStr [])); ("setJobId", SetProto3Field P3String 2);
   ("getWorkflowId", GetField 3 (JStr [])); ("setWorkflowId", SetProto3Field P3String 3);
   ("getTopic", GetField 4 (JStr [])); ("setTopic", SetProto3Field P3String 4);
   ("getPrincipalId", GetField 5 (JStr [])); ("setPrincipalId", SetProto3Field P3String 5);
   ("getLabelsMap", GetMapField 6); ("clearLabelsMap", ClearMap "getLabelsMap");
   ("getMemoryId", GetField 7 (JStr [])); ("setMemoryId", SetProto3Field P3String 7);
   ("getCapability", GetField 8 (JStr [])); ("setCapability", SetProto3Field P3String 8);
   ("getRiskTagsList", GetRepeatedField 9); ("setRiskTagsList", SetField 9);
   ("addRiskTags", AddToRepeatedField 9); ("clearRiskTagsList", ClearList "setRiskTagsList");
   ("getInputContent", GetField 20 (JStr [])); ("getInputContent_asB64", BytesAsB64 "getInputContent");
   ("getInputContent_asU8", BytesAsU8 "getInputContent"); ("setInputContent", SetProto3Field P3Bytes 20);
   ("getInputContentType", GetField 21 (JStr [])); ("setInputContentType", SetProto3Field P3String 21);
   ("getInputSizeBytes", GetField 22 (JNum (NInt 0))); ("setInputSizeBytes", SetProto3Field P3Int 22)].

Definition JobEvaluationContext_jspb : jspb_class cap_class := {|
  jc_repeatedFields := [9];
  jc_oneofGroups := [];
  jc_methods := JobEvaluationContext_methods;
  jc_accessors := JobEvaluationContext_accessors
|}.

Definition EdgeEvaluationContext_methods : jspb_methods cap_class := {|
  jc_toObject :=
    [("tenantId", ShowField 1 (JStr [])); ("principalId", ShowField 2 (JStr []));
     ("sessionId", ShowField 3 (JStr [])); ("executionId", ShowField 4 (JStr []));
     ("agentProduct", ShowField 5 (JStr [])); ("toolName", ShowField 6 (JStr []));
     ("toolInputRedacted", ShowMessage "getToolInputRedacted" StructT); ("inputHash", ShowField 8 (JStr []));
     ("toolInputHash", ShowField 9 (JStr [])); ("labelsMap", ShowMap "getLabelsMap");
     ("riskTagsList", ShowRepeatedField 11)];
  jc_deserialize :=
    [(1, ReadSet (JScalar TString) "setTenantId"); (2, ReadSet (JScalar TString) "setPrincipalId");
     (3, ReadSet (JScalar TString) "setSessionId"); (4, ReadSet (JScalar TString) "setExecutionId");
     (5, ReadSet (JScalar TString) "setAgentProduct"); (6, ReadSet (JScalar TString) "setToolName");
     (7, ReadMessageSet StructT "setToolInputRedacted"); (8, ReadSet (JScalar TString) "setInputHash");
     (9, ReadSet (JScalar TString) "setToolInputHash");
     (10, ReadMap "getLabelsMap" (JScalar TString) (JScalar TString) (JStr []) (JStr []));
     (11, ReadAdd (JScalar TString) "addRiskTags")];
  jc_serialize :=
    [Write "getTenantId" NonEmpty (JScalar TString) 1; Write "getPrincipalId" NonEmpty (JScalar TString) 2;
     Write "getSessionId" NonEmpty (JScalar TString) 3; Write "getExecutionId" NonEmpty (JScalar TString) 4;
     Write "getAgentProduct" NonEmpty (JScalar TString) 5; Write "getToolName" NonEmpty (JScalar TString) 6;
     WriteMessage "getToolInputRedacted" 7 StructT; Write "getInputHash" NonEmpty (JScalar TString) 8;
     Write "getToolInputHash" NonEmpty (JScalar TString) 9;
     WriteMap "getLabelsMap" 10 (JScalar TString) (JScalar TString);
     WriteRepeated "getRiskTagsList" (JScalar TString) 11]
|}.

Definition EdgeEvaluationContext_accessors : list (string * accessor cap_class) :=
  [("getTenantId", GetField 1 (JStr [])); ("setTenantId", SetProto3Field P3String 1);
   ("getPrincipalId", GetField 2 (JStr [])); ("setPrincipalId", SetProto3Field P3String 2);
   ("getSessionId", GetField 3 (JStr [])); ("setSessionId", SetProto3Field P3String 3);
   ("getExecutionId", GetField 4 (JStr [])); ("setExecutionId", SetProto3Field P3String 4);
   ("getAgentProduct", GetField 5 (JStr [])); ("setAgentProduct", SetProto3Field P3String 5);
   ("getToolName", GetField 6 (JStr [])); ("setToolName", SetProto3Field P3String 6);
   ("getToolInputRedacted", GetWrapperField StructT 7); ("setToolInputRedacted", SetWrapperField 7);
   ("clearToolInputRedacted", ClearField "setToolInputRedacted"); ("hasToolInputRedacted", HasField 7);
   ("getInputHash", GetField 8 (JStr [])); ("setInputHash", SetProto3Field P3String 8);
   ("getToolInputHash", GetField 9 (JStr [])); ("setToolInputHash", SetProto3Field P3String 9);
   ("getLabelsMap", GetMapField 10); ("clearLabelsMap", ClearMap "getLabelsMap");
   ("getRiskTagsList", GetRepeatedField 11); ("setRiskTagsList", SetField 11);
   ("addRiskTags", AddToRepeatedField 11); ("clearRiskTagsList", ClearList "setRiskTagsList")].

Definition EdgeEvaluationContext_jspb : jspb_class cap_class := {|
  jc_repeatedFields := [11];
  jc_oneofGroups := [];
  jc_methods := EdgeEvaluationContext_methods;
  jc_accessors := EdgeEvaluationContext_accessors
|}.

Definition PolicyEvaluateRequest_methods : jspb_methods cap_class := {|
  jc_toObject :=
    [("rule", ShowMessage "getRule" RuleT); ("bundleId", ShowField 2 (JStr []));
     ("scope", ShowMessage "getScope" RuleScopeT);
     ("jobContext", ShowMessage "getJobContext" JobEvaluationContextT);
     ("edgeContext", ShowMessage "getEdgeContext" EdgeEvaluationContextT)];
  jc_deserialize :=
    [(1, ReadMessageSet RuleT "setRule"); (2, ReadSet (JScalar TString) "setBundleId");
     (3, ReadMessageSet RuleScopeT "setScope"); (10, ReadMessageSet JobEvaluationContextT "setJobContext");
     (11, ReadMessageSet EdgeEvaluationContextT "setEdgeContext")];
  jc_serialize :=
    [WriteMessage "getRule" 1 RuleT; Write "getBundleId" NonEmpty (JScalar TString) 2;
     WriteMessage "getScope" 3 RuleScopeT; WriteMessage "getJobContext" 10 JobEvaluationContextT;
     WriteMessage "getEdgeContext" 11 EdgeEvaluationContextT]
|}.

Definition PolicyEvaluateRequest_accessors : list (string * accessor cap_class) :=
  [("getRule", GetWrapperField RuleT 1); ("setRule", SetWrapperField 1); ("clearRule", ClearField "setRule");
   ("hasRule", HasField 1); ("getBundleId", GetField 2 (JStr [])); ("setBundleId", SetProto3Field P3String 2);
   ("getScope", GetWrapperField RuleScopeT 3); ("setScope", SetWrapperField 3);
   ("clearScope", ClearField "setScope"); ("hasScope", HasField 3);
   ("getJobContext", GetWrapperField JobEvaluationContextT 10); ("setJobContext", SetWrapperField 10);
   ("clearJobContext", ClearField "setJobContext"); ("hasJobContext", HasField 10);
   ("getEdgeContext", GetWrapperField EdgeEvaluationContextT 11); ("setEdgeContext", SetWrapperField 11);
   ("clearEdgeContext", ClearField "setEdgeContext"); ("hasEdgeContext", HasField 11)].

Definition PolicyEvaluateRequest_jspb : jspb_class cap_class := {|
  jc_repeatedFields := [];
  jc_oneofGroups := [];
  jc_methods := PolicyEvaluateRequest_methods;
  jc_accessors := PolicyEvaluateRequest_accessors
|}.

Definition PolicyEvaluateResponse_methods : jspb_methods cap_class := {|
  jc_toObject :=
    [("decision", ShowMessage "getDecision" DecisionT)];
  jc_deserialize :=
    [(1, ReadMessageSet DecisionT "setDecision")];
  jc_serialize :=
    [WriteMessage "getDecision" 1 DecisionT]
|}.

Definition PolicyEvaluateResponse_accessors : list (string * accessor cap_class) :=
  [("getDecision", GetWrapperField DecisionT 1); ("setDecision", SetWrapperField 1);
   ("clearDecision", ClearField "setDecision"); ("hasDecision", HasField 1)].

Definition PolicyEvaluateResponse_jspb : jspb_class cap_class := {|
  jc_repeatedFields := [];
  jc_oneofGroups := [];
  jc_methods := PolicyEvaluateResponse_methods;
  jc_accessors := PolicyEvaluateResponse_accessors
|}.

(** ** safety_pb.js *)

Definition PolicyCheckRequest_methods : jspb_methods cap_class := {|
  jc_toObject :=
    [("jobId", ShowField 1 (JStr [])); ("topic", ShowField 2 (JStr [])); ("tenant", ShowField 3 (JStr []));
     ("priority", ShowField 4 (JNum (NInt 0))); ("estimatedCost", ShowFloatField 5 (JNum (NInt 0)));
     ("budget", ShowMessage "getBudget" BudgetT); ("principalId", ShowField 7 (JStr []));
     ("labelsMap", ShowMap "getLabelsMap"); ("memoryId", ShowField 9 (JStr []));
     ("effectiveConfig", ShowGetter "getEffectiveConfig_asB64"); ("meta", ShowMessage "getMeta" JobMetadataT);
     ("identity", ShowMessage "getIdentity" IdentityBindingT);
     ("inputRef", ShowMessage "getInputRef" ResourceRefT);
     ("inputContent", ShowGetter "getInputContent_asB64"); ("inputContentType", ShowField 21 (JStr []));
     ("inputSizeBytes", ShowField 22 (JNum (NInt 0)))];
  jc_deserialize :=
    [(1, ReadSet (JScalar TString) "setJobId"); (2, ReadSet (JScalar TString) "setTopic");
     (3, ReadSet (JScalar TString) "setTenant"); (4, ReadSet JEnum "setPriority");
     (5, ReadSet (JScalar TDouble) "setEstimatedCost"); (6, ReadMessageSet BudgetT "setBudget");
     (7, ReadSet (JScalar TString) "setPrincipalId");
     (8, ReadMap "getLabelsMap" (JScalar TString) (JScalar TString) (JStr []) (JStr []));
     (9, ReadSet (JScalar TString) "setMemoryId"); (10, ReadSet (JScalar TBytes) "setEffectiveConfig");
     (11, ReadMessageSet JobMetadataT "setMeta"); (12, ReadMessageSet IdentityBindingT "setIdentity");
     (13, ReadMessageSet ResourceRefT "setInputRef"); (20, ReadSet (JScalar TBytes) "setInputContent");
     (21, ReadSet (JScalar TString) "setInputContentType"); (22, ReadSet (JScalar TInt64) "setInputSizeBytes")];
  jc_serialize :=
    [Write "getJobId" NonEmpty (JScalar TString) 1; Write "getTopic" NonEmpty (JScalar TString) 2;
     Write "getTenant" NonEmpty (JScalar TString) 3; Write "getPriority" NonZeroFloat JEnum 4;
     Write "getEstimatedCost" NonZeroFloat (JScalar TDouble) 5; WriteMessage "getBudget" 6 BudgetT;
     Write "getPrincipalId" NonEmpty (JScalar TString) 7;
     WriteMap "getLabelsMap" 8 (JScalar TString) (JScalar TString);
     Write "getMemoryId" NonEmpty (JScalar TString) 9;
     Write "getEffectiveConfig_asU8" NonEmpty (JScalar TBytes) 10; WriteMessage "getMeta" 11 JobMetadataT;
     WriteMessage "getIdentity" 12 IdentityBindingT; WriteMessage "getInputRef" 13 ResourceRefT;
     Write "getInputContent_asU8" NonEmpty (JScalar TBytes) 20;
     Write "getInputContentType" NonEmpty (JScalar TString) 21;
     Write "getInputSizeBytes" NonZero (JScalar TInt64) 22]
|}.

Definition PolicyCheckRequest_accessors : list (string * accessor cap_class) :=
  [("getJobId", GetField 1 (JStr [])); ("setJobId", SetProto3Field P3String 1);
   ("getTopic", GetField 2 (JStr [])); ("setTopic", SetProto3Field P3String 2);
   ("getTenant", GetField 3 (JStr [])); ("setTenant", SetProto3Field P3String 3);
   ("getPriority", GetField 4 (JNum (NInt 0))); ("setPriority", SetProto3Field P3Enum 4);
   ("getEstimatedCost", GetFloatField 5 (JNum (NInt 0))); ("setEstimatedCost", SetProto3Field P3Float 5);
   ("getBudget", GetWrapperField BudgetT 6); ("setBudget", SetWrapperField 6);
   ("clearBudget", ClearField "setBudget"); ("hasBudget", HasField 6);
   ("getPrincipalId", GetField 7 (JStr [])); ("setPrincipalId", SetProto3Field P3String 7);
   ("getLabelsMap", GetMapField 8); ("clearLabelsMap", ClearMap "getLabelsMap");
   ("getMemoryId", GetField 9 (JStr [])); ("setMemoryId", SetProto3Field P3String 9);
   ("getEffectiveConfig", GetField 10 (JStr []));
   ("getEffectiveConfig_asB64", BytesAsB64 "getEffectiveConfig");
   ("getEffectiveConfig_asU8", BytesAsU8 "getEffectiveConfig");
   ("setEffectiveConfig", SetProto3Field P3Bytes 10); ("getMeta", GetWrapperField JobMetadataT 11);
   ("setMeta", SetWrapperField 11); ("clearMeta", ClearField "setMeta"); ("hasMeta", HasField 11);
   ("getIdentity", GetWrapperField IdentityBindingT 12); ("setIdentity", SetWrapperField 12);
   ("clearIdentity", ClearField "setIdentity"); ("hasIdentity", HasField 12);
   ("getInputRef", GetWrapperField ResourceRefT 13); ("setInputRef", SetWrapperField 13);
   ("clearInputRef", ClearField "setInputRef"); ("hasInputRef", HasField 13);
   ("getInputContent", GetField 20 (JStr [])); ("getInputContent_asB64", BytesAsB64 "getInputContent");
   ("getInputContent_asU8", BytesAsU8 "getInputContent"); ("setInputContent", SetProto3Field P3Bytes 20);
   ("getInputContentType", GetField 21 (JStr [])); ("setInputContentType", SetProto3Field P3String 21);
   ("getInputSizeBytes", GetField 22 (JNum (NInt 0))); ("setInputSizeBytes", SetProto3Field P3Int 22)].

Definition PolicyCheckRequest_jspb : jspb_class cap_class := {|
  jc_repeatedFields := [];
  jc_oneofGroups := [];
  jc_methods := PolicyCheckRequest_methods;
  jc_accessors := PolicyCheckRequest_accessors
|}.

Definition BudgetConstraints_methods : jspb_methods cap_class := {|
  jc_toObject :=
    [("maxRuntimeMs", ShowField 1 (JNum (NInt 0))); ("maxRetries", ShowField 2 (JNum (NInt 0)));
     ("maxArtifactBytes", ShowField 3 (JNum (NInt 0))); ("maxConcurrentJobs", ShowField 4 (JNum (NInt 0)))];
  jc_deserialize :=
    [(1, ReadSet (JScalar TInt64) "setMaxRuntimeMs"); (2, ReadSet (JScalar TInt32) "setMaxRetries");
     (3, ReadSet (JScalar TInt64) "setMaxArtifactBytes"); (4, ReadSet (JScalar TInt32) "setMaxConcurrentJobs")];
  jc_serialize :=
    [Write "getMaxRuntimeMs" NonZero (JScalar TInt64) 1; Write "getMaxRetries" NonZero (JScalar TInt32) 2;
     Write "getMaxArtifactBytes" NonZero (JScalar TInt64) 3;
     Write "getMaxConcurrentJobs" NonZero (JScalar TInt32) 4]
|}.

Definition BudgetConstraints_accessors : list (string * accessor cap_class) :=
  [("getMaxRuntimeMs", GetField 1 (JNum (NInt 0))); ("setMaxRuntimeMs", SetProto3Field P3Int 1);
   ("getMaxRetries", GetField 2 (JNum (NInt 0))); ("setMaxRetries", SetProto3Field P3Int 2);
   ("getMaxArtifactBytes", GetField 3 (JNum (NInt 0))); ("setMaxArtifactBytes", SetProto3Field P3Int 3);
   ("getMaxConcurrentJobs", GetField 4 (JNum (NInt 0))); ("setMaxConcurrentJobs", SetProto3Field P3Int 4)].

Definition BudgetConstraints_jspb : jspb_class cap_class := {|
  jc_repeatedFields := [];
  jc_oneofGroups := [];
  jc_methods := BudgetConstraints_methods;
  jc_accessors := BudgetConstraints_accessors
|}.

Definition SandboxProfile_methods : jspb_methods cap_class := {|
  jc_toObject :=
    [("isolated", ShowBooleanField 1 (JBool false)); ("networkAllowlistList", ShowRepeatedField 2);
     ("fsReadOnlyList", ShowRepeatedField 3); ("fsReadWriteList", ShowRepeatedField 4)];
  jc_deserialize :=
    [(1, ReadSet (JScalar TBool) "setIsolated"); (2, ReadAdd (JScalar TString) "addNetworkAllowlist");
     (3, ReadAdd (JScalar TString) "addFsReadOnly"); (4, ReadAdd (JScalar TString) "addFsReadWrite")];
  jc_serialize :=
    [Write "getIsolated" Truthy (JScalar TBool) 1; WriteRepeated "getNetworkAllowlistList" (JScalar TString) 2;
     WriteRepeated "getFsReadOnlyList" (JScalar TString) 3;
     WriteRepeated "getFsReadWriteList" (JScalar TString) 4]
|}.

Definition SandboxProfile_accessors : list (string * accessor cap_class) :=
  [("getIsolated", GetBooleanField 1 (JBool false)); ("setIsolated", SetProto3Field P3Boolean 1);
   ("getNetworkAllowlistList", GetRepeatedField 2); ("setNetworkAllowlistList", SetField 2);
   ("addNetworkAllowlist", AddToRepeatedField 2);
   ("clearNetworkAllowlistList", ClearList "setNetworkAllowlistList");
   ("getFsReadOnlyList", GetRepeatedField 3); ("setFsReadOnlyList", SetField 3);
   ("addFsReadOnly", AddToRepeatedField 3); ("clearFsReadOnlyList", ClearList "setFsReadOnlyList");
   ("getFsReadWriteList", GetRepeatedField 4); ("setFsReadWriteList", SetField 4);
   ("addFsReadWrite", AddToRepeatedField 4); ("clearFsReadWriteList", ClearList "setFsReadWriteList")].

Definition SandboxProfile_jspb : jspb_class cap_class := {|
  jc_repeatedFields := [2; 3; 4];
  jc_oneofGroups := [];
  jc_methods := SandboxProfile_methods;
  jc_accessors := SandboxProfile_accessors
|}.

Definition ToolchainConstraints_methods : jspb_methods cap_class := {|
  jc_toObject :=
    [("allowedToolsList", ShowRepeatedField 1); ("allowedCommandsList", ShowRepeatedField 2)];
  jc_deserialize :=
    [(1, ReadAdd (JScalar TString) "addAllowedTools"); (2, ReadAdd (JScalar TString) "addAllowedCommands")];
  jc_serialize :=
    [WriteRepeated "getAllowedToolsList" (JScalar TString) 1;
     WriteRepeated "getAllowedCommandsList" (JScalar TString) 2]
|}.

Definition ToolchainConstraints_accessors : list (string * accessor cap_class) :=
  [("getAllowedToolsList", GetRepeatedField 1); ("setAllowedToolsList", SetField 1);
   ("addAllowedTools", AddToRepeatedField 1); ("clearAllowedToolsList", ClearList "setAllowedToolsList");
   ("getAllowedCommandsList", GetRepeatedField 2); ("setAllowedCommandsList", SetField 2);
   ("addAllowedCommands", AddToRepeatedField 2);
   ("clearAllowedCommandsList", ClearList "setAllowedCommandsList")].

Definition ToolchainConstraints_jspb : jspb_class cap_class := {|
  jc_repeatedFields := [1; 2];
  jc_oneofGroups := [];
  jc_methods := ToolchainConstraints_methods;
  jc_accessors := ToolchainConstraints_accessors
|}.

Definition DiffConstraints_methods : jspb_methods cap_class := {|
  jc_toObject :=
    [("maxFiles", ShowField 1 (JNum (NInt 0))); ("maxLines", ShowField 2 (JNum (NInt 0)));
     ("denyPathGlobsList", ShowRepeatedField 3)];
  jc_deserialize :=
    [(1, ReadSet (JScalar TInt32) "setMaxFiles"); (2, ReadSet (JScalar TInt32) "setMaxLines");
     (3, ReadAdd (JScalar TString) "addDenyPathGlobs")];
  jc_serialize :=
    [Write "getMaxFiles" NonZero (JScalar TInt32) 1; Write "getMaxLines" NonZero (JScalar TInt32) 2;
     WriteRepeated "getDenyPathGlobsList" (JScalar TString) 3]
|}.

Definition DiffConstraints_accessors : list (string * accessor cap_class) :=
  [("getMaxFiles", GetField 1 (JNum (NInt 0))); ("setMaxFiles", SetProto3Field P3Int 1);
   ("getMaxLines", GetField 2 (JNum (NInt 0))); ("setMaxLines", SetProto3Field P3Int 2);
   ("getDenyPathGlobsList", GetRepeatedField 3); ("setDenyPathGlobsList", SetField 3);
   ("addDenyPathGlobs", AddToRepeatedField 3); ("clearDenyPathGlobsList", ClearList "setDenyPathGlobsList")].

Definition DiffConstraints_jspb : jspb_class cap_class := {|
  jc_repeatedFields := [3];
  jc_oneofGroups := [];
  jc_methods := DiffConstraints_methods;
  jc_accessors := DiffConstraints_accessors
|}.

Definition PolicyConstraints_methods : jspb_methods cap_class := {|
  jc_toObject :=
    [("budgets", ShowMessage "getBudgets" BudgetConstraintsT);
     ("sandbox", ShowMessage "getSandbox" SandboxProfileT);
     ("toolchain", ShowMessage "getToolchain" ToolchainConstraintsT);
     ("diff", ShowMessage "getDiff" DiffConstraintsT); ("redactionLevel", ShowField 5 (JStr []))];
  jc_deserialize :=
    [(1, ReadMessageSet BudgetConstraintsT "setBudgets"); (2, ReadMessageSet SandboxProfileT "setSandbox");
     (3, ReadMessageSet ToolchainConstraintsT "setToolchain"); (4, ReadMessageSet DiffConstraintsT "setDiff");
     (5, ReadSet (JScalar TString) "setRedactionLevel")];
  jc_serialize :=
    [WriteMessage "getBudgets" 1 BudgetConstraintsT; WriteMessage "getSandbox" 2 SandboxProfileT;
     WriteMessage "getToolchain" 3 ToolchainConstraintsT; WriteMessage "getDiff" 4 DiffConstraintsT;
     Write "getRedactionLevel" NonEmpty (JScalar TString) 5]
|}.

Definition PolicyConstraints_accessors : list (string * accessor cap_class) :=
  [("getBudgets", GetWrapperField BudgetConstraintsT 1); ("setBudgets", SetWrapperField 1);
   ("clearBudgets", ClearField "setBudgets"); ("hasBudgets", HasField 1);
   ("getSandbox", GetWrapperField SandboxProfileT 2); ("setSandbox", SetWrapperField 2);
   ("clearSandbox", ClearField "setSandbox"); ("hasSandbox", HasField 2);
   ("getToolchain", GetWrapperField ToolchainConstraintsT 3); ("setToolchain", SetWrapperField 3);
   ("clearToolchain", ClearField "setToolchain"); ("hasToolchain", HasField 3);
   ("getDiff", GetWrapperField DiffConstraintsT 4); ("setDiff", SetWrapperField 4);
   ("clearDiff", ClearField "setDiff"); ("hasDiff", HasField 4); ("getRedactionLevel", GetField 5 (JStr []));
   ("setRedactionLevel", SetProto3Field P3String 5)].

Definition PolicyConstraints_jspb : jspb_class cap_class := {|
  jc_repeatedFields := [];
  jc_oneofGroups := [];
  jc_methods := PolicyConstraints_methods;
  jc_accessors := PolicyConstraints_accessors
|}.

Definition PolicyRemediation_methods : jspb_methods cap_class := {|
  jc_toObject :=
    [("id", ShowField 1 (JStr [])); ("title", ShowField 2 (JStr [])); ("summary", ShowField 3 (JStr []));
     ("replacementTopic", ShowField 4 (JStr [])); ("replacementCapability", ShowField 5 (JStr []));
     ("addLabelsMap", ShowMap "getAddLabelsMap"); ("removeLabelsList", ShowRepeatedField 7)];
  jc_deserialize :=
    [(1, ReadSet (JScalar TString) "setId"); (2, ReadSet (JScalar TString) "setTitle");
     (3, ReadSet (JScalar TString) "setSummary"); (4, ReadSet (JScalar TString) "setReplacementTopic");
     (5, ReadSet (JScalar TString) "setReplacementCapability");
     (6, ReadMap "getAddLabelsMap" (JScalar TString) (JScalar TString) (JStr []) (JStr []));
     (7, ReadAdd (JScalar TString) "addRemoveLabels")];
  jc_serialize :=
    [Write "getId" NonEmpty (JScalar TString) 1; Write "getTitle" NonEmpty (JScalar TString) 2;
     Write "getSummary" NonEmpty (JScalar TString) 3; Write "getReplacementTopic" NonEmpty (JScalar TString) 4;
     Write "getReplacementCapability" NonEmpty (JScalar TString) 5;
     WriteMap "getAddLabelsMap" 6 (JScalar TString) (JScalar TString);
     WriteRepeated "getRemoveLabelsList" (JScalar TString) 7]
|}.

Definition PolicyRemediation_accessors : list (string * accessor cap_class) :=
  [("getId", GetField 1 (JStr [])); ("setId", SetProto3Field P3String 1); ("getTitle", GetField 2 (JStr []));
   ("setTitle", SetProto3Field P3String 2); ("getSummary", GetField 3 (JStr []));
   ("setSummary", SetProto3Field P3String 3); ("getReplacementTopic", GetField 4 (JStr []));
   ("setReplacementTopic", SetProto3Field P3String 4); ("getReplacementCapability", GetField 5 (JStr []));
   ("setReplacementCapability", SetProto3Field P3String 5); ("getAddLabelsMap", GetMapField 6);
   ("clearAddLabelsMap", ClearMap "getAddLabelsMap"); ("getRemoveLabelsList", GetRepeatedField 7);
   ("setRemoveLabelsList", SetField 7); ("addRemoveLabels", AddToRepeatedField 7);
   ("clearRemoveLabelsList", ClearList "setRemoveLabelsList")].

Definition PolicyRemediation_jspb : jspb_class cap_class := {|
  jc_repeatedFields := [7];
  jc_oneofGroups := [];
  jc_methods := PolicyRemediation_methods;
  jc_accessors := PolicyRemediation_accessors
|}.

Definition PolicyCheckResponse_methods : jspb_methods cap_class := {|
  jc_toObject :=
    [("decision", ShowField 1 (JNum (NInt 0))); ("reason", ShowField 2 (JStr []));
     ("redactedContextPtr", ShowField 3 (JStr [])); ("policySnapshot", ShowField 4 (JStr []));
     ("ruleId", ShowField 5 (JStr [])); ("constraints", ShowMessage "getConstraints" PolicyConstraintsT);
     ("approvalRequired", ShowBooleanField 7 (JBool false)); ("approvalRef", ShowField 8 (JStr []));
     ("remediationsList", ShowMessages "getRemediationsList" PolicyRemediationT);
     ("redactedContextRef", ShowMessage "getRedactedContextRef" ResourceRefT);
     ("identity", ShowMessage "getIdentity" IdentityBindingT)];
  jc_deserialize :=
    [(1, ReadSet JEnum "setDecision"); (2, ReadSet (JScalar TString) "setReason");
     (3, ReadSet (JScalar TString) "setRedactedContextPtr");
     (4, ReadSet (JScalar TString) "setPolicySnapshot"); (5, ReadSet (JScalar TString) "setRuleId");
     (6, ReadMessageSet PolicyConstraintsT "setConstraints");
     (7, ReadSet (JScalar TBool) "setApprovalRequired"); (8, ReadSet (JScalar TString) "setApprovalRef");
     (9, ReadMessageAdd PolicyRemediationT "addRemediations");
     (10, ReadMessageSet ResourceRefT "setRedactedContextRef");
     (11, ReadMessageSet IdentityBindingT "setIdentity")];
  jc_serialize :=
    [Write "getDecision" NonZeroFloat JEnum 1; Write "getReason" NonEmpty (JScalar TString) 2;
     Write "getRedactedContextPtr" NonEmpty (JScalar TString) 3;
     Write "getPolicySnapshot" NonEmpty (JScalar TString) 4; Write "getRuleId" NonEmpty (JScalar TString) 5;
     WriteMessage "getConstraints" 6 PolicyConstraintsT; Write "getApprovalRequired" Truthy (JScalar TBool) 7;
     Write "getApprovalRef" NonEmpty (JScalar TString) 8;
     WriteRepeatedMessage "getRemediationsList" 9 PolicyRemediationT;
     WriteMessage "getRedactedContextRef" 10 ResourceRefT; WriteMessage "getIdentity" 11 IdentityBindingT]
|}.

Definition PolicyCheckResponse_accessors : list (string * accessor cap_class) :=
  [("getDecision", GetField 1 (JNum (NInt 0))); ("setDecision", SetProto3Field P3Enum 1);
   ("getReason", GetField 2 (JStr [])); ("setReason", SetProto3Field P3String 2);
   ("getRedactedContextPtr", GetField 3 (JStr [])); ("setRedactedContextPtr", SetProto3Field P3String 3);
   ("getPolicySnapshot", GetField 4 (JStr [])); ("setPolicySnapshot", SetProto3Field P3String 4);
   ("getRuleId", GetField 5 (JStr [])); ("setRuleId", SetProto3Field P3String 5);
   ("getConstraints", GetWrapperField PolicyConstraintsT 6); ("setConstraints", SetWrapperField 6);
   ("clearConstraints", ClearField "setConstraints"); ("hasConstraints", HasField 6);
   ("getApprovalRequired", GetBooleanField 7 (JBool false));
   ("setApprovalRequired", SetProto3Field P3Boolean 7); ("getApprovalRef", GetField 8 (JStr []));
   ("setApprovalRef", SetProto3Field P3String 8);
   ("getRemediationsList", GetRepeatedWrapperField PolicyRemediationT 9);
   ("setRemediationsList", SetRepeatedWrapperField 9);
   ("addRemediations", AddToRepeatedWrapperField 9 PolicyRemediationT);
   ("clearRemediationsList", ClearList "setRemediationsList");
   ("getRedactedContextRef", GetWrapperField ResourceRefT 10); ("setRedactedContextRef", SetWrapperField 10);
   ("clearRedactedContextRef", ClearField "setRedactedContextRef"); ("hasRedactedContextRef", HasField 10);
   ("getIdentity", GetWrapperField IdentityBindingT 11); ("setIdentity", SetWrapperField 11);
   ("clearIdentity", ClearField "setIdentity"); ("hasIdentity", HasField 11)].

Definition PolicyCheckResponse_jspb : jspb_class cap_class := {|
  jc_repeatedFields := [9];
  jc_oneofGroups := [];
  jc_methods := PolicyCheckResponse_methods;
  jc_accessors := PolicyCheckResponse_accessors
|}.

Definition ListSnapshotsRequest_methods : jspb_methods cap_class := {|
  jc_toObject := [];
  jc_deserialize := [];
  jc_serialize := []
|}.

Definition ListSnapshotsRequest_accessors : list (string * accessor cap_class) := [].

Definition ListSnapshotsRequest_jspb : jspb_class cap_class := {|
  jc_repeatedFields := [];
  jc_oneofGroups := [];
  jc_methods := ListSnapshotsRequest_methods;
  jc_accessors := ListSnapshotsRequest_accessors
|}.

Definition ListSnapshotsResponse_methods : jspb_methods cap_class := {|
  jc_toObject :=
    [("snapshotsList", ShowRepeatedField 1)];
  jc_deserialize :=
    [(1, ReadAdd (JScalar TString) "addSnapshots")];
  jc_serialize :=
    [WriteRepeated "getSnapshotsList" (JScalar TString) 1]
|}.

Definition ListSnapshotsResponse_accessors : list (string * accessor cap_class) :=
  [("getSnapshotsList", GetRepeatedField 1); ("setSnapshotsList", SetField 1);
   ("addSnapshots", AddToRepeatedField 1); ("clearSnapshotsList", ClearList "setSnapshotsList")].

Definition ListSnapshotsResponse_jspb : jspb_class cap_class := {|
  jc_repeatedFields := [1];
  jc_oneofGroups := [];
  jc_methods := ListSnapshotsResponse_methods;
  jc_accessors := ListSnapshotsResponse_accessors
|}.

(** ** The classes *)

(** The types of google.protobuf are those of the library. *)
Definition jspb_pb (c : cap_class) : option (jspb_class cap_class) :=
  match c with
  | SystemAlertT => Some SystemAlert_jspb
  | BusPacketT => Some BusPacket_jspb
  | SignatureMetadataT => Some SignatureMetadata_jspb
  | HandshakeT => Some Handshake_jspb
  | WorkerHandshakeChallengeRequestT => Some WorkerHandshakeChallengeRequest_jspb
  | WorkerHandshakeChallengeT => Some WorkerHandshakeChallenge_jspb
  | WorkerHandshakeAuthenticateT => Some WorkerHandshakeAuthenticate_jspb
  | WorkerHandshakeResultT => Some WorkerHandshakeResult_jspb
  | HeartbeatT => Some Heartbeat_jspb
  | IdentityBindingT => Some IdentityBinding_jspb
  | DispatchIdentityT => Some DispatchIdentity_jspb
  | ResourceRefT => Some ResourceRef_jspb
  | ContextHintsT => Some ContextHints_jspb
  | BudgetT => Some Budget_jspb
  | JobMetadataT => Some JobMetadata_jspb
  | CompensationT => Some Compensation_jspb
  | JobRequestT => Some JobRequest_jspb
  | JobResultT => Some JobResult_jspb
  | JobProgressT => Some JobProgress_jspb
  | JobCancelT => Some JobCancel_jspb
  | RuleScopeT => Some RuleScope_jspb
  | AuditMetadataT => Some AuditMetadata_jspb
  | RuleT => Some Rule_jspb
  | TraceStepT => Some TraceStep_jspb
  | DecisionT => Some Decision_jspb
  | BundleMetadataT => Some BundleMetadata_jspb
  | BundleVersionT => Some BundleVersion_jspb
  | BundleT => Some Bundle_jspb
  | JobEvaluationContextT => Some JobEvaluationContext_jspb
  | EdgeEvaluationContextT => Some EdgeEvaluationContext_jspb
  | PolicyEvaluateRequestT => Some PolicyEvaluateRequest_jspb
  | PolicyEvaluateResponseT => Some PolicyEvaluateResponse_jspb
  | PolicyCheckRequestT => Some PolicyCheckRequest_jspb
  | BudgetConstraintsT => Some BudgetConstraints_jspb
  | SandboxProfileT => Some SandboxProfile_jspb
  | ToolchainConstraintsT => Some ToolchainConstraints_jspb
  | DiffConstraintsT => Some DiffConstraints_jspb
  | PolicyConstraintsT => Some PolicyConstraints_jspb
  | PolicyRemediationT => Some PolicyRemediation_jspb
  | PolicyCheckResponseT => Some PolicyCheckResponse_jspb
  | ListSnapshotsRequestT => Some ListSnapshotsRequest_jspb
  | ListSnapshotsResponseT => Some ListSnapshotsResponse_jspb
  | TimestampT | StructT | ValueT | ListValueT => None
  end.

(** ** Enums *)

Definition alert_enums : list (string * list (string * Z)) :=
  [("AlertSeverity",
     [("ALERT_SEVERITY_UNSPECIFIED", 0); ("ALERT_SEVERITY_INFO", 1); ("ALERT_SEVERITY_WARNING", 2);
      ("ALERT_SEVERITY_ERROR", 3); ("ALERT_SEVERITY_CRITICAL", 4)])].

Definition handshake_enums : list (string * list (string * Z)) :=
  [("ComponentRole",
     [("COMPONENT_ROLE_UNSPECIFIED", 0); ("COMPONENT_ROLE_GATEWAY", 1); ("COMPONENT_ROLE_SCHEDULER", 2);
      ("COMPONENT_ROLE_WORKER", 3); ("COMPONENT_ROLE_ORCHESTRATOR", 4); ("COMPONENT_ROLE_CONTROLLER", 5)]);
   ("WorkerHandshakePurpose",
     [("WORKER_HANDSHAKE_PURPOSE_UNSPECIFIED", 0); ("WORKER_HANDSHAKE_PURPOSE_ISSUE", 1);
      ("WORKER_HANDSHAKE_PURPOSE_RENEW", 2)]);
   ("WorkerHandshakeProofAlgorithm",
     [("WORKER_HANDSHAKE_PROOF_ALGORITHM_UNSPECIFIED", 0);
      ("WORKER_HANDSHAKE_PROOF_ALGORITHM_ECDSA_P256_SHA256", 1)]);
   ("WorkerHandshakeRejectionReason",
     [("WORKER_HANDSHAKE_REJECTION_REASON_UNSPECIFIED", 0);
      ("WORKER_HANDSHAKE_REJECTION_REASON_INVALID_REQUEST", 1);
      ("WORKER_HANDSHAKE_REJECTION_REASON_AUTHENTICATION_FAILED", 2);
      ("WORKER_HANDSHAKE_REJECTION_REASON_REPLAY_DETECTED", 3);
      ("WORKER_HANDSHAKE_REJECTION_REASON_CLOCK_SKEW", 4);
      ("WORKER_HANDSHAKE_REJECTION_REASON_CHALLENGE_EXPIRED", 5);
      ("WORKER_HANDSHAKE_REJECTION_REASON_SESSION_REQUIRED", 6);
      ("WORKER_HANDSHAKE_REJECTION_REASON_SESSION_INVALID", 7);
      ("WORKER_HANDSHAKE_REJECTION_REASON_UNSUPPORTED_VERSION", 8);
      ("WORKER_HANDSHAKE_REJECTION_REASON_INTERNAL_ERROR", 9)])].

Definition job_enums : list (string * list (string * Z)) :=
  [("JobPriority",
     [("JOB_PRIORITY_UNSPECIFIED", 0); ("JOB_PRIORITY_INTERACTIVE", 1); ("JOB_PRIORITY_BATCH", 2);
      ("JOB_PRIORITY_CRITICAL", 3)]);
   ("JobStatus",
     [("JOB_STATUS_UNSPECIFIED", 0); ("JOB_STATUS_PENDING", 1); ("JOB_STATUS_SCHEDULED", 2);
      ("JOB_STATUS_DISPATCHED", 3); ("JOB_STATUS_RUNNING", 4); ("JOB_STATUS_SUCCEEDED", 5);
      ("JOB_STATUS_FAILED", 6); ("JOB_STATUS_CANCELLED", 7); ("JOB_STATUS_DENIED", 8);
      ("JOB_STATUS_TIMEOUT", 9); ("JOB_STATUS_FAILED_RETRYABLE", 10); ("JOB_STATUS_FAILED_FATAL", 11)]);
   ("ActorType",
     [("ACTOR_TYPE_UNSPECIFIED", 0); ("ACTOR_TYPE_HUMAN", 1); ("ACTOR_TYPE_SERVICE", 2)]);
   ("ErrorCode",
     [("ERROR_CODE_UNSPECIFIED", 0); ("ERROR_CODE_PROTOCOL_VERSION_MISMATCH", 100);
      ("ERROR_CODE_PROTOCOL_MALFORMED_PACKET", 101); ("ERROR_CODE_PROTOCOL_UNKNOWN_PAYLOAD", 102);
      ("ERROR_CODE_PROTOCOL_SIGNATURE_INVALID", 103); ("ERROR_CODE_PROTOCOL_SIGNATURE_MISSING", 104);
      ("ERROR_CODE_JOB_TIMEOUT", 200); ("ERROR_CODE_JOB_RESOURCE_EXHAUSTED", 201);
      ("ERROR_CODE_JOB_PERMISSION_DENIED", 202); ("ERROR_CODE_JOB_INVALID_INPUT", 203);
      ("ERROR_CODE_JOB_NOT_FOUND", 204); ("ERROR_CODE_JOB_DUPLICATE", 205);
      ("ERROR_CODE_JOB_WORKER_UNAVAILABLE", 206); ("ERROR_CODE_SAFETY_DENIED", 300);
      ("ERROR_CODE_SAFETY_POLICY_VIOLATION", 301); ("ERROR_CODE_SAFETY_RISK_TAG_BLOCKED", 302);
      ("ERROR_CODE_TRANSPORT_PUBLISH_FAILED", 400); ("ERROR_CODE_TRANSPORT_SUBSCRIBE_FAILED", 401);
      ("ERROR_CODE_TRANSPORT_CONNECTION_LOST", 402)])].

Definition policy_enums : list (string * list (string * Z)) :=
  [("RuleType",
     [("RULE_TYPE_UNSPECIFIED", 0); ("RULE_TYPE_INPUT", 1); ("RULE_TYPE_OUTPUT", 2); ("RULE_TYPE_VELOCITY", 3);
      ("RULE_TYPE_EDGE", 4)]);
   ("RuleStatus",
     [("RULE_STATUS_UNSPECIFIED", 0); ("RULE_STATUS_DRAFT", 1); ("RULE_STATUS_PUBLISHED", 2);
      ("RULE_STATUS_DEPRECATED", 3)]);
   ("DecisionSource",
     [("DECISION_SOURCE_UNSPECIFIED", 0); ("DECISION_SOURCE_JOB", 1); ("DECISION_SOURCE_EDGE", 2)]);
   ("RuleScopeKind",
     [("RULE_SCOPE_KIND_UNSPECIFIED", 0); ("RULE_SCOPE_KIND_GLOBAL", 1); ("RULE_SCOPE_KIND_TENANT", 2);
      ("RULE_SCOPE_KIND_WORKFLOW", 3); ("RULE_SCOPE_KIND_EDGE_FLEET", 4); ("RULE_SCOPE_KIND_EDGE_USER", 5)]);
   ("EdgeMode",
     [("EDGE_MODE_UNSPECIFIED", 0); ("EDGE_MODE_OBSERVE", 1); ("EDGE_MODE_ENFORCE", 2);
      ("EDGE_MODE_ENTERPRISE_STRICT", 3)])].

Definition safety_enums : list (string * list (string * Z)) :=
  [("DecisionType",
     [("DECISION_TYPE_UNSPECIFIED", 0); ("DECISION_TYPE_ALLOW", 1); ("DECISION_TYPE_DENY", 2);
      ("DECISION_TYPE_REQUIRE_HUMAN", 3); ("DECISION_TYPE_THROTTLE", 4);
      ("DECISION_TYPE_ALLOW_WITH_CONSTRAINTS", 5); ("DECISION_TYPE_QUARANTINE", 6);
      ("DECISION_TYPE_REDACT", 7)])].

Definition jspb_enums : list (string * list (string * Z)) := concat [alert_enums; handshake_enums; job_enums; policy_enums; safety_enums].
