(* ===== verification/JspbRoundTrip.v ===== *)
(** * Message classes of google-protobuf: reading what was written

    For classes that are the code of their declarations: what
    [serializeBinary] writes for a message whose fields hold values of their
    types, [deserializeBinary] reads back, and the message it returns shows the
    same values through every accessor. *)

From S2P Require Import Prelude JsString JsValue PbRuntime StaticCode StaticWire ProtoFile JspbCode JspbLaws JspbGenerate.

Section RoundTrip.
Context {class : Type} (lib : jspb class) `{!JspbLaws lib}.
Context (J : class -> option (jspb_class class)) (proto : class -> list (proto_field class)).
Notation msg := (jmsg lib).
Implicit Types (f : proto_field class) (m : msg) (C : jspb_class class).

(** ** Messages that have their types *)

(** What the slot of a field may hold; a scalar is not the default. *)
Definition filled_field (filled : class -> msg -> Prop) (m : msg) f : Prop :=
  jb_slot lib m (pf_number f) = Unset \/
  match pf_label f, pf_type f with
  | Singular, MessageType d => exists x, jb_slot lib m (pf_number f) = Message x /\ filled d x
  | Singular, _ => exists k v, jscalar_of f = Some k /\ jb_slot lib m (pf_number f) = Value v /\
      jscalar_ok lib k v /\ passes (test_of k) v = true
  | Repeated, MessageType d => exists l, jb_slot lib m (pf_number f) = Messages l /\ Forall (filled d) l
  | Repeated, _ => exists k l, jscalar_of f = Some k /\ jb_slot lib m (pf_number f) = Values l /\
      Forall (jscalar_ok lib k) l
  | Mapped, _ => exists k l, jscalar_of f = Some k /\ jb_slot lib m (pf_number f) = Entries l /\
      NoDup (map fst l) /\ Forall (entry_ok lib k) l
  end.

(** One member of the oneof at most. *)
Definition one_member (m : msg) (fs : list (proto_field class)) : Prop :=
  forall f g, f ∈ fs -> g ∈ fs -> pf_oneof f <> None -> pf_oneof g <> None ->
    jb_slot lib m (pf_number f) <> Unset -> jb_slot lib m (pf_number g) <> Unset -> f = g.

(** A message of class [c], at most [n] deep. *)
Fixpoint filled (n : nat) (c : class) (m : msg) : Prop :=
  match n, J c with
  | O, _ => False
  | S n, Some _ => Forall (filled_field (filled n) m) (proto c) /\ one_member m (proto c)
  | S _, None => jb_valid lib c m
  end.

(** ** Messages that show the same *)

Definition same_accessor (same : class -> msg -> msg -> Prop) C (m m' : msg) (p : string * accessor class) : Prop :=
  match p.2 with
  | GetWrapperField d n => option_Forall2 (same d) (jb_getWrapperField lib m n) (jb_getWrapperField lib m' n)
  | GetRepeatedWrapperField d n =>
      Forall2 (same d) (jb_getRepeatedWrapperField lib m n) (jb_getRepeatedWrapperField lib m' n)
  | GetMapField n => Permutation (jb_getMapField lib m n) (jb_getMapField lib m' n)
  | _ => call_get lib C p.1 m = call_get lib C p.1 m'
  end.

Fixpoint same (n : nat) (c : class) (m m' : msg) : Prop :=
  match n, J c with
  | O, _ => False
  | S n, Some C => Forall (same_accessor (same n) C m m') (jc_accessors C)
  | S _, None => jb_equals lib m m' = true
  end.

(** ** Classes *)

(** Names and numbers are not used twice, and members of oneofs are messages. *)
Definition fields_ok C (fs : list (proto_field class)) : bool :=
  bool_decide (NoDup (map fst (jc_accessors C))) && bool_decide (NoDup (map pf_number fs)) &&
  forallb (fun f => (0 <? pf_number f) && (pf_number f <? 2 ^ 29) &&
             match pf_oneof f, pf_label f, pf_type f with
             | None, _, _ | Some _, Singular, MessageType _ => true
             | _, _, _ => false
             end) fs.

Hypothesis generated : forall c C, J c = Some C -> jspb_for (proto c) = Some C /\ fields_ok C (proto c) = true.

Record class_facts (fs : list (proto_field class)) C : Prop := {
  cf_numbers : NoDup (map pf_number fs);
  cf_range f : f ∈ fs -> 0 < pf_number f < 2 ^ 29;
  cf_oneof f : f ∈ fs -> pf_oneof f <> None -> pf_label f = Singular /\ exists d, pf_type f = MessageType d;
  cf_groups : jc_oneofGroups C = oneof_numbers fs;
  cf_accessors f : f ∈ fs -> exists l, accessors_for 0 f = Some l /\
    forall name a, (name, a) ∈ l -> method C name = Some a;
  cf_fields p : p ∈ jc_accessors C -> exists f l, f ∈ fs /\ accessors_for 0 f = Some l /\ p ∈ l;
  cf_writes : Forall2 (fun f s => write_for f = Some s) fs (jc_serialize (jc_methods C));
  cf_reads f : f ∈ fs -> exists d, read_for f = Some (pf_number f, d) /\
    List.find (fun q => q.1 =? pf_number f) (jc_deserialize (jc_methods C)) = Some (pf_number f, d)
}.

Lemma find_key {A} (l : list (Z * A)) n x : NoDup (map fst l) -> (n, x) ∈ l -> List.find (fun q => q.1 =? n) l = Some (n, x).
Proof.
  intros Hnd Hin. destruct (List.find (fun q => q.1 =? n) l) as [[n' y]|] eqn:E.
  - apply find_some in E as [Hy E%Z.eqb_eq]. cbn in E. subst n'. apply list_elem_of_In in Hy.
    by rewrite (key_determines fst l (n, x) (n, y) Hnd Hin Hy eq_refl).
  - eapply find_none in E; [|by apply list_elem_of_In]. cbn in E. by rewrite Z.eqb_refl in E.
Qed.

Lemma method_in C name a : NoDup (map fst (jc_accessors C)) -> (name, a) ∈ jc_accessors C -> method C name = Some a.
Proof.
  intros Hnd Hin. unfold method. destruct (List.find _ _) as [[name' b]|] eqn:E.
  - apply find_some in E as [Hb E%String.eqb_eq]. cbn in E. subst name'. apply list_elem_of_In in Hb.
    by pose proof (key_determines fst _ (name, a) (name, b) Hnd Hin Hb eq_refl) as [= ->].
  - eapply find_none in E; [|by apply list_elem_of_In]. cbn in E. by rewrite String.eqb_refl in E.
Qed.

Lemma read_for_number f p : read_for f = Some p -> p.1 = pf_number f.
Proof. unfold read_for. destruct (match pf_label f with Singular => _ | _ => _ end); [|done]. by intros [= <-]. Qed.

Lemma reads_numbers fs l : Forall2 (fun f p => read_for f = Some p) fs l -> map fst l = map pf_number fs.
Proof. induction 1 as [|f p fs l H _ IH]; [done|]. cbn [map]. by rewrite IH, (read_for_number f p H). Qed.

Lemma generated_facts c C : J c = Some C -> class_facts (proto c) C.
Proof.
  intros Hc. destruct (generated c C Hc) as [Hg Hok]. unfold jspb_for in Hg.
  destruct (mapM object_for _) as [objects|]; [|done]. destruct (mapM read_for _) as [reads|] eqn:Er; [|done].
  destruct (mapM write_for _) as [writes|] eqn:Ew; [|done]. destruct (mapM (accessors_for 0) _) as [accs|] eqn:Ea; [|done].
  injection Hg as <-. apply mapM_Some in Er, Ew, Ea. unfold fields_ok in Hok. cbn [jc_accessors] in Hok.
  rewrite !andb_true_iff, !bool_decide_eq_true, forallb_forall in Hok. destruct Hok as [[Hna Hnn] Hf].
  split; cbn [jc_oneofGroups jc_methods jc_serialize jc_deserialize jc_accessors]; try done.
  - intros f Hin%list_elem_of_In%Hf. rewrite !andb_true_iff, !Z.ltb_lt in Hin. tauto.
  - intros f Hin%list_elem_of_In%Hf Ho. rewrite !andb_true_iff in Hin. destruct Hin as [_ H].
    destruct (pf_oneof f), (pf_label f), (pf_type f); try done. eauto.
  - intros f Hin. apply list_elem_of_lookup in Hin as [i Hi]. destruct (Forall2_lookup_l _ _ _ _ _ Ea Hi) as (l & Hl & El).
    exists l. split; [done|]. intros name a Hp. apply method_in; [done|]. cbn [jc_accessors]. apply list_elem_of_In, in_concat.
    exists l. split; apply list_elem_of_In; [by eapply list_elem_of_lookup_2 | done].
  - intros p Hp%list_elem_of_In. apply in_concat in Hp as (l & Hl & Hp). apply list_elem_of_In, list_elem_of_lookup in Hl as [i Hi].
    destruct (Forall2_lookup_r _ _ _ _ _ Ea Hi) as (f & Hf' & El). exists f, l. split; [by eapply list_elem_of_lookup_2|].
    split; [done | by apply list_elem_of_In].
  - intros f Hin. apply list_elem_of_lookup in Hin as [i Hi]. destruct (Forall2_lookup_l _ _ _ _ _ Er Hi) as ([n d] & Hl & El).
    pose proof (read_for_number f _ El) as Hn. cbn in Hn. subst n. exists d. split; [done|].
    apply find_key; [by rewrite (reads_numbers _ _ Er) | by eapply list_elem_of_lookup_2].
Qed.

(** ** Pieces *)

(** What one turn of the reading loop reads. *)
Inductive piece : Type :=
| PScalar f (k : jscalar) (v : jsval)
| PPacked f (k : jscalar) (l : list jsval)
| PMessage f (d : class) (x : msg)
| PEntry f (k : jscalar) (e : jsstr * jsval).

Definition piece_field (p : piece) : proto_field class :=
  match p with PScalar f _ _ | PPacked f _ _ | PMessage f _ _ | PEntry f _ _ => f end.

Definition packed (k : jscalar) : bool := match k with JScalar (TString | TBytes) => false | _ => true end.

Definition pieces_of (m : msg) f : list piece :=
  match pf_label f, pf_type f, jscalar_of f, jb_slot lib m (pf_number f) with
  | Singular, MessageType d, _, Message x => [PMessage f d x]
  | Repeated, MessageType d, _, Messages l => map (PMessage f d) l
  | Singular, _, Some k, Value v => [PScalar f k v]
  | Repeated, _, Some k, Values l =>
      if packed k then match l with [] => [] | _ => [PPacked f k l] end else map (PScalar f k) l
  | Mapped, _, Some k, Entries l => map (PEntry f k) l
  | _, _, _, _ => []
  end.

Section Replay.
Context (C : jspb_class class) (same : class -> msg -> msg -> Prop).
Notation group := (nth 0 (jc_oneofGroups C) []).

(** The change a piece makes. *)
Definition applies (p : piece) (m m' : msg) : Prop :=
  match p with
  | PScalar f k v =>
      m' = match pf_label f with
           | Singular => jb_setProto3Field lib (proto3_of k) m (pf_number f) v
           | _ => jb_addToRepeatedField lib m (pf_number f) v
           end
  | PPacked f _ l => m' = fold_left (fun m v => jb_addToRepeatedField lib m (pf_number f) v) l m
  | PMessage f d x => exists x', same d x x' /\
      m' = match pf_label f, pf_oneof f with
           | Singular, None => jb_setWrapperField lib m (pf_number f) (Some x')
           | Singular, Some _ => jb_setOneofWrapperField lib m (pf_number f) group (Some x')
           | _, _ => jb_addToRepeatedWrapperField lib m (pf_number f) x'
           end
  | PEntry f _ e => m' = jb_mapSet lib m (pf_number f) e.1 e.2
  end.

Inductive replay : list piece -> msg -> msg -> Prop :=
| replay_nil m : replay [] m m
| replay_cons p ps m m1 m' : applies p m m1 -> replay ps m1 m' -> replay (p :: ps) m m'.

Lemma replay_app ps qs m m' : replay (ps ++ qs) m m' -> exists m1, replay ps m m1 /\ replay qs m1 m'.
Proof.
  revert m. induction ps as [|p ps IH]; intros m H; [exists m; split; [constructor | done]|].
  inversion H as [|? ? ? m1 ? Hp Hr]; subst. destruct (IH m1 Hr) as (m2 & H1 & H2). exists m2. split; [by econstructor | done].
Qed.

(** What a slot holds after the pieces of a slot. *)
Definition slot_rel f (s s' : slot msg) : Prop :=
  match pf_label f, pf_type f, s, s' with
  | Singular, MessageType d, Message x, Message x' => same d x x'
  | Repeated, MessageType d, Messages l, Messages l' => Forall2 (same d) l l'
  | Singular, Scalar _, Value v, Value v' | Singular, EnumType _, Value v, Value v' => v' = v
  | Repeated, Scalar _, Values l, Values l' | Repeated, EnumType _, Values l, Values l' => l' = l
  | Mapped, _, Entries l, Entries l' => Permutation l l'
  | _, _, Unset, Unset | Repeated, (Scalar _ | EnumType _), Values [], Unset | Repeated, MessageType _, Messages [], Unset
  | Mapped, _, Entries [], Unset => True
  | _, _, _, _ => False
  end.

Definition others (f : proto_field class) (m m' : msg) : Prop :=
  forall n, n <> pf_number f -> jb_slot lib m' n = jb_slot lib m n.

Lemma others_trans f m1 m2 m3 : others f m1 m2 -> others f m2 m3 -> others f m1 m3.
Proof. intros H1 H2 n Hn. by rewrite H2, H1. Qed.

(** Lists of scalars. *)
Definition holds_values (m : msg) (n : Z) (l : list jsval) : Prop :=
  (l = [] /\ jb_slot lib m n = Unset) \/ jb_slot lib m n = Values l.

Lemma holds_get m n l : holds_values m n l -> jb_getRepeatedField lib m n = l.
Proof. intros [[-> H] | H]; [by apply getRepeated_unset | by apply getRepeated_values]. Qed.

Lemma added f l : forall m acc, holds_values m (pf_number f) acc ->
  let m' := fold_left (fun m v => jb_addToRepeatedField lib m (pf_number f) v) l m in
  holds_values m' (pf_number f) (acc ++ l) /\ others f m m'.
Proof.
  induction l as [|v l IH]; intros m acc H; cbn [fold_left]; [by rewrite app_nil_r|].
  destruct (IH (jb_addToRepeatedField lib m (pf_number f) v) (acc ++ [v])) as [H1 H2].
  - right. rewrite addRepeated_slot, Z.eqb_refl. by rewrite (holds_get _ _ _ H).
  - rewrite <- (assoc_L (++)) in H1. split; [exact H1|]. intros n Hn. rewrite (H2 n Hn), addRepeated_slot.
    by destruct (Z.eqb_spec n (pf_number f)).
Qed.

Lemma replay_scalars f k l : forall m m', pf_label f = Repeated -> replay (map (PScalar f k) l) m m' ->
  m' = fold_left (fun m v => jb_addToRepeatedField lib m (pf_number f) v) l m.
Proof.
  induction l as [|v l IH]; intros m m' Hl H; inversion H as [|? ? ? m1 ? Hp Hr]; subst; [done|]. cbn [fold_left].
  cbn [applies] in Hp. rewrite Hl in Hp. subst m1. by apply IH.
Qed.

(** Lists of messages. *)
Definition holds_messages (m : msg) (n : Z) (l : list msg) : Prop :=
  (l = [] /\ jb_slot lib m n = Unset) \/ jb_slot lib m n = Messages l.

Lemma replay_messages f d l : forall m m' acc, pf_label f = Repeated -> holds_messages m (pf_number f) acc ->
  replay (map (PMessage f d) l) m m' ->
  exists l', Forall2 (same d) l l' /\ holds_messages m' (pf_number f) (acc ++ l') /\ others f m m'.
Proof.
  induction l as [|x l IH]; intros m m' acc Hl Hm H; inversion H as [|? ? ? m1 ? Hp Hr]; subst.
  { exists []. rewrite app_nil_r. split; [constructor|]. by split. }
  cbn [applies] in Hp. rewrite Hl in Hp. destruct Hp as (x' & Hx & ->).
  assert (jb_getRepeatedWrapperField lib m (pf_number f) = acc) as Hg
    by (destruct Hm as [[-> Hm] | Hm]; [by apply getWrappers_unset | by apply getWrappers_messages]).
  destruct (IH (jb_addToRepeatedWrapperField lib m (pf_number f) x') m' (acc ++ [x'])) as (l' & H1 & H2 & H3); [done | | done |].
  - right. rewrite addWrapper_slot, Z.eqb_refl. by rewrite Hg.
  - exists (x' :: l'). split; [by constructor|]. rewrite <- (assoc_L (++)) in H2. split; [exact H2|].
    intros n Hn. rewrite (H3 n Hn), addWrapper_slot. by destruct (Z.eqb_spec n (pf_number f)).
Qed.

(** Maps. *)
Definition holds_entries (m : msg) (n : Z) (l : list (jsstr * jsval)) : Prop :=
  (l = [] /\ jb_slot lib m n = Unset) \/ exists l', jb_slot lib m n = Entries l' /\ Permutation l l'.

Lemma replay_entries f k l : Forall (fun e => e.1 <> js "__proto__") l -> forall m m' acc, NoDup (map fst (acc ++ l)) -> holds_entries m (pf_number f) acc ->
  replay (map (PEntry f k) l) m m' -> holds_entries m' (pf_number f) (acc ++ l) /\ others f m m'.
Proof.
  induction 1 as [|e l He _ IH]; intros m m' acc Hnd Hm H; inversion H as [|? ? ? m1 ? Hp Hr]; subst; [by rewrite app_nil_r|].
  cbn [applies] in Hp. subst m1.
  assert (Permutation acc (jb_getMapField lib m (pf_number f))) as Hg.
  { destruct Hm as [[-> Hm] | (l' & Hm & Hp)]; [by rewrite getMap_unset | by rewrite (getMap_entries _ _ l')]. }
  destruct (mapSet_entries m (pf_number f) e.1 e.2 He) as (l1 & Hs & Hp1).
  rewrite assoc_set_fresh, <- Hg in Hp1.
  2: { rewrite <- list_elem_of_In, <- Hg. rewrite map_app, NoDup_app in Hnd. intros Hin. destruct Hnd as (_ & Hd & _).
       apply (Hd _ Hin). cbn. left. }
  destruct (IH (jb_mapSet lib m (pf_number f) e.1 e.2) m' (acc ++ [e])) as [H1 H2].
  - by rewrite <- (assoc_L (++)).
  - right. exists l1. split; [done|]. by destruct e; rewrite Hp1.
  - done.
  - rewrite <- (assoc_L (++)) in H1. split; [exact H1|]. intros n Hn. rewrite (H2 n Hn). by apply mapSet_slot.
Qed.

(** ** A field *)

Lemma passes_default k v : jscalar_ok lib k v -> passes (test_of k) v = true -> strict_eq v (proto3_default (proto3_of k)) = false.
Proof.
  intros Hok. destruct k as [[]|]; cbn [test_of passes proto3_of proto3_default]; destruct v; try done; cbn in Hok |- *;
    rewrite ?negb_true_iff; try done.
  - destruct s; [done|]. intros _. by apply bool_decide_eq_false.
  - by destruct b.
Qed.

Lemma replay_field (fl : class -> msg -> Prop) f m M M' :
  filled_field fl m f -> (pf_oneof f <> None -> pf_label f = Singular /\ exists d, pf_type f = MessageType d) ->
  jb_slot lib M (pf_number f) = Unset -> replay (pieces_of m f) M M' ->
  slot_rel f (jb_slot lib m (pf_number f)) (jb_slot lib M' (pf_number f)) /\
  forall n, n <> pf_number f -> jb_slot lib M' n = jb_slot lib M n \/
    (pf_oneof f <> None /\ jb_slot lib m (pf_number f) <> Unset /\ zmem n group = true /\ jb_slot lib M' n = Unset).
Proof.
  intros Hf Ho HM. unfold slot_rel, pieces_of. destruct Hf as [Hu | Hf].
  { rewrite Hu. intros H. assert (M' = M) as ->.
    { destruct (pf_label f), (pf_type f), (jscalar_of f); by inversion H. }
    rewrite HM. split; [by destruct (pf_label f), (pf_type f) | auto]. }
  destruct (pf_label f) eqn:El.
  - destruct (pf_type f) as [nm|vs|d] eqn:Et.
    1,2: destruct Hf as (k & v & Ek & Hs & Hok & Hpass); rewrite Ek, Hs; intros H;
      inversion H as [|? ? ? m1 ? Hp Hr]; subst; inversion Hr; subst; cbn [applies] in Hp; rewrite El in Hp; subst M';
      (assert (nullish v = false) as Hnv by (by destruct k as [[]|], v));
      split; [by rewrite setProto3_slot, Z.eqb_refl, passes_default|];
      intros n Hn; left; rewrite setProto3_slot by done; by destruct (Z.eqb_spec n (pf_number f)).
    destruct Hf as (x & Hs & _). rewrite Hs. intros H. assert (replay [PMessage f d x] M M') as H' by by destruct (jscalar_of f).
    clear H. inversion H' as [|? ? ? m1 ? Hp Hr]; subst; inversion Hr; subst.
    cbn [applies] in Hp. rewrite El in Hp. destruct Hp as (x' & Hx & ->). destruct (pf_oneof f) as [o|] eqn:Eo.
    + split; [by rewrite setOneof_slot, Z.eqb_refl|]. intros n Hn. rewrite setOneof_slot. destruct (Z.eqb_spec n (pf_number f)); [done|].
      destruct (zmem n group); [by right | by left].
    + split; [by rewrite setWrapper_slot, Z.eqb_refl|]. intros n Hn. left. rewrite setWrapper_slot. by destruct (Z.eqb_spec n (pf_number f)).
  - destruct (pf_type f) as [nm|vs|d] eqn:Et.
    1,2: destruct Hf as (k & l & Ek & Hs & Hok); rewrite Ek, Hs; intros H;
      assert (M' = fold_left (fun m v => jb_addToRepeatedField lib m (pf_number f) v) l M) as ->
        by (destruct (packed k); [destruct l; inversion H as [|? ? ? m1 ? Hp Hr]; subst; [done | by inversion Hr; subst] | by eapply replay_scalars]);
      destruct (added f l M []) as [H1 H2]; [by left|]; rewrite app_nil_l in H1; split; [|intros n Hn; left; by apply H2];
      destruct H1 as [[-> ->] | ->]; [done | by destruct l].
    destruct Hf as (l & Hs & _). rewrite Hs. intros H. destruct (replay_messages f d l M M' []) as (l' & H1 & H2 & H3); [done | by left | by destruct (jscalar_of f) |].
    rewrite app_nil_l in H2. split; [|intros n Hn; left; by apply H3]. destruct H2 as [[-> ->] | ->]; [by inversion H1 | by destruct l].
  - destruct Hf as (k & l & Ek & Hs & Hnd & Hok). rewrite Ek, Hs. intros H.
    destruct (replay_entries f k l ltac:(eapply Forall_impl; [exact Hok | by intros e []]) M M' []) as [H1 H2]; [done | by left | by destruct (pf_type f) |].
    rewrite app_nil_l in H1. split; [|intros n Hn; left; by apply H2].
    destruct H1 as [[-> ->] | (l' & -> & Hp)]; [by destruct (pf_type f) | by destruct (pf_type f), l].
Qed.

(** ** All fields *)

Lemma slot_rel_unset f s : slot_rel f Unset s <-> s = Unset.
Proof. unfold slot_rel. destruct (pf_label f), (pf_type f), s; split; done. Qed.

Context (all : list (proto_field class)) (facts : class_facts all C).

Lemma group_member n : zmem n group = true -> exists g, g ∈ all /\ pf_oneof g <> None /\ pf_number g = n.
Proof.
  rewrite zmem_In, (cf_groups _ _ facts). unfold oneof_numbers. set (l := omap _ all). intros Hn.
  assert (In n l) as Hl by (destruct l; [done | exact Hn]). apply list_elem_of_In in Hl. subst l.
  apply list_elem_of_omap in Hl as (g & Hg & E). exists g. split; [done|]. destruct (pf_oneof g); [|done]. by injection E.
Qed.

Lemma replay_fields fl m : Forall (filled_field fl m) all -> one_member m all -> forall fs done M M',
  all = done ++ fs ->
  Forall (fun f => slot_rel f (jb_slot lib m (pf_number f)) (jb_slot lib M (pf_number f))) done ->
  Forall (fun f => jb_slot lib M (pf_number f) = Unset) fs -> replay (concat (map (pieces_of m) fs)) M M' ->
  Forall (fun f => slot_rel f (jb_slot lib m (pf_number f)) (jb_slot lib M' (pf_number f))) all.
Proof.
  intros Hfill Hone. induction fs as [|f fs IH]; intros done M M' Hall Hd Hu H.
  { inversion H; subst. by rewrite app_nil_r. }
  cbn [map concat] in H. apply replay_app in H as (M1 & H1 & H2). apply Forall_cons in Hu as [Huf Hu].
  assert (f ∈ all) as Hf by (rewrite Hall, elem_of_app, elem_of_cons; auto).
  assert (NoDup (map pf_number done ++ pf_number f :: map pf_number fs)) as Hnd
    by (pose proof (cf_numbers _ _ facts) as Hnd; by rewrite Hall, map_app in Hnd).
  rewrite Forall_forall in Hfill. destruct (replay_field fl f m M M1) as [Hr Ho]; [auto | by apply (cf_oneof _ _ facts) | done | done |].
  (* the other fields *)
  assert (forall g, g ∈ all -> pf_number g <> pf_number f ->
    jb_slot lib M1 (pf_number g) = jb_slot lib M (pf_number g) \/
    jb_slot lib m (pf_number g) = Unset /\ jb_slot lib M1 (pf_number g) = Unset) as Hother.
  { intros g Hg Hn. destruct (Ho _ Hn) as [? | (Hof & Hsf & Hz & Hs)]; [by left|]. right. split; [|done].
    apply group_member in Hz as (g' & Hg' & Hog & En). assert (g' = g) as -> by (apply (key_determines pf_number all); [apply (cf_numbers _ _ facts)| done | done | done]).
    destruct (jb_slot lib m (pf_number g)) eqn:E; [done| | | | |]; exfalso; apply Hn; f_equal; symmetry; apply (Hone f g); try done; by rewrite E. }
  apply (IH (done ++ [f]) M1 M'); [by rewrite <- (assoc_L (++)) | | |done].
  - apply Forall_app. split; [|by constructor]. rewrite Forall_forall in Hd |- *. intros g Hg.
    destruct (Hother g) as [-> | [E ->]]; [by rewrite Hall, elem_of_app; left| |by apply Hd|].
    + intros En. apply NoDup_app in Hnd as (_ & Hnd & _). apply (Hnd (pf_number g)); [by apply list_elem_of_fmap_2|]. rewrite En. left.
    + rewrite E. by apply slot_rel_unset.
  - rewrite Forall_forall in Hu |- *. intros g Hg. destruct (Hother g) as [-> | [_ E]]; [rewrite Hall, elem_of_app, elem_of_cons; auto| |by apply Hu|done].
    intros En. apply NoDup_app in Hnd as (_ & _ & Hnd). apply NoDup_cons in Hnd as [Hnd _]. apply Hnd. rewrite <- En. by apply list_elem_of_fmap_2.
Qed.

(** ** Accessors *)

(** Scalars in equal slots read the same. *)
Lemma get_scalar_same k n m M :
  jb_slot lib M n = jb_slot lib m n ->
  jb_slot lib m n = Unset \/ (exists v, jb_slot lib m n = Value v /\ jscalar_ok lib k v) ->
  simple_get lib (get_scalar k n) m = simple_get lib (get_scalar k n) M.
Proof.
  intros E [Hu | (v & Hv & Hok)].
  - rewrite Hu in E. destruct k as [[]|]; cbn [get_scalar simple_get]; do 2 f_equal;
      (rewrite !getField_unset by done) || (rewrite !getBoolean_unset by done) || (rewrite !getFloat_unset by done); done.
  - rewrite Hv in E. destruct k as [[]|]; cbn [get_scalar simple_get]; do 2 f_equal; try (by rewrite !(getField_value _ _ _ v) by done);
      destruct v; try done; (by rewrite !(getBoolean_value _ _ _ b) by done) || (by rewrite !(getFloat_value _ _ _ n0) by done).
Qed.

(** The accessors of a scalar field. *)
Lemma scalar_accessors f k m M l p :
  accessors_for 0 f = Some l -> pf_label f = Singular -> (forall d, pf_type f <> MessageType d) -> jscalar_of f = Some k ->
  (forall name a, (name, a) ∈ l -> method C name = Some a) ->
  simple_get lib (get_scalar k (pf_number f)) m = simple_get lib (get_scalar k (pf_number f)) M ->
  p ∈ l -> same_accessor same C m M p.
Proof.
  intros Hl El Ht Ek Hm Hs Hp. unfold accessors_for in Hl. rewrite El in Hl.
  assert (l = (getter f, get_scalar k (pf_number f)) ::
    match k with
    | JScalar TBytes => [((getter f ++ "_asB64")%string, BytesAsB64 (getter f)); ((getter f ++ "_asU8")%string, BytesAsU8 (getter f))]
    | _ => []
    end ++ [(setter f, SetProto3Field (proto3_of k) (pf_number f))]) as El'.
  { destruct (pf_type f) as [| |d]; [| |by destruct (Ht d)]; rewrite Ek in Hl; by injection Hl as <-. }
  clear Hl. assert (method C (getter f) = Some (get_scalar k (pf_number f))) as Hg by (apply Hm; rewrite El'; left).
  assert (method C p.1 = Some p.2) as Hpm by (destruct p; by apply Hm). subst l.
  apply elem_of_cons in Hp as [-> | Hp].
  { cbn [fst snd] in Hpm. unfold same_accessor, call_get. cbn [fst snd]. rewrite Hpm. destruct k as [[]|]; exact Hs. }
  apply elem_of_app in Hp as [Hp | ->%list_elem_of_singleton].
  - unfold same_accessor, call_get. rewrite Hpm. destruct k as [[]|]; try by apply not_elem_of_nil in Hp.
    apply elem_of_cons in Hp as [-> | ->%list_elem_of_singleton]; cbn [fst snd]; rewrite Hg; cbn [mbind option_bind]; by rewrite Hs.
  - unfold same_accessor, call_get. by rewrite Hpm.
Qed.

Lemma message_slots d f m M :
  pf_label f = Singular -> pf_type f = MessageType d -> slot_rel f (jb_slot lib m (pf_number f)) (jb_slot lib M (pf_number f)) ->
  option_Forall2 (same d) (jb_getWrapperField lib m (pf_number f)) (jb_getWrapperField lib M (pf_number f)) /\
  jb_hasField lib m (pf_number f) = jb_hasField lib M (pf_number f).
Proof.
  intros El Et. unfold slot_rel. rewrite El, Et.
  destruct (jb_slot lib m (pf_number f)) eqn:Em, (jb_slot lib M (pf_number f)) eqn:EM; try done; intros H.
  - destruct (getWrapper_unset _ _ Em) as [-> ->], (getWrapper_unset _ _ EM) as [-> ->]. split; [constructor | done].
  - destruct (getWrapper_message _ _ _ Em) as [-> ->], (getWrapper_message _ _ _ EM) as [-> ->]. split; [by constructor | done].
Qed.

Lemma repeated_slots f m M :
  pf_label f = Repeated -> slot_rel f (jb_slot lib m (pf_number f)) (jb_slot lib M (pf_number f)) ->
  match pf_type f with
  | MessageType d => Forall2 (same d) (jb_getRepeatedWrapperField lib m (pf_number f)) (jb_getRepeatedWrapperField lib M (pf_number f))
  | _ => jb_getRepeatedField lib m (pf_number f) = jb_getRepeatedField lib M (pf_number f)
  end.
Proof.
  intros El. unfold slot_rel. rewrite El. intros H.
  destruct (pf_type f); destruct (jb_slot lib m (pf_number f)) eqn:Em, (jb_slot lib M (pf_number f)) eqn:EM;
    try done; try (by destruct l).
  all: rewrite ?(getRepeated_unset _ _ Em), ?(getRepeated_unset _ _ EM), ?(getWrappers_unset _ _ Em), ?(getWrappers_unset _ _ EM); try done.
  all: rewrite ?(getRepeated_values _ _ _ Em), ?(getRepeated_values _ _ _ EM), ?(getWrappers_messages _ _ _ Em), ?(getWrappers_messages _ _ _ EM).
  all: by destruct l; subst.
Qed.

Lemma map_slots f m M :
  pf_label f = Mapped -> slot_rel f (jb_slot lib m (pf_number f)) (jb_slot lib M (pf_number f)) ->
  Permutation (jb_getMapField lib m (pf_number f)) (jb_getMapField lib M (pf_number f)).
Proof.
  intros El. unfold slot_rel. rewrite El. intros H.
  destruct (jb_slot lib m (pf_number f)) eqn:Em, (jb_slot lib M (pf_number f)) eqn:EM; try (by destruct (pf_type f));
    rewrite ?(getMap_unset _ _ Em), ?(getMap_unset _ _ EM), ?(getMap_entries _ _ _ Em), ?(getMap_entries _ _ _ EM); try done;
    by destruct (pf_type f), l.
Qed.

(** The slots of a field determine what its accessors show. *)
Lemma rel_accessors fl m M f l p :
  f ∈ all -> filled_field fl m f -> slot_rel f (jb_slot lib m (pf_number f)) (jb_slot lib M (pf_number f)) ->
  accessors_for 0 f = Some l -> p ∈ l -> same_accessor same C m M p.
Proof.
  intros Hf Hfill Hrel Hl Hp. destruct (cf_accessors _ _ facts f Hf) as (l' & Hl' & Hm). assert (l' = l) as -> by congruence. clear Hl'.
  assert (method C p.1 = Some p.2) as Hpm by (destruct p; by apply Hm).
  assert (pf_label f = Singular -> (forall d, pf_type f <> MessageType d) -> same_accessor same C m M p) as Hscalar.
  { intros El Ht. assert (exists k, jscalar_of f = Some k) as [k Ek].
    { unfold accessors_for in Hl. rewrite El in Hl. destruct (pf_type f) as [| |d]; [| |by destruct (Ht d)]; (destruct (jscalar_of f); [eauto | done]). }
    apply (scalar_accessors f k m M l p); try done. unfold slot_rel, filled_field in *. rewrite El in *. apply get_scalar_same.
    - destruct (pf_type f) as [| |d]; [| |by destruct (Ht d)]; destruct (jb_slot lib m (pf_number f)), (jb_slot lib M (pf_number f)); try done; by subst.
    - destruct Hfill as [? | Hfill]; [by left|]. right. destruct (pf_type f) as [| |d]; [| |by destruct (Ht d)];
        destruct Hfill as (k' & v & Ek' & Hv & Hok & _); exists v; (split; [done | congruence]). }
  unfold accessors_for in Hl. destruct (pf_label f) eqn:El.
  - destruct (pf_type f) as [nm|vs|d] eqn:Et; [by apply Hscalar | by apply Hscalar |]. injection Hl as <-.
    destruct (message_slots d f m M El Et Hrel) as [Hw Hh].
    repeat (apply elem_of_cons in Hp as [-> | Hp]); [..|by apply not_elem_of_nil in Hp]; unfold same_accessor, call_get; cbn [fst snd] in *;
      rewrite ?Hpm; try done; [by destruct (pf_oneof f)|]. cbn. by rewrite Hh.
  - pose proof (repeated_slots f m M El Hrel) as Hr. destruct (pf_type f) as [nm|vs|d]; injection Hl as <-;
      (repeat (apply elem_of_cons in Hp as [-> | Hp]); [..|by apply not_elem_of_nil in Hp]); unfold same_accessor, call_get; cbn [fst snd] in *;
      rewrite ?Hpm; try done; cbn; by rewrite Hr.
  - pose proof (map_slots f m M El Hrel) as Hr. assert (l = [(getter f, GetMapField (pf_number f)); (prefixed "clear" f, ClearMap (getter f))]) as ->
      by (destruct (pf_type f); by injection Hl).
    repeat (apply elem_of_cons in Hp as [-> | Hp]); [..|by apply not_elem_of_nil in Hp]; unfold same_accessor, call_get; cbn [fst snd] in *;
      by rewrite ?Hpm.
Qed.
End Replay.
End RoundTrip.
