(* ===== verification/JspbReadBack.v ===== *)
(** * Message classes of google-protobuf: the wire

    [serialize] of JspbCode.v writes the pieces of a message one after the
    other, and the loop of [deserializeBinaryFromReader] reads one piece per
    turn; with the replay of pieces in JspbRoundTrip.v this gives the round
    trip. *)

From S2P Require Import Prelude JsString JsValue PbRuntime StaticCode StaticWire ProtoFile JspbCode JspbLaws JspbGenerate JspbRoundTrip.

Section Wire.
Context {class : Type} (lib : jspb class) `{!JspbLaws lib}.
Context (J : class -> option (jspb_class class)) (proto : class -> list (proto_field class)).
Hypothesis generated : forall c C, J c = Some C -> jspb_for (proto c) = Some C /\ fields_ok C (proto c) = true.
Notation msg := (jmsg lib).
Implicit Types (f : proto_field class) (m : msg) (C : jspb_class class).

(** The bytes of a nested message are read back. *)
Definition trips (n : nat) (d : class) (x : msg) (bs : bytes) : Prop :=
  zlen bs < 2 ^ 32 -> forall fuel data pos, at_pos data pos bs -> zlen bs < Z.of_nat fuel ->
  exists x', deserialize_loop lib J fuel d data pos (pos + zlen bs) (new_message lib J d) = Ok x' /\ same lib J n d x x'.

Section Class.
Context (n : nat) (C : jspb_class class) (all : list (proto_field class)) (facts : class_facts all C).
Notation apply_piece := (applies lib C (same lib J n)).
Notation reader fuel data := (fun c' a b => deserialize_loop lib J fuel c' data a b (new_message lib J c')).

(** One turn of the loop reads the bytes of a piece. *)
Definition readable (p : piece lib) (bs : bytes) : Prop :=
  bs <> [] /\
  (zlen bs < 2 ^ 32 -> forall fuel data pos end_ m0, at_pos data pos bs -> pos + zlen bs <= end_ -> zlen bs <= Z.of_nat fuel ->
   exists wire q d m', jb_nextField lib data pos end_ = Ok (Some (pf_number (piece_field lib p), wire, q)) /\ wire <> 4 /\
     List.find (fun r => r.1 =? pf_number (piece_field lib p)) (jc_deserialize (jc_methods C)) = Some (pf_number (piece_field lib p), d) /\
     run_read lib C data (reader fuel data) wire q m0 d = Ok (m', pos + zlen bs) /\ apply_piece p m0 m').

Lemma read_found f d : f ∈ all -> read_for f = Some (pf_number f, d) ->
  List.find (fun r => r.1 =? pf_number f) (jc_deserialize (jc_methods C)) = Some (pf_number f, d).
Proof. intros Hf Hd. destruct (cf_reads _ _ facts f Hf) as (d' & E & Hfind). congruence. Qed.

Lemma accessor_of f l name a : f ∈ all -> accessors_for 0 f = Some l -> (name, a) ∈ l -> method C name = Some a.
Proof. intros Hf Hl Hin. destruct (cf_accessors _ _ facts f Hf) as (l' & E & Hm). assert (l' = l) as -> by congruence. by apply Hm. Qed.

(** ** Scalars *)

Lemma readable_scalar f k v d :
  f ∈ all -> jscalar_ok lib k v -> read_for f = Some (pf_number f, d) ->
  (forall data sub wire q m0 e, jb_read lib k data q = Ok (v, e) ->
     exists m', run_read lib C data sub wire q m0 d = Ok (m', e) /\ apply_piece (PScalar lib f k v) m0 m') ->
  exists bs, jb_write lib k (pf_number f) v = Ok bs /\ readable (PScalar lib f k v) bs.
Proof.
  intros Hf Hok Hd Hrun. destruct (write_scalar k (pf_number f) v (cf_range _ _ facts f Hf) Hok) as (bs & Hw & Hne & Hr).
  exists bs. split; [done|]. split; [done|]. intros _ fuel data pos end_ m0 Hat Hend _.
  destruct (Hr data pos end_ Hat Hend) as (wire & q & Hnext & H4 & Hread). destruct (Hrun data (reader fuel data) wire q m0 _ Hread) as (m' & H1 & H2).
  exists wire, q, d, m'. cbn [piece_field]. split; [done|]. split; [done|]. split; [by apply read_found | done].
Qed.

(** The getter that is written, and the setter or adder that is called. *)
Lemma scalar_methods f k :
  f ∈ all -> pf_label f = Singular -> (forall d, pf_type f <> MessageType d) -> jscalar_of f = Some k ->
  method C (getter f) = Some (get_scalar k (pf_number f)) /\
  (k = JScalar TBytes -> method C (getter f ++ "_asU8")%string = Some (BytesAsU8 (getter f))) /\
  method C (setter f) = Some (SetProto3Field (proto3_of k) (pf_number f)).
Proof.
  intros Hf El Ht Ek. destruct (cf_accessors _ _ facts f Hf) as (l & Hl & Hm). unfold accessors_for in Hl. rewrite El in Hl.
  assert (l = (getter f, get_scalar k (pf_number f)) ::
    match k with
    | JScalar TBytes => [((getter f ++ "_asB64")%string, BytesAsB64 (getter f)); ((getter f ++ "_asU8")%string, BytesAsU8 (getter f))]
    | _ => []
    end ++ [(setter f, SetProto3Field (proto3_of k) (pf_number f))]) as El'.
  { destruct (pf_type f) as [| |d]; [| |by destruct (Ht d)]; rewrite Ek in Hl; by injection Hl as <-. }
  subst l. split; [apply Hm; left|]. split; [intros ->; apply Hm; cbn; right; right; left|].
  apply Hm. right. apply elem_of_app. right. left.
Qed.

(** What [serializeBinaryToWriter] sees of a scalar. *)
Definition written_getter f (k : jscalar) : string :=
  match k with JScalar TBytes => (getter f ++ "_asU8")%string | _ => getter f end.

Lemma written_value f k m v :
  f ∈ all -> pf_label f = Singular -> (forall d, pf_type f <> MessageType d) -> jscalar_of f = Some k ->
  jb_slot lib m (pf_number f) = Value v -> jscalar_ok lib k v -> call_get lib C (written_getter f k) m = Some (VScalar lib v).
Proof.
  intros Hf El Ht Ek Hv Hok. destruct (scalar_methods f k Hf El Ht Ek) as (Hg & Hb & _).
  destruct k as [[]|]; cbn [written_getter]; unfold call_get; rewrite ?(Hb eq_refl), Hg; cbn [get_scalar simple_get mbind option_bind];
    rewrite ?(getField_value _ _ _ v) by done; try done; destruct v; try done;
    rewrite ?(getBoolean_value _ _ _ b), ?(getFloat_value _ _ _ n0), ?bytesAsU8_bytes by done; done.
Qed.

Lemma written_unset f k m :
  f ∈ all -> pf_label f = Singular -> (forall d, pf_type f <> MessageType d) -> jscalar_of f = Some k ->
  jb_slot lib m (pf_number f) = Unset ->
  exists v, call_get lib C (written_getter f k) m = Some (VScalar lib v) /\ passes (test_of k) v = false.
Proof.
  intros Hf El Ht Ek Hu. destruct (scalar_methods f k Hf El Ht Ek) as (Hg & Hb & _).
  destruct k as [[]|]; cbn [written_getter]; unfold call_get; rewrite ?(Hb eq_refl), Hg; cbn [get_scalar simple_get mbind option_bind];
    rewrite ?getField_unset, ?getBoolean_unset, ?getFloat_unset, ?bytesAsU8_empty by done; by eexists.
Qed.

(** ** Lists of scalars *)

Lemma repeated_methods f :
  f ∈ all -> pf_label f = Repeated ->
  match pf_type f with
  | MessageType d => method C (getter f) = Some (GetRepeatedWrapperField d (pf_number f)) /\
      method C (adder f) = Some (AddToRepeatedWrapperField (pf_number f) d)
  | _ => method C (getter f) = Some (GetRepeatedField (pf_number f)) /\ method C (adder f) = Some (AddToRepeatedField (pf_number f))
  end.
Proof.
  intros Hf El. destruct (cf_accessors _ _ facts f Hf) as (l & Hl & Hm). unfold accessors_for in Hl. rewrite El in Hl.
  destruct (pf_type f); injection Hl as <-; (split; apply Hm; [left | do 2 right; left]).
Qed.

Lemma add_each_fold f l : method C (adder f) = Some (AddToRepeatedField (pf_number f)) -> forall m0,
  add_each lib C (adder f) m0 l = Ok (fold_left (fun m v => jb_addToRepeatedField lib m (pf_number f) v) l m0).
Proof.
  intros Hm. induction l as [|v l IH]; intros m0; [done|]. cbn [add_each fold_left]. unfold set_or_throw, call_set. rewrite Hm.
  cbn [mbind option_bind simple_set result_bind]. apply IH.
Qed.

Lemma concat_readable {A} (g : A -> result bytes) (mk : A -> piece lib) l :
  (forall x, x ∈ l -> exists bs, g x = Ok bs /\ readable (mk x) bs) ->
  exists bss, concat_results g l = Ok (concat bss) /\ Forall2 readable (map mk l) bss.
Proof.
  induction l as [|x l IH]; intros H; [exists []; split; [done | constructor]|].
  destruct (H x) as (bs & Hx & Hr); [left|]. destruct IH as (bss & Hl & Hrs); [intros y Hy; apply H; by right|].
  exists (bs :: bss). cbn [concat_results]. rewrite Hx. cbn [mbind result_bind]. rewrite Hl. split; [done | by constructor].
Qed.

Lemma readable_packed f k l :
  f ∈ all -> l <> [] -> Forall (jscalar_ok lib k) l -> read_for f = Some (pf_number f, ReadPackedAdd k (adder f)) ->
  method C (adder f) = Some (AddToRepeatedField (pf_number f)) ->
  exists bs, jb_writePacked lib k (pf_number f) l = Ok bs /\ readable (PPacked lib f k l) bs.
Proof.
  intros Hf Hl0 Hok Hd Hm. destruct (write_packed k (pf_number f) l (cf_range _ _ facts f Hf) Hl0 Hok) as (bs & Hw & Hne & Hr).
  exists bs. split; [done|]. split; [done|]. intros Hlen fuel data pos end_ m0 Hat Hend _.
  destruct (Hr Hlen data pos end_ Hat Hend) as (wire & q & Hnext & H4 & -> & Hread).
  exists 2, q, (ReadPackedAdd k (adder f)). eexists. cbn [piece_field]. split; [done|]. split; [done|]. split; [by apply read_found|].
  cbn [run_read Z.eqb Pos.eqb]. rewrite Hread. cbn [mbind result_bind fst snd]. rewrite add_each_fold by done. by split.
Qed.

(** ** Messages *)

Lemma readable_message f d x b c :
  f ∈ all -> read_for f = Some (pf_number f, c) -> trips n d x b ->
  (forall data (sub : class -> Z -> Z -> result msg) wire q m0 start e x',
     jb_readMessage lib data q = Ok (start, e) -> sub d start e = Ok x' -> same lib J n d x x' ->
     exists m', run_read lib C data sub wire q m0 c = Ok (m', e) /\ apply_piece (PMessage lib f d x) m0 m') ->
  readable (PMessage lib f d x) (jb_writeMessage lib (pf_number f) b).
Proof.
  intros Hf Hc Ht Hrun. pose proof (cf_range _ _ facts f Hf) as Hn. pose proof (write_message_length (pf_number f) b Hn) as Hlen.
  pose proof (zlen_nonneg b). split; [intros E; rewrite E, zlen_nil in Hlen; lia|].
  intros Hl fuel data pos end_ m0 Hat Hend Hfuel.
  destruct (write_message_read (pf_number f) b Hn ltac:(lia) data pos end_ Hat Hend) as (wire & q & Hnext & H4 & start & Hframe & Hst & Hatb).
  destruct (Ht ltac:(lia) fuel data start Hatb ltac:(lia)) as (x' & Hx & Hsame). rewrite Hst in Hx.
  destruct (Hrun data (reader fuel data) wire q m0 start _ x' Hframe Hx Hsame) as (m' & H1 & H2).
  exists wire, q, c, m'. cbn [piece_field]. split; [done|]. split; [done|]. split; [by apply read_found | done].
Qed.

Lemma message_methods f d :
  f ∈ all -> pf_label f = Singular -> pf_type f = MessageType d ->
  method C (getter f) = Some (GetWrapperField d (pf_number f)) /\
  method C (setter f) = Some (match pf_oneof f with None => SetWrapperField (pf_number f) | Some _ => SetOneofWrapperField (pf_number f) 0 end).
Proof.
  intros Hf El Et. destruct (cf_accessors _ _ facts f Hf) as (l & Hl & Hm). unfold accessors_for in Hl. rewrite El, Et in Hl.
  injection Hl as <-. split; apply Hm; [left | right; left].
Qed.

(** ** A field *)

Section Field.
Context (sub : class -> msg -> result bytes).
Hypothesis Hsub : forall d x, filled lib J proto n d x -> exists bs, sub d x = Ok bs /\ trips n d x bs.

Definition written (m : msg) f : Prop := forall s, write_for f = Some s ->
  exists bss, run_write lib C sub m s = Ok (concat bss) /\ Forall2 readable (pieces_of lib m f) bss.

Lemma write_singular f m :
  f ∈ all -> pf_label f = Singular -> (forall d, pf_type f <> MessageType d) -> filled_field lib (filled lib J proto n) m f -> written m f.
Proof.
  intros Hf El Ht Hfill s Hs. assert (exists k, jscalar_of f = Some k) as [k Ek].
  { unfold write_for in Hs. rewrite El in Hs. destruct (pf_type f) as [| |d]; [| |by destruct (Ht d)]; (destruct (jscalar_of f); [eauto | done]). }
  assert (s = Write (written_getter f k) (test_of k) k (pf_number f)) as ->.
  { unfold write_for in Hs. rewrite El, Ek in Hs. destruct (pf_type f) as [| |d]; [| |by destruct (Ht d)]; by injection Hs as <-. }
  cbn [run_write]. destruct Hfill as [Hu | Hfill].
  - destruct (written_unset f k m Hf El Ht Ek Hu) as (v & -> & Hp). rewrite Hp. exists []. split; [done|].
    unfold pieces_of. rewrite El, Ek, Hu. destruct (pf_type f) as [| |d]; [constructor | constructor | by destruct (Ht d)].
  - assert (exists v, jb_slot lib m (pf_number f) = Value v /\ jscalar_ok lib k v /\ passes (test_of k) v = true) as (v & Hv & Hok & Hp).
    { rewrite El in Hfill. destruct (pf_type f) as [| |d]; [| |by destruct (Ht d)]; destruct Hfill as (k' & v & Ek' & ? & ? & ?);
        assert (k' = k) as -> by congruence; eauto. }
    rewrite (written_value f k m v Hf El Ht Ek Hv Hok), Hp. destruct (scalar_methods f k Hf El Ht Ek) as (_ & _ & Hset).
    destruct (readable_scalar f k v (ReadSet k (setter f)) Hf Hok) as (bs & Hw & Hr).
    + unfold read_for. rewrite El, Ek. destruct (pf_type f) as [| |d]; [done | done | by destruct (Ht d)].
    + intros data sub' wire q m0 e Hread. eexists. cbn [run_read]. rewrite Hread. cbn [mbind result_bind fst snd].
      unfold set_or_throw, call_set. rewrite Hset. cbn. rewrite El. done.
    + exists [bs]. cbn [concat]. rewrite app_nil_r. split; [done|]. unfold pieces_of. rewrite El, Ek, Hv.
      destruct (pf_type f) as [| |d]; [..|by destruct (Ht d)]; (constructor; [exact Hr | constructor]).
Qed.

Lemma write_repeated f m :
  f ∈ all -> pf_label f = Repeated -> (forall d, pf_type f <> MessageType d) -> filled_field lib (filled lib J proto n) m f -> written m f.
Proof.
  intros Hf El Ht Hfill s Hs. assert (exists k, jscalar_of f = Some k) as [k Ek].
  { unfold write_for in Hs. rewrite El in Hs. destruct (pf_type f) as [| |d]; [| |by destruct (Ht d)]; (destruct (jscalar_of f); [eauto | done]). }
  assert (method C (getter f) = Some (GetRepeatedField (pf_number f)) /\ method C (adder f) = Some (AddToRepeatedField (pf_number f))) as [Hg Ha].
  { pose proof (repeated_methods f Hf El) as Hm. destruct (pf_type f) as [| |d]; [done | done | by destruct (Ht d)]. }
  assert (exists l, jb_getRepeatedField lib m (pf_number f) = l /\ Forall (jscalar_ok lib k) l /\
    pieces_of lib m f = if packed k then match l with [] => [] | _ => [PPacked lib f k l] end else map (PScalar lib f k) l) as (l & Hl & Hok & Hpc).
  { unfold pieces_of. rewrite El, Ek. destruct Hfill as [Hu | Hfill].
    - exists []. rewrite Hu. split; [by apply getRepeated_unset|]. split; [constructor|]. destruct (packed k), (pf_type f); done.
    - rewrite El in Hfill. assert (exists l, jb_slot lib m (pf_number f) = Values l /\ Forall (jscalar_ok lib k) l) as (l & Hl & Hok).
      { destruct (pf_type f) as [| |d]; [| |by destruct (Ht d)]; destruct Hfill as (k' & l & Ek' & ? & ?); assert (k' = k) as -> by congruence; eauto. }
      exists l. rewrite Hl. split; [by apply getRepeated_values|]. split; [done|]. destruct (pf_type f) as [| |d]; [done | done | by destruct (Ht d)]. }
  rewrite Hpc. clear Hpc.
  assert (s = if packed k then WritePacked (getter f) k (pf_number f) else WriteRepeated (getter f) k (pf_number f)) as ->.
  { unfold write_for in Hs. rewrite El, Ek in Hs. destruct (pf_type f) as [| |d]; [| |by destruct (Ht d)];
      destruct k as [[]|]; by injection Hs as <-. }
  assert (read_for f = Some (pf_number f, if packed k then ReadPackedAdd k (adder f) else ReadAdd k (adder f))) as Hread.
  { unfold read_for. rewrite El, Ek. destruct (pf_type f) as [| |d]; [| |by destruct (Ht d)]; by destruct k as [[]|]. }
  assert (call_get lib C (getter f) m = Some (VList lib l)) as Hcall by (unfold call_get; rewrite Hg; cbn; by rewrite Hl).
  destruct (packed k); cbn [run_write]; rewrite Hcall.
  - destruct l as [|v l]; [exists []; split; [done | constructor]|]. cbn [is_nil].
    destruct (readable_packed f k (v :: l) Hf ltac:(done) Hok Hread Ha) as (bs & Hw & Hr). exists [bs]. cbn [concat]. rewrite app_nil_r.
    split; [done|]. constructor; [done | constructor].
  - apply concat_readable. intros v Hv. rewrite Forall_forall in Hok. apply (readable_scalar f k v _ Hf (Hok v Hv) Hread).
    intros data sub' wire q m0 e Hrd. eexists. cbn [run_read]. rewrite Hrd. cbn [mbind result_bind fst snd].
    unfold set_or_throw, call_set. rewrite Ha. cbn. rewrite El. done.
Qed.

Lemma write_messages f d m :
  f ∈ all -> pf_type f = MessageType d -> pf_label f <> Mapped -> filled_field lib (filled lib J proto n) m f -> written m f.
Proof.
  intros Hf Et Hnm Hfill s Hs. unfold write_for in Hs. unfold pieces_of. unfold filled_field in Hfill. rewrite Et in *.
  assert (forall b x c, sub d x = Ok b -> trips n d x b -> read_for f = Some (pf_number f, c) ->
    (c = ReadMessageSet d (setter f) /\ pf_label f = Singular \/ c = ReadMessageAdd d (adder f) /\ pf_label f = Repeated) ->
    readable (PMessage lib f d x) (jb_writeMessage lib (pf_number f) b)) as Hpiece.
  { intros b x c _ Ht Hc Hcase. apply (readable_message f d x b c Hf Hc Ht). intros data sub' wire q m0 start e x' Hfr Hx Hsame.
    destruct Hcase as [[-> El] | [-> El]].
    - destruct (message_methods f d Hf El Et) as [_ Hset].
      destruct (pf_oneof f) eqn:Eo; eexists; cbn [run_read]; unfold read_nested; rewrite Hfr; cbn [mbind result_bind fst snd];
        rewrite Hx; cbn [mbind result_bind fst snd]; unfold set_or_throw, call_set; rewrite Hset; (split; [reflexivity|]); exists x'; by rewrite El, Eo.
    - pose proof (repeated_methods f Hf El) as Hm. rewrite Et in Hm. destruct Hm as [_ Ha]. eexists. cbn [run_read]. unfold read_nested. rewrite Hfr.
      cbn [mbind result_bind fst snd]. rewrite Hx. cbn [mbind result_bind fst snd]. unfold set_or_throw, call_set. rewrite Ha. cbn.
      split; [done|]. exists x'. by rewrite El. }
  destruct (pf_label f) eqn:El; [| |done]; injection Hs as <-; cbn [run_write].
  - destruct (message_methods f d Hf El Et) as [Hg _]. unfold call_get. rewrite Hg. cbn [simple_get].
    assert (read_for f = Some (pf_number f, ReadMessageSet d (setter f))) as Hread by (unfold read_for; by rewrite El, Et).
    destruct Hfill as [Hu | (x & Hx & Hfx)].
    + destruct (getWrapper_unset _ _ Hu) as [-> _]. rewrite Hu. exists []. split; [done|]. destruct (jscalar_of f); constructor.
    + destruct (getWrapper_message _ _ _ Hx) as [-> _]. rewrite Hx. destruct (Hsub d x Hfx) as (b & Hb & Ht). unfold write_message. rewrite Hb.
      exists [jb_writeMessage lib (pf_number f) b]. cbn [mbind result_bind concat]. rewrite app_nil_r. split; [done|].
      assert (readable (PMessage lib f d x) (jb_writeMessage lib (pf_number f) b)) by (eapply Hpiece; eauto).
      destruct (jscalar_of f); (constructor; [done | constructor]).
  - pose proof (repeated_methods f Hf El) as Hm. rewrite Et in Hm. destruct Hm as [Hg _]. unfold call_get. rewrite Hg. cbn [simple_get].
    assert (read_for f = Some (pf_number f, ReadMessageAdd d (adder f))) as Hread by (unfold read_for; by rewrite El, Et).
    destruct Hfill as [Hu | (l & Hl & Hfl)].
    + rewrite (getWrappers_unset _ _ Hu), Hu. exists []. split; [done|]. destruct (jscalar_of f); constructor.
    + rewrite (getWrappers_messages _ _ _ Hl), Hl.
      destruct (concat_readable (write_message lib sub (pf_number f) d) (PMessage lib f d) l) as (bss & H1 & H2).
      * intros x Hx. rewrite Forall_forall in Hfl. destruct (Hsub d x (Hfl x Hx)) as (b & Hb & Ht). unfold write_message. rewrite Hb. eexists. split; [done|].
        eapply Hpiece; eauto.
      * exists bss. split; [done|]. by destruct (jscalar_of f).
Qed.

Lemma write_mapped f m :
  f ∈ all -> pf_label f = Mapped -> filled_field lib (filled lib J proto n) m f -> written m f.
Proof.
  intros Hf El Hfill s Hs. assert (exists k, jscalar_of f = Some k /\ s = WriteMap (getter f) (pf_number f) (JScalar TString) k) as (k & Ek & ->).
  { unfold write_for in Hs. rewrite El in Hs. destruct (jscalar_of f) as [k|]; [|by destruct (pf_type f)]. exists k. split; [done|].
    destruct (pf_type f); by injection Hs as <-. }
  assert (method C (getter f) = Some (GetMapField (pf_number f))) as Hg.
  { destruct (cf_accessors _ _ facts f Hf) as (l & Hl & Hm). unfold accessors_for in Hl. rewrite El in Hl. apply Hm.
    destruct (pf_type f); injection Hl as <-; left. }
  assert (read_for f = Some (pf_number f, ReadMap (getter f) (JScalar TString) k (JStr []) (blank_value k))) as Hread.
  { unfold read_for. rewrite El, Ek. by destruct (pf_type f). }
  assert (exists l, jb_getMapField lib m (pf_number f) = l /\ Forall (entry_ok lib k) l /\ pieces_of lib m f = map (PEntry lib f k) l) as (l & Hl & Hok & ->).
  { unfold pieces_of. rewrite El, Ek. destruct Hfill as [Hu | Hfill].
    - exists []. rewrite Hu. split; [by apply getMap_unset|]. split; [constructor | by destruct (pf_type f)].
    - rewrite El in Hfill. destruct Hfill as (k' & l & Ek' & Hl & _ & Hok). assert (k' = k) as -> by congruence. exists l. rewrite Hl.
      split; [by apply getMap_entries|]. split; [done | by destruct (pf_type f)]. }
  cbn [run_write]. unfold call_get. rewrite Hg. cbn [simple_get]. rewrite Hl. destruct l as [|e l]; [exists []; split; [done | constructor]|].
  cbn [is_nil]. destruct (write_map k m (pf_number f) (e :: l) (cf_range _ _ facts f Hf) Hl Hok) as (content & Hw & Hr).
  eexists. split; [exact Hw|]. apply Forall2_fmap, Forall_Forall2_diag, Forall_forall. intros e' He'.
  pose proof (cf_range _ _ facts f Hf) as Hn. pose proof (write_message_length (pf_number f) (content e') Hn) as Hlen. pose proof (zlen_nonneg (content e')).
  split; [intros E; rewrite E, zlen_nil in Hlen; lia|]. intros Hlt fuel data pos end_ m0 Hat Hend _.
  destruct (write_message_read (pf_number f) (content e') Hn ltac:(lia) data pos end_ Hat Hend) as (wire & q & Hnext & H4 & start & Hframe & Hst & Hatb).
  exists wire, q. do 2 eexists. cbn [piece_field]. split; [done|]. split; [done|]. split; [by apply read_found|].
  cbn [run_read]. rewrite Hg, Hframe. cbn [mbind result_bind fst snd]. rewrite <- Hst. rewrite (Hr e' _ _ data start He' Hatb). by split.
Qed.

Lemma write_field f m : f ∈ all -> filled_field lib (filled lib J proto n) m f -> written m f.
Proof.
  intros Hf Hfill. destruct (pf_label f) eqn:El; [| |by apply write_mapped].
  - destruct (pf_type f) as [| |d] eqn:Et; [..|by apply (write_messages f d); [| |rewrite El|]]; apply write_singular; try done; intros d; by rewrite Et.
  - destruct (pf_type f) as [| |d] eqn:Et; [..|by apply (write_messages f d); [| |rewrite El|]]; apply write_repeated; try done; intros d; by rewrite Et.
Qed.

Lemma write_fields m fs ss :
  Forall2 (fun f s => write_for f = Some s) fs ss -> (forall f, f ∈ fs -> f ∈ all) -> Forall (filled_field lib (filled lib J proto n) m) fs ->
  exists bss, concat_results (run_write lib C sub m) ss = Ok (concat bss) /\ Forall2 readable (concat (map (pieces_of lib m) fs)) bss.
Proof.
  induction 1 as [|f s fs ss Hs _ IH]; intros Hin Hfill; [exists []; split; [done | constructor]|].
  apply Forall_cons in Hfill as [Hf Hfill]. destruct (write_field f m (Hin f ltac:(left)) Hf s Hs) as (b1 & H1 & R1).
  destruct IH as (b2 & H2 & R2); [intros g Hg; apply Hin; by right | done |]. exists (b1 ++ b2). cbn [concat_results]. rewrite H1.
  cbn [mbind result_bind]. rewrite H2. cbn [mbind result_bind]. rewrite concat_app. split; [done|]. by apply Forall2_app.
Qed.
End Field.

(** ** The loop *)

Context (c : class) (Hc : J c = Some C).

Lemma deserialize_loop_S fuel data pos end_ m0 :
  deserialize_loop lib J (S fuel) c data pos end_ m0 =
  let! x := jb_nextField lib data pos end_ in
  match x with
  | None => Ok m0
  | Some (number, wire, q) =>
      if wire =? 4 then Ok m0
      else
        let! r := match List.find (fun r => r.1 =? number) (jc_deserialize (jc_methods C)) with
                  | Some (_, d) => run_read lib C data (reader fuel data) wire q m0 d
                  | None => let! q' := jb_skipField lib data q number wire in Ok (m0, q')
                  end in
        deserialize_loop lib J fuel c data r.2 end_ r.1
  end.
Proof. cbn [deserialize_loop]. by rewrite Hc. Qed.

Lemma read_pieces ps bss : Forall2 readable ps bss -> forall fuel data pos m0,
  zlen (concat bss) < 2 ^ 32 -> zlen (concat bss) < Z.of_nat fuel -> at_pos data pos (concat bss) ->
  exists m', deserialize_loop lib J fuel c data pos (pos + zlen (concat bss)) m0 = Ok m' /\ replay lib C (same lib J n) ps m0 m'.
Proof.
  induction 1 as [|p bs ps bss [Hne Hp] _ IH]; intros fuel data pos m0 Hl Hf Hat; (destruct fuel as [|fuel]; [pose proof (zlen_nonneg (concat (A:=Z) [])); try lia|]).
  - cbn [concat] in *. rewrite zlen_nil, Z.add_0_r in *. rewrite deserialize_loop_S, nextField_end. exists m0. split; [done | constructor].
  - exfalso. pose proof (zlen_nonneg (concat (bs :: bss))). lia.
  - cbn [concat] in *. apply at_pos_app in Hat as [Hat1 Hat2]. rewrite zlen_app in *.
    pose proof (zlen_nonneg bs). pose proof (zlen_nonneg (concat bss)).
    assert (1 <= zlen bs) by (destruct bs; [done | rewrite zlen_cons; pose proof (zlen_nonneg bs); lia]).
    destruct (Hp ltac:(lia) fuel data pos (pos + (zlen bs + zlen (concat bss))) m0 Hat1 ltac:(lia) ltac:(lia)) as (wire & q & d & m1 & Hn & H4 & Hfind & Hrun & Ha).
    rewrite deserialize_loop_S, Hn. cbn [mbind result_bind]. destruct (Z.eqb_spec wire 4); [done|]. rewrite Hfind, Hrun. cbn [mbind result_bind fst snd].
    rewrite Z.add_assoc. destruct (IH fuel data (pos + zlen bs) m1 ltac:(lia) ltac:(lia) Hat2) as (m' & Hm1 & Hm2).
    exists m'. split; [done | by econstructor].
Qed.
End Class.

(** ** Messages *)

Lemma serialize_trips n : forall c m fuel, filled lib J proto n c m -> (n <= fuel)%nat ->
  exists bs, serialize lib J fuel c m = Ok bs /\ trips n c m bs.
Proof.
  induction n as [|n IH]; intros c m fuel Hfill Hle; [done|]. destruct fuel as [|fuel]; [lia|]. cbn [filled serialize] in *.
  destruct (J c) as [C|] eqn:Hc.
  - destruct Hfill as [Hfill Hone]. pose proof (generated_facts J proto generated c C Hc) as facts.
    destruct (write_fields n C (proto c) facts (serialize lib J fuel) (fun d x Hx => IH d x fuel Hx ltac:(lia)) m (proto c) (jc_serialize (jc_methods C)))
      as (bss & Hs & Hr); [apply (cf_writes _ _ facts) | done | done |].
    exists (concat bss). split; [done|]. intros Hl fuel' data pos Hat Hf.
    destruct (read_pieces n C c Hc _ _ Hr fuel' data pos (new_message lib J c) Hl Hf Hat) as (m' & Hm & Hrep). exists m'. split; [done|].
    cbn [same]. rewrite Hc. apply Forall_forall. intros p Hp. destruct (cf_fields _ _ facts p Hp) as (f & l & Hfin & Hl' & Hpl).
    assert (Forall (fun f => slot_rel lib (same lib J n) f (jb_slot lib m (pf_number f)) (jb_slot lib m' (pf_number f))) (proto c)) as Hrel.
    { eapply (replay_fields lib C (same lib J n) (proto c) facts _ m Hfill Hone (proto c) [] (new_message lib J c)); [done | constructor | | done].
      apply Forall_forall. intros g _. unfold new_message. rewrite Hc. apply slot_initialize. }
    rewrite Forall_forall in Hfill, Hrel.
    eapply (rel_accessors lib C (same lib J n) (proto c) facts _ m m' f l p); eauto.
  - destruct (library_roundtrip c m Hfill) as (bs & Hs & Hr). exists bs. split; [done|]. intros Hl fuel' data pos Hat Hf.
    destruct (Hr data pos Hat) as (m' & Hm & He). exists m'. destruct fuel' as [|fuel']; [pose proof (zlen_nonneg bs); lia|].
    cbn [deserialize_loop same]. unfold new_message. by rewrite Hc.
Qed.

(** What [serializeBinary] writes, [deserializeBinary] reads back. *)
Lemma serialize_deserialize n c m fuel :
  filled lib J proto n c m -> (n <= fuel)%nat ->
  exists bs, serialize lib J fuel c m = Ok bs /\
    (zlen bs < 2 ^ 32 -> exists m', deserializeBinary lib J c bs = Ok m' /\ same lib J n c m m').
Proof.
  intros Hfill Hle. destruct (serialize_trips n c m fuel Hfill Hle) as (bs & Hs & Ht). exists bs. split; [done|]. intros Hl.
  destruct (Ht Hl (S (length bs)) bs 0 (at_pos_whole bs)) as (m' & Hm & Hsame); [unfold zlen; lia|].
  exists m'. by rewrite Z.add_0_l in Hm.
Qed.
End Wire.
