(* ===== verification/JspbAccessors.v ===== *)
(** * Message classes of google-protobuf: members of a oneof

    What the setter of a member of a oneof does to the message, for classes that
    are the code of their declarations. *)

From S2P Require Import Prelude JsString JsValue PbRuntime StaticCode ProtoFile JspbCode JspbLaws JspbGenerate JspbRoundTrip.

Section Members.
Context {class : Type} (lib : jspb class) `{!JspbOneofLaws lib}.
Context (C : jspb_class class) (fs : list (proto_field class)) (facts : class_facts fs C).
Notation msg := (jmsg lib).
Implicit Types (f g : proto_field class) (m x : msg).

Lemma group_iff n : zmem n (nth 0 (jc_oneofGroups C) []) = true <-> exists g, g ∈ fs /\ pf_oneof g <> None /\ pf_number g = n.
Proof.
  rewrite zmem_In, (cf_groups _ _ facts). unfold oneof_numbers. set (l := omap _ fs).
  transitivity (n ∈ l); [rewrite list_elem_of_In; by destruct l|].
  subst l. rewrite list_elem_of_omap. split; intros (g & Hg & H); exists g; destruct (pf_oneof g); naive_solver.
Qed.

Lemma member_methods f : f ∈ fs -> pf_oneof f <> None -> exists d,
  method C (getter f) = Some (GetWrapperField d (pf_number f)) /\
  method C (setter f) = Some (SetOneofWrapperField (pf_number f) 0) /\
  method C (prefixed "has" f) = Some (HasField (pf_number f)).
Proof.
  intros Hf Ho. destruct (cf_oneof _ _ facts f Hf Ho) as (Hl & d & Hd). destruct (cf_accessors _ _ facts f Hf) as (l & Ha & Hm).
  unfold accessors_for in Ha. rewrite Hl, Hd in Ha. injection Ha as <-. destruct (pf_oneof f); [|done].
  exists d. split_and!; apply Hm; set_solver.
Qed.

Lemma member_set f m x : In f fs -> pf_oneof f <> None ->
  exists m', call_set lib C (setter f) m (VMessage lib (Some x)) = Some m' /\
    call_get lib C (getter f) m' = Some (VMessage lib (Some x)) /\
    call_get lib C (prefixed "has" f) m' = Some (VBool lib true) /\
    oneof_case lib C 0 m' = pf_number f /\
    forall g, In g fs -> g <> f -> jb_slot lib m' (pf_number g) =
      match pf_oneof g with Some _ => Unset | None => jb_slot lib m (pf_number g) end.
Proof.
  intros Hf%list_elem_of_In Ho. destruct (member_methods f Hf Ho) as (d & Hget & Hset & Hhas).
  unfold call_set. rewrite Hset. cbn [mbind option_bind simple_set]. eexists. split; [done|].
  set (m' := jb_setOneofWrapperField _ _ _ _ _). set (group := nth 0 _ _) in *.
  assert (forall n, jb_slot lib m' n = if n =? pf_number f then Message x else if zmem n group then Unset else jb_slot lib m n) as Hs
    by (intros n; apply setOneof_slot).
  assert (jb_slot lib m' (pf_number f) = Message x) as Hx by (by rewrite Hs, Z.eqb_refl). destruct (getWrapper_message _ _ _ Hx) as [Hw Hh].
  unfold call_get. rewrite Hget, Hhas. cbn [simple_get]. rewrite Hw, Hh. split; [done|]. split; [done|]. split.
  - apply computeOneofCase_set; [apply group_iff; by exists f | by rewrite Hx |]. intros n Hn Hne. fold group in Hn.
    rewrite Hs, Hn. by apply Z.eqb_neq in Hne as ->.
  - intros g Hg%list_elem_of_In Hne. rewrite Hs. destruct (Z.eqb_spec (pf_number g) (pf_number f)) as [E|_].
    { destruct Hne. by apply (key_determines pf_number fs g f (cf_numbers _ _ facts) Hg Hf). }
    destruct (zmem (pf_number g) group) eqn:Eg.
    + apply group_iff in Eg as (h & Hh' & Hoh & E). rewrite (key_determines pf_number fs h g (cf_numbers _ _ facts) Hh' Hg E) in Hoh.
      by destruct (pf_oneof g).
    + destruct (pf_oneof g) eqn:Eo; [|done]. assert (zmem (pf_number g) group = true) by (apply group_iff; exists g; by rewrite Eo). congruence.
Qed.
End Members.
