(* ===== verification/JspbPb.v ===== *)
(** * cordum/agent/v1/*_pb.js

    The theorems about src/node/cordum/agent/v1/*_pb.js, the tables of which are
    in JspbTables.v and JspbPolicyTables.v. *)

From S2P Require Import Prelude JsString JsValue PbRuntime StaticCode ProtoFile CapPbClasses CapProto JspbCode JspbLaws JspbGenerate JspbRoundTrip JspbReadBack JspbAccessors JspbTables JspbPolicyTables.

Lemma jspb_generated c C : jspb_pb c = Some C -> jspb_for (cap_proto c) = Some C /\ fields_ok C (cap_proto c) = true.
Proof. destruct c; intros [= <-]; (split; vm_compute; reflexivity). Qed.

(** The well-known types, whose code comes with google-protobuf. *)
Definition well_known (c : cap_class) : bool := match c with TimestampT | StructT | ValueT | ListValueT => true | _ => false end.

(** C11.  The *_pb.js files are the code that the .proto files ask for: the
    constructor, the accessors and the statements of
    [serializeBinaryToWriter], [deserializeBinaryFromReader] and [toObject] of
    each class are those of its fields in the order of the declaration, and the
    enums have the declared values. *)
Theorem jspb_matches_proto c :
  match jspb_pb c with Some C => jspb_for (cap_proto c) = Some C | None => well_known c = true end /\
  Forall (fun e => e ∈ jspb_enums) proto_enums /\ length jspb_enums = length proto_enums /\
  BusPacket_PayloadCase = case_enum "payload" (cap_proto BusPacketT).
Proof.
  split; [destruct (jspb_pb c) as [C|] eqn:E; [by apply jspb_generated | by destruct c]|].
  split; [|split; vm_compute; reflexivity]. assert (forallb (fun e => bool_decide (e ∈ jspb_enums)) proto_enums = true) as H by (vm_compute; reflexivity).
  rewrite forallb_forall in H. apply Forall_forall. intros e He. apply list_elem_of_In, H in He. by apply bool_decide_eq_true in He.
Qed.

Section Library.
Context (lib : jspb cap_class).

(** C10.  What [serializeBinary] of a class of the *_pb.js files writes for a
    message whose fields are unset or hold values of their types other than the
    default (at most one member of each oneof, map keys that are distinct and not
    [__proto__], integers that JavaScript represents), when it is shorter than
    2^32 bytes, is read back by [deserializeBinary], and the message it returns
    shows the same through every accessor, also inside nested messages, lists and
    maps. *)
Theorem jspb_roundtrip `{!JspbLaws lib} n c (m : jmsg lib) fuel :
  filled lib jspb_pb cap_proto n c m -> (n <= fuel)%nat ->
  exists bs, serialize lib jspb_pb fuel c m = Ok bs /\
    (zlen bs < 2 ^ 32 -> exists m', deserializeBinary lib jspb_pb c bs = Ok m' /\ same lib jspb_pb n c m m').
Proof. by apply (serialize_deserialize lib jspb_pb cap_proto jspb_generated). Qed.

(** C22.  Setting a member of a oneof to a message: its getter returns the message, [hasX] is
    true, [getPayloadCase] is its number, the other members are unset, and no
    field outside of the oneof changes. *)
Theorem jspb_member `{!JspbOneofLaws lib} c C f (m x : jmsg lib) :
  jspb_pb c = Some C -> In f (cap_proto c) -> pf_oneof f <> None ->
  exists m', call_set lib C (setter f) m (VMessage lib (Some x)) = Some m' /\
    call_get lib C (getter f) m' = Some (VMessage lib (Some x)) /\
    call_get lib C (prefixed "has" f) m' = Some (VBool lib true) /\
    oneof_case lib C 0 m' = pf_number f /\
    forall g, In g (cap_proto c) -> g <> f -> jb_slot lib m' (pf_number g) =
      match pf_oneof g with Some _ => Unset | None => jb_slot lib m (pf_number g) end.
Proof. intros Hc. apply (member_set lib C). by apply (generated_facts jspb_pb cap_proto jspb_generated). Qed.
End Library.
