(* ===== verification/PbSamples.v ===== *)
(** * A runtime that keeps the laws

    A concrete instance of PbRuntime.v: varints, UTF-8 and lengths as on the
    wire; numbers with a fraction are outside of its exact numbers, and the text
    of a buffer is its bytes.  It shows that the laws can hold, and samples run
    with it. *)

From S2P Require Import Prelude JsString JsValue Protos Varint Json Codec PbRuntime StaticCode StaticWire StaticObjects.

Definition toy_read_varint (data : bytes) (pos : Z) : result (Z * Z) := readVarint_with probe_errors data pos.

Definition toy_len (b : bytes) : bytes := encodeVarint (zlen b) ++ b.

Definition toy_read_len (data : bytes) (pos : Z) : result (bytes * Z) :=
  let! r := toy_read_varint data pos in
  if zlen data <? r.2 + r.1 then throw PlainError (js "index out of range")
  else Ok (slice data r.2 (r.2 + r.1), r.2 + r.1).

(** Little-endian numbers of [k] bytes. *)
Fixpoint le (k : nat) (z : Z) : bytes := match k with O => [] | S k => z mod 256 :: le k (z / 256) end.
Fixpoint of_le (b : bytes) : Z := match b with [] => 0 | x :: b => x + 256 * of_le b end.

Definition toy_read_fixed (k : nat) (offset : Z) (data : bytes) (pos : Z) : result (jsval * Z) :=
  if (pos <? 0) || (zlen data <? pos + Z.of_nat k) then throw PlainError (js "index out of range")
  else Ok (JNum (NInt (of_le (slice data pos (pos + Z.of_nat k)) - offset)), pos + Z.of_nat k).

Definition long_value (v : jsval) : Z :=
  match v with
  | JNum n => integer_part n
  | JLong z => z
  | _ => to_uint32 (member v "low") + 2 ^ 32 * to_uint32 (member v "high")
  end.

Definition signed64 (z : Z) : Z := let m := z mod 2 ^ 64 in if m <? 2 ^ 63 then m else m - 2 ^ 64.

Definition toy_write (t : scalar) (v : jsval) : result bytes :=
  match t with
  | TString => match v with JStr s => Ok (toy_len (utf8 s)) | _ => throw TypeError (js "string expected") end
  | TBytes =>
      Ok (toy_len (match v with
                   | JBytes b => b
                   | JStr s => map (fun c => c mod 256) s
                   | _ => map (fun x => to_uint32 x mod 256) (elements v)
                   end))
  | TBool => Ok (encodeVarint (if truthy v then 1 else 0))
  | TInt32 => Ok (encodeVarint (integer_part (to_number v) mod 2 ^ 64))
  | TUint32 => Ok (encodeVarint (integer_part (to_number v) mod 2 ^ 32))
  | TInt64 | TUint64 => Ok (encodeVarint (long_value v mod 2 ^ 64))
  | TFloat => Ok (le 4 (integer_part (to_number v) + 2 ^ 31))
  | TDouble => Ok (le 8 (integer_part (to_number v) + 2 ^ 63))
  end.

Definition toy_read (t : scalar) (data : bytes) (pos : Z) : result (jsval * Z) :=
  match t with
  | TString => let! r := toy_read_len data pos in Ok (JStr (utf8_decode r.1), r.2)
  | TBytes => let! r := toy_read_len data pos in Ok (JBytes r.1, r.2)
  | TBool => let! r := toy_read_varint data pos in Ok (JBool (negb (r.1 =? 0)), r.2)
  | TInt32 => let! r := toy_read_varint data pos in Ok (JNum (NInt (low32 r.1)), r.2)
  | TUint32 => let! r := toy_read_varint data pos in Ok (JNum (NInt (r.1 mod 2 ^ 32)), r.2)
  | TInt64 => let! r := toy_read_varint data pos in Ok (JLong (signed64 r.1), r.2)
  | TUint64 => let! r := toy_read_varint data pos in Ok (JLong (r.1 mod 2 ^ 64), r.2)
  | TFloat => toy_read_fixed 4 (2 ^ 31) data pos
  | TDouble => toy_read_fixed 8 (2 ^ 63) data pos
  end.

Definition toy_skip (data : bytes) (pos wire depth : Z) : result Z :=
  if wire =? 0 then let! r := toy_read_varint data pos in Ok r.2
  else if wire =? 1 then let! r := toy_read_fixed 8 0 data pos in Ok r.2
  else if wire =? 2 then let! r := toy_read_len data pos in Ok r.2
  else if wire =? 5 then let! r := toy_read_fixed 4 0 data pos in Ok r.2
  else throw PlainError (js "invalid wire type").


Definition json_options : to_options :=
  {| op_longs := LongsString; op_bytes := BytesString; op_enums := true; op_defaults := false; op_arrays := false;
     op_objects := false; op_oneofs := false; op_json := true |}.

Definition toy_runtime : pb_runtime := {|
  rt_write := toy_write;
  rt_uint32 := fun z => encodeVarint (z mod 2 ^ 32);
  rt_read := toy_read;
  rt_read_uint32 := fun data pos => let! r := toy_read_varint data pos in Ok (r.1 mod 2 ^ 32, r.2);
  rt_skipType := toy_skip;
  rt_exact := fun t n => match n with NInt z => Z.abs z <? 2 ^ 24 | _ => false end;
  rt_isString := is_string;
  rt_isInteger := fun v => match v with JNum n => is_integer n | _ => false end;
  rt_isObject := is_object;
  rt_oneOfSetter := fun fields name own =>
    List.filter (fun p => strict_eq name (JStr p.1) || negb (existsb (fun f => bool_decide (f = p.1)) fields)) own;
  rt_Long := Some (fun v unsigned => match v with JStr s => JLong (bigint_of s) | _ => JLong (long_value v) end);
  rt_longBits := fun lo hi unsigned => number_of_Z (if unsigned then lo + 2 ^ 32 * hi else signed64 (lo + 2 ^ 32 * hi));
  rt_longToString := fun v => decimal_text (long_value v);
  rt_base64_decode := fun s => Ok s;
  rt_base64_encode := fun v => match v with JBytes b => b | _ => [] end;
  rt_toJSONOptions := json_options;
  rt_recursionLimit := 100;
  rt_readLimit := 100
|}.

(** ** The laws *)

Lemma toy_read_varint_written pre v post :
  0 <= v < 2 ^ 64 -> toy_read_varint (pre ++ encodeVarint v ++ post) (zlen pre) = Ok (v, zlen pre + zlen (encodeVarint v)).
Proof. intros Hv. apply readVarint_complete. assert (2 ^ 64 < 2 ^ 70) by (apply Z.pow_lt_mono_r; lia). lia. Qed.

Lemma toy_read_varint_forward data pos v e : toy_read_varint data pos = Ok (v, e) -> pos < e <= zlen data /\ 0 <= v.
Proof. intros (_ & ? & ? & ?)%readVarint_sound. lia. Qed.

Lemma toy_read_varint_ends data pos : toy_read_varint data pos <> NoFuel.
Proof. apply readVarint_not_NoFuel. Qed.

Lemma toy_read_len_written pre b post :
  zlen b < 2 ^ 32 -> toy_read_len (pre ++ toy_len b ++ post) (zlen pre) = Ok (b, zlen pre + zlen (toy_len b)).
Proof.
  intros Hb. pose proof (zlen_nonneg b). unfold toy_read_len, toy_len. rewrite <- (app_assoc _ b).
  rewrite toy_read_varint_written by lia. cbn [mbind result_bind fst snd].
  assert (zlen (pre ++ encodeVarint (zlen b) ++ b ++ post) = zlen pre + zlen (encodeVarint (zlen b)) + zlen b + zlen post) as ->
    by (rewrite !zlen_app; lia).
  pose proof (zlen_nonneg post). destruct (Z.ltb_spec (zlen pre + zlen (encodeVarint (zlen b)) + zlen b + zlen post)
    (zlen pre + zlen (encodeVarint (zlen b)) + zlen b)); [lia|].
  rewrite (app_assoc pre), <- (zlen_app pre (encodeVarint _)), slice_app_mid, !zlen_app. by rewrite Z.add_assoc.
Qed.

Lemma toy_read_len_forward data pos b e : toy_read_len data pos = Ok (b, e) -> pos < e <= zlen data.
Proof.
  unfold toy_read_len. destruct (toy_read_varint data pos) as [[v p]| |] eqn:E; try done. cbn [mbind result_bind fst snd].
  apply toy_read_varint_forward in E. destruct (Z.ltb_spec (zlen data) (p + v)); [done|]. intros [= _ <-]. lia.
Qed.

Lemma toy_read_len_ends data pos : toy_read_len data pos <> NoFuel.
Proof. apply bind_not_NoFuel; [apply toy_read_varint_ends|]. intros r _. by destruct (_ <? _). Qed.

Lemma le_of_le k : forall z, 0 <= z < 256 ^ Z.of_nat k -> of_le (le k z) = z /\ zlen (le k z) = Z.of_nat k.
Proof.
  induction k as [|k IH]; intros z Hz; [cbn in *; split; [lia | done]|]. rewrite Nat2Z.inj_succ, Z.pow_succ_r in Hz by lia.
  destruct (IH (z / 256)) as [H1 H2]; [split; [apply Z.div_pos; lia | apply Z.div_lt_upper_bound; lia]|].
  cbn [le of_le]. rewrite H1, zlen_cons, H2. pose proof (Z.div_mod z 256). lia.
Qed.

Lemma toy_read_fixed_written k offset z pre post :
  0 <= z + offset < 256 ^ Z.of_nat k ->
  toy_read_fixed k offset (pre ++ le k (z + offset) ++ post) (zlen pre) = Ok (JNum (NInt z), zlen pre + zlen (le k (z + offset))).
Proof.
  intros Hz. destruct (le_of_le k _ Hz) as [H1 H2]. unfold toy_read_fixed. rewrite <- H2.
  pose proof (zlen_nonneg pre). pose proof (zlen_nonneg post). destruct (Z.ltb_spec (zlen pre) 0); [lia|]. cbn [orb].
  rewrite !zlen_app. match goal with |- context [?a <? ?b] => destruct (Z.ltb_spec a b); [lia|] end.
  rewrite slice_app_mid, H1. do 3 f_equal. f_equal. lia.
Qed.

Lemma toy_read_fixed_forward k offset data pos v e :
  (0 < k)%nat -> toy_read_fixed k offset data pos = Ok (v, e) -> pos < e <= zlen data.
Proof.
  intros Hk. unfold toy_read_fixed. destruct ((pos <? 0) || _) eqn:E; [done|]. apply orb_false_iff in E as [_ E%Z.ltb_ge].
  intros [= _ <-]. lia.
Qed.

Lemma toy_read_fixed_ends k offset data pos : toy_read_fixed k offset data pos <> NoFuel.
Proof. unfold toy_read_fixed. by destruct (_ || _). Qed.

Lemma utf8_bound s : zlen (utf8 s) <= 4 * zlen s.
Proof.
  assert (forall p, zlen (utf8_of_code_point p) <= 4) as Hp by (intros p; unfold utf8_of_code_point; repeat case_match; unfold zlen; cbn [length]; lia).
  assert (forall l, zlen (concat (map (fun p => utf8_of_code_point (if is_high p || is_low p then 0xfffd else p)) l)) <= 4 * zlen l) as Hl.
  { induction l as [|x l IH]; [done|]. cbn [map concat]. rewrite zlen_app, zlen_cons. specialize (Hp (if is_high x || is_low x then 0xfffd else x)). lia. }
  unfold utf8. etransitivity; [apply Hl|]. apply Z.mul_le_mono_nonneg_l; [lia|].
  assert (forall n s, (length s <= n)%nat -> zlen (code_points s) <= zlen s) as Hc; [|by apply (Hc (length s))].
  clear. induction n as [|n IH]; intros [|c [|d s]] Hn; cbn in Hn; try lia; try done. cbn [code_points].
  destruct (is_high c && is_low d); rewrite !zlen_cons.
  - specialize (IH s ltac:(lia)). lia.
  - specialize (IH (d :: s) ltac:(cbn; lia)). rewrite zlen_cons in IH. change (match s with [] => _ | _ => _ end) with (code_points (d :: s)). lia.
Qed.

Lemma signed64_small z : - 2 ^ 63 <= z < 2 ^ 63 -> signed64 (z mod 2 ^ 64) = z.
Proof.
  intros Hz. unfold signed64. cbn zeta. rewrite Z.mod_mod by lia. destruct (Z.leb_spec 0 z).
  - rewrite Z.mod_small by lia. destruct (Z.ltb_spec z (2 ^ 63)); lia.
  - replace (z mod 2 ^ 64) with (z + 2 ^ 64) by (apply (Z.mod_unique _ _ (-1)); lia). destruct (Z.ltb_spec (z + 2 ^ 64) (2 ^ 63)); lia.
Qed.

Lemma low32_mod64 z : - 2 ^ 31 <= z < 2 ^ 31 -> low32 (z mod 2 ^ 64) = z.
Proof.
  intros Hz. unfold low32. cbn zeta. replace ((z mod 2 ^ 64) mod 2 ^ 32) with (z mod 2 ^ 32).
  - destruct (Z.leb_spec 0 z).
    + rewrite Z.mod_small by lia. destruct (Z.ltb_spec z (2 ^ 31)); lia.
    + replace (z mod 2 ^ 32) with (z + 2 ^ 32) by (apply (Z.mod_unique _ _ (-1)); lia). destruct (Z.ltb_spec (z + 2 ^ 32) (2 ^ 31)); lia.
  - symmetry. apply Z.mod_mod_divide. exists (2 ^ 32). done.
Qed.

Lemma toy_len_nonempty b : toy_len b <> [].
Proof.
  unfold toy_len. intros E. pose proof (encodeVarint_nonempty (zlen b) (zlen_nonneg _)) as H.
  apply app_nil in E as [E _]. by rewrite E in H.
Qed.

Lemma encodeVarint_not_nil v : 0 <= v -> encodeVarint v <> [].
Proof. intros Hv E. pose proof (encodeVarint_nonempty v Hv) as H. by rewrite E in H. Qed.

Lemma toy_write_read t v : scalar_ok toy_runtime t v ->
  exists bs, toy_write t v = Ok bs /\ bs <> [] /\
    forall pre post, toy_read t (pre ++ bs ++ post) (zlen pre) = Ok (v, zlen pre + zlen bs).
Proof.
  assert (forall z (f : Z -> jsval) w, 0 <= z < 2 ^ 64 -> f z = w ->
    exists bs, Ok (encodeVarint z) = Ok bs /\ bs <> [] /\ forall pre post,
      (let! r := toy_read_varint (pre ++ bs ++ post) (zlen pre) in Ok (f r.1, r.2)) = Ok (w, zlen pre + zlen bs)) as Hvar.
  { intros z f w Hz <-. eexists. split; [done|]. split; [apply encodeVarint_not_nil; lia|]. intros pre post.
    by rewrite toy_read_varint_written. }
  intros Hv. destruct t, v as [| |b|n|s|b|z| |]; cbn [scalar_ok] in Hv; try done; cbn [toy_write toy_read].
  - destruct Hv as [[Hw Hu] Hl]. eexists. split; [done|]. split; [apply toy_len_nonempty|]. intros pre post.
    pose proof (utf8_bound s). rewrite toy_read_len_written by lia. cbn [mbind result_bind fst snd]. by rewrite utf8_roundtrip.
  - eexists. split; [done|]. split; [apply toy_len_nonempty|]. intros pre post. by rewrite toy_read_len_written by apply Hv.
  - apply (Hvar _ (fun z => JBool (negb (z =? 0)))); [by destruct b | by destruct b].
  - destruct n as [z| | |]; try done. apply (Hvar _ (fun z => JNum (NInt (low32 z)))); [apply Z.mod_pos_bound; lia|].
    cbn [to_number integer_part]. by rewrite low32_mod64.
  - destruct n as [z| | |]; try done. apply (Hvar _ (fun z => JNum (NInt (z mod 2 ^ 32)))); cbn [to_number integer_part].
    + pose proof (Z.mod_pos_bound z (2 ^ 32)). lia.
    + by rewrite Z.mod_mod, Z.mod_small by lia.
  - by destruct n; destruct Hv.
  - apply (Hvar _ (fun z => JLong (signed64 z))); [apply Z.mod_pos_bound; lia|]. cbn [long_value]. by rewrite signed64_small by apply Hv.
  - by destruct n; destruct Hv.
  - apply (Hvar _ (fun z => JLong (z mod 2 ^ 64))); [apply Z.mod_pos_bound; lia|]. cbn [long_value].
    destruct Hv as [_ Hv]. by rewrite Z.mod_mod, Z.mod_small by lia.
  - destruct n as [z| | |]; try done. apply Z.ltb_lt in Hv. cbn [to_number integer_part]. eexists. split; [done|]. split; [done|].
    intros pre post. apply (toy_read_fixed_written 4). cbn. lia.
  - destruct n as [z| | |]; try done. apply Z.ltb_lt in Hv. cbn [to_number integer_part]. eexists. split; [done|]. split; [done|].
    intros pre post. apply (toy_read_fixed_written 8). cbn. lia.
Qed.

Lemma toy_write_shape t v bs : scalar_ok toy_runtime t v -> toy_write t v = Ok bs ->
  match wire_type t with
  | 0 => exists z, 0 <= z < 2 ^ 64 /\ bs = encodeVarint z
  | 1 => zlen bs = 8
  | 5 => zlen bs = 4
  | _ => exists p, bs = encodeVarint (zlen p) ++ p
  end.
Proof.
  assert (forall z n, 0 < n <= 2 ^ 64 -> exists z', 0 <= z' < 2 ^ 64 /\ encodeVarint (z mod n) = encodeVarint z') as Hmod.
  { intros z n Hn. exists (z mod n). pose proof (Z.mod_pos_bound z n). split; [lia | done]. }
  intros Hv. destruct t; cbn [toy_write wire_type].
  - destruct v; try done. intros [= <-]. by eexists.
  - intros [= <-]. by eexists.
  - intros [= <-]. by exists (if truthy v then 1 else 0); destruct (truthy v).
  - intros [= <-]. by apply Hmod.
  - intros [= <-]. by apply Hmod.
  - intros [= <-]. by apply Hmod.
  - intros [= <-]. by apply Hmod.
  - by intros [= <-].
  - by intros [= <-].
Qed.

Lemma toy_read_forward t data pos v e : toy_read t data pos = Ok (v, e) -> pos < e <= zlen data.
Proof.
  destruct t; cbn [toy_read]; try (by apply toy_read_fixed_forward; lia).
  1,2: destruct (toy_read_len data pos) as [[b p]| |] eqn:E; try done; intros [= _ <-]; by apply toy_read_len_forward in E.
  all: destruct (toy_read_varint data pos) as [[b p]| |] eqn:E; try done; intros [= _ <-]; by apply toy_read_varint_forward in E as [? _].
Qed.

Lemma toy_read_ends t data pos : toy_read t data pos <> NoFuel.
Proof.
  destruct t; try apply toy_read_fixed_ends; (apply bind_not_NoFuel; [apply toy_read_len_ends || apply toy_read_varint_ends | done]).
Qed.

Lemma toy_skip_spec data pos w d :
  toy_skip data pos w d <> NoFuel /\ forall e, toy_skip data pos w d = Ok e -> pos <= e <= zlen data.
Proof.
  assert (forall A (r : result (A * Z)), r <> NoFuel -> (forall x e, r = Ok (x, e) -> pos < e <= zlen data) ->
    (let! x := r in Ok x.2) <> NoFuel /\ forall e, (let! x := r in Ok x.2) = Ok e -> pos <= e <= zlen data) as H.
  { intros A r Hn Hf. destruct r as [[x e]| |]; try done. split; [done|]. intros e' [= <-]. specialize (Hf x e eq_refl). cbn. lia. }
  unfold toy_skip. destruct (w =? 0); [|destruct (w =? 1); [|destruct (w =? 2); [|destruct (w =? 5); [|done]]]]; apply H.
  - apply toy_read_varint_ends.
  - by intros x e [? _]%toy_read_varint_forward.
  - apply toy_read_fixed_ends.
  - intros x e. apply toy_read_fixed_forward. lia.
  - apply toy_read_len_ends.
  - by intros x e ?%toy_read_len_forward.
  - apply toy_read_fixed_ends.
  - intros x e. apply toy_read_fixed_forward. lia.
Qed.

#[global] Instance toy_laws : PbLaws toy_runtime.
Proof.
  split; cbn [toy_runtime rt_write rt_uint32 rt_read rt_read_uint32 rt_skipType rt_exact rt_isString rt_isInteger rt_isObject
    rt_oneOfSetter rt_Long rt_longBits rt_longToString rt_base64_decode rt_base64_encode rt_recursionLimit rt_readLimit].
  - apply toy_write_read.
  - apply toy_write_shape.
  - intros k v. destruct k; try done. by destruct v.
  - intros z Hz. by rewrite Z.mod_small.
  - intros pre z post Hz. rewrite toy_read_varint_written by lia. cbn [mbind result_bind fst snd]. by rewrite Z.mod_small.
  - intros data pos v e. destruct (toy_read_varint data pos) as [[z p]| |] eqn:E; try done. cbn [mbind result_bind fst snd].
    intros [= <- <-]. apply toy_read_varint_forward in E as [? _]. split; [apply Z.mod_pos_bound; lia | lia].
  - intros data pos. apply bind_not_NoFuel; [apply toy_read_varint_ends | done].
  - apply toy_read_forward.
  - apply toy_read_ends.
  - intros data pos w d e. apply toy_skip_spec.
  - intros data pos w d. apply toy_skip_spec.
  - done.
  - done.
  - done.
  - intros f u z [= <-] Hz. split; [done|]. cbn [long_value]. f_equal.
    apply (parse_text_iff (decimal_text z) z). by left.
  - done.
  - done.
  - done.
Qed.

(** Its writer takes all that [verify] lets pass. *)
Lemma toy_writer_accepts class t (ck : check class) v :
  match t, ck with TString, IsString => True | TString, _ => False | _, _ => True end ->
  check_holds toy_runtime ck v = true -> exists bs, toy_write t v = Ok bs.
Proof. intros Ht Hv. destruct t; try (by eexists). destruct ck; try done. destruct v; try done. by eexists. Qed.

(** ** Deciding types *)

(** A test of [scalar_ok] that takes ASCII text only. *)
Definition scalar_okb (rt : pb_runtime) (k : scalar) (v : jsval) : bool :=
  match k, v with
  | TString, JStr s => forallb (fun c => (0 <=? c) && (c <? 128)) s && (zlen s <? 2 ^ 30)
  | TBytes, JBytes b => forallb (fun x => (0 <=? x) && (x <? 256)) b && (zlen b <? 2 ^ 32)
  | TBool, JBool _ => true
  | TInt32, JNum (NInt z) => (- 2 ^ 31 <=? z) && (z <? 2 ^ 31)
  | TUint32, JNum (NInt z) => (0 <=? z) && (z <? 2 ^ 32)
  | TInt64, JLong z => has_long rt && ((- 2 ^ 63 <=? z) && (z <? 2 ^ 63))
  | TUint64, JLong z => has_long rt && ((0 <=? z) && (z <? 2 ^ 64))
  | TFloat, JNum n | TDouble, JNum n => rt_exact rt k n
  | _, _ => false
  end.

Lemma scalar_okb_ok rt k v : scalar_okb rt k v = true -> scalar_ok rt k v.
Proof.
  destruct k, v as [| |b|n|s|b|z| |]; try done; cbn [scalar_okb scalar_ok]; try (destruct n; try done);
    rewrite ?andb_true_iff, ?Z.ltb_lt, ?Z.leb_le; try tauto; try lia.
  - intros [Hs Hl]. split; [by apply text_ok_printable | done].
  - intros [Hs Hl]. split; [|done]. apply Forall_forall. intros x Hx. rewrite forallb_forall in Hs.
    apply list_elem_of_In, Hs in Hx. rewrite andb_true_iff, Z.leb_le, Z.ltb_lt in Hx. exact Hx.
Qed.

Section Decide.
Context {class : Type} `{EqDecision class} (P : static_module class) (rt : pb_runtime).

Definition entries_okb (value : jsval -> bool) (v : jsval) : bool :=
  bool_decide (NoDup (map fst (own_entries v))) &&
  forallb (fun p => scalar_okb rt TString (JStr p.1) && value p.2) (own_entries v).

Definition typed_fieldb (typedb : class -> jsval -> bool) (m : jsval) (s : enc_stmt class) : bool :=
  let own k f := match own_value m k with Some v => f v | None => true end in
  let map_ok k f := match own_value m k with Some v => entries_okb f v | None => is_nil (own_entries (get m k)) end in
  match s with
  | Put k _ t => own k (scalar_okb rt t)
  | PutMessage k _ c => own k (typedb c)
  | PutEach k _ t | PutPacked k _ t => forallb (scalar_okb rt t) (elements (get m k))
  | PutEachMessage k _ c => forallb (typedb c) (elements (get m k))
  | PutMap k _ _ _ t => map_ok k (scalar_okb rt t)
  | PutMapMessage k _ _ _ c => map_ok k (typedb c)
  end.

Fixpoint typedb (n : nat) (c : class) (m : jsval) : bool :=
  match n with
  | O => false
  | S n => isPlainObject m && forallb (typed_fieldb (typedb n) m) (sm_encode P c)
  end.

Lemma forallb_Forall {A} (f : A -> bool) (Q : A -> Prop) l :
  (forall x, f x = true -> Q x) -> forallb f l = true -> Forall Q l.
Proof. intros H Hl. rewrite forallb_forall in Hl. apply Forall_forall. intros x Hx. apply H, Hl. by apply list_elem_of_In. Qed.

Lemma typedb_typed n : forall c m, typedb n c m = true -> typed P rt n c m.
Proof.
  induction n as [|n IH]; intros c m; [done|]. cbn [typedb typed]. rewrite andb_true_iff. intros [Hm Hall]. split; [done|].
  revert Hall. apply forallb_Forall. intros s. pose proof (scalar_okb_ok rt) as Hs.
  assert (forall k f (Q : jsval -> Prop), (forall v, f v = true -> Q v) ->
    match own_value m k with Some v => entries_okb f v | None => is_nil (own_entries (get m k)) end = true ->
    (forall v, own_value m k = Some v -> entries_ok rt Q v) /\ inherits_no m k) as Hmap.
  { intros k f Q Hf. unfold inherits_no. destruct (own_value m k) as [v|]; [|by destruct (own_entries (get m k))].
    unfold entries_okb. rewrite andb_true_iff, bool_decide_eq_true. intros [Hnd He]. split; [|done]. intros w [= <-]. split; [done|].
    revert He. apply forallb_Forall. intros p. rewrite andb_true_iff. intros [H1 H2]. eauto. }
  destruct s; cbn [typed_fieldb typed_field]; eauto using forallb_Forall.
  - destruct (own_value m k); [|done]. intros H v [= <-]. by apply Hs.
  - destruct (own_value m k); [|done]. intros H v [= <-]. by apply IH.
Qed.
End Decide.
