(* ===== verification/CapPbSamples.v ===== *)
(** * cap_pb.js: samples

    The theorems of CapPb.v at concrete messages, with the runtime of
    PbSamples.v, and what the classes do with some odd inputs. *)

From S2P Require Import Prelude JsString JsValue Codec Protos PbRuntime StaticCode StaticWire StaticRoundTrip StaticObjects StaticVerify StaticObjectTrip StaticSafety ProtoFile ProtoValid CapPbClasses CapPbCodec CapPbObjects CapProto CapPb PbSamples.

(** ** A packet *)

Definition sample_request : jsval :=
  JPlain [(js "jobId", JStr (js "j1")); (js "topic", JStr (js "job.demo")); (js "priority", JNum (NInt 1));
          (js "labels", JPlain [(js "zone", JStr (js "a")); (js "7", JStr (js "b"))])].

Definition sample_packet : jsval :=
  JPlain [(js "traceId", JStr (js "t1")); (js "createdAt", JPlain [(js "seconds", JLong 5); (js "nanos", JNum (NInt 7))]);
          (js "protocolVersion", JNum (NInt 1)); (js "jobRequest", sample_request);
          (js "signature", JBytes [1; 2; 3])].

Lemma sample_typed : typed cap_pb toy_runtime 3 BusPacketT sample_packet.
Proof. apply typedb_typed. vm_compute. reflexivity. Qed.

(** The bytes of the packet; the entries of [labels] come in the order in which
    the object enumerates them. *)
Example sample_bytes :
  StaticCode.encode cap_pb toy_runtime BusPacketT sample_packet =
    Ok [10; 2; 116; 49; 26; 4; 8; 5; 16; 7; 32; 1; 82; 35; 10; 2; 106; 49; 18; 8; 106; 111; 98; 46; 100; 101; 109; 111;
        24; 1; 122; 6; 10; 1; 55; 18; 1; 98; 122; 9; 10; 4; 122; 111; 110; 101; 18; 1; 97; 114; 3; 1; 2; 3].
Proof. vm_compute. reflexivity. Qed.

Lemma cap_roundtrip_witness :
  (exists bs m', StaticCode.encode cap_pb toy_runtime BusPacketT sample_packet = Ok bs /\
     decode cap_pb toy_runtime BusPacketT bs = Ok m' /\ agrees cap_pb toy_runtime 3 BusPacketT sample_packet m') /\
  (exists bs m', encodeDelimited cap_pb toy_runtime BusPacketT sample_packet = Ok bs /\
     decodeDelimited cap_pb toy_runtime BusPacketT (bs ++ [0]) = Ok m' /\ agrees cap_pb toy_runtime 3 BusPacketT sample_packet m').
Proof.
  apply (cap_roundtrip toy_runtime 3 BusPacketT sample_packet [0] sample_typed); [done | done | vm_compute; reflexivity].
Defined.

Lemma json_options_ok : options_ok toy_runtime json_options.
Proof. by split. Qed.

Lemma cap_objects_roundtrip_witness :
  exists o m', toObject cap_objects toy_runtime BusPacketT sample_packet json_options = Ok (JPlain o) /\
    fromObject cap_pb cap_objects toy_runtime BusPacketT (JPlain o) = Ok m' /\ agrees cap_pb toy_runtime 3 BusPacketT sample_packet m'.
Proof. apply (cap_objects_roundtrip toy_runtime json_options 3 BusPacketT sample_packet json_options_ok sample_typed). done. Defined.

(** ** verify *)

(** A packet with two payloads is refused, and so is a wrong nested type. *)
Example sample_verified :
  StaticObjects.verify cap_objects toy_runtime BusPacketT sample_packet = Ok None /\
  StaticObjects.verify cap_objects toy_runtime BusPacketT (set "jobCancel" (JPlain []) sample_packet) = Ok (Some (js "payload: multiple values")) /\
  StaticObjects.verify cap_objects toy_runtime BusPacketT (JPlain [(js "jobRequest", JPlain [(js "meta", JPlain [(js "riskTags", JArr [JNull])])])])
    = Ok (Some (js "jobRequest.meta.riskTags: string[] expected")).
Proof. vm_compute. repeat split; reflexivity. Qed.

Lemma cap_verify_iff_witness : declared cap_proto 101 BusPacketT sample_packet.
Proof. apply (proj1 (cap_verify_iff toy_runtime BusPacketT sample_packet)). vm_compute. reflexivity. Defined.

Lemma cap_verified_encodes_witness : exists bs, StaticCode.encode cap_pb toy_runtime BusPacketT sample_packet = Ok bs.
Proof.
  destruct (cap_verified_encodes toy_runtime BusPacketT sample_packet) as [H|(e & t & ck & v & _ & _ & Ht & Hv & He)]; [| |exact H|].
  3: { destruct (toy_writer_accepts cap_class t ck v) as [bs Hb]; [by destruct t, ck | done | discriminate (eq_trans (eq_sym Hb) He)]. }
  - vm_compute. reflexivity.
  - cbn. tauto.
Defined.

Lemma cap_ends_witness : decode cap_pb toy_runtime BusPacketT [255] <> NoFuel.
Proof. apply (cap_ends toy_runtime BusPacketT [255] JNull json_options). Defined.

(** ** A map entry without its value *)

(** The wire may leave out the value of a map entry; for a map of messages the
    value then is [null].  The message that [decode] returns is not valid, and
    [encode] throws on it. *)
Example struct_entry_without_value :
  exists m, decode cap_pb toy_runtime StructT [10; 3; 10; 1; 97] = Ok m /\
    get m "fields" = JPlain [(js "a", JNull)] /\
    StaticObjects.verify cap_objects toy_runtime StructT m = Ok (Some (js "fields.object expected")) /\
    exists e, StaticCode.encode cap_pb toy_runtime StructT m = Throw e.
Proof.
  eexists. split; [vm_compute; reflexivity |]. split; [reflexivity |].
  split; [vm_compute; reflexivity |]. eexists. vm_compute. reflexivity.
Qed.
