(* ===== verification/CapSigningSamples.v ===== *)
(** * cap_pb.js and the production profile: samples

    The theorems of CapSigning.v at concrete packets: the packet of
    CapPbSamples.v is closed wire, and a production packet is signed and
    verified with the generated code as the codec. *)

From S2P Require Import Prelude JsString JsValue Codec Protos WireSchema ProductionSigning ProductionProducer PbRuntime StaticCode StaticWire StaticRoundTrip StaticObjects StaticSafety ProtoFile ProtoClosed CapPbClasses CapPbCodec CapPbObjects CapProto CapPb CapSigning PbSamples CapPbSamples.

(** ** Closed wire *)

Section Decide.
Context {class : Type} (P : static_module class).

Fixpoint exclusiveb (n : nat) (c : class) (m : jsval) : bool :=
  match n with
  | O => true
  | S n => forallb (fun o => length (List.filter (is_set m) o.2) <=? 1)%nat (sm_oneofs P c) &&
           forallb (fun s => forallb (fun p => exclusiveb n p.1 p.2) (sub_messages m s)) (sm_encode P c)
  end.

Lemma exclusiveb_exclusive n : forall c m, exclusiveb n c m = true -> exclusive P n c m.
Proof.
  induction n as [|n IH]; intros c m; [done|]. cbn [exclusiveb exclusive]. rewrite andb_true_iff. intros [Ho Hs]. split.
  - revert Ho. apply forallb_Forall. intros o. by rewrite Nat.leb_le.
  - revert Hs. apply forallb_Forall. intros s. apply forallb_Forall. auto.
Qed.
End Decide.

Lemma sample_exclusive : exclusive cap_pb 3 BusPacketT sample_packet.
Proof. apply exclusiveb_exclusive. vm_compute. reflexivity. Qed.

Lemma cap_encodes_closed_witness :
  exists bs, StaticCode.encode cap_pb toy_runtime BusPacketT sample_packet = Ok bs /\
    assertClosedNestedWire bs (cap_schema 6 BusPacketT) = Ok tt.
Proof.
  apply (cap_encodes_closed toy_runtime 3 6 BusPacketT sample_packet sample_typed sample_exclusive);
    [lia | done | vm_compute; reflexivity].
Defined.

(** ** Signing *)

Definition production_packet : jsval :=
  JPlain [(js "traceId", JStr (js "t")); (js "senderId", JStr (js "s"));
          (js "createdAt", JPlain [(js "seconds", JLong 1700000000)]); (js "protocolVersion", JNum (NInt 1));
          (js "signatureMetadata", JPlain [
             (js "profileVersion", JStr PRODUCTION_PROFILE_VERSION); (js "algorithm", JStr PRODUCTION_ALGORITHM);
             (js "messageId", JBytes (repeat 7 16)); (js "audience", JStr (js "aud"));
             (js "expiresAt", JPlain [(js "seconds", JLong 1700000060)]); (js "keyId", JStr (js "k1"))]);
          (js "identity", JPlain [(js "tenantId", JStr (js "ten"))]);
          (js "heartbeat", JPlain [(js "workerId", JStr (js "s"))])].

Definition signed_sample : bytes :=
  match signProductionPacket toy_keys production_packet (cap_producer toy_runtime 6) (js "KEY" : key_input toy_keys) 1700000000000 with
  | Ok raw => raw
  | _ => []
  end.

Definition production_message : jsval := signed_message (cap_producer toy_runtime 6) production_packet.

Lemma production_typed : typed cap_pb toy_runtime 3 BusPacketT production_message.
Proof. apply typedb_typed. vm_compute. reflexivity. Qed.

Lemma production_made : made cap_pb toy_runtime production_message.
Proof. split; [right; by exists BusPacketT |]. repeat first [exact I | left; reflexivity | split]. Qed.

Lemma production_authority :
  matching_authority toy_crypto production_message sample_trust tt 1700000000500.
Proof.
  split.
  - exists (js "aud"). done.
  - exists (js "ten"). done.
  - exists (js "s"). done.
  - exists (js "k1"), (js "PEM"). split; [done|]. split; [done|]. split; [done|]. split; [done|]. by split; [|left].
  - intros e (s & n & _ & Hs & Hn & _ & _ & ->). vm_compute in Hs, Hn. injection Hs as <-. injection Hn as <-.
    apply (default_window sample_trust 1700000000000 1700000000500 1000); done || lia.
Qed.

Lemma cap_sign_verify_witness :
  exists d, verifyProductionPacket toy_crypto signed_sample (cap_packet_type toy_runtime 6) sample_trust 1700000000500 = Ok d /\
    agrees cap_pb toy_runtime 3 BusPacketT production_message d.
Proof.
  apply (cap_sign_verify toy_runtime toy_crypto toy_keys 3 6 production_packet (js "KEY" : key_input toy_keys) tt tt
           sample_trust 1700000000000 1700000000500 signed_sample production_typed production_made).
  - done.
  - done.
  - vm_compute. reflexivity.
  - intros data. apply bool_decide_eq_true. reflexivity.
  - reflexivity.
  - vm_compute. reflexivity.
  - apply production_authority.
Defined.
