(* ===== verification/JspbSamples.v ===== *)
(** * A library that keeps the laws of google-protobuf

    A concrete instance of [jspb]: a message is a list of slots, and the writer
    and the reader are those of PbSamples.v.  It shows that the laws can hold,
    and a packet makes the round trip with it. *)

From S2P Require Import Prelude JsString JsValue Protos Varint PbRuntime StaticCode StaticWire PbSamples ProtoFile CapPbClasses CapProto JspbCode JspbLaws JspbGenerate JspbRoundTrip JspbTables JspbPolicyTables JspbPb.

(** ** Message objects *)

Inductive toy_msg : Type := TM (l : list (Z * slot toy_msg)).

Definition toy_slots (m : toy_msg) : list (Z * slot toy_msg) := match m with TM l => l end.

Definition toy_slot (m : toy_msg) (n : Z) : slot toy_msg :=
  match List.find (fun p => n =? p.1) (toy_slots m) with Some p => p.2 | None => Unset end.

Definition toy_set (m : toy_msg) (n : Z) (s : slot toy_msg) : toy_msg := TM ((n, s) :: toy_slots m).

Definition toy_values (m : toy_msg) (n : Z) : list jsval := match toy_slot m n with Values l => l | _ => [] end.
Definition toy_messages (m : toy_msg) (n : Z) : list toy_msg := match toy_slot m n with Messages l => l | _ => [] end.
Definition toy_entries (m : toy_msg) (n : Z) : list (jsstr * jsval) := match toy_slot m n with Entries l => l | _ => [] end.
Definition toy_value (m : toy_msg) (n : Z) (d : jsval) : jsval := match toy_slot m n with Value v => v | _ => d end.
Definition toy_message (x : option toy_msg) : slot toy_msg := match x with Some x => Message x | None => Unset end.

(** ** Writer and reader *)

Definition toy_scalar (k : jscalar) : scalar := match k with JScalar t => t | JEnum => TInt32 end.

Definition toy_tag (n w : Z) : bytes := encodeVarint (8 * n + w).

Definition toy_bytes (k : jscalar) (v : jsval) : bytes := match toy_write (toy_scalar k) v with Ok bs => bs | _ => [] end.

Definition toy_field (k : jscalar) (n : Z) (v : jsval) : bytes := toy_tag n (wire_type (toy_scalar k)) ++ toy_bytes k v.

Definition toy_frame (n : Z) (b : bytes) : bytes := toy_tag n 2 ++ toy_len b.

Definition toy_entry (key value : jscalar) (e : jsstr * jsval) : bytes := toy_field key 1 (JStr e.1) ++ toy_field value 2 e.2.

Definition toy_next (data : bytes) (pos end_ : Z) : result (option (Z * Z * Z)) :=
  if end_ <=? pos then Ok None
  else let! r := toy_read_varint data pos in Ok (Some (Z.shiftr r.1 3, Z.land r.1 7, r.2)).

(** 64-bit integers are numbers. *)
Definition toy_number (v : jsval) : jsval := match v with JLong z => JNum (NInt z) | _ => v end.

Definition toy_jread (k : jscalar) (data : bytes) (pos : Z) : result (jsval * Z) :=
  let! r := toy_read (toy_scalar k) data pos in Ok (toy_number r.1, r.2).

Definition toy_readMessage (data : bytes) (pos : Z) : result (Z * Z) :=
  let! r := toy_read_varint data pos in
  if zlen data <? r.2 + r.1 then throw PlainError (js "index out of range") else Ok (r.2, r.2 + r.1).

Fixpoint toy_packed (fuel : nat) (k : jscalar) (data : bytes) (pos end_ : Z) : result (list jsval) :=
  match fuel with
  | O => NoFuel
  | S fuel =>
      if end_ <=? pos then Ok []
      else let! r := toy_jread k data pos in let! l := toy_packed fuel k data r.2 end_ in Ok (r.1 :: l)
  end.

Definition toy_readPacked (k : jscalar) (data : bytes) (pos : Z) : result (list jsval * Z) :=
  let! frame := toy_readMessage data pos in
  let! l := toy_packed (S (Z.to_nat (zlen data - frame.1))) k data frame.1 frame.2 in
  Ok (l, frame.2).

Definition toy_readEntry (key value : jscalar) (data : bytes) (start : Z) : result (jsstr * jsval) :=
  let! t := toy_read_varint data start in
  let! k := toy_jread key data t.2 in
  let! t := toy_read_varint data k.2 in
  let! v := toy_jread value data t.2 in
  match k.1 with JStr s => Ok (s, v.1) | _ => throw TypeError (js "string expected") end.

Definition toy_lib : jspb cap_class := {|
  jmsg := toy_msg;
  jb_slot := toy_slot;
  jb_initialize := fun _ _ => TM [];
  jb_getFieldWithDefault := toy_value;
  jb_getBooleanFieldWithDefault := toy_value;
  jb_getFloatingPointFieldWithDefault := toy_value;
  jb_hasField := fun m n => match toy_slot m n with Unset => false | _ => true end;
  jb_getRepeatedField := toy_values;
  jb_getWrapperField := fun m n => match toy_slot m n with Message x => Some x | _ => None end;
  jb_getRepeatedWrapperField := toy_messages;
  jb_getMapField := toy_entries;
  jb_bytesAsU8 := fun v => match v with JStr s => JBytes s | _ => v end;
  jb_bytesAsB64 := fun v => match v with JBytes b => JStr b | _ => v end;
  jb_computeOneofCase := fun m g => default 0 (List.find (fun n => match toy_slot m n with Unset => false | _ => true end) g);
  jb_setProto3Field := fun k m n v => toy_set m n (if strict_eq v (proto3_default k) then Unset else Value v);
  jb_setField := fun m n l => toy_set m n (Values l);
  jb_setWrapperField := fun m n x => toy_set m n (toy_message x);
  jb_setOneofWrapperField := fun m n g x =>
    toy_set (TM (map (fun n => (n, Unset)) g ++ toy_slots m)) n (toy_message x);
  jb_setRepeatedWrapperField := fun m n l => toy_set m n (Messages l);
  jb_addToRepeatedField := fun m n v => toy_set m n (Values (toy_values m n ++ [v]));
  jb_addToRepeatedWrapperField := fun m n x => toy_set m n (Messages (toy_messages m n ++ [x]));
  jb_mapSet := fun m n k v => toy_set m n (Entries (assoc_set k v (toy_entries m n)));
  jb_mapClear := fun m n => toy_set m n (Entries []);
  jb_write := fun k n v => Ok (toy_field k n v);
  jb_writePacked := fun k n l => Ok (toy_frame n (concat (map (toy_bytes k) l)));
  jb_writeMessage := toy_frame;
  jb_writeMap := fun key value n l => Ok (concat (map (fun e => toy_frame n (toy_entry key value e)) l));
  jb_nextField := toy_next;
  jb_read := toy_jread;
  jb_readPacked := toy_readPacked;
  jb_readMessage := toy_readMessage;
  jb_readEntry := fun key value _ _ data start _ => toy_readEntry key value data start;
  jb_skipField := fun data pos _ w => toy_skip data pos w 0;
  jb_new := fun _ => TM [];
  (** A message of the library has one 64-bit field. *)
  jb_serialize := fun _ m => Ok (toy_bytes (JScalar TInt64) (toy_value m 1 (JNum (NInt 0))));
  jb_deserialize := fun _ m data start _ => let! r := toy_jread (JScalar TInt64) data start in Ok (toy_set m 1 (Value r.1));
  jb_toObject := fun _ m => Ok (JPlain [(js "seconds", toy_value m 1 (JNum (NInt 0)))]);
  jb_valid := fun _ m => match toy_value m 1 (JNum (NInt 0)) with JNum (NInt z) => Z.abs z <= 2 ^ 53 | _ => False end;
  jb_equals := fun m m' => strict_eq (toy_value m 1 (JNum (NInt 0))) (toy_value m' 1 (JNum (NInt 0)));
  jb_exact := rt_exact toy_runtime
|}.

(** ** Its laws *)

Lemma toy_set_slot m n s n' : toy_slot (toy_set m n s) n' = if n' =? n then s else toy_slot m n'.
Proof. unfold toy_slot, toy_set. cbn [toy_slots List.find fst]. by destruct (n' =? n). Qed.

Lemma toy_cleared_slot g l n : toy_slot (TM (map (fun n => (n, Unset)) g ++ l)) n = if zmem n g then Unset else toy_slot (TM l) n.
Proof.
  unfold toy_slot, zmem. cbn [toy_slots]. induction g as [|x g IH]; [done|]. cbn [map app List.find existsb fst].
  by destruct (n =? x).
Qed.

Lemma varint_at data pos v : 0 <= v < 2 ^ 64 -> at_pos data pos (encodeVarint v) ->
  toy_read_varint data pos = Ok (v, pos + zlen (encodeVarint v)).
Proof. intros Hv (pre & post & -> & ->). by apply toy_read_varint_written. Qed.

Lemma toy_bytes_read k v : jscalar_ok toy_lib k v ->
  toy_bytes k v <> [] /\ forall data pos, at_pos data pos (toy_bytes k v) ->
    toy_jread k data pos = Ok (v, pos + zlen (toy_bytes k v)).
Proof.
  intros Hv. set (w := match k, v with JScalar (TInt64 | TUint64), JNum (NInt z) => JLong z | _, _ => v end).
  assert (scalar_ok toy_runtime (toy_scalar k) w /\ toy_write (toy_scalar k) v = toy_write (toy_scalar k) w /\ toy_number w = v)
    as (Hw & Hb & Hn).
  { assert (2 ^ 53 < 2 ^ 63) by lia. subst w.
    destruct k as [[]|], v as [| |b|[]|s|b|z| |]; cbn in *; try done; (split; [|done]); repeat split; try done; lia || tauto. }
  destruct (toy_write_read _ _ Hw) as (bs & E & Hne & Hr). unfold toy_bytes. rewrite Hb, E. split; [done|].
  intros data pos (pre & post & -> & ->). unfold toy_jread. rewrite Hr. cbn [mbind result_bind fst snd]. by rewrite Hn.
Qed.

Lemma wire_type_range t : 0 <= wire_type t < 8 /\ wire_type t <> 4.
Proof. by destruct t. Qed.

Lemma toy_tag_pos n w : 0 < n -> 0 <= w -> 1 <= zlen (toy_tag n w).
Proof. intros Hn Hw. pose proof (encodeVarint_nonempty (8 * n + w) ltac:(lia)) as H. unfold toy_tag, zlen in *. lia. Qed.

Lemma tag_at data pos n w : 0 < n < 2 ^ 29 -> 0 <= w < 8 -> at_pos data pos (toy_tag n w) ->
  toy_read_varint data pos = Ok (8 * n + w, pos + zlen (toy_tag n w)).
Proof. intros Hn Hw. apply varint_at. lia. Qed.

(** A tag is the start of a field. *)
Lemma toy_next_tag n w b data pos end_ : 0 < n < 2 ^ 29 -> 0 <= w < 8 -> at_pos data pos (toy_tag n w ++ b) ->
  pos + zlen (toy_tag n w ++ b) <= end_ ->
  toy_next data pos end_ = Ok (Some (n, w, pos + zlen (toy_tag n w))) /\ at_pos data (pos + zlen (toy_tag n w)) b.
Proof.
  intros Hn Hw [Ha Hb]%at_pos_app He. split; [|done]. pose proof (toy_tag_pos n w ltac:(lia) ltac:(lia)). rewrite zlen_app in He.
  pose proof (zlen_nonneg b). unfold toy_next. destruct (Z.leb_spec end_ pos); [lia|].
  rewrite (tag_at _ _ _ _ Hn Hw Ha). cbn [mbind result_bind fst snd]. by rewrite tag_number, tag_wire.
Qed.

Lemma toy_len_at data pos b : zlen b < 2 ^ 32 -> at_pos data pos (toy_len b) ->
  exists start, toy_readMessage data pos = Ok (start, pos + zlen (toy_len b)) /\ start + zlen b = pos + zlen (toy_len b) /\ at_pos data start b.
Proof.
  intros Hb H. pose proof H as (pre & post & Hd & Hp). apply at_pos_app in H as [Ha Hc]. exists (pos + zlen (encodeVarint (zlen b))).
  pose proof (zlen_nonneg b). pose proof (zlen_nonneg post). unfold toy_readMessage. rewrite (varint_at data pos (zlen b)) by (done || lia).
  cbn [mbind result_bind fst snd]. unfold toy_len. rewrite !zlen_app, !Z.add_assoc. split; [|done].
  destruct (Z.ltb_spec (zlen data) (pos + zlen (encodeVarint (zlen b)) + zlen b)) as [Hlt|]; [|done].
  rewrite Hd, !zlen_app in Hlt. unfold toy_len in Hlt. rewrite zlen_app in Hlt. lia.
Qed.

Lemma toy_packed_at k l : forall fuel data pos, Forall (jscalar_ok toy_lib k) l -> (length l < fuel)%nat ->
  at_pos data pos (concat (map (toy_bytes k) l)) ->
  toy_packed fuel k data pos (pos + zlen (concat (map (toy_bytes k) l))) = Ok l.
Proof.
  induction l as [|v l IH]; intros [|fuel] data pos Hok Hf Hat; cbn in Hf; try lia; cbn [toy_packed map concat] in *.
  - by rewrite (proj2 (Z.leb_le _ _)) by (unfold zlen; cbn; lia).
  - apply Forall_cons in Hok as [Hv Hok]. destruct (toy_bytes_read k v Hv) as [Hne Hr]. apply at_pos_app in Hat as [Ha Hb].
    rewrite zlen_app. set (rest := concat _) in *. pose proof (zlen_nonneg rest).
    assert (0 < zlen (toy_bytes k v)) by (destruct (toy_bytes k v); [done | unfold zlen; cbn; lia]).
    destruct (Z.leb_spec (pos + (zlen (toy_bytes k v) + zlen rest)) pos); [lia|]. rewrite (Hr _ _ Ha). cbn [mbind result_bind fst snd].
    rewrite Z.add_assoc. unfold rest. by rewrite IH by (done || lia).
Qed.

Lemma toy_bytes_count k l : Forall (jscalar_ok toy_lib k) l -> (length l <= length (concat (map (toy_bytes k) l)))%nat.
Proof.
  induction 1 as [|v l Hv _ IH]; [done|]. cbn [map concat length]. rewrite length_app. destruct (toy_bytes_read k v Hv) as [Hne _].
  destruct (toy_bytes k v); [done|]. cbn [length]. lia.
Qed.

Lemma toy_readPacked_at k l data pos : Forall (jscalar_ok toy_lib k) l -> zlen (toy_len (concat (map (toy_bytes k) l))) < 2 ^ 32 ->
  at_pos data pos (toy_len (concat (map (toy_bytes k) l))) ->
  toy_readPacked k data pos = Ok (l, pos + zlen (toy_len (concat (map (toy_bytes k) l)))).
Proof.
  intros Hl Hlen Hat. set (b := concat _) in *. assert (zlen b < 2 ^ 32).
  { unfold toy_len in Hlen. rewrite zlen_app in Hlen. pose proof (zlen_nonneg (encodeVarint (zlen b))). lia. }
  destruct (toy_len_at data pos b) as (start & Hm & He & Ha); [done | done|]. unfold toy_readPacked. rewrite Hm. cbn [mbind result_bind fst snd].
  assert (length l <= Z.to_nat (zlen data - start))%nat.
  { pose proof (toy_bytes_count k l Hl). destruct Ha as (pre & post & -> & ->). fold b in H0. unfold zlen. rewrite !length_app. lia. }
  rewrite <- He. unfold b. by rewrite (toy_packed_at k l) by (done || lia).
Qed.

Lemma toy_entry_at value e data pos : entry_ok toy_lib value e -> at_pos data pos (toy_entry (JScalar TString) value e) ->
  toy_readEntry (JScalar TString) value data pos = Ok e.
Proof.
  intros (_ & Hk & Hv) [Ha Hb]%at_pos_app. apply at_pos_app in Ha as [Ha1 Ha2]. apply at_pos_app in Hb as [Hb1 Hb2].
  unfold toy_readEntry. rewrite (tag_at _ _ 1 _ ltac:(lia) (proj1 (wire_type_range _)) Ha1). cbn [mbind result_bind fst snd].
  destruct (toy_bytes_read _ _ Hk) as [_ Hr]. rewrite (Hr _ _ Ha2). cbn [mbind result_bind fst snd].
  unfold toy_field in Hb1, Hb2. rewrite zlen_app, Z.add_assoc in Hb1, Hb2.
  rewrite (tag_at _ _ 2 _ ltac:(lia) (proj1 (wire_type_range _)) Hb1).
  cbn [mbind result_bind fst snd]. destruct (toy_bytes_read _ _ Hv) as [_ Hr']. rewrite (Hr' _ _ Hb2). by destruct e.
Qed.

Lemma toy_case m g n : zmem n g = true -> toy_slot m n <> Unset ->
  (forall n', zmem n' g = true -> n' <> n -> toy_slot m n' = Unset) ->
  default 0 (List.find (fun n => match toy_slot m n with Unset => false | _ => true end) g) = n.
Proof.
  intros Hg Hn Ho. destruct (List.find _ g) as [n'|] eqn:E.
  - apply find_some in E as [Hi Hs]. cbn. destruct (Z.eq_dec n' n) as [|Hne]; [done|]. apply zmem_In in Hi. by rewrite (Ho n' Hi Hne) in Hs.
  - apply zmem_In in Hg. pose proof (find_none _ _ E n Hg) as Hs. cbn in Hs. revert Hn Hs. by destruct (toy_slot m n).
Qed.

#[global] Instance toy_oneof_laws : JspbOneofLaws toy_lib.
Proof.
  split; cbn [toy_lib jb_slot jb_getWrapperField jb_hasField jb_setOneofWrapperField jb_computeOneofCase toy_message].
  - by intros * ->.
  - intros m n g x n'. rewrite toy_set_slot, toy_cleared_slot. by destruct m.
  - apply toy_case.
Qed.

#[global] Instance toy_jspb_laws : JspbLaws toy_lib.
Proof.
  split; cbn [toy_lib jmsg jb_slot jb_initialize jb_getFieldWithDefault jb_getBooleanFieldWithDefault jb_getFloatingPointFieldWithDefault
    jb_hasField jb_getRepeatedField jb_getWrapperField jb_getRepeatedWrapperField jb_getMapField jb_bytesAsU8 jb_setProto3Field
    jb_setWrapperField jb_setOneofWrapperField jb_addToRepeatedField jb_addToRepeatedWrapperField jb_mapSet jb_computeOneofCase jb_write jb_writePacked
    jb_writeMessage jb_writeMap jb_nextField jb_read jb_readPacked jb_readMessage jb_readEntry jb_new jb_serialize jb_deserialize
    jb_valid jb_equals toy_message]; unfold toy_value, toy_values, toy_messages, toy_entries.
  1: apply _.
  1: done.
  1-13: by intros * ->.
  1,2: done.
  1,2,3: by intros; rewrite toy_set_slot.
  - by intros; rewrite toy_set_slot.
  - intros m n k v n' Hn. rewrite toy_set_slot. by apply Z.eqb_neq in Hn as ->.
  - intros m n k v _. eexists. by rewrite toy_set_slot, Z.eqb_refl.
  - intros k n v Hn Hv. eexists. split; [done|]. destruct (toy_bytes_read k v Hv) as [Hne Hr].
    destruct (wire_type_range (toy_scalar k)) as [Hw H4]. split; [intros [_ E]%app_nil; done|]. intros data pos end_ Hat He.
    destruct (toy_next_tag n _ _ data pos end_ Hn Hw Hat He) as [Hx Ha]. do 2 eexists. split; [apply Hx|]. split; [done|].
    unfold toy_field. rewrite (Hr _ _ Ha), zlen_app. by rewrite Z.add_assoc.
  - intros k n l Hn _ Hl. eexists. split; [done|]. split; [intros [_ E]%app_nil; by apply (toy_len_nonempty _ E)|].
    intros Hlen data pos end_ Hat He. destruct (toy_next_tag n 2 _ data pos end_ Hn ltac:(lia) Hat He) as [Hx Ha].
    do 2 eexists. split; [apply Hx|]. split; [done|]. split; [done|]. unfold toy_frame in *. rewrite zlen_app in Hlen |- *.
    pose proof (zlen_nonneg (toy_tag n 2)). rewrite (toy_readPacked_at k l) by (done || lia). by rewrite Z.add_assoc.
  - intros n b Hn. unfold toy_frame, toy_len. rewrite !zlen_app. pose proof (toy_tag_pos n 2 ltac:(lia) ltac:(lia)).
    pose proof (encodeVarint_nonempty (zlen b) (zlen_nonneg _)) as Hl. unfold zlen in *. lia.
  - intros n b Hn Hb data pos end_ Hat He. destruct (toy_next_tag n 2 _ data pos end_ Hn ltac:(lia) Hat He) as [Hx Ha].
    do 2 eexists. split; [apply Hx|]. split; [done|]. unfold toy_frame. rewrite zlen_app, Z.add_assoc. by apply toy_len_at.
  - intros value m n l Hn _ Hl. exists (toy_entry (JScalar TString) value). split; [done|]. intros e _ _ data start He Hat.
    rewrite Forall_forall in Hl. by apply toy_entry_at; [apply Hl|].
  - intros data pos. unfold toy_next. by rewrite Z.leb_refl.
  - intros c m Hm. eexists. split; [done|]. intros data pos Hat. set (v := match toy_slot m 1 with Value v => v | _ => JNum (NInt 0) end) in *.
    assert (jscalar_ok toy_lib (JScalar TInt64) v) as Hv by (by destruct v as [| | |[]| | | | |]).
    destruct (toy_bytes_read _ _ Hv) as [_ Hr]. rewrite (Hr _ _ Hat). cbn [mbind result_bind fst snd]. eexists. split; [done|].
    destruct v as [| | |[]| | | | |]; try done. cbn. apply Z.eqb_refl.
Qed.

(** ** Deciding [filled] *)

Definition jscalar_okb (k : jscalar) (v : jsval) : bool :=
  match k, v with
  | JScalar TInt64, JNum (NInt z) => Z.abs z <=? 2 ^ 53
  | JScalar TUint64, JNum (NInt z) => (0 <=? z) && (z <=? 2 ^ 53)
  | JScalar (TInt64 | TUint64), _ => false
  | _, _ => scalar_okb toy_runtime (toy_scalar k) v
  end.

Lemma jscalar_okb_ok k v : jscalar_okb k v = true -> jscalar_ok toy_lib k v.
Proof.
  intros H. assert (scalar_okb toy_runtime (toy_scalar k) v = true -> scalar_ok toy_runtime (toy_scalar k) v) as Hs by apply scalar_okb_ok.
  destruct k as [[]|], v as [| |b|[]|s|b|z| |]; try done; try (by apply Hs);
    cbn in H |- *; rewrite ?andb_true_iff, ?Z.leb_le in H; tauto.
Qed.

Definition filled_fieldb (filledb : cap_class -> toy_msg -> bool) (m : toy_msg) (f : proto_field cap_class) : bool :=
  match toy_slot m (pf_number f), pf_label f, pf_type f, jscalar_of f with
  | Unset, _, _, _ => true
  | Message x, Singular, MessageType d, _ => filledb d x
  | Messages l, Repeated, MessageType d, _ => forallb (filledb d) l
  | Value v, Singular, (Scalar _ | EnumType _), Some k => jscalar_okb k v && passes (test_of k) v
  | Values l, Repeated, (Scalar _ | EnumType _), Some k => forallb (jscalar_okb k) l
  | Entries l, Mapped, _, Some k =>
      bool_decide (NoDup (map fst l)) && forallb (fun e => negb (bool_decide (e.1 = js "__proto__")) && (jscalar_okb (JScalar TString) (JStr e.1) && jscalar_okb k e.2)) l
  | _, _, _, _ => false
  end.

Definition members (m : toy_msg) (fs : list (proto_field cap_class)) : list (proto_field cap_class) :=
  List.filter (fun f => match pf_oneof f, toy_slot m (pf_number f) with None, _ | _, Unset => false | _, _ => true end) fs.

Fixpoint filledb (n : nat) (c : cap_class) (m : toy_msg) : bool :=
  match n, jspb_pb c with
  | O, _ => false
  | S n, Some _ => forallb (filled_fieldb (filledb n) m) (cap_proto c) && (length (members m (cap_proto c)) <=? 1)%nat
  | S _, None => match toy_value m 1 (JNum (NInt 0)) with JNum (NInt z) => Z.abs z <=? 2 ^ 53 | _ => false end
  end.

Lemma filled_fieldb_ok (fb : cap_class -> toy_msg -> bool) (Q : cap_class -> toy_msg -> Prop) m f :
  (forall d x, fb d x = true -> Q d x) -> filled_fieldb fb m f = true -> filled_field toy_lib Q m f.
Proof.
  intros Hq. unfold filled_fieldb, filled_field. cbn [toy_lib jb_slot]. destruct (toy_slot m (pf_number f)) eqn:E; [by left|..];
    destruct (pf_label f); try done; destruct (pf_type f); try done; try (destruct (jscalar_of f) as [k|]; [|done]);
    rewrite ?andb_true_iff, ?bool_decide_eq_true; intros H; right.
  1,2: destruct H as [H1 H2]; exists k, v; split_and!; try done; by apply jscalar_okb_ok.
  1,2: exists k, l; split_and!; try done; revert H; apply forallb_Forall, jscalar_okb_ok.
  1: by eauto.
  1: eexists; split; [done|]; revert H; apply forallb_Forall, Hq.
  all: destruct H as [Hnd H]; exists k, l; split_and!; try done; revert H; apply forallb_Forall; intros e;
    rewrite !andb_true_iff, negb_true_iff, bool_decide_eq_false; intros (H0 & H1 & H2); split_and!; [done | by apply jscalar_okb_ok..].
Qed.

Lemma members_one m fs : (length (members m fs) <= 1)%nat -> one_member toy_lib m fs.
Proof.
  intros Hl f g Hf Hg Of Og Sf Sg. cbn [toy_lib jb_slot] in *.
  assert (forall f, f ∈ fs -> pf_oneof f <> None -> toy_slot m (pf_number f) <> Unset -> f ∈ members m fs) as Hin.
  { intros h Hh Ho Hs. apply list_elem_of_In, filter_In. split; [by apply list_elem_of_In|].
    destruct (pf_oneof h); [|done]. by destruct (toy_slot m (pf_number h)). }
  pose proof (Hin f Hf Of Sf) as H1. pose proof (Hin g Hg Og Sg) as H2. destruct (members m fs) as [|x [|y l]]; [by apply not_elem_of_nil in H1| |cbn in Hl; lia].
  apply list_elem_of_singleton in H1, H2. by subst.
Qed.

Lemma filledb_filled n : forall c m, filledb n c m = true -> filled toy_lib jspb_pb cap_proto n c m.
Proof.
  induction n as [|n IH]; intros c m; [done|]. cbn [filledb filled]. destruct (jspb_pb c).
  - rewrite andb_true_iff, Nat.leb_le. intros [Hf Hm]. split; [|by apply members_one]. revert Hf. apply forallb_Forall. intros f.
    by apply filled_fieldb_ok.
  - cbn [toy_lib jb_valid]. destruct (toy_value m 1 (JNum (NInt 0))) as [| | |[]| | | | |]; try done. apply Z.leb_le.
Qed.

(** ** A packet *)

Definition sample_handshake : toy_msg :=
  TM [(1, Value (JStr (js "worker-1"))); (2, Value (JNum (NInt 2))); (3, Values [JNum (NInt 1); JNum (NInt 300)]);
      (4, Entries [(js "streaming", JBool true); (js "cancel", JBool false)]); (6, Values [JStr (js "job.a"); JStr (js "job.b")])].

Definition sample_packet : toy_msg :=
  TM [(1, Value (JStr (js "trace-1"))); (2, Value (JStr (js "worker-1"))); (3, Message (TM [(1, Value (JNum (NInt 1700000000)))]));
      (4, Value (JNum (NInt 1))); (17, Message sample_handshake); (14, Value (JBytes [1; 2; 255]))].

Lemma jspb_roundtrip_witness : exists bs, serialize toy_lib jspb_pb 3 BusPacketT sample_packet = Ok bs /\
  (zlen bs < 2 ^ 32 -> exists m', deserializeBinary toy_lib jspb_pb BusPacketT bs = Ok m' /\ same toy_lib jspb_pb 3 BusPacketT sample_packet m').
Proof.
  apply (jspb_roundtrip toy_lib 3 BusPacketT sample_packet 3); [|lia]. apply filledb_filled. vm_compute. reflexivity.
Defined.

(** The signature follows the payload in the bytes. *)
Example jspb_sample_bytes : serialize toy_lib jspb_pb 3 BusPacketT (TM [(14, Value (JBytes [7])); (4, Value (JNum (NInt 1))); (17, Message (TM []))]) =
  Ok [32; 1; 138; 1; 0; 114; 1; 7].
Proof. vm_compute. reflexivity. Qed.

Lemma jspb_member_witness : exists m',
  call_set toy_lib BusPacket_jspb "setHandshake" (TM [(10, Message (TM []))]) (VMessage toy_lib (Some sample_handshake)) = Some m' /\
  oneof_case toy_lib BusPacket_jspb 0 m' = 17 /\ toy_slot m' 10 = Unset.
Proof.
  destruct (jspb_member toy_lib BusPacketT BusPacket_jspb (PField 17 "handshake" (MessageType HandshakeT) Singular (Some "payload"))
    (TM [(10, Message (TM []))]) sample_handshake) as (m' & Hs & _ & _ & Hc & Ho); [done | vm_compute; tauto | done|].
  exists m'. split; [exact Hs|]. split; [exact Hc|].
  apply (Ho (PField 10 "job_request" (MessageType JobRequestT) Singular (Some "payload"))); [vm_compute; tauto | done].
Defined.
