(* ===== verification/TrustSamples.v ===== *)
(** * Worker trust: concrete instances

    Instances of the parameters of the worker-trust components (a reader, a
    writer, message types with a codec, keys) and a complete handshake over
    them; they show that the hypotheses of the theorems can hold together. *)

From S2P Require Import Prelude JsString JsValue Varint WireSchema Codec WorkerTrustContract WorkerTrustWire WorkerTrustPacket TrustSigning WorkerTrustFlow Protos WorkerTrustExchange.

(** ** A codec

    Values are written as a tagged tree. *)
Fixpoint write_value (v : jsval) : bytes :=
  match v with
  | JUndef | JNull => [1]
  | JBool b => [2; if b then 1 else 0]
  | JNum (NInt z) | JLong z => [3; z]
  | JNum _ => [1]
  | JStr s => 5 :: zlen s :: s
  | JBytes b => 6 :: zlen b :: b
  | JArr l => 8 :: zlen l :: concat (map write_value l)
  | JObj own _ => 9 :: zlen own :: concat (map (fun '(k, x) => zlen k :: k ++ write_value x) own)
  end.

Fixpoint read_value (fuel : nat) (d : bytes) : option (jsval * bytes) :=
  match fuel with
  | O => None
  | S fuel =>
      match d with
      | 1 :: d => Some (JNull, d)
      | 2 :: b :: d => Some (JBool (b =? 1), d)
      | 3 :: z :: d => Some (JNum (NInt z), d)
      | 5 :: n :: d => Some (JStr (take (Z.to_nat n) d), drop (Z.to_nat n) d)
      | 6 :: n :: d => Some (JBytes (take (Z.to_nat n) d), drop (Z.to_nat n) d)
      | 8 :: n :: d =>
          (fix elements (k : nat) (acc : list jsval) (d : bytes) : option (jsval * bytes) :=
             match k with
             | O => Some (JArr (rev acc), d)
             | S k => match read_value fuel d with
                      | Some (x, d) => elements k (x :: acc) d
                      | None => None
                      end
             end) (Z.to_nat n) [] d
      | 9 :: n :: d =>
          (fix properties (k : nat) (acc : list (jsstr * jsval)) (d : bytes) : option (jsval * bytes) :=
             match k, d with
             | O, _ => Some (JPlain (rev acc), d)
             | S k, l :: d =>
                 match read_value fuel (drop (Z.to_nat l) d) with
                 | Some (x, d') => properties k ((take (Z.to_nat l) d, x) :: acc) d'
                 | None => None
                 end
             | S _, [] => None
             end) (Z.to_nat n) [] d
      | _ => None
      end
  end.

(** ** Message types *)

Definition scalar (id : Z) (name type : string) : field := Field id name type false false "" false None Unresolved.
Definition enum_field (id : Z) (name : string) : field := Field id name "Enum" false false "" false None ResolvedEnum.
Definition nested (id : Z) (name : string) (t : msg_type) : field :=
  Field id name (mt_fullName t) false false "" false None (ResolvedMessage t).

Definition timestamp_type : msg_type :=
  MsgType "google.protobuf.Timestamp" [scalar 1 "seconds" "int64"; scalar 2 "nanos" "int32"].

Definition request_type : msg_type :=
  MsgType "WorkerHandshakeChallengeRequest"
    [scalar 1 "requestId" "string"; scalar 2 "traceId" "string"; scalar 3 "workerId" "string";
     scalar 4 "proofKeyId" "string"; enum_field 5 "proofAlgorithm"; scalar 6 "audience" "string";
     enum_field 7 "purpose"; scalar 8 "clientNonce" "bytes"; scalar 9 "protocolVersion" "int32";
     scalar 10 "sdkVersion" "string"].

Definition challenge_type : msg_type :=
  MsgType "WorkerHandshakeChallenge"
    [scalar 1 "requestId" "string"; scalar 2 "challengeId" "string"; scalar 3 "traceId" "string";
     scalar 4 "workerId" "string"; scalar 5 "agentId" "string"; scalar 6 "tenantId" "string";
     scalar 7 "proofKeyId" "string"; enum_field 8 "proofAlgorithm"; scalar 9 "serverKeyId" "string";
     scalar 10 "audience" "string"; enum_field 11 "purpose"; scalar 12 "clientNonce" "bytes";
     scalar 13 "serverNonce" "bytes"; scalar 14 "protocolVersion" "int32"; scalar 15 "sdkVersion" "string";
     nested 16 "issuedAt" timestamp_type; nested 17 "expiresAt" timestamp_type].

Definition capability_type : msg_type :=
  MsgType "Handshake"
    [scalar 1 "componentId" "string"; enum_field 2 "role";
     Field 3 "supportedVersions" "int32" true false "" true None Unresolved;
     Field 4 "capabilities" "bool" false true "string" false None Unresolved;
     scalar 5 "sdkVersion" "string"; Field 6 "readyTopics" "string" true false "" false None Unresolved;
     scalar 7 "agentName" "string"].

Definition authenticate_type : msg_type :=
  MsgType "WorkerHandshakeAuthenticate"
    [nested 1 "challenge" challenge_type; nested 2 "capabilityHandshake" capability_type].

Definition result_type : msg_type :=
  MsgType "WorkerHandshakeResult"
    [nested 1 "challenge" challenge_type; scalar 2 "accepted" "bool"; enum_field 3 "rejectionReason";
     nested 4 "tokenExpiresAt" timestamp_type; nested 5 "issuedAt" timestamp_type].

Definition packet_schema : msg_type :=
  MsgType "BusPacket"
    [scalar 1 "traceId" "string"; scalar 2 "senderId" "string"; nested 3 "createdAt" timestamp_type;
     scalar 4 "protocolVersion" "int32"; scalar 14 "signature" "bytes"; scalar 18 "authToken" "string";
     nested 19 "workerHandshakeChallengeRequest" request_type; nested 20 "workerHandshakeChallenge" challenge_type;
     nested 21 "workerHandshakeAuthenticate" authenticate_type; nested 22 "workerHandshakeResult" result_type].

(** A decoded message reads absent fields from its prototype. *)
Definition field_default (f : field) : jsval :=
  if f_map f then JPlain []
  else if f_repeated f then JArr []
  else match f_resolved f with
       | ResolvedMessage _ => JNull
       | ResolvedEnum => JNum (NInt 0)
       | Unresolved =>
           if String.eqb (f_type f) "string" then JStr []
           else if String.eqb (f_type f) "bytes" then JBytes []
           else if String.eqb (f_type f) "bool" then JBool false
           else JNum (NInt 0)
       end.

Fixpoint instantiate (depth : nat) (t : msg_type) (v : jsval) : jsval :=
  match depth, v with
  | S depth, JObj own _ =>
      JObj (map (fun '(k, x) =>
              (k, match find (fun f => bool_decide (js (f_name f) = k)) (mt_fields t) with
                  | Some f => match f_resolved f with ResolvedMessage t' => instantiate depth t' x | _ => x end
                  | None => x
                  end)) own)
           ((js "$type", JBool true) :: map (fun f => (js (f_name f), field_default f)) (mt_fields t))
  | _, _ => v
  end.

Definition tree_codec (t : msg_type) : codec_type := {|
  ct_schema := t;
  toObject := fun v => v;
  ct_encode := fun v => Ok (write_value v) |}.

(** The packet travels as the content of its first field. *)
Definition packet_codec : trust_type := {|
  tt_codec := {| ct_schema := packet_schema; toObject := fun v => v;
                 ct_encode := fun v => let d := write_value v in Ok (10 :: encodeVarint (zlen d) ++ d) |};
  tt_decode := fun d =>
    match d with
    | 10 :: d =>
        let! n := WireSchema.readVarint d 0 in
        match read_value 20 (drop (Z.to_nat n.2) d) with
        | Some (v, []) => Ok (instantiate 4 packet_schema v)
        | _ => throw PlainError (js "invalid wire")
        end
    | _ => throw PlainError (js "invalid wire")
    end |}.

Definition tree_root : trust_root := {|
  lookupType := fun name =>
    tree_codec
      (if String.eqb name "google.protobuf.Timestamp" then timestamp_type
       else if String.eqb name "cordum.agent.v1.WorkerHandshakeChallengeRequest" then request_type
       else if String.eqb name "cordum.agent.v1.WorkerHandshakeChallenge" then challenge_type
       else if String.eqb name "cordum.agent.v1.WorkerHandshakeAuthenticate" then authenticate_type
       else result_type);
  bus_type := packet_codec |}.

Definition varint_writer : writer_api.
Proof.
  refine {| wr_uint32 := encodeVarint; wr_int32 := encodeVarint;
            wr_bytes := fun b => encodeVarint (zlen b) ++ b;
            wr_string := fun s => encodeVarint (zlen (utf8 s)) ++ utf8 s; wr_utf8 := utf8 |}; done.
Defined.

(** ** Keys

    A key is a number; a signature binds the key and a checksum of the
    message, in the smallest DER form. *)
Inductive toy_key : Set := ToyKey (private : bool) (id : Z).

Definition checksum (m : bytes) : Z := fold_left (fun acc x => (acc * 31 + x) mod 16000) m 7.

Definition toy_signature (id : Z) (m : bytes) : bytes :=
  [0x30; 7; 0x02; 1; id; 0x02; 2; 1 + checksum m / 128; checksum m mod 128].

Definition toy_key_api : key_api.
Proof.
  refine {| key_object := toy_key; key_like := toy_key;
            as_key_object := fun k => Some k; of_key_object := fun k => k;
            create_private := fun k => Ok k;
            create_public := fun '(ToyKey _ id) => Ok (ToyKey false id);
            ko_type := fun '(ToyKey p _) => if p then js "private" else js "public";
            ko_kind := fun _ => Some (js "ec"); ko_curve := fun _ => Some (js "prime256v1");
            ko_sign := fun '(ToyKey _ id) m => toy_signature id m;
            ko_verify := fun '(ToyKey _ id) m s => Ok (bool_decide (s = toy_signature id m));
            ko_sha256 := fun m => [checksum m]; ko_export := fun '(ToyKey _ id) => [id] |}.
  done.
Defined.

Lemma checksum_bound m : 0 <= checksum m < 16000.
Proof.
  unfold checksum. assert (0 <= 7 < 16000) as H by lia. revert H. generalize 7 as a.
  induction m as [|x m IH]; intros a Ha; [done|]. cbn [fold_left]. apply IH. apply Z.mod_pos_bound. lia.
Qed.

Lemma toy_signature_strict m : isStrictDerSignature (toy_signature 3 m) = true.
Proof.
  pose proof (checksum_bound m). set (a := 1 + checksum m / 128). set (b := checksum m mod 128).
  assert (0 <= checksum m / 128 < 126) by (split; [apply Z.div_pos; lia | apply Z.div_lt_upper_bound; lia]).
  assert (0 <= b < 128) by (apply Z.mod_pos_bound; lia).
  apply (strict_der_complete 3 (a * 256 + b)).
  apply (der_intro 3 (a * 256 + b) [3] [a; b]).
  - apply integer_bytes_small. lia.
  - apply (integer_bytes_snoc a b [a]); [lia | lia | done |]. apply integer_bytes_small. lia.
Qed.

Lemma toy_key_pair : key_pair toy_key_api (ToyKey true 3) (ToyKey false 3).
Proof. intros m. split; [apply toy_signature_strict|]. cbn. by rewrite bool_decide_eq_true_2. Qed.

(** ** A handshake *)

Definition t0 : Z := 1767225600000.

Definition worker_config : WorkerTrustConfig toy_key_api := {|
  workerId := JStr (js "worker-1"); expectedAgentId := JStr (js "agent-1");
  tenantId := JStr (js "tenant-1"); wt_audience := JStr (js "cordum-scheduler");
  proofKeyId := JStr (js "proof-1"); proofPrivateKey := (ToyKey true 3 : key_like toy_key_api);
  expectedSchedulerId := JStr (js "scheduler-1");
  schedulerPublicKeys := Some [(js "server-1", (ToyKey false 3 : key_like toy_key_api))];
  sdkVersion := JStr (js "cap-node/v2") |}.

Definition sample_nonce : bytes := repeat 7 32.

Definition request_options : WorkerHandshakeRequestOptions := {|
  ro_requestId := JStr (js "req1"); ro_traceId := JStr (js "trace1");
  ro_purpose := JNum (NInt 1); ro_clientNonce := JBytes sample_nonce; ro_createdAt := Some t0 |}.

Definition or_undefined (r : result jsval) : jsval := match r with Ok v => v | _ => JUndef end.

Definition the_request : jsval :=
  or_undefined (buildChallengeRequest toy_key_api varint_writer tree_root worker_config request_options).

Definition stamp_at (ms : Z) : jsval := or_undefined (timestampFromDate (Some ms)).

Definition the_challenge : jsval := JPlain [
  (js "requestId", JStr (js "req1")); (js "challengeId", JStr (js "challenge-1"));
  (js "traceId", JStr (js "trace1")); (js "workerId", JStr (js "worker-1"));
  (js "agentId", JStr (js "agent-1")); (js "tenantId", JStr (js "tenant-1"));
  (js "proofKeyId", JStr (js "proof-1")); (js "proofAlgorithm", JNum (NInt 1));
  (js "serverKeyId", JStr (js "server-1")); (js "audience", JStr (js "cordum-scheduler"));
  (js "purpose", JNum (NInt 1)); (js "clientNonce", JBytes sample_nonce);
  (js "serverNonce", JBytes (repeat 9 32)); (js "protocolVersion", JNum (NInt 1));
  (js "sdkVersion", JStr (js "cap-node/v2")); (js "issuedAt", stamp_at (t0 + 10));
  (js "expiresAt", stamp_at (t0 + 30010))].

(** What a scheduler sends, signed with its key. *)
Definition scheduler_packet (payload : list (jsstr * jsval)) (ms : Z) : jsval :=
  or_undefined (signWorkerTrustPacket varint_writer tree_root toy_key_api
    (JPlain ([(js "traceId", JStr (js "trace1")); (js "senderId", JStr (js "scheduler-1"));
              (js "createdAt", stamp_at ms); (js "protocolVersion", JNum (NInt 1))] ++ payload))
    [(js "server-1", ToyKey true 3 : key_like toy_key_api)]).

Definition challenge_packet : jsval :=
  scheduler_packet [(js "workerHandshakeChallenge", the_challenge)] (t0 + 10).

Definition the_verified : result VerifiedWorkerHandshakeChallenge :=
  verifyChallenge toy_key_api minimal_reader varint_writer tree_root worker_config the_request
    (Ok challenge_packet) (Some (t0 + 20)).

Definition no_verified : VerifiedWorkerHandshakeChallenge := {| vc_packets := None |}.
Definition verified_value : VerifiedWorkerHandshakeChallenge :=
  match the_verified with Ok v => v | _ => no_verified end.

Definition the_capability : jsval := JPlain [
  (js "componentId", JStr (js "worker-1")); (js "role", JNum (NInt 3));
  (js "capabilities", JPlain [(js "cancel", JBool true)]); (js "readyTopics", JArr [JStr (js "job.echo")]);
  (js "supportedVersions", JArr [JNum (NInt 1)]); (js "sdkVersion", JStr (js "cap-node/v2"))].

Definition the_authenticate : jsval :=
  or_undefined (buildAuthenticate toy_key_api varint_writer tree_root worker_config verified_value
    the_capability (JStr []) (Some (t0 + 25))).

Definition result_packet : jsval :=
  scheduler_packet
    [(js "authToken", JStr (js "token-1"));
     (js "workerHandshakeResult", JPlain [
        (js "challenge", the_challenge); (js "accepted", JBool true); (js "rejectionReason", JNum (NInt 0));
        (js "tokenExpiresAt", stamp_at (t0 + 600000)); (js "issuedAt", stamp_at (t0 + 40))])] (t0 + 40).

Definition the_session : WorkerHandshakeSession := {|
  ss_token := JStr (js "token-1"); ss_issuedAt := Some (t0 + 40); ss_expiresAt := Some (t0 + 600000) |}.

Example handshake_runs :
  is_ok (buildChallengeRequest toy_key_api varint_writer tree_root worker_config request_options) = true /\
  is_ok the_verified = true /\
  verifyResult toy_key_api varint_writer tree_root worker_config verified_value the_authenticate
    (Ok result_packet) (Some (t0 + 50)) = Ok the_session.
Proof. vm_compute. repeat split; reflexivity. Qed.

(** A challenge for another tenant, or an answer with another nonce, is
    refused. *)
Example handshake_refuses :
  map (fun ch => is_ok (verifyChallenge toy_key_api minimal_reader varint_writer tree_root worker_config
         the_request (Ok (scheduler_packet [(js "workerHandshakeChallenge", ch)] (t0 + 10))) (Some (t0 + 20))))
    [the_challenge; set "tenantId" (JStr (js "tenant-2")) the_challenge;
     set "clientNonce" (JBytes (repeat 8 32)) the_challenge] = [true; false; false].
Proof. vm_compute. reflexivity. Qed.

(** ** Witnesses *)

Definition request_data : bytes :=
  match marshalWorkerTrustPacket packet_codec the_request with Ok d => d | _ => [] end.

Definition decoded_request : jsval :=
  or_undefined (unmarshalWorkerTrustPacket minimal_reader packet_codec request_data).

Lemma unmarshal_canonical_witness :
  marshalWorkerTrustPacket packet_codec decoded_request = Ok request_data /\
  (forall data', unmarshalWorkerTrustPacket minimal_reader packet_codec data' = Ok decoded_request ->
                 data' = request_data).
Proof. apply (unmarshal_canonical minimal_reader). vm_compute. reflexivity. Defined.

Definition request_transcript : bytes :=
  match workerTrustTranscript varint_writer tree_root the_request with Ok t => t | _ => [] end.

Lemma workerTrustTranscript_injective_witness :
  exists phase fs, workerTrustPhase the_request = Ok phase /\ workerTrustPhase decoded_request = Ok phase /\
    signed_fields varint_writer tree_root the_request phase fs /\
    signed_fields varint_writer tree_root decoded_request phase fs.
Proof.
  apply (workerTrustTranscript_injective varint_writer tree_root the_request decoded_request request_transcript);
    vm_compute; reflexivity.
Defined.

Definition unsigned_request : jsval := set "signature" (JBytes []) the_request.

Lemma toy_keys_match :
  matching_keys toy_key_api [(js "proof-1", ToyKey true 3)] [(js "proof-1", ToyKey false 3)].
Proof.
  intros keyId value priv Ha Hp. exists (ToyKey false 3), (ToyKey false 3). cbn [assoc] in *.
  destruct (bool_decide _); [|discriminate]. injection Ha as <-. injection Hp as <-.
  split; [done|]. split; [done|]. apply toy_key_pair.
Qed.

Lemma trust_sign_verify_witness :
  verifyWorkerTrustPacket varint_writer tree_root toy_key_api the_request
    [(js "proof-1", ToyKey false 3 : key_like toy_key_api)] = Ok true /\
  (forall k, k <> "signature"%string -> get the_request k = get (spread unsigned_request) k).
Proof.
  apply (trust_sign_verify varint_writer tree_root toy_key_api unsigned_request the_request
           [(js "proof-1", ToyKey true 3 : key_like toy_key_api)]).
  - exact toy_keys_match.
  - vm_compute. reflexivity.
Defined.

Definition challenge_data : bytes :=
  match marshalWorkerTrustPacket packet_codec challenge_packet with Ok d => d | _ => [] end.

Definition decoded_challenge : jsval :=
  or_undefined (unmarshalWorkerTrustPacket minimal_reader packet_codec challenge_data).

(** A decoded message has every field of its type on its prototype, so the
    [in] guard of a response accepts any phase; the packet is refused later. *)
Example in_guard_always_passes :
  truthy (get decoded_request "workerHandshakeChallenge") = false /\
  requireChallenge decoded_request = Ok decoded_request /\
  requireResult decoded_request = Ok decoded_request.
Proof. vm_compute. repeat split; reflexivity. Qed.

Definition result_data : bytes :=
  match marshalWorkerTrustPacket packet_codec result_packet with Ok d => d | _ => [] end.

(** A scheduler that answers the two requests of the sample exchange. *)
Definition the_scheduler (subject : jsstr) (data : bytes) : result bytes :=
  if bool_decide (subject = SUBJECT_WORKER_HANDSHAKE_CHALLENGE) then Ok challenge_data else Ok result_data.

Definition the_draws : exchange_draws := {|
  xd_requestUuid := js "re-q1"; xd_traceUuid := js "trace-1"; xd_nonce := sample_nonce;
  xd_created := Some t0; xd_challenged := Some (t0 + 20); xd_authenticated := Some (t0 + 25);
  xd_settled := Some (t0 + 50) |}.

Lemma exchange_session_witness :
  exists packet authenticate,
    asked toy_key_api worker_config request_options packet /\
    session_established toy_key_api varint_writer tree_root worker_config packet authenticate
      (Some (t0 + 50)) the_session /\
    (1 = 2 -> ss_token the_session <> JStr []).
Proof.
  apply (exchange_session toy_key_api minimal_reader varint_writer tree_root worker_config the_capability
           the_scheduler the_draws 1 []).
  vm_compute. reflexivity.
Defined.
