(* ===== verification/RuntimeSamples.v ===== *)
(** * The runtime: concrete instances

    Runs of the runtime's components over concrete parameters; they show that
    the hypotheses of the theorems can hold together. *)

From S2P Require Import Prelude JsString JsValue WireSchema ProductionSigning ProductionReplay ProductionProducer Validate Codec PacketBoundary WorkerTrustContract WorkerTrustFlow RuntimeTrustConfig WorkerTrustLifecycle RuntimeWorkerTrust ProductionAdmission TrustSamples.

(** The value of a computation that returns. *)
Definition ok_value {A} (d : A) (r : result A) : A := match r with Ok a => a | _ => d end.

Lemma is_ok_value {A} (d : A) (r : result A) : is_ok r = true -> r = Ok (ok_value d r).
Proof. by destruct r. Qed.

(** ** Settings *)

Definition enforce_options : RuntimeTrustOptions toy_key_api := {|
  to_mode := JStr (js " Enforce"); to_config := Some worker_config; to_timeoutMs := JUndef;
  to_retries := JNum (NInt 2); to_renewMinIntervalMs := JNum (NInt 1000) |}.

Definition enforce_settings : RuntimeTrustSettings toy_key_api :=
  ok_value (warn_settings toy_key_api worker_config)
    (resolveRuntimeTrustSettings toy_key_api enforce_options (js "worker-1") []).

Lemma resolveRuntimeTrustSettings_settled_witness :
  settled toy_key_api (js "worker-1") enforce_settings /\ st_retries enforce_settings = NInt 2.
Proof.
  split; [|vm_compute; reflexivity].
  apply (resolveRuntimeTrustSettings_settled toy_key_api enforce_options (js "worker-1") []).
  apply is_ok_value. vm_compute. reflexivity.
Defined.

(** ** The session lifecycle *)

Definition granted_1 : WorkerHandshakeSession := sample_session "t1" 600000.

Definition open_turns : list (Z * turn) :=
  [(0, Authenticate 1); (0, QueueRuns); (10, ExchangeSettles (Granted granted_1)); (10, StartRenewal)].

Definition played (turns : list (Z * turn)) : lifecycle * list (list output) :=
  default (new_lifecycle, []) (play toy_key_api worker_config turns new_lifecycle).

Lemma played_reachable turns :
  play toy_key_api worker_config turns new_lifecycle <> None ->
  reachable (warn_settings toy_key_api worker_config) (concat (played turns).2)
    (concat (map (fun nt => grants nt.2) turns)) (played turns).1.
Proof.
  unfold played. destruct (play _ _ _ _) as [[s os]|] eqn:E; [|done]. intros _. cbn.
  exact (play_reachable _ _ turns [] [] _ _ _ (reach_new _) E).
Qed.

Lemma lifecycle_invariant_witness :
  (sessionToken 500 (played open_turns).1).1 = JStr (js "t1") /\
  exists x ms, In x [granted_1] /\ (sessionToken 500 (played open_turns).1).1 = ss_token x /\
               ss_expiresAt x = Some ms /\ 500 < ms.
Proof.
  split; [vm_compute; reflexivity|].
  apply (lifecycle_invariant (warn_settings toy_key_api worker_config) (concat (played open_turns).2)
           [granted_1] (played open_turns).1).
  - apply (played_reachable open_turns). vm_compute. discriminate.
  - vm_compute. reflexivity.
Defined.

(** Before a renewal that the scheduler refuses. *)
Definition renewing_turns : list (Z * turn) := open_turns ++ [(300010, RenewWakes); (300010, QueueRuns)].

Definition refused : exn := Exn WorkerTrustRuntimeError (js "refused").

Definition refused_turn : option (lifecycle * list output) :=
  take_turn (warn_settings toy_key_api worker_config) 300020 (ExchangeSettles (Failed refused)) (played renewing_turns).1.

Definition refused_result : lifecycle * list output := default (new_lifecycle, []) refused_turn.

Lemma failed_renewal_revokes_witness :
  current (played renewing_turns).1 = Some granted_1 /\ current refused_result.1 = None.
Proof.
  split; [vm_compute; reflexivity|].
  apply (failed_renewal_revokes (warn_settings toy_key_api worker_config) (concat (played renewing_turns).2)
           [granted_1] (played renewing_turns).1 300020 (ExchangeSettles (Failed refused))
           refused_result.1 refused_result.2 (Throw trust_failed_error)).
  - apply (played_reachable renewing_turns). vm_compute. discriminate.
  - vm_compute. reflexivity.
  - vm_compute. left. reflexivity.
Defined.

Definition busy_turns : list (Z * turn) :=
  [(0, Authenticate 1); (0, Reauthenticate 2); (0, QueueRuns)].

Definition unreachable (_ : nat) : Z * reply := (0, Failed refused).

Lemma queue_drains_witness :
  pending (serve (warn_settings toy_key_api worker_config) 20 unreachable (played busy_turns).1).1 = [] /\
  settled_owners (serve (warn_settings toy_key_api worker_config) 20 unreachable (played busy_turns).1).2
  = [Caller 1; Caller 2].
Proof.
  assert (pending (played busy_turns).1 = [Caller 1; Caller 2]) as <- by (vm_compute; reflexivity).
  destruct (queue_drains (warn_settings toy_key_api worker_config) (concat (played busy_turns).2) []
              (played busy_turns).1 3 20 unreachable) as (H1 & H2 & _).
  - apply (played_reachable busy_turns). vm_compute. discriminate.
  - reflexivity.
  - lia.
  - vm_compute. discriminate.
  - split; [exact H1 | exact H2].
Defined.

(** ** Inbound admission *)

(** [toy_crypto] with the exported scheduler key for its PEM. *)
Definition pin_crypto : crypto := {|
  public_key := unit;
  createPublicKey := fun pem => if bool_decide (pem = [3]) then Ok tt else throw TypeError [];
  asymmetricKeyType := fun _ => js "ec";
  namedCurve := fun _ => Some (js "prime256v1");
  ProductionSigning.verify := ProductionSigning.verify toy_crypto;
  sha256 := sha256 toy_crypto |}.

Definition scheduler_sent : jsval :=
  (encodeOutboundPacket toy_sign boundary_type
     (set "heartbeat" (JPlain [(js "workerId", JStr (js "scheduler-1"))])
        (set "senderId" (JStr (js "scheduler-1")) (JPlain heartbeat_packet))) (Some (js "KEY"))).2.

Definition scheduler_received : jsval :=
  match stripDefaults boundary_schema scheduler_sent with
  | JObj own _ => JObj own [(js "$type", JBool true)]
  | v => v
  end.

Definition trust_0 : RuntimeWorkerTrust toy_key_api :=
  ok_value {| rw_settings := enforce_settings; rw_capability := JUndef; rw_pins := []; rw_lifecycle := None;
              rw_admitting := false; rw_settled := [] |}
    (new_trust enforce_options (js "worker-1") [js "job.echo"] []).

(** An internal turn of the lifecycle, when it is enabled. *)
Definition turn_of (now : Z) (t : turn) (st : RuntimeWorkerTrust toy_key_api) : RuntimeWorkerTrust toy_key_api :=
  match rw_lifecycle st with
  | Some l => match take_turn (rw_settings st) now t l with Some r => lifecycle_turn r st | None => st end
  | None => st
  end.

Definition resume_of (st : RuntimeWorkerTrust toy_key_api) : RuntimeWorkerTrust toy_key_api :=
  match rw_settled st with o :: rest => trust_resume o (set_settled rest st) | [] => st end.

Lemma turn_of_reachable now t st :
  internal t = true -> trust_reachable trust_0 st -> trust_reachable trust_0 (turn_of now t st).
Proof.
  intros Hi Hr. unfold turn_of. destruct (rw_lifecycle st) eqn:Hl; [|done].
  destruct (take_turn _ _ _ _) eqn:Ht; [|done]. eapply trust_next; [done|]. by eapply step_lifecycle.
Qed.

Lemma resume_of_reachable st : trust_reachable trust_0 st -> trust_reachable trust_0 (resume_of st).
Proof.
  intros Hr. unfold resume_of. destruct (rw_settled st) eqn:Hq; [done|]. eapply (trust_next _ 0); [done|].
  by eapply step_resume.
Qed.

Definition trust_exchanged : RuntimeWorkerTrust toy_key_api :=
  turn_of 10 (ExchangeSettles (Granted granted_1)) (turn_of 0 QueueRuns (trust_authenticate trust_0).2).

Lemma trust_exchanged_reachable : trust_reachable trust_0 trust_exchanged.
Proof.
  do 2 (apply turn_of_reachable; [done|]). eapply (trust_next _ 0); [constructor|]. by apply step_authenticate.
Qed.

Lemma verifyInbound_admits_witness :
  exists l log granted x ms, rw_lifecycle (resume_of trust_exchanged) = Some l /\
    reachable (rw_settings trust_0) log granted l /\ closed l = false /\ In x granted /\
    truthy (ss_token x) = true /\ ss_expiresAt x = Some ms /\ 500 < ms.
Proof.
  destruct (verifyInbound_admits pin_crypto boundary_type enforce_options (js "worker-1") [js "job.echo"] []
              trust_0 (resume_of trust_exchanged) 500 scheduler_received None) as [[H _]|(_ & _ & _ & H)].
  - apply is_ok_value. vm_compute. reflexivity.
  - apply resume_of_reachable, trust_exchanged_reachable.
  - split; vm_compute; reflexivity.
  - vm_compute. reflexivity.
  - vm_compute in H. discriminate H.
  - apply H. vm_compute. reflexivity.
Defined.

(** The continuation of [authenticate] sets the flag also when the object was
    closed meanwhile.  Under enforce the missing session still refuses the
    packet; in warn mode it is admitted. *)
Definition closed_before_resume (st0 : RuntimeWorkerTrust toy_key_api) : RuntimeWorkerTrust toy_key_api :=
  resume_of (trust_close (turn_of 10 (ExchangeSettles (Granted granted_1))
    (turn_of 0 QueueRuns (trust_authenticate st0).2))).

Definition warn_trust : RuntimeWorkerTrust toy_key_api :=
  {| rw_settings := warn_settings toy_key_api worker_config; rw_capability := rw_capability trust_0;
     rw_pins := rw_pins trust_0; rw_lifecycle := None; rw_admitting := false; rw_settled := [] |}.

Example admitting_after_close :
  map (fun st0 => let st := closed_before_resume st0 in
         (rw_admitting st, (verifyInbound pin_crypto boundary_type 500 scheduler_received None st).1.1))
    [trust_0; warn_trust] = [(true, Ok false); (true, Ok true)].
Proof. vm_compute. reflexivity. Qed.

(** ** Production packets *)

Definition no_config : option (WorkerTrustConfig toy_key_api) := None.

Definition decode_sample (now : Z) (store : InMemoryReplayStore) : result (option jsval) * InMemoryReplayStore * list jsstr :=
  decodeProductionPacket toy_crypto toy_verifier sample_trust no_config exn_message sample_signed
    (Some (js "aud")) now store.

Definition store_after (now : Z) : InMemoryReplayStore := (decode_sample now empty_store).1.2.

Lemma decodeProductionPacket_iff_witness :
  admitted toy_crypto toy_verifier sample_trust no_config sample_signed (Some (js "aud")) 1700000000500
    empty_store full_packet (store_after 1700000000500).
Proof.
  apply (decodeProductionPacket_iff toy_crypto toy_verifier full_schema_wf sample_trust no_config exn_message).
  vm_compute. reflexivity.
Defined.

