(* ===== verification/JobSamples.v ===== *)
(** * One job: concrete instances

    An agent over concrete parameters, and the runs of [onMessage] that show
    the hypotheses of the theorems can hold together. *)

From S2P Require Import Prelude JsString JsValue Protos WireSchema ProductionSigning ProductionReplay ProductionProducer ProductionEvents Validate Codec PacketBoundary WorkerTrustContract WorkerTrustFlow RuntimeTrustConfig WorkerTrustLifecycle RuntimeWorkerTrust ProductionAdmission Json BlobStore Effects Runtime JobAnswer TrustSamples RuntimeSamples.

(** ** Payloads *)

Definition sample_value : jsval := JPlain [(js "n", JNum (NInt 7)); (js "ok", JBool true)].

Lemma sample_value_data : json_data sample_value.
Proof.
  split; [done|]. split; [repeat constructor; set_solver|]. split; [vm_compute; reflexivity|]. cbn.
  repeat split; try lia; repeat constructor; lia.
Qed.

(** ** An agent *)

Definition job_schema : msg_type :=
  MsgType ".cordum.agent.v1.BusPacket"
    (map (fun '(i, n) => Field i n "string" false false "" true None Unresolved)
       [(1, "traceId"); (2, "senderId"); (4, "protocolVersion"); (3, "createdAt");
        (5, "jobRequest"); (6, "jobResult"); (14, "signature"); (18, "authToken")]%string).

Definition job_codec : codec_type := {|
  ct_schema := job_schema;
  toObject := fun v => JPlain (copy_fields (mt_fields job_schema) v);
  ct_encode := ct_encode boundary_type |}.

Definition sample_job : jsval :=
  JPlain [(js "jobId", JStr (js "job-1")); (js "topic", JStr (js "job.echo")); (js "contextPtr", JStr (js "redis://ctx:1"))].

Definition job_sent : jsval :=
  (encodeOutboundPacket toy_sign job_codec
     (JPlain [(js "traceId", JStr (js "w1")); (js "senderId", JStr (js "scheduler-1"));
              (js "protocolVersion", JNum (NInt 1));
              (js "createdAt", JPlain [(js "seconds", JNum (NInt 1700000000))]);
              (js "jobRequest", sample_job)]) (Some (js "KEY"))).2.

Definition job_received : jsval :=
  match job_sent with JObj own _ => JObj own [(js "$type", JBool true)] | v => v end.

Definition job_types : bus_types := {|
  bt_packet := {| pt_schema := job_schema; pt_decode := fun _ => Ok job_received |};
  bt_codec := job_codec;
  bt_producer := toy_producer;
  bt_fromObject := fun v => Ok v;
  jobResult_fromObject := fun v => Ok v |}.

Definition job_config : config := {|
  cf_senderId := js "worker-1"; cf_publicKeyMap := None; cf_privateKey := None; cf_ioTimeoutMs := NInt 5000;
  cf_maxContextBytes := Some (NInt 2097152); cf_maxResultBytes := Some (NInt 2097152); cf_production := None |}.

Definition sample_agent : agent (U:=Z) (B:=InMemoryBlobStore) (R:=InMemoryReplayStore) (K:=toy_key_api) := {|
  ag_trust := Some (resume_of trust_exchanged); ag_nc := true; ag_busPacketType := true; ag_jobResultType := true;
  ag_store := Some (<[js "ctx:1" := utf8 (js "[1, 2]")]> ∅ : InMemoryBlobStore);
  ag_activeJobCount := 0; ag_middlewares := []; ag_replay := empty_store; ag_user := 0 |}.

(** The outside answers at once; the clock stands at 500. *)
Definition sample_env : environment (U:=Z) (B:=InMemoryBlobStore) (R:=InMemoryReplayStore) (K:=toy_key_api) := {|
  env_clock := fun _ => 500; env_timer_first := fun _ => false; env_messageId := fun _ => repeat 1 16;
  env_others := fun _ a => a; env_metric := fun _ u => (Ok tt, u); env_publish := fun _ => Ok tt;
  env_sign := toy_sign; env_crypto := pin_crypto; env_syntax_message := id |}.

(** A handler that throws on its first call and then returns its input. *)
Definition flaky : HandlerSpec (U:=Z) := {|
  topic := js "job.echo";
  handler := fun _ input calls => (if calls =? 0 then throw PlainError (js "busy") else Ok (Value input), calls + 1);
  inputSchema := None; outputSchema := None; retries := NInt 2 |}.

Definition sample_task : task (agent (U:=Z) (B:=InMemoryBlobStore) (R:=InMemoryReplayStore) (K:=toy_key_api)) event :=
  Task sample_agent 0 [].

Definition sample_run : result unit * task _ event :=
  onMessage job_config job_types sample_env 9 [] None flaky sample_task.

Example sample_run_trace :
  sample_run.1 = Ok tt /\
  map (fun e => match e with
                | EAttempt n _ => (n, [])
                | EStored key _ => (-1, key)
                | EPublished r _ => (-2, match get r "status" with JStr s => s | _ => [] end)
                | _ => (-3, [])
                end) (visible (tk_events sample_run.2))
  = [(0, []); (1, []); (-1, js "res:job-1"); (-2, js "JOB_STATUS_SUCCEEDED")].
Proof. vm_compute. split; reflexivity. Qed.

(** ** Witnesses *)

Lemma sample_answers : answers job_types sample_env flaky.
Proof.
  split; try done.
  - intros v. cbn [bt_producer job_types encode toy_producer]. unfold toy_encode. cbn zeta. by destruct (_ && _).
  - intros ctx v u. cbn [handler flaky fst]. by destruct (u =? 0).
Qed.

Definition sample_admission_run : result (option jsval) * task _ event :=
  receive job_config job_types sample_env [] None sample_task.

Lemma fst_eq {X Y} (p : X * Y) x : p.1 = x -> p = (x, p.2).
Proof. by intros <-; destruct p. Qed.

Lemma job_answered_once_witness :
  exists evs, tk_events sample_run.2 = [] ++ evs /\
    job_trace 2 (cf_maxResultBytes job_config) (js "worker-1") sample_job sample_run.1 (recorded evs) /\
    ag_activeJobCount (tk_state sample_run.2) = 0 + net evs.
Proof.
  apply (job_answered_once job_config job_types sample_env flaky 2 9 [] None job_received sample_task
           sample_admission_run.2).
  - exact sample_answers.
  - intros n a Ha. exact Ha.
  - intros n a _ Ha. exact Ha.
  - reflexivity.
  - discriminate.
  - reflexivity.
  - reflexivity.
  - reflexivity.
  - apply Forall_nil_2.
  - vm_compute. discriminate.
  - apply fst_eq. vm_compute. reflexivity.
  - vm_compute. reflexivity.
  - vm_compute. reflexivity.
Defined.

(** The next job reads the result of this one. *)
Definition finished_run : result unit * task _ event :=
  finish_job job_config job_types sample_env (context_of sample_job job_received) sample_job (Value sample_value) 0 None sample_task.

Definition finished_store : InMemoryBlobStore := default ∅ (ag_store (tk_state finished_run.2)).

Definition sample_payload : bytes :=
  default [] (match serializeOutput (Value sample_value) with Ok d => Some d | _ => None end).

Definition next_job : jsval :=
  JPlain [(js "jobId", JStr (js "job-2")); (js "contextPtr", JStr (pointerForKey (js "res:job-1")))].

Lemma result_feeds_input_witness :
  ((let* payload := fetch_context job_config sample_env next_job in
    lift (parsePayload (env_syntax_message sample_env) payload)) finished_run.2).1 = Ok sample_value.
Proof.
  destruct (result_feeds_input (fun _ => True) job_config job_types sample_env (context_of sample_job job_received) sample_job
              sample_value 0 None sample_task finished_run.2 (<[js "ctx:1" := utf8 (js "[1, 2]")]> ∅ : InMemoryBlobStore))
    as (data & Hd & _ & Hnext).
  - intros data _. exact I.
  - exact sample_value_data.
  - reflexivity.
  - unfold finished_run. apply fst_eq. vm_compute. reflexivity.
  - assert (data = sample_payload) as -> by (unfold sample_payload; rewrite Hd; reflexivity).
    apply (Hnext job_config sample_env next_job finished_run.2 finished_store); vm_compute; reflexivity.
Defined.

Lemma job_schema_wf : wf_type job_schema.
Proof. constructor; repeat constructor; cbn; try lia; intros; discriminate. Qed.

Lemma runs_only_admitted_witness :
  exists packet now, truthy (get (get packet "jobRequest") "jobId") = true /\
    Ok job_received = Ok packet /\
    inbound_admitted pin_crypto job_codec trust_0 (resume_of trust_exchanged) now packet None.
Proof.
  apply (runs_only_admitted job_config job_types sample_env flaky enforce_options (js "worker-1") [js "job.echo"] []
           trust_0 (resume_of trust_exchanged) 9 [] None sample_task (tk_events sample_run.2)).
  - exact job_schema_wf.
  - intros d p [= <-]. split; vm_compute; reflexivity.
  - apply is_ok_value. vm_compute. reflexivity.
  - apply resume_of_reachable, trust_exchanged_reachable.
  - reflexivity.
  - change (tk_events sample_task) with (@nil event). rewrite app_nil_l. unfold sample_run. reflexivity.
  - vm_compute. discriminate.
Defined.

(** ** Corner cases *)

(** The output schema rejects with an empty message: the loop takes the empty
    text for the absence of an error and publishes the output the schema
    rejected as a success. *)
Definition strict_spec (message : jsstr) : HandlerSpec (U:=Z) := {|
  topic := js "job.echo"; handler := fun _ _ calls => (Ok (Value (JStr (js "unchecked"))), calls);
  inputSchema := None; outputSchema := Some (fun _ u => (throw PlainError message, u)); retries := NInt 0 |}.

Definition statuses (r : result unit * task (agent (U:=Z) (B:=InMemoryBlobStore) (R:=InMemoryReplayStore) (K:=toy_key_api)) event)
    : list jsval :=
  omap (fun e => match e with EPublished o _ => Some (get o "status") | _ => None end) (tk_events r.2).

Example empty_message_is_success :
  map (fun m => statuses (onMessage job_config job_types sample_env 9 [] None (strict_spec (js m)) sample_task))
    ["bad"; ""]%string
  = [[JStr (js "JOB_STATUS_FAILED")]; [JStr (js "JOB_STATUS_SUCCEEDED")]].
Proof. vm_compute. reflexivity. Qed.

(** When the result cannot be published, the job is counted as completed and
    then as failed. *)
Definition unpublished_env : environment (U:=Z) (B:=InMemoryBlobStore) (R:=InMemoryReplayStore) (K:=toy_key_api) := {|
  env_clock := fun _ => 500; env_timer_first := fun _ => false; env_messageId := fun _ => repeat 1 16;
  env_others := fun _ a => a; env_metric := fun _ u => (Ok tt, u);
  env_publish := fun _ => throw (NatsError ConnectionClosed) (js "CONNECTION_CLOSED");
  env_sign := toy_sign; env_crypto := pin_crypto; env_syntax_message := id |}.

Example completed_then_failed :
  omap (fun e => match e with ECompleted _ _ _ => Some true | EFailed _ _ => Some false | _ => None end)
    (tk_events (onMessage job_config job_types unpublished_env 9 [] None flaky sample_task).2)
  = [true; false].
Proof. vm_compute. reflexivity. Qed.

(** [Math.max] gives back a count of retries that is not a number, and no
    attempt is then at most it: the handler never runs, and the job fails because
    there is no output to write. *)
Definition nan_spec : HandlerSpec (U:=Z) := {|
  topic := js "job.echo"; handler := fun _ _ calls => (Ok (Value (JStr (js "ran"))), calls);
  inputSchema := None; outputSchema := None; retries := num_max (NInt 0) NNaN |}.

Example nan_retries :
  (let r := onMessage job_config job_types sample_env 9 [] None nan_spec sample_task in
   (statuses r, omap (fun e => match e with EAttempt n _ => Some n | _ => None end) (tk_events r.2)))
  = ([JStr (js "JOB_STATUS_FAILED")], []).
Proof. vm_compute. reflexivity. Qed.
